(* ===== verification/_CoqProject ===== *)
-Q . S2P
Prelude.v
CMem.v
SbeCore.v
SbeCoreFacts.v
SbeCmds.v
SbeDataCmds.v
SbeCmdFacts.v
SbeSpec.v
SbeDataSpec.v
SbeMemory.v
SbeSession.v
SbeWitness.v
SbeTheorems.v
SbeLifecycle.v
Cronus.v
CronusFacts.v
CronusTheorems.v
Target.v
Pib.v
TargetFacts.v
TargetProbe.v
TargetRelease.v
Device.v
DeviceTheorems.v
DevTree.v
DevTreeFacts.v
DevTreeTheorems.v
Adu.v
AduTheorems.v
Ram.v
RamFacts.v
RamTheorems.v
Thread.v
ThreadTheorems.v
Walk.v
WalkTheorems.v
Chip.v
ChipFacts.v
ChipRam.v
ChipCore.v
ChipTheorems.v
ChipWitness.v
P8Chip.v
P8Ram.v
Sprs.v
Bits.v
Fsi.v
FsiFacts.v
FsiTheorems.v
P10Scom.v
P10Place.v
P10Theorems.v
P9Scom.v
P9Place.v
P9Theorems.v
SbeBack.v
SbeBackFacts.v
SbeBackOps.v
SbeBackTheorems.v
SbeApi.v
SbeApiTheorems.v
Access.v
AccessTheorems.v
Dtb.v
DtbTheorems.v
Cfam.v
CfamTheorems.v
CronusBack.v
Parse.v
ParseTheorems.v
PathSel.v
PathTheorems.v
TargetTheorems.v
Ring.v
RingTheorems.v
GdbParser.v
Gdb.v
GdbTheorems.v
Htm.v
HtmTheorems.v
