(* ===== verification/Prelude.v ===== *)
(** * pdbg: a verification development

    pdbg is a debugger for POWER processors that runs on the BMC or on the host. The
    repository holds four libraries and a command line tool:

    - libsbefifo talks to the Self Boot Engine (SBE) of a processor: it builds chip-op
      requests, sends them through the kernel driver or a transport of the caller, and
      takes the replies and the first failure data (FFDC) apart;
    - libcronus talks to a Cronus server over TCP: SCOM, CFAM and SBE access by a
      request/reply protocol;
    - libpdbg keeps the tree of targets read from device trees, probes and releases the
      targets, translates register addresses along the tree and hands each access to a back
      end (kernel, bit-banged FSI, host, SBE, Cronus);
    - libfdt, ccan and libi2c are vendored or thin wrappers;
    - src/ is the command line tool and a gdb server.

    The files

    - [Prelude]: machine integers with their wrap-around, big-endian bytes, slices of
      arrays, bit lemmas.
    - [CMem]: the C execution model: a heap of blocks, an allocator that may fail, return
      codes, crashes, and the weakest preconditions of its operations.
    - libsbefifo. [SbeCore] is connect.c, ffdc.c and operation.c; [SbeCmds] is cmd_control.c,
      cmd_scom.c, cmd_instruction.c, cmd_generic.c, cmd_mpipl.c and cmd_dump.c;
      [SbeDataCmds] is cmd_ring.c, cmd_array.c, cmd_memory.c and cmd_register.c, one
      definition per C function. The state is the [sbefifo_context], the heap, the driver
      and the trace of its calls. The driver and the transport are the class [Kernel], whose
      laws are the class [KernelOk]. [SbeCoreFacts] and [SbeCmdFacts] specify one exchange
      and the shape all commands share; [SbeSpec], [SbeDataSpec] and [SbeMemory] give the
      request and the decoding of each command; [SbeSession] treats the FFDC dump and whole
      sessions. [SbeWitness] is a concrete environment. The theorems are in [SbeTheorems] and
      [SbeLifecycle], which also shows defects.
    - libcronus. [Cronus] is buffer.c, request.c, connect.c, scom.c, cfam.c and sbefifo.c; the
      socket and the server are the class [Server]. [CronusFacts] describes buffers and
      answers, [CronusTheorems] holds the theorems and shows defects.
    - libpdbg, the tree. [Target] is the part of libpdbg.c, target.c and dtb.c that walks,
      probes and releases the tree; [Pib] is the address resolution and register access of
      target.c. The tree is a value ([dtree]), the statuses, the hardware (class [Hardware])
      and the trace of its calls are the state. The release operation of a core is part of the tree, since it goes
      back to the threads below. [TargetFacts], [TargetProbe] and [TargetRelease] hold the lemmas,
      [TargetTheorems] the theorems and small trees on which they are evaluated.
    - libpdbg, POWER10 addresses. [P10Scom] is p10_scom_addr.h and the translations of
      p10_fapi_targets.c; [P10Place] has the algebra of bit fields, a table-driven
      description of the address map and its laws; [P10Theorems] the theorems.
    - libpdbg, POWER9 addresses. [P9Scom] is p9_scom_addr.h and the translations of
      p9_fapi_targets.c; [P9Place] views an address as coordinates and gives the address map
      as moves between them; [P9Theorems] the theorems.

    - libpdbg, building the tree. [Device] is the properties and attributes of device.c, on
      the flattened trees as maps of properties; [DevTree] is the expansion of a flattened
      tree (a sequence of tags, as libfdt gives it), the order of the children, virtual nodes
      and paths. [DeviceTheorems], [DevTreeFacts] and [DevTreeTheorems] hold the lemmas and theorems.
    - libpdbg, memory. [Adu] is adu.c; in [AduTheorems] the classes [GetsMemory] and
      [PutsMemory] say what one access through a unit does ([PutsMemory] of a unit that honours the
      size of a transfer, or of one that writes whole aligned blocks only, as those of POWER8 and
      POWER9), the theorems what the loops over blocks make of it.
    - libpdbg, threads. [Ram] is chip.c: instructions that are fed to a stopped thread, the
      thread being the class [RamThread]. [RamFacts] decodes and executes the
      instructions, states what a thread that is [ready] promises ([RunsInstructions]) and
      runs sequences, [RamTheorems] holds the theorems and a thread.
      [Thread] is thread.c over the members of [struct thread] and [struct pib];
      [ThreadTheorems] compares its loops with lists. [Sprs] is the table of register names
      in sprs.c.
    - libpdbg, chips. [Chip] is p9chip.c and p10chip.c: one set of definitions over the
      registers of the two chips ([chip_regs]), with the state of the threads and cores
      ([chips]). [ChipFacts] says what SCOM access to a core does (class [Scom], [OnBus]),
      [ChipRam] shows that the ramming operations are a [RamThread], [ChipCore] treats cores,
      [ChipTheorems] holds the theorems, [ChipWitness] a core. [P8Chip] is p8chip.c and
      [P8Ram] its ramming.
    - libpdbg, walks. [Walk] is the walk of device.c over a subtree, the search for compatible
      nodes, addresses and hwunit.c; [WalkTheorems] the preorder and the theorems.
    - libpdbg, access through the SBE. [SbeBack] is sbefifo.c: it runs the commands of
      libsbefifo on the context of the SBE that belongs to a target. [SbeBackFacts] lifts a
      command from its context to the state of libpdbg ([does_on]) and says where a target is
      in the tree, [SbeBackOps] treats registers, memory and threads, [SbeBackTheorems] holds
      the theorems and an example of two processors. [SbeApi]
      is sbe_api.c, [SbeApiTheorems] the state of an SBE as a caller is told it.
    - libpdbg, entry points. [Access] is what target.c offers for memory, memory buffers and
      I2C, the traversal of libpdbg.c, and ocmb.c; [AccessTheorems] follows an access down to
      the command of the SBE, and the traversal to a preorder.
    - libpdbg, bridges. [Cfam] is cfam.c: SCOM through the FSI2PIB engine of a CFAM, FSI through
      the OPB bridge of a POWER8 processor, hub masters. [CfamTheorems] says what the engines
      promise (class [Fsi2Pib]) and treats the accesses.
    - libpdbg, the Cronus back end. [CronusBack] is cronus.c, on the model of libcronus, with
      the connection that all targets share.
    - libpdbg, the choice of device trees. [Dtb] is dtb.c over a record of what it asks of its
      surroundings; [DtbTheorems] says which trees can be chosen.
    - The tool. [Parse] is parsers.c and the lists of util.c with the functions of the C
      library they use, [ParseTheorems] writes numbers and lists and reads them back.
      [PathSel] is path.c; [PathTheorems] writes paths and reads them, says which
      targets a path names and that matching finds them.
    - The gdb server. [GdbParser] is gdb_parser_precompile.c: the tables and actions of the generated
      automaton, with its state, stack and buffer. [Gdb] is pdbgproxy.c: the commands of a client, breakpoints,
      stopping and starting the threads, and the rounds of the server. [GdbTheorems] says what a
      memory unit promises to it ([MemoryUnit]) and what a client gets.
    - libpdbg, the FSI bus. [Fsi] is bmcfsi.c over reads and writes of GPIO registers (class
      [Gpio]). [FsiFacts] has the frames, what a GPIO block does with its pins ([GpioBlock])
      and what a slave promises ([CfamSlave]), and treats checksums, messages, pins, clocks
      and frames on the wire; [FsiTheorems] treats the accesses
      and has a slave behind a GPIO block. [Bits] is on numbers as lists of bits.
    - libpdbg, rings. [Ring] is the scan of a ring in p9_fapi_targets.c and
      p10_fapi_targets.c, with the array that src/ring.c allocates; [RingTheorems] states what a
      scan unit promises ([ScanUnit]), follows the loop, and has the theorem, the boundary
      cases and a unit.
    - libpdbg, the hardware trace. [Htm] is htm.c: the status and setup of nest and core units, their memory, and
      the file of a trace; the files of the host are the class [TraceFiles]. In [HtmTheorems] the classes
      [HostFiles] and [TraceUnit] say what the host and a unit promise.

    What the theorems show

    - C1, C5: chip-ops refine a memory-free description: the exact request bytes, the
      replies they accept, the value or the error they return, no access outside the blocks
      they own; nothing is left on the heap, except the error data of an earlier call when a
      call times out. The memory read returns the memory the SBE serves. C9: parsing undoes framing.
    - C3, C4, C6: the same through libpdbg: registers, memory, threads and memory buffers
      are reached by the right command on the SBE of the right processor, and nothing else
      changes. C6 starts at [mem_read] and [mem_write] and ends at the memory that the SBE serves.
    - C14, C17: reads through a Cronus server follow the protocol and return what the server
      answered; refused reads and writes end in EIO if the text of the error ends. C7: the
      connection that the targets share lives exactly as long as it has users.
    - C18: the POWER10 translations are total, set exactly the fields of the table and
      nothing else. C21: those of POWER9 and POWER10 keep instances apart, but for the engines of
      the POWER9 power bus. C20: the scan of a ring stays inside the array of the tool and fills it with
      the header and the bits of the ring, for the lengths it is made for; the others are decided too.
    - C22, C23: addresses resolve to the right bus target or stop the program; masked writes and
      accesses do what the protocol says.
    - C27, C30: probing decides which targets are there, each probed at most once, and what it
      makes of disabled targets; releasing releases exactly what is enabled below, children first.
    - C16: the device trees that are chosen fit the processor and the back end. C34, C35: building a
      tree keeps it well formed, and paths lead back to their targets. C32: attributes are read
      back as they were set, at every width and layout.
    - C11, C26, C28, C31: threads are started, stepped and reset only when quiesced; stopping
      ends; ramming on POWER9 implements a thread that executes instructions; the special
      wakeup of a core is kept as long as a thread needs it.
    - C38: ramming reads and writes the registers asked for and restores those it uses; what is
      written to general registers 0 and 1 is lost. C19: operations on all threads reach every
      enabled one once.
    - C36, C37: memory is read and written byte for byte; for writes that are not whole blocks this
      takes a unit that honours the size of a transfer.
    - C2, C13: paths and lists given to the tool name exactly what was written.
    - C8, C15: the gdb parser hands over each packet once, however the text is cut, and stays in its
      memory on any bytes, but for two cases that are named. C10, C24, C29: breakpoints, memory packets and
      the lists of threads do what a client expects, on the addresses and lengths that are named.
    - C40, C25: the registers of a CFAM are read and written over the bit-banged bus;
      damaged and missing answers are refused. C33: SCOM registers behind a CFAM are read and
      written by its engine. C39: access through the OPB bridge ends, and each status of the
      bridge has its outcome.
    - C12: recording a hardware trace, from the setup of the unit to the bytes of the file.

    Beside these there are theorems that are not in this list, such as the FFDC dump that ends on any buffer
    and whole sessions of SBE commands (in [SbeLifecycle]), the walks of [WalkTheorems], and the examples
    and theorems that show defects, which stand behind what they are about.

    Bounds and fuel

    Integers are [Z] with the wrap-around of their C type written where a value can
    leave it. Loops whose length is data take fuel: the FFDC dump needs more fuel than the
    buffer has bytes, the memory copy loop gets one more than the length word, the walks
    of the tree need more than the number of ancestors, the rank or the height and width of
    the tree, ramming five rounds more than there are instructions, the loops over tokens one
    more than the length of the text. Stopping a thread gets 102 rounds, one more than the
    code allows itself; the OPB bridge is polled at most 1201 times. The polls of the memory unit, of a special wakeup, of a step, and of a trace unit that is to be
    tracing or complete get a number of tries that is a parameter, since the code waits without bound. The
    theorems state these bounds as hypotheses or are proved for the fuel the
    model uses, and say that the computation then ends; running out of fuel is a crash
    ([NoFuel]), never a result.

    What is not modelled

    The kernel driver, the caller's transport, the Cronus server, the client of the gdb server, the
    hardware, the files of the host and [malloc] are parameters, with their laws as classes or
    hypotheses; witnesses instantiate them. Log output is left out, except the FFDC dump, the error text
    of the Cronus server and the report on a trace. Device I/O (kernel.c, host.c, fake.c, i2c.c, i2c_kernel.c, the mapping of
    the registers in bmcfsi.c) and the proxy of libcronus (a loop that copies between two sockets) are not
    modelled, nor are the allocation of targets and classes, the registration of hardware units and the writing back of
    properties to a mapped file. Of the tool only the reading of arguments, the choice of
    targets and the array of a ring scan are; its other commands print what the library returns. *)

From stdpp Require Export base list gmap numbers strings.
From Stdlib Require Export ZArith Lia.

#[global] Open Scope Z_scope.

(** ** Machine integers

    A w-bit unsigned integer is a [Z]; every C expression whose value can
    leave the range of its type is written with the wrap-around of the type. *)

Definition wrap (w z : Z) : Z := z mod 2 ^ w.

Abbreviation u8 := (wrap 8).
Abbreviation u16 := (wrap 16).
Abbreviation u32 := (wrap 32).
Abbreviation u64 := (wrap 64).

Definition in_range (w z : Z) : Prop := 0 <= z < 2 ^ w.

(** Truth value of a C integer used as a condition. *)
Definition truthy (z : Z) : bool := negb (z =? 0).

Lemma wrap_range w z : 0 <= w -> in_range w (wrap w z).
Proof. intros Hw. apply Z.mod_pos_bound. lia. Qed.

Lemma wrap_small w z : in_range w z -> wrap w z = z.
Proof. apply Z.mod_small. Qed.

Lemma wrap_le w z : 0 <= w -> 0 <= z -> wrap w z <= z.
Proof. intros Hw Hz. apply Z.mod_le; lia. Qed.

(** [solve_range] decides range side conditions whose width is a literal. *)
Ltac solve_range :=
  unfold in_range in *; cbn [Z.pow Z.pow_pos Pos.iter Z.mul] in *;
  change (2 ^ 8) with 256 in *; change (2 ^ 16) with 65536 in *;
  change (2 ^ 32) with 4294967296 in *;
  change (2 ^ 64) with 18446744073709551616 in *; lia.

(** ** Bytes and big-endian words *)

Definition is_byte (b : Z) : Prop := 0 <= b < 256.

(** The [n] low-order bytes of [v], most significant first. *)
Fixpoint be_bytes (n : nat) (v : Z) : list Z :=
  match n with
  | O => []
  | S n' => (v / 2 ^ (8 * Z.of_nat n')) mod 256 :: be_bytes n' v
  end.

Definition be_val (l : list Z) : Z := foldl (fun acc b => acc * 256 + b) 0 l.

Lemma length_be_bytes n v : length (be_bytes n v) = n.
Proof. induction n; simpl; auto. Qed.

Lemma be_bytes_is_byte n v : Forall is_byte (be_bytes n v).
Proof.
  induction n; simpl; constructor; auto.
  apply Z.mod_pos_bound; lia.
Qed.

Lemma foldl_be_val acc l :
  foldl (fun acc b => acc * 256 + b) acc l
  = acc * 256 ^ Z.of_nat (length l) + be_val l.
Proof.
  unfold be_val. revert acc. induction l as [|b l IH]; intros acc; simpl foldl.
  - simpl length. rewrite Z.pow_0_r. lia.
  - rewrite (IH (acc * 256 + b)), (IH (0 * 256 + b)).
    replace (Z.of_nat (length (b :: l))) with (Z.succ (Z.of_nat (length l)))
      by (simpl; lia).
    rewrite Z.pow_succ_r by lia. ring.
Qed.

Lemma be_val_cons b l : be_val (b :: l) = b * 256 ^ Z.of_nat (length l) + be_val l.
Proof. unfold be_val at 1. simpl foldl. rewrite foldl_be_val. f_equal; lia. Qed.

Lemma be_val_range l : Forall is_byte l -> 0 <= be_val l < 256 ^ Z.of_nat (length l).
Proof.
  induction 1 as [|b l Hb Hl IH].
  - simpl length. rewrite Z.pow_0_r. unfold be_val; simpl; lia.
  - rewrite be_val_cons. simpl length. rewrite Nat2Z.inj_succ, Z.pow_succ_r by lia.
    unfold is_byte in Hb. nia.
Qed.

Lemma be_val_be_bytes n v : be_val (be_bytes n v) = v mod 256 ^ Z.of_nat n.
Proof.
  induction n as [|n IH].
  - simpl be_bytes. rewrite Z.pow_0_r, Z.mod_1_r. reflexivity.
  - simpl be_bytes. rewrite be_val_cons, length_be_bytes, IH.
    replace (2 ^ (8 * Z.of_nat n)) with (256 ^ Z.of_nat n)
      by (rewrite (Z.pow_mul_r 2 8) by lia; reflexivity).
    rewrite Nat2Z.inj_succ, Z.pow_succ_r by lia.
    assert (0 < 256 ^ Z.of_nat n) by (apply Z.pow_pos_nonneg; lia).
    rewrite (Z.mul_comm 256), Z.rem_mul_r by lia. lia.
Qed.

Lemma be_val_be32 v : be_val (be_bytes 4 v) = u32 v.
Proof. rewrite be_val_be_bytes. reflexivity. Qed.

Lemma be_bytes_be_val l :
  Forall is_byte l -> be_bytes (length l) (be_val l) = l.
Proof.
  induction 1 as [|b l Hb Hl IH]; [reflexivity|].
  pose proof (be_val_range l Hl) as Hr.
  assert (E : 2 ^ (8 * Z.of_nat (length l)) = 256 ^ Z.of_nat (length l))
    by (rewrite (Z.pow_mul_r 2 8) by lia; reflexivity).
  assert (G : forall n v k, (n <= length l)%nat -> be_bytes n (k * 256 ^ Z.of_nat (length l) + v) = be_bytes n v).
  { intros n v k. induction n as [|n IHn]; intros Hn; [reflexivity|].
    cbn [be_bytes]. rewrite IHn by lia. f_equal.
    replace (256 ^ Z.of_nat (length l))
      with (256 * 256 ^ Z.of_nat (length l - S n) * 2 ^ (8 * Z.of_nat n)).
    2: { rewrite (Z.pow_mul_r 2 8) by lia. change (2 ^ 8) with 256.
         rewrite <- Z.pow_succ_r, <- Z.pow_add_r by lia. f_equal. lia. }
    rewrite Z.mul_assoc, Z.add_comm, Z.div_add by lia.
    replace (k * (256 * 256 ^ Z.of_nat (length l - S n)))
      with (k * 256 ^ Z.of_nat (length l - S n) * 256) by lia.
    apply Z.mod_add. lia. }
  rewrite be_val_cons. cbn [length be_bytes]. rewrite G, IH by lia. f_equal.
  rewrite E, Z.div_add_l, Z.div_small, Z.add_0_r by lia.
  apply Z.mod_small. exact Hb.
Qed.

(** ** Lists as byte arrays *)

(** [slice o n l]: the [n] elements of [l] from index [o]. *)
Definition slice {A} (o n : nat) (l : list A) : list A := take n (drop o l).

(** [patch o bs l]: [l] with the elements from index [o] replaced by [bs]. *)
Definition patch {A} (o : nat) (bs l : list A) : list A :=
  take o l ++ bs ++ drop (o + length bs) l.

Lemma length_slice {A} o n (l : list A) :
  (o + n <= length l)%nat -> length (slice o n l) = n.
Proof. intros. unfold slice. rewrite length_take, length_drop. lia. Qed.

Lemma length_patch {A} o (bs l : list A) :
  (o + length bs <= length l)%nat -> length (patch o bs l) = length l.
Proof.
  intros. unfold patch. rewrite !length_app, length_take, length_drop. lia.
Qed.

Lemma slice_all {A} (l : list A) : slice 0 (length l) l = l.
Proof. unfold slice. rewrite drop_0. apply take_ge. lia. Qed.

Lemma slice_patch_same {A} o n (bs l : list A) :
  n = length bs -> (o + n <= length l)%nat -> slice o n (patch o bs l) = bs.
Proof.
  intros -> H. unfold slice, patch.
  rewrite drop_app_length' by (rewrite length_take; lia).
  apply take_app_length.
Qed.

Lemma patch_full {A} n (bs l : list A) :
  length bs = length l -> n = 0%nat -> patch n bs l = bs.
Proof.
  intros H ->. unfold patch. rewrite take_0, drop_ge by lia. simpl. apply app_nil_r.
Qed.

Lemma slice_map {A B} (f : A -> B) o n l : slice o n (f <$> l) = f <$> slice o n l.
Proof. unfold slice. rewrite fmap_take, fmap_drop. reflexivity. Qed.

Lemma slice_app_l {A} o n (l k : list A) :
  (o + n <= length l)%nat -> slice o n (l ++ k) = slice o n l.
Proof.
  intros H. unfold slice. rewrite drop_app_le by lia.
  apply take_app_le. rewrite length_drop. lia.
Qed.

Lemma slice_app_r {A} o n (l k : list A) :
  (length l <= o)%nat -> slice o n (l ++ k) = slice (o - length l) n k.
Proof. intros H. unfold slice. rewrite drop_app_ge by lia. reflexivity. Qed.

Lemma Forall_slice {A} (P : A -> Prop) o n l : Forall P l -> Forall P (slice o n l).
Proof. intros H. unfold slice. by apply Forall_take, Forall_drop. Qed.

Lemma patch_end {A} (l bs : list A) k x :
  (length bs <= k)%nat ->
  patch (length l) bs (l ++ replicate k x) = (l ++ bs) ++ replicate (k - length bs) x.
Proof.
  intros H. unfold patch. rewrite take_app_length.
  rewrite drop_app_ge by lia. replace (length l + length bs - length l)%nat with (length bs) by lia.
  rewrite drop_replicate. by rewrite app_assoc.
Qed.

Lemma patch_app {A} (a b bs : list A) :
  patch (length a) bs (a ++ b) = a ++ bs ++ drop (length bs) b.
Proof. unfold patch. by rewrite take_app_length, drop_app_add. Qed.

Lemma length_concat_const {A} (ls : list (list A)) g :
  Forall (fun l => length l = g) ls -> length (concat ls) = (g * length ls)%nat.
Proof. induction 1 as [|l ls Hl _ IH]; simpl; [lia|]. rewrite length_app, Hl, IH. lia. Qed.

Lemma slice_concat {A} g n (ls : list (list A)) tl i l :
  Forall (fun l => length l = g) ls -> ls !! i = Some l -> (n <= g)%nat ->
  slice (g * i) n (concat ls ++ tl) = take n l.
Proof.
  intros Hls. revert i. induction Hls as [|l0 ls Hl0 _ IH]; intros i Hi Hn; [done|].
  simpl concat. rewrite <- app_assoc. destruct i as [|i]; simplify_eq/=.
  - rewrite Nat.mul_0_r. unfold slice. rewrite drop_0. apply take_app_le. lia.
  - rewrite slice_app_r by nia. rewrite Nat.mul_succ_r.
    replace (length l0 * i + length l0 - length l0)%nat with (length l0 * i)%nat by lia. by apply IH.
Qed.

(** ** Masks *)

(** [x & ~(2^k - 1)] on a w-bit [x] rounds [x] down to a multiple of [2^k]. *)
Lemma land_align w k x :
  0 <= k <= w -> in_range w x -> Z.land x (2 ^ w - 2 ^ k) = x - x mod 2 ^ k.
Proof.
  intros Hk [Hx Hw].
  replace (2 ^ w - 2 ^ k) with (Z.shiftl (Z.ones (w - k)) k).
  2: { rewrite Z.shiftl_mul_pow2, Z.ones_equiv by lia.
       replace (2 ^ w) with (2 ^ (w - k) * 2 ^ k) by (rewrite <- Z.pow_add_r by lia; f_equal; lia). lia. }
  replace (x - x mod 2 ^ k) with (Z.shiftl (Z.shiftr x k) k).
  2: { rewrite Z.shiftl_mul_pow2, Z.shiftr_div_pow2 by lia.
       rewrite (Z.div_mod x (2 ^ k)) at 2 by lia. lia. }
  apply Z.bits_inj'. intros i Hi. rewrite Z.land_spec, !Z.shiftl_spec by lia.
  destruct (Z.ltb_spec i k).
  { rewrite !(Z.testbit_neg_r _ (i - k)) by lia. apply andb_false_r. }
  rewrite Z.shiftr_spec by lia. replace (i - k + k) with i by lia.
  destruct (Z.ltb_spec i w).
  - rewrite Z.ones_spec_low by lia. apply andb_true_r.
  - replace (Z.testbit x i) with false; [done|]. symmetry.
    destruct (Z.eq_dec x 0) as [->|]; [apply Z.testbit_0_l|].
    apply Z.bits_above_log2; [lia|]. apply Z.log2_lt_pow2; [lia|].
    eapply Z.lt_le_trans; [exact Hw|]. apply Z.pow_le_mono_r; lia.
Qed.

Lemma div_mul_add_mod a b : 0 < b -> a - a mod b = b * (a / b).
Proof. intros Hb. rewrite (Z.div_mod a b) at 1 by lia. lia. Qed.

Lemma lor_shiftl_add a b k : 0 <= k -> in_range k b -> Z.lor (Z.shiftl a k) b = a * 2 ^ k + b.
Proof.
  intros Hk Hb. rewrite <- Z.shiftl_mul_pow2 by done.
  assert (E : Z.land (Z.shiftl a k) b = 0).
  { apply Z.bits_inj'. intros i Hi. rewrite Z.land_spec, Z.bits_0.
    destruct (Z.ltb_spec i k); [by rewrite Z.shiftl_spec_low|].
    replace (Z.testbit b i) with false; [apply andb_false_r|]. symmetry.
    rewrite <- (Z.mod_small b (2 ^ k)) by exact Hb. apply Z.mod_pow2_bits_high. lia. }
  rewrite Z.add_nocarry_lxor, Z.lxor_lor by done. done.
Qed.

(** The two fields of a packed word. *)
Lemma pack_hi a b k : 0 <= k -> in_range k b -> Z.shiftr (Z.lor (Z.shiftl a k) b) k = a.
Proof.
  intros Hk Hb. rewrite lor_shiftl_add, Z.shiftr_div_pow2 by done. unfold in_range in Hb.
  rewrite Z.div_add_l, Z.div_small by lia. lia.
Qed.

Lemma pack_lo a b k : 0 <= k -> in_range k b -> Z.land (Z.lor (Z.shiftl a k) b) (Z.ones k) = b.
Proof.
  intros Hk Hb. rewrite lor_shiftl_add, Z.land_ones by done.
  rewrite Z.add_comm, Z.mod_add by (unfold in_range in Hb; lia). by apply Z.mod_small.
Qed.

(** A 64-bit value from its two halves, as the C code assembles it. *)
Lemma lor_halves hi lo :
  in_range 32 hi -> in_range 32 lo -> Z.lor (u64 (Z.shiftl hi 32)) lo = hi * 2 ^ 32 + lo.
Proof.
  intros Hh Hl. rewrite wrap_small.
  - apply lor_shiftl_add; [lia|done].
  - rewrite Z.shiftl_mul_pow2 by lia. solve_range.
Qed.

Lemma be_val_app l k :
  be_val (l ++ k) = be_val l * 256 ^ Z.of_nat (length k) + be_val k.
Proof. unfold be_val at 1. rewrite foldl_app, foldl_be_val. done. Qed.

Lemma be_val_range4 l : Forall is_byte l -> length l = 4%nat -> in_range 32 (be_val l).
Proof. intros H E. pose proof (be_val_range l H) as Hr. rewrite E in Hr. exact Hr. Qed.
