(* ===== verification/CMem.v ===== *)
(** * The C execution model shared by the library components

    A computation runs on a [world]: a heap of blocks as [malloc] hands them
    out, a counter that names the next block, and the component's own state.
    It returns a value, fails with a non-zero return code, or crashes (the
    outcome of an access outside a block, of a bad [free], of a read of an
    indeterminate byte used as a number, or of a failed [assert]). *)

From S2P Require Import Prelude.

(** A byte of memory: [None] is an indeterminate (never written) byte. *)
Abbreviation mval := (option Z).

Inductive ptr :=
| Null
| Ptr (block : nat) (off : Z).

#[global] Instance ptr_eq_dec : EqDecision ptr.
Proof. solve_decision. Defined.

Definition is_null (p : ptr) : bool :=
  match p with Null => true | Ptr _ _ => false end.

(** Pointer arithmetic [p + k] on a byte pointer. *)
Definition ptr_add (p : ptr) (k : Z) : ptr :=
  match p with Null => Null | Ptr b o => Ptr b (o + k) end.

Inductive fault :=
| OutOfBounds   (* access outside a live block *)
| BadFree       (* free of something that is not the start of a live block *)
| Uninit        (* use of an indeterminate value *)
| AssertFailed  (* assert() or abort() *)
| NoFuel.       (* a loop of the model did not end within its fuel *)

#[global] Instance fault_eq_dec : EqDecision fault.
Proof. solve_decision. Defined.

Inductive outcome (A : Type) :=
| Ret (a : A)
| Fail (rc : Z)
| Crash (f : fault).
Arguments Ret {A} a.
Arguments Fail {A} rc.
Arguments Crash {A} f.

Record world (S : Type) := World {
  w_heap : gmap nat (list mval);
  w_next : nat;
  w_st : S
}.
Arguments World {S} _ _ _.
Arguments w_heap {S} _.
Arguments w_next {S} _.
Arguments w_st {S} _.

Definition M (S A : Type) : Type := world S -> outcome A * world S.

#[global] Instance M_ret {S} : MRet (M S) := fun A a w => (Ret a, w).
#[global] Instance M_bind {S} : MBind (M S) := fun A B k m w =>
  match m w with
  | (Ret a, w') => k a w'
  | (Fail rc, w') => (Fail rc, w')
  | (Crash f, w') => (Crash f, w')
  end.

(** The allocator decides whether the [k]-th allocation, of [n] bytes,
    succeeds: [malloc] is not under our control. *)
Class Allocator := can_alloc : nat -> Z -> bool.

Section Ops.
Context {S : Type} {Al : Allocator}.

(** [return rc] with a non-zero [rc] *)
Definition fail {A} (rc : Z) : M S A := fun w => (Fail rc, w).
Definition crash {A} (f : fault) : M S A := fun w => (Crash f, w).
Definition c_assert (b : bool) : M S unit := if b then mret tt else crash AssertFailed.

(** [rc = f(...)] when the caller goes on after a failure. *)
Definition attempt {A} (m : M S A) : M S (Z + A) := fun w =>
  match m w with
  | (Ret a, w') => (Ret (inr a), w')
  | (Fail rc, w') => (Ret (inl rc), w')
  | (Crash f, w') => (Crash f, w')
  end.

(** [if (rc) return rc;] *)
Definition check {A} (r : Z + A) : M S A :=
  match r with inl rc => fail rc | inr a => mret a end.

Definition get_st : M S S := fun w => (Ret (w_st w), w).
Definition put_st (s : S) : M S unit := fun w =>
  (Ret tt, World (w_heap w) (w_next w) s).

Definition malloc (n : Z) : M S ptr := fun w =>
  if can_alloc (w_next w) n
  then (Ret (Ptr (w_next w) 0),
        World (<[w_next w := replicate (Z.to_nat n) None]> (w_heap w))
              (Datatypes.S (w_next w)) (w_st w))
  else (Ret Null, World (w_heap w) (Datatypes.S (w_next w)) (w_st w)).

Definition free (p : ptr) : M S unit := fun w =>
  match p with
  | Null => (Ret tt, w)
  | Ptr b o =>
      if bool_decide (is_Some (w_heap w !! b)) && (o =? 0)
      then (Ret tt, World (delete b (w_heap w)) (w_next w) (w_st w))
      else (Crash BadFree, w)
  end.

Definition load_bytes (p : ptr) (n : Z) : M S (list mval) := fun w =>
  match p with
  | Null => (Crash OutOfBounds, w)
  | Ptr b o =>
      match w_heap w !! b with
      | None => (Crash OutOfBounds, w)
      | Some l =>
          if (0 <=? o) && (0 <=? n) && (o + n <=? Z.of_nat (length l))
          then (Ret (slice (Z.to_nat o) (Z.to_nat n) l), w)
          else (Crash OutOfBounds, w)
      end
  end.

Definition store_bytes (p : ptr) (bs : list mval) : M S unit := fun w =>
  match p with
  | Null => (Crash OutOfBounds, w)
  | Ptr b o =>
      match w_heap w !! b with
      | None => (Crash OutOfBounds, w)
      | Some l =>
          if (0 <=? o) && (o + Z.of_nat (length bs) <=? Z.of_nat (length l))
          then (Ret tt, World (<[b := patch (Z.to_nat o) bs l]> (w_heap w))
                              (w_next w) (w_st w))
          else (Crash OutOfBounds, w)
      end
  end.

(** [memcpy]/[memmove]: a copy of no bytes touches nothing. *)
Definition memcpy (dst src : ptr) (n : Z) : M S unit :=
  if n =? 0 then mret tt
  else bs ← load_bytes src n; store_bytes dst bs.

(** The bytes a [%s] conversion reads: up to the first zero byte, which must be
    inside the block. *)
Fixpoint until_nul (l : list mval) : option (list mval) :=
  match l with
  | [] => None
  | Some 0 :: _ => Some []
  | b :: l' => cons b <$> until_nul l'
  end.

Definition load_cstr (p : ptr) : M S (list mval) := fun w =>
  match p with
  | Null => (Crash OutOfBounds, w)
  | Ptr b o =>
      match w_heap w !! b with
      | None => (Crash OutOfBounds, w)
      | Some l =>
          match (if 0 <=? o then until_nul (drop (Z.to_nat o) l) else None) with
          | Some s => (Ret s, w)
          | None => (Crash OutOfBounds, w)
          end
      end
  end.

(** The bytes as numbers, when all of them are determinate. *)
Definition defined (bs : list mval) : M S (list Z) :=
  match mapM id bs with Some l => mret l | None => crash Uninit end.

(** [memcpy(dst, src, n)] from an array of the caller, given by its bytes. *)
Definition copy_in (dst : ptr) (src : list mval) (n : Z) : M S unit :=
  if n =? 0 then mret tt
  else if n <=? Z.of_nat (length src) then store_bytes dst (take (Z.to_nat n) src)
  else crash OutOfBounds.

(** [a[i]] for an array of the caller, given by its elements. *)
Definition array_get {A} (a : list A) (i : Z) : M S A :=
  match (if i <? 0 then None else a !! Z.to_nat i) with
  | Some x => mret x
  | None => crash OutOfBounds
  end.

(** [be32toh( *(uint32_t * ) p)] and [*p = htobe32(v)]. *)
Definition load_be32 (p : ptr) : M S Z :=
  bs ← load_bytes p 4; l ← defined bs; mret (be_val l).
Definition store_be32 (p : ptr) (v : Z) : M S unit :=
  store_bytes p (Some <$> be_bytes 4 v).
End Ops.

(** ** Weakest preconditions

    [wp m w Q]: run from [w], [m] does not crash, and its result ([inl rc] for
    a return code, [inr a] for a value) and final world satisfy [Q]. *)
Definition wp {S A} (m : M S A) (w : world S) (Q : Z + A -> world S -> Prop) : Prop :=
  match m w with
  | (Ret a, w') => Q (inr a) w'
  | (Fail rc, w') => Q (inl rc) w'
  | (Crash _, _) => False
  end.

Section Wp.
Context {S : Type} {Al : Allocator}.
Implicit Types (w : world S) (h : gmap nat (list mval)) (s : S).

Lemma wp_mono {A} (m : M S A) w (Q R : Z + A -> world S -> Prop) :
  wp m w Q -> (forall r w', Q r w' -> R r w') -> wp m w R.
Proof. unfold wp. destruct (m w) as [[] ?]; auto. Qed.

(** The step after one that returns *)
Lemma bind_at {A B} (m : M S A) (k : A -> M S B) w a w' : m w = (Ret a, w') -> (m ≫= k) w = k a w'.
Proof. unfold mbind, M_bind. by intros ->. Qed.
Lemma bind_assoc {A B C} (m : M S A) (f : A -> M S B) (g : B -> M S C) w : ((m ≫= f) ≫= g) w = (m ≫= (fun x => f x ≫= g)) w.
Proof. unfold mbind, M_bind. by destruct (m w) as [[] ?]. Qed.

Lemma wp_ret {A} (a : A) w (Q : Z + A -> world S -> Prop) :
  Q (inr a) w -> wp (mret a) w Q.
Proof. auto. Qed.

Lemma wp_fail {A} rc w (Q : Z + A -> world S -> Prop) :
  Q (inl rc) w -> wp (fail rc) w Q.
Proof. auto. Qed.

Lemma wp_bind {A B} (m : M S A) (k : A -> M S B) w (Q : Z + B -> world S -> Prop) :
  wp m w (fun r w' => match r with inl rc => Q (inl rc) w' | inr a => wp (k a) w' Q end) ->
  wp (m ≫= k) w Q.
Proof. unfold wp, mbind, M_bind. destruct (m w) as [[] ?]; auto. Qed.

Lemma wp_attempt {A} (m : M S A) w (Q : Z + (Z + A) -> world S -> Prop) :
  wp m w (fun r w' => Q (inr r) w') -> wp (attempt m) w Q.
Proof. unfold wp, attempt. destruct (m w) as [[] ?]; auto. Qed.

Lemma wp_check {A} (r : Z + A) w (Q : Z + A -> world S -> Prop) :
  Q r w -> wp (check r) w Q.
Proof. destruct r; auto. Qed.

Lemma wp_assert (b : bool) w (Q : Z + unit -> world S -> Prop) :
  b = true -> Q (inr tt) w -> wp (c_assert b) w Q.
Proof. intros ->; auto. Qed.

Lemma wp_get_st h n s Q :
  Q (inr s) (World h n s) -> wp get_st (World h n s) Q.
Proof. auto. Qed.

Lemma wp_put_st h n s s' Q :
  Q (inr tt) (World h n s') -> wp (put_st s') (World h n s) Q.
Proof. auto. Qed.

Lemma wp_malloc k h n s Q :
  (can_alloc n k = true ->
   Q (inr (Ptr n 0)) (World (<[n := replicate (Z.to_nat k) None]> h) (Datatypes.S n) s)) ->
  (can_alloc n k = false -> Q (inr Null) (World h (Datatypes.S n) s)) ->
  wp (malloc k) (World h n s) Q.
Proof. unfold wp, malloc; simpl. destruct (can_alloc n k); auto. Qed.

Lemma wp_free_null w Q : Q (inr tt) w -> wp (free Null) w Q.
Proof. auto. Qed.

Lemma wp_free b l h n s Q :
  h !! b = Some l ->
  Q (inr tt) (World (delete b h) n s) -> wp (free (Ptr b 0)) (World h n s) Q.
Proof.
  intros Hb HQ. unfold wp, free; simpl. rewrite Hb.
  rewrite bool_decide_eq_true_2 by eauto. exact HQ.
Qed.

Lemma wp_load_bytes b o k l h n s Q :
  h !! b = Some l -> 0 <= o -> 0 <= k -> o + k <= Z.of_nat (length l) ->
  Q (inr (slice (Z.to_nat o) (Z.to_nat k) l)) (World h n s) ->
  wp (load_bytes (Ptr b o) k) (World h n s) Q.
Proof.
  intros Hb Ho Hk Hl HQ. unfold wp, load_bytes; simpl. rewrite Hb.
  rewrite !Zle_imp_le_bool by lia. exact HQ.
Qed.

Lemma wp_store_bytes b o bs l h n s Q :
  h !! b = Some l -> 0 <= o -> o + Z.of_nat (length bs) <= Z.of_nat (length l) ->
  Q (inr tt) (World (<[b := patch (Z.to_nat o) bs l]> h) n s) ->
  wp (store_bytes (Ptr b o) bs) (World h n s) Q.
Proof.
  intros Hb Ho Hl HQ. unfold wp, store_bytes; simpl. rewrite Hb.
  rewrite !Zle_imp_le_bool by lia. exact HQ.
Qed.

Lemma wp_memcpy bd od bs os k ld ls h n s Q :
  h !! bd = Some ld -> h !! bs = Some ls ->
  0 <= od -> 0 <= os -> 0 <= k ->
  od + k <= Z.of_nat (length ld) -> os + k <= Z.of_nat (length ls) ->
  Q (inr tt) (World (<[bd := patch (Z.to_nat od) (slice (Z.to_nat os) (Z.to_nat k) ls) ld]> h) n s) ->
  wp (memcpy (Ptr bd od) (Ptr bs os) k) (World h n s) Q.
Proof.
  intros Hd Hs Hod Hos Hk Hld Hls HQ. unfold memcpy.
  destruct (Z.eqb_spec k 0) as [->|Hk0].
  - apply wp_ret. unfold slice, patch in HQ. simpl in HQ.
    rewrite Nat.add_0_r, take_drop, insert_id in HQ by exact Hd. exact HQ.
  - apply wp_bind. eapply wp_load_bytes; [done..|].
    eapply wp_store_bytes; [done..| |exact HQ].
    rewrite length_slice by lia. lia.
Qed.

Lemma wp_copy_in b o src k l h n s Q :
  h !! b = Some l -> 0 <= o -> 0 <= k -> k <= Z.of_nat (length src) ->
  o + k <= Z.of_nat (length l) ->
  Q (inr tt) (World (<[b := patch (Z.to_nat o) (take (Z.to_nat k) src) l]> h) n s) ->
  wp (copy_in (Ptr b o) src k) (World h n s) Q.
Proof.
  intros Hb Ho Hk Hs Hl HQ. unfold copy_in. destruct (Z.eqb_spec k 0) as [->|Hk0].
  - apply wp_ret. unfold patch in HQ. simpl in HQ.
    rewrite Nat.add_0_r, take_drop, insert_id in HQ by exact Hb. exact HQ.
  - rewrite Zle_imp_le_bool by done.
    eapply wp_store_bytes; [done|done|rewrite length_take; lia|exact HQ].
Qed.

Lemma wp_array_get {A} (a : list A) i x w (Q : Z + A -> world S -> Prop) :
  0 <= i -> a !! Z.to_nat i = Some x -> Q (inr x) w -> wp (array_get a i) w Q.
Proof.
  intros Hi Hx HQ. unfold array_get. destruct (Z.ltb_spec i 0); [lia|]. rewrite Hx. by apply wp_ret.
Qed.

Lemma mapM_id_Some (l : list Z) : mapM id (Some <$> l) = Some l.
Proof.
  apply mapM_Some_2. induction l as [|x l IH]; simpl; constructor; auto.
Qed.

Lemma wp_load_be32 b o l bs h n s Q :
  h !! b = Some l -> 0 <= o -> o + 4 <= Z.of_nat (length l) ->
  slice (Z.to_nat o) 4 l = Some <$> bs ->
  Q (inr (be_val bs)) (World h n s) ->
  wp (load_be32 (Ptr b o)) (World h n s) Q.
Proof.
  intros Hb Ho Hl Hs HQ. unfold load_be32. apply wp_bind.
  eapply wp_load_bytes; [exact Hb|done|done|done|].
  change (Z.to_nat 4) with 4%nat. rewrite Hs.
  apply wp_bind. unfold defined. rewrite mapM_id_Some.
  apply wp_ret, wp_ret. exact HQ.
Qed.

Lemma wp_store_be32 b o v l h n s Q :
  h !! b = Some l -> 0 <= o -> o + 4 <= Z.of_nat (length l) ->
  Q (inr tt) (World (<[b := patch (Z.to_nat o) (Some <$> be_bytes 4 v) l]> h) n s) ->
  wp (store_be32 (Ptr b o) v) (World h n s) Q.
Proof. intros. eapply wp_store_bytes; eauto. Qed.
End Wp.

(** Two computations that agree on every world are interchangeable. *)
Definition m_equiv {S A} (m1 m2 : M S A) : Prop := forall w, m1 w = m2 w.

#[global] Instance m_equiv_equivalence {S A} : Equivalence (@m_equiv S A).
Proof.
  split; [intros m w; reflexivity | intros m1 m2 H w; symmetry; apply H
         | intros m1 m2 m3 H1 H2 w; rewrite H1; apply H2].
Qed.

#[global] Instance wp_proper {S A} :
  Proper (@m_equiv S A ==> eq ==> eq ==> iff) (@wp S A).
Proof. intros m1 m2 H w ? <- Q ? <-. unfold wp. rewrite (H w). reflexivity. Qed.

(** Block names handed out so far are below [w_next]. *)
Definition heap_ok (h : gmap nat (list mval)) (n : nat) : Prop :=
  forall b, (n <= b)%nat -> h !! b = None.

Lemma heap_ok_fresh h n : heap_ok h n -> h !! n = None.
Proof. intros H. apply H. lia. Qed.

Lemma heap_ok_insert h n b l : heap_ok h n -> (b < n)%nat -> heap_ok (<[b:=l]> h) n.
Proof. intros H Hb c Hc. rewrite lookup_insert_ne by lia. auto. Qed.

Lemma heap_ok_S h n : heap_ok h n -> heap_ok h (S n).
Proof. intros H b Hb. apply H. lia. Qed.

Lemma heap_ok_delete h n b : heap_ok h n -> heap_ok (delete b h) n.
Proof. intros H c Hc. rewrite lookup_delete. case_decide; auto. Qed.

Lemma heap_ok_lt h n b l : heap_ok h n -> h !! b = Some l -> (b < n)%nat.
Proof.
  intros H Hb. destruct (decide (b < n)%nat) as [|Hge]; [done|].
  rewrite (H b) in Hb by lia. done.
Qed.

Create HintDb cmem.
#[export] Hint Resolve heap_ok_fresh heap_ok_insert heap_ok_S heap_ok_delete : cmem.
#[export] Hint Extern 1 (_ < _)%nat => lia : cmem.
