(* ===== verification/SbeCore.v ===== *)
(** * libsbefifo: contexts, FFDC buffer, transport and reply parsing

    Models libsbefifo/connect.c, ffdc.c and operation.c. The kernel driver and
    the caller-supplied transport are not part of the sources: they are the
    operations of the class [Kernel]. *)

From S2P Require Import Prelude CMem.

(** Return codes ([errno] values of Linux, and libsbefifo's own). *)
Definition EIO : Z := 5.
Definition ENOMEM : Z := 12.
Definition EINVAL : Z := 22.
Definition ENOTTY : Z := 25.
Definition ENOSYS : Z := 38.
Definition EPROTO : Z := 71.
Definition ENOTCONN : Z := 107.
Definition ETIMEDOUT : Z := 110.
Definition ESBEFIFO : Z := 201.

Definition SBEFIFO_PRI_UNKNOWN_ERROR : Z := 0x00FE0000.
Definition SBEFIFO_SEC_GENERIC_FAILURE : Z := 0x000A.
Definition SBEFIFO_SEC_HW_TIMEOUT : Z := 0x0010.
Definition SBEFIFO_PROC_P9 : Z := 0x01.
Definition SBEFIFO_PROC_P10 : Z := 0x02.
Definition SBEFIFO_MAX_FFDC_SIZE : Z := 0x8000.

(** Lines printed by [sbefifo_ffdc_dump]. *)
Inductive ffdc_line :=
| FfdcBadMagic (magic : Z)
| FfdcSequence (v : Z)
| FfdcCommand (v : Z)
| FfdcRc (v : Z)
| FfdcData (v : Z).

(** What the library asks of its environment, oldest first. *)
Inductive event :=
| EvIoctl (timeout : Z)
| EvWrite (bs : list mval)
| EvRead (len : Z)
| EvTransport (bs : list mval) (len : Z)
| EvPrint (l : ffdc_line).

(** System calls and the transport callback: [inl errno] is a failure. A
    [read] yields the bytes placed in the buffer; the transport yields the
    bytes it placed in the reply buffer, whose number it stores in [*out_len]. *)
Class Kernel (D : Type) := {
  sys_open : D -> string -> D * (Z + Z);
  sys_close : D -> Z -> D;
  sys_write : D -> Z -> list mval -> D * (Z + Z);
  sys_read : D -> Z -> Z -> D * (Z + list Z);
  sys_ioctl : D -> Z -> Z -> D * (Z + Z);
  ext_transport : D -> list mval -> Z -> D * (Z + list Z)
}.

(** [struct sbefifo_context]; [transport] tells whether the callback is set. *)
Record sbefifo_context := Sctx {
  fd : Z;
  proc : Z;
  transport : bool;
  status : Z;
  ffdc : ptr;
  ffdc_len : Z
}.

Record sbe (D : Type) := Sbe {
  sctx : sbefifo_context;
  dev : D;
  trace : list event
}.
Arguments Sbe {D} _ _ _.
Arguments sctx {D} _.
Arguments dev {D} _.
Arguments trace {D} _.

(** [sizeof(struct sbefifo_context)] on a 64-bit target *)
Definition sizeof_sctx : Z := 48.

Section Sbefifo.
Context {D : Type} {K : Kernel D} {Al : Allocator}.

Definition get_sctx : M (sbe D) sbefifo_context := s ← get_st; mret (sctx s).
Definition put_sctx (c : sbefifo_context) : M (sbe D) unit :=
  s ← get_st; put_st (Sbe c (dev s) (trace s)).
Definition log (e : event) : M (sbe D) unit :=
  s ← get_st; put_st (Sbe (sctx s) (dev s) (trace s ++ [e])).

(** An environment call, recorded in the trace. *)
Definition env_call {A} (e : event) (f : D -> D * A) : M (sbe D) A :=
  s ← get_st;
  let '(d', a) := f (dev s) in
  put_st (Sbe (sctx s) d' (trace s ++ [e]));; mret a.

(** ** connect.c *)

Definition proc_valid (p : Z) : bool :=
  (p =? SBEFIFO_PROC_P9) || (p =? SBEFIFO_PROC_P10).

Definition sbefifo_connect (fifo_path : string) (p : Z) : M (sbe D) ptr :=
  if negb (proc_valid p) then fail EINVAL else
  blk ← malloc sizeof_sctx;
  if is_null blk then fail ENOMEM else
  put_sctx (Sctx (-1) p false 0 Null 0);;
  s ← get_st;
  let '(d', r) := sys_open (dev s) fifo_path in
  put_st (Sbe (sctx s) d' (trace s));;
  match r with
  | inl errno => free blk;; fail errno
  | inr f => put_sctx (Sctx f p false 0 Null 0);; mret blk
  end.

Definition sbefifo_connect_transport (p : Z) : M (sbe D) ptr :=
  if negb (proc_valid p) then fail EINVAL else
  blk ← malloc sizeof_sctx;
  if is_null blk then fail ENOMEM else
  put_sctx (Sctx (-1) p true 0 Null 0);;
  mret blk.

Definition sbefifo_disconnect (blk : ptr) : M (sbe D) unit :=
  s ← get_st;
  let c := sctx s in
  (if negb (fd c =? -1)
   then put_st (Sbe c (sys_close (dev s) (fd c)) (trace s)) else mret tt);;
  (if negb (is_null (ffdc c)) then free (ffdc c) else mret tt);;
  free blk.

Definition sbefifo_proc : M (sbe D) Z := c ← get_sctx; mret (proc c).

(** [ioctl(sctx->fd, FSI_SBEFIFO_READ_TIMEOUT, &t)], -1 on failure, with
    ENOTTY (no such ioctl in this kernel) forgiven. *)
Definition timeout_ioctl (t : Z) : M (sbe D) unit :=
  c ← get_sctx;
  r ← env_call (EvIoctl t) (fun d => sys_ioctl d (fd c) t);
  let rc := match r with
            | inl errno => if errno =? ENOTTY then 0 else -1
            | inr rc => rc
            end in
  if truthy rc then fail rc else mret tt.

Definition sbefifo_set_long_timeout : M (sbe D) unit := timeout_ioctl 30.
Definition sbefifo_set_long_long_timeout : M (sbe D) unit := timeout_ioctl 120.
(** Its callers ignore the return code. *)
Definition sbefifo_reset_timeout : M (sbe D) unit := timeout_ioctl 0.

(** ** ffdc.c *)

Definition sbefifo_ffdc_clear : M (sbe D) unit :=
  c ← get_sctx;
  put_sctx (Sctx (fd c) (proc c) (transport c) 0 (ffdc c) (ffdc_len c));;
  if negb (is_null (ffdc c)) then
    free (ffdc c);;
    put_sctx (Sctx (fd c) (proc c) (transport c) 0 Null 0)
  else mret tt.

Definition sbefifo_ffdc_set (st : Z) (src : ptr) (len : Z) : M (sbe D) unit :=
  c ← get_sctx;
  p ← malloc len;
  put_sctx (Sctx (fd c) (proc c) (transport c) st p (ffdc_len c));;
  if is_null p then mret tt (* "Memory allocation error" *)
  else
    memcpy p src len;;
    put_sctx (Sctx (fd c) (proc c) (transport c) st p len).

(** Returns the status, the pointer when [*ffdc] is assigned, and the length. *)
Definition sbefifo_ffdc_get : M (sbe D) (Z * option ptr * Z) :=
  c ← get_sctx;
  mret (status c, if 0 <? ffdc_len c then Some (ffdc c) else None, ffdc_len c).

Definition sbefifo_ffdc_get_uint32 (offset : Z) : M (sbe D) Z :=
  c ← get_sctx;
  if ffdc_len c <? u32 (offset + 4) then fail (-1)
  else load_be32 (ptr_add (ffdc c) offset).

(** The loop [for (i=0; i<len_words-3; i++)] over the FFDC data words. *)
Fixpoint ffdc_data_loop (k : nat) (offset2 : Z) : M (sbe D) Z :=
  match k with
  | O => mret offset2
  | S k' =>
      value ← sbefifo_ffdc_get_uint32 offset2;
      log (EvPrint (FfdcData value));;
      ffdc_data_loop k' (u32 (offset2 + 4))
  end.

Definition sbefifo_ffdc_dump_pkg (offset : Z) : M (sbe D) Z :=
  header ← sbefifo_ffdc_get_uint32 offset;
  let offset2 := u32 (offset + 4) in
  let magic := u16 (Z.shiftr header 16) in
  if negb (magic =? 0xffdc) then
    log (EvPrint (FfdcBadMagic magic));; fail (-1)
  else
  let len_words := Z.land header 0xffff in
  value ← sbefifo_ffdc_get_uint32 offset2;
  let offset2 := u32 (offset2 + 4) in
  log (EvPrint (FfdcSequence (Z.shiftr value 16)));;
  log (EvPrint (FfdcCommand (Z.land value 0xffff)));;
  value ← sbefifo_ffdc_get_uint32 offset2;
  let offset2 := u32 (offset2 + 4) in
  log (EvPrint (FfdcRc value));;
  offset2 ← ffdc_data_loop (Z.to_nat (len_words - 3)) offset2;
  mret (u32 (offset2 - offset)).

(** [while (offset < sctx->ffdc_len)]; the result tells whether the loop
    ended within the fuel. *)
Fixpoint ffdc_dump_loop (fuel : nat) (offset : Z) : M (sbe D) bool :=
  match fuel with
  | O => mret false
  | S fuel' =>
      c ← get_sctx;
      if offset <? ffdc_len c then
        r ← attempt (sbefifo_ffdc_dump_pkg offset);
        match r with
        | inl _ => mret true
        | inr n => if n <=? 0 then mret true
                   else ffdc_dump_loop fuel' (u32 (offset + n))
        end
      else mret true
  end.

Definition sbefifo_ffdc_dump (fuel : nat) : M (sbe D) bool :=
  ffdc_dump_loop fuel 0.

(** ** operation.c *)

Definition sbefifo_read (buf : ptr) (buflen : Z) : M (sbe D) Z :=
  c_assert (0 <? buflen);;
  c ← get_sctx;
  r ← env_call (EvRead buflen) (fun d => sys_read d (fd c) buflen);
  match r with
  | inl errno => fail errno
  | inr bs => store_bytes buf (Some <$> bs);; mret (Z.of_nat (length bs))
  end.

Definition sbefifo_write (buf : ptr) (buflen : Z) : M (sbe D) unit :=
  c_assert (0 <? buflen);;
  c ← get_sctx;
  bs ← load_bytes buf buflen;
  r ← env_call (EvWrite bs) (fun d => sys_write d (fd c) bs);
  match r with
  | inl errno => fail errno
  | inr n => if negb (n =? buflen) then fail EIO else mret tt
  end.

Definition sbefifo_transport (msg : ptr) (msg_len : Z) (out : ptr) (out_len : Z)
  : M (sbe D) Z :=
  sbefifo_write msg msg_len;;
  sbefifo_read out out_len.

(** [sctx->transport(msg, msg_len, buf, &buflen, sctx->priv)] *)
Definition call_transport (msg : ptr) (msg_len : Z) (out : ptr) (out_len : Z)
  : M (sbe D) Z :=
  bs ← load_bytes msg msg_len;
  r ← env_call (EvTransport bs out_len) (fun d => ext_transport d bs out_len);
  match r with
  | inl rc => fail rc
  | inr rs => store_bytes out (Some <$> rs);; mret (Z.of_nat (length rs))
  end.

Definition sbefifo_parse_output (cmd : Z) (buf : ptr) (buflen : Z)
  : M (sbe D) (ptr * Z) :=
  sbefifo_ffdc_clear;;
  if buflen <? 3 * 4 then fail EPROTO else
  offset_word ← load_be32 (ptr_add buf (u32 (buflen - 4)));
  let offset := u32 (buflen - u32 (offset_word * 4)) in
  let out_len := offset in
  header_word ← load_be32 (ptr_add buf offset);
  let offset := u32 (offset + 4) in
  status_word ← load_be32 (ptr_add buf offset);
  let offset := u32 (offset + 4) in
  if negb (header_word =? Z.lor 0xc0de0000 cmd) then fail EPROTO else
  if truthy status_word then
    sbefifo_ffdc_set status_word (ptr_add buf offset) (u32 (buflen - offset - 4));;
    fail ESBEFIFO
  else
  out ← (if 0 <? out_len then
           out ← malloc out_len;
           if is_null out then fail ENOMEM
           else memcpy out buf out_len;; mret out
         else mret Null);
  (if out_len <? u32 (buflen - offset - 4) then
     sbefifo_ffdc_set status_word (ptr_add buf offset) (u32 (buflen - offset - 4))
   else mret tt);;
  mret (out, out_len).

(** [buflen = ( *out_len + SBEFIFO_MAX_FFDC_SIZE + 3) & ~(uint32_t)3] *)
Definition reply_buflen (out_len : Z) : Z :=
  Z.land (u32 (out_len + SBEFIFO_MAX_FFDC_SIZE + 3)) (u32 (Z.lnot 3)).

Definition sbefifo_operation (msg : ptr) (msg_len : Z) (out_len : Z)
  : M (sbe D) (ptr * Z) :=
  c_assert (negb (is_null msg));;
  c_assert (0 <? msg_len);;
  c ← get_sctx;
  if negb (transport c) && (fd c =? -1) then fail ENOTCONN else
  let buflen := reply_buflen out_len in
  buf ← malloc buflen;
  if is_null buf then fail ENOMEM else
  cmd ← load_be32 (ptr_add msg 4);
  r ← attempt (if transport c
               then call_transport msg msg_len buf buflen
               else sbefifo_transport msg msg_len buf buflen);
  match r with
  | inl rc =>
      free buf;;
      (if rc =? ETIMEDOUT then
         sbefifo_ffdc_set (Z.lor SBEFIFO_PRI_UNKNOWN_ERROR SBEFIFO_SEC_HW_TIMEOUT) Null 0
       else mret tt);;
      fail rc
  | inr buflen =>
      r ← attempt (sbefifo_parse_output cmd buf buflen);
      free buf;;
      check r
  end.
End Sbefifo.
