(* ===== verification/SbeCoreFacts.v ===== *)
(** * libsbefifo core: specification and proofs

    [parse_reply] and [abs_operation] say, without memory, what one exchange
    with the SBE does; the theorems show that the code of operation.c and
    ffdc.c implements them, does not touch memory it does not own and gives
    back every block it allocates. *)

From S2P Require Import Prelude CMem SbeCore.

(** ** Specification of the reply format *)

Definition offset_word (r : list Z) : Z := be_val (drop (length r - 4) r).

(** A reply is made of bytes, and when it is long enough to be parsed its last
    word is the distance, in words, from the header to the end: header, status
    and that word itself are inside the reply. *)
Definition reply_wf (r : list Z) : Prop :=
  Forall is_byte r /\ Z.of_nat (length r) < 2 ^ 32 /\
  (12 <= Z.of_nat (length r) ->
   3 <= offset_word r /\ 4 * offset_word r <= Z.of_nat (length r)).

(** Position of the header. *)
Definition reply_off (r : list Z) : nat := (length r - Z.to_nat (4 * offset_word r))%nat.
Definition reply_word (r : list Z) (o : nat) : Z := be_val (slice o 4 r).
Definition reply_data (r : list Z) : list Z := take (reply_off r) r.
Definition reply_ffdc (r : list Z) : list Z :=
  slice (reply_off r + 8) (length r - (reply_off r + 12)) r.

(** Result of parsing the reply to [cmd], with the status and the FFDC data the
    context holds afterwards. *)
Definition parse_reply (cmd : Z) (r : list Z) : (Z + list Z) * Z * list Z :=
  if Z.of_nat (length r) <? 12 then (inl EPROTO, 0, [])
  else if negb (reply_word r (reply_off r) =? Z.lor 0xc0de0000 cmd) then (inl EPROTO, 0, [])
  else
    let st := reply_word r (reply_off r + 4) in
    if truthy st then (inl ESBEFIFO, st, reply_ffdc r)
    else (inr (reply_data r), 0,
          if bool_decide (length (reply_data r) < length (reply_ffdc r))%nat
          then reply_ffdc r else []).

(** ** Observable state of a context *)

Record aview (D : Type) := AView {
  a_dev : D;
  a_trace : list event;
  a_status : Z;
  a_ffdc : list Z
}.
Arguments AView {D} _ _ _ _.
Arguments a_dev {D} _.
Arguments a_trace {D} _.
Arguments a_status {D} _.
Arguments a_ffdc {D} _.

(** The context [c] owns its FFDC block: [h] is [h0] and that block. *)
Definition own (c : sbefifo_context) (h h0 : gmap nat (list mval)) : Prop :=
  match ffdc c with
  | Null => h = h0
  | Ptr b o => o = 0 /\ h0 !! b = None /\ exists l, h = <[b := l]> h0
  end.

Definition ffdc_view (c : sbefifo_context) (h : gmap nat (list mval)) (f : list Z) : Prop :=
  ffdc_len c = Z.of_nat (length f) /\
  match ffdc c with
  | Null => f = []
  | Ptr b _ => h !! b = Some (Some <$> f)
  end.

Definition view {D} (w : world (sbe D)) (a : aview D) : Prop :=
  dev (w_st w) = a_dev a /\ trace (w_st w) = a_trace a /\
  status (sctx (w_st w)) = a_status a /\
  ffdc_view (sctx (w_st w)) (w_heap w) (a_ffdc a).

(** The fields no operation changes. *)
Definition same_ctx (c c' : sbefifo_context) : Prop :=
  fd c' = fd c /\ proc c' = proc c /\ transport c' = transport c.

(** Some allocation can fail. *)
Definition oom {Al : Allocator} : Prop := exists k n, can_alloc k n = false.

Lemma oom_intro {Al : Allocator} k n : can_alloc k n = false -> oom.
Proof. intros H. by exists k, n. Qed.

(** What is known of the data the SBE puts in front of the reply header. It
    depends on the command: several replies end with a length word. *)
Class DataOk := data_ok : list Z -> Prop.

Definition reply_ok {DO : DataOk} (r : list Z) : Prop :=
  reply_wf r /\ (12 <= Z.of_nat (length r) -> data_ok (reply_data r)).

Definition data_wf {DO : DataOk} (data : list Z) : Prop :=
  Forall is_byte data /\ Z.of_nat (length data) < 2 ^ 32 /\ data_ok data.

(** Laws of the environment: error codes are positive, no call delivers more
    bytes than asked for, and what the SBE delivers has the reply format. *)
Class KernelOk (D : Type) {K : Kernel D} {DO : DataOk} := {
  write_err d f bs d' e : sys_write d f bs = (d', inl e) -> 0 < e;
  read_err d f n d' e : sys_read d f n = (d', inl e) -> 0 < e;
  read_ok d f n d' bs : sys_read d f n = (d', inr bs) ->
    Z.of_nat (length bs) <= n /\ reply_ok bs;
  transport_err d bs n d' e : ext_transport d bs n = (d', inl e) -> 0 < e;
  transport_ok d bs n d' rs : ext_transport d bs n = (d', inr rs) ->
    Z.of_nat (length rs) <= n /\ reply_ok rs
}.

Section Abs.
Context {D : Type} {K : Kernel D}.

Definition abs_transport (c : sbefifo_context) (a : aview D) (req : list mval) (n : Z)
  : (Z + list Z) * aview D :=
  if transport c then
    let '(d, r) := ext_transport (a_dev a) req n in
    (r, AView d (a_trace a ++ [EvTransport req n]) (a_status a) (a_ffdc a))
  else
    let '(d, r) := sys_write (a_dev a) (fd c) req in
    let tr := a_trace a ++ [EvWrite req] in
    match r with
    | inl e => (inl e, AView d tr (a_status a) (a_ffdc a))
    | inr k =>
        if k =? Z.of_nat (length req) then
          let '(d', r') := sys_read d (fd c) n in
          (r', AView d' (tr ++ [EvRead n]) (a_status a) (a_ffdc a))
        else (inl EIO, AView d tr (a_status a) (a_ffdc a))
    end.

(** One exchange: send [req], whose command word is [cmd], and parse the reply. *)
Definition abs_operation (c : sbefifo_context) (a : aview D) (req : list mval)
  (cmd hint : Z) : (Z + list Z) * aview D :=
  if negb (transport c) && (fd c =? -1) then (inl ENOTCONN, a) else
  let '(r, a1) := abs_transport c a req (reply_buflen hint) in
  match r with
  | inl rc =>
      (inl rc, if rc =? ETIMEDOUT
               then AView (a_dev a1) (a_trace a1)
                      (Z.lor SBEFIFO_PRI_UNKNOWN_ERROR SBEFIFO_SEC_HW_TIMEOUT) []
               else a1)
  | inr reply =>
      let '(res, st, f) := parse_reply cmd reply in
      (res, AView (a_dev a1) (a_trace a1) st f)
  end.
End Abs.

(** ** Ownership lemmas *)

Lemma own_delete c h h0 b l :
  own c h h0 -> h0 !! b = Some l -> own c (delete b h) (delete b h0).
Proof.
  unfold own. destruct (ffdc c) as [|b' o]; [by intros ->|].
  intros (-> & Hb' & l' & ->) Hb. assert (b <> b') by congruence.
  split_and!; [done| |exists l'].
  - rewrite lookup_delete_ne by done. done.
  - rewrite delete_insert_ne by done. done.
Qed.

Lemma own_lookup c h h0 b l : own c h h0 -> h0 !! b = Some l -> h !! b = Some l.
Proof.
  unfold own. destruct (ffdc c) as [|b' o]; [by intros ->|].
  intros (-> & Hb' & l' & ->) Hb. rewrite lookup_insert_ne by congruence. done.
Qed.

Lemma own_insert c h h0 b l :
  own c h h0 -> h !! b = None -> own c (<[b:=l]> h) (<[b:=l]> h0).
Proof.
  unfold own. destruct (ffdc c) as [|b' o]; [by intros ->|].
  intros (-> & Hb' & l' & ->) Hb. assert (b <> b').
  { intros ->. rewrite lookup_insert_eq in Hb. done. }
  rewrite lookup_insert_ne in Hb by done.
  split_and!; [done| |exists l'].
  - rewrite lookup_insert_ne by done. done.
  - rewrite insert_insert_ne by done. done.
Qed.

Lemma own_heap_ok c h h0 n : own c h h0 -> heap_ok h n -> heap_ok h0 n.
Proof.
  unfold own. destruct (ffdc c) as [|b o]; [by intros ->|].
  intros (-> & Hb & l & ->) H b' Hb'. specialize (H b' Hb').
  destruct (decide (b = b')) as [->|]; [done|].
  rewrite lookup_insert_ne in H by done. done.
Qed.

(** Dropping a block the context does not own. *)
Lemma own_drop c h h0 b l :
  own c h (<[b:=l]> h0) -> h0 !! b = None -> own c (delete b h) h0.
Proof.
  intros H Hb. rewrite <- (delete_insert_id h0 b l Hb).
  eapply own_delete; [done|apply lookup_insert_eq].
Qed.

Lemma ffdc_view_delete c h h0 b l f :
  own c h h0 -> h0 !! b = Some l -> ffdc_view c h f -> ffdc_view c (delete b h) f.
Proof.
  unfold own, ffdc_view. intros Ho Hb [Hl Hf]; split; [done|].
  destruct (ffdc c) as [|b' o]; [done|]. destruct Ho as (_ & Hn & _).
  rewrite lookup_delete_ne by congruence. done.
Qed.

(** ** Rules for the primitive operations *)

Section CoreWp.
Context {D : Type} {K : Kernel D} {Al : Allocator}.
Implicit Types (h : gmap nat (list mval)) (c : sbefifo_context) (d : D).

Lemma wp_get_sctx h n c d tr Q :
  Q (inr c) (World h n (Sbe c d tr)) -> wp get_sctx (World h n (Sbe c d tr)) Q.
Proof. intros. apply wp_bind, wp_get_st, wp_ret. done. Qed.

Lemma wp_put_sctx h n c c' d tr Q :
  Q (inr tt) (World h n (Sbe c' d tr)) -> wp (put_sctx c') (World h n (Sbe c d tr)) Q.
Proof. intros. apply wp_bind, wp_get_st, wp_put_st. done. Qed.

Lemma wp_log h n c d tr e Q :
  Q (inr tt) (World h n (Sbe c d (tr ++ [e]))) -> wp (log e) (World h n (Sbe c d tr)) Q.
Proof. intros. apply wp_bind, wp_get_st, wp_put_st. done. Qed.

Lemma wp_env_call {A} e (f : D -> D * A) h n c d tr Q :
  (forall d' a, f d = (d', a) -> Q (inr a) (World h n (Sbe c d' (tr ++ [e])))) ->
  wp (env_call e f) (World h n (Sbe c d tr)) Q.
Proof.
  intros H. apply wp_bind, wp_get_st. simpl. destruct (f d) as [d' a].
  apply wp_bind, wp_put_st, wp_ret. auto.
Qed.

Definition cleared c : sbefifo_context :=
  Sctx (fd c) (proc c) (transport c) 0 Null (if is_null (ffdc c) then ffdc_len c else 0).

Lemma wp_ffdc_clear h h0 n c d tr Q :
  own c h h0 ->
  Q (inr tt) (World h0 n (Sbe (cleared c) d tr)) ->
  wp sbefifo_ffdc_clear (World h n (Sbe c d tr)) Q.
Proof.
  unfold own, cleared. intros Ho HQ. unfold sbefifo_ffdc_clear.
  apply wp_bind, wp_get_sctx, wp_bind, wp_put_sctx.
  destruct (ffdc c) as [|b o]; simpl in *.
  - apply wp_ret. by rewrite Ho in *.
  - destruct Ho as (-> & Hb & l & ->).
    apply wp_bind. eapply wp_free; [apply lookup_insert_eq|].
    rewrite delete_insert_id by done. by apply wp_put_sctx.
Qed.

Definition with_ffdc c (st : Z) (p : ptr) (len : Z) : sbefifo_context :=
  Sctx (fd c) (proc c) (transport c) st p len.

Lemma wp_ffdc_set h n c d tr st b o len l Q :
  heap_ok h n -> h !! b = Some l ->
  0 <= o -> 0 <= len -> o + len <= Z.of_nat (length l) ->
  (can_alloc n len = true ->
   Q (inr tt) (World (<[n := slice (Z.to_nat o) (Z.to_nat len) l]> h) (S n)
                     (Sbe (with_ffdc c st (Ptr n 0) len) d tr))) ->
  (can_alloc n len = false ->
   Q (inr tt) (World h (S n) (Sbe (with_ffdc c st Null (ffdc_len c)) d tr))) ->
  wp (sbefifo_ffdc_set st (Ptr b o) len) (World h n (Sbe c d tr)) Q.
Proof.
  intros Hok Hb Ho Hlen Hl HQ1 HQ2. unfold sbefifo_ffdc_set.
  apply wp_bind, wp_get_sctx, wp_bind, wp_malloc; intros Hc; apply wp_bind, wp_put_sctx; simpl.
  - assert (n <> b) by (intros <-; rewrite heap_ok_fresh in Hb; done).
    apply wp_bind. eapply wp_memcpy; try done.
    + apply lookup_insert_eq.
    + rewrite lookup_insert_ne; done.
    + rewrite length_replicate. lia.
    + apply wp_put_sctx. rewrite insert_insert_eq, patch_full.
      * by apply HQ1.
      * rewrite length_slice, length_replicate by lia. lia.
      * done.
  - apply wp_ret. by apply HQ2.
Qed.

Lemma wp_ffdc_set_empty h n c d tr st Q :
  heap_ok h n ->
  (can_alloc n 0 = true ->
   Q (inr tt) (World (<[n := []]> h) (S n) (Sbe (with_ffdc c st (Ptr n 0) 0) d tr))) ->
  (can_alloc n 0 = false ->
   Q (inr tt) (World h (S n) (Sbe (with_ffdc c st Null (ffdc_len c)) d tr))) ->
  wp (sbefifo_ffdc_set st Null 0) (World h n (Sbe c d tr)) Q.
Proof.
  intros Hok HQ1 HQ2. unfold sbefifo_ffdc_set.
  apply wp_bind, wp_get_sctx, wp_bind, wp_malloc; intros Hc; apply wp_bind, wp_put_sctx; simpl.
  - apply wp_bind, wp_ret, wp_put_sctx. by apply HQ1.
  - apply wp_ret. by apply HQ2.
Qed.
End CoreWp.

(** Arithmetic of the reply format. *)
Section ReplyArith.
Context (r : list Z) (Hwf : reply_wf r) (H12 : 12 <= Z.of_nat (length r)).

Lemma reply_off_Z : Z.of_nat (reply_off r) = Z.of_nat (length r) - 4 * offset_word r.
Proof. destruct Hwf as (_ & _ & Ho). specialize (Ho H12). unfold reply_off. lia. Qed.

Lemma reply_off_bound : (reply_off r + 12 <= length r)%nat.
Proof. pose proof reply_off_Z. destruct Hwf as (_ & _ & Ho). specialize (Ho H12). lia. Qed.

Lemma reply_off_u32 :
  u32 (Z.of_nat (length r) - u32 (offset_word r * 4)) = Z.of_nat (reply_off r).
Proof.
  destruct Hwf as (_ & Hlen & Ho). specialize (Ho H12).
  rewrite (wrap_small 32 (offset_word r * 4)) by solve_range.
  rewrite reply_off_Z, wrap_small by solve_range. lia.
Qed.

Lemma offset_word_slice : reply_word r (length r - 4) = offset_word r.
Proof.
  unfold reply_word, offset_word, slice. f_equal. apply take_ge.
  rewrite length_drop. lia.
Qed.

Lemma length_reply_data : length (reply_data r) = reply_off r.
Proof. pose proof reply_off_bound. unfold reply_data. rewrite length_take. lia. Qed.

Lemma length_reply_ffdc : length (reply_ffdc r) = (length r - (reply_off r + 12))%nat.
Proof. pose proof reply_off_bound. unfold reply_ffdc. apply length_slice. lia. Qed.
End ReplyArith.

(** ** Results of an exchange *)

(** [o], [len] hand over [data] in a block of its own (no block when empty). *)
Definition out_rep {DO : DataOk} (h1 h0 : gmap nat (list mval)) (o : ptr) (len : Z) (data : list Z) : Prop :=
  data_wf data /\ len = Z.of_nat (length data) /\
  ((data = [] /\ o = Null /\ h1 = h0) \/
   exists b, data <> [] /\ o = Ptr b 0 /\ h0 !! b = None /\ h1 = <[b := Some <$> data]> h0).

(** What is left on the heap after return code [rc]: all of [h0]; a timeout
    also leaves the previous FFDC block, which nothing refers to any more. *)
Definition after_rc (rc : Z) (c : sbefifo_context) (h0 hf : gmap nat (list mval)) : Prop :=
  hf = h0 \/ (rc = ETIMEDOUT /\ own c hf h0).

Definition res_rep {DO : DataOk} (c c' : sbefifo_context) (h' h0 : gmap nat (list mval))
  (res : Z + ptr * Z) (ares : Z + list Z) : Prop :=
  match res, ares with
  | inl rc, inl rc' =>
      rc = rc' /\ rc <> 0 /\ exists hf, own c' h' hf /\ after_rc rc c h0 hf
  | inr (o, len), inr data => exists h1, own c' h' h1 /\ out_rep h1 h0 o len data
  | _, _ => False
  end.

(** Freeing a block [b] that the result does not involve. *)
Lemma own_drop_view c h h0 b l :
  own c h (<[b:=l]> h0) -> h0 !! b = None ->
  h !! b = Some l /\ own c (delete b h) h0 /\
  (forall f, ffdc_view c h f -> ffdc_view c (delete b h) f).
Proof.
  intros Ho Hb. assert (Hl := lookup_insert_eq h0 b l). split_and!.
  - eapply own_lookup; done.
  - by eapply own_drop.
  - intros f. by eapply ffdc_view_delete.
Qed.

Lemma after_rc_drop rc c h0 hf b l :
  after_rc rc c (<[b:=l]> h0) hf -> h0 !! b = None ->
  exists hf', hf = <[b:=l]> hf' /\ hf' !! b = None /\ after_rc rc c h0 hf'.
Proof.
  unfold after_rc. intros [->|[Hrc Ha]] Hb; [exists h0; auto|].
  exists (delete b hf). destruct (own_drop_view _ _ _ _ _ Ha Hb) as (Hl & Ho & _).
  split_and!; [|apply lookup_delete_eq|by right].
  rewrite insert_delete_eq. by rewrite insert_id.
Qed.

Lemma out_rep_drop {DO : DataOk} h1 h0 o len data b l :
  out_rep h1 (<[b:=l]> h0) o len data -> h0 !! b = None ->
  exists h1', h1 = <[b:=l]> h1' /\ h1' !! b = None /\ out_rep h1' h0 o len data.
Proof.
  intros (Hby & Hlen & Hr) Hb. destruct Hr as [(-> & -> & ->)|(b' & Hne & -> & Hb' & ->)].
  - exists h0. split; [done|]. split; [done|]. unfold out_rep. auto 10.
  - assert (b <> b') by (intros ->; by rewrite lookup_insert_eq in Hb').
    rewrite lookup_insert_ne in Hb' by done.
    exists (<[b' := Some <$> data]> h0). split; [|split].
    + by rewrite insert_insert_ne.
    + rewrite lookup_insert_ne; done.
    + unfold out_rep. eauto 10.
Qed.

Lemma res_rep_drop {DO : DataOk} c c' h' h0 res ares b l :
  res_rep c c' h' (<[b:=l]> h0) res ares -> h0 !! b = None ->
  h' !! b = Some l /\ res_rep c c' (delete b h') h0 res ares /\
  (forall f, ffdc_view c' h' f -> ffdc_view c' (delete b h') f).
Proof.
  intros Hr Hb. unfold res_rep in *. destruct res as [rc|[o len]], ares as [rc'|data]; try done.
  - destruct Hr as (-> & Hrc & hf & Ho & Ha).
    destruct (after_rc_drop _ _ _ _ _ _ Ha Hb) as (hf' & -> & Hn & Ha').
    destruct (own_drop_view _ _ _ _ _ Ho Hn) as (? & ? & ?). split_and!; eauto.
  - destruct Hr as (h1 & Ho & Hr).
    destruct (out_rep_drop _ _ _ _ _ _ _ Hr Hb) as (h1' & -> & Hn & Hr').
    destruct (own_drop_view _ _ _ _ _ Ho Hn) as (? & ? & ?). split_and!; eauto.
Qed.

Lemma slice_reply_block o (r : list Z) (pad : list mval) :
  (o + 4 <= length r)%nat ->
  slice o 4 ((Some <$> r) ++ pad) = Some <$> slice o 4 r.
Proof.
  intros H. rewrite slice_app_l by (rewrite length_fmap; lia). apply slice_map.
Qed.

Section Parse.
Context {D : Type} {K : Kernel D} {DO : DataOk} {Al : Allocator}.
Implicit Types (h : gmap nat (list mval)) (c : sbefifo_context) (d : D).

(** What [sbefifo_parse_output] guarantees about its final world. *)
Definition parse_post c h h0 d tr cmd r (res : Z + ptr * Z) (w' : world (sbe D)) : Prop :=
  exists h' n' c' ares, w' = World h' n' (Sbe c' d tr) /\
    heap_ok h' n' /\ same_ctx c c' /\ res_rep c c' h' h0 res ares /\
    (oom \/ forall f, ffdc_view c h f ->
      (parse_reply cmd r).1.1 = ares /\ (parse_reply cmd r).1.2 = status c' /\
      ffdc_view c' h' (parse_reply cmd r).2).

Lemma cleared_view c h f : ffdc_view c h f -> ffdc_len (cleared c) = 0.
Proof.
  unfold ffdc_view, cleared. destruct (ffdc c); simpl; [|done].
  intros [Hl ->]. rewrite Hl. done.
Qed.

Lemma own_fresh c h n l st len :
  heap_ok h n -> own (with_ffdc c st (Ptr n 0) len) (<[n := l]> h) h.
Proof. intros H. unfold own; simpl. split_and!; eauto using heap_ok_fresh. Qed.

Lemma parse_post_rc c h h0 d tr cmd r n c' rc st :
  heap_ok h0 n -> same_ctx c c' -> rc <> 0 -> rc <> ETIMEDOUT ->
  ffdc c' = Null -> status c' = st -> (forall f, ffdc_view c h f -> ffdc_len c' = 0) ->
  parse_reply cmd r = (inl rc, st, []) ->
  parse_post c h h0 d tr cmd r (inl rc) (World h0 n (Sbe c' d tr)).
Proof.
  intros Hok Hs Hrc Ht Hn Hst Hlen Hp. exists h0, n, c', (inl rc). split_and!; try done.
  - split_and!; try done. exists h0. unfold own, after_rc. rewrite Hn. auto.
  - right. intros f Hf. rewrite Hp; simpl. split_and!; try done.
    split; [by rewrite (Hlen _ Hf)|]. by rewrite Hn.
Qed.

(** Storing FFDC data from the reply buffer. *)
Lemma wp_reply_ffdc h n c d tr st bb r pad Q :
  heap_ok h n -> reply_wf r -> 12 <= Z.of_nat (length r) ->
  h !! bb = Some ((Some <$> r) ++ pad) ->
  (forall h' c', heap_ok h' (S n) -> same_ctx c c' -> own c' h' h -> status c' = st ->
     (oom \/ ffdc_view c' h' (reply_ffdc r)) ->
     Q (inr tt) (World h' (S n) (Sbe c' d tr))) ->
  wp (sbefifo_ffdc_set st (Ptr bb (Z.of_nat (reply_off r) + 8))
        (Z.of_nat (length r) - (Z.of_nat (reply_off r) + 8) - 4)) (World h n (Sbe c d tr)) Q.
Proof.
  intros Hok Hwf H12 Hb HQ. pose proof (reply_off_bound r Hwf H12) as Hoff.
  eapply wp_ffdc_set; [done|done|lia|lia|rewrite length_app, length_fmap; lia| |].
  - intros Hc. apply HQ; try done.
    + eauto with cmem.
    + by apply own_fresh.
    + right. split; simpl.
      * rewrite length_reply_ffdc by done. lia.
      * rewrite lookup_insert_eq. f_equal. rewrite slice_app_l by (rewrite length_fmap; lia).
        rewrite slice_map. unfold reply_ffdc. do 2 f_equal; lia.
  - intros Hc. apply HQ; try done; [eauto with cmem|left; by eapply oom_intro].
Qed.

(** Copying the reply data out of the reply buffer. *)
Definition copy_data (buf : ptr) (out_len : Z) : M (sbe D) ptr :=
  if 0 <? out_len then
    out ← malloc out_len;
    if is_null out then fail ENOMEM
    else memcpy out buf out_len;; mret out
  else mret Null.

Lemma wp_copy_data h n s bb r pad Q :
  heap_ok h n -> reply_ok r -> 12 <= Z.of_nat (length r) ->
  h !! bb = Some ((Some <$> r) ++ pad) ->
  (forall h1 n1 o, heap_ok h1 n1 -> h1 !! bb = Some ((Some <$> r) ++ pad) ->
     out_rep h1 h o (Z.of_nat (reply_off r)) (reply_data r) ->
     Q (inr o) (World h1 n1 s)) ->
  (oom -> Q (inl ENOMEM) (World h (S n) s)) ->
  wp (copy_data (Ptr bb 0) (Z.of_nat (reply_off r))) (World h n s) Q.
Proof.
  intros Hok [Hwf Hdok] H12 Hb HQ Hoom. pose proof (reply_off_bound r Hwf H12) as Hoff.
  assert (Hlen := length_reply_data r Hwf H12).
  assert (Hby : data_wf (reply_data r)).
  { split; [|split; [|by apply Hdok]]; [apply Forall_take, Hwf|]. destruct Hwf as (_ & ? & _). lia. }
  assert (n <> bb) by (intros <-; rewrite heap_ok_fresh in Hb; done).
  unfold copy_data. destruct (Z.ltb_spec 0 (Z.of_nat (reply_off r))) as [Hpos|Hz].
  - apply wp_bind, wp_malloc; intros Hc; simpl.
    + apply wp_bind. eapply wp_memcpy; [apply lookup_insert_eq
        |rewrite lookup_insert_ne; done|lia..|rewrite length_replicate; lia
        |rewrite length_app, length_fmap; lia|].
      apply wp_ret, HQ.
      * eauto with cmem.
      * rewrite !lookup_insert_ne; done.
      * split; [done|split; [lia|]]. right. exists n. split_and!; [|done|eauto with cmem|].
        { intros E. rewrite E in Hlen. simpl in Hlen. lia. }
        rewrite insert_insert_eq, patch_full; [|rewrite length_slice, length_replicate;
          rewrite ?length_app, ?length_fmap; lia|done].
        f_equal. rewrite slice_app_l by (rewrite length_fmap; lia).
        rewrite slice_map. unfold reply_data, slice. simpl. do 2 f_equal. lia.
    + apply wp_fail, Hoom. by eapply oom_intro.
  - apply wp_ret, HQ; [done..|]. split; [done|split; [lia|]]. left.
    split_and!; [|done|done]. apply length_zero_iff_nil. lia.
Qed.

Lemma parse_reply_short cmd r :
  Z.of_nat (length r) < 12 -> parse_reply cmd r = (inl EPROTO, 0, []).
Proof. intros H. unfold parse_reply. destruct (Z.ltb_spec (Z.of_nat (length r)) 12); [done|lia]. Qed.

(** Reading a word of the reply out of the reply buffer. *)
Lemma wp_reply_word h n (s : sbe D) bb (r : list Z) pad k o Q :
  h !! bb = Some ((Some <$> r) ++ pad) ->
  k = Z.of_nat o -> (o + 4 <= length r)%nat ->
  Q (inr (reply_word r o)) (World h n s) ->
  wp (load_be32 (ptr_add (Ptr bb 0) k)) (World h n s) Q.
Proof.
  intros Hb -> Ho HQ. simpl ptr_add.
  eapply (wp_load_be32 _ _ _ (slice o 4 r)); [done|lia| | |exact HQ].
  - rewrite length_app, length_fmap. lia.
  - rewrite Z.add_0_l, Nat2Z.id. by apply slice_reply_block.
Qed.

Lemma same_ctx_cleared c c' : same_ctx (cleared c) c' -> same_ctx c c'.
Proof. done. Qed.

Lemma parse_reply_long cmd r :
  12 <= Z.of_nat (length r) ->
  parse_reply cmd r =
    if negb (reply_word r (reply_off r) =? Z.lor 0xc0de0000 cmd) then (inl EPROTO, 0, [])
    else let st := reply_word r (reply_off r + 4) in
      if truthy st then (inl ESBEFIFO, st, reply_ffdc r)
      else (inr (reply_data r), 0,
            if bool_decide (length (reply_data r) < length (reply_ffdc r))%nat
            then reply_ffdc r else []).
Proof. intros H. unfold parse_reply. destruct (Z.ltb_spec (Z.of_nat (length r)) 12); [lia|done]. Qed.

(** The reply data has been accepted: hand it over, keep long FFDC data. *)
Lemma parse_output_success c h h0 n d tr cmd bb r pad len :
  heap_ok h0 n -> h0 !! bb = Some ((Some <$> r) ++ pad) -> reply_ok r ->
  12 <= Z.of_nat (length r) ->
  len = Z.of_nat (length r) - (Z.of_nat (reply_off r) + 8) - 4 ->
  parse_reply cmd r = (inr (reply_data r), 0,
     if bool_decide (length (reply_data r) < length (reply_ffdc r))%nat
     then reply_ffdc r else []) ->
  wp (out ← copy_data (Ptr bb 0) (Z.of_nat (reply_off r));
      (if Z.of_nat (reply_off r) <? len
       then sbefifo_ffdc_set 0 (Ptr bb (Z.of_nat (reply_off r) + 8)) len
       else mret tt);;
      mret (out, Z.of_nat (reply_off r)))
     (World h0 n (Sbe (cleared c) d tr)) (parse_post c h h0 d tr cmd r).
Proof.
  intros Hok Hb Hrok H12 -> Hp. pose proof (proj1 Hrok) as Hwf.
  pose proof (reply_off_bound r Hwf H12) as Hoff.
  rewrite length_reply_data, length_reply_ffdc in Hp by done.
  apply wp_bind. eapply wp_copy_data; try done.
  2: { intros Hoom. exists h0, (S n), (cleared c), (inl ENOMEM).
       split_and!; eauto with cmem; [done|]. split_and!; try done. exists h0. split; [done|by left]. }
  intros h1 n1 o Hok1 Hb1 Hrep. apply wp_bind.
  destruct (Z.ltb_spec (Z.of_nat (reply_off r))
              (Z.of_nat (length r) - (Z.of_nat (reply_off r) + 8) - 4)).
  - rewrite bool_decide_eq_true_2 in Hp by lia.
    eapply wp_reply_ffdc; try done. intros h' c' Hok' Hs Ho Hst' Hv. apply wp_ret.
    exists h', (S n1), c', (inr (reply_data r)). split_and!; try done; [by exists h1|].
    destruct Hv as [|Hv]; [by left|right]. intros f Hf. rewrite Hp. done.
  - rewrite bool_decide_eq_false_2 in Hp by lia. apply wp_ret, wp_ret.
    exists h1, n1, (cleared c), (inr (reply_data r)). split_and!; try done; [by exists h1|].
    right. intros f Hf. rewrite Hp. split_and!; try done.
    split; [by erewrite cleared_view|done].
Qed.

Lemma parse_output_spec c h h0 n d tr cmd bb r pad :
  heap_ok h n -> own c h h0 -> h0 !! bb = Some ((Some <$> r) ++ pad) -> reply_ok r ->
  wp (sbefifo_parse_output cmd (Ptr bb 0) (Z.of_nat (length r)))
     (World h n (Sbe c d tr)) (parse_post c h h0 d tr cmd r).
Proof.
  intros Hok Hown Hb Hrok. pose proof (proj1 Hrok) as Hwf.
  assert (Hok0 := own_heap_ok _ _ _ _ Hown Hok).
  apply wp_bind. eapply wp_ffdc_clear; [done|].
  destruct (Z.ltb_spec (Z.of_nat (length r)) (3 * 4)) as [Hs|H12].
  { apply wp_fail. eapply parse_post_rc; eauto using cleared_view, parse_reply_short; done. }
  pose proof (reply_off_bound r Hwf H12) as Hoff. assert (Hlen := proj1 (proj2 Hwf)).
  apply wp_bind. eapply (wp_reply_word _ _ _ _ _ _ _ (length r - 4)); [done| |lia|].
  { rewrite wrap_small by solve_range. lia. }
  rewrite offset_word_slice, (reply_off_u32 r Hwf H12) by done.
  apply wp_bind. eapply (wp_reply_word _ _ _ _ _ _ _ (reply_off r)); [done|done|lia|].
  apply wp_bind. rewrite (wrap_small 32 (Z.of_nat (reply_off r) + 4)) by solve_range.
  eapply (wp_reply_word _ _ _ _ _ _ _ (reply_off r + 4)); [done|lia|lia|].
  rewrite <- Z.add_assoc, (wrap_small 32 (Z.of_nat (reply_off r) + (4 + 4))) by solve_range.
  change (4 + 4) with 8. cbv zeta.
  rewrite (wrap_small 32 (Z.of_nat (length r) - _ - 4)) by solve_range.
  pose proof (parse_reply_long cmd r H12) as Hp. cbv zeta in Hp. destruct (negb _).
  { apply wp_fail. eapply parse_post_rc; eauto using cleared_view; done. }
  destruct (truthy _) eqn:Hst.
  - apply wp_bind. eapply wp_reply_ffdc; try done.
    intros h' c' Hok' Hs Ho Hst' Hv. apply wp_fail.
    exists h', (S n), c', (inl ESBEFIFO). split_and!; try done.
    + split_and!; try done. exists h0. split; [done|by left].
    + destruct Hv as [|Hv]; [by left|right]. intros f Hf. by rewrite Hp.
  - assert (Hz : reply_word r (reply_off r + 4) = 0)
      by (apply negb_false_iff, Z.eqb_eq in Hst; done).
    rewrite Hz. by eapply parse_output_success.
Qed.
End Parse.

(** ** One exchange with the SBE *)

(** Reply sizes the commands ask for: the reply buffer does not wrap around. *)
Definition hint_ok (hint : Z) : Prop := 0 <= hint /\ hint + SBEFIFO_MAX_FFDC_SIZE + 3 < 2 ^ 32.

Lemma reply_buflen_bounds hint :
  hint_ok hint -> hint + SBEFIFO_MAX_FFDC_SIZE <= reply_buflen hint < 2 ^ 32.
Proof.
  intros [H1 H2]. unfold reply_buflen. change (u32 (Z.lnot 3)) with (2 ^ 32 - 2 ^ 2).
  unfold SBEFIFO_MAX_FFDC_SIZE in *.
  rewrite wrap_small, (land_align 32 2) by solve_range. change (2 ^ 2) with 4.
  pose proof (Z.mod_pos_bound (hint + 0x8000 + 3) 4). lia.
Qed.

Section Operation.
Context {D : Type} {K : Kernel D} {DO : DataOk} {KO : KernelOk D} {Al : Allocator}.
Implicit Types (h : gmap nat (list mval)) (c : sbefifo_context) (d : D).

(** The code that moves the request out and the reply into the buffer. *)
Definition do_transport c (msg : ptr) (msg_len : Z) (buf : ptr) (buflen : Z) : M (sbe D) Z :=
  if transport c then call_transport msg msg_len buf buflen
  else sbefifo_transport msg msg_len buf buflen.

Definition transport_post c h n d tr bb req blen (res : Z + Z) (w' : world (sbe D)) : Prop :=
  exists d' tr' ares,
    (forall st f, abs_transport c (AView d tr st f) req blen = (ares, AView d' tr' st f)) /\
    match ares with
    | inl rc => res = inl rc /\ 0 < rc /\ w' = World h n (Sbe c d' tr')
    | inr r => res = inr (Z.of_nat (length r)) /\ reply_ok r /\
        exists pad, w' = World (<[bb := (Some <$> r) ++ pad]> h) n (Sbe c d' tr')
    end.

(** Filling the first bytes of a block. *)
Lemma patch_0 (l k : list mval) : patch 0 l k = l ++ drop (length l) k.
Proof. done. Qed.

Lemma do_transport_spec c h n d tr mb bb req buf msg_len blen :
  h !! mb = Some req -> msg_len = Z.of_nat (length req) -> 0 < msg_len ->
  h !! bb = Some buf -> blen = Z.of_nat (length buf) -> 0 < blen ->
  wp (do_transport c (Ptr mb 0) msg_len (Ptr bb 0) blen) (World h n (Sbe c d tr))
     (transport_post c h n d tr bb req blen).
Proof.
  intros Hm -> Hpos Hb -> Hbpos. unfold do_transport, transport_post, abs_transport.
  destruct (transport c).
  - apply wp_bind. eapply wp_load_bytes; [done|lia..|].
    rewrite Nat2Z.id, slice_all. apply wp_bind, wp_env_call. intros d' r E. simpl. rewrite E.
    destruct r as [rc|rs].
    + apply wp_fail. eexists _, _, (inl rc). split_and!; eauto using transport_err.
    + apply transport_ok in E as [Hl Hwf]. apply wp_bind.
      eapply wp_store_bytes; [done|lia|rewrite length_fmap; lia|]. apply wp_ret.
      eexists _, _, (inr rs). split_and!; eauto.
  - apply wp_bind, wp_bind, wp_assert; [by apply Z.ltb_lt|]. apply wp_bind, wp_get_sctx, wp_bind.
    eapply wp_load_bytes; [done|lia..|].
    rewrite Nat2Z.id, slice_all. apply wp_bind, wp_env_call. intros d' r E. simpl. rewrite E.
    destruct r as [rc|k].
    { apply wp_fail. eexists _, _, (inl rc). split_and!; eauto using write_err. }
    destruct (Z.eqb_spec k (Z.of_nat (length req))); simpl.
    2: { apply wp_fail. eexists _, _, (inl EIO). done. }
    apply wp_ret, wp_bind, wp_assert; [by apply Z.ltb_lt|].
    apply wp_bind, wp_get_sctx, wp_bind, wp_env_call. intros d'' r E2. rewrite E2.
    destruct r as [rc|rs].
    + apply wp_fail. eexists _, _, (inl rc). split_and!; eauto using read_err.
    + apply read_ok in E2 as [Hl Hwf]. apply wp_bind.
      eapply wp_store_bytes; [done|lia|rewrite length_fmap; lia|]. apply wp_ret.
      eexists _, _, (inr rs). split_and!; eauto.
Qed.

(** What [sbefifo_operation] guarantees: memory is as it was but for the
    reply data handed over and the FFDC block of the context, and, when no
    allocation fails, the exchange is [abs_operation]. *)
Definition op_post c h h0 d tr req cmd hint (res : Z + ptr * Z) (w' : world (sbe D)) : Prop :=
  exists h' n' c' d' tr' ares, w' = World h' n' (Sbe c' d' tr') /\
    heap_ok h' n' /\ same_ctx c c' /\ res_rep c c' h' h0 res ares /\
    (oom \/ forall f, ffdc_view c h f -> exists f', ffdc_view c' h' f' /\
      abs_operation c (AView d tr (status c) f) req cmd hint
      = (ares, AView d' tr' (status c') f')).

Lemma op_post_same c h h0 n d tr req cmd hint rc :
  heap_ok h n -> own c h h0 -> rc <> 0 -> rc <> ETIMEDOUT ->
  (oom \/ forall st f, abs_operation c (AView d tr st f) req cmd hint = (inl rc, AView d tr st f)) ->
  op_post c h h0 d tr req cmd hint (inl rc) (World h n (Sbe c d tr)).
Proof.
  intros Hok Ho Hrc Ht Habs. exists h, n, c, d, tr, (inl rc). split_and!; try done.
  - split_and!; try done. exists h0. split; [done|by left].
  - destruct Habs as [|Habs]; [by left|right]. intros f Hf. exists f. by rewrite Habs.
Qed.

(** The transport failed: only a timeout changes the context. *)
Lemma op_transport_failed c h h0 n d tr d' tr' req cmd hint rc :
  heap_ok h n -> own c h h0 -> 0 < rc ->
  negb (transport c) && (fd c =? -1) = false ->
  (forall st f, abs_transport c (AView d tr st f) req (reply_buflen hint)
                = (inl rc, AView d' tr' st f)) ->
  wp ((if rc =? ETIMEDOUT then
         sbefifo_ffdc_set (Z.lor SBEFIFO_PRI_UNKNOWN_ERROR SBEFIFO_SEC_HW_TIMEOUT) Null 0
       else mret tt);; fail rc)
     (World h n (Sbe c d' tr')) (op_post c h h0 d tr req cmd hint).
Proof.
  intros Hok Ho Hrc Hconn Habs. apply wp_bind.
  destruct (Z.eqb_spec rc ETIMEDOUT) as [->|Hne].
  - apply wp_ffdc_set_empty; [done|..]; intros Hc; apply wp_fail.
    + eexists _, _, _, _, _, (inl ETIMEDOUT). split_and!; [done|eauto with cmem|done| |].
      * split_and!; try done. exists h. split; [by apply own_fresh|by right].
      * right. intros f Hf. exists []. split.
        { split; [done|]. simpl. by rewrite lookup_insert_eq. }
        unfold abs_operation. by rewrite Hconn, Habs.
    + eexists _, _, _, _, _, (inl ETIMEDOUT). split_and!; [done|eauto with cmem|done| |].
      * split_and!; try done. exists h. split; [done|by right].
      * left. by eapply oom_intro.
  - apply wp_ret, wp_fail. exists h, n, c, d', tr', (inl rc). split_and!; try done.
    + split_and!; [done|lia|]. exists h0. split; [done|by left].
    + right. intros f Hf. exists f. split; [done|]. unfold abs_operation.
      rewrite Hconn, Habs. destruct (Z.eqb_spec rc ETIMEDOUT); done.
Qed.

Lemma operation_spec c h h0 n d tr mb req cmd msg_len hint :
  heap_ok h n -> own c h h0 -> h0 !! mb = Some req ->
  msg_len = Z.of_nat (length req) -> 8 <= msg_len ->
  slice 4 4 req = Some <$> be_bytes 4 cmd -> in_range 32 cmd -> hint_ok hint ->
  wp (sbefifo_operation (Ptr mb 0) msg_len hint) (World h n (Sbe c d tr))
     (op_post c h h0 d tr req cmd hint).
Proof.
  intros Hok Ho Hm -> Hlen Hcmd Hrange Hhint.
  pose proof (reply_buflen_bounds _ Hhint) as Hbl. unfold SBEFIFO_MAX_FFDC_SIZE in Hbl.
  destruct Hhint as [Hh0 _].
  assert (Hm' := own_lookup _ _ _ _ _ Ho Hm).
  assert (Hnm : n <> mb) by (intros <-; rewrite heap_ok_fresh in Hm'; done).
  assert (Hfr := heap_ok_fresh _ _ Hok).
  assert (Hfr0 := heap_ok_fresh _ _ (own_heap_ok _ _ _ _ Ho Hok)).
  apply wp_bind, wp_assert; [done|]. apply wp_bind, wp_assert; [apply Z.ltb_lt; lia|].
  apply wp_bind, wp_get_sctx.
  destruct (negb (transport c) && (fd c =? -1)) eqn:Hconn.
  { apply wp_fail, op_post_same; try done. right. intros. unfold abs_operation. by rewrite Hconn. }
  apply wp_bind, wp_malloc; intros Hc; cbn [is_null].
  2: { apply wp_fail, op_post_same; try done; [eauto with cmem|].
       left. by eapply oom_intro. }
  apply wp_bind. eapply (wp_load_be32 mb); [by rewrite lookup_insert_ne|lia|lia|exact Hcmd|].
  rewrite be_val_be32, wrap_small by done.
  apply wp_bind, wp_attempt. eapply wp_mono.
  { apply do_transport_spec with (req := req) (mb := mb) (bb := n) (buf := replicate (Z.to_nat (reply_buflen hint)) None);
      rewrite ?lookup_insert_eq, ?lookup_insert_ne, ?length_replicate; try done; lia. }
  intros res w' (d' & tr' & ares & Habs & Hres). destruct ares as [rc|r].
  - destruct Hres as (-> & Hrc & ->). apply wp_bind. eapply wp_free; [apply lookup_insert_eq|].
    rewrite delete_insert_id by done. by eapply op_transport_failed; eauto with cmem.
  - destruct Hres as (-> & Hwf & pad & ->). rewrite insert_insert_eq.
    apply wp_bind, wp_attempt. eapply wp_mono.
    { eapply parse_output_spec with (h0 := <[n := (Some <$> r) ++ pad]> h0) (bb := n); try done.
      - eauto with cmem.
      - by apply own_insert.
      - apply lookup_insert_eq. }
    intros res w' (h' & n' & c' & ares & -> & Hok' & Hs & Hrep & Hview).
    destruct (res_rep_drop _ _ _ _ _ _ _ _ Hrep Hfr0) as (Hl & Hrep' & Hv).
    apply wp_bind. eapply wp_free; [exact Hl|]. apply wp_check.
    eexists _, _, _, _, _, ares. split_and!; [done|eauto with cmem|done|done|].
    destruct Hview as [|Hview]; [by left|right]. intros f Hf.
    destruct (Hview f) as (E1 & E2 & E3).
    { destruct Hf as [? Hf]. split; [done|]. destruct (ffdc c) as [|b]; [done|].
      rewrite lookup_insert_ne; [done|]. intros <-. congruence. }
    eexists. split; [by apply Hv|]. unfold abs_operation. rewrite Hconn, Habs.
    destruct (parse_reply cmd r) as [[x1 x2] x3]; simpl in *. by subst.
Qed.
End Operation.

(** ** Well-formed replies *)

(** The reply the SBE sends for [cmd]: data, header, status, FFDC, and the
    distance from the header to the end in words. *)
Definition frame_reply (cmd : Z) (data : list Z) (st : Z) (ff : list Z) : list Z :=
  data ++ be_bytes 4 (Z.lor 0xc0de0000 cmd) ++ be_bytes 4 st ++ ff
  ++ be_bytes 4 (3 + Z.of_nat (length ff) / 4).

Section Frame.
Context (cmd : Z) (data : list Z) (st : Z) (ff : list Z).
Hypothesis Hdata : Forall is_byte data.
Hypothesis Hff : Forall is_byte ff.
Hypothesis Hff4 : (4 | Z.of_nat (length ff)).
Hypothesis Hlen : Z.of_nat (length data) + Z.of_nat (length ff) + 12 < 2 ^ 32.
Hypothesis Hcmd : in_range 16 cmd.
Hypothesis Hst : in_range 32 st.

Lemma length_frame :
  length (frame_reply cmd data st ff) = (length data + length ff + 12)%nat.
Proof. unfold frame_reply. rewrite !length_app, !length_be_bytes. lia. Qed.

Lemma frame_offset_word : offset_word (frame_reply cmd data st ff) = 3 + Z.of_nat (length ff) / 4.
Proof.
  unfold offset_word. rewrite length_frame. unfold frame_reply. rewrite !app_assoc.
  rewrite drop_app_length' by (rewrite !length_app, !length_be_bytes; lia).
  rewrite be_val_be32. apply wrap_small.
  destruct Hff4 as [k Hk]. rewrite Hk, Z.div_mul by lia. solve_range.
Qed.

Lemma frame_bytes : Forall is_byte (frame_reply cmd data st ff).
Proof. unfold frame_reply. repeat apply Forall_app_2; auto using be_bytes_is_byte. Qed.

Lemma frame_wf : reply_wf (frame_reply cmd data st ff).
Proof.
  split; [apply frame_bytes|]. rewrite frame_offset_word, length_frame.
  destruct Hff4 as [k Hk]. rewrite Hk, Z.div_mul by lia. lia.
Qed.

Lemma frame_off : reply_off (frame_reply cmd data st ff) = length data.
Proof.
  pose proof (reply_off_Z _ frame_wf) as E. rewrite frame_offset_word, length_frame in E.
  destruct Hff4 as [k Hk]. rewrite Hk, Z.div_mul in E by lia. lia.
Qed.

Lemma frame_header :
  reply_word (frame_reply cmd data st ff) (length data) = Z.lor 0xc0de0000 cmd.
Proof.
  unfold reply_word, frame_reply. rewrite slice_app_r, Nat.sub_diag by lia.
  rewrite slice_app_l by (rewrite length_be_bytes; lia).
  unfold slice. rewrite drop_0, take_ge by (rewrite length_be_bytes; lia).
  rewrite be_val_be32. apply wrap_small.
  change 0xc0de0000 with (Z.shiftl 0xc0de 16). rewrite lor_shiftl_add by (lia || done). solve_range.
Qed.

Lemma frame_status : reply_word (frame_reply cmd data st ff) (length data + 4) = st.
Proof.
  unfold reply_word, frame_reply. rewrite app_assoc, slice_app_r
    by (rewrite length_app, length_be_bytes; lia).
  rewrite length_app, length_be_bytes, Nat.sub_diag.
  rewrite slice_app_l by (rewrite length_be_bytes; lia).
  unfold slice. rewrite drop_0, take_ge by (rewrite length_be_bytes; lia).
  rewrite be_val_be32. by apply wrap_small.
Qed.

Lemma frame_data : reply_data (frame_reply cmd data st ff) = data.
Proof. unfold reply_data. rewrite frame_off. apply take_app_length. Qed.

Lemma frame_ffdc : reply_ffdc (frame_reply cmd data st ff) = ff.
Proof.
  unfold reply_ffdc. rewrite frame_off, length_frame. unfold frame_reply.
  rewrite !app_assoc. rewrite <- (app_assoc _ ff).
  rewrite slice_app_r by (rewrite !length_app, !length_be_bytes; lia).
  rewrite !length_app, !length_be_bytes, slice_app_l by lia.
  unfold slice. replace (length data + 8 - (length data + 4 + 4))%nat with 0%nat by lia.
  rewrite drop_0, take_ge by lia. done.
Qed.

Lemma parse_frame :
  parse_reply cmd (frame_reply cmd data st ff) =
  if truthy st then (inl ESBEFIFO, st, ff)
  else (inr data, 0, if bool_decide (length data < length ff)%nat then ff else []).
Proof.
  rewrite parse_reply_long by (rewrite length_frame; lia).
  rewrite frame_off, frame_header, frame_status, frame_data, frame_ffdc, Z.eqb_refl. done.
Qed.
End Frame.
