(* ===== verification/SbeCmds.v ===== *)
(** * libsbefifo: the control, SCOM, instruction, generic, MPIPL and dump commands

    One definition per C function: the [_push] functions build the request, the
    [_pull] functions decode the reply, and the command runs the exchange.
    Models cmd_control.c, cmd_scom.c, cmd_instruction.c, cmd_generic.c,
    cmd_mpipl.c and cmd_dump.c. *)

From S2P Require Import Prelude CMem SbeCore.

Definition SBEFIFO_CMD_CLASS_CONTROL : Z := 0xA100.
Definition SBEFIFO_CMD_EXECUTE_ISTEP : Z := 0x01.
Definition SBEFIFO_CMD_SUSPEND_IO : Z := 0x02.
Definition SBEFIFO_CMD_CLASS_SCOM : Z := 0xA200.
Definition SBEFIFO_CMD_GET_SCOM : Z := 0x01.
Definition SBEFIFO_CMD_PUT_SCOM : Z := 0x02.
Definition SBEFIFO_CMD_MODIFY_SCOM : Z := 0x03.
Definition SBEFIFO_CMD_PUT_SCOM_MASK : Z := 0x04.
Definition SBEFIFO_CMD_CLASS_INSTRUCTION : Z := 0xA700.
Definition SBEFIFO_CMD_CONTROL_INSN : Z := 0x01.
Definition SBEFIFO_CMD_CLASS_GENERIC : Z := 0xA800.
Definition SBEFIFO_CMD_GET_FFDC : Z := 0x01.
Definition SBEFIFO_CMD_GET_CAPABILITY : Z := 0x02.
Definition SBEFIFO_CMD_QUIESCE : Z := 0x03.
Definition SBEFIFO_CMD_LPC_TIMEOUT : Z := 0x08.
Definition SBEFIFO_CMD_CLASS_MPIPL : Z := 0xA900.
Definition SBEFIFO_CMD_ENTER_MPIPL : Z := 0x01.
Definition SBEFIFO_CMD_CONTINUE_MPIPL : Z := 0x02.
Definition SBEFIFO_CMD_STOP_CLOCKS : Z := 0x03.
Definition SBEFIFO_CMD_GET_TI_INFO : Z := 0x04.
Definition SBEFIFO_CMD_CLASS_DUMP : Z := 0xAA00.
Definition SBEFIFO_CMD_GET_DUMP : Z := 0x01.

Section Cmds.
Context {D : Type} {K : Kernel D} {Al : Allocator}.

(** [msg[i] = htobe32(v)] *)
Definition put_word (msg : ptr) (i v : Z) : M (sbe D) unit :=
  store_be32 (ptr_add msg (4 * i)) v.

(** [if (out) free(out);] *)
Definition free_out (out : ptr) : M (sbe D) unit :=
  if negb (is_null out) then free out else mret tt.

(** Reply of two words as a 64-bit value. *)
Definition pull_u64 (buf : ptr) : M (sbe D) Z :=
  val1 ← load_be32 buf;
  val2 ← load_be32 (ptr_add buf 4);
  mret (Z.lor (u64 (Z.shiftl val1 32)) val2).

(** ** cmd_control.c *)

Definition sbefifo_istep_execute_push (major minor : Z) : M (sbe D) (ptr * Z) :=
  let nwords := 3 in
  let buflen := nwords * 4 in
  msg ← malloc buflen;
  if is_null msg then fail ENOMEM else
  let cmd := Z.lor SBEFIFO_CMD_CLASS_CONTROL SBEFIFO_CMD_EXECUTE_ISTEP in
  let step := Z.lor (u32 (Z.shiftl major 16)) minor in
  put_word msg 0 nwords;;
  put_word msg 1 cmd;;
  put_word msg 2 step;;
  mret (msg, buflen).

Definition sbefifo_istep_execute_pull (buf : ptr) (buflen : Z) : M (sbe D) unit :=
  if negb (buflen =? 0) then fail EPROTO else mret tt.

Definition sbefifo_istep_execute (major minor : Z) : M (sbe D) unit :=
  '(msg, msg_len) ← sbefifo_istep_execute_push major minor;
  r ← attempt sbefifo_set_long_timeout;
  match r with
  | inl rc => free msg;; fail rc
  | inr _ =>
      let out_len := 0 in
      r ← attempt (sbefifo_operation msg msg_len out_len);
      attempt sbefifo_reset_timeout;;
      free msg;;
      '(out, out_len) ← check r;
      r ← attempt (sbefifo_istep_execute_pull out out_len);
      free_out out;;
      check r
  end.

Definition sbefifo_suspend_io_push : M (sbe D) (ptr * Z) :=
  let nwords := 2 in
  let buflen := nwords * 4 in
  msg ← malloc buflen;
  if is_null msg then fail ENOMEM else
  let cmd := Z.lor SBEFIFO_CMD_CLASS_CONTROL SBEFIFO_CMD_SUSPEND_IO in
  put_word msg 0 nwords;;
  put_word msg 1 cmd;;
  mret (msg, buflen).

Definition sbefifo_suspend_io_pull (buf : ptr) (buflen : Z) : M (sbe D) unit :=
  if negb (buflen =? 0) then fail EPROTO else mret tt.

Definition sbefifo_suspend_io : M (sbe D) unit :=
  '(msg, msg_len) ← sbefifo_suspend_io_push;
  let out_len := 0 in
  r ← attempt (sbefifo_operation msg msg_len out_len);
  free msg;;
  '(out, out_len) ← check r;
  r ← attempt (sbefifo_suspend_io_pull out out_len);
  free_out out;;
  check r.

(** ** cmd_scom.c *)

Definition sbefifo_scom_get_push (addr : Z) : M (sbe D) (ptr * Z) :=
  let nwords := 4 in
  let buflen := nwords * 4 in
  msg ← malloc buflen;
  if is_null msg then fail ENOMEM else
  let cmd := Z.lor SBEFIFO_CMD_CLASS_SCOM SBEFIFO_CMD_GET_SCOM in
  put_word msg 0 nwords;;
  put_word msg 1 cmd;;
  put_word msg 2 (Z.shiftr addr 32);;
  put_word msg 3 (Z.land addr 0xffffffff);;
  mret (msg, buflen).

Definition sbefifo_scom_get_pull (buf : ptr) (buflen : Z) : M (sbe D) Z :=
  if negb (buflen =? 2 * 4) then fail EPROTO else pull_u64 buf.

Definition sbefifo_scom_get (addr : Z) : M (sbe D) Z :=
  '(msg, msg_len) ← sbefifo_scom_get_push addr;
  let out_len := 2 * 4 in
  r ← attempt (sbefifo_operation msg msg_len out_len);
  free msg;;
  '(out, out_len) ← check r;
  r ← attempt (sbefifo_scom_get_pull out out_len);
  free_out out;;
  check r.

Definition sbefifo_scom_put_push (addr value : Z) : M (sbe D) (ptr * Z) :=
  let nwords := 6 in
  let buflen := nwords * 4 in
  msg ← malloc buflen;
  if is_null msg then fail ENOMEM else
  let cmd := Z.lor SBEFIFO_CMD_CLASS_SCOM SBEFIFO_CMD_PUT_SCOM in
  put_word msg 0 nwords;;
  put_word msg 1 cmd;;
  put_word msg 2 (Z.shiftr addr 32);;
  put_word msg 3 (Z.land addr 0xffffffff);;
  put_word msg 4 (Z.shiftr value 32);;
  put_word msg 5 (Z.land value 0xffffffff);;
  mret (msg, buflen).

Definition sbefifo_scom_put_pull (buf : ptr) (buflen : Z) : M (sbe D) unit :=
  if negb (buflen =? 0) then fail EPROTO else mret tt.

Definition sbefifo_scom_put (addr value : Z) : M (sbe D) unit :=
  '(msg, msg_len) ← sbefifo_scom_put_push addr value;
  let out_len := 0 in
  r ← attempt (sbefifo_operation msg msg_len out_len);
  free msg;;
  '(out, out_len) ← check r;
  r ← attempt (sbefifo_scom_put_pull out out_len);
  free_out out;;
  check r.

Definition sbefifo_scom_modify_push (addr value operand : Z) : M (sbe D) (ptr * Z) :=
  let nwords := 7 in
  let buflen := nwords * 4 in
  msg ← malloc buflen;
  if is_null msg then fail ENOMEM else
  let cmd := Z.lor SBEFIFO_CMD_CLASS_SCOM SBEFIFO_CMD_MODIFY_SCOM in
  let oper := operand in
  put_word msg 0 nwords;;
  put_word msg 1 cmd;;
  put_word msg 2 oper;;
  put_word msg 3 (Z.shiftr addr 32);;
  put_word msg 4 (Z.land addr 0xffffffff);;
  put_word msg 5 (Z.shiftr value 32);;
  put_word msg 6 (Z.land value 0xffffffff);;
  mret (msg, buflen).

Definition sbefifo_scom_modify_pull (buf : ptr) (buflen : Z) : M (sbe D) unit :=
  if negb (buflen =? 0) then fail EPROTO else mret tt.

Definition sbefifo_scom_modify (addr value operand : Z) : M (sbe D) unit :=
  '(msg, msg_len) ← sbefifo_scom_modify_push addr value operand;
  let out_len := 0 in
  r ← attempt (sbefifo_operation msg msg_len out_len);
  free msg;;
  '(out, out_len) ← check r;
  r ← attempt (sbefifo_scom_modify_pull out out_len);
  free_out out;;
  check r.

Definition sbefifo_scom_put_mask_push (addr value mask : Z) : M (sbe D) (ptr * Z) :=
  let nwords := 8 in
  let buflen := nwords * 4 in
  msg ← malloc buflen;
  if is_null msg then fail ENOMEM else
  let cmd := Z.lor SBEFIFO_CMD_CLASS_SCOM SBEFIFO_CMD_PUT_SCOM_MASK in
  put_word msg 0 nwords;;
  put_word msg 1 cmd;;
  put_word msg 2 (Z.shiftr addr 32);;
  put_word msg 3 (Z.land addr 0xffffffff);;
  put_word msg 4 (Z.shiftr value 32);;
  put_word msg 5 (Z.land value 0xffffffff);;
  put_word msg 6 (Z.shiftr mask 32);;
  put_word msg 7 (Z.land mask 0xffffffff);;
  mret (msg, buflen).

Definition sbefifo_scom_put_mask_pull (buf : ptr) (buflen : Z) : M (sbe D) unit :=
  if negb (buflen =? 0) then fail EPROTO else mret tt.

Definition sbefifo_scom_put_mask (addr value mask : Z) : M (sbe D) unit :=
  '(msg, msg_len) ← sbefifo_scom_put_mask_push addr value mask;
  let out_len := 0 in
  r ← attempt (sbefifo_operation msg msg_len out_len);
  free msg;;
  '(out, out_len) ← check r;
  r ← attempt (sbefifo_scom_put_mask_pull out out_len);
  free_out out;;
  check r.

(** ** cmd_instruction.c *)

Definition sbefifo_control_insn_push (core_id thread_id thread_op mode : Z) : M (sbe D) (ptr * Z) :=
  let nwords := 3 in
  let buflen := nwords * 4 in
  msg ← malloc buflen;
  if is_null msg then fail ENOMEM else
  let cmd := Z.lor SBEFIFO_CMD_CLASS_INSTRUCTION SBEFIFO_CMD_CONTROL_INSN in
  let oper := Z.lor (Z.lor (Z.lor (Z.shiftl (Z.land mode 0xf) 16)
                (Z.shiftl (Z.land core_id 0xff) 8))
                (Z.shiftl (Z.land thread_id 0xf) 4))
                (Z.land thread_op 0xf) in
  put_word msg 0 nwords;;
  put_word msg 1 cmd;;
  put_word msg 2 oper;;
  mret (msg, buflen).

Definition sbefifo_control_insn_pull (buf : ptr) (buflen : Z) : M (sbe D) unit :=
  if negb (buflen =? 0) then fail EPROTO else mret tt.

Definition sbefifo_control_insn (core_id thread_id thread_op mode : Z) : M (sbe D) unit :=
  '(msg, msg_len) ← sbefifo_control_insn_push core_id thread_id thread_op mode;
  let out_len := 0 in
  r ← attempt (sbefifo_operation msg msg_len out_len);
  free msg;;
  '(out, out_len) ← check r;
  r ← attempt (sbefifo_control_insn_pull out out_len);
  free_out out;;
  check r.

(** ** cmd_generic.c *)

Definition sbefifo_get_ffdc_push : M (sbe D) (ptr * Z) :=
  let nwords := 2 in
  let buflen := nwords * 4 in
  msg ← malloc buflen;
  if is_null msg then fail ENOMEM else
  let cmd := Z.lor SBEFIFO_CMD_CLASS_GENERIC SBEFIFO_CMD_GET_FFDC in
  put_word msg 0 nwords;;
  put_word msg 1 cmd;;
  mret (msg, buflen).

Definition sbefifo_get_ffdc_pull (buf : ptr) (buflen : Z) : M (sbe D) unit :=
  if buflen <? 3 * 4 then fail EPROTO else mret tt.

Definition sbefifo_get_ffdc : M (sbe D) unit :=
  '(msg, msg_len) ← sbefifo_get_ffdc_push;
  let out_len := 0x8000 in
  r ← attempt (sbefifo_operation msg msg_len out_len);
  free msg;;
  '(out, out_len) ← check r;
  sbefifo_get_ffdc_pull out out_len;;
  let st := Z.lor SBEFIFO_PRI_UNKNOWN_ERROR SBEFIFO_SEC_GENERIC_FAILURE in
  sbefifo_ffdc_set st out out_len.

Definition sbefifo_get_capabilities_push : M (sbe D) (ptr * Z) :=
  let nwords := 2 in
  let buflen := nwords * 4 in
  msg ← malloc buflen;
  if is_null msg then fail ENOMEM else
  let cmd := Z.lor SBEFIFO_CMD_CLASS_GENERIC SBEFIFO_CMD_GET_CAPABILITY in
  put_word msg 0 nwords;;
  put_word msg 1 cmd;;
  mret (msg, buflen).

(** [for (i=0; i<20; i++) ( *caps)[i] = be32toh(...&buf[32+i*4])], with [k]
    iterations left; [caps] holds 32-bit words of the (little-endian) host. *)
Fixpoint caps_loop (k : nat) (i : Z) (buf caps : ptr) : M (sbe D) unit :=
  match k with
  | O => mret tt
  | S k' =>
      v ← load_be32 (ptr_add buf (32 + i * 4));
      store_bytes (ptr_add caps (4 * i)) (Some <$> rev (be_bytes 4 v));;
      caps_loop k' (i + 1) buf caps
  end.

(** Returns version, commit id, release tag, capabilities and their number. *)
Definition sbefifo_get_capabilities_pull (buf : ptr) (buflen : Z)
  : M (sbe D) (Z * ptr * ptr * ptr * Z) :=
  if negb (buflen =? 26 * 4) then fail EPROTO else
  version ← load_be32 buf;
  commit_id ← malloc 9;
  if is_null commit_id then fail ENOMEM else
  memcpy commit_id (ptr_add buf 4) 8;;
  store_bytes (ptr_add commit_id 8) [Some 0];;
  release_tag ← malloc 21;
  if is_null release_tag then fail ENOMEM else
  memcpy release_tag (ptr_add buf 12) 20;;
  store_bytes (ptr_add release_tag 20) [Some 0];;
  caps ← malloc (20 * 4);
  if is_null caps then fail ENOMEM else
  caps_loop 20 0 buf caps;;
  mret (version, commit_id, release_tag, caps, 20).

Definition sbefifo_get_capabilities : M (sbe D) (Z * ptr * ptr * ptr * Z) :=
  '(msg, msg_len) ← sbefifo_get_capabilities_push;
  let out_len := 27 * 4 in
  r ← attempt (sbefifo_operation msg msg_len out_len);
  free msg;;
  '(out, out_len) ← check r;
  r ← attempt (sbefifo_get_capabilities_pull out out_len);
  free_out out;;
  check r.

Definition sbefifo_quiesce_push : M (sbe D) (ptr * Z) :=
  let nwords := 2 in
  let buflen := nwords * 4 in
  msg ← malloc buflen;
  if is_null msg then fail ENOMEM else
  let cmd := Z.lor SBEFIFO_CMD_CLASS_GENERIC SBEFIFO_CMD_QUIESCE in
  put_word msg 0 nwords;;
  put_word msg 1 cmd;;
  mret (msg, buflen).

Definition sbefifo_quiesce_pull (buf : ptr) (buflen : Z) : M (sbe D) unit :=
  if negb (buflen =? 0) then fail EPROTO else mret tt.

Definition sbefifo_quiesce : M (sbe D) unit :=
  '(msg, msg_len) ← sbefifo_quiesce_push;
  r ← attempt sbefifo_set_long_timeout;
  match r with
  | inl rc => free msg;; fail rc
  | inr _ =>
      let out_len := 0 in
      r ← attempt (sbefifo_operation msg msg_len out_len);
      attempt sbefifo_reset_timeout;;
      free msg;;
      '(out, out_len) ← check r;
      r ← attempt (sbefifo_quiesce_pull out out_len);
      free_out out;;
      check r
  end.

Definition sbefifo_lpc_timeout_push : M (sbe D) (ptr * Z) :=
  let nwords := 2 in
  let buflen := nwords * 4 in
  msg ← malloc buflen;
  if is_null msg then fail ENOMEM else
  let cmd := Z.lor SBEFIFO_CMD_CLASS_GENERIC SBEFIFO_CMD_LPC_TIMEOUT in
  put_word msg 0 nwords;;
  put_word msg 1 cmd;;
  mret (msg, buflen).

Definition sbefifo_lpc_timeout_pull (buf : ptr) (buflen : Z) : M (sbe D) Z :=
  if negb (buflen =? 4) then fail EPROTO else load_be32 buf.

Definition sbefifo_lpc_timeout : M (sbe D) Z :=
  '(msg, msg_len) ← sbefifo_lpc_timeout_push;
  let out_len := 1 * 4 in
  r ← attempt (sbefifo_operation msg msg_len out_len);
  free msg;;
  '(out, out_len) ← check r;
  r ← attempt (sbefifo_lpc_timeout_pull out out_len);
  free_out out;;
  check r.

(** ** cmd_mpipl.c *)

Definition sbefifo_mpipl_enter_push : M (sbe D) (ptr * Z) :=
  let nwords := 2 in
  let buflen := nwords * 4 in
  msg ← malloc buflen;
  if is_null msg then fail ENOMEM else
  let cmd := Z.lor SBEFIFO_CMD_CLASS_MPIPL SBEFIFO_CMD_ENTER_MPIPL in
  put_word msg 0 nwords;;
  put_word msg 1 cmd;;
  mret (msg, buflen).

Definition sbefifo_mpipl_enter_pull (buf : ptr) (buflen : Z) : M (sbe D) unit :=
  if negb (buflen =? 0) then fail EPROTO else mret tt.

Definition sbefifo_mpipl_enter : M (sbe D) unit :=
  '(msg, msg_len) ← sbefifo_mpipl_enter_push;
  r ← attempt sbefifo_set_long_timeout;
  match r with
  | inl rc => free msg;; fail rc
  | inr _ =>
      let out_len := 0 in
      r ← attempt (sbefifo_operation msg msg_len out_len);
      attempt sbefifo_reset_timeout;;
      free msg;;
      '(out, out_len) ← check r;
      r ← attempt (sbefifo_mpipl_enter_pull out out_len);
      free_out out;;
      check r
  end.

Definition sbefifo_mpipl_continue_push : M (sbe D) (ptr * Z) :=
  let nwords := 2 in
  let buflen := nwords * 4 in
  msg ← malloc buflen;
  if is_null msg then fail ENOMEM else
  let cmd := Z.lor SBEFIFO_CMD_CLASS_MPIPL SBEFIFO_CMD_CONTINUE_MPIPL in
  put_word msg 0 nwords;;
  put_word msg 1 cmd;;
  mret (msg, buflen).

Definition sbefifo_mpipl_continue_pull (buf : ptr) (buflen : Z) : M (sbe D) unit :=
  if negb (buflen =? 0) then fail EPROTO else mret tt.

Definition sbefifo_mpipl_continue : M (sbe D) unit :=
  '(msg, msg_len) ← sbefifo_mpipl_continue_push;
  r ← attempt sbefifo_set_long_timeout;
  match r with
  | inl rc => free msg;; fail rc
  | inr _ =>
      let out_len := 0 in
      r ← attempt (sbefifo_operation msg msg_len out_len);
      attempt sbefifo_reset_timeout;;
      free msg;;
      '(out, out_len) ← check r;
      r ← attempt (sbefifo_mpipl_continue_pull out out_len);
      free_out out;;
      check r
  end.

Definition sbefifo_mpipl_stopclocks_push (target_type chiplet_id : Z) : M (sbe D) (ptr * Z) :=
  let nwords := 3 in
  let buflen := nwords * 4 in
  msg ← malloc buflen;
  if is_null msg then fail ENOMEM else
  let cmd := Z.lor SBEFIFO_CMD_CLASS_MPIPL SBEFIFO_CMD_STOP_CLOCKS in
  let target := Z.lor (u32 (Z.shiftl target_type 16)) chiplet_id in
  put_word msg 0 nwords;;
  put_word msg 1 cmd;;
  put_word msg 2 target;;
  mret (msg, buflen).

Definition sbefifo_mpipl_stopclocks_pull (buf : ptr) (buflen : Z) : M (sbe D) unit :=
  if negb (buflen =? 0) then fail EPROTO else mret tt.

Definition sbefifo_mpipl_stopclocks (target_type chiplet_id : Z) : M (sbe D) unit :=
  '(msg, msg_len) ← sbefifo_mpipl_stopclocks_push target_type chiplet_id;
  let out_len := 0 in
  r ← attempt (sbefifo_operation msg msg_len out_len);
  free msg;;
  '(out, out_len) ← check r;
  r ← attempt (sbefifo_mpipl_stopclocks_pull out out_len);
  free_out out;;
  check r.

Definition sbefifo_mpipl_get_ti_info_push : M (sbe D) (ptr * Z) :=
  let nwords := 2 in
  let buflen := nwords * 4 in
  msg ← malloc buflen;
  if is_null msg then fail ENOMEM else
  let cmd := Z.lor SBEFIFO_CMD_CLASS_MPIPL SBEFIFO_CMD_GET_TI_INFO in
  put_word msg 0 nwords;;
  put_word msg 1 cmd;;
  mret (msg, buflen).

Definition sbefifo_mpipl_get_ti_info_pull (buf : ptr) (buflen : Z) : M (sbe D) (ptr * Z) :=
  if buflen <? 4 then fail EPROTO else
  data_len ← load_be32 (ptr_add buf (buflen - 4));
  data ← malloc data_len;
  if is_null data then fail ENOMEM else
  memcpy data buf data_len;;
  mret (data, data_len).

Definition sbefifo_mpipl_get_ti_info : M (sbe D) (ptr * Z) :=
  '(msg, msg_len) ← sbefifo_mpipl_get_ti_info_push;
  r ← attempt sbefifo_set_long_timeout;
  match r with
  | inl rc => free msg;; fail rc
  | inr _ =>
      let out_len := 0 in
      r ← attempt (sbefifo_operation msg msg_len out_len);
      attempt sbefifo_reset_timeout;;
      free msg;;
      '(out, out_len) ← check r;
      r ← attempt (sbefifo_mpipl_get_ti_info_pull out out_len);
      free_out out;;
      check r
  end.

(** ** cmd_dump.c *)

Definition sbefifo_get_dump_push (type clock fa_collect : Z) : M (sbe D) (ptr * Z) :=
  let nwords := 3 in
  let buflen := nwords * 4 in
  msg ← malloc buflen;
  if is_null msg then fail ENOMEM else
  let cmd := Z.lor SBEFIFO_CMD_CLASS_DUMP SBEFIFO_CMD_GET_DUMP in
  let flags := Z.lor (Z.lor (Z.shiftl (Z.land fa_collect 0x1) 16)
                            (Z.shiftl (Z.land clock 0x3) 8))
                     (Z.land type 0xf) in
  put_word msg 0 nwords;;
  put_word msg 1 cmd;;
  put_word msg 2 flags;;
  mret (msg, buflen).

Definition sbefifo_get_dump_pull (buf : ptr) (buflen : Z) : M (sbe D) (ptr * Z) :=
  if 0 <? buflen then
    data ← malloc buflen;
    if is_null data then fail ENOMEM else
    memcpy data buf buflen;;
    mret (data, buflen)
  else mret (Null, 0).

Definition sbefifo_get_dump (type clock fa_collect : Z) : M (sbe D) (ptr * Z) :=
  '(msg, msg_len) ← sbefifo_get_dump_push type clock fa_collect;
  r ← attempt sbefifo_set_long_long_timeout;
  match r with
  | inl rc => free msg;; fail rc
  | inr _ =>
      let out_len := 80 * 1024 * 1024 in
      r ← attempt (sbefifo_operation msg msg_len out_len);
      attempt sbefifo_reset_timeout;;
      free msg;;
      '(out, out_len) ← check r;
      r ← attempt (sbefifo_get_dump_pull out out_len);
      free_out out;;
      check r
  end.
End Cmds.
