(* ===== verification/SbeDataCmds.v ===== *)
(** * libsbefifo: the ring, array, memory, SRAM and register commands

    Models cmd_ring.c, cmd_array.c, cmd_memory.c and cmd_register.c. Input
    arrays of the caller are given by their elements. *)

From S2P Require Import Prelude CMem SbeCore SbeCmds.

Definition SBEFIFO_CMD_CLASS_RING : Z := 0xA300.
Definition SBEFIFO_CMD_GET_RING : Z := 0x01.
Definition SBEFIFO_CMD_PUT_RING : Z := 0x02.
Definition SBEFIFO_CMD_PUT_RING_IMAGE : Z := 0x03.
Definition SBEFIFO_CMD_CLASS_MEMORY : Z := 0xA400.
Definition SBEFIFO_CMD_GET_MEMORY : Z := 0x01.
Definition SBEFIFO_CMD_PUT_MEMORY : Z := 0x02.
Definition SBEFIFO_CMD_GET_SRAM : Z := 0x03.
Definition SBEFIFO_CMD_PUT_SRAM : Z := 0x04.
Definition SBEFIFO_CMD_CLASS_REGISTER : Z := 0xA500.
Definition SBEFIFO_CMD_GET_REGISTER : Z := 0x01.
Definition SBEFIFO_CMD_PUT_REGISTER : Z := 0x02.
Definition SBEFIFO_CMD_GET_HW_REGISTER : Z := 0x03.
Definition SBEFIFO_CMD_PUT_HW_REGISTER : Z := 0x04.
Definition SBEFIFO_CMD_CLASS_ARRAY : Z := 0xA600.
Definition SBEFIFO_CMD_FAST_ARRAY : Z := 0x01.
Definition SBEFIFO_CMD_TRACE_ARRAY : Z := 0x02.

Definition SBEFIFO_MEMORY_FLAG_PROC : Z := 0x0001.
Definition SBEFIFO_MEMORY_FLAG_PBA : Z := 0x0002.
Definition SBEFIFO_MEMORY_FLAG_ECC_REQ : Z := 0x0008.
Definition SBEFIFO_MEMORY_FLAG_TAG_REQ : Z := 0x0010.

Definition UINT32_MAX : Z := 0xffffffff.

(** The access granularity the flags select. *)
Definition mem_align (flags : Z) : option Z :=
  if truthy (Z.land flags SBEFIFO_MEMORY_FLAG_PROC) then Some 8
  else if truthy (Z.land flags SBEFIFO_MEMORY_FLAG_PBA) then Some 128
  else None.

Section DataCmds.
Context {D : Type} {K : Kernel D} {Al : Allocator}.

(** ** cmd_ring.c *)

Definition sbefifo_ring_get_push (ring_addr ring_len_bits flags : Z) : M (sbe D) (ptr * Z) :=
  let nwords := 5 in
  let buflen := nwords * 4 in
  msg ← malloc buflen;
  if is_null msg then fail ENOMEM else
  let cmd := Z.lor SBEFIFO_CMD_CLASS_RING SBEFIFO_CMD_GET_RING in
  put_word msg 0 nwords;;
  put_word msg 1 cmd;;
  put_word msg 2 ring_addr;;
  put_word msg 3 ring_len_bits;;
  put_word msg 4 flags;;
  mret (msg, buflen).

Definition sbefifo_ring_get_pull (ring_len_bits : Z) (buf : ptr) (buflen : Z)
  : M (sbe D) (ptr * Z) :=
  if u32 (buflen * 8) <? ring_len_bits then fail EPROTO else
  ring_len ← load_be32 (ptr_add buf (u32 (buflen - 4)));
  ring_data ← malloc ring_len;
  if is_null ring_data then fail ENOMEM else
  memcpy ring_data buf ring_len;;
  mret (ring_data, ring_len).

Definition sbefifo_ring_get (ring_addr ring_len_bits flags : Z) : M (sbe D) (ptr * Z) :=
  '(msg, msg_len) ← sbefifo_ring_get_push ring_addr ring_len_bits flags;
  r ← attempt sbefifo_set_long_timeout;
  match r with
  | inl rc => free msg;; fail rc
  | inr _ =>
      (* multiples of 64 bits *)
      let out_len := u32 (ring_len_bits + 63) / 8 in
      r ← attempt (sbefifo_operation msg msg_len out_len);
      attempt sbefifo_reset_timeout;;
      free msg;;
      '(out, out_len) ← check r;
      r ← attempt (sbefifo_ring_get_pull ring_len_bits out out_len);
      free_out out;;
      check r
  end.

Definition sbefifo_ring_put_push (ring_mode : Z) (ring_data : list mval) (ring_data_len : Z)
  : M (sbe D) (ptr * Z) :=
  let nwords := u32 (3 + u32 (ring_data_len + 3) / 4) in
  let buflen := u32 (nwords * 4) in
  msg ← malloc buflen;
  if is_null msg then fail ENOMEM else
  let cmd := Z.lor SBEFIFO_CMD_CLASS_RING SBEFIFO_CMD_PUT_RING in
  put_word msg 0 nwords;;
  put_word msg 1 cmd;;
  put_word msg 2 ring_mode;;
  copy_in (ptr_add msg (4 * 3)) ring_data ring_data_len;;
  mret (msg, buflen).

Definition sbefifo_ring_put_pull (buf : ptr) (buflen : Z) : M (sbe D) unit :=
  if negb (buflen =? 0) then fail EPROTO else mret tt.

Definition sbefifo_ring_put (ring_mode : Z) (ring_data : list mval) (ring_data_len : Z)
  : M (sbe D) unit :=
  '(msg, msg_len) ← sbefifo_ring_put_push ring_mode ring_data ring_data_len;
  r ← attempt sbefifo_set_long_timeout;
  match r with
  | inl rc => free msg;; fail rc
  | inr _ =>
      let out_len := 0 in
      r ← attempt (sbefifo_operation msg msg_len out_len);
      attempt sbefifo_reset_timeout;;
      free msg;;
      '(out, out_len) ← check r;
      r ← attempt (sbefifo_ring_put_pull out out_len);
      free_out out;;
      check r
  end.

Definition sbefifo_ring_put_from_image_push (target chiplet_id ring_id ring_mode : Z)
  : M (sbe D) (ptr * Z) :=
  let nwords := 4 in
  let buflen := nwords * 4 in
  msg ← malloc buflen;
  if is_null msg then fail ENOMEM else
  let cmd := Z.lor SBEFIFO_CMD_CLASS_RING SBEFIFO_CMD_PUT_RING_IMAGE in
  let target_word := Z.lor (u32 (Z.shiftl target 16)) chiplet_id in
  let ring_word := Z.lor (u32 (Z.shiftl ring_id 16)) ring_mode in
  put_word msg 0 nwords;;
  put_word msg 1 cmd;;
  put_word msg 2 target_word;;
  put_word msg 3 ring_word;;
  mret (msg, buflen).

Definition sbefifo_ring_put_from_image_pull (buf : ptr) (buflen : Z) : M (sbe D) unit :=
  if negb (buflen =? 0) then fail EPROTO else mret tt.

(** The function frees [out] where the others free [msg]. After a failed
    exchange [out] has not been assigned, so the [free] is of an
    indeterminate pointer. *)
Definition sbefifo_ring_put_from_image (target chiplet_id ring_id ring_mode : Z)
  : M (sbe D) unit :=
  c ← get_sctx;
  if negb (proc c =? SBEFIFO_PROC_P9) then fail ENOSYS else
  '(msg, msg_len) ← sbefifo_ring_put_from_image_push target chiplet_id ring_id ring_mode;
  r ← attempt sbefifo_set_long_timeout;
  match r with
  | inl rc => free msg;; fail rc
  | inr _ =>
      let out_len := 0 in
      r ← attempt (sbefifo_operation msg msg_len out_len);
      attempt sbefifo_reset_timeout;;
      match r with
      | inl rc => crash Uninit
      | inr (out, out_len) =>
          free out;;
          r ← attempt (sbefifo_ring_put_from_image_pull out out_len);
          free_out out;;
          check r
      end
  end.

(** ** cmd_array.c *)

Definition sbefifo_control_fast_array_push (target_type chiplet_id mode clock_cycle : Z)
  : M (sbe D) (ptr * Z) :=
  let nwords := 5 in
  let buflen := nwords * 4 in
  msg ← malloc buflen;
  if is_null msg then fail ENOMEM else
  let cmd := Z.lor SBEFIFO_CMD_CLASS_ARRAY SBEFIFO_CMD_FAST_ARRAY in
  let target := Z.lor (Z.lor (u32 (Z.shiftl target_type 16)) (Z.shiftl chiplet_id 8))
                      (Z.land mode 0x3) in
  put_word msg 0 nwords;;
  put_word msg 1 cmd;;
  put_word msg 2 target;;
  put_word msg 3 (Z.shiftr clock_cycle 32);;
  put_word msg 4 (Z.land clock_cycle 0xffffffff);;
  mret (msg, buflen).

Definition sbefifo_control_fast_array_pull (buf : ptr) (buflen : Z) : M (sbe D) unit :=
  if negb (buflen =? 0) then fail EPROTO else mret tt.

Definition sbefifo_control_fast_array (target_type chiplet_id mode clock_cycle : Z)
  : M (sbe D) unit :=
  '(msg, msg_len) ← sbefifo_control_fast_array_push target_type chiplet_id mode clock_cycle;
  r ← attempt sbefifo_set_long_timeout;
  match r with
  | inl rc => free msg;; fail rc
  | inr _ =>
      let out_len := 0 in
      r ← attempt (sbefifo_operation msg msg_len out_len);
      attempt sbefifo_reset_timeout;;
      free msg;;
      '(out, out_len) ← check r;
      r ← attempt (sbefifo_control_fast_array_pull out out_len);
      free_out out;;
      check r
  end.

Definition sbefifo_control_trace_array_push (target_type chiplet_id array_id operation : Z)
  : M (sbe D) (ptr * Z) :=
  let nwords := 4 in
  let buflen := nwords * 4 in
  msg ← malloc buflen;
  if is_null msg then fail ENOMEM else
  let cmd := Z.lor SBEFIFO_CMD_CLASS_ARRAY SBEFIFO_CMD_TRACE_ARRAY in
  let target := Z.lor (u32 (Z.shiftl target_type 16)) chiplet_id in
  let oper := Z.lor (u32 (Z.shiftl array_id 16)) operation in
  put_word msg 0 nwords;;
  put_word msg 1 cmd;;
  put_word msg 2 target;;
  put_word msg 3 oper;;
  mret (msg, buflen).

Definition sbefifo_control_trace_array_pull (buf : ptr) (buflen : Z) : M (sbe D) (ptr * Z) :=
  if buflen <? 4 then fail EPROTO else
  words ← load_be32 (ptr_add buf (buflen - 4));
  let trace_data_len := u32 (4 * words) in
  if negb (buflen =? u32 (trace_data_len + 4)) then fail EPROTO else
  trace_data ← malloc trace_data_len;
  if is_null trace_data then fail ENOMEM else
  memcpy trace_data buf trace_data_len;;
  mret (trace_data, trace_data_len).

Definition sbefifo_control_trace_array (target_type chiplet_id array_id operation : Z)
  : M (sbe D) (ptr * Z) :=
  '(msg, msg_len) ← sbefifo_control_trace_array_push target_type chiplet_id array_id operation;
  r ← attempt sbefifo_set_long_timeout;
  match r with
  | inl rc => free msg;; fail rc
  | inr _ =>
      (* The size of returned data is just a guess *)
      let out_len := 16 * 4 in
      r ← attempt (sbefifo_operation msg msg_len out_len);
      attempt sbefifo_reset_timeout;;
      free msg;;
      '(out, out_len) ← check r;
      r ← attempt (sbefifo_control_trace_array_pull out out_len);
      free_out out;;
      check r
  end.

(** ** cmd_memory.c *)

(** [x & ~(uint64_t)(align-1)] *)
Definition align_down64 (align x : Z) : Z := Z.land x (u64 (Z.lnot (align - 1))).
(** [x & ~(uint32_t)(align-1)], the mask zero-extended to 64 bits *)
Definition align_down32 (align x : Z) : Z := Z.land x (u32 (Z.lnot (align - 1))).

Definition sbefifo_mem_get_push (addr size flags : Z) : M (sbe D) (ptr * Z) :=
  match mem_align flags with
  | None => fail EINVAL
  | Some align =>
      let start_addr := align_down64 align addr in
      let end_addr := align_down64 align (u64 (addr + size + (align - 1))) in
      if UINT32_MAX <? u64 (end_addr - start_addr) then fail EINVAL else
      let nwords := 6 in
      let buflen := nwords * 4 in
      msg ← malloc buflen;
      if is_null msg then fail ENOMEM else
      let len := u32 (end_addr - start_addr) in
      let cmd := Z.lor SBEFIFO_CMD_CLASS_MEMORY SBEFIFO_CMD_GET_MEMORY in
      put_word msg 0 nwords;;
      put_word msg 1 cmd;;
      put_word msg 2 flags;;
      put_word msg 3 (Z.shiftr start_addr 32);;
      put_word msg 4 (Z.land start_addr 0xffffffff);;
      put_word msg 5 len;;
      mret (msg, buflen)
  end.

(** [while (i < len)]: eight bytes at a time, skipping tag and ECC bytes. *)
Fixpoint mem_copy_loop (fuel : nat) (do_tag do_ecc : bool) (data buf : ptr) (i j len : Z)
  : M (sbe D) unit :=
  match fuel with
  | O => crash NoFuel
  | S fuel' =>
      if i <? len then
        memcpy (ptr_add data j) (ptr_add buf i) 8;;
        let i := u32 (i + 8) in
        let j := u32 (j + 8) in
        let i := if do_tag then u32 (i + 1) else i in
        let i := if do_ecc then u32 (i + 1) else i in
        mem_copy_loop fuel' do_tag do_ecc data buf i j len
      else mret tt
  end.

Definition sbefifo_mem_get_pull (addr size flags : Z) (buf : ptr) (buflen : Z)
  : M (sbe D) ptr :=
  if buflen <? 4 then fail EPROTO else
  len ← load_be32 (ptr_add buf (buflen - 4));
  data ← malloc len;
  if is_null data then fail ENOMEM else
  let do_ecc := truthy (Z.land flags SBEFIFO_MEMORY_FLAG_ECC_REQ) in
  let do_tag := truthy (Z.land flags SBEFIFO_MEMORY_FLAG_TAG_REQ) in
  match mem_align flags with
  | None => fail EINVAL
  | Some align =>
      mem_copy_loop (S (Z.to_nat len)) do_tag do_ecc data buf 0 0 len;;
      let start_addr := align_down64 align addr in
      let offset := u64 (addr - start_addr) in
      (if truthy offset then memcpy data (ptr_add data offset) size else mret tt);;
      mret data
  end.

(** The reply length [sbefifo_mem_get] expects, from the sixth request word. *)
Definition mem_get_out_len (flags : Z) (msg : ptr) : M (sbe D) Z :=
  len ← load_be32 (ptr_add msg 20);
  let extra_bytes := 0 in
  let extra_bytes :=
    if truthy (Z.land flags SBEFIFO_MEMORY_FLAG_ECC_REQ) then len / 8 else extra_bytes in
  let extra_bytes :=
    if truthy (Z.land flags SBEFIFO_MEMORY_FLAG_TAG_REQ) then len / 8 else extra_bytes in
  mret (u32 (len + extra_bytes + 4)).

Definition sbefifo_mem_get (addr size flags : Z) : M (sbe D) ptr :=
  '(msg, msg_len) ← sbefifo_mem_get_push addr size flags;
  r ← attempt sbefifo_set_long_timeout;
  match r with
  | inl rc => free msg;; fail rc
  | inr _ =>
      out_len ← mem_get_out_len flags msg;
      r ← attempt (sbefifo_operation msg msg_len out_len);
      attempt sbefifo_reset_timeout;;
      free msg;;
      '(out, out_len) ← check r;
      r ← attempt (sbefifo_mem_get_pull addr size flags out out_len);
      free_out out;;
      check r
  end.

Definition sbefifo_mem_put_push (addr : Z) (data : list mval) (data_len flags : Z)
  : M (sbe D) (ptr * Z) :=
  match mem_align flags with
  | None => fail EINVAL
  | Some align =>
      if truthy (Z.land addr (align - 1)) then fail EINVAL else
      if truthy (Z.land data_len (align - 1)) then fail EINVAL else
      let nwords := u32 (6 + data_len / 4) in
      let buflen := u32 (nwords * 4) in
      msg ← malloc buflen;
      if is_null msg then fail ENOMEM else
      let cmd := Z.lor SBEFIFO_CMD_CLASS_MEMORY SBEFIFO_CMD_PUT_MEMORY in
      put_word msg 0 nwords;;
      put_word msg 1 cmd;;
      put_word msg 2 flags;;
      put_word msg 3 (Z.shiftr addr 32);;
      put_word msg 4 (Z.land addr 0xffffffff);;
      put_word msg 5 data_len;;
      copy_in (ptr_add msg (4 * 6)) data data_len;;
      mret (msg, buflen)
  end.

Definition sbefifo_mem_put_pull (buf : ptr) (buflen : Z) : M (sbe D) unit :=
  if negb (buflen =? 4) then fail EPROTO else mret tt.

Definition sbefifo_mem_put (addr : Z) (data : list mval) (data_len flags : Z) : M (sbe D) unit :=
  '(msg, msg_len) ← sbefifo_mem_put_push addr data data_len flags;
  r ← attempt sbefifo_set_long_timeout;
  match r with
  | inl rc => free msg;; fail rc
  | inr _ =>
      let out_len := 1 * 4 in
      r ← attempt (sbefifo_operation msg msg_len out_len);
      attempt sbefifo_reset_timeout;;
      free msg;;
      '(out, out_len) ← check r;
      r ← attempt (sbefifo_mem_put_pull out out_len);
      free_out out;;
      check r
  end.

Definition sbefifo_sram_get_push (chiplet_id addr size mode : Z) : M (sbe D) (ptr * Z) :=
  let align := 8 in
  let start_addr := align_down32 align addr in
  let end_addr := align_down32 align (u64 (addr + size + (align - 1))) in
  if end_addr <? start_addr then fail EINVAL else
  let nwords := 6 in
  let buflen := nwords * 4 in
  msg ← malloc buflen;
  if is_null msg then fail ENOMEM else
  let len := u32 ((end_addr - start_addr) / 8) in
  let cmd := Z.lor SBEFIFO_CMD_CLASS_MEMORY SBEFIFO_CMD_GET_SRAM in
  let flags := Z.lor (u32 (Z.shiftl chiplet_id 16)) mode in
  put_word msg 0 nwords;;
  put_word msg 1 cmd;;
  put_word msg 2 flags;;
  put_word msg 3 (Z.shiftr start_addr 32);;
  put_word msg 4 (Z.land start_addr 0xffffffff);;
  put_word msg 5 len;;
  mret (msg, buflen).

(** Returns the data pointer and the length word of the reply. *)
Definition sbefifo_sram_get_pull (addr size : Z) (buf : ptr) (buflen : Z)
  : M (sbe D) (ptr * Z) :=
  if buflen <? 4 then fail EPROTO else
  data_len ← load_be32 (ptr_add buf (buflen - 4));
  if data_len <? size then fail EPROTO else
  data ← malloc size;
  if is_null data then fail ENOMEM else
  let align := 8 in
  let start_addr := align_down32 align addr in
  let offset := u32 (addr - start_addr) in
  memcpy data (ptr_add buf offset) size;;
  mret (data, data_len).

Definition sram_get_out_len (msg : ptr) : M (sbe D) Z :=
  len ← load_be32 (ptr_add msg 20);
  mret (u32 (len + 4)).

Definition sbefifo_sram_get (chiplet_id addr size mode : Z) : M (sbe D) (ptr * Z) :=
  c ← get_sctx;
  if proc c =? SBEFIFO_PROC_P9 then fail ENOSYS else
  '(msg, msg_len) ← sbefifo_sram_get_push chiplet_id addr size mode;
  r ← attempt sbefifo_set_long_timeout;
  match r with
  | inl rc => free msg;; fail rc
  | inr _ =>
      out_len ← sram_get_out_len msg;
      r ← attempt (sbefifo_operation msg msg_len out_len);
      attempt sbefifo_reset_timeout;;
      free msg;;
      '(out, out_len) ← check r;
      r ← attempt (sbefifo_sram_get_pull addr size out out_len);
      free_out out;;
      check r
  end.

Definition sbefifo_sram_put_push (chiplet_id addr : Z) (data : list mval) (data_len : Z)
  (multicast : bool) (mode : Z) : M (sbe D) (ptr * Z) :=
  let align := 8 in
  if truthy (Z.land addr (align - 1)) then fail EINVAL else
  if truthy (Z.land data_len (align - 1)) then fail EINVAL else
  let nwords := u32 (6 + data_len / 4) in
  let buflen := u32 (nwords * 4) in
  msg ← malloc buflen;
  if is_null msg then fail ENOMEM else
  let multicast_bit := if multicast then 0x80 else 0x00 in
  let cmd := Z.lor SBEFIFO_CMD_CLASS_MEMORY SBEFIFO_CMD_PUT_SRAM in
  let flags := Z.lor (Z.lor (u32 (Z.shiftl chiplet_id 16)) (Z.shiftl multicast_bit 8)) mode in
  let len := data_len / 8 in
  put_word msg 0 nwords;;
  put_word msg 1 cmd;;
  put_word msg 2 flags;;
  put_word msg 3 (Z.shiftr addr 32);;
  put_word msg 4 (Z.land addr 0xffffffff);;
  put_word msg 5 len;;
  copy_in (ptr_add msg (4 * 5)) data data_len;;
  mret (msg, buflen).

Definition sbefifo_sram_put_pull (buf : ptr) (buflen : Z) : M (sbe D) unit :=
  if negb (buflen =? 4) then fail EPROTO else mret tt.

Definition sbefifo_sram_put (chiplet_id addr : Z) (data : list mval) (data_len : Z)
  (multicast : bool) (mode : Z) : M (sbe D) unit :=
  c ← get_sctx;
  if proc c =? SBEFIFO_PROC_P9 then fail ENOSYS else
  '(msg, msg_len) ← sbefifo_sram_put_push chiplet_id addr data data_len multicast mode;
  r ← attempt sbefifo_set_long_timeout;
  match r with
  | inl rc => free msg;; fail rc
  | inr _ =>
      let out_len := 4 in
      r ← attempt (sbefifo_operation msg msg_len out_len);
      attempt sbefifo_reset_timeout;;
      free msg;;
      '(out, out_len) ← check r;
      r ← attempt (sbefifo_sram_put_pull out out_len);
      free_out out;;
      check r
  end.

(** ** cmd_register.c *)

Definition register_word (core_id thread_id reg_type reg_count : Z) : Z :=
  Z.lor (Z.lor (Z.lor (Z.shiftl (Z.land core_id 0xff) 16)
    (Z.shiftl (Z.land thread_id 0x3) 12))
    (Z.shiftl (Z.land reg_type 0x3) 8))
    (Z.land reg_count 0xff).

(** [for (i=0; i<reg_count; i++) msg[3+i] = htobe32(reg_id[i]);] with [k]
    iterations left *)
Fixpoint put_reg_ids (k : nat) (i : Z) (msg : ptr) (reg_id : list Z) : M (sbe D) unit :=
  match k with
  | O => mret tt
  | S k' =>
      id ← array_get reg_id i;
      put_word msg (3 + i) id;;
      put_reg_ids k' (i + 1) msg reg_id
  end.

Definition sbefifo_register_get_push (core_id thread_id reg_type : Z) (reg_id : list Z)
  (reg_count : Z) : M (sbe D) (ptr * Z) :=
  if (reg_count =? 0) || (64 <? reg_count) then fail EINVAL else
  let nwords := 3 + reg_count in
  let buflen := nwords * 4 in
  msg ← malloc buflen;
  if is_null msg then fail ENOMEM else
  let cmd := Z.lor SBEFIFO_CMD_CLASS_REGISTER SBEFIFO_CMD_GET_REGISTER in
  let r := register_word core_id thread_id reg_type reg_count in
  put_word msg 0 nwords;;
  put_word msg 1 cmd;;
  put_word msg 2 r;;
  put_reg_ids (Z.to_nat reg_count) 0 msg reg_id;;
  mret (msg, buflen).

(** The loop of [sbefifo_register_get_pull]; [value] holds 64-bit words of
    the (little-endian) host. *)
Fixpoint pull_regs (k : nat) (i : Z) (buf value : ptr) : M (sbe D) unit :=
  match k with
  | O => mret tt
  | S k' =>
      val1 ← load_be32 (ptr_add buf (4 * (i * 2)));
      val2 ← load_be32 (ptr_add buf (4 * (i * 2 + 1)));
      let v := Z.lor (u64 (Z.shiftl val1 32)) val2 in
      store_bytes (ptr_add value (8 * i)) (Some <$> rev (be_bytes 8 v));;
      pull_regs k' (i + 1) buf value
  end.

Definition sbefifo_register_get_pull (reg_count : Z) (buf : ptr) (buflen : Z)
  : M (sbe D) ptr :=
  if negb (buflen =? reg_count * 8) then fail EPROTO else
  value ← malloc (reg_count * 8);
  if is_null value then fail ENOMEM else
  pull_regs (Z.to_nat reg_count) 0 buf value;;
  mret value.

(** [msg] is not freed when the timeout cannot be set, and the timeout is
    not reset when the exchange fails. *)
Definition sbefifo_register_get (core_id thread_id reg_type : Z) (reg_id : list Z)
  (reg_count : Z) : M (sbe D) ptr :=
  '(msg, msg_len) ← sbefifo_register_get_push core_id thread_id reg_type reg_id reg_count;
  sbefifo_set_long_timeout;;
  let out_len := reg_count * 8 in
  r ← attempt (sbefifo_operation msg msg_len out_len);
  free msg;;
  '(out, out_len) ← check r;
  attempt sbefifo_reset_timeout;;
  r ← attempt (sbefifo_register_get_pull reg_count out out_len);
  free_out out;;
  check r.

Fixpoint put_regs (k : nat) (i : Z) (msg : ptr) (reg_id value : list Z) : M (sbe D) unit :=
  match k with
  | O => mret tt
  | S k' =>
      id ← array_get reg_id i;
      put_word msg (3 + i * 3) id;;
      v ← array_get value i;
      put_word msg (3 + i * 3 + 1) (Z.shiftr v 32);;
      put_word msg (3 + i * 3 + 2) (Z.land v 0xffffffff);;
      put_regs k' (i + 1) msg reg_id value
  end.

Definition sbefifo_register_put_push (core_id thread_id reg_type : Z) (reg_id : list Z)
  (reg_count : Z) (value : list Z) : M (sbe D) (ptr * Z) :=
  if (reg_count =? 0) || (64 <? reg_count) then fail EINVAL else
  let nwords := 3 + 3 * reg_count in
  let buflen := nwords * 4 in
  msg ← malloc buflen;
  if is_null msg then fail ENOMEM else
  let cmd := Z.lor SBEFIFO_CMD_CLASS_REGISTER SBEFIFO_CMD_PUT_REGISTER in
  let r := register_word core_id thread_id reg_type reg_count in
  put_word msg 0 nwords;;
  put_word msg 1 cmd;;
  put_word msg 2 r;;
  put_regs (Z.to_nat reg_count) 0 msg reg_id value;;
  mret (msg, buflen).

Definition sbefifo_register_put_pull (buf : ptr) (buflen : Z) : M (sbe D) unit :=
  if negb (buflen =? 0) then fail EPROTO else mret tt.

Definition sbefifo_register_put (core_id thread_id reg_type : Z) (reg_id : list Z)
  (reg_count : Z) (value : list Z) : M (sbe D) unit :=
  '(msg, msg_len) ← sbefifo_register_put_push core_id thread_id reg_type reg_id reg_count value;
  sbefifo_set_long_timeout;;
  let out_len := 0 in
  r ← attempt (sbefifo_operation msg msg_len out_len);
  free msg;;
  '(out, out_len) ← check r;
  attempt sbefifo_reset_timeout;;
  r ← attempt (sbefifo_register_put_pull out out_len);
  free_out out;;
  check r.

Definition sbefifo_hw_register_get_push (target_type instance_id reg_id : Z)
  : M (sbe D) (ptr * Z) :=
  let nwords := 5 in
  let buflen := nwords * 4 in
  msg ← malloc buflen;
  if is_null msg then fail ENOMEM else
  let cmd := Z.lor SBEFIFO_CMD_CLASS_REGISTER SBEFIFO_CMD_GET_HW_REGISTER in
  let target := Z.lor (Z.shiftl (Z.land target_type 0xff) 16) (Z.land instance_id 0xff) in
  put_word msg 0 nwords;;
  put_word msg 1 cmd;;
  put_word msg 2 target;;
  put_word msg 3 (Z.shiftr reg_id 32);;
  put_word msg 4 (Z.land reg_id 0xffffffff);;
  mret (msg, buflen).

Definition sbefifo_hw_register_get_pull (buf : ptr) (buflen : Z) : M (sbe D) Z :=
  if negb (buflen =? 8) then fail EPROTO else pull_u64 buf.

Definition sbefifo_hw_register_get (target_type instance_id reg_id : Z) : M (sbe D) Z :=
  c ← get_sctx;
  if proc c =? SBEFIFO_PROC_P9 then fail ENOSYS else
  '(msg, msg_len) ← sbefifo_hw_register_get_push target_type instance_id reg_id;
  let out_len := 8 in
  r ← attempt (sbefifo_operation msg msg_len out_len);
  free msg;;
  '(out, out_len) ← check r;
  r ← attempt (sbefifo_hw_register_get_pull out out_len);
  free_out out;;
  check r.

Definition sbefifo_hw_register_put_push (target_type instance_id reg_id value : Z)
  : M (sbe D) (ptr * Z) :=
  let nwords := 7 in
  let buflen := nwords * 4 in
  msg ← malloc buflen;
  if is_null msg then fail ENOMEM else
  let cmd := Z.lor SBEFIFO_CMD_CLASS_REGISTER SBEFIFO_CMD_PUT_HW_REGISTER in
  let target := Z.lor (Z.shiftl (Z.land target_type 0xff) 16) (Z.land instance_id 0xff) in
  put_word msg 0 nwords;;
  put_word msg 1 cmd;;
  put_word msg 2 target;;
  put_word msg 3 (Z.shiftr reg_id 32);;
  put_word msg 4 (Z.land reg_id 0xffffffff);;
  put_word msg 5 (Z.shiftr value 32);;
  put_word msg 6 (Z.land value 0xffffffff);;
  mret (msg, buflen).

Definition sbefifo_hw_register_put_pull (buf : ptr) (buflen : Z) : M (sbe D) unit :=
  if negb (buflen =? 0) then fail EPROTO else mret tt.

Definition sbefifo_hw_register_put (target_type instance_id reg_id value : Z) : M (sbe D) unit :=
  c ← get_sctx;
  if proc c =? SBEFIFO_PROC_P9 then fail ENOSYS else
  '(msg, msg_len) ← sbefifo_hw_register_put_push target_type instance_id reg_id value;
  let out_len := 0 in
  r ← attempt (sbefifo_operation msg msg_len out_len);
  free msg;;
  '(out, out_len) ← check r;
  r ← attempt (sbefifo_hw_register_put_pull out out_len);
  free_out out;;
  check r.
End DataCmds.
