(* ===== verification/SbeCmdFacts.v ===== *)
(** * libsbefifo: the shape shared by the commands

    [short_cmd] and [long_cmd] are the two sequences of calls the commands are
    made of. A command is described by the request its [_push] function builds
    ([pushes]), and by what its [_pull] function makes of the reply ([pulls]).
    [short_cmd_spec] and [long_cmd_spec] then say what the command does. *)

From S2P Require Import Prelude CMem SbeCore SbeCoreFacts SbeCmds.

(** The bytes of a request made of the words [ws]. *)
Definition msg_bytes (ws : list Z) : list mval := Some <$> concat (be_bytes 4 <$> ws).

Lemma length_msg_bytes ws : length (msg_bytes ws) = (4 * length ws)%nat.
Proof.
  unfold msg_bytes. rewrite length_fmap. induction ws as [|w ws IH]; [done|].
  rewrite fmap_cons. cbn [concat]. rewrite length_app, length_be_bytes, IH. simpl. lia.
Qed.

Lemma msg_bytes_cons w ws : msg_bytes (w :: ws) = (Some <$> be_bytes 4 w) ++ msg_bytes ws.
Proof. unfold msg_bytes. rewrite fmap_cons. cbn [concat]. by rewrite fmap_app. Qed.

Lemma msg_bytes_app ws vs : msg_bytes (ws ++ vs) = msg_bytes ws ++ msg_bytes vs.
Proof. unfold msg_bytes. by rewrite fmap_app, concat_app, fmap_app. Qed.

(** ** Heap fragments *)

Lemma own_union c h h0 (x : gmap nat (list mval)) :
  own c h h0 -> x ##ₘ h -> own c (x ∪ h) (x ∪ h0).
Proof.
  unfold own. destruct (ffdc c) as [|b o]; [by intros ->|].
  intros (-> & Hb & l & ->) Hx. apply map_disjoint_insert_r in Hx as [Hxb Hx].
  split_and!; [done| |exists l].
  - apply lookup_union_None. done.
  - rewrite insert_union_r by done. done.
Qed.

Lemma own_disjoint c h h0 (x : gmap nat (list mval)) : own c h h0 -> x ##ₘ h -> x ##ₘ h0.
Proof.
  unfold own. destruct (ffdc c) as [|b o]; [by intros ->|].
  intros (-> & Hb & l & ->) Hx. by apply map_disjoint_insert_r in Hx as [_ ?].
Qed.

Lemma ffdc_view_union c h (x : gmap nat (list mval)) f :
  x ##ₘ h -> ffdc_view c h f -> ffdc_view c (x ∪ h) f.
Proof.
  intros Hx [Hl Hf]. split; [done|]. destruct (ffdc c); [done|].
  by apply lookup_union_Some_r.
Qed.

(** [o], [len] refer to the reply [data] in heap [h]. *)
Definition points {DO : DataOk} (h : gmap nat (list mval)) (o : ptr) (len : Z) (data : list Z) : Prop :=
  data_wf data /\ len = Z.of_nat (length data) /\
  match o with
  | Null => data = []
  | Ptr b off => off = 0 /\ h !! b = Some (Some <$> data)
  end.

Section Shapes.
Context {D : Type} {K : Kernel D} {DO : DataOk} {KO : KernelOk D} {Al : Allocator}.
Implicit Types (h : gmap nat (list mval)) (c : sbefifo_context) (d : D).

Definition short_cmd {A} (push : M (sbe D) (ptr * Z)) (hint : Z)
  (pull : ptr -> Z -> M (sbe D) A) : M (sbe D) A :=
  '(msg, msg_len) ← push;
  r ← attempt (sbefifo_operation msg msg_len hint);
  free msg;;
  '(out, out_len) ← check r;
  r ← attempt (pull out out_len);
  free_out out;;
  check r.

Definition long_cmd {A} (t : Z) (push : M (sbe D) (ptr * Z)) (get_hint : ptr -> M (sbe D) Z)
  (pull : ptr -> Z -> M (sbe D) A) : M (sbe D) A :=
  '(msg, msg_len) ← push;
  r ← attempt (timeout_ioctl t);
  match r with
  | inl rc => free msg;; fail rc
  | inr _ =>
      out_len ← get_hint msg;
      r ← attempt (sbefifo_operation msg msg_len out_len);
      attempt sbefifo_reset_timeout;;
      free msg;;
      '(out, out_len) ← check r;
      r ← attempt (pull out out_len);
      free_out out;;
      check r
  end.

(** The register commands: the request is not freed when the timeout cannot be
    set, and the timeout is reset only after a successful exchange. *)
Definition reg_cmd {A} (push : M (sbe D) (ptr * Z)) (hint : Z)
  (pull : ptr -> Z -> M (sbe D) A) : M (sbe D) A :=
  '(msg, msg_len) ← push;
  timeout_ioctl 30;;
  r ← attempt (sbefifo_operation msg msg_len hint);
  free msg;;
  '(out, out_len) ← check r;
  attempt sbefifo_reset_timeout;;
  r ← attempt (pull out out_len);
  free_out out;;
  check r.

(** [push] allocates one block and fills it with the request [req]. *)
Definition pushes (push : M (sbe D) (ptr * Z)) (req : list mval) : Prop :=
  forall h n s Q, heap_ok h n ->
    Q (inr (Ptr n 0, Z.of_nat (length req))) (World (<[n := req]> h) (S n) s) ->
    (oom -> Q (inl ENOMEM) (World h (S n) s)) ->
    wp push (World h n s) Q.

(** [pull] decodes the reply data with [dec]. It leaves the heap as it is but
    for a fragment [x] that represents the result, as told by [rep]. *)
Definition pulls {A B} (pull : ptr -> Z -> M (sbe D) A) (dec : list Z -> Z + B)
  (rep : A -> B -> gmap nat (list mval) -> Prop) : Prop :=
  forall h n s o len data Q, heap_ok h n -> points h o len data ->
    (forall rc, dec data = inl rc -> rc <> 0 -> Q (inl rc) (World h n s)) ->
    (forall a b x n', dec data = inr b -> rep a b x -> x ##ₘ h -> heap_ok (x ∪ h) n' ->
       Q (inr a) (World (x ∪ h) n' s)) ->
    (oom -> Q (inl ENOMEM) (World h (S n) s)) ->
    wp (pull o len) (World h n s) Q.

(** The result of a command: [rep] for the value it hands over. *)
Definition cmd_rep {A B} (rep : A -> B -> gmap nat (list mval) -> Prop) c c' h' h0
  (res : Z + A) (ares : Z + B) : Prop :=
  match res, ares with
  | inl rc, inl rc' => rc = rc' /\ rc <> 0 /\ exists hf, own c' h' hf /\ after_rc rc c h0 hf
  | inr a, inr b => exists x, rep a b x /\ x ##ₘ h0 /\ own c' h' (x ∪ h0)
  | _, _ => False
  end.

(** What a command guarantees: no crash, memory as it was but for the result
    and the FFDC block of the context, and, when no allocation fails, the
    result and the state given by the memory-free description [abs]. *)
Definition cmd_post {A B} (rep : A -> B -> gmap nat (list mval) -> Prop)
  (abs : aview D -> (Z + B) * aview D) c h h0 d tr (res : Z + A) (w' : world (sbe D)) : Prop :=
  exists h' n' c' d' tr' ares, w' = World h' n' (Sbe c' d' tr') /\
    heap_ok h' n' /\ same_ctx c c' /\ cmd_rep rep c c' h' h0 res ares /\
    (oom \/ forall f, ffdc_view c h f -> exists f', ffdc_view c' h' f' /\
      abs (AView d tr (status c) f) = (ares, AView d' tr' (status c') f')).

(** ** The commands without memory *)

Definition abs_dec {B} (dec : list Z -> Z + B) (r : (Z + list Z) * aview D) : (Z + B) * aview D :=
  match r with
  | (inl rc, a) => (inl rc, a)
  | (inr data, a) => (dec data, a)
  end.

Definition abs_short {B} c req cmd hint (dec : list Z -> Z + B) (a : aview D) : (Z + B) * aview D :=
  abs_dec dec (abs_operation c a req cmd hint).

(** The timeout ioctl: return code and new state. *)
Definition abs_ioctl c (t : Z) (a : aview D) : Z * aview D :=
  let '(d, r) := sys_ioctl (a_dev a) (fd c) t in
  (match r with inl errno => if errno =? ENOTTY then 0 else -1 | inr rc => rc end,
   AView d (a_trace a ++ [EvIoctl t]) (a_status a) (a_ffdc a)).

Definition abs_long {B} c t req cmd hint (dec : list Z -> Z + B) (a : aview D)
  : (Z + B) * aview D :=
  let '(rc, a1) := abs_ioctl c t a in
  if truthy rc then (inl rc, a1) else
  let '(r, a2) := abs_operation c a1 req cmd hint in
  let '(_, a3) := abs_ioctl c 0 a2 in
  abs_dec dec (r, a3).

Definition abs_reg {B} c req cmd hint (dec : list Z -> Z + B) (a : aview D)
  : (Z + B) * aview D :=
  let '(rc, a1) := abs_ioctl c 30 a in
  if truthy rc then (inl rc, a1) else
  match abs_operation c a1 req cmd hint with
  | (inl rc, a2) => (inl rc, a2)
  | (inr data, a2) => (dec data, (abs_ioctl c 0 a2).2)
  end.

(** ** Proofs *)

Lemma wp_timeout_ioctl h n c d tr t Q :
  (forall rc d',
     (forall st f, abs_ioctl c t (AView d tr st f) = (rc, AView d' (tr ++ [EvIoctl t]) st f)) ->
     Q (if truthy rc then inl rc else inr tt) (World h n (Sbe c d' (tr ++ [EvIoctl t])))) ->
  wp (timeout_ioctl t) (World h n (Sbe c d tr)) Q.
Proof.
  intros HQ. apply wp_bind, wp_get_sctx, wp_bind, wp_env_call. intros d' r E.
  set (rc := match r with inl errno => if errno =? ENOTTY then 0 else -1 | inr rc => rc end).
  specialize (HQ rc d'). cbv zeta. fold rc. unfold abs_ioctl in HQ. simpl in HQ. rewrite E in HQ.
  destruct (truthy rc); [apply wp_fail|apply wp_ret]; apply HQ; done.
Qed.

Lemma out_rep_points c h' h1 h0 o len data :
  own c h' h1 -> out_rep h1 h0 o len data -> points h' o len data.
Proof.
  intros Ho (Hby & Hlen & Hr). split; [done|split; [done|]].
  destruct Hr as [(-> & -> & _)|(b & _ & -> & _ & ->)]; [done|]. split; [done|].
  eapply own_lookup; [done|apply lookup_insert_eq].
Qed.

(** [if (out) free(out)] once the result fragment [x] has been built. *)
Lemma wp_free_out c' h' h1 h0 x o len data m (s : sbe D) Q :
  own c' h' h1 -> out_rep h1 h0 o len data -> x ##ₘ h' -> heap_ok (x ∪ h') m ->
  (forall h2, own c' h2 (x ∪ h0) -> x ##ₘ h0 -> heap_ok h2 m ->
     (forall f, ffdc_view c' h' f -> ffdc_view c' h2 f) -> Q (inr tt) (World h2 m s)) ->
  wp (free_out o) (World (x ∪ h') m s) Q.
Proof.
  intros Ho (_ & _ & Hr) Hx Hok HQ. unfold free_out.
  destruct Hr as [(-> & -> & ->)|(b & _ & -> & Hb & ->)]; simpl.
  - apply wp_ret, HQ; eauto using own_union, own_disjoint, ffdc_view_union.
  - destruct (own_drop_view _ _ _ _ _ Ho Hb) as (Hl & Ho' & Hv).
    assert (Hxb : x !! b = None) by (by eapply map_disjoint_Some_r).
    eapply wp_free; [by apply lookup_union_Some_r|].
    rewrite delete_union, (delete_id x) by done.
    assert (Hx' : x ##ₘ delete b h') by (by apply map_disjoint_delete_r).
    apply HQ; eauto using own_union, own_disjoint, ffdc_view_union.
    rewrite <- (delete_id x b Hxb), <- delete_union. eauto with cmem.
Qed.

(** The end of a command, once [pull] has returned [res] and left the
    fragment [x]: the reply is freed and the result returned. *)
Lemma cmd_end {A B} (dec : list Z -> Z + B) (rep : A -> B -> gmap nat (list mval) -> Prop)
    (op : aview D -> (Z + list Z) * aview D) c h h0 d tr h' h1 c' d' tr' o len data x m
    (res : Z + A) :
  same_ctx c c' -> own c' h' h1 -> out_rep h1 h0 o len data ->
  (oom \/ forall f, ffdc_view c h f -> exists f', ffdc_view c' h' f' /\
      op (AView d tr (status c) f) = (inr data, AView d' tr' (status c') f')) ->
  x ##ₘ h' -> heap_ok (x ∪ h') m ->
  (match res with
   | inl rc => rc <> 0 /\ x = ∅ /\ (oom \/ dec data = inl rc)
   | inr a => exists b, dec data = inr b /\ rep a b x end) ->
  wp (free_out o;; check res) (World (x ∪ h') m (Sbe c' d' tr'))
     (cmd_post rep (fun a => abs_dec dec (op a)) c h h0 d tr).
Proof.
  intros Hs Ho Hr Hview Hx Hokx Hres. apply wp_bind. eapply wp_free_out; [done..|].
  intros h2 Ho2 Hx0 Hok2 Hv. apply wp_check. destruct res as [rc|a].
  - destruct Hres as (Hrc & -> & Hdec). rewrite (left_id_L ∅ (∪)) in Ho2.
    exists h2, m, c', d', tr', (inl rc). split_and!; try done.
    { split_and!; try done. exists h0. split; [done|by left]. }
    destruct Hdec as [|Hdec]; [by left|]. destruct Hview as [|Hview]; [by left|right].
    intros f Hf. destruct (Hview f Hf) as (f' & ? & E). exists f'.
    rewrite E; simpl. rewrite Hdec. auto.
  - destruct Hres as (b & Hdec & Hb). exists h2, m, c', d', tr', (inr b). split_and!; try done.
    { by exists x. }
    destruct Hview as [|Hview]; [by left|right].
    intros f Hf. destruct (Hview f Hf) as (f' & ? & E). exists f'.
    rewrite E; simpl. rewrite Hdec. auto.
Qed.

(** From a reply to the end of the command. *)
Lemma cmd_pull {A B} (pull : ptr -> Z -> M (sbe D) A) (dec : list Z -> Z + B) rep
    (op : aview D -> (Z + list Z) * aview D) c h h0 d tr h' h1 n' c' d' tr' o len data :
  pulls pull dec rep -> heap_ok h' n' -> same_ctx c c' ->
  own c' h' h1 -> out_rep h1 h0 o len data ->
  (oom \/ forall f, ffdc_view c h f -> exists f', ffdc_view c' h' f' /\
      op (AView d tr (status c) f) = (inr data, AView d' tr' (status c') f')) ->
  wp (r ← attempt (pull o len); free_out o;; check r)
     (World h' n' (Sbe c' d' tr')) (cmd_post rep (fun a => abs_dec dec (op a)) c h h0 d tr).
Proof.
  intros Hpull Hok Hs Ho Hr Hview. pose proof (out_rep_points _ _ _ _ _ _ _ Ho Hr) as Hp.
  apply wp_bind, wp_attempt. eapply Hpull; [done|done|..].
  - intros rc Hdec Hrc. rewrite <- (left_id_L ∅ (∪) h').
    eapply cmd_end; eauto; [apply map_disjoint_empty_l|by rewrite (left_id_L ∅ (∪))].
  - intros a b x m Hdec Hb Hx Hokx. eapply cmd_end; eauto.
  - intros Hoom. rewrite <- (left_id_L ∅ (∪) h').
    eapply cmd_end; eauto; [apply map_disjoint_empty_l|].
    rewrite (left_id_L ∅ (∪)). eauto with cmem.
Qed.

(** A failed exchange ends the command. *)
Lemma cmd_failed {A B} (rep : A -> B -> _ -> Prop) (abs : aview D -> (Z + B) * aview D)
    c h h0 d tr h' n' c' d' tr' rc ares :
  heap_ok h' n' -> same_ctx c c' -> res_rep c c' h' h0 (inl rc) ares ->
  (oom \/ forall f, ffdc_view c h f -> exists f', ffdc_view c' h' f' /\
      abs (AView d tr (status c) f) = (inl rc, AView d' tr' (status c') f')) ->
  cmd_post rep abs c h h0 d tr (inl rc) (World h' n' (Sbe c' d' tr')).
Proof.
  intros Hok Hs Hrep Hview. exists h', n', c', d', tr', (inl rc).
  destruct ares as [rc'|]; [|done]. destruct Hrep as (<- & Hrep). by split_and!.
Qed.

(** From the end of the exchange to the end of the command. *)
Lemma cmd_tail {A B} (pull : ptr -> Z -> M (sbe D) A) (dec : list Z -> Z + B) rep
    (op : aview D -> (Z + list Z) * aview D) c h h0 d tr h' n' c' d' tr' res ares :
  pulls pull dec rep -> heap_ok h' n' -> same_ctx c c' -> res_rep c c' h' h0 res ares ->
  (oom \/ forall f, ffdc_view c h f -> exists f', ffdc_view c' h' f' /\
      op (AView d tr (status c) f) = (ares, AView d' tr' (status c') f')) ->
  wp ('(out, out_len) ← check res;
      r ← attempt (pull out out_len);
      free_out out;; check r)
     (World h' n' (Sbe c' d' tr')) (cmd_post rep (fun a => abs_dec dec (op a)) c h h0 d tr).
Proof.
  intros Hpull Hok Hs Hrep Hview. apply wp_bind, wp_check.
  destruct res as [rc|[o len]], ares as [rc'|data]; try done.
  - eapply cmd_failed; eauto. destruct Hrep as (<- & _).
    destruct Hview as [|Hview]; [by left|right]. intros f Hf.
    destruct (Hview f Hf) as (f' & ? & E). exists f'. by rewrite E.
  - destruct Hrep as (h1 & Ho & Hr). by eapply cmd_pull.
Qed.

Lemma ffdc_view_insert c h b l f :
  h !! b = None -> ffdc_view c h f -> ffdc_view c (<[b:=l]> h) f.
Proof.
  intros Hb [Hl Hf]. split; [done|]. destruct (ffdc c) as [|b']; [done|].
  rewrite lookup_insert_ne; [done|]. intros ->. congruence.
Qed.

(** A command that ends before the exchange leaves the context alone. *)
Lemma cmd_post_early {A B} (rep : A -> B -> _ -> Prop) abs c h h0 n d tr d' tr' rc :
  heap_ok h n -> own c h h0 -> rc <> 0 ->
  (oom \/ forall st f, abs (AView d tr st f) = (inl rc, AView d' tr' st f)) ->
  cmd_post rep abs c h h0 d tr (inl rc) (World h n (Sbe c d' tr')).
Proof.
  intros Hok Ho Hrc Habs. exists h, n, c, d', tr', (inl rc). split_and!; try done.
  - split_and!; try done. exists h0. split; [done|by left].
  - destruct Habs as [|Habs]; [by left|right]. intros f Hf. exists f. auto.
Qed.

Lemma abs_ioctl_same c c' t (a : aview D) :
  same_ctx c c' -> abs_ioctl c' t a = abs_ioctl c t a.
Proof. intros (Hfd & _ & _). unfold abs_ioctl. by rewrite Hfd. Qed.

Context {A B : Type} (push : M (sbe D) (ptr * Z)) (req : list mval) (cmd : Z)
  (pull : ptr -> Z -> M (sbe D) A) (dec : list Z -> Z + B)
  (rep : A -> B -> gmap nat (list mval) -> Prop).
Hypothesis Hpush : pushes push req.
Hypothesis Hreq : (8 <= length req)%nat.
Hypothesis Hcmd : slice 4 4 req = Some <$> be_bytes 4 cmd.
Hypothesis Hrange : in_range 32 cmd.
Hypothesis Hpull : pulls pull dec rep.

Lemma short_cmd_spec hint c h h0 n d tr :
  hint_ok hint -> heap_ok h n -> own c h h0 ->
  wp (short_cmd push hint pull) (World h n (Sbe c d tr))
     (cmd_post rep (abs_short c req cmd hint dec) c h h0 d tr).
Proof.
  intros Hhint Hok Ho. assert (Hfr := heap_ok_fresh _ _ Hok).
  assert (Hfr0 := heap_ok_fresh _ _ (own_heap_ok _ _ _ _ Ho Hok)).
  apply wp_bind, Hpush; [done| |].
  2: { intros Hoom. by apply cmd_post_early; eauto with cmem. }
  apply wp_bind, wp_attempt. eapply wp_mono.
  { eapply (operation_spec c _ (<[n:=req]> h0)) with (mb := n) (req := req) (cmd := cmd);
      eauto using own_insert with cmem; [apply lookup_insert_eq|lia]. }
  intros res w' (h' & n' & c' & d' & tr' & ares & -> & Hok' & Hs & Hrep & Hview).
  destruct (res_rep_drop _ _ _ _ _ _ _ _ Hrep Hfr0) as (Hl & Hrep' & Hv).
  apply wp_bind. eapply wp_free; [exact Hl|].
  eapply (cmd_tail _ _ _ (fun a => abs_operation c a req cmd hint)); eauto with cmem.
  destruct Hview as [|Hview]; [by left|right]. intros f Hf.
  destruct (Hview f) as (f' & ? & ?); [by apply ffdc_view_insert|]. eauto.
Qed.

Lemma long_cmd_spec t get_hint hint c h h0 n d tr :
  (forall h n s Q, h !! n = Some req -> Q (inr hint) (World h (S n) s) ->
     wp (get_hint (Ptr n 0)) (World h (S n) s) Q) ->
  hint_ok hint -> heap_ok h n -> own c h h0 ->
  wp (long_cmd t push get_hint pull) (World h n (Sbe c d tr))
     (cmd_post rep (abs_long c t req cmd hint dec) c h h0 d tr).
Proof.
  intros Hget Hhint Hok Ho. assert (Hfr := heap_ok_fresh _ _ Hok).
  assert (Hfr0 := heap_ok_fresh _ _ (own_heap_ok _ _ _ _ Ho Hok)).
  apply wp_bind, Hpush; [done| |].
  2: { intros Hoom. by apply cmd_post_early; eauto with cmem. }
  apply wp_bind, wp_attempt, wp_timeout_ioctl. intros rc d1 Hio.
  destruct (truthy rc) eqn:Hrc.
  { apply wp_bind. eapply wp_free; [apply lookup_insert_eq|]. rewrite delete_insert_id by done.
    apply wp_fail, cmd_post_early; eauto with cmem.
    - intros ->. done.
    - right. intros st f. unfold abs_long. by rewrite Hio, Hrc. }
  apply wp_bind, Hget; [apply lookup_insert_eq|]. apply wp_bind, wp_attempt. eapply wp_mono.
  { eapply (operation_spec c _ (<[n:=req]> h0)) with (mb := n) (req := req) (cmd := cmd);
      eauto using own_insert with cmem; [apply lookup_insert_eq|lia]. }
  intros res w' (h' & n' & c' & d' & tr' & ares & -> & Hok' & Hs & Hrep & Hview).
  apply wp_bind, wp_attempt, wp_timeout_ioctl. intros rc2 d2 Hio2.
  destruct (res_rep_drop _ _ _ _ _ _ _ _ Hrep Hfr0) as (Hl & Hrep' & Hv).
  apply wp_bind. eapply wp_free; [exact Hl|].
  eapply wp_mono.
  { eapply (cmd_tail _ _ _ (fun a => let '(rc, a1) := abs_ioctl c t a in
      let '(r, a2) := abs_operation c a1 req cmd hint in
      let '(_, a3) := abs_ioctl c 0 a2 in (r, a3)) c h h0 d tr); eauto with cmem.
    destruct Hview as [|Hview]; [by left|right]. intros f Hf.
    destruct (Hview f) as (f' & Hf' & E); [by apply ffdc_view_insert|].
    exists f'. split; [auto|]. by rewrite Hio, E, <- (abs_ioctl_same c c'), Hio2. }
  intros res' w' (h2 & n2 & c2 & d3 & tr3 & ares2 & -> & ? & ? & ? & Hview2).
  eexists _, _, _, _, _, ares2. split_and!; eauto.
  destruct Hview2 as [|Hview2]; [by left|right]. intros f Hf.
  destruct (Hview2 f Hf) as (f' & ? & E). exists f'. split; [done|].
  rewrite <- E. unfold abs_long. rewrite Hio, Hrc.
  destruct (abs_operation c _ req cmd hint) as [r2 a2].
  destruct (abs_ioctl c 0 a2). done.
Qed.

(** The timeout can be set, or the driver does not know the ioctl. *)
Definition timeout_works : Prop :=
  forall c a, (abs_ioctl c 30 a).1 = 0.

Lemma reg_cmd_spec hint c h h0 n d tr :
  timeout_works -> hint_ok hint -> heap_ok h n -> own c h h0 ->
  wp (reg_cmd push hint pull) (World h n (Sbe c d tr))
     (cmd_post rep (abs_reg c req cmd hint dec) c h h0 d tr).
Proof.
  intros Htw Hhint Hok Ho. assert (Hfr := heap_ok_fresh _ _ Hok).
  assert (Hfr0 := heap_ok_fresh _ _ (own_heap_ok _ _ _ _ Ho Hok)).
  apply wp_bind, Hpush; [done| |].
  2: { intros Hoom. by apply cmd_post_early; eauto with cmem. }
  apply wp_bind, wp_timeout_ioctl. intros rc d1 Hio.
  assert (rc = 0) as -> by (specialize (Htw c (AView d tr 0 [])); by rewrite Hio in Htw).
  cbn [truthy Z.eqb negb]. apply wp_bind, wp_attempt. eapply wp_mono.
  { eapply (operation_spec c _ (<[n:=req]> h0)) with (mb := n) (req := req) (cmd := cmd);
      eauto using own_insert with cmem; [apply lookup_insert_eq|lia]. }
  intros res w' (h' & n' & c' & d' & tr' & ares & -> & Hok' & Hs & Hrep & Hview).
  destruct (res_rep_drop _ _ _ _ _ _ _ _ Hrep Hfr0) as (Hl & Hrep' & Hv).
  apply wp_bind. eapply wp_free; [exact Hl|]. apply wp_bind, wp_check.
  destruct res as [rc|[o len]], ares as [rc'|data]; try done.
  { eapply cmd_failed; eauto with cmem. destruct Hrep as (<- & _).
    destruct Hview as [|Hview]; [by left|right]. intros f Hf.
    destruct (Hview f) as (f' & ? & E); [by apply ffdc_view_insert|]. exists f'.
    unfold abs_reg. rewrite Hio. cbn [truthy Z.eqb negb]. rewrite E. auto. }
  destruct Hrep' as (h1 & Ho' & Hr). apply wp_bind, wp_attempt, wp_timeout_ioctl. intros rc2 d2 Hio2.
  eapply wp_mono.
  { eapply (cmd_pull _ _ _ (fun a => let '(r, a2) := abs_operation c (abs_ioctl c 30 a).2 req cmd hint in
      (r, (abs_ioctl c 0 a2).2)) c h h0 d tr); eauto with cmem.
    destruct Hview as [|Hview]; [by left|right]. intros f Hf.
    destruct (Hview f) as (f' & Hf' & E); [by apply ffdc_view_insert|].
    exists f'. split; [auto|]. rewrite Hio. cbn [snd]. by rewrite E, <- (abs_ioctl_same c c'), Hio2. }
  intros res' w' (h2 & n2 & c2 & d3 & tr3 & ares2 & -> & ? & ? & ? & Hview2).
  eexists _, _, _, _, _, ares2. split_and!; eauto.
  destruct Hview as [|Hview]; [by left|]. destruct Hview2 as [|Hview2]; [by left|right].
  intros f Hf. destruct (Hview2 f Hf) as (f' & ? & E). exists f'. split; [done|].
  destruct (Hview f) as (f1 & _ & E1); [by apply ffdc_view_insert|].
  rewrite <- E. unfold abs_reg. rewrite Hio. cbn [truthy Z.eqb negb snd]. by rewrite E1.
Qed.
End Shapes.

(** ** Refinement

    The command [m] implements the memory-free description [abs], whatever the
    context, the heap and the state of the device it starts from. *)
Definition refines {D} {K : Kernel D} {Al : Allocator} {A B}
  (rep : A -> B -> gmap nat (list mval) -> Prop) (m : M (sbe D) A)
  (abs : sbefifo_context -> aview D -> (Z + B) * aview D) : Prop :=
  forall c h h0 n d tr, heap_ok h n -> own c h h0 ->
    wp m (World h n (Sbe c d tr)) (cmd_post rep (abs c) c h h0 d tr).

Lemma slice_cmd a cmd ws : slice 4 4 (msg_bytes (a :: cmd :: ws)) = Some <$> be_bytes 4 cmd.
Proof.
  rewrite !msg_bytes_cons, slice_app_r by (rewrite length_fmap, length_be_bytes; lia).
  rewrite slice_app_l by (rewrite ?length_fmap, ?length_be_bytes; simpl; lia).
  rewrite length_fmap, length_be_bytes. done.
Qed.

(** A command refused with ENOSYS on the contexts [b] selects. *)
Lemma guarded_refines {D} {K : Kernel D} {Al : Allocator} {A B} rep (m : M (sbe D) A)
    (abs : sbefifo_context -> aview D -> (Z + B) * aview D) (b : sbefifo_context -> bool) :
  refines rep m abs ->
  refines rep (c ← get_sctx; if b c then fail ENOSYS else m)
    (fun c a => if b c then (inl ENOSYS, a) else abs c a).
Proof.
  intros H c h h0 n d tr Hok Ho. apply wp_bind, wp_get_sctx. destruct (b c).
  - apply wp_fail. apply cmd_post_early; try done. by right.
  - by apply H.
Qed.

Section RefinesReq.
Context {D : Type} {K : Kernel D} {DO : DataOk} {KO : KernelOk D} {Al : Allocator}.
Context {A B : Type} (push : M (sbe D) (ptr * Z)) (req : list mval) (cmd : Z)
  (pull : ptr -> Z -> M (sbe D) A) (dec : list Z -> Z + B)
  (rep : A -> B -> gmap nat (list mval) -> Prop).
Hypothesis Hpush : pushes push req.
Hypothesis Hreq : (8 <= length req)%nat.
Hypothesis Hcmd : slice 4 4 req = Some <$> be_bytes 4 cmd.
Hypothesis Hrange : in_range 32 cmd.
Hypothesis Hpull : pulls pull dec rep.

Lemma long_req_refines t hint :
  hint_ok hint ->
  refines rep (long_cmd t push (fun _ => mret hint) pull)
    (fun c => abs_long c t req cmd hint dec).
Proof. intros Hh c h h0 n d tr Hok Ho. by apply long_cmd_spec. Qed.

Lemma reg_req_refines hint :
  timeout_works -> hint_ok hint ->
  refines rep (reg_cmd push hint pull) (fun c => abs_reg c req cmd hint dec).
Proof. intros Htw Hh c h h0 n d tr Hok Ho. by apply reg_cmd_spec. Qed.
End RefinesReq.

Section Refines.
Context {D : Type} {K : Kernel D} {DO : DataOk} {KO : KernelOk D} {Al : Allocator}.
Context {A B : Type} (push : M (sbe D) (ptr * Z)) (a cmd : Z) (ws : list Z)
  (pull : ptr -> Z -> M (sbe D) A) (dec : list Z -> Z + B)
  (rep : A -> B -> gmap nat (list mval) -> Prop).
Hypothesis Hpush : pushes push (msg_bytes (a :: cmd :: ws)).
Hypothesis Hrange : in_range 32 cmd.
Hypothesis Hpull : pulls pull dec rep.

Lemma short_refines hint :
  hint_ok hint ->
  refines rep (short_cmd push hint pull)
    (fun c => abs_short c (msg_bytes (a :: cmd :: ws)) cmd hint dec).
Proof.
  intros Hh c h h0 n d tr Hok Ho. apply short_cmd_spec; auto using slice_cmd.
  rewrite length_msg_bytes. simpl. lia.
Qed.

Lemma long_refines t hint :
  hint_ok hint ->
  refines rep (long_cmd t push (fun _ => mret hint) pull)
    (fun c => abs_long c t (msg_bytes (a :: cmd :: ws)) cmd hint dec).
Proof.
  intros Hh c h h0 n d tr Hok Ho. apply long_cmd_spec; auto using slice_cmd.
  rewrite length_msg_bytes. simpl. lia.
Qed.
End Refines.

(** [hint_ok] for a literal. *)
Ltac solve_hint := unfold hint_ok, SBEFIFO_MAX_FFDC_SIZE; lia.
Ltac solve_cmd_range := unfold in_range; lia.

(** [refine_cmd L push pull]: the command is an instance of [short_cmd] or
    [long_cmd]; [L] is the matching lemma. *)
Tactic Notation "refine_cmd" uconstr(L) uconstr(push) uconstr(pull) :=
  eapply L; [apply push | solve_cmd_range | apply pull | solve_hint].

(** What is known of every value the reply data decodes to. *)
Lemma pulls_when {D} {K : Kernel D} {DO : DataOk} {Al : Allocator} {A B} (pull : ptr -> Z -> M (sbe D) A) (dec : list Z -> Z + B) rep
    (P : B -> Prop) :
  (forall data b, data_wf data -> dec data = inr b -> P b) -> pulls pull dec rep ->
  pulls pull dec (fun a b x => rep a b x /\ P b).
Proof.
  intros HP H h n s o len data Q Hok Hp Hrc HQ Hoom. apply (H h n s o len data Q); try done.
  intros a b x n' Hd Hr. apply (HQ a b x n'); [done|]. split; [done|]. by apply (HP data); [apply Hp|].
Qed.
