(* ===== verification/SbeSpec.v ===== *)
(** * libsbefifo: what each command sends and what it makes of the reply *)

From S2P Require Import Prelude CMem SbeCore SbeCoreFacts SbeCmds SbeDataCmds SbeCmdFacts.

(** ** Requests *)

(** Proves [pushes push (msg_bytes [w0; ...])] for a [_push] function that fills
    a block of constant size word by word. *)
Ltac put_words :=
  repeat (apply wp_bind; eapply wp_store_be32;
          [apply lookup_insert_eq | cbv; discriminate | vm_compute; discriminate
          | rewrite insert_insert_eq]).
Ltac solve_push :=
  intros h n s Q Hok HQ Hoom; apply wp_bind, wp_malloc; intros Hc; cbn [is_null];
  [ put_words; apply wp_ret; exact HQ | apply wp_fail, Hoom; by eapply oom_intro ].

(** The two words of a 64-bit value, as the requests carry it. *)
Definition u64_words (v : Z) : list Z := [Z.shiftr v 32; Z.land v 0xffffffff].

Section Pushes.
Context {D : Type} {K : Kernel D} {Al : Allocator}.

Lemma istep_execute_push_ok major minor :
  pushes (D:=D) (sbefifo_istep_execute_push major minor)
    (msg_bytes [3; 0xA101; Z.lor (u32 (Z.shiftl major 16)) minor]).
Proof. solve_push. Qed.

Lemma suspend_io_push_ok :
  pushes (D:=D) sbefifo_suspend_io_push (msg_bytes [2; 0xA102]).
Proof. solve_push. Qed.

Lemma scom_get_push_ok addr :
  pushes (D:=D) (sbefifo_scom_get_push addr) (msg_bytes ([4; 0xA201] ++ u64_words addr)).
Proof. solve_push. Qed.

Lemma scom_put_push_ok addr value :
  pushes (D:=D) (sbefifo_scom_put_push addr value)
    (msg_bytes ([6; 0xA202] ++ u64_words addr ++ u64_words value)).
Proof. solve_push. Qed.

Lemma scom_modify_push_ok addr value operand :
  pushes (D:=D) (sbefifo_scom_modify_push addr value operand)
    (msg_bytes ([7; 0xA203; operand] ++ u64_words addr ++ u64_words value)).
Proof. solve_push. Qed.

Lemma scom_put_mask_push_ok addr value mask :
  pushes (D:=D) (sbefifo_scom_put_mask_push addr value mask)
    (msg_bytes ([8; 0xA204] ++ u64_words addr ++ u64_words value ++ u64_words mask)).
Proof. solve_push. Qed.

Definition insn_word (core_id thread_id thread_op mode : Z) : Z :=
  Z.lor (Z.lor (Z.lor (Z.shiftl (Z.land mode 0xf) 16) (Z.shiftl (Z.land core_id 0xff) 8))
    (Z.shiftl (Z.land thread_id 0xf) 4)) (Z.land thread_op 0xf).

Lemma control_insn_push_ok core_id thread_id thread_op mode :
  pushes (D:=D) (sbefifo_control_insn_push core_id thread_id thread_op mode)
    (msg_bytes [3; 0xA701; insn_word core_id thread_id thread_op mode]).
Proof. solve_push. Qed.

Lemma get_ffdc_push_ok :
  pushes (D:=D) sbefifo_get_ffdc_push (msg_bytes [2; 0xA801]).
Proof. solve_push. Qed.

Lemma get_capabilities_push_ok :
  pushes (D:=D) sbefifo_get_capabilities_push (msg_bytes [2; 0xA802]).
Proof. solve_push. Qed.

Lemma quiesce_push_ok : pushes (D:=D) sbefifo_quiesce_push (msg_bytes [2; 0xA803]).
Proof. solve_push. Qed.

Lemma lpc_timeout_push_ok : pushes (D:=D) sbefifo_lpc_timeout_push (msg_bytes [2; 0xA808]).
Proof. solve_push. Qed.

Lemma mpipl_enter_push_ok : pushes (D:=D) sbefifo_mpipl_enter_push (msg_bytes [2; 0xA901]).
Proof. solve_push. Qed.

Lemma mpipl_continue_push_ok :
  pushes (D:=D) sbefifo_mpipl_continue_push (msg_bytes [2; 0xA902]).
Proof. solve_push. Qed.

(** Two 16-bit fields in a word. *)
Definition half_words (hi lo : Z) : Z := Z.lor (u32 (Z.shiftl hi 16)) lo.

Lemma mpipl_stopclocks_push_ok target_type chiplet_id :
  pushes (D:=D) (sbefifo_mpipl_stopclocks_push target_type chiplet_id)
    (msg_bytes [3; 0xA903; half_words target_type chiplet_id]).
Proof. solve_push. Qed.

Lemma mpipl_get_ti_info_push_ok :
  pushes (D:=D) sbefifo_mpipl_get_ti_info_push (msg_bytes [2; 0xA904]).
Proof. solve_push. Qed.

Definition dump_word (type clock fa_collect : Z) : Z :=
  Z.lor (Z.lor (Z.shiftl (Z.land fa_collect 0x1) 16) (Z.shiftl (Z.land clock 0x3) 8))
        (Z.land type 0xf).

Lemma get_dump_push_ok type clock fa_collect :
  pushes (D:=D) (sbefifo_get_dump_push type clock fa_collect)
    (msg_bytes [3; 0xAA01; dump_word type clock fa_collect]).
Proof. solve_push. Qed.

Lemma ring_get_push_ok ring_addr ring_len_bits flags :
  pushes (D:=D) (sbefifo_ring_get_push ring_addr ring_len_bits flags)
    (msg_bytes [5; 0xA301; ring_addr; ring_len_bits; flags]).
Proof. solve_push. Qed.

Lemma ring_put_from_image_push_ok target chiplet_id ring_id ring_mode :
  pushes (D:=D) (sbefifo_ring_put_from_image_push target chiplet_id ring_id ring_mode)
    (msg_bytes [4; 0xA303; half_words target chiplet_id; half_words ring_id ring_mode]).
Proof. solve_push. Qed.

Definition fast_array_word (target_type chiplet_id mode : Z) : Z :=
  Z.lor (Z.lor (u32 (Z.shiftl target_type 16)) (Z.shiftl chiplet_id 8)) (Z.land mode 0x3).

Lemma control_fast_array_push_ok target_type chiplet_id mode clock_cycle :
  pushes (D:=D) (sbefifo_control_fast_array_push target_type chiplet_id mode clock_cycle)
    (msg_bytes ([5; 0xA601; fast_array_word target_type chiplet_id mode] ++ u64_words clock_cycle)).
Proof. solve_push. Qed.

Lemma control_trace_array_push_ok target_type chiplet_id array_id operation :
  pushes (D:=D) (sbefifo_control_trace_array_push target_type chiplet_id array_id operation)
    (msg_bytes [4; 0xA602; half_words target_type chiplet_id; half_words array_id operation]).
Proof. solve_push. Qed.

Definition hw_target_word (target_type instance_id : Z) : Z :=
  Z.lor (Z.shiftl (Z.land target_type 0xff) 16) (Z.land instance_id 0xff).

Lemma hw_register_get_push_ok target_type instance_id reg_id :
  pushes (D:=D) (sbefifo_hw_register_get_push target_type instance_id reg_id)
    (msg_bytes ([5; 0xA503; hw_target_word target_type instance_id] ++ u64_words reg_id)).
Proof. solve_push. Qed.

Lemma hw_register_put_push_ok target_type instance_id reg_id value :
  pushes (D:=D) (sbefifo_hw_register_put_push target_type instance_id reg_id value)
    (msg_bytes ([7; 0xA504; hw_target_word target_type instance_id]
                ++ u64_words reg_id ++ u64_words value)).
Proof. solve_push. Qed.
End Pushes.

(** ** Replies *)

Definition rep_pure {A} (a b : A) (x : gmap nat (list mval)) : Prop := a = b /\ x = ∅.

(** The result is a block that holds [data] (no block when it is empty). *)
Definition rep_buf (r : ptr * Z) (data : list Z) (x : gmap nat (list mval)) : Prop :=
  r.2 = Z.of_nat (length data) /\ exists b, r.1 = Ptr b 0 /\ x = {[b := Some <$> data]}.

Definition dec_len {A} (k : Z) (f : list Z -> A) (data : list Z) : Z + A :=
  if Z.of_nat (length data) =? k then inr (f data) else inl EPROTO.

Definition dec_unit : list Z -> Z + unit := dec_len 0 (fun _ => tt).

Section Pulls.
Context {D : Type} {K : Kernel D} {DO : DataOk} {Al : Allocator}.

(** A decoder that allocates nothing. *)
Lemma pulls_pure {B} (pull : ptr -> Z -> M (sbe D) B) dec :
  (forall h n s o len data, points h o len data ->
     match dec data with
     | inl rc => rc <> 0 /\ pull o len (World h n s) = (Fail rc, World h n s)
     | inr b => pull o len (World h n s) = (Ret b, World h n s)
     end) -> pulls pull dec rep_pure.
Proof.
  intros H h n s o len data Q Hok Hp Hrc Hval _. specialize (H h n s o len data Hp).
  unfold wp. destruct (dec data) as [rc|b] eqn:E.
  - destruct H as [Hne ->]. auto.
  - rewrite H. rewrite <- (left_id_L ∅ (∪) h) at 1.
    apply (Hval b b ∅); rewrite ?(left_id_L ∅ (∪)); try done. apply map_disjoint_empty_l.
Qed.

Lemma pulls_check k :
  pulls (fun _ buflen => if negb (buflen =? k) then fail EPROTO else mret tt : M (sbe D) unit)
    (dec_len k (fun _ => tt)) rep_pure.
Proof.
  apply pulls_pure. intros h n s o len data (_ & -> & _). unfold dec_len.
  destruct (_ =? k); done.
Qed.

(** Loads from the reply, as equations. *)
Lemma load_reply h n (s : sbe D) o len data i k :
  points h o len data -> k = Z.of_nat i -> (i + 4 <= length data)%nat ->
  load_be32 (ptr_add o k) (World h n s)
  = (Ret (be_val (slice i 4 data)), World h n s).
Proof.
  intros (_ & -> & Ho) -> Hi. destruct o as [|b off].
  { subst data. simpl in Hi. lia. }
  destruct Ho as [-> Hb].
  assert (H : wp (load_be32 (ptr_add (Ptr b 0) (Z.of_nat i))) (World h n s)
    (fun r w => r = inr (be_val (slice i 4 data)) /\ w = World h n s)).
  { eapply (wp_load_be32 _ _ _ (slice i 4 data)); [exact Hb|lia|rewrite length_fmap; lia| |done].
    rewrite Z.add_0_l, Nat2Z.id. apply slice_map. }
  unfold wp in H. destruct (load_be32 _ _) as [[] w']; try done; destruct H as [E ->]; congruence.
Qed.

Lemma ptr_add_0 o : ptr_add o 0 = o.
Proof. destruct o as [|b k]; simpl; [done|]. by rewrite Z.add_0_r. Qed.

(** Two consecutive words of the reply as a 64-bit value. *)
Lemma be_val_halves o data :
  Forall is_byte data -> (o + 8 <= length data)%nat ->
  Z.lor (u64 (Z.shiftl (be_val (slice o 4 data)) 32)) (be_val (slice (o + 4) 4 data))
  = be_val (slice o 8 data).
Proof.
  intros Hby Hlen.
  rewrite lor_halves by (apply be_val_range4; [by apply Forall_slice|apply length_slice; lia]).
  replace (slice o 8 data) with (slice o 4 data ++ slice (o + 4) 4 data).
  - rewrite be_val_app, length_slice by lia. done.
  - unfold slice. rewrite <- drop_drop. by rewrite (take_take_drop (drop o data) 4 4).
Qed.

Lemma pull_u64_ok h n (s : sbe D) o len data :
  points h o len data -> length data = 8%nat ->
  pull_u64 o (World h n s) = (Ret (be_val data), World h n s).
Proof.
  intros Hp H8. assert (Hby : Forall is_byte data) by apply Hp.
  unfold pull_u64, mbind, M_bind.
  rewrite <- (ptr_add_0 o) at 1. rewrite (load_reply h n s o len data 0 0) by (done || lia).
  rewrite (load_reply h n s o len data 4 4) by (done || lia). unfold mret, M_ret.
  rewrite (be_val_halves 0) by (done || lia). rewrite <- H8, slice_all. done.
Qed.

Lemma pulls_u64 :
  pulls (fun buf buflen => if negb (buflen =? 8) then fail EPROTO else pull_u64 buf : M (sbe D) Z)
    (dec_len 8 be_val) rep_pure.
Proof.
  apply pulls_pure. intros h n s o len data Hp. assert (E := proj1 (proj2 Hp)). rewrite E.
  unfold dec_len. destruct (Z.eqb_spec (Z.of_nat (length data)) 8); simpl; [|done].
  eapply pull_u64_ok; [done|lia].
Qed.

Lemma pulls_u32 :
  pulls (fun buf buflen => if negb (buflen =? 4) then fail EPROTO else load_be32 buf : M (sbe D) Z)
    (dec_len 4 be_val) rep_pure.
Proof.
  apply pulls_pure. intros h n s o len data Hp. assert (E := proj1 (proj2 Hp)). rewrite E.
  unfold dec_len. destruct (Z.eqb_spec (Z.of_nat (length data)) 4) as [H4|]; simpl; [|done].
  rewrite <- (ptr_add_0 o). rewrite (load_reply h n s o len data 0 0) by (done || lia).
  do 3 f_equal. unfold slice. rewrite drop_0, take_ge by lia. done.
Qed.

(** Copying [k] bytes of the reply, from offset [off], into a block of their own. *)
Lemma wp_copy_out h n (s : sbe D) o len data k off (ret : Z) Q :
  heap_ok h n -> points h o len data -> 0 <= k -> 0 <= off -> off + k <= len ->
  (forall x n', rep_buf (Ptr n 0, k) (slice (Z.to_nat off) (Z.to_nat k) data) x ->
     x ##ₘ h -> heap_ok (x ∪ h) n' -> Q (inr (Ptr n 0, ret)) (World (x ∪ h) n' s)) ->
  (oom -> Q (inl ENOMEM) (World h (S n) s)) ->
  wp (p ← malloc k;
      if is_null p then fail ENOMEM else
      memcpy p (ptr_add o off) k;; mret (p, ret)) (World h n s) Q.
Proof.
  intros Hok (_ & -> & Ho) Hk Hoff Hle HQ Hoom. assert (Hfr := heap_ok_fresh _ _ Hok).
  apply wp_bind, wp_malloc; intros Hc; cbn [is_null].
  2: { apply wp_fail, Hoom. by eapply oom_intro. }
  apply wp_bind.
  assert (Hend : wp (mret (Ptr n 0, ret))
    (World (<[n := Some <$> slice (Z.to_nat off) (Z.to_nat k) data]> h) (S n) s) Q).
  { apply wp_ret. rewrite insert_union_singleton_l. apply HQ.
    - split; simpl; [rewrite length_slice; lia|eauto].
    - by apply map_disjoint_singleton_l.
    - rewrite <- insert_union_singleton_l. eauto with cmem. }
  destruct o as [|b z].
  - subst data. simpl in Hle. assert (k = 0) as -> by lia. apply wp_ret.
    unfold slice in Hend. rewrite take_0 in Hend. exact Hend.
  - destruct Ho as [-> Hb]. assert (n <> b) by congruence. simpl ptr_add.
    eapply wp_memcpy; [apply lookup_insert_eq|rewrite lookup_insert_ne; done|lia|lia|lia
      |rewrite length_replicate; lia|rewrite length_fmap; lia|].
    rewrite insert_insert_eq, patch_full; [|rewrite length_slice, length_replicate;
      rewrite ?length_fmap; lia|done].
    by rewrite slice_map.
Qed.

(** The last word of the reply data. *)
Definition last_word (data : list Z) : Z := be_val (slice (length data - 4) 4 data).

Definition dec_ti_info (data : list Z) : Z + list Z :=
  if Z.of_nat (length data) <? 4 then inl EPROTO
  else inr (take (Z.to_nat (last_word data)) data).

Definition dec_ring_get (ring_len_bits : Z) (data : list Z) : Z + list Z :=
  if u32 (Z.of_nat (length data) * 8) <? ring_len_bits then inl EPROTO
  else inr (take (Z.to_nat (last_word data)) data).

Definition dec_trace_array (data : list Z) : Z + list Z :=
  if Z.of_nat (length data) <? 4 then inl EPROTO
  else if Z.of_nat (length data) =? u32 (u32 (4 * last_word data) + 4)
  then inr (take (length data - 4) data) else inl EPROTO.

Definition rep_dump (r : ptr * Z) (data : list Z) (x : gmap nat (list mval)) : Prop :=
  match data with [] => r = (Null, 0) /\ x = ∅ | _ => rep_buf r data x end.

Lemma last_word_range data :
  Forall is_byte data -> (4 <= length data)%nat -> in_range 32 (last_word data).
Proof. intros Hb Hl. apply be_val_range4; [by apply Forall_slice|apply length_slice; lia]. Qed.

Lemma wp_load_last h n (s : sbe D) o len data k Q :
  points h o len data -> 4 <= len -> k = len - 4 ->
  Q (inr (last_word data)) (World h n s) ->
  wp (load_be32 (ptr_add o k)) (World h n s) Q.
Proof.
  intros Hp H4 -> HQ. assert (E := proj1 (proj2 Hp)).
  unfold wp. rewrite (load_reply h n s o len data (length data - 4)) by (done || lia). done.
Qed.

Lemma pulls_dump : pulls (D:=D) sbefifo_get_dump_pull (fun data => inr data) rep_dump.
Proof.
  intros h n s o len data Q Hok Hp _ HQ Hoom. assert (E := proj1 (proj2 Hp)).
  unfold sbefifo_get_dump_pull. destruct (Z.ltb_spec 0 len) as [Hpos|Hz].
  - rewrite <- (ptr_add_0 o). eapply (wp_copy_out _ _ _ _ _ _ len 0); try done; [lia..|].
    intros x n' Hr Hx Hok'. apply (HQ _ data); try done.
    assert (Hs : slice (Z.to_nat 0) (Z.to_nat len) data = data)
      by (rewrite E, Nat2Z.id; apply slice_all).
    rewrite Hs in Hr. destruct data; [simpl in E; lia|done].
  - destruct data; [|simpl in E; lia]. apply wp_ret.
    rewrite <- (left_id_L ∅ (∪) h) at 1. apply (HQ _ []); try done.
    + apply map_disjoint_empty_l.
    + rewrite (left_id_L ∅ (∪)). done.
Qed.

Lemma pulls_trace_array :
  pulls (D:=D) sbefifo_control_trace_array_pull dec_trace_array rep_buf.
Proof.
  intros h n s o len data Q Hok Hp Hrc HQ Hoom. destruct (Hp) as ((Hby & Hlt & _) & -> & _).
  unfold sbefifo_control_trace_array_pull, dec_trace_array in *.
  destruct (Z.ltb_spec (Z.of_nat (length data)) 4) as [|H4]; [apply wp_fail; by apply Hrc|].
  apply wp_bind. eapply wp_load_last; [done|done|lia|].
  destruct (Z.eqb_spec (Z.of_nat (length data)) (u32 (u32 (4 * last_word data) + 4))) as [E|];
    simpl; [|apply wp_fail; by apply Hrc].
  pose proof (wrap_range 32 (4 * last_word data) ltac:(lia)) as Hr.
  assert (Hk : u32 (4 * last_word data) = Z.of_nat (length data) - 4).
  { revert E. destruct (Z.eq_dec (u32 (4 * last_word data)) (2 ^ 32 - 4)) as [->|].
    - change (u32 (2 ^ 32 - 4 + 4)) with 0. lia.
    - unfold wrap at 1. intros E. unfold in_range in Hr.
      destruct (Z.lt_ge_cases (u32 (4 * last_word data) + 4) (2 ^ 32)).
      + rewrite Z.mod_small in E by lia. lia.
      + rewrite <- (Z.mod_add _ (-1)), Z.mod_small in E by lia. lia. }
  rewrite Hk. rewrite <- (ptr_add_0 o).
  eapply (wp_copy_out _ _ _ _ _ _ _ 0); try done; [lia..|].
  intros x n' Hrep Hx Hok'. eapply HQ; try done.
  unfold slice in Hrep. simpl in Hrep. rewrite drop_0 in Hrep.
  replace (Z.to_nat (Z.of_nat (length data) - 4)) with (length data - 4)%nat in Hrep by lia. done.
Qed.

(** Replies that end with their own length: the length word is inside the data. *)
Definition length_word_ok (data : list Z) : Prop :=
  4 <= Z.of_nat (length data) /\ last_word data <= Z.of_nat (length data).

(** The common end of the decoders that trust the length word. *)
Lemma wp_pull_prefix h n (s : sbe D) o len data k Q :
  heap_ok h n -> points h o len data -> length_word_ok data -> k = len - 4 ->
  (forall a x n', rep_buf a (take (Z.to_nat (last_word data)) data) x ->
     x ##ₘ h -> heap_ok (x ∪ h) n' -> Q (inr a) (World (x ∪ h) n' s)) ->
  (oom -> Q (inl ENOMEM) (World h (S n) s)) ->
  wp (data_len ← load_be32 (ptr_add o k);
      data ← malloc data_len;
      if is_null data then fail ENOMEM else
      memcpy data o data_len;; mret (data, data_len)) (World h n s) Q.
Proof.
  intros Hok Hp [H4 Hle] Hk HQ Hoom. destruct (Hp) as ((Hby & Hlt & _) & -> & _).
  apply wp_bind. eapply wp_load_last; [done|done|done|].
  pose proof (last_word_range data Hby ltac:(lia)) as [Hlw _].
  rewrite <- (ptr_add_0 o). eapply (wp_copy_out _ _ _ _ _ _ _ 0); try done; [lia..|].
  intros x n' Hr. apply HQ. unfold slice in Hr. simpl in Hr. by rewrite drop_0 in Hr.
Qed.

Lemma pulls_ti_info :
  (forall data, data_ok data -> 4 <= Z.of_nat (length data) -> length_word_ok data) ->
  pulls (D:=D) sbefifo_mpipl_get_ti_info_pull dec_ti_info rep_buf.
Proof.
  intros Hdata h n s o len data Q Hok Hp Hrc HQ Hoom. destruct (Hp) as ((_ & _ & Hd) & -> & _).
  unfold sbefifo_mpipl_get_ti_info_pull, dec_ti_info in *.
  destruct (Z.ltb_spec (Z.of_nat (length data)) 4) as [|H4]; [apply wp_fail; by apply Hrc|].
  eapply wp_pull_prefix; eauto.
Qed.

Lemma pulls_ring_get bits :
  (forall data, data_ok data -> bits <= u32 (Z.of_nat (length data) * 8) -> length_word_ok data) ->
  pulls (D:=D) (sbefifo_ring_get_pull bits) (dec_ring_get bits) rep_buf.
Proof.
  intros Hdata h n s o len data Q Hok Hp Hrc HQ Hoom. destruct (Hp) as ((_ & Hlt & Hd) & -> & _).
  unfold sbefifo_ring_get_pull, dec_ring_get in *.
  destruct (Z.ltb_spec (u32 (Z.of_nat (length data) * 8)) bits) as [|Hb]; [apply wp_fail; by apply Hrc|].
  destruct (Hdata data Hd Hb) as [H4 Hle].
  eapply wp_pull_prefix; eauto. apply wrap_small. solve_range.
Qed.
End Pulls.
