(* ===== verification/SbeDataSpec.v ===== *)
(** * libsbefifo: the commands with variable-size requests and replies

    Requests that carry an array of the caller (ring, memory and register
    writes), and the replies of the memory and register reads. *)

From S2P Require Import Prelude CMem SbeCore SbeCoreFacts SbeCmds SbeDataCmds SbeCmdFacts SbeSpec.

(** ** Filling a request word by word *)

Section Fill.
Context {D : Type} {K : Kernel D} {Al : Allocator}.
Implicit Types (h : gmap nat (list mval)) (s : sbe D).

(** A block whose first words are [ws], the rest being indeterminate. *)
Definition filled (k : Z) (ws : list Z) : list mval :=
  msg_bytes ws ++ replicate (Z.to_nat k - 4 * length ws) None.

Lemma length_filled k ws :
  4 * Z.of_nat (length ws) <= k -> Z.of_nat (length (filled k ws)) = k.
Proof.
  intros H. unfold filled. rewrite length_app, length_replicate, length_msg_bytes. lia.
Qed.

Lemma filled_nil k : replicate (Z.to_nat k) None = filled k [].
Proof. unfold filled. simpl. by rewrite Nat.sub_0_r. Qed.

(** [msg[i] = htobe32(v)] for the first word not yet filled. *)
Lemma wp_put_next h b k ws i v n s Q :
  h !! b = Some (filled k ws) -> i = Z.of_nat (length ws) -> 4 * (i + 1) <= k ->
  Q (inr tt) (World (<[b := filled k (ws ++ [v])]> h) n s) ->
  wp (put_word (Ptr b 0) i v) (World h n s) Q.
Proof.
  intros Hb -> Hk HQ. unfold put_word. simpl ptr_add.
  eapply wp_store_be32; [done|lia| |].
  { rewrite length_filled by lia. lia. }
  assert (E : patch (Z.to_nat (4 * Z.of_nat (length ws))) (Some <$> be_bytes 4 v) (filled k ws)
              = filled k (ws ++ [v])).
  { unfold filled. replace (Z.to_nat (4 * Z.of_nat (length ws))) with (length (msg_bytes ws))
      by (rewrite length_msg_bytes; lia).
    rewrite patch_end by (rewrite length_fmap, length_be_bytes; lia).
    rewrite msg_bytes_app, msg_bytes_cons. change (msg_bytes []) with (@nil mval). rewrite app_nil_r.
    rewrite length_app, length_fmap, length_be_bytes. do 2 f_equal. simpl length. lia. }
  replace (0 + 4 * Z.of_nat (length ws)) with (4 * Z.of_nat (length ws)) by lia.
  rewrite E. exact HQ.
Qed.

(** [memcpy(&msg[i], data, len)] after the words filled so far. *)
Lemma wp_copy_next h b k ws i (data : list Z) len n s Q :
  h !! b = Some (filled k ws) -> i = Z.of_nat (length ws) -> len = Z.of_nat (length data) ->
  4 * i + len <= k ->
  Q (inr tt) (World (<[b := msg_bytes ws ++ (Some <$> data)
                        ++ replicate (Z.to_nat (k - 4 * i - len)) None]> h) n s) ->
  wp (copy_in (ptr_add (Ptr b 0) (4 * i)) (Some <$> data) len) (World h n s) Q.
Proof.
  intros Hb -> -> Hk HQ. simpl ptr_add.
  eapply wp_copy_in; [done|lia|lia|by rewrite length_fmap| |].
  { rewrite length_filled by lia. lia. }
  rewrite Nat2Z.id, take_ge by (rewrite length_fmap; lia).
  unfold filled. replace (Z.to_nat (0 + 4 * Z.of_nat (length ws))) with (length (msg_bytes ws))
    by (rewrite length_msg_bytes; lia).
  rewrite patch_end by (rewrite length_fmap; lia). rewrite length_fmap, <- app_assoc.
  replace (Z.to_nat k - 4 * length ws - length data)%nat
    with (Z.to_nat (k - 4 * Z.of_nat (length ws) - Z.of_nat (length data))) by lia.
  exact HQ.
Qed.
End Fill.

(** Fills the next words of a request whose size is not a literal. *)
Ltac put_nexts :=
  repeat (apply wp_bind; eapply wp_put_next;
          [apply lookup_insert_eq | reflexivity | simpl; lia
          | rewrite insert_insert_eq; cbn [app]]).

Section VarPushes.
Context {D : Type} {K : Kernel D} {Al : Allocator}.

(** The bytes of a ring-write request: three words, the data, and padding
    bytes the code leaves indeterminate. *)
Definition ring_put_req (mode : Z) (data : list Z) : list mval :=
  let nwords := 3 + (Z.of_nat (length data) + 3) / 4 in
  msg_bytes [nwords; 0xA302; mode] ++ (Some <$> data)
  ++ replicate (Z.to_nat (nwords * 4 - 12 - Z.of_nat (length data))) None.

Lemma ring_put_push_ok mode (data : list Z) :
  Z.of_nat (length data) + 18 < 2 ^ 32 ->
  pushes (D:=D) (sbefifo_ring_put_push mode (Some <$> data) (Z.of_nat (length data)))
    (ring_put_req mode data).
Proof.
  intros Hlen h n s Q Hok HQ Hoom. unfold sbefifo_ring_put_push.
  rewrite (wrap_small 32 (Z.of_nat (length data) + 3)) by solve_range.
  set (L := Z.of_nat (length data)) in *.
  pose proof (Z.div_mod (L + 3) 4 ltac:(lia)). pose proof (Z.mod_pos_bound (L + 3) 4 ltac:(lia)).
  rewrite (wrap_small 32 (3 + (L + 3) / 4)) by solve_range. cbv zeta.
  rewrite (wrap_small 32 ((3 + (L + 3) / 4) * 4)) by solve_range.
  apply wp_bind, wp_malloc; intros Hc; cbn [is_null]; [|apply wp_fail, Hoom; by eapply oom_intro].
  set (k := (3 + (L + 3) / 4) * 4) in *.
  rewrite filled_nil.
  put_nexts. apply wp_bind. eapply wp_copy_next; [apply lookup_insert_eq|done|done|simpl; lia|].
  rewrite insert_insert_eq. apply wp_ret. unfold ring_put_req in HQ. cbv zeta in HQ. fold L k in HQ.
  replace (Z.of_nat (length _)) with k in HQ; [exact HQ|].
  rewrite !length_app, length_msg_bytes, length_fmap, length_replicate. simpl length. lia.
Qed.

(** The guards of the memory writes, as arithmetic. *)
Lemma mem_align_land flags al x :
  mem_align flags = Some al -> 0 <= x -> Z.land x (al - 1) = x mod al.
Proof.
  unfold mem_align. intros H Hx.
  destruct (truthy _); [|destruct (truthy _); [|done]]; simplify_eq.
  - apply (Z.land_ones x 3). lia.
  - apply (Z.land_ones x 7). lia.
Qed.

Lemma mem_align_div flags al : mem_align flags = Some al -> (4 | al) /\ 0 < al.
Proof.
  unfold mem_align. destruct (truthy _); [|destruct (truthy _); [|done]]; intros; simplify_eq.
  - by split; [exists 2|].
  - by split; [exists 32|].
Qed.

Lemma mod_div4 al x : (4 | al) -> 0 < al -> x mod al = 0 -> x = 4 * (x / 4).
Proof.
  intros [k ->] Hal Hx. apply Z.div_exact; [lia|]. apply Z.mod_divide in Hx as [j ->]; [|lia].
  rewrite Z.mul_assoc. apply Z.mod_mul. lia.
Qed.

(** The request of a memory write. *)
Definition mem_put_req (addr flags : Z) (data : list Z) : list mval :=
  let len := Z.of_nat (length data) in
  msg_bytes ([6 + len / 4; 0xA402; flags] ++ u64_words addr ++ [len]) ++ (Some <$> data).

Lemma mem_put_push_ok al addr (data : list Z) flags :
  mem_align flags = Some al -> 0 <= addr ->
  addr mod al = 0 -> Z.of_nat (length data) mod al = 0 -> Z.of_nat (length data) + 24 < 2 ^ 32 ->
  pushes (D:=D) (sbefifo_mem_put_push addr (Some <$> data) (Z.of_nat (length data)) flags)
    (mem_put_req addr flags data).
Proof.
  intros Hal Ha Ha0 Hl0 Hlen h n s Q Hok HQ Hoom. unfold sbefifo_mem_put_push. rewrite Hal.
  rewrite !(mem_align_land _ _ _ Hal), Ha0, Hl0 by lia. cbn [truthy Z.eqb negb].
  destruct (mem_align_div _ _ Hal) as [H4 Hpos]. pose proof (mod_div4 _ _ H4 Hpos Hl0) as E.
  set (L := Z.of_nat (length data)) in *.
  rewrite (wrap_small 32 (6 + L / 4)) by solve_range. cbv zeta.
  rewrite (wrap_small 32 ((6 + L / 4) * 4)) by solve_range.
  apply wp_bind, wp_malloc; intros Hc; cbn [is_null]; [|apply wp_fail, Hoom; by eapply oom_intro].
  rewrite filled_nil. put_nexts. apply wp_bind.
  eapply wp_copy_next; [apply lookup_insert_eq|done|done|simpl; lia|].
  rewrite insert_insert_eq. apply wp_ret. unfold mem_put_req in HQ. cbv zeta in HQ. fold L in HQ.
  replace (Z.to_nat ((6 + L / 4) * 4 - 4 * 6 - L)) with 0%nat by lia.
  rewrite app_nil_r. replace (Z.of_nat (length _)) with ((6 + L / 4) * 4) in HQ; [exact HQ|].
  rewrite !length_app, length_msg_bytes, length_fmap. simpl length. lia.
Qed.

(** A write that is not aligned is refused before anything is allocated. *)
Lemma mem_put_push_refused addr data len flags :
  0 <= addr -> 0 <= len ->
  match mem_align flags with Some al => (addr mod al =? 0) && (len mod al =? 0) | None => false end
    = false ->
  sbefifo_mem_put_push (D:=D) addr data len flags = fail EINVAL.
Proof.
  intros Ha Hl. unfold sbefifo_mem_put_push. destruct (mem_align flags) as [al|] eqn:Hal; [|done].
  rewrite !(mem_align_land _ _ _ Hal) by done. unfold truthy.
  destruct (addr mod al =? 0), (len mod al =? 0); done.
Qed.

(** The request of an SRAM write: the data starts at the sixth word, over the
    length, and the last four bytes of the block are never written. *)
Definition sram_flags (chiplet_id mode : Z) (multicast : bool) : Z :=
  Z.lor (Z.lor (u32 (Z.shiftl chiplet_id 16)) (Z.shiftl (if multicast then 0x80 else 0x00) 8)) mode.

Definition sram_put_req (chiplet_id addr mode : Z) (multicast : bool) (data : list Z) : list mval :=
  let len := Z.of_nat (length data) in
  msg_bytes ([6 + len / 4; 0xA404; sram_flags chiplet_id mode multicast] ++ u64_words addr)
  ++ (Some <$> data) ++ replicate 4 None.

Lemma wp_copy_over h b k ws w i (data : list Z) len n (s : sbe D) Q :
  h !! b = Some (filled k (ws ++ [w])) -> i = Z.of_nat (length ws) ->
  len = Z.of_nat (length data) -> 4 <= len -> 4 * i + len <= k ->
  Q (inr tt) (World (<[b := msg_bytes ws ++ (Some <$> data)
                        ++ replicate (Z.to_nat (k - 4 * i - len)) None]> h) n s) ->
  wp (copy_in (ptr_add (Ptr b 0) (4 * i)) (Some <$> data) len) (World h n s) Q.
Proof.
  intros Hb -> -> H4 Hk HQ. simpl ptr_add.
  eapply wp_copy_in; [done|lia|lia|by rewrite length_fmap| |].
  { rewrite length_filled by (rewrite length_app; simpl; lia). lia. }
  rewrite Nat2Z.id, take_ge by (rewrite length_fmap; lia).
  unfold filled. replace (Z.to_nat (0 + 4 * Z.of_nat (length ws))) with (length (msg_bytes ws))
    by (rewrite length_msg_bytes; lia).
  rewrite msg_bytes_app, <- app_assoc, patch_app, length_fmap.
  rewrite drop_app_ge by (rewrite length_msg_bytes; simpl; lia).
  rewrite drop_replicate, length_msg_bytes, length_app. simpl length.
  replace (Z.to_nat k - 4 * (length ws + 1) - (length data - 4 * 1))%nat
    with (Z.to_nat (k - 4 * Z.of_nat (length ws) - Z.of_nat (length data))) by lia.
  exact HQ.
Qed.

Lemma sram_put_push_ok chiplet_id addr (data : list Z) multicast mode :
  0 <= addr -> addr mod 8 = 0 -> Z.of_nat (length data) mod 8 = 0 ->
  0 < Z.of_nat (length data) -> Z.of_nat (length data) + 24 < 2 ^ 32 ->
  pushes (D:=D) (sbefifo_sram_put_push chiplet_id addr (Some <$> data) (Z.of_nat (length data))
                   multicast mode)
    (sram_put_req chiplet_id addr mode multicast data).
Proof.
  intros Ha Ha0 Hl0 Hp Hlen h n s Q Hok HQ Hoom. unfold sbefifo_sram_put_push. cbv zeta.
  rewrite !(mem_align_land SBEFIFO_MEMORY_FLAG_PROC 8), Ha0, Hl0 by (done || lia).
  cbn [truthy Z.eqb negb].
  pose proof (mod_div4 8 _ ltac:(by exists 2) ltac:(done) Hl0) as E.
  set (L := Z.of_nat (length data)) in *.
  rewrite (wrap_small 32 (6 + L / 4)) by solve_range.
  rewrite (wrap_small 32 ((6 + L / 4) * 4)) by solve_range.
  apply wp_bind, wp_malloc; intros Hc; cbn [is_null]; [|apply wp_fail, Hoom; by eapply oom_intro].
  rewrite filled_nil. put_nexts. apply wp_bind.
  eapply (wp_copy_over _ _ _ [_; _; _; _; _]); [apply lookup_insert_eq|done|done|lia|simpl; lia|].
  rewrite insert_insert_eq. apply wp_ret. unfold sram_put_req in HQ. cbv zeta in HQ. fold L in HQ.
  replace (Z.to_nat ((6 + L / 4) * 4 - 4 * 5 - L)) with 4%nat by lia.
  replace (Z.of_nat (length _)) with ((6 + L / 4) * 4) in HQ; [exact HQ|].
  rewrite !length_app, length_msg_bytes, length_fmap, length_replicate. simpl length. lia.
Qed.
End VarPushes.

(** ** Register commands *)

(** The words that carry the register values of a write. *)
Definition reg_entries (ids vals : list Z) : list Z :=
  concat (zip_with (fun id v => id :: u64_words v) ids vals).

Section Registers.
Context {D : Type} {K : Kernel D} {DO : DataOk} {Al : Allocator}.

Lemma filled_lookup_app {A} (l k : list A) x : (l ++ x :: k) !! Z.to_nat (Z.of_nat (length l)) = Some x.
Proof. rewrite Nat2Z.id. by apply list_lookup_middle. Qed.

(** The loop that stores the register numbers after the three header words. *)
Lemma wp_put_reg_ids h b k n (s : sbe D) Q a1 a2 a3 : forall ids prev,
  h !! b = Some (filled k ([a1; a2; a3] ++ prev)) ->
  4 * (3 + Z.of_nat (length prev) + Z.of_nat (length ids)) <= k ->
  Q (inr tt) (World (<[b := filled k ([a1; a2; a3] ++ prev ++ ids)]> h) n s) ->
  wp (put_reg_ids (length ids) (Z.of_nat (length prev)) (Ptr b 0) (prev ++ ids)) (World h n s) Q.
Proof.
  intros ids. revert h. induction ids as [|x ids IH]; intros h prev Hb Hk HQ; cbn [put_reg_ids length].
  - apply wp_ret. rewrite app_nil_r, insert_id in HQ by done. exact HQ.
  - simpl in Hk. apply wp_bind. eapply wp_array_get; [lia|apply filled_lookup_app|].
    apply wp_bind. eapply wp_put_next; [exact Hb|simpl; lia|lia|].
    replace (Z.of_nat (length prev) + 1) with (Z.of_nat (length (prev ++ [x])))
      by (rewrite length_app; simpl; lia).
    replace (prev ++ x :: ids) with ((prev ++ [x]) ++ ids) by (by rewrite <- app_assoc).
    apply IH; [by rewrite lookup_insert_eq, <- app_assoc|rewrite length_app; simpl; lia|].
    rewrite insert_insert_eq, <- (app_assoc prev). exact HQ.
Qed.

Lemma length_reg_entries ids vals :
  length ids = length vals -> length (reg_entries ids vals) = (3 * length ids)%nat.
Proof.
  unfold reg_entries. revert vals. induction ids as [|i ids IH]; intros [|v vals] E; try done.
  cbn [zip_with concat]. rewrite length_app. simpl in *. rewrite IH by lia. lia.
Qed.

Lemma reg_entries_snoc ids vals i v :
  length ids = length vals -> reg_entries (ids ++ [i]) (vals ++ [v])
  = ((reg_entries ids vals ++ [i]) ++ [Z.shiftr v 32]) ++ [Z.land v 0xffffffff].
Proof.
  intros E. unfold reg_entries. rewrite zip_with_app by done. rewrite concat_app. simpl.
  by rewrite <- !app_assoc.
Qed.

Lemma wp_put_regs h b k n (s : sbe D) Q a1 a2 a3 : forall ids vals pids pvals,
  h !! b = Some (filled k ([a1; a2; a3] ++ reg_entries pids pvals)) ->
  length pids = length pvals -> length ids = length vals ->
  4 * (3 + 3 * Z.of_nat (length pids) + 3 * Z.of_nat (length ids)) <= k ->
  Q (inr tt) (World (<[b := filled k ([a1; a2; a3] ++ reg_entries (pids ++ ids) (pvals ++ vals))]> h) n s) ->
  wp (put_regs (length ids) (Z.of_nat (length pids)) (Ptr b 0) (pids ++ ids) (pvals ++ vals))
     (World h n s) Q.
Proof.
  intros ids. revert h. induction ids as [|x ids IH]; intros h [|v vals] pids pvals Hb E1 E2 Hk HQ;
    try done; cbn [put_regs length].
  - apply wp_ret. rewrite !app_nil_r, insert_id in HQ by done. exact HQ.
  - simpl in Hk, E2. pose proof (length_reg_entries pids pvals E1) as El.
    apply wp_bind. eapply wp_array_get; [lia|apply filled_lookup_app|].
    apply wp_bind. eapply wp_put_next; [exact Hb|rewrite length_app; simpl; lia|lia|].
    apply wp_bind. eapply wp_array_get; [lia|rewrite E1; apply filled_lookup_app|].
    apply wp_bind. eapply wp_put_next; [apply lookup_insert_eq|rewrite !length_app; simpl; lia|lia|].
    apply wp_bind. eapply wp_put_next; [apply lookup_insert_eq|rewrite !length_app; simpl; lia|lia|].
    rewrite !insert_insert_eq, <- !(app_assoc [a1; a2; a3]), <- reg_entries_snoc by done.
    replace (Z.of_nat (length pids) + 1) with (Z.of_nat (length (pids ++ [x])))
      by (rewrite length_app; simpl; lia).
    replace (pids ++ x :: ids) with ((pids ++ [x]) ++ ids) in * by (by rewrite <- app_assoc).
    replace (pvals ++ v :: vals) with ((pvals ++ [v]) ++ vals) in * by (by rewrite <- app_assoc).
    apply IH; [apply lookup_insert_eq|rewrite !length_app; simpl; lia|lia
              |rewrite length_app; simpl; lia|]. rewrite insert_insert_eq. exact HQ.
Qed.

Lemma reg_count_ok (ids : list Z) :
  (1 <= length ids <= 64)%nat ->
  (Z.of_nat (length ids) =? 0) || (64 <? Z.of_nat (length ids)) = false.
Proof.
  intros H. destruct (Z.eqb_spec (Z.of_nat (length ids)) 0), (Z.ltb_spec 64 (Z.of_nat (length ids)));
    try done; lia.
Qed.

Lemma register_get_push_ok core thread type (ids : list Z) :
  (1 <= length ids <= 64)%nat ->
  pushes (D:=D) (sbefifo_register_get_push core thread type ids (Z.of_nat (length ids)))
    (msg_bytes ([3 + Z.of_nat (length ids); 0xA501;
                 register_word core thread type (Z.of_nat (length ids))] ++ ids)).
Proof.
  intros Hn h n s Q Hok HQ Hoom. unfold sbefifo_register_get_push. rewrite reg_count_ok by done.
  apply wp_bind, wp_malloc; intros Hc; cbn [is_null]; [|apply wp_fail, Hoom; by eapply oom_intro].
  rewrite filled_nil. put_nexts. apply wp_bind. rewrite Nat2Z.id.
  eapply (wp_put_reg_ids _ _ _ _ _ _ _ _ _ _ []); [apply lookup_insert_eq|simpl; lia|].
  rewrite insert_insert_eq. apply wp_ret. unfold filled.
  replace (Z.to_nat _ - _)%nat with 0%nat by (rewrite !length_app; simpl; lia).
  rewrite app_nil_r, app_nil_l. rewrite length_msg_bytes, length_app in HQ. simpl length in HQ.
  replace (Z.of_nat (4 * (3 + length ids))) with ((3 + Z.of_nat (length ids)) * 4) in HQ by lia.
  exact HQ.
Qed.

Lemma register_put_push_ok core thread type (ids vals : list Z) :
  (1 <= length ids <= 64)%nat -> length ids = length vals ->
  pushes (D:=D) (sbefifo_register_put_push core thread type ids (Z.of_nat (length ids)) vals)
    (msg_bytes ([3 + 3 * Z.of_nat (length ids); 0xA502;
                 register_word core thread type (Z.of_nat (length ids))] ++ reg_entries ids vals)).
Proof.
  intros Hn Hv h n s Q Hok HQ Hoom. unfold sbefifo_register_put_push. rewrite reg_count_ok by done.
  pose proof (length_reg_entries ids vals Hv) as El.
  apply wp_bind, wp_malloc; intros Hc; cbn [is_null]; [|apply wp_fail, Hoom; by eapply oom_intro].
  rewrite filled_nil. put_nexts. apply wp_bind. rewrite Nat2Z.id.
  eapply (wp_put_regs _ _ _ _ _ _ _ _ _ _ _ [] []); [apply lookup_insert_eq|done|done|simpl; lia|].
  rewrite insert_insert_eq. apply wp_ret. rewrite !app_nil_l. unfold filled.
  replace (Z.to_nat _ - _)%nat with 0%nat by (rewrite !length_app; simpl; lia).
  rewrite app_nil_r. rewrite length_msg_bytes, length_app, El in HQ. simpl length in HQ.
  replace (Z.of_nat (4 * (3 + 3 * length ids))) with ((3 + 3 * Z.of_nat (length ids)) * 4) in HQ by lia.
  exact HQ.
Qed.

(** The values of the registers read: [k] 64-bit words of the host. *)
Definition le64s (vals : list Z) : list Z := concat ((fun v => rev (be_bytes 8 v)) <$> vals).

Definition reg_vals (k : nat) (data : list Z) : list Z :=
  (fun i => be_val (slice (8 * i) 8 data)) <$> seq 0 k.

Definition rep_regs (p : ptr) (vals : list Z) (x : gmap nat (list mval)) : Prop :=
  exists b, p = Ptr b 0 /\ x = {[b := Some <$> le64s vals]}.

Definition dec_regs (k : nat) (data : list Z) : Z + list Z :=
  if Z.of_nat (length data) =? Z.of_nat k * 8 then inr (reg_vals k data) else inl EPROTO.

Lemma length_le64s vals : length (le64s vals) = (8 * length vals)%nat.
Proof.
  unfold le64s. induction vals as [|v vals IH]; [done|].
  rewrite fmap_cons. cbn [concat]. rewrite length_app, length_rev, length_be_bytes, IH. simpl. lia.
Qed.

Lemma le64s_snoc vals v : le64s (vals ++ [v]) = le64s vals ++ rev (be_bytes 8 v).
Proof.
  unfold le64s. rewrite fmap_app, concat_app. done.
Qed.

Lemma reg_vals_S i data : reg_vals (S i) data = reg_vals i data ++ [be_val (slice (8 * i) 8 data)].
Proof. unfold reg_vals. by rewrite seq_S, fmap_app. Qed.

Definition pulled (k : nat) (vals : list Z) : list mval :=
  (Some <$> le64s vals) ++ replicate (8 * k - 8 * length vals) None.

Lemma pulled_S k vals v :
  (length vals < k)%nat ->
  patch (8 * length vals) (Some <$> rev (be_bytes 8 v)) (pulled k vals) = pulled k (vals ++ [v]).
Proof.
  intros Hk. unfold pulled.
  pose proof (patch_end (Some <$> le64s vals) (Some <$> rev (be_bytes 8 v))
                (8 * k - 8 * length vals) None) as P.
  rewrite !length_fmap, length_le64s, length_rev, length_be_bytes in P. rewrite P by lia.
  rewrite le64s_snoc, fmap_app, length_app.
  do 2 f_equal. simpl. lia.
Qed.

Lemma wp_pull_regs k bv o len data n (s : sbe D) Q : forall j i h,
  (i + j = k)%nat -> length data = (8 * k)%nat -> points h o len data ->
  (forall b z, o = Ptr b z -> b <> bv) -> h !! bv = Some (pulled k (reg_vals i data)) ->
  Q (inr tt) (World (<[bv := pulled k (reg_vals k data)]> h) n s) ->
  wp (pull_regs j (Z.of_nat i) o (Ptr bv 0)) (World h n s) Q.
Proof.
  induction j as [|j IH]; intros i h Hk Hlen Hp Hne Hb HQ; cbn [pull_regs].
  - apply wp_ret. replace i with k in Hb by lia. rewrite insert_id in HQ by done. exact HQ.
  - assert (Hi : length (reg_vals i data) = i) by (unfold reg_vals; by rewrite length_fmap, length_seq).
    assert (Hby : Forall is_byte data) by apply Hp.
    apply wp_bind. unfold wp at 1. rewrite (load_reply h n s o len data (8 * i)) by (done || lia).
    apply wp_bind. unfold wp at 1. rewrite (load_reply h n s o len data (8 * i + 4)) by (done || lia).
    cbv zeta. rewrite be_val_halves by (done || lia).
    apply wp_bind. cbn [ptr_add]. eapply wp_store_bytes; [exact Hb|lia| |].
    { unfold pulled. rewrite !length_app, !length_fmap, length_rev, length_be_bytes,
        length_le64s, length_replicate. lia. }
    replace (Z.to_nat (0 + 8 * Z.of_nat i)) with (8 * length (reg_vals i data))%nat by lia.
    rewrite pulled_S, <- reg_vals_S by lia.
    replace (Z.of_nat i + 1) with (Z.of_nat (S i)) by lia.
    apply IH; [lia|done| |done|apply lookup_insert_eq|by rewrite insert_insert_eq].
    destruct Hp as (Hd & Hl & Ho). split_and!; [done..|]. destruct o as [|b z]; [done|].
    destruct Ho as [-> Ho]. split; [done|]. rewrite lookup_insert_ne; [done|]. intros ->. by eapply Hne.
Qed.

Lemma pulls_register_get k :
  pulls (D:=D) (sbefifo_register_get_pull (Z.of_nat k)) (dec_regs k) rep_regs.
Proof.
  intros h n s o len data Q Hok Hp Hrc HQ Hoom. assert (E := proj1 (proj2 Hp)).
  assert (Hfr := heap_ok_fresh _ _ Hok). unfold sbefifo_register_get_pull. rewrite E.
  unfold dec_regs in *. destruct (Z.eqb_spec (Z.of_nat (length data)) (Z.of_nat k * 8)) as [H8|];
    cbn [negb]; [|apply wp_fail; by apply Hrc].
  assert (Hne : forall b z, o = Ptr b z -> b <> n).
  { intros b z -> ->. destruct Hp as (_ & _ & _ & Hn). congruence. }
  apply wp_bind, wp_malloc; intros Hc; cbn [is_null]; [|apply wp_fail, Hoom; by eapply oom_intro].
  apply wp_bind. rewrite Nat2Z.id.
  eapply (wp_pull_regs k n o len data _ _ _ k 0); [lia|lia| |done| |].
  - destruct Hp as (Hd & Hl & Ho). split_and!; [done..|]. destruct o as [|b z]; [done|].
    destruct Ho as [-> Ho]. split; [done|]. rewrite lookup_insert_ne; [done|]. intros ->. by eapply Hne.
  - rewrite lookup_insert_eq. unfold pulled, reg_vals. simpl. rewrite Nat.sub_0_r. do 2 f_equal. lia.
  - rewrite insert_insert_eq. apply wp_ret. unfold pulled.
    replace (8 * k - _)%nat with 0%nat by (unfold reg_vals; rewrite length_fmap, length_seq; lia).
    rewrite app_nil_r, insert_union_singleton_l. eapply HQ; [done|by exists n| |].
    + by apply map_disjoint_singleton_l.
    + rewrite <- insert_union_singleton_l. eauto with cmem.
Qed.
End Registers.

(** ** Writing memory *)

Section MemPut.
Context {D : Type} {K : Kernel D} {DO : DataOk} {KO : KernelOk D} {Al : Allocator}.

(** A write whose address or length is not a multiple of the unit is refused. *)
Definition abs_mem_put (addr flags : Z) (data : list Z) (c : sbefifo_context) (a : aview D) : (Z + unit) * aview D :=
  if match mem_align flags with
     | Some al => (addr mod al =? 0) && (Z.of_nat (length data) mod al =? 0)
     | None => false
     end
  then abs_long c 30 (mem_put_req addr flags data) 0xA402 4 (dec_len 4 (fun _ => tt)) a
  else (inl EINVAL, a).

Lemma mem_put_refines addr flags (data : list Z) : 0 <= addr -> Z.of_nat (length data) + 24 < 2 ^ 32 ->
  refines (D:=D) rep_pure (sbefifo_mem_put addr (Some <$> data) (Z.of_nat (length data)) flags) (abs_mem_put addr flags data).
Proof.
  intros Ha Hl. unfold abs_mem_put. destruct (match mem_align flags with Some al => _ | None => _ end) eqn:Hg.
  - destruct (mem_align flags) as [al|] eqn:Hal; [|done].
    apply andb_prop in Hg as [G1 G2]. apply Z.eqb_eq in G1, G2.
    eapply (long_req_refines _ _ _ _ _ _ (mem_put_push_ok al addr data flags Hal Ha G1 G2 Hl));
      [|done|done|apply pulls_check|solve_hint].
    unfold mem_put_req. rewrite length_app, length_msg_bytes. simpl. lia.
  - intros c h h0 n d tr Hok Ho. unfold sbefifo_mem_put. rewrite mem_put_push_refused by (done || lia).
    apply wp_bind, wp_fail, cmd_post_early; try done. right. done.
Qed.
End MemPut.
