(* ===== verification/SbeMemory.v ===== *)
(** * libsbefifo: reading memory and SRAM

    The memory read of cmd_memory.c: the window of whole units it asks for, the
    loop that drops the tag and ECC bytes, and the part of the window it hands
    over. The SBE is described by the memory it serves. *)

From S2P Require Import Prelude CMem SbeCore SbeCoreFacts SbeCmds SbeDataCmds SbeCmdFacts SbeSpec.
From S2P Require Import SbeDataSpec.

(** The [n] bytes of the memory [m] from address [a]. *)
Definition region (m : Z -> Z) (a n : Z) : list Z := m <$> seqZ a n.

Lemma length_region m a n : 0 <= n -> Z.of_nat (length (region m a n)) = n.
Proof. intros H. unfold region. rewrite length_fmap, length_seqZ. lia. Qed.

Lemma region_app m a n k : 0 <= n -> 0 <= k -> region m a (n + k) = region m a n ++ region m (a + n) k.
Proof. intros Hn Hk. unfold region. by rewrite seqZ_app, fmap_app. Qed.

Lemma slice_region m a n o k :
  0 <= o -> 0 <= k -> o + k <= n ->
  slice (Z.to_nat o) (Z.to_nat k) (region m a n) = region m (a + o) k.
Proof.
  intros Ho Hk Hn. replace n with (o + (k + (n - o - k))) by lia.
  rewrite !region_app by lia.
  rewrite slice_app_r by (pose proof (length_region m a o); lia).
  rewrite slice_app_l by (pose proof (length_region m a o); pose proof (length_region m (a + o) k); lia).
  unfold slice. replace (Z.to_nat o - _)%nat with 0%nat
    by (pose proof (length_region m a o); lia).
  rewrite drop_0, take_ge by (pose proof (length_region m (a + o) k); lia). done.
Qed.

(** ** The window *)

Definition win_start (al addr : Z) : Z := addr - addr mod al.
Definition win_end (al addr size : Z) : Z := addr + size + (al - 1) - (addr + size + (al - 1)) mod al.
Definition win_len (al addr size : Z) : Z := win_end al addr size - win_start al addr.

(** The window is made of whole units, covers the bytes asked for, and is at
    most two units longer. *)
Lemma win_ok al addr size :
  0 < al -> 0 <= size ->
  win_start al addr <= addr /\ addr + size <= win_start al addr + win_len al addr size /\
  win_len al addr size mod al = 0 /\ 0 <= win_len al addr size <= size + 2 * al.
Proof.
  intros Hal Hs. unfold win_len, win_end, win_start.
  pose proof (Z.mod_pos_bound addr al Hal).
  pose proof (Z.mod_pos_bound (addr + size + (al - 1)) al Hal).
  assert (E : forall x, x - x mod al = al * (x / al)) by (intros; by apply div_mul_add_mod).
  assert ((addr - addr mod al) <= addr + size + (al - 1) - (addr + size + (al - 1)) mod al).
  { rewrite !E. apply Z.mul_le_mono_nonneg_l; [lia|]. apply Z.div_le_mono; lia. }
  split_and!; try lia. rewrite !E, <- Z.mul_sub_distr_l, Z.mul_comm. apply Z.mod_mul. lia.
Qed.

Lemma align_down64_spec flags al x :
  mem_align flags = Some al -> in_range 64 x -> align_down64 al x = x - x mod al.
Proof.
  intros Hal Hx. unfold align_down64, mem_align in *.
  destruct (truthy _); [|destruct (truthy _); [|done]]; simplify_eq.
  - change (u64 (Z.lnot (8 - 1))) with (2 ^ 64 - 2 ^ 3). apply (land_align 64 3); [lia|done].
  - change (u64 (Z.lnot (128 - 1))) with (2 ^ 64 - 2 ^ 7). apply (land_align 64 7); [lia|done].
Qed.

Lemma al_bounds flags al : mem_align flags = Some al -> 0 < al <= 128.
Proof.
  unfold mem_align. destruct (truthy _); [|destruct (truthy _); [|done]]; intros; simplify_eq; lia.
Qed.

Definition mem_get_req (al addr size flags : Z) : list mval :=
  msg_bytes ([6; 0xA401; flags] ++ u64_words (win_start al addr) ++ [win_len al addr size]).

Section Push.
Context {D : Type} {K : Kernel D} {Al : Allocator}.
Context (flags al addr size : Z).
Hypothesis Hal : mem_align flags = Some al.
Hypothesis Haddr : 0 <= addr.
Hypothesis Hsize : 0 <= size < 2 ^ 31.
Hypothesis Htop : addr + size + (al - 1) < 2 ^ 64.

Lemma mem_get_push_ok :
  pushes (D:=D) (sbefifo_mem_get_push addr size flags) (mem_get_req al addr size flags).
Proof.
  unfold sbefifo_mem_get_push. rewrite Hal. cbv zeta. pose proof (al_bounds _ _ Hal) as Hb.
  destruct (win_ok al addr size) as (H1 & H2 & H3 & H4); [lia..|].
  rewrite !(align_down64_spec flags al) by (try done; rewrite ?wrap_small; solve_range).
  rewrite (wrap_small 64 (addr + size + (al - 1))) by solve_range.
  fold (win_start al addr) (win_end al addr size). fold (win_len al addr size).
  rewrite !wrap_small by solve_range.
  destruct (Z.ltb_spec UINT32_MAX (win_len al addr size)) as [Hbig|_].
  { unfold UINT32_MAX in Hbig. lia. }
  intros h n s Q Hok HQ Hoom. apply wp_bind, wp_malloc; intros Hc; cbn [is_null].
  - put_words. apply wp_ret. exact HQ.
  - apply wp_fail, Hoom. by eapply oom_intro.
Qed.

(** The reply length the command expects. *)
Definition mem_get_hint : Z :=
  let len := win_len al addr size in
  len + (if truthy (Z.land flags SBEFIFO_MEMORY_FLAG_ECC_REQ)
            || truthy (Z.land flags SBEFIFO_MEMORY_FLAG_TAG_REQ) then len / 8 else 0) + 4.

Lemma mem_get_hint_ok : hint_ok mem_get_hint.
Proof.
  pose proof (al_bounds _ _ Hal) as Hb. destruct (win_ok al addr size) as (H1 & H2 & H3 & H4); [lia..|].
  unfold hint_ok, mem_get_hint, SBEFIFO_MAX_FFDC_SIZE.
  pose proof (Z.div_mod (win_len al addr size) 8 ltac:(lia)).
  pose proof (Z.mod_pos_bound (win_len al addr size) 8 ltac:(lia)).
  destruct (_ || _); lia.
Qed.

Lemma wp_mem_get_out_len h n (s : sbe D) Q :
  h !! n = Some (mem_get_req al addr size flags) ->
  Q (inr mem_get_hint) (World h (S n) s) ->
  wp (mem_get_out_len flags (Ptr n 0)) (World h (S n) s) Q.
Proof.
  intros Hn HQ. pose proof (al_bounds _ _ Hal) as Hb.
  destruct (win_ok al addr size) as (H1 & H2 & H3 & H4); [lia..|].
  apply wp_bind. simpl ptr_add.
  eapply (wp_load_be32 _ _ _ (be_bytes 4 (win_len al addr size))); [exact Hn|lia|by vm_compute|done|].
  rewrite be_val_be32, wrap_small by solve_range. apply wp_ret. cbv zeta.
  pose proof mem_get_hint_ok as Hh. unfold hint_ok, SBEFIFO_MAX_FFDC_SIZE in Hh.
  match goal with |- Q (inr (u32 ?e)) _ => replace e with mem_get_hint end.
  - rewrite wrap_small by solve_range. exact HQ.
  - unfold mem_get_hint.
    by destruct (truthy (Z.land flags SBEFIFO_MEMORY_FLAG_ECC_REQ)),
      (truthy (Z.land flags SBEFIFO_MEMORY_FLAG_TAG_REQ)).
Qed.
End Push.

(** ** The copy loop *)

(** Size of a group: eight data bytes, then the tag byte and the ECC byte. *)
Definition group_size (do_tag do_ecc : bool) : nat :=
  (8 + (if do_tag then 1 else 0) + (if do_ecc then 1 else 0))%nat.

(** The data bytes of the first [k] groups. *)
Fixpoint payload (g k : nat) (data : list Z) : list Z :=
  match k with
  | O => []
  | S k' => payload g k' data ++ slice (g * k') 8 data
  end.

Lemma length_payload g k data :
  (8 <= g)%nat -> (g * k <= length data)%nat -> length (payload g k data) = (8 * k)%nat.
Proof.
  intros Hg. induction k as [|k IH]; intros Hk; [done|].
  simpl payload. rewrite length_app, IH, length_slice by lia. lia.
Qed.

(** The source index after a group. *)
Lemma next_group (do_tag do_ecc : bool) i :
  0 <= i -> i + Z.of_nat (group_size do_tag do_ecc) < 2 ^ 32 ->
  (if do_ecc then u32 ((if do_tag then u32 (u32 (i + 8) + 1) else u32 (i + 8)) + 1)
   else if do_tag then u32 (u32 (i + 8) + 1) else u32 (i + 8))
  = i + Z.of_nat (group_size do_tag do_ecc).
Proof.
  unfold group_size. intros Hi Hlt.
  rewrite !(wrap_small 32 (i + 8)) by (destruct do_tag, do_ecc; solve_range).
  destruct do_tag, do_ecc; rewrite ?(wrap_small 32 (i + 8 + 1)) by solve_range;
    rewrite ?wrap_small by solve_range; lia.
Qed.

Section Loop.
Context {D : Type} {K : Kernel D} {Al : Allocator}.
Context (do_tag do_ecc : bool) (bd bs : nat) (data : list Z) (L : Z).
Let g := group_size do_tag do_ecc.
Hypothesis Hne : bd <> bs.
Hypothesis Hfit : L <= Z.of_nat (length data).
Hypothesis Hlim : L < 2 ^ 32.

(** The block being filled, [k] groups done. *)
Definition copied (k : nat) : list mval :=
  (Some <$> payload g k data) ++ replicate (Z.to_nat L - 8 * k) None.

Lemma group_bounds : (8 <= g <= 10)%nat.
Proof. unfold g, group_size. destruct do_tag, do_ecc; lia. Qed.

Lemma copied_S k :
  (Z.of_nat (g * S k) <= L) ->
  patch (8 * k) (Some <$> slice (g * k) 8 data) (copied k) = copied (S k).
Proof.
  intros Hk. pose proof group_bounds. unfold copied.
  assert (E : length (Some <$> payload g k data : list mval) = (8 * k)%nat)
    by (rewrite length_fmap, length_payload; lia).
  assert (E8 : length (Some <$> slice (g * k) 8 data : list mval) = 8%nat)
    by (rewrite length_fmap, length_slice; lia).
  pose proof (patch_end (Some <$> payload g k data) (Some <$> slice (g * k) 8 data)
                (Z.to_nat L - 8 * k) None) as P.
  rewrite E, E8 in P. rewrite P by nia. simpl payload. rewrite fmap_app.
  do 2 f_equal. lia.
Qed.

Lemma length_copied k : (Z.of_nat (g * k) <= L) -> Z.of_nat (length (copied k)) = L.
Proof.
  intros Hk. pose proof group_bounds. unfold copied.
  rewrite length_app, length_fmap, length_payload, length_replicate by lia. nia.
Qed.

Lemma wp_mem_copy_loop k : forall i fuel h n (s : sbe D) Q,
  L = Z.of_nat (g * (i + k)) -> (k < fuel)%nat ->
  h !! bd = Some (copied i) -> h !! bs = Some (Some <$> data) ->
  Q (inr tt) (World (<[bd := copied (i + k)]> h) n s) ->
  wp (mem_copy_loop fuel do_tag do_ecc (Ptr bd 0) (Ptr bs 0)
        (Z.of_nat (g * i)) (Z.of_nat (8 * i)) L) (World h n s) Q.
Proof.
  pose proof group_bounds as Hg.
  induction k as [|k IH]; intros i fuel h n s Q HL Hf Hd Hs HQ; (destruct fuel as [|fuel]; [lia|]);
    cbn [mem_copy_loop].
  - destruct (Z.ltb_spec (Z.of_nat (g * i)) L); [lia|]. apply wp_ret.
    rewrite Nat.add_0_r, insert_id in HQ by done. exact HQ.
  - destruct (Z.ltb_spec (Z.of_nat (g * i)) L) as [Hlt|]; [|nia].
    assert (Hi : Z.of_nat (g * S i) <= L)
      by (rewrite HL; apply inj_le, Nat.mul_le_mono_l; lia).
    assert (Hgi : (g * S i = g * i + g)%nat) by lia.
    apply wp_bind. cbn [ptr_add].
    eapply wp_memcpy; [exact Hd|exact Hs|lia|lia|lia| |rewrite length_fmap; lia|].
    { rewrite length_copied by lia. nia. }
    rewrite !Z.add_0_l, !Nat2Z.id. change (Z.to_nat 8) with 8%nat.
    rewrite slice_map, copied_S by lia. cbv zeta.
    rewrite next_group by (fold g; lia). fold g.
    replace (Z.of_nat (g * i) + Z.of_nat g) with (Z.of_nat (g * S i)) by lia.
    rewrite (wrap_small 32 (Z.of_nat (8 * i) + 8)) by solve_range.
    replace (Z.of_nat (8 * i) + 8) with (Z.of_nat (8 * S i)) by lia.
    apply IH; [nia|lia|apply lookup_insert_eq|by rewrite lookup_insert_ne|].
    rewrite insert_insert_eq. replace (S i + k)%nat with (i + S k)%nat by lia. exact HQ.
Qed.

Lemma wp_mem_copy_all k fuel h n (s : sbe D) Q :
  L = Z.of_nat (g * k) -> (k < fuel)%nat ->
  h !! bd = Some (replicate (Z.to_nat L) None) -> h !! bs = Some (Some <$> data) ->
  Q (inr tt) (World (<[bd := copied k]> h) n s) ->
  wp (mem_copy_loop fuel do_tag do_ecc (Ptr bd 0) (Ptr bs 0) 0 0 L) (World h n s) Q.
Proof.
  intros HL Hf Hd Hs HQ. pose proof (wp_mem_copy_loop k 0 fuel h n s Q) as H.
  rewrite !Nat.mul_0_r in H. apply H; try done. rewrite Hd. unfold copied. simpl app.
  by rewrite Nat.sub_0_r.
Qed.
End Loop.

(** ** The reply *)

(** The memory the command hands over: a block whose first [size] bytes are the
    result. *)
Definition rep_mem (size : Z) (p : ptr) (bytes : list Z) (x : gmap nat (list mval)) : Prop :=
  exists b l, p = Ptr b 0 /\ x = {[b := l]} /\ take (Z.to_nat size) l = Some <$> bytes /\ length bytes = Z.to_nat size.

Definition flags_group (flags : Z) : nat :=
  group_size (truthy (Z.land flags SBEFIFO_MEMORY_FLAG_TAG_REQ))
             (truthy (Z.land flags SBEFIFO_MEMORY_FLAG_ECC_REQ)).

(** The reply data is [k] groups, then their length. *)
Definition mem_groups (g k : nat) (data : list Z) : Prop :=
  Z.of_nat (length data) = Z.of_nat (g * k) + 4 /\ last_word data = Z.of_nat (g * k).

Section Pull.
Context {D : Type} {K : Kernel D} {DO : DataOk} {Al : Allocator}.
Context (flags al addr size : Z) (k : nat).
Hypothesis Hal : mem_align flags = Some al.
Hypothesis Haddr : in_range 64 addr.
Hypothesis Hsize : 0 <= size.
Hypothesis Hroom : addr mod al + size <= Z.of_nat (8 * k).

(** Moving the bytes asked for to the front of the block. *)
Lemma wp_shift_front h n (s : sbe D) b (bytes : list Z) pad Q :
  h !! b = Some ((Some <$> bytes) ++ pad) -> length bytes = (8 * k)%nat ->
  (forall l, take (Z.to_nat size) l = Some <$> slice (Z.to_nat (addr mod al)) (Z.to_nat size) bytes ->
     Q (inr (Ptr b 0)) (World (<[b := l]> h) n s)) ->
  wp ((if truthy (addr mod al) then memcpy (Ptr b 0) (ptr_add (Ptr b 0) (addr mod al)) size
       else mret tt);; mret (Ptr b 0)) (World h n s) Q.
Proof.
  intros Hb Hlen HQ. pose proof (al_bounds flags al Hal) as Hpos.
  pose proof (Z.mod_pos_bound addr al ltac:(lia)).
  apply wp_bind. unfold truthy. destruct (Z.eqb_spec (addr mod al) 0) as [E|E]; cbn [negb].
  - apply wp_ret, wp_ret. rewrite <- (insert_id h b _ Hb). apply HQ. rewrite E.
    rewrite take_app_le by (rewrite length_fmap; lia). rewrite <- fmap_take. done.
  - simpl ptr_add. eapply wp_memcpy; try done; try lia;
      [rewrite length_app, length_fmap; lia..|]. apply wp_ret, HQ.
    unfold patch. change (Z.to_nat 0) with 0%nat. rewrite take_0, app_nil_l, take_app_length'.
    + rewrite slice_app_l by (rewrite length_fmap; lia). apply slice_map.
    + rewrite length_slice; [done|]. rewrite length_app, length_fmap. lia.
Qed.

Lemma wp_mem_get_pull h n (s : sbe D) o len data Q :
  heap_ok h n -> points h o len data -> mem_groups (flags_group flags) k data ->
  (forall p x n', rep_mem size p (slice (Z.to_nat (addr mod al)) (Z.to_nat size)
                                   (payload (flags_group flags) k data)) x ->
     x ##ₘ h -> heap_ok (x ∪ h) n' -> Q (inr p) (World (x ∪ h) n' s)) ->
  (oom -> Q (inl ENOMEM) (World h (S n) s)) ->
  wp (sbefifo_mem_get_pull addr size flags o len) (World h n s) Q.
Proof.
  intros Hok Hp [Hlen Hlast] HQ Hoom. destruct (Hp) as ((Hby & Hlt & _) & Elen & Ho).
  assert (Hfr := heap_ok_fresh _ _ Hok). unfold sbefifo_mem_get_pull.
  destruct (Z.ltb_spec len 4) as [|H4]; [lia|].
  apply wp_bind. eapply wp_load_last; [done|done|done|]. rewrite Hlast.
  apply wp_bind, wp_malloc; intros Hc; cbn [is_null].
  2: { apply wp_fail, Hoom. by eapply oom_intro. }
  rewrite Hal. destruct o as [|b off]; [subst data; simpl in *; lia|]. destruct Ho as [-> Hb].
  assert (n <> b) by congruence. cbv zeta.
  apply wp_bind. eapply (wp_mem_copy_all _ _ n b data) with (k := k); try done; try lia.
  - rewrite Nat2Z.id. unfold flags_group, group_size. lia.
  - apply lookup_insert_eq.
  - rewrite lookup_insert_ne by done. exact Hb.
  - rewrite insert_insert_eq. rewrite (align_down64_spec flags al) by done.
    replace (addr - (addr - addr mod al)) with (addr mod al) by lia.
    pose proof (al_bounds flags al Hal). pose proof (Z.mod_pos_bound addr al ltac:(lia)).
    rewrite wrap_small by solve_range.
    eapply wp_shift_front; [apply lookup_insert_eq|apply length_payload|].
    { unfold flags_group, group_size. lia. }
    { fold (flags_group flags). lia. }
    intros l Hl. rewrite insert_insert_eq, insert_union_singleton_l. apply HQ.
    + exists n, l. split_and!; try done. apply length_slice. rewrite length_payload by (first [lia | unfold flags_group, group_size; lia]). lia.
    + by apply map_disjoint_singleton_l.
    + rewrite <- insert_union_singleton_l. eauto with cmem.
Qed.
End Pull.

(** ** The SBE as a memory *)

(** [k] groups of the memory [m] from address [a], each followed by its [extra]
    bytes, then the number of bytes sent. *)
Definition serve (m : Z -> Z) (a : Z) (g k : nat) (extra : nat -> list Z) : list Z :=
  concat ((fun i => region m (a + 8 * Z.of_nat i) 8 ++ extra i) <$> seq 0 k)
  ++ be_bytes 4 (Z.of_nat (g * k)).

Definition serves (m : Z -> Z) (flags a len : Z) (data : list Z) : Prop :=
  exists extra, (forall i, length (extra i) = flags_group flags - 8)%nat /\
    data = serve m a (flags_group flags) (Z.to_nat (len / 8)) extra.

Section Serve.
Context (m : Z -> Z) (a : Z) (g k : nat) (extra : nat -> list Z).
Hypothesis Hg : (8 <= g)%nat.
Hypothesis Hextra : forall i, (length (extra i) = g - 8)%nat.

Let groups := (fun i => region m (a + 8 * Z.of_nat i) 8 ++ extra i) <$> seq 0 k.

Lemma groups_length : Forall (fun l => length l = g) groups.
Proof.
  apply Forall_fmap, Forall_true. intros i. unfold compose. rewrite length_app, Hextra.
  pose proof (length_region m (a + 8 * Z.of_nat i) 8 ltac:(lia)). lia.
Qed.

Lemma serve_payload j : (j <= k)%nat ->
  payload g j (serve m a g k extra) = region m a (8 * Z.of_nat j).
Proof.
  induction j as [|j IH]; intros Hj; [done|]. simpl payload. rewrite IH by lia.
  unfold serve. fold groups. rewrite (slice_concat g 8 groups _ j
    (region m (a + 8 * Z.of_nat j) 8 ++ extra j)); [|apply groups_length| |lia].
  - rewrite take_app_length' by (pose proof (length_region m (a + 8 * Z.of_nat j) 8); lia).
    replace (8 * Z.of_nat (S j)) with (8 * Z.of_nat j + 8) by lia. by rewrite region_app by lia.
  - unfold groups. rewrite list_lookup_fmap, lookup_seq_lt by lia. done.
Qed.

Lemma serve_groups :
  Z.of_nat (length (serve m a g k extra)) < 2 ^ 32 -> mem_groups g k (serve m a g k extra).
Proof.
  assert (E : length (concat groups) = (g * k)%nat).
  { rewrite (length_concat_const _ _ groups_length). unfold groups. by rewrite length_fmap, length_seq. }
  unfold mem_groups, last_word, serve. fold groups.
  rewrite length_app, length_be_bytes, E.
  intros Hlim. split; [lia|]. rewrite slice_app_r by lia. rewrite E.
  replace (g * k + 4 - 4 - g * k)%nat with 0%nat by lia. unfold slice.
  rewrite drop_0, take_ge by (rewrite length_be_bytes; lia).
  rewrite be_val_be32. apply wrap_small. solve_range.
Qed.
End Serve.

(** The units are multiples of eight bytes. *)
Lemma win_len_8 flags al addr size :
  mem_align flags = Some al -> 0 <= size ->
  8 * Z.of_nat (Z.to_nat (win_len al addr size / 8)) = win_len al addr size.
Proof.
  intros Hal Hs. pose proof (al_bounds _ _ Hal).
  destruct (win_ok al addr size) as (_ & _ & H0 & H1); [lia..|].
  rewrite Z2Nat.id by (apply Z.div_pos; lia). symmetry. apply Z.div_exact; [lia|].
  apply Z.mod_divide in H0 as [j ->]; [|lia]. unfold mem_align in Hal.
  destruct (truthy _); [|destruct (truthy _); [|done]]; simplify_eq.
  - apply Z.mod_mul. lia.
  - replace (j * 128) with (j * 16 * 8) by lia. apply Z.mod_mul. lia.
Qed.

Section MemGet.
Context {D : Type} {K : Kernel D} {DO : DataOk} {KO : KernelOk D} {Al : Allocator}.
Context (m : Z -> Z) (flags al addr size : Z).
Hypothesis Hal : mem_align flags = Some al.
Hypothesis Haddr : 0 <= addr.
Hypothesis Hsize : 0 <= size < 2 ^ 31.
Hypothesis Htop : addr + size + (al - 1) < 2 ^ 64.
Hypothesis Hserves : forall data, data_ok data ->
  serves m flags (win_start al addr) (win_len al addr size) data.

Lemma pulls_mem_get :
  pulls (D:=D) (sbefifo_mem_get_pull addr size flags)
    (fun _ => inr (region m addr size)) (rep_mem size).
Proof.
  intros h n s o len data Q Hok Hp _ HQ Hoom. destruct (Hp) as ((_ & Hlt & Hd) & _ & _).
  destruct (Hserves data Hd) as (extra & Hextra & ->).
  set (k := Z.to_nat (win_len al addr size / 8)) in *.
  assert (Hg : (8 <= flags_group flags)%nat) by (unfold flags_group, group_size; lia).
  pose proof (win_len_8 flags al addr size Hal ltac:(lia)) as Hk. fold k in Hk.
  pose proof (al_bounds _ _ Hal).
  destruct (win_ok al addr size) as (H1 & H2 & _ & _); [lia..|].
  assert (Hroom : addr mod al + size <= Z.of_nat (8 * k)) by (unfold win_start in *; lia).
  eapply (wp_mem_get_pull flags al addr size k); try done; [solve_range|lia| |].
  - apply serve_groups; auto.
  - intros p x n' Hrep. eapply HQ; [done|].
    rewrite serve_payload in Hrep by auto. rewrite Hk in Hrep.
    pose proof (Z.mod_pos_bound addr al ltac:(lia)).
    rewrite slice_region in Hrep by lia. unfold win_start in Hrep.
    replace (addr - addr mod al + addr mod al) with addr in Hrep by lia. done.
Qed.

Lemma mem_get_refines :
  refines (D:=D) (rep_mem size) (sbefifo_mem_get addr size flags)
    (fun c => abs_long c 30 (mem_get_req al addr size flags) 0xA401
                (mem_get_hint flags al addr size) (fun _ => inr (region m addr size))).
Proof.
  intros c h h0 n d tr Hok Ho.
  apply (long_cmd_spec (sbefifo_mem_get_push addr size flags) (mem_get_req al addr size flags) 0xA401
           (sbefifo_mem_get_pull addr size flags)) with (get_hint := mem_get_out_len flags); try done.
  - by apply mem_get_push_ok.
  - unfold mem_get_req. rewrite length_msg_bytes. simpl. lia.
  - apply pulls_mem_get.
  - intros. eapply wp_mem_get_out_len; try done.
  - by apply mem_get_hint_ok.
Qed.
End MemGet.

(** ** SRAM *)

(** The SBE sends the bytes of the window and their number. *)
Definition serves_sram (m : Z -> Z) (a len : Z) (data : list Z) : Prop :=
  data = region m a len ++ be_bytes 4 len.

Definition sram_get_req (chiplet_id addr size mode : Z) : list mval :=
  msg_bytes ([6; 0xA403; Z.lor (u32 (Z.shiftl chiplet_id 16)) mode]
             ++ u64_words (win_start 8 addr) ++ [win_len 8 addr size / 8]).

(** The block has [size] bytes; the length reported is that of the window. *)
Definition rep_sram (win : Z) (r : ptr * Z) (bytes : list Z) (x : gmap nat (list mval)) : Prop :=
  exists b, r = (Ptr b 0, win) /\ x = {[b := Some <$> bytes]}.

Lemma align_down32_spec x : in_range 32 x -> align_down32 8 x = x - x mod 8.
Proof.
  intros Hx. unfold align_down32. change (u32 (Z.lnot (8 - 1))) with (2 ^ 32 - 2 ^ 3).
  by apply (land_align 32 3).
Qed.

Section Sram.
Context {D : Type} {K : Kernel D} {DO : DataOk} {KO : KernelOk D} {Al : Allocator}.
Context (m : Z -> Z) (chiplet_id addr size mode : Z).
Hypothesis Haddr : 0 <= addr.
Hypothesis Hsize : 0 <= size.
Hypothesis Htop : addr + size + 7 < 2 ^ 32.

Lemma sram_win :
  win_start 8 addr <= addr /\ addr + size <= win_start 8 addr + win_len 8 addr size /\
  win_len 8 addr size mod 8 = 0 /\ 0 <= win_len 8 addr size <= addr + size + 7.
Proof.
  destruct (win_ok 8 addr size) as (? & ? & ? & ? & ?); [lia..|].
  split_and!; try done. unfold win_len, win_end, win_start.
  pose proof (Z.mod_pos_bound (addr + size + (8 - 1)) 8 ltac:(lia)).
  pose proof (Z.mod_le addr 8 Haddr ltac:(lia)). lia.
Qed.

Lemma sram_get_push_ok :
  pushes (D:=D) (sbefifo_sram_get_push chiplet_id addr size mode)
    (sram_get_req chiplet_id addr size mode).
Proof.
  unfold sbefifo_sram_get_push. cbv zeta. destruct sram_win as (H1 & H2 & H3 & H4).
  rewrite (wrap_small 64 (addr + size + (8 - 1))) by solve_range.
  rewrite !align_down32_spec by solve_range.
  fold (win_start 8 addr) (win_end 8 addr size).
  destruct (Z.ltb_spec (win_end 8 addr size) (win_start 8 addr)) as [Hlt|_].
  { unfold win_len in H4. lia. }
  fold (win_len 8 addr size).
  assert (0 <= win_len 8 addr size / 8 <= win_len 8 addr size)
    by (split; [apply Z.div_pos; lia|apply Z.div_le_upper_bound; lia]).
  rewrite (wrap_small 32 (win_len 8 addr size / 8)) by solve_range.
  intros h n s Q Hok HQ Hoom. apply wp_bind, wp_malloc; intros Hc; cbn [is_null].
  - put_words. apply wp_ret. exact HQ.
  - apply wp_fail, Hoom. by eapply oom_intro.
Qed.

Lemma wp_sram_get_out_len h n (s : sbe D) Q :
  h !! n = Some (sram_get_req chiplet_id addr size mode) ->
  Q (inr (win_len 8 addr size / 8 + 4)) (World h (S n) s) ->
  wp (sram_get_out_len (Ptr n 0)) (World h (S n) s) Q.
Proof.
  intros Hn HQ. destruct sram_win as (H1 & H2 & H3 & H4).
  assert (0 <= win_len 8 addr size / 8 < 536870912)
    by (split; [apply Z.div_pos; lia|apply Z.div_lt_upper_bound; lia]).
  apply wp_bind. cbn [ptr_add].
  eapply (wp_load_be32 _ _ _ (be_bytes 4 (win_len 8 addr size / 8))); [exact Hn|lia|by vm_compute|done|].
  rewrite be_val_be32, (wrap_small 32 (_ / 8)) by (unfold in_range; lia). apply wp_ret.
  rewrite wrap_small by (unfold in_range; lia). exact HQ.
Qed.

Hypothesis Hserves : forall data, data_ok data ->
  serves_sram m (win_start 8 addr) (win_len 8 addr size) data.

Lemma pulls_sram_get :
  pulls (D:=D) (sbefifo_sram_get_pull addr size) (fun _ => inr (region m addr size))
    (rep_sram (win_len 8 addr size)).
Proof.
  intros h n s o len data Q Hok Hp _ HQ Hoom. destruct (Hp) as ((_ & Hlt & Hd) & E & _).
  pose proof (Hserves data Hd) as Hs. unfold serves_sram in Hs.
  destruct sram_win as (H1 & H2 & H3 & H4).
  pose proof (length_region m (win_start 8 addr) (win_len 8 addr size) ltac:(lia)) as Hl.
  assert (El : Z.of_nat (length data) = win_len 8 addr size + 4)
    by (rewrite Hs, length_app, length_be_bytes; lia).
  assert (Elast : last_word data = win_len 8 addr size).
  { unfold last_word. rewrite Hs, slice_app_r by (rewrite length_app, length_be_bytes; lia).
    rewrite length_app, length_be_bytes.
    match goal with |- context [slice ?k 4 _] => replace k with 0%nat by lia end.
    unfold slice. rewrite drop_0, take_ge by (rewrite length_be_bytes; lia).
    rewrite be_val_be32. apply wrap_small. solve_range. }
  unfold sbefifo_sram_get_pull. destruct (Z.ltb_spec len 4) as [|Hl4]; [lia|].
  apply wp_bind. eapply wp_load_last; [done|done|done|]. rewrite Elast.
  destruct (Z.ltb_spec (win_len 8 addr size) size) as [|_]; [lia|].
  rewrite align_down32_spec by solve_range. fold (win_start 8 addr). cbv zeta.
  unfold win_start at 1. replace (addr - (addr - addr mod 8)) with (addr mod 8) by lia.
  pose proof (Z.mod_pos_bound addr 8 ltac:(lia)). rewrite wrap_small by solve_range.
  assert (Ew : win_start 8 addr = addr - addr mod 8) by done.
  eapply wp_copy_out; try done; [lia..|].
  intros x n' [_ (b & Eb & Ex)] Hx Hok'. apply HQ with (b := region m addr size); try done.
  exists b. simpl in Eb. rewrite Eb. split; [done|]. rewrite Ex. do 2 f_equal.
  rewrite Hs, slice_app_l by lia.
  rewrite slice_region by lia. f_equal. lia.
Qed.

Lemma sram_get_refines :
  refines (D:=D) (rep_sram (win_len 8 addr size)) (sbefifo_sram_get chiplet_id addr size mode)
    (fun c a => if proc c =? SBEFIFO_PROC_P9 then (inl ENOSYS, a) else
       abs_long c 30 (sram_get_req chiplet_id addr size mode) 0xA403
         (win_len 8 addr size / 8 + 4) (fun _ => inr (region m addr size)) a).
Proof.
  eapply (guarded_refines _ _ _ (fun c => proc c =? SBEFIFO_PROC_P9)).
  intros c h h0 n d tr Hok Ho. destruct sram_win as (H1 & H2 & H3 & H4).
  apply (long_cmd_spec (sbefifo_sram_get_push chiplet_id addr size mode)
           (sram_get_req chiplet_id addr size mode) 0xA403 (sbefifo_sram_get_pull addr size))
    with (get_hint := sram_get_out_len); try done.
  - apply sram_get_push_ok.
  - unfold sram_get_req. rewrite length_msg_bytes. simpl. lia.
  - apply pulls_sram_get.
  - intros. by eapply wp_sram_get_out_len.
  - assert (0 <= win_len 8 addr size / 8 < 536870912)
      by (split; [apply Z.div_pos; lia|apply Z.div_lt_upper_bound; lia]).
    unfold hint_ok, SBEFIFO_MAX_FFDC_SIZE. lia.
Qed.
End Sram.
