(* ===== verification/SbeSession.v ===== *)
(** * libsbefifo: sessions

    A session connects, runs commands one after the other whatever they
    return, and disconnects. Each command leaves the memory it found and the
    FFDC block of the context, so the session as a whole gives everything
    back. *)

From S2P Require Import Prelude CMem SbeCore SbeCoreFacts SbeCmdFacts SbeCmds SbeDataCmds SbeSpec.

(** ** libsbefifo: printing the FFDC packages

    ffdc.c walks the FFDC buffer package by package. The walk ends and stays
    inside the buffer whatever the SBE put there, and prints the packages of a
    well-formed buffer. *)

(** A package, and the words that carry it. *)
Record ffdc_pkg := FfdcPkg {
  pkg_seq : Z;
  pkg_cmd : Z;
  pkg_rc : Z;
  pkg_data : list Z
}.

Definition pkg_words (p : ffdc_pkg) : list Z :=
  [Z.lor (Z.shiftl 0xffdc 16) (3 + Z.of_nat (length (pkg_data p)));
   Z.lor (Z.shiftl (pkg_seq p) 16) (pkg_cmd p); pkg_rc p] ++ pkg_data p.

Definition pkg_lines (p : ffdc_pkg) : list event :=
  EvPrint <$> ([FfdcSequence (pkg_seq p); FfdcCommand (pkg_cmd p); FfdcRc (pkg_rc p)]
               ++ (FfdcData <$> pkg_data p)).

Definition pkg_ok (p : ffdc_pkg) : Prop :=
  in_range 16 (pkg_seq p) /\ in_range 16 (pkg_cmd p) /\ in_range 32 (pkg_rc p) /\
  Forall (in_range 32) (pkg_data p) /\ 3 + Z.of_nat (length (pkg_data p)) < 2 ^ 16.

Definition be_words (ws : list Z) : list Z := concat (be_bytes 4 <$> ws).

Lemma be_words_const ws : Forall (fun l => length l = 4%nat) (be_bytes 4 <$> ws).
Proof. apply Forall_fmap, Forall_true. intros w. apply length_be_bytes. Qed.

Lemma length_be_words ws : length (be_words ws) = (4 * length ws)%nat.
Proof. unfold be_words. by rewrite (length_concat_const _ 4 (be_words_const ws)), length_fmap. Qed.

Lemma be_words_get ws i w :
  ws !! i = Some w -> in_range 32 w -> be_val (slice (4 * i) 4 (be_words ws)) = w.
Proof.
  intros Hi Hw. rewrite <- (app_nil_r (be_words ws)). unfold be_words.
  rewrite (slice_concat 4 4 _ [] i (be_bytes 4 w)); [|apply be_words_const| |lia].
  - rewrite take_ge by (rewrite length_be_bytes; lia). rewrite be_val_be32. by apply wrap_small.
  - rewrite list_lookup_fmap, Hi. done.
Qed.

Lemma pkg_words_range p : pkg_ok p -> Forall (in_range 32) (pkg_words p).
Proof.
  intros (Hs & Hc & Hr & Hd & Hl). unfold pkg_words.
  rewrite !lor_shiftl_add by (unfold in_range in *; lia).
  cbn [app]. apply Forall_cons; split; [solve_range|].
  apply Forall_cons; split; [solve_range|]. apply Forall_cons. by split.
Qed.

Section Dump.
Context {D : Type} {K : Kernel D} {Al : Allocator}.
Context (h : gmap nat (list mval)) (n : nat) (c : sbefifo_context) (d : D) (f : list Z).
Hypothesis Hown : exists h0, own c h h0.
Hypothesis Hview : ffdc_view c h f.
Hypothesis Hsmall : Z.of_nat (length f) + 4 < 2 ^ 32.
Implicit Types (tr : list event).

(** Reading a word: it is refused beyond the end. *)
Lemma wp_get_uint32 tr o Q :
  0 <= o <= Z.of_nat (length f) ->
  (Z.of_nat (length f) < o + 4 -> Q (inl (-1)) (World h n (Sbe c d tr))) ->
  (o + 4 <= Z.of_nat (length f) ->
   Q (inr (be_val (slice (Z.to_nat o) 4 f))) (World h n (Sbe c d tr))) ->
  wp (sbefifo_ffdc_get_uint32 o) (World h n (Sbe c d tr)) Q.
Proof.
  intros Ho Hfail Hok. destruct Hview as [Hlen Hf]. destruct Hown as [h0 Hw].
  unfold sbefifo_ffdc_get_uint32. apply wp_bind, wp_get_sctx. rewrite Hlen.
  rewrite wrap_small by solve_range.
  destruct (Z.ltb_spec (Z.of_nat (length f)) (o + 4)); [apply wp_fail; auto|].
  unfold own in Hw. destruct (ffdc c) as [|b z].
  { subst f. simpl in *. lia. }
  destruct Hw as (-> & _). cbn [ptr_add].
  eapply wp_load_be32; [exact Hf|lia|rewrite length_fmap; lia| |auto].
  rewrite Z.add_0_l. apply slice_map.
Qed.

(** *** Any buffer: the walk ends inside it *)

Definition printed tr tr' : Prop := exists ls, tr' = tr ++ (EvPrint <$> ls).

Lemma printed_refl tr : printed tr tr.
Proof. exists []. by rewrite app_nil_r. Qed.

Lemma printed_snoc tr tr' l : printed (tr ++ [EvPrint l]) tr' -> printed tr tr'.
Proof. intros [ls ->]. exists (l :: ls). by rewrite <- app_assoc. Qed.

(** How a read that starts at [o] and takes at least [k] bytes ends. *)
Definition walk_post (o k : Z) tr (Q : Z + Z -> world (sbe D) -> Prop) (g : Z -> Z) : Prop :=
  (forall tr', printed tr tr' -> Q (inl (-1)) (World h n (Sbe c d tr'))) /\
  (forall tr' e, printed tr tr' -> o + k <= e <= Z.of_nat (length f) ->
     Q (inr (g e)) (World h n (Sbe c d tr'))).

Lemma wp_data_loop_any k : forall tr o Q,
  0 <= o <= Z.of_nat (length f) -> walk_post o 0 tr Q id ->
  wp (ffdc_data_loop k o) (World h n (Sbe c d tr)) Q.
Proof.
  induction k as [|k IH]; intros tr o Q Ho [H1 H2]; cbn [ffdc_data_loop].
  - apply wp_ret, (H2 tr o); [apply printed_refl|lia].
  - apply wp_bind, wp_get_uint32; [done|intros; by apply H1, printed_refl|intros Hk].
    apply wp_bind, wp_log. rewrite wrap_small by solve_range.
    apply IH; [lia|]. split; [intros tr' Hp|intros tr' e Hp He].
    + by eapply H1, printed_snoc.
    + apply H2; [by eapply printed_snoc|lia].
Qed.

Lemma wp_dump_pkg_any tr o Q :
  0 <= o <= Z.of_nat (length f) -> walk_post o 12 tr Q (fun e => e - o) ->
  wp (sbefifo_ffdc_dump_pkg o) (World h n (Sbe c d tr)) Q.
Proof.
  intros Ho [H1 H2]. unfold sbefifo_ffdc_dump_pkg.
  apply wp_bind, wp_get_uint32; [done|intros; by apply H1, printed_refl|intros Hk1].
  cbv zeta. rewrite (wrap_small 32 (o + 4)) by solve_range. destruct (negb _).
  { apply wp_bind, wp_log, wp_fail, H1. eapply printed_snoc, printed_refl. }
  apply wp_bind, wp_get_uint32; [lia|intros; by apply H1, printed_refl|intros Hk2].
  rewrite (wrap_small 32 (o + 4 + 4)) by solve_range. do 2 apply wp_bind, wp_log.
  apply wp_bind, wp_get_uint32; [lia| |intros Hk3].
  { intros. apply H1. do 2 eapply printed_snoc. apply printed_refl. }
  rewrite (wrap_small 32 (o + 4 + 4 + 4)) by solve_range. apply wp_bind, wp_log.
  apply wp_bind, wp_data_loop_any; [lia|]. split; [intros tr' Hp|intros tr' e Hp He]; unfold id in *.
  - apply H1. do 3 eapply printed_snoc. exact Hp.
  - apply wp_ret. rewrite wrap_small by solve_range. apply H2; [|lia].
    do 3 eapply printed_snoc. exact Hp.
Qed.

Lemma wp_dump_loop_any fuel : forall tr o Q,
  0 <= o <= Z.of_nat (length f) -> Z.of_nat (length f) - o < Z.of_nat fuel ->
  (forall tr', printed tr tr' -> Q (inr true) (World h n (Sbe c d tr'))) ->
  wp (ffdc_dump_loop fuel o) (World h n (Sbe c d tr)) Q.
Proof.
  induction fuel as [|fuel IH]; intros tr o Q Ho Hf HQ; [lia|]. cbn [ffdc_dump_loop].
  apply wp_bind, wp_get_sctx. rewrite (proj1 Hview).
  destruct (Z.ltb_spec o (Z.of_nat (length f))); [|apply wp_ret, HQ, printed_refl].
  apply wp_bind, wp_attempt, wp_dump_pkg_any; [done|].
  split; [intros tr' Hp; by apply wp_ret, HQ|intros tr' e Hp He].
  destruct (Z.leb_spec (e - o) 0); [lia|]. replace (o + (e - o)) with e by lia.
  rewrite wrap_small by solve_range. apply IH; [lia|lia|]. intros tr2 [l2 ->].
  apply HQ. destruct Hp as [l1 ->]. exists (l1 ++ l2). by rewrite fmap_app, app_assoc.
Qed.
End Dump.

(** *** A well-formed buffer: its packages are printed *)

Section Packages.
Context {D : Type} {K : Kernel D} {Al : Allocator}.
Context (h : gmap nat (list mval)) (n : nat) (c : sbefifo_context) (d : D) (ws : list Z).
Hypothesis Hown : exists h0, own c h h0.
Hypothesis Hview : ffdc_view c h (be_words ws).
Hypothesis Hrange : Forall (in_range 32) ws.
Hypothesis Hsmall : Z.of_nat (4 * length ws) + 4 < 2 ^ 32.
Implicit Types (tr : list event).

Lemma wp_get_word tr i w Q :
  ws !! i = Some w ->
  Q (inr w) (World h n (Sbe c d tr)) ->
  wp (sbefifo_ffdc_get_uint32 (Z.of_nat (4 * i))) (World h n (Sbe c d tr)) Q.
Proof.
  intros Hi HQ. pose proof (lookup_lt_Some _ _ _ Hi). pose proof (length_be_words ws).
  eapply wp_get_uint32; try done; [lia|lia|lia|]. intros _. rewrite Nat2Z.id.
  rewrite (be_words_get _ _ w); [done|done|]. by eapply Forall_lookup_1.
Qed.

Lemma wp_data_loop_words : forall k tr i Q,
  (i + k <= length ws)%nat ->
  Q (inr (Z.of_nat (4 * (i + k))))
    (World h n (Sbe c d (tr ++ (EvPrint <$> (FfdcData <$> slice i k ws))))) ->
  wp (ffdc_data_loop k (Z.of_nat (4 * i))) (World h n (Sbe c d tr)) Q.
Proof.
  induction k as [|k IH]; intros tr i Q Hk HQ; cbn [ffdc_data_loop].
  - apply wp_ret. rewrite Nat.add_0_r in HQ. unfold slice in HQ. rewrite take_0 in HQ.
    cbn in HQ. by rewrite app_nil_r in HQ.
  - destruct (lookup_lt_is_Some_2 ws i) as [w Hw]; [lia|].
    apply wp_bind. eapply wp_get_word; [done|]. apply wp_bind, wp_log.
    rewrite wrap_small by solve_range. replace (Z.of_nat (4 * i) + 4) with (Z.of_nat (4 * S i)) by lia.
    apply IH; [lia|]. replace (S i + k)%nat with (i + S k)%nat by lia.
    unfold slice in *. rewrite (drop_S ws w i Hw) in HQ. cbn [take] in HQ.
    rewrite !fmap_cons in HQ. by rewrite <- app_assoc.
Qed.

(** The package [p] at word [i]. *)
Lemma wp_dump_pkg_words tr i p Q :
  slice i (length (pkg_words p)) ws = pkg_words p -> (i + length (pkg_words p) <= length ws)%nat ->
  pkg_ok p ->
  Q (inr (Z.of_nat (4 * length (pkg_words p)))) (World h n (Sbe c d (tr ++ pkg_lines p))) ->
  wp (sbefifo_ffdc_dump_pkg (Z.of_nat (4 * i))) (World h n (Sbe c d tr)) Q.
Proof.
  intros Hs Hl (Hseq & Hcmd & Hrc & Hd & Hlen) HQ.
  assert (Hat : forall j w, pkg_words p !! j = Some w -> ws !! (i + j)%nat = Some w).
  { intros j w Hj. rewrite <- Hs in Hj. unfold slice in Hj.
    apply lookup_take_Some in Hj as [Hj _]. by rewrite lookup_drop in Hj. }
  assert (Ep : length (pkg_words p) = (3 + length (pkg_data p))%nat) by done.
  rewrite Ep in *.
  unfold sbefifo_ffdc_dump_pkg. apply wp_bind. eapply wp_get_word.
  { rewrite <- (Nat.add_0_r i). by apply Hat. }
  assert (Hb : in_range 16 (3 + Z.of_nat (length (pkg_data p)))) by (unfold in_range; lia).
  cbv zeta. rewrite pack_hi by done. change (u16 0xffdc =? 0xffdc) with true. cbn [negb].
  rewrite (pack_lo 0xffdc _ 16) by done.
  assert (E4 : forall j, Z.of_nat (4 * (i + j)) + 4 = Z.of_nat (4 * (i + S j))) by lia.
  rewrite <- (Nat.add_0_r i), E4, (wrap_small 32 (Z.of_nat _)) by solve_range.
  apply wp_bind. eapply wp_get_word; [by apply Hat|]. do 2 apply wp_bind, wp_log.
  rewrite E4, (wrap_small 32 (Z.of_nat _)) by solve_range.
  apply wp_bind. eapply wp_get_word; [by apply Hat|]. apply wp_bind, wp_log.
  rewrite E4, (wrap_small 32 (Z.of_nat _)) by solve_range.
  rewrite pack_hi, (pack_lo _ _ 16) by done.
  replace (Z.to_nat (3 + Z.of_nat (length (pkg_data p)) - 3)) with (length (pkg_data p)) by lia.
  apply wp_bind, wp_data_loop_words; [lia|]. apply wp_ret.
  rewrite wrap_small by solve_range.
  assert (Es : slice (i + 3) (length (pkg_data p)) ws = pkg_data p).
  { apply (f_equal (drop 3)) in Hs. unfold slice in Hs |- *.
    rewrite skipn_firstn_comm, drop_drop in Hs.
    replace (3 + length (pkg_data p) - 3)%nat with (length (pkg_data p)) in Hs by lia. exact Hs. }
  rewrite Es, <- !app_assoc.
  replace (Z.of_nat _ - Z.of_nat _) with (Z.of_nat (4 * (3 + length (pkg_data p)))) by lia. exact HQ.
Qed.

Lemma wp_dump_loop_words : forall ps tr i fuel Q,
  drop i ws = concat (pkg_words <$> ps) -> (i <= length ws)%nat -> Forall pkg_ok ps ->
  (length ps < fuel)%nat ->
  Q (inr true) (World h n (Sbe c d (tr ++ concat (pkg_lines <$> ps)))) ->
  wp (ffdc_dump_loop fuel (Z.of_nat (4 * i))) (World h n (Sbe c d tr)) Q.
Proof.
  induction ps as [|p ps IH]; intros tr i fuel Q Hd Hi Hok Hf HQ; (destruct fuel as [|fuel]; [lia|]);
    cbn [ffdc_dump_loop]; apply wp_bind, wp_get_sctx; rewrite (proj1 Hview), length_be_words;
    pose proof (f_equal length Hd) as El; rewrite length_drop in El.
  - simpl in El. destruct (Z.ltb_spec (Z.of_nat (4 * i)) (Z.of_nat (4 * length ws))); [lia|].
    apply wp_ret. cbn in HQ. by rewrite app_nil_r in HQ.
  - rewrite fmap_cons in Hd, El. cbn [concat] in Hd, El. rewrite length_app in El.
    apply Forall_cons in Hok as [Hp Hok]. assert (Ep : (3 <= length (pkg_words p))%nat) by (simpl; lia).
    destruct (Z.ltb_spec (Z.of_nat (4 * i)) (Z.of_nat (4 * length ws))); [|lia].
    apply wp_bind, wp_attempt. apply wp_dump_pkg_words with (p := p); [|lia|done|].
    { unfold slice. rewrite Hd. apply take_app_length. }
    destruct (Z.leb_spec (Z.of_nat (4 * length (pkg_words p))) 0); [lia|].
    replace (Z.of_nat (4 * i) + Z.of_nat (4 * length (pkg_words p)))
      with (Z.of_nat (4 * (i + length (pkg_words p)))) by lia.
    rewrite wrap_small by solve_range. apply IH; [|lia|done|simpl in Hf; lia|].
    + rewrite <- drop_drop, Hd. apply drop_app_length.
    + rewrite <- app_assoc. exact HQ.
Qed.
End Packages.

(** The commands whose result is a number or nothing. *)
Inductive sbe_call :=
| CallIstep (major minor : Z)
| CallSuspendIo
| CallScomGet (addr : Z)
| CallScomPut (addr value : Z)
| CallScomModify (addr value operand : Z)
| CallScomPutMask (addr value mask : Z)
| CallControlInsn (core thread op mode : Z)
| CallQuiesce
| CallLpcTimeout
| CallMpiplEnter
| CallMpiplContinue
| CallMpiplStopclocks (target chiplet : Z)
| CallFastArray (target chiplet mode cycles : Z)
| CallHwRegGet (target inst reg : Z)
| CallHwRegPut (target inst reg value : Z).

#[global] Instance sbe_call_eq_dec : EqDecision sbe_call.
Proof. solve_decision. Defined.

Section Session.
Context {D : Type} {K : Kernel D} {Al : Allocator}.

Definition run_call (k : sbe_call) : M (sbe D) (option Z) :=
  match k with
  | CallIstep major minor => sbefifo_istep_execute major minor;; mret None
  | CallSuspendIo => sbefifo_suspend_io;; mret None
  | CallScomGet addr => v ← sbefifo_scom_get addr; mret (Some v)
  | CallScomPut addr value => sbefifo_scom_put addr value;; mret None
  | CallScomModify addr value operand => sbefifo_scom_modify addr value operand;; mret None
  | CallScomPutMask addr value mask => sbefifo_scom_put_mask addr value mask;; mret None
  | CallControlInsn core thread op mode => sbefifo_control_insn core thread op mode;; mret None
  | CallQuiesce => sbefifo_quiesce;; mret None
  | CallLpcTimeout => v ← sbefifo_lpc_timeout; mret (Some v)
  | CallMpiplEnter => sbefifo_mpipl_enter;; mret None
  | CallMpiplContinue => sbefifo_mpipl_continue;; mret None
  | CallMpiplStopclocks target chiplet => sbefifo_mpipl_stopclocks target chiplet;; mret None
  | CallFastArray target chiplet mode cycles =>
      sbefifo_control_fast_array target chiplet mode cycles;; mret None
  | CallHwRegGet target inst reg => v ← sbefifo_hw_register_get target inst reg; mret (Some v)
  | CallHwRegPut target inst reg value => sbefifo_hw_register_put target inst reg value;; mret None
  end.

Fixpoint run_calls (ks : list sbe_call) : M (sbe D) (list (Z + option Z)) :=
  match ks with
  | [] => mret []
  | k :: ks' => r ← attempt (run_call k); rs ← run_calls ks'; mret (r :: rs)
  end.

Definition session (path : string) (p : Z) (ks : list sbe_call) : M (sbe D) (list (Z + option Z)) :=
  blk ← sbefifo_connect path p;
  rs ← run_calls ks;
  sbefifo_disconnect blk;;
  mret rs.
End Session.

Section SessionProofs.
Context {D : Type} {K : Kernel D} {DO : DataOk} {KO : KernelOk D} {Al : Allocator}.

(** What a command keeps, whatever it returns. *)
Definition tidy {A} (m : M (sbe D) A) : Prop :=
  forall c h h0 n d tr, heap_ok h n -> own c h h0 ->
    wp m (World h n (Sbe c d tr)) (fun r w' =>
      exists h' n' c' d' tr' hf, w' = World h' n' (Sbe c' d' tr') /\ heap_ok h' n' /\
        same_ctx c c' /\ own c' h' hf /\ h0 ⊆ hf /\ (hf = h0 \/ r = inl ETIMEDOUT)).

Lemma own_subseteq c h h0 : own c h h0 -> h0 ⊆ h.
Proof.
  unfold own. destruct (ffdc c) as [|b o]; [by intros ->|].
  intros (_ & Hb & l & ->). by apply insert_subseteq.
Qed.

Lemma refines_tidy {A} (m : M (sbe D) A) abs : refines rep_pure m abs -> tidy m.
Proof.
  intros H c h h0 n d tr Hok Ho. eapply wp_mono; [by apply H|].
  intros r w' (h' & n' & c' & d' & tr' & ares & -> & Hok' & Hs & Hrep & _).
  unfold cmd_rep in Hrep. destruct r as [rc|a], ares as [rc'|b]; try done.
  - destruct Hrep as (_ & _ & hf & Ho' & Ha). eexists _, _, _, _, _, hf. split_and!; eauto.
    + destruct Ha as [->|[_ Ha]]; [done|by eapply own_subseteq].
    + destruct Ha as [->|[-> _]]; auto.
  - destruct Hrep as (x & (_ & ->) & _ & Ho'). rewrite (left_id_L ∅ (∪)) in Ho'.
    eexists _, _, _, _, _, h0. split_and!; eauto.
Qed.

Lemma tidy_map {A B} (m : M (sbe D) A) (g : A -> B) : tidy m -> tidy (a ← m; mret (g a)).
Proof.
  intros H c h h0 n d tr Hok Ho. apply wp_bind. eapply wp_mono; [by apply H|].
  intros r w' (h' & n' & c' & d' & tr' & hf & -> & ? & ? & ? & ? & Hhf).
  destruct r as [rc|a]; [|apply wp_ret]; eexists _, _, _, _, _, hf; split_and!; eauto.
  - destruct Hhf as [|[=]]; [by left|subst; by right].
  - destruct Hhf as [|[=]]; by left.
Qed.

Lemma run_call_tidy k : tidy (run_call k).
Proof.
  destruct k; apply (tidy_map _ _); eapply refines_tidy.
  - eapply long_refines; [apply istep_execute_push_ok|done|apply pulls_check|done].
  - eapply short_refines; [apply suspend_io_push_ok|done|apply pulls_check|done].
  - eapply short_refines; [apply scom_get_push_ok|done|apply pulls_u64|done].
  - eapply short_refines; [apply scom_put_push_ok|done|apply pulls_check|done].
  - eapply short_refines; [apply scom_modify_push_ok|done|apply pulls_check|done].
  - eapply short_refines; [apply scom_put_mask_push_ok|done|apply pulls_check|done].
  - eapply short_refines; [apply control_insn_push_ok|done|apply pulls_check|done].
  - eapply long_refines; [apply quiesce_push_ok|done|apply pulls_check|done].
  - eapply short_refines; [apply lpc_timeout_push_ok|done|apply pulls_u32|done].
  - eapply long_refines; [apply mpipl_enter_push_ok|done|apply pulls_check|done].
  - eapply long_refines; [apply mpipl_continue_push_ok|done|apply pulls_check|done].
  - eapply short_refines; [apply mpipl_stopclocks_push_ok|done|apply pulls_check|done].
  - eapply long_refines; [apply control_fast_array_push_ok|done|apply pulls_check|done].
  - eapply (guarded_refines _ _ _ (fun c => proc c =? SBEFIFO_PROC_P9)).
    eapply short_refines; [apply hw_register_get_push_ok|done|apply pulls_u64|done].
  - eapply (guarded_refines _ _ _ (fun c => proc c =? SBEFIFO_PROC_P9)).
    eapply short_refines; [apply hw_register_put_push_ok|done|apply pulls_check|done].
Qed.

Lemma run_calls_ok ks : forall c h h0 n d tr, heap_ok h n -> own c h h0 ->
  wp (run_calls ks) (World h n (Sbe c d tr)) (fun r w' =>
    exists rs h' n' c' d' tr' hf, r = inr rs /\ length rs = length ks /\
      w' = World h' n' (Sbe c' d' tr') /\ heap_ok h' n' /\ same_ctx c c' /\ own c' h' hf /\
      h0 ⊆ hf /\ (hf = h0 \/ In (inl ETIMEDOUT) rs)).
Proof.
  induction ks as [|k ks IH]; intros c h h0 n d tr Hok Ho; cbn [run_calls].
  - apply wp_ret. eexists [], _, _, _, _, _, _. split_and!; eauto. done.
  - apply wp_bind, wp_attempt. eapply wp_mono; [by apply run_call_tidy|].
    intros r w' (h1 & n1 & c1 & d1 & tr1 & hf1 & -> & Hok1 & Hs1 & Ho1 & Hsub1 & Hhf1).
    apply wp_bind. eapply wp_mono; [by apply IH|].
    intros r' w' (rs & h2 & n2 & c2 & d2 & tr2 & hf2 & -> & Hl & -> & Hok2 & Hs2 & Ho2 & Hsub2 & Hhf2).
    apply wp_ret. eexists (r :: rs), _, _, _, _, _, hf2. split_and!; eauto.
    + simpl. by rewrite Hl.
    + unfold same_ctx in *. intuition congruence.
    + by transitivity hf1.
    + destruct Hhf2 as [->|]; [|right; by right]. destruct Hhf1 as [->| ->]; [by left|right; by left].
Qed.

Lemma wp_disconnect c h hf n d tr b l Q :
  own c h hf -> hf !! b = Some l ->
  (forall d', d' = (if fd c =? -1 then d else sys_close d (fd c)) ->
     Q (inr tt) (World (delete b hf) n (Sbe c d' tr))) ->
  wp (sbefifo_disconnect (Ptr b 0)) (World h n (Sbe c d tr)) Q.
Proof.
  intros Ho Hb HQ. apply wp_bind, wp_get_st. cbn [sctx dev trace].
  set (d' := if fd c =? -1 then d else sys_close d (fd c)).
  assert (HQ' : Q (inr tt) (World (delete b hf) n (Sbe c d' tr))) by (by apply HQ).
  assert (Hfree : wp ((if negb (is_null (ffdc c)) then free (ffdc c) else mret tt);; free (Ptr b 0))
                     (World h n (Sbe c d' tr)) Q).
  { apply wp_bind. unfold own in Ho. destruct (ffdc c) as [|b' o]; cbn [is_null negb].
    - subst h. apply wp_ret. by eapply wp_free.
    - destruct Ho as (-> & Hb' & l' & ->). eapply wp_free; [apply lookup_insert_eq|].
      rewrite delete_insert_id by done. by eapply wp_free. }
  apply wp_bind. subst d'. destruct (fd c =? -1); cbn [negb].
  - by apply wp_ret.
  - by apply wp_put_st.
Qed.
End SessionProofs.
