(* ===== verification/SbeWitness.v ===== *)
(** * A concrete environment for libsbefifo

    A driver that accepts every request and answers it with one fixed reply,
    and an allocator that never fails. It satisfies the laws the theorems ask
    of the environment, and lets them be evaluated on concrete inputs. *)

From S2P Require Import Prelude CMem SbeCore SbeCoreFacts.

Definition always_alloc : Allocator := fun _ _ => true.

Lemma no_oom : ~ oom (Al := always_alloc).
Proof. intros (k & n & H). discriminate. Qed.

Definition fixed_kernel (reply : list Z) : Kernel unit := {|
  sys_open _ _ := (tt, inr 3);
  sys_close _ _ := tt;
  sys_write _ _ bs := (tt, inr (Z.of_nat (length bs)));
  sys_read _ _ n := (tt, if Z.of_nat (length reply) <=? n then inr reply else inl EIO);
  sys_ioctl _ _ _ := (tt, inr 0);
  ext_transport _ _ n := (tt, if Z.of_nat (length reply) <=? n then inr reply else inl EIO)
|}.

Lemma fixed_kernel_ok {DO : DataOk} reply :
  reply_ok reply -> KernelOk unit (K := fixed_kernel reply).
Proof.
  intros Hr.
  assert (H : forall n e, (if Z.of_nat (length reply) <=? n then inr reply else inl EIO) = inl e -> 0 < e).
  { intros n e. destruct (_ <=? n); [done|]. intros [= <-]. done. }
  assert (G : forall n bs, (if Z.of_nat (length reply) <=? n then inr reply else inl EIO) = inr bs ->
    Z.of_nat (length bs) <= n /\ reply_ok bs).
  { intros n bs. destruct (Z.leb_spec (Z.of_nat (length reply)) n); [|done]. by intros [= <-]. }
  split; simpl; intros; simplify_eq; eauto.
Qed.

(** Nothing is known of the data of the replies. *)
Definition any_data : DataOk := fun _ => True.

Lemma frame_reply_ok {DO : DataOk} cmd data st ff :
  data_ok data -> Forall is_byte data -> Forall is_byte ff -> (4 | Z.of_nat (length ff)) ->
  Z.of_nat (length data) + Z.of_nat (length ff) + 12 < 2 ^ 32 ->
  in_range 16 cmd -> in_range 32 st ->
  reply_ok (frame_reply cmd data st ff).
Proof. intros. split; [by apply frame_wf|]. intros _. by rewrite frame_data. Qed.

(** A context connected to descriptor 3, with no FFDC data. *)
Definition ctx0 (p : Z) : sbefifo_context := Sctx 3 p false 0 Null 0.
Definition world0 (p : Z) : world (sbe unit) := World ∅ 0 (Sbe (ctx0 p) tt []).

Lemma heap_ok_empty n : heap_ok ∅ n.
Proof. intros b _. apply lookup_empty. Qed.

(** Decides [Forall is_byte l] for a literal list. *)
Ltac solve_bytes := repeat constructor; unfold is_byte; try lia.

(** Proves [KernelOk] of [fixed_kernel] with a literal reply. *)
Ltac solve_kernel :=
  apply fixed_kernel_ok, frame_reply_ok; [try done|solve_bytes|constructor|by exists 0|done..].
