(* ===== verification/SbeTheorems.v ===== *)
(** * libsbefifo: the theorems about the commands *)

From S2P Require Import Prelude CMem SbeCore SbeCoreFacts SbeCmds SbeDataCmds SbeCmdFacts.
From S2P Require Import SbeSpec SbeDataSpec SbeMemory SbeWitness.

Section Theorems.
Context {D : Type} {K : Kernel D} {DO : DataOk} {KO : KernelOk D} {Al : Allocator}.

(** C1. The four SCOM commands do what their memory-free description says:
    they send exactly the request words given here (address, value and mask
    split into big-endian halves), accept exactly the replies of the expected
    length, and return the 64-bit value of a read. They never touch memory they
    do not own. The heap is afterwards as it was found, apart from the block of
    the context with the error data, which a reply replaces; one case leaks:
    when the operation times out, the block with the error data of an earlier
    one is not freed. All of this holds for a driver whose error codes are
    positive, that delivers no more bytes than asked for, and whose replies
    have the format of a reply (class [KernelOk]), and unless an allocation is
    refused, when the call may also fail with ENOMEM. *)
Theorem scom_commands_refine :
  (forall addr, refines (D:=D) rep_pure (sbefifo_scom_get addr)
     (fun c => abs_short c (msg_bytes ([4; 0xA201] ++ u64_words addr)) 0xA201 8
                 (dec_len 8 be_val))) /\
  (forall addr value, refines (D:=D) rep_pure (sbefifo_scom_put addr value)
     (fun c => abs_short c (msg_bytes ([6; 0xA202] ++ u64_words addr ++ u64_words value))
                 0xA202 0 dec_unit)) /\
  (forall addr value operand, refines (D:=D) rep_pure (sbefifo_scom_modify addr value operand)
     (fun c => abs_short c
        (msg_bytes ([7; 0xA203; operand] ++ u64_words addr ++ u64_words value)) 0xA203 0 dec_unit)) /\
  (forall addr value mask, refines (D:=D) rep_pure (sbefifo_scom_put_mask addr value mask)
     (fun c => abs_short c
        (msg_bytes ([8; 0xA204] ++ u64_words addr ++ u64_words value ++ u64_words mask))
        0xA204 0 dec_unit)).
Proof.
  split_and!; intros.
  - refine_cmd short_refines scom_get_push_ok pulls_u64.
  - refine_cmd short_refines scom_put_push_ok pulls_check.
  - refine_cmd short_refines scom_modify_push_ok pulls_check.
  - refine_cmd short_refines scom_put_mask_push_ok pulls_check.
Qed.

(** The commands that only control the chip (istep, suspend I/O, thread
    control, quiesce, LPC timeout, MPIPL enter/continue/stop clocks) do what
    their memory-free description says: each sends one request with its
    arguments packed as shown, the long-running ones between setting the long
    timeout and resetting it, each accepts exactly the expected reply length,
    and none leaks or touches foreign memory. *)
Theorem control_commands_refine :
  (forall major minor, refines (D:=D) rep_pure (sbefifo_istep_execute major minor)
     (fun c => abs_long c 30 (msg_bytes [3; 0xA101; half_words major minor]) 0xA101 0 dec_unit)) /\
  refines (D:=D) rep_pure sbefifo_suspend_io
     (fun c => abs_short c (msg_bytes [2; 0xA102]) 0xA102 0 dec_unit) /\
  (forall core thread op mode, refines (D:=D) rep_pure (sbefifo_control_insn core thread op mode)
     (fun c => abs_short c (msg_bytes [3; 0xA701; insn_word core thread op mode])
                 0xA701 0 dec_unit)) /\
  refines (D:=D) rep_pure sbefifo_quiesce
     (fun c => abs_long c 30 (msg_bytes [2; 0xA803]) 0xA803 0 dec_unit) /\
  refines (D:=D) rep_pure sbefifo_lpc_timeout
     (fun c => abs_short c (msg_bytes [2; 0xA808]) 0xA808 4 (dec_len 4 be_val)) /\
  refines (D:=D) rep_pure sbefifo_mpipl_enter
     (fun c => abs_long c 30 (msg_bytes [2; 0xA901]) 0xA901 0 dec_unit) /\
  refines (D:=D) rep_pure sbefifo_mpipl_continue
     (fun c => abs_long c 30 (msg_bytes [2; 0xA902]) 0xA902 0 dec_unit) /\
  (forall target chiplet, refines (D:=D) rep_pure (sbefifo_mpipl_stopclocks target chiplet)
     (fun c => abs_short c (msg_bytes [3; 0xA903; half_words target chiplet]) 0xA903 0 dec_unit)).
Proof.
  split_and!; intros.
  - refine_cmd long_refines istep_execute_push_ok pulls_check.
  - refine_cmd short_refines suspend_io_push_ok pulls_check.
  - refine_cmd short_refines control_insn_push_ok pulls_check.
  - refine_cmd long_refines quiesce_push_ok pulls_check.
  - refine_cmd short_refines lpc_timeout_push_ok pulls_u32.
  - refine_cmd long_refines mpipl_enter_push_ok pulls_check.
  - refine_cmd long_refines mpipl_continue_push_ok pulls_check.
  - refine_cmd short_refines mpipl_stopclocks_push_ok pulls_check.
Qed.

(** The array, dump and hardware-register commands do what their
    memory-free description says: the data handed over is the reply data
    (without the trailing length word for a trace array) in a block of its
    own, the hardware-register commands are refused on a P9 context, and
    nothing else is left on the heap. *)
Theorem data_commands_refine :
  (forall target chiplet mode cycles,
     refines (D:=D) rep_pure (sbefifo_control_fast_array target chiplet mode cycles)
     (fun c => abs_long c 30
        (msg_bytes ([5; 0xA601; fast_array_word target chiplet mode] ++ u64_words cycles))
        0xA601 0 dec_unit)) /\
  (forall target chiplet array op,
     refines (D:=D) rep_buf (sbefifo_control_trace_array target chiplet array op)
     (fun c => abs_long c 30
        (msg_bytes [4; 0xA602; half_words target chiplet; half_words array op])
        0xA602 64 dec_trace_array)) /\
  (forall type clock fa, refines (D:=D) rep_dump (sbefifo_get_dump type clock fa)
     (fun c => abs_long c 120 (msg_bytes [3; 0xAA01; dump_word type clock fa])
                 0xAA01 (80 * 1024 * 1024) inr)) /\
  (forall target inst reg, refines (D:=D) rep_pure (sbefifo_hw_register_get target inst reg)
     (fun c a => if proc c =? SBEFIFO_PROC_P9 then (inl ENOSYS, a) else
        abs_short c (msg_bytes ([5; 0xA503; hw_target_word target inst] ++ u64_words reg))
          0xA503 8 (dec_len 8 be_val) a)) /\
  (forall target inst reg value,
     refines (D:=D) rep_pure (sbefifo_hw_register_put target inst reg value)
     (fun c a => if proc c =? SBEFIFO_PROC_P9 then (inl ENOSYS, a) else
        abs_short c (msg_bytes ([7; 0xA504; hw_target_word target inst]
                                ++ u64_words reg ++ u64_words value)) 0xA504 0 dec_unit a)).
Proof.
  split_and!; intros.
  - refine_cmd long_refines control_fast_array_push_ok pulls_check.
  - refine_cmd long_refines control_trace_array_push_ok pulls_trace_array.
  - refine_cmd long_refines get_dump_push_ok pulls_dump.
  - eapply (guarded_refines _ _ _ (fun c => proc c =? SBEFIFO_PROC_P9)).
    refine_cmd short_refines hw_register_get_push_ok pulls_u64.
  - eapply (guarded_refines _ _ _ (fun c => proc c =? SBEFIFO_PROC_P9)).
    refine_cmd short_refines hw_register_put_push_ok pulls_check.
Qed.

(** The TI-information and ring-read commands trust the length word at
    the end of the reply; for an SBE whose length words stay within the data
    they hand over exactly that many bytes and are as safe as the others. *)
Theorem length_word_commands_refine :
  ((forall data, data_ok data -> 4 <= Z.of_nat (length data) -> length_word_ok data) ->
   refines (D:=D) rep_buf sbefifo_mpipl_get_ti_info
     (fun c => abs_long c 30 (msg_bytes [2; 0xA904]) 0xA904 0 dec_ti_info)) /\
  (forall addr bits flags, 0 <= bits < 2 ^ 31 ->
   (forall data, data_ok data -> bits <= u32 (Z.of_nat (length data) * 8) -> length_word_ok data) ->
   refines (D:=D) rep_buf (sbefifo_ring_get addr bits flags)
     (fun c => abs_long c 30 (msg_bytes [5; 0xA301; addr; bits; flags]) 0xA301
                 ((bits + 63) / 8) (dec_ring_get bits))).
Proof.
  split.
  - intros Hd. refine_cmd long_refines mpipl_get_ti_info_push_ok (pulls_ti_info Hd).
  - intros addr bits flags Hb Hd.
    assert (E : u32 (bits + 63) / 8 = (bits + 63) / 8) by (rewrite wrap_small; [done|solve_range]).
    rewrite <- E. eapply long_refines;
      [apply ring_get_push_ok | solve_cmd_range | by apply pulls_ring_get |].
    rewrite E. assert ((bits + 63) / 8 <= 2 ^ 29) by (apply Z.div_le_upper_bound; lia).
    assert (0 <= (bits + 63) / 8) by (apply Z.div_pos; lia).
    unfold hint_ok, SBEFIFO_MAX_FFDC_SIZE. lia.
Qed.

(** C5. Reading memory returns the memory: for an SBE that serves the memory
    [m], [sbefifo_mem_get addr size] asks for the smallest window of whole
    units around the bytes, drops the tag and ECC bytes that come with each
    eight bytes when they were requested, and hands over exactly the bytes
    [addr .. addr+size), in a block of its own, leaking nothing. *)
Theorem mem_get_reads_memory (m : Z -> Z) flags al addr size :
  mem_align flags = Some al -> 0 <= addr -> 0 <= size < 2 ^ 31 -> addr + size + (al - 1) < 2 ^ 64 ->
  (forall data, data_ok data -> serves m flags (win_start al addr) (win_len al addr size) data) ->
  refines (D:=D) (rep_mem size) (sbefifo_mem_get addr size flags)
    (fun c => abs_long c 30 (mem_get_req al addr size flags) 0xA401
                (mem_get_hint flags al addr size) (fun _ => inr (region m addr size))).
Proof. intros. by apply mem_get_refines. Qed.

(** Reading SRAM below 4 GiB returns the SRAM: for an SBE that serves [m],
    [sbefifo_sram_get addr size] is refused on a P9 context and otherwise hands
    over exactly the bytes [addr .. addr+size). The length it reports is that
    of the window, not that of the block. *)
Theorem sram_get_reads_memory (m : Z -> Z) chiplet addr size mode :
  0 <= addr -> 0 <= size -> addr + size + 7 < 2 ^ 32 ->
  (forall data, data_ok data -> serves_sram m (win_start 8 addr) (win_len 8 addr size) data) ->
  refines (D:=D) (rep_sram (win_len 8 addr size)) (sbefifo_sram_get chiplet addr size mode)
    (fun c a => if proc c =? SBEFIFO_PROC_P9 then (inl ENOSYS, a) else
       abs_long c 30 (sram_get_req chiplet addr size mode) 0xA403
         (win_len 8 addr size / 8 + 4) (fun _ => inr (region m addr size)) a).
Proof. intros. by apply sram_get_refines. Qed.

(** Writing memory and rings: the data of the caller is sent unchanged
    after the header words, a memory write whose address or length is not a
    multiple of the unit is refused with EINVAL before anything happens, and
    nothing leaks. *)
Theorem write_commands_refine :
  (forall addr flags (data : list Z), 0 <= addr -> Z.of_nat (length data) + 24 < 2 ^ 32 ->
   refines (D:=D) rep_pure (sbefifo_mem_put addr (Some <$> data) (Z.of_nat (length data)) flags)
     (fun c a =>
        if match mem_align flags with
           | Some al => (addr mod al =? 0) && (Z.of_nat (length data) mod al =? 0)
           | None => false
           end
        then abs_long c 30 (mem_put_req addr flags data) 0xA402 4 (dec_len 4 (fun _ => tt)) a
        else (inl EINVAL, a))) /\
  (forall mode (data : list Z), Z.of_nat (length data) + 18 < 2 ^ 32 ->
   refines (D:=D) rep_pure (sbefifo_ring_put mode (Some <$> data) (Z.of_nat (length data)))
     (fun c => abs_long c 30 (ring_put_req mode data) 0xA302 0 dec_unit)).
Proof.
  split.
  - intros addr flags data Ha Hl. by apply mem_put_refines.
  - intros mode data Hl.
    eapply (long_req_refines _ _ _ _ _ _ (ring_put_push_ok mode data Hl));
      [|done|done|apply pulls_check|solve_hint].
    unfold ring_put_req. rewrite length_app, length_msg_bytes. simpl. lia.
Qed.

(** Reading and writing up to 64 registers, when the timeout can be set:
    the request lists the register numbers (and, for a write, the values in
    halves), a reply of the wrong length is refused with EPROTO, the values
    read are handed over in the order asked for, and nothing leaks. *)
Theorem register_commands_refine :
  timeout_works (D:=D) ->
  (forall core thread type (ids : list Z), (1 <= length ids <= 64)%nat ->
   refines (D:=D) rep_regs
     (sbefifo_register_get core thread type ids (Z.of_nat (length ids)))
     (fun c => abs_reg c
        (msg_bytes ([3 + Z.of_nat (length ids); 0xA501;
                     register_word core thread type (Z.of_nat (length ids))] ++ ids))
        0xA501 (Z.of_nat (length ids) * 8) (dec_regs (length ids)))) /\
  (forall core thread type (ids vals : list Z), (1 <= length ids <= 64)%nat ->
   length ids = length vals ->
   refines (D:=D) rep_pure
     (sbefifo_register_put core thread type ids (Z.of_nat (length ids)) vals)
     (fun c => abs_reg c
        (msg_bytes ([3 + 3 * Z.of_nat (length ids); 0xA502;
                     register_word core thread type (Z.of_nat (length ids))] ++ reg_entries ids vals))
        0xA502 0 dec_unit)).
Proof.
  intros Htw. split.
  - intros core thread type ids Hn.
    eapply (reg_req_refines _ _ _ _ _ _ (register_get_push_ok core thread type ids Hn));
      [|by apply slice_cmd|done|apply pulls_register_get|done|solve_hint].
    rewrite length_msg_bytes. simpl. lia.
  - intros core thread type ids vals Hn Hv.
    eapply (reg_req_refines _ _ _ _ _ _ (register_put_push_ok core thread type ids vals Hn Hv));
      [|by apply slice_cmd|done|apply pulls_check|done|solve_hint].
    rewrite length_msg_bytes. simpl. lia.
Qed.
End Theorems.

(** ** Witnesses

    A driver whose SBE answers one command with a fixed reply. *)

#[local] Existing Instance always_alloc.

Definition scom_reply : list Z :=
  frame_reply 0xA201 [0x11; 0x22; 0x33; 0x44; 0x55; 0x66; 0x77; 0x88] 0 [].
Definition lpc_reply : list Z := frame_reply 0xA808 [0; 0; 1; 2] 0 [].
Definition hw_reply : list Z := frame_reply 0xA503 [1; 2; 3; 4; 5; 6; 7; 8] 0 [].
(** Three bytes of data, a byte of padding and the length word. *)
Definition ti_reply : list Z := frame_reply 0xA904 [7; 8; 9; 0; 0; 0; 0; 3] 0 [].

(** Data that ends with a length word within it. *)
Definition length_word_data : DataOk := length_word_ok.

Lemma scom_kernel_ok : KernelOk unit (K := fixed_kernel scom_reply) (DO := any_data).
Proof. solve_kernel. Qed.
Lemma lpc_kernel_ok : KernelOk unit (K := fixed_kernel lpc_reply) (DO := any_data).
Proof. solve_kernel. Qed.
Lemma hw_kernel_ok : KernelOk unit (K := fixed_kernel hw_reply) (DO := any_data).
Proof. solve_kernel. Qed.
Lemma ti_kernel_ok : KernelOk unit (K := fixed_kernel ti_reply) (DO := length_word_data).
Proof. solve_kernel. Qed.

Section ScomWitness.
#[local] Instance scom_kernel : Kernel unit := fixed_kernel scom_reply.

Lemma scom_commands_refine_witness :
  wp (sbefifo_scom_get 0xF000F) (world0 2)
     (cmd_post rep_pure (abs_short (ctx0 2) (msg_bytes ([4; 0xA201] ++ u64_words 0xF000F)) 0xA201 8
        (dec_len 8 be_val)) (ctx0 2) ∅ ∅ tt []) /\
  (sbefifo_scom_get 0xF000F (world0 2)).1 = Ret 0x1122334455667788.
Proof.
  split; [|vm_compute; reflexivity].
  exact (proj1 (scom_commands_refine (KO := scom_kernel_ok)) 0xF000F (ctx0 2) ∅ ∅ 0%nat tt []
           (heap_ok_empty 0) eq_refl).
Defined.
End ScomWitness.

Section LpcWitness.
#[local] Instance lpc_kernel : Kernel unit := fixed_kernel lpc_reply.

Lemma control_commands_refine_witness :
  refines rep_pure sbefifo_lpc_timeout
     (fun c => abs_short c (msg_bytes [2; 0xA808]) 0xA808 4 (dec_len 4 be_val)) /\
  (sbefifo_lpc_timeout (world0 2)).1 = Ret 0x102.
Proof.
  split; [|vm_compute; reflexivity].
  exact (proj1 (proj2 (proj2 (proj2 (proj2 (control_commands_refine (KO := lpc_kernel_ok))))))).
Defined.
End LpcWitness.

Section HwWitness.
#[local] Instance hw_kernel : Kernel unit := fixed_kernel hw_reply.

Lemma data_commands_refine_witness :
  refines rep_pure (sbefifo_hw_register_get 1 2 0x20010)
     (fun c a => if proc c =? SBEFIFO_PROC_P9 then (inl ENOSYS, a) else
        abs_short c (msg_bytes ([5; 0xA503; hw_target_word 1 2] ++ u64_words 0x20010))
          0xA503 8 (dec_len 8 be_val) a) /\
  (sbefifo_hw_register_get 1 2 0x20010 (world0 2)).1 = Ret 0x102030405060708 /\
  (sbefifo_hw_register_get 1 2 0x20010 (world0 1)).1 = Fail ENOSYS.
Proof.
  split; [|split; vm_compute; reflexivity].
  exact (proj1 (proj2 (proj2 (proj2 (data_commands_refine (KO := hw_kernel_ok))))) 1 2 0x20010).
Defined.
End HwWitness.

Section TiWitness.
#[local] Instance ti_kernel : Kernel unit := fixed_kernel ti_reply.

Lemma length_word_commands_refine_witness :
  refines rep_buf sbefifo_mpipl_get_ti_info
     (fun c => abs_long c 30 (msg_bytes [2; 0xA904]) 0xA904 0 dec_ti_info) /\
  (sbefifo_mpipl_get_ti_info (world0 2)).1 = Ret (Ptr 3 0, 3).
Proof.
  split; [|vm_compute; reflexivity].
  exact (proj1 (length_word_commands_refine (KO := ti_kernel_ok)) (fun data H _ => H)).
Defined.
End TiWitness.

(** The SBE serves the memory whose byte at [a] is [a mod 256]. *)
Definition low_byte (a : Z) : Z := a mod 256.

(** Bytes 0x1003 .. 0x1008 lie in the window 0x1000 .. 0x100f. *)
Definition mem_data : DataOk := serves low_byte SBEFIFO_MEMORY_FLAG_PROC 0x1000 16.
Definition mem_reply : list Z :=
  frame_reply 0xA401 [0; 1; 2; 3; 4; 5; 6; 7; 8; 9; 10; 11; 12; 13; 14; 15; 0; 0; 0; 16] 0 [].

Lemma mem_kernel_ok : KernelOk unit (K := fixed_kernel mem_reply) (DO := mem_data).
Proof. solve_kernel. by exists (fun _ => []). Qed.

Section MemWitness.
#[local] Instance mem_kernel : Kernel unit := fixed_kernel mem_reply.

Lemma mem_get_reads_memory_witness :
  refines (rep_mem 6) (sbefifo_mem_get 0x1003 6 SBEFIFO_MEMORY_FLAG_PROC)
    (fun c => abs_long c 30 (mem_get_req 8 0x1003 6 SBEFIFO_MEMORY_FLAG_PROC) 0xA401
                (mem_get_hint SBEFIFO_MEMORY_FLAG_PROC 8 0x1003 6)
                (fun _ => inr (region low_byte 0x1003 6))) /\
  (exists h n st, sbefifo_mem_get 0x1003 6 SBEFIFO_MEMORY_FLAG_PROC (world0 2)
     = (Ret (Ptr 3 0), World h n st) /\
     take 6 <$> h !! 3%nat = Some (Some <$> [3; 4; 5; 6; 7; 8])).
Proof.
  split.
  - exact (mem_get_reads_memory (KO := mem_kernel_ok) low_byte SBEFIFO_MEMORY_FLAG_PROC 8 0x1003 6
             eq_refl ltac:(lia) ltac:(lia) ltac:(lia) (fun data H => H)).
  - eexists _, _, _. split; vm_compute; reflexivity.
Defined.
End MemWitness.

Definition sram_data : DataOk := serves_sram low_byte 0x1000 16.
Definition sram_reply : list Z :=
  frame_reply 0xA403 [0; 1; 2; 3; 4; 5; 6; 7; 8; 9; 10; 11; 12; 13; 14; 15; 0; 0; 0; 16] 0 [].

Lemma sram_kernel_ok : KernelOk unit (K := fixed_kernel sram_reply) (DO := sram_data).
Proof. solve_kernel. Qed.

Section SramWitness.
#[local] Instance sram_kernel : Kernel unit := fixed_kernel sram_reply.

Lemma sram_get_reads_memory_witness :
  refines (rep_sram 16) (sbefifo_sram_get 5 0x1003 6 1)
    (fun c a => if proc c =? SBEFIFO_PROC_P9 then (inl ENOSYS, a) else
       abs_long c 30 (sram_get_req 5 0x1003 6 1) 0xA403 (16 / 8 + 4)
         (fun _ => inr (region low_byte 0x1003 6)) a) /\
  (sbefifo_sram_get 5 0x1003 6 1 (world0 2)).1 = Ret (Ptr 3 0, 16).
Proof.
  split; [|vm_compute; reflexivity].
  exact (sram_get_reads_memory (KO := sram_kernel_ok) low_byte 5 0x1003 6 1
           ltac:(lia) ltac:(lia) ltac:(lia) (fun data H => H)).
Defined.
End SramWitness.

Definition put_reply : list Z := frame_reply 0xA402 [0; 0; 0; 8] 0 [].
Definition regs_reply : list Z := frame_reply 0xA501 [0; 0; 0; 0; 0; 0; 0; 7; 0; 0; 0; 1; 0; 0; 0; 2] 0 [].

Lemma put_kernel_ok : KernelOk unit (K := fixed_kernel put_reply) (DO := any_data).
Proof. solve_kernel. Qed.
Lemma regs_kernel_ok : KernelOk unit (K := fixed_kernel regs_reply) (DO := any_data).
Proof. solve_kernel. Qed.

Section PutWitness.
#[local] Instance put_kernel : Kernel unit := fixed_kernel put_reply.

Lemma write_commands_refine_witness :
  refines rep_pure (sbefifo_mem_put 0x2000 (Some <$> [1; 2; 3; 4; 5; 6; 7; 8]) 8 1)
    (fun c => abs_long c 30 (mem_put_req 0x2000 1 [1; 2; 3; 4; 5; 6; 7; 8]) 0xA402 4
                (dec_len 4 (fun _ => tt))) /\
  (sbefifo_mem_put 0x2000 (Some <$> [1; 2; 3; 4; 5; 6; 7; 8]) 8 1 (world0 2)).1 = Ret tt /\
  (sbefifo_mem_put 0x2001 (Some <$> [1; 2; 3; 4; 5; 6; 7; 8]) 8 1 (world0 2)).1 = Fail EINVAL.
Proof.
  split; [|split; vm_compute; reflexivity].
  exact (proj1 (write_commands_refine (KO := put_kernel_ok)) 0x2000 1 [1; 2; 3; 4; 5; 6; 7; 8]
           ltac:(lia) ltac:(simpl; lia)).
Defined.
End PutWitness.

Section RegsWitness.
#[local] Instance regs_kernel : Kernel unit := fixed_kernel regs_reply.

Lemma register_commands_refine_witness :
  refines rep_regs (sbefifo_register_get 1 0 0 [3; 4] 2)
    (fun c => abs_reg c (msg_bytes [5; 0xA501; register_word 1 0 0 2; 3; 4]) 0xA501 16 (dec_regs 2)) /\
  (exists h n st, sbefifo_register_get 1 0 0 [3; 4] 2 (world0 2) = (Ret (Ptr 3 0), World h n st) /\
     h = {[3%nat := Some <$> le64s [7; 2 ^ 32 + 2]]}).
Proof.
  split.
  - exact (proj1 (register_commands_refine (KO := regs_kernel_ok) (fun _ _ => eq_refl)) 1 0 0 [3; 4]
             ltac:(simpl; lia)).
  - eexists _, _, _. split; vm_compute; reflexivity.
Defined.
End RegsWitness.
