(* ===== verification/SbeLifecycle.v ===== *)
(** * libsbefifo: the theorems about replies, FFDC data and sessions *)

From S2P Require Import Prelude CMem SbeCore SbeCoreFacts SbeCmds SbeCmdFacts SbeSpec SbeSession SbeWitness.
From S2P Require Import SbeDataCmds SbeDataSpec.

Section Lifecycle.
Context {D : Type} {K : Kernel D} {DO : DataOk} {KO : KernelOk D} {Al : Allocator}.

(** C9. Parsing undoes framing: from a buffer that holds the reply of an SBE
    to [cmd] (data, header, status, FFDC packages and the distance word),
    [sbefifo_parse_output] hands over exactly the data when the status is 0,
    and otherwise fails with ESBEFIFO and keeps exactly the status and the
    FFDC data in the context. FFDC data that comes with success is kept when
    it is longer than the data. *)
Theorem parse_output_frame c h h0 n (d : D) tr cmd bb data st ff pad :
  ~ oom -> heap_ok h n -> own c h h0 -> (exists f, ffdc_view c h f) ->
  data_ok data -> Forall is_byte data -> Forall is_byte ff -> (4 | Z.of_nat (length ff)) ->
  Z.of_nat (length data) + Z.of_nat (length ff) + 12 < 2 ^ 32 -> in_range 16 cmd -> in_range 32 st ->
  h0 !! bb = Some ((Some <$> frame_reply cmd data st ff) ++ pad) ->
  wp (sbefifo_parse_output cmd (Ptr bb 0) (Z.of_nat (length (frame_reply cmd data st ff))))
     (World h n (Sbe c d tr)) (fun res w' => exists h' n' c', w' = World h' n' (Sbe c' d tr) /\
       if truthy st
       then res = inl ESBEFIFO /\ status c' = st /\ ffdc_view c' h' ff
       else exists p, res = inr (p, Z.of_nat (length data)) /\
              points h' p (Z.of_nat (length data)) data /\ status c' = 0 /\
              ffdc_view c' h' (if bool_decide (length data < length ff)%nat then ff else [])).
Proof.
  intros Hno Hok Ho [f Hf] Hd Hdata Hff H4 Hlen Hcmd Hst Hb.
  eapply wp_mono; [eapply parse_output_spec; eauto using frame_reply_ok|].
  intros res w' (h' & n' & c' & ares & -> & Hok' & Hs & Hrep & Hv). exists h', n', c'.
  split; [done|]. destruct Hv as [|Hv]; [done|]. destruct (Hv f Hf) as (E1 & E2 & E3).
  rewrite parse_frame in E1, E2, E3 by done. destruct (truthy st); simpl in *; subst ares.
  - destruct res as [rc|[]]; [|done]. destruct Hrep as (-> & _). by split_and!.
  - destruct res as [|[p len]]; [done|]. destruct Hrep as (h1 & Ho' & Hr).
    pose proof (out_rep_points _ _ _ _ _ _ _ Ho' Hr) as Hp.
    assert (E := proj1 (proj2 Hp)). subst len. eauto.
Qed.

(** Printing the FFDC data always ends, whatever the SBE put in the
    buffer: with more fuel than the buffer has bytes the loop of
    [sbefifo_ffdc_dump] comes to its end, reads only inside the buffer and
    changes nothing but what is printed. *)
Theorem ffdc_dump_terminates h n c (d : D) f tr fuel :
  (exists h0, own c h h0) -> ffdc_view c h f -> Z.of_nat (length f) + 4 < 2 ^ 32 ->
  (length f < fuel)%nat ->
  exists ls, sbefifo_ffdc_dump fuel (World h n (Sbe c d tr))
             = (Ret true, World h n (Sbe c d (tr ++ (EvPrint <$> ls)))).
Proof.
  intros Ho Hv Hs Hf.
  assert (H : wp (sbefifo_ffdc_dump fuel) (World h n (Sbe c d tr)) (fun r w' =>
    exists ls, r = inr true /\ w' = World h n (Sbe c d (tr ++ (EvPrint <$> ls))))).
  { eapply wp_dump_loop_any; try done; [lia|lia|]. intros tr' [ls ->]. eauto. }
  unfold wp in H. destruct (sbefifo_ffdc_dump fuel _) as [[] w']; try done;
    destruct H as (ls & E & ->); [|done]. exists ls. congruence.
Qed.

(** The packages of a well-formed FFDC buffer are printed, all of them
    and in order: sequence number, command, return code and every data word
    of each. *)
Theorem ffdc_dump_prints h n c (d : D) ps tr fuel :
  (exists h0, own c h h0) -> Forall pkg_ok ps ->
  ffdc_view c h (be_words (concat (pkg_words <$> ps))) ->
  Z.of_nat (4 * length (concat (pkg_words <$> ps))) + 4 < 2 ^ 32 -> (length ps < fuel)%nat ->
  sbefifo_ffdc_dump fuel (World h n (Sbe c d tr))
  = (Ret true, World h n (Sbe c d (tr ++ concat (pkg_lines <$> ps)))).
Proof.
  intros Ho Hps Hv Hs Hf.
  assert (Hr : Forall (in_range 32) (concat (pkg_words <$> ps))).
  { apply Forall_concat, Forall_fmap. eapply Forall_impl; [exact Hps|]. apply pkg_words_range. }
  assert (H : wp (sbefifo_ffdc_dump fuel) (World h n (Sbe c d tr)) (fun r w' =>
    r = inr true /\ w' = World h n (Sbe c d (tr ++ concat (pkg_lines <$> ps))))).
  { eapply (wp_dump_loop_words _ _ _ _ (concat (pkg_words <$> ps)) Ho Hv Hr Hs ps _ 0); try done. lia. }
  unfold wp in H. destruct (sbefifo_ffdc_dump fuel _) as [[] w']; try done;
    destruct H as [E ->]; congruence.
Qed.

(** A session gives everything back: connecting, running any sequence of the commands
    listed in [sbe_call], whatever each of them returns, and disconnecting never
    crashes, runs every command, and leaves the heap as it was, unless one of
    the commands timed out. The replies have the format of a reply. *)
Theorem session_tidy path p ks h n (s : sbe D) :
  heap_ok h n ->
  wp (session path p ks) (World h n s) (fun r w' =>
    match r with
    | inl _ => w_heap w' = h
    | inr rs => length rs = length ks /\ (w_heap w' = h \/ In (inl ETIMEDOUT) rs)
    end).
Proof.
  intros Hok. destruct s as [c d tr]. assert (Hfr := heap_ok_fresh _ _ Hok).
  apply wp_bind. unfold sbefifo_connect. destruct (negb (proc_valid p)); [by apply wp_fail|].
  apply wp_bind, wp_malloc; intros Hc; cbn [is_null]; [|by apply wp_fail].
  apply wp_bind, wp_put_sctx, wp_bind, wp_get_st. cbn [dev sctx trace].
  destruct (sys_open d path) as [d1 [errno|f]]; apply wp_bind, wp_put_st.
  { apply wp_bind. eapply wp_free; [apply lookup_insert_eq|].
    apply wp_fail. simpl. by rewrite delete_insert_id. }
  apply wp_bind, wp_put_sctx, wp_ret, wp_bind.
  eapply wp_mono; [eapply run_calls_ok; [eauto with cmem|reflexivity]|].
  intros r w' (rs & h' & n' & c' & d' & tr' & hf & -> & Hl & -> & Hok' & Hs & Ho & Hsub & Hhf).
  apply wp_bind. eapply wp_disconnect; [exact Ho|eapply lookup_weaken; [apply lookup_insert_eq|done]|].
  intros d2 _. apply wp_ret. split; [done|]. destruct Hhf as [->|Hin]; [left|by right].
  simpl. by rewrite delete_insert_id.
Qed.
End Lifecycle.

(** ** Witnesses *)

#[local] Existing Instance always_alloc.
#[local] Existing Instance any_data.

Definition scom_read_reply : list Z := frame_reply 0xA201 [1; 2; 3; 4; 5; 6; 7; 8] 0 [].
#[local] Instance scom_read_kernel : Kernel unit := fixed_kernel scom_read_reply.

Lemma scom_read_kernel_ok : KernelOk unit.
Proof. solve_kernel. Qed.

Lemma heap_ok_singleton l : heap_ok {[0%nat := l]} 1.
Proof. intros b Hb. apply lookup_singleton_ne. lia. Qed.

Definition frame_heap : gmap nat (list mval) := {[0%nat := (Some <$> scom_read_reply) ++ []]}.

Lemma parse_output_frame_witness :
  wp (sbefifo_parse_output 0xA201 (Ptr 0 0) 20) (World frame_heap 1 (Sbe (ctx0 2) tt []))
    (fun res w' => exists h' n' c', w' = World h' n' (Sbe c' tt []) /\
       exists p, res = inr (p, 8) /\ points h' p 8 [1; 2; 3; 4; 5; 6; 7; 8] /\ status c' = 0 /\
         ffdc_view c' h' []).
Proof.
  exact (parse_output_frame (ctx0 2) frame_heap frame_heap 1 tt [] 0xA201 0
    [1; 2; 3; 4; 5; 6; 7; 8] 0 [] [] no_oom (heap_ok_singleton _) eq_refl
    (ex_intro _ [] (conj eq_refl eq_refl)) I ltac:(solve_bytes) ltac:(constructor)
    ltac:(by exists 0) ltac:(done) ltac:(done) ltac:(done) eq_refl).
Defined.

(** A context that holds the FFDC data [f] in block 0. *)
Definition ffdc_ctx (f : list Z) : sbefifo_context := Sctx 3 2 false 0 (Ptr 0 0) (Z.of_nat (length f)).
Definition ffdc_heap (f : list Z) : gmap nat (list mval) := {[0%nat := Some <$> f]}.

Lemma ffdc_ctx_own f : exists h0, own (ffdc_ctx f) (ffdc_heap f) h0.
Proof. exists ∅. split; [done|]. split; [apply lookup_empty|]. by exists (Some <$> f). Qed.

Lemma ffdc_ctx_view f : ffdc_view (ffdc_ctx f) (ffdc_heap f) f.
Proof. split; [done|]. apply lookup_singleton_eq. Qed.

(** A header that announces more data than there is. *)
Lemma ffdc_dump_terminates_witness :
  exists ls, sbefifo_ffdc_dump 17 (World (ffdc_heap (be_words [0xffdc0009; 0x1a201; 5; 7])) 1
                                    (Sbe (ffdc_ctx (be_words [0xffdc0009; 0x1a201; 5; 7])) tt []))
    = (Ret true, World (ffdc_heap (be_words [0xffdc0009; 0x1a201; 5; 7])) 1
                   (Sbe (ffdc_ctx (be_words [0xffdc0009; 0x1a201; 5; 7])) tt ([] ++ (EvPrint <$> ls)))).
Proof.
  exact (ffdc_dump_terminates _ 1 _ tt (be_words [0xffdc0009; 0x1a201; 5; 7]) [] 17
           (ffdc_ctx_own _) (ffdc_ctx_view _) ltac:(done) ltac:(simpl; lia)).
Defined.

Definition two_packages : list ffdc_pkg := [FfdcPkg 1 0xa201 5 [7; 8]; FfdcPkg 2 0xa401 6 []].

Lemma two_packages_ok : Forall pkg_ok two_packages.
Proof. repeat constructor; unfold in_range; cbn; lia. Qed.

Lemma ffdc_dump_prints_witness :
  sbefifo_ffdc_dump 3 (World (ffdc_heap (be_words (concat (pkg_words <$> two_packages)))) 1
     (Sbe (ffdc_ctx (be_words (concat (pkg_words <$> two_packages)))) tt []))
  = (Ret true, World (ffdc_heap (be_words (concat (pkg_words <$> two_packages)))) 1
       (Sbe (ffdc_ctx (be_words (concat (pkg_words <$> two_packages)))) tt
          (EvPrint <$> [FfdcSequence 1; FfdcCommand 0xa201; FfdcRc 5; FfdcData 7; FfdcData 8;
                        FfdcSequence 2; FfdcCommand 0xa401; FfdcRc 6]))).
Proof.
  exact (ffdc_dump_prints _ 1 _ tt two_packages [] 3 (ffdc_ctx_own _)
           two_packages_ok (ffdc_ctx_view _) ltac:(done) ltac:(simpl; lia)).
Defined.

Lemma session_tidy_witness :
  wp (session "/dev/sbefifo1" 2 [CallScomGet 0xF000F; CallQuiesce]) (World ∅ 0 (Sbe (ctx0 2) tt []))
    (fun r w' => match r with
     | inl _ => w_heap w' = ∅
     | inr rs => length rs = 2%nat /\ (w_heap w' = ∅ \/ In (inl ETIMEDOUT) rs) end) /\
  (session "/dev/sbefifo1" 2 [CallScomGet 0xF000F; CallQuiesce] (World ∅ 0 (Sbe (ctx0 2) tt []))).1
  = Ret [inr (Some 0x102030405060708); inl EPROTO].
Proof.
  split; [|vm_compute; reflexivity].
  exact (session_tidy (KO := scom_read_kernel_ok) "/dev/sbefifo1" 2 [CallScomGet 0xF000F; CallQuiesce]
           ∅ 0 (Sbe (ctx0 2) tt []) (heap_ok_empty 0)).
Defined.

(** ** libsbefifo: where the code does not do what it means to

    Each statement runs the code on a concrete reply and shows the outcome.
    [fixed_kernel] answers with one reply, [deaf_kernel] fails every timeout
    ioctl, [slow_kernel] times out. *)

#[local] Existing Instance always_alloc.

Definition EBADF : Z := 9.

Definition deaf_kernel (reply : list Z) : Kernel unit := {|
  sys_open _ _ := (tt, inr 3);
  sys_close _ _ := tt;
  sys_write _ _ bs := (tt, inr (Z.of_nat (length bs)));
  sys_read _ _ _ := (tt, inr reply);
  sys_ioctl _ _ _ := (tt, inl EBADF);
  ext_transport _ _ _ := (tt, inr reply)
|}.

Definition slow_kernel : Kernel unit := {|
  sys_open _ _ := (tt, inr 3);
  sys_close _ _ := tt;
  sys_write _ _ bs := (tt, inr (Z.of_nat (length bs)));
  sys_read _ _ _ := (tt, inl ETIMEDOUT);
  sys_ioctl _ _ _ := (tt, inr 0);
  ext_transport _ _ _ := (tt, inl ETIMEDOUT)
|}.

(** Blocks on the heap after a run. *)
Definition blocks {A} (r : outcome A * world (sbe unit)) : list nat :=
  elements (dom (w_heap r.2)).

(** The capabilities reply is decoded only when it has 26 words, and then the
    twentieth capability is read beyond its end; a reply of 28 words, which
    holds them all, is refused. *)
Theorem get_capabilities_overreads :
  (sbefifo_get_capabilities (K := fixed_kernel (frame_reply 0xA802 (replicate 104 0) 0 []))
     (world0 2)).1 = Crash OutOfBounds /\
  (sbefifo_get_capabilities (K := fixed_kernel (frame_reply 0xA802 (replicate 112 0) 0 []))
     (world0 2)).1 = Fail EPROTO.
Proof. split; vm_compute; reflexivity. Qed.

(** The reply of [sbefifo_get_ffdc] stays on the heap beside the copy that the
    context keeps. *)
Theorem get_ffdc_leaks :
  let r := sbefifo_get_ffdc (K := fixed_kernel (frame_reply 0xA801 (replicate 16 1) 0 [])) (world0 2) in
  r.1 = Ret tt /\ length (blocks r) = 2%nat.
Proof. split; vm_compute; reflexivity. Qed.

(** The request of [sbefifo_ring_put_from_image] is never freed; a failed
    exchange frees an uninitialised pointer, and a reply with data is freed
    twice. *)
Theorem ring_put_from_image_memory :
  (let r := sbefifo_ring_put_from_image (K := fixed_kernel (frame_reply 0xA303 [] 0 [])) 1 2 3 4 (world0 1) in
   r.1 = Ret tt /\ length (blocks r) = 1%nat) /\
  (sbefifo_ring_put_from_image (K := slow_kernel) 1 2 3 4 (world0 1)).1 = Crash Uninit /\
  (sbefifo_ring_put_from_image (K := fixed_kernel (frame_reply 0xA303 [1; 2; 3; 4] 0 [])) 1 2 3 4
     (world0 1)).1 = Crash BadFree.
Proof. cbv zeta. split_and!; vm_compute; reflexivity. Qed.

(** The request of the register commands is not freed when the timeout cannot
    be set, and the timeout is not reset when the exchange fails. *)
Theorem register_get_leaks :
  (let r := sbefifo_register_get (K := deaf_kernel []) 1 0 0 [3] 1 (world0 2) in
   r.1 = Fail (-1) /\ length (blocks r) = 1%nat) /\
  (let r := sbefifo_register_get (K := fixed_kernel []) 1 0 0 [3] 1 (world0 2) in
   r.1 = Fail EPROTO /\ EvIoctl 0 ∉ trace (w_st r.2)).
Proof.
  split; [split; vm_compute; reflexivity|]. split; [vm_compute; reflexivity|].
  vm_compute. intros H. repeat (apply elem_of_cons in H as [H|H]; [discriminate|]).
  by apply elem_of_nil in H.
Qed.

(** A context with a transport of the caller has no descriptor; setting the
    timeout on it fails, so the long-running commands never reach the
    transport, while a SCOM read over the same transport works. *)
Theorem long_commands_need_a_descriptor :
  let w := World ∅ 0 (Sbe (Sctx (-1) 2 true 0 Null 0) tt []) in
  let r := sbefifo_quiesce (K := deaf_kernel (frame_reply 0xA803 [] 0 [])) w in
  r.1 = Fail (-1) /\ trace (w_st r.2) = [EvIoctl 30] /\
  (sbefifo_scom_get (K := deaf_kernel (frame_reply 0xA201 [0; 0; 0; 0; 0; 0; 0; 9] 0 [])) 1 w).1 = Ret 9.
Proof. cbv zeta. split_and!; vm_compute; reflexivity. Qed.

(** The distance word of a reply is used without a check. *)
Theorem bad_distance_word_overreads :
  (sbefifo_suspend_io (K := fixed_kernel (replicate 8 0 ++ be_bytes 4 0x3fff0000)) (world0 2)).1
  = Crash OutOfBounds.
Proof. vm_compute. reflexivity. Qed.

(** So is the length word of a memory read. *)
Theorem bad_length_word_overreads :
  (sbefifo_mem_get (K := fixed_kernel (frame_reply 0xA401 (replicate 8 0 ++ be_bytes 4 0x100) 0 []))
     0 8 1 (world0 2)).1 = Crash OutOfBounds.
Proof. vm_compute. reflexivity. Qed.

(** A timeout replaces the FFDC pointer of the context without freeing the
    block it points to. *)
Theorem timeout_leaks_ffdc :
  let w := World {[0%nat := [Some 1]]} 1 (Sbe (Sctx 3 2 false 1 (Ptr 0 0) 1) tt []) in
  let r := sbefifo_suspend_io (K := slow_kernel) w in
  r.1 = Fail ETIMEDOUT /\ length (blocks r) = 2%nat /\ ffdc (sctx (w_st r.2)) <> Ptr 0 0.
Proof. split; [vm_compute; reflexivity|]. split; [vm_compute; reflexivity|]. vm_compute. congruence. Qed.

(** The request of an SRAM write carries the first data word in place of the
    length and ends with four bytes that were never written, whatever is
    written; for eight bytes of data these are the bytes that leave the host. *)
Theorem sram_put_loses_length :
  let r := sbefifo_sram_put (K := fixed_kernel (frame_reply 0xA404 [0; 0; 0; 8] 0 [])) 5 0x1000
             (Some <$> [1; 2; 3; 4; 5; 6; 7; 8]) 8 false 1 (world0 2) in
  r.1 = Ret tt /\
  trace (w_st r.2) !! 1%nat = Some (EvWrite
    (msg_bytes [8; 0xA404; 0x50001; 0; 0x1000] ++ (Some <$> [1; 2; 3; 4; 5; 6; 7; 8])
     ++ replicate 4 None)).
Proof. split; vm_compute; reflexivity. Qed.

(** The mask of an SRAM read has 32 bits: an address above 4 GiB is read at
    its low half. *)
Theorem sram_get_truncates_address :
  let r := sbefifo_sram_get (K := fixed_kernel []) 5 0x100001000 8 1 (world0 2) in
  trace (w_st r.2) !! 1%nat = Some (EvWrite (msg_bytes [6; 0xA403; 0x50001; 0; 0x1000; 1])).
Proof. vm_compute. reflexivity. Qed.
