(* ===== verification/Cronus.v ===== *)
(** * libcronus: the client of a Cronus server

    Models libcronus/buffer.c, request.c, cfam.c, scom.c, sbefifo.c and
    connect.c. The sockets and the name service are the operations of the class
    [Server]; a [struct cronus_buffer], which lives on the stack of its user,
    is passed and returned by value. *)

From S2P Require Import Prelude CMem SbeCore.

Definition INSTRUCTION_TYPE_FSI : Z := 1.
Definition INSTRUCTION_TYPE_SBEFIFO : Z := 13.
Definition INSTRUCTION_CMD_READSPMEM : Z := 13.
Definition INSTRUCTION_CMD_WRITESPMEM : Z := 14.
Definition INSTRUCTION_CMD_SCOMIN : Z := 15.
Definition INSTRUCTION_CMD_SCOMOUT : Z := 16.
Definition INSTRUCTION_CMD_SUBMIT : Z := 77.
Definition INSTRUCTION_FLAG_64BIT_ADDRESS : Z := 0x00008000.
Definition INSTRUCTION_FLAG_DEVSTR : Z := 0x00004000.
Definition INSTRUCTION_FLAG_CFAM_MAILBOX : Z := 0x00002000.
Definition INSTRUCTION_FLAG_NO_PIB_RESET : Z := 0x00000200.
Definition RESULT_TYPE_ECMD_DBUF : Z := 0.
Definition RESULT_TYPE_INSTRUCTION_STATUS : Z := 1.
Definition ECMD_ERR_CRONUS : Z := 0x02000000.
Definition SERVER_COMMAND_COMPLETE : Z := Z.lor ECMD_ERR_CRONUS 0x402000.

(** What the client asks of its environment, oldest first. *)
Inductive cevent :=
| CevWrite (bs : list mval)
| CevRead (len : Z)
| CevPrint (s : list mval).

Class Server (D : Type) := {
  srv_resolve : D -> string -> D * bool;
  srv_socket : D -> D * (Z + Z);
  srv_connect : D -> Z -> D * (Z + unit);
  srv_close : D -> Z -> D;
  srv_write : D -> Z -> list mval -> D * (Z + Z);
  srv_read : D -> Z -> Z -> D * (Z + list Z)
}.

(** [struct cronus_context] *)
Record cronus_context := Cctx {
  c_fd : Z;
  c_key : Z;
  c_server_version : Z
}.

(** [struct cronus_buffer] *)
Record cronus_buffer := Cbuf {
  cb_ptr : ptr;
  cb_size : Z;
  cb_offset : Z
}.

(** [struct cronus_reply] *)
Record cronus_reply := Creply {
  r_status_version : Z;
  r_instruction_version : Z;
  r_rc : Z;
  r_status_len : Z;
  r_status : ptr;
  r_error : ptr;
  r_data_len : Z;
  r_data : ptr
}.

Record cro (D : Type) := Cro {
  cctx : cronus_context;
  cdev : D;
  ctrace : list cevent
}.
Arguments Cro {D} _ _ _.
Arguments cctx {D} _.
Arguments cdev {D} _.
Arguments ctrace {D} _.

(** [sizeof(struct cronus_context)] *)
Definition sizeof_cctx : Z := 12.

Section Cronus.
Context {D : Type} {Sv : Server D} {Al : Allocator}.

Definition get_cctx : M (cro D) cronus_context := s ← get_st; mret (cctx s).
Definition put_cctx (c : cronus_context) : M (cro D) unit :=
  s ← get_st; put_st (Cro c (cdev s) (ctrace s)).
Definition clog (e : cevent) : M (cro D) unit :=
  s ← get_st; put_st (Cro (cctx s) (cdev s) (ctrace s ++ [e])).
Definition srv_call {A} (es : list cevent) (f : D -> D * A) : M (cro D) A :=
  s ← get_st;
  let '(d', a) := f (cdev s) in
  put_st (Cro (cctx s) d' (ctrace s ++ es));; mret a.

(** ** buffer.c *)

Definition cbuf_new (size : Z) : M (cro D) cronus_buffer :=
  p ← malloc size;
  if is_null p then fail ENOMEM else mret (Cbuf p size 0).

Definition cbuf_new_from_buf (src : ptr) (size : Z) : M (cro D) cronus_buffer :=
  cbuf ← cbuf_new size;
  memcpy (cb_ptr cbuf) src size;;
  mret cbuf.

Definition cbuf_free (cbuf : cronus_buffer) : M (cro D) unit := free (cb_ptr cbuf).

Definition cbuf_init (p : ptr) (size : Z) : cronus_buffer := Cbuf p size 0.

Definition cbuf_finish (cbuf : cronus_buffer) : ptr * Z := (cb_ptr cbuf, cb_offset cbuf).

Definition cbuf_check_offset (cbuf : cronus_buffer) (count : Z) : M (cro D) unit :=
  c_assert (u64 (cb_offset cbuf + count) <=? cb_size cbuf).

Definition cbuf_advance (cbuf : cronus_buffer) (count : Z) : cronus_buffer :=
  Cbuf (cb_ptr cbuf) (cb_size cbuf) (u64 (cb_offset cbuf + count)).

(** The bytes written are those of an object of the caller. *)
Definition cbuf_write (cbuf : cronus_buffer) (bytes : list mval) (count : Z)
  : M (cro D) cronus_buffer :=
  cbuf_check_offset cbuf count;;
  copy_in (ptr_add (cb_ptr cbuf) (cb_offset cbuf)) bytes count;;
  mret (cbuf_advance cbuf count).

(** [cbuf_read] into a block of the caller. *)
Definition cbuf_read (cbuf : cronus_buffer) (bytes : ptr) (count : Z) : M (cro D) cronus_buffer :=
  cbuf_check_offset cbuf count;;
  memcpy bytes (ptr_add (cb_ptr cbuf) (cb_offset cbuf)) count;;
  mret (cbuf_advance cbuf count).

(** [cbuf_read] of [count] bytes into a local variable, as a big-endian number. *)
Definition cbuf_read_be (cbuf : cronus_buffer) (count : Z) : M (cro D) (Z * cronus_buffer) :=
  cbuf_check_offset cbuf count;;
  bs ← load_bytes (ptr_add (cb_ptr cbuf) (cb_offset cbuf)) count;
  l ← defined bs;
  mret (be_val l, cbuf_advance cbuf count).

Definition cbuf_write_uint8 (cbuf : cronus_buffer) (value : Z) : M (cro D) cronus_buffer :=
  cbuf_write cbuf (Some <$> be_bytes 1 value) 1.
Definition cbuf_read_uint8 (cbuf : cronus_buffer) : M (cro D) (Z * cronus_buffer) := cbuf_read_be cbuf 1.
Definition cbuf_write_uint16 (cbuf : cronus_buffer) (value : Z) : M (cro D) cronus_buffer :=
  cbuf_write cbuf (Some <$> be_bytes 2 value) 2.
Definition cbuf_read_uint16 (cbuf : cronus_buffer) : M (cro D) (Z * cronus_buffer) := cbuf_read_be cbuf 2.
Definition cbuf_write_uint32 (cbuf : cronus_buffer) (value : Z) : M (cro D) cronus_buffer :=
  cbuf_write cbuf (Some <$> be_bytes 4 value) 4.
Definition cbuf_read_uint32 (cbuf : cronus_buffer) : M (cro D) (Z * cronus_buffer) := cbuf_read_be cbuf 4.
Definition cbuf_write_uint64 (cbuf : cronus_buffer) (value : Z) : M (cro D) cronus_buffer :=
  cbuf_write cbuf (Some <$> be_bytes 8 value) 8.
Definition cbuf_read_uint64 (cbuf : cronus_buffer) : M (cro D) (Z * cronus_buffer) := cbuf_read_be cbuf 8.

(** ** connect.c *)

Definition cronus_key : M (cro D) Z :=
  c ← get_cctx;
  put_cctx (Cctx (c_fd c) (u32 (c_key c + 1)) (c_server_version c));;
  mret (c_key c).

(** [pkt] has ten words; the second one identifies the server. *)
Definition cronus_wait_for_feedbobo : M (cro D) unit :=
  c ← get_cctx;
  r ← srv_call [CevRead 40] (fun d => srv_read d (c_fd c) 40);
  match r with
  | inl errno => fail errno
  | inr bs =>
      if negb (Z.of_nat (length bs) =? 2 * 4) then fail EPROTO else
      let word := be_val (slice 4 4 bs) in
      if negb (Z.land word 0xFFFFFFF0 =? 0xFEEDB0B0) then fail EPROTO else
      put_cctx (Cctx (c_fd c) (c_key c) (Z.land word 0x0000000F))
  end.

(** [hostname] is [None] for NULL; [out] tells whether there is a place for the result. *)
Definition cronus_connect (hostname : option string) (out : bool) : M (cro D) ptr :=
  match hostname with
  | None => fail EINVAL
  | Some hostname =>
  if negb out then fail EINVAL else
  ok ← srv_call [] (fun d => srv_resolve d hostname);
  if negb ok then fail EIO else
  blk ← malloc sizeof_cctx;
  if is_null blk then fail ENOMEM else
  put_cctx (Cctx (-1) 0x11111111 0);;
  r ← srv_call [] srv_socket;
  match r with
  | inl errno => fail errno
  | inr fd =>
      r ← srv_call [] (fun d => srv_connect d fd);
      match r with
      | inl errno => srv_call [] (fun d => (srv_close d fd, tt));; fail errno
      | inr _ =>
          put_cctx (Cctx fd 0x11111111 0);;
          r ← attempt cronus_wait_for_feedbobo;
          match r with
          | inl rc => srv_call [] (fun d => (srv_close d fd, tt));; fail rc
          | inr _ => mret blk
          end
      end
  end
  end.

Definition cronus_disconnect (blk : ptr) : M (cro D) unit :=
  c_assert (negb (is_null blk));;
  c ← get_cctx;
  (if negb (c_fd c =? -1) then
     srv_call [] (fun d => (srv_close d (c_fd c), tt));;
     put_cctx (Cctx (-1) (c_key c) (c_server_version c))
   else mret tt);;
  free blk.

(** ** request.c *)

Definition cronus_request (key out_len : Z) (request : cronus_buffer) : M (cro D) cronus_buffer :=
  c ← get_cctx;
  c_assert (negb (c_fd c =? -1));;
  let '(p, len) := cbuf_finish request in
  c_assert (0 <? len);;
  let buflen := u32 (1024 + out_len) in
  buf ← malloc buflen;
  if is_null buf then fail ENOMEM else
  bs ← load_bytes p len;
  r ← srv_call [CevWrite bs] (fun d => srv_write d (c_fd c) bs);
  match r with
  | inl errno => free buf;; fail errno
  | inr n =>
      if negb (n =? len) then free buf;; fail EIO else
      r ← srv_call [CevRead buflen] (fun d => srv_read d (c_fd c) buflen);
      match r with
      | inl errno => free buf;; fail errno
      | inr rs =>
          store_bytes buf (Some <$> rs);;
          r ← attempt (cbuf_new_from_buf buf (Z.of_nat (length rs)));
          free buf;;
          check r
      end
  end.

Definition cronus_parse_ecmd_dbuf (cbuf : cronus_buffer) (size : Z) (reply : cronus_reply)
  : M (cro D) (cronus_buffer * cronus_reply) :=
  data ← malloc size;
  if is_null data then fail ENOMEM else
  cbuf ← cbuf_read cbuf data size;
  mret (cbuf, Creply (r_status_version reply) (r_instruction_version reply) (r_rc reply)
                (r_status_len reply) (r_status reply) (r_error reply) size data).

Definition cronus_parse_instruction_status (cbuf : cronus_buffer) (size : Z) (reply : cronus_reply)
  : M (cro D) (cronus_buffer * cronus_reply) :=
  if size <? 4 * 4 then fail EPROTO else
  '(status_version, cbuf) ← cbuf_read_uint32 cbuf;
  '(instruction_version, cbuf) ← cbuf_read_uint32 cbuf;
  '(rc, cbuf) ← cbuf_read_uint32 cbuf;
  '(status_len, cbuf) ← cbuf_read_uint32 cbuf;
  let offset := 4 * 4 in
  if size <? u32 (offset + status_len) then fail EPROTO else
  status ← malloc status_len;
  if is_null status then fail ENOMEM else
  cbuf ← cbuf_read cbuf status status_len;
  mret (cbuf, Creply status_version instruction_version rc status_len status
                (r_error reply) (r_data_len reply) (r_data reply)).

(** One iteration of the loop over the replies. *)
Definition cronus_parse_one (key : Z) (cbuf : cronus_buffer) (reply : cronus_reply)
  : M (cro D) (cronus_buffer * cronus_reply) :=
  '(rkey, cbuf) ← cbuf_read_uint32 cbuf;
  if negb (rkey =? key) then fail EPROTO else
  '(type, cbuf) ← cbuf_read_uint32 cbuf;
  '(size, cbuf) ← cbuf_read_uint32 cbuf;
  if type =? RESULT_TYPE_ECMD_DBUF then cronus_parse_ecmd_dbuf cbuf size reply
  else if type =? RESULT_TYPE_INSTRUCTION_STATUS then cronus_parse_instruction_status cbuf size reply
  else fail (-1).

Fixpoint cronus_parse_loop (k : nat) (key : Z) (cbuf : cronus_buffer) (reply : cronus_reply)
  : M (cro D) (cronus_buffer * cronus_reply) :=
  match k with
  | O => mret (cbuf, reply)
  | S k' =>
      '(cbuf, reply) ← cronus_parse_one key cbuf reply;
      cronus_parse_loop k' key cbuf reply
  end.

Definition cronus_parse_reply (key : Z) (cbuf : cronus_buffer) : M (cro D) cronus_reply :=
  let reply := Creply 0 0 0 0 Null Null 0 Null in
  '(num_replies, cbuf) ← cbuf_read_uint32 cbuf;
  if negb (num_replies =? 2) then fail EPROTO else
  '(cbuf, reply) ← cronus_parse_loop (Z.to_nat num_replies) key cbuf reply;
  if negb (r_rc reply =? SERVER_COMMAND_COMPLETE) then
    let size := u32 (cb_size cbuf - cb_offset cbuf) in
    error ← malloc size;
    if is_null error then fail ENOMEM else
    cbuf_read cbuf error size;;
    mret (Creply (r_status_version reply) (r_instruction_version reply) (r_rc reply)
            (r_status_len reply) (r_status reply) error (r_data_len reply) (r_data reply))
  else mret reply.

(** ** Requests

    A request is built by a sequence of [cbuf_write] calls, one per field. *)

Inductive cfield :=
| W32 (v : Z)
| W64 (v : Z)
| WBytes (bs : list mval) (count : Z).

Definition cbuf_write_field (cbuf : cronus_buffer) (f : cfield) : M (cro D) cronus_buffer :=
  match f with
  | W32 v => cbuf_write_uint32 cbuf v
  | W64 v => cbuf_write_uint64 cbuf v
  | WBytes bs count => cbuf_write cbuf bs count
  end.

Fixpoint cbuf_write_fields (cbuf : cronus_buffer) (fs : list cfield) : M (cro D) cronus_buffer :=
  match fs with
  | [] => mret cbuf
  | f :: fs' => cbuf ← cbuf_write_field cbuf f; cbuf_write_fields cbuf fs'
  end.

(** [char devstr[4] = "0\0\0\0"; devstr[0] = '1' + pib_index;] *)
Definition devstr (pib_index : Z) : list mval := [Some (49 + pib_index); Some 0; Some 0; Some 0].

Definition pib_index_ok (pib_index : Z) : bool := (pib_index =? 0) || (pib_index =? 1).

(** [if (reply.rc != SERVER_COMMAND_COMPLETE) { fprintf(stderr, "%s\n", reply.error); return EIO; }] *)
Definition check_complete (reply : cronus_reply) : M (cro D) unit :=
  if negb (r_rc reply =? SERVER_COMMAND_COMPLETE) then
    s ← load_cstr (r_error reply);
    clog (CevPrint s);;
    fail EIO
  else mret tt.

(** ** cfam.c *)

(** Neither the request nor the blocks of the reply are freed. *)
Definition cronus_getcfam (pib_index addr : Z) : M (cro D) Z :=
  c_assert (pib_index_ok pib_index);;
  cbuf_request ← cbuf_new 1024;
  key ← cronus_key;
  let flags := Z.lor (Z.lor INSTRUCTION_FLAG_DEVSTR INSTRUCTION_FLAG_CFAM_MAILBOX)
                     INSTRUCTION_FLAG_NO_PIB_RESET in
  cbuf_request ← cbuf_write_fields cbuf_request
    [W32 1;
     W32 key; W32 INSTRUCTION_TYPE_FSI; W32 (7 * 4);
     W32 5; W32 INSTRUCTION_CMD_READSPMEM; W32 flags; W32 addr; W32 (8 * 4);
     W32 4; WBytes (devstr pib_index) 4];
  cbuf_reply ← cronus_request key 0 cbuf_request;
  reply ← cronus_parse_reply key cbuf_reply;
  cbuf_free cbuf_reply;;
  check_complete reply;;
  let cbuf_reply := cbuf_init (r_data reply) (r_data_len reply) in
  '(capacity, cbuf_reply) ← cbuf_read_uint32 cbuf_reply;
  if negb (capacity =? 0x00000020) then fail EPROTO else
  '(bits, cbuf_reply) ← cbuf_read_uint32 cbuf_reply;
  if negb (bits =? 0x00000020) then fail EPROTO else
  '(value, _) ← cbuf_read_uint32 cbuf_reply;
  mret value.

Definition cronus_putcfam (pib_index addr value : Z) : M (cro D) unit :=
  c_assert (pib_index_ok pib_index);;
  cbuf_request ← cbuf_new 1024;
  key ← cronus_key;
  let flags := Z.lor (Z.lor INSTRUCTION_FLAG_DEVSTR INSTRUCTION_FLAG_CFAM_MAILBOX)
                     INSTRUCTION_FLAG_NO_PIB_RESET in
  cbuf_request ← cbuf_write_fields cbuf_request
    [W32 1;
     W32 key; W32 INSTRUCTION_TYPE_FSI; W32 (11 * 4);
     W32 5; W32 INSTRUCTION_CMD_WRITESPMEM; W32 flags; W32 addr; W32 (8 * 4);
     W32 4; W32 ((1 + 1 + 1) * 4); WBytes (devstr pib_index) 4;
     W32 (8 * 4); W32 (8 * 4); W32 value];
  cbuf_reply ← cronus_request key 0 cbuf_request;
  reply ← cronus_parse_reply key cbuf_reply;
  cbuf_free cbuf_request;;
  cbuf_free cbuf_reply;;
  check_complete reply.

(** ** scom.c *)

Definition cronus_getscom (pib_index addr : Z) : M (cro D) Z :=
  c_assert (pib_index_ok pib_index);;
  cbuf_request ← cbuf_new 1024;
  key ← cronus_key;
  let flags := Z.lor (Z.lor INSTRUCTION_FLAG_64BIT_ADDRESS INSTRUCTION_FLAG_DEVSTR)
                     INSTRUCTION_FLAG_NO_PIB_RESET in
  cbuf_request ← cbuf_write_fields cbuf_request
    [W32 1;
     W32 key; W32 INSTRUCTION_TYPE_FSI; W32 (8 * 4);
     W32 5; W32 INSTRUCTION_CMD_SCOMOUT; W32 flags; W64 addr; W32 (8 * 8);
     W32 4; WBytes (devstr pib_index) 4];
  cbuf_reply ← cronus_request key 0 cbuf_request;
  reply ← cronus_parse_reply key cbuf_reply;
  cbuf_free cbuf_request;;
  cbuf_free cbuf_reply;;
  check_complete reply;;
  let cbuf_reply := cbuf_init (r_data reply) (r_data_len reply) in
  '(capacity, cbuf_reply) ← cbuf_read_uint32 cbuf_reply;
  if negb (capacity =? 0x00000040) then fail EPROTO else
  '(bits, cbuf_reply) ← cbuf_read_uint32 cbuf_reply;
  if negb (bits =? 0x00000040) then fail EPROTO else
  '(value, _) ← cbuf_read_uint64 cbuf_reply;
  mret value.

Definition cronus_putscom (pib_index addr value : Z) : M (cro D) unit :=
  c_assert (pib_index_ok pib_index);;
  cbuf_request ← cbuf_new 1024;
  key ← cronus_key;
  let flags := Z.lor (Z.lor INSTRUCTION_FLAG_64BIT_ADDRESS INSTRUCTION_FLAG_DEVSTR)
                     INSTRUCTION_FLAG_NO_PIB_RESET in
  cbuf_request ← cbuf_write_fields cbuf_request
    [W32 1;
     W32 key; W32 INSTRUCTION_TYPE_FSI; W32 (13 * 4);
     W32 5; W32 INSTRUCTION_CMD_SCOMIN; W32 flags; W64 addr; W32 (8 * 8);
     W32 4; W32 ((1 + 1 + 2) * 4); WBytes (devstr pib_index) 4;
     W32 (8 * 8); W32 (8 * 8); W64 value];
  cbuf_reply ← cronus_request key 0 cbuf_request;
  reply ← cronus_parse_reply key cbuf_reply;
  cbuf_free cbuf_request;;
  cbuf_free cbuf_reply;;
  check_complete reply.

(** ** sbefifo.c *)

(** The request is given by its bytes, the reply buffer of the caller is the
    block [sbefifo_reply]; the result is the new [*reply_len]. *)
Definition cronus_submit (pib_index : Z) (sbefifo_request : list mval) (request_len : Z)
  (sbefifo_reply : ptr) (reply_len : Z) : M (cro D) Z :=
  c_assert (pib_index_ok pib_index);;
  cbuf_request ← cbuf_new (u32 (1024 + request_len));
  key ← cronus_key;
  let flags := Z.lor (Z.lor INSTRUCTION_FLAG_64BIT_ADDRESS INSTRUCTION_FLAG_DEVSTR)
                     INSTRUCTION_FLAG_NO_PIB_RESET in
  let timeout := 30 in
  cbuf_request ← cbuf_write_fields cbuf_request
    [W32 1;
     W32 key; W32 INSTRUCTION_TYPE_SBEFIFO; W32 (u32 (10 + request_len / 4) * 4);
     W32 1; W32 INSTRUCTION_CMD_SUBMIT; W32 flags; W32 timeout; W32 reply_len;
     W32 4; W32 request_len; WBytes (devstr pib_index) 4;
     W32 (request_len * 8); W32 (request_len * 8); WBytes sbefifo_request request_len];
  cbuf_reply ← cronus_request key reply_len cbuf_request;
  reply ← cronus_parse_reply key cbuf_reply;
  cbuf_free cbuf_request;;
  cbuf_free cbuf_reply;;
  check_complete reply;;
  let cbuf_reply := cbuf_init (r_data reply) (r_data_len reply) in
  '(capacity, cbuf_reply) ← cbuf_read_uint32 cbuf_reply;
  '(bits, cbuf_reply) ← cbuf_read_uint32 cbuf_reply;
  let reply_len := capacity / 8 in
  cbuf_read cbuf_reply sbefifo_reply reply_len;;
  mret reply_len.
End Cronus.
