(* ===== verification/CronusFacts.v ===== *)
(** * libcronus: specification and proofs

    A buffer being written is described by the bytes written so far, a buffer
    being read by the bytes already read and those to come. [server_reply] is
    the format of the answers of a Cronus server. *)

From S2P Require Import Prelude CMem SbeCore Cronus.

Definition cfield_bytes (f : cfield) : list mval :=
  match f with
  | W32 v => Some <$> be_bytes 4 v
  | W64 v => Some <$> be_bytes 8 v
  | WBytes bs count => take (Z.to_nat count) bs
  end.

(** The caller passes at least [count] bytes. *)
Definition cfield_ok (f : cfield) : Prop :=
  match f with WBytes bs count => 0 <= count <= Z.of_nat (length bs) | _ => True end.

Definition fields_bytes (fs : list cfield) : list mval := concat (cfield_bytes <$> fs).

Section Buffers.
Context {D : Type} {Sv : Server D} {Al : Allocator}.
Implicit Types (h : gmap nat (list mval)) (s : cro D).

(** A buffer of [k] bytes in block [b] with the bytes [l] written. *)
Definition wbuf (b : nat) (k : Z) (l : list mval) : cronus_buffer :=
  Cbuf (Ptr b 0) k (Z.of_nat (length l)).
Definition wblock (k : Z) (l : list mval) : list mval :=
  l ++ replicate (Z.to_nat k - length l) None.

Lemma wp_cbuf_write h n s b k l bs count Q :
  h !! b = Some (wblock k l) -> 0 <= count <= Z.of_nat (length bs) -> k < 2 ^ 64 ->
  Z.of_nat (length l) + count <= k ->
  Q (inr (wbuf b k (l ++ take (Z.to_nat count) bs)))
    (World (<[b := wblock k (l ++ take (Z.to_nat count) bs)]> h) n s) ->
  wp (cbuf_write (wbuf b k l) bs count) (World h n s) Q.
Proof.
  intros Hb Hc Hk Hl HQ. unfold cbuf_write, cbuf_check_offset, cbuf_advance. cbn [cb_offset cb_size cb_ptr wbuf].
  rewrite wrap_small by solve_range. apply wp_bind, wp_assert; [by apply Z.leb_le|].
  apply wp_bind. cbn [ptr_add]. eapply wp_copy_in; [exact Hb|lia|lia|lia| |].
  { unfold wblock. rewrite length_app, length_replicate. lia. }
  apply wp_ret. rewrite Z.add_0_l, Nat2Z.id. unfold wblock in *.
  rewrite patch_end by (rewrite length_take; lia).
  replace (Z.to_nat k - length l - length (take (Z.to_nat count) bs))%nat
    with (Z.to_nat k - length (l ++ take (Z.to_nat count) bs))%nat by (rewrite length_app; lia).
  replace (Z.of_nat (length l) + count) with (Z.of_nat (length (l ++ take (Z.to_nat count) bs)))
    by (rewrite length_app, length_take; lia).
  exact HQ.
Qed.

Lemma wp_cbuf_write_field h n s b k l f Q :
  h !! b = Some (wblock k l) -> cfield_ok f -> k < 2 ^ 64 ->
  Z.of_nat (length l) + Z.of_nat (length (cfield_bytes f)) <= k ->
  Q (inr (wbuf b k (l ++ cfield_bytes f))) (World (<[b := wblock k (l ++ cfield_bytes f)]> h) n s) ->
  wp (cbuf_write_field (wbuf b k l) f) (World h n s) Q.
Proof.
  destruct f as [v|v|bs count]; cbn [cfield_bytes cfield_ok cbuf_write_field]; intros Hb Hf Hk Hl HQ.
  - eapply wp_cbuf_write; try done; rewrite ?length_fmap, ?length_be_bytes in *; try lia.
  - eapply wp_cbuf_write; try done; rewrite ?length_fmap, ?length_be_bytes in *; try lia.
  - rewrite length_take in Hl. eapply wp_cbuf_write; try done. lia.
Qed.

Lemma wp_cbuf_write_fields n s b k fs : forall h l Q,
  h !! b = Some (wblock k l) -> Forall cfield_ok fs -> k < 2 ^ 64 ->
  Z.of_nat (length l) + Z.of_nat (length (fields_bytes fs)) <= k ->
  Q (inr (wbuf b k (l ++ fields_bytes fs))) (World (<[b := wblock k (l ++ fields_bytes fs)]> h) n s) ->
  wp (cbuf_write_fields (wbuf b k l) fs) (World h n s) Q.
Proof.
  unfold fields_bytes. induction fs as [|f fs IH]; intros h l Q Hb Hf Hk Hl HQ; cbn [cbuf_write_fields].
  - cbn in HQ. rewrite app_nil_r, insert_id in HQ by done. by apply wp_ret.
  - rewrite fmap_cons in *. cbn [concat] in *. rewrite length_app in Hl.
    apply Forall_cons in Hf as [Hf Hfs].
    apply wp_bind. eapply wp_cbuf_write_field; [done|done|done|lia|].
    eapply IH; [apply lookup_insert_eq|done|done|rewrite length_app; lia|].
    rewrite insert_insert_eq, <- app_assoc. exact HQ.
Qed.

(** A buffer in block [b] that holds [l ++ rest], with [l] already read. *)
Definition rbuf (b : nat) (l rest : list Z) : cronus_buffer :=
  Cbuf (Ptr b 0) (Z.of_nat (length (l ++ rest))) (Z.of_nat (length l)).

Lemma wp_cbuf_read_be h n s b l v rest count Q :
  h !! b = Some (Some <$> l ++ v ++ rest) -> count = Z.of_nat (length v) ->
  Z.of_nat (length (l ++ v ++ rest)) < 2 ^ 64 ->
  Q (inr (be_val v, rbuf b (l ++ v) rest)) (World h n s) ->
  wp (cbuf_read_be (rbuf b l (v ++ rest)) count) (World h n s) Q.
Proof.
  intros Hb -> Hk HQ. unfold cbuf_read_be, cbuf_check_offset, cbuf_advance, rbuf in *.
  cbn [cb_offset cb_size cb_ptr]. rewrite !length_app in *.
  rewrite wrap_small by solve_range. apply wp_bind, wp_assert; [apply Z.leb_le; lia|].
  apply wp_bind. cbn [ptr_add].
  eapply wp_load_bytes; [exact Hb|lia|lia|rewrite length_fmap, !length_app; lia|].
  rewrite Z.add_0_l, !Nat2Z.id, slice_map, slice_app_r, Nat.sub_diag, slice_app_l, slice_all by lia.
  apply wp_bind. unfold defined. rewrite mapM_id_Some. apply wp_ret, wp_ret.
  rewrite <- !Nat2Z.inj_add in *. rewrite <- !Nat.add_assoc in HQ. exact HQ.
Qed.

Lemma wp_cbuf_read_uint32 h n s b l v rest Q :
  h !! b = Some (Some <$> l ++ be_bytes 4 v ++ rest) -> in_range 32 v ->
  Z.of_nat (length (l ++ be_bytes 4 v ++ rest)) < 2 ^ 64 ->
  Q (inr (v, rbuf b (l ++ be_bytes 4 v) rest)) (World h n s) ->
  wp (cbuf_read_uint32 (rbuf b l (be_bytes 4 v ++ rest))) (World h n s) Q.
Proof.
  intros Hb Hv Hk HQ. eapply wp_cbuf_read_be; try done.
  by rewrite be_val_be32, wrap_small.
Qed.

(** [cbuf_read] into a block that is large enough. *)
Lemma wp_cbuf_read_into h n s b bd l v rest (old : list mval) count Q :
  h !! b = Some (Some <$> l ++ v ++ rest) -> h !! bd = Some old ->
  count = Z.of_nat (length v) -> (length v <= length old)%nat ->
  Z.of_nat (length (l ++ v ++ rest)) < 2 ^ 64 ->
  Q (inr (rbuf b (l ++ v) rest)) (World (<[bd := (Some <$> v) ++ drop (length v) old]> h) n s) ->
  wp (cbuf_read (rbuf b l (v ++ rest)) (Ptr bd 0) count) (World h n s) Q.
Proof.
  intros Hb Hd -> Hold Hk HQ. unfold cbuf_read, cbuf_check_offset, cbuf_advance, rbuf in *.
  cbn [cb_offset cb_size cb_ptr]. rewrite !length_app in *.
  rewrite wrap_small by solve_range. apply wp_bind, wp_assert; [apply Z.leb_le; lia|].
  apply wp_bind. cbn [ptr_add].
  eapply wp_memcpy; [exact Hd|exact Hb|lia|lia|lia|lia|rewrite length_fmap, !length_app; lia|].
  rewrite Z.add_0_l, !Nat2Z.id, slice_map, slice_app_r, Nat.sub_diag, slice_app_l, slice_all by lia.
  unfold patch. change (Z.to_nat 0) with 0%nat. rewrite take_0, app_nil_l, length_fmap, Nat.add_0_l.
  apply wp_ret. rewrite <- !Nat2Z.inj_add in *. rewrite <- !Nat.add_assoc in HQ. exact HQ.
Qed.

(** [cbuf_read] into a block of exactly the right size. *)
Lemma wp_cbuf_read h n s b bd l v rest (old : list mval) count Q :
  h !! b = Some (Some <$> l ++ v ++ rest) -> h !! bd = Some old ->
  count = Z.of_nat (length v) -> length old = length v ->
  Z.of_nat (length (l ++ v ++ rest)) < 2 ^ 64 ->
  Q (inr (rbuf b (l ++ v) rest)) (World (<[bd := Some <$> v]> h) n s) ->
  wp (cbuf_read (rbuf b l (v ++ rest)) (Ptr bd 0) count) (World h n s) Q.
Proof.
  intros Hb Hd -> Hold Hk HQ. eapply wp_cbuf_read_into; [done|exact Hd|done|lia|done|].
  rewrite drop_ge, app_nil_r by lia. exact HQ.
Qed.

(** [cbuf_read] of all that is left. *)
Lemma wp_cbuf_read_last h n s b bd l v (old : list mval) count Q :
  h !! b = Some (Some <$> l ++ v) -> h !! bd = Some old ->
  count = Z.of_nat (length v) -> (length v <= length old)%nat ->
  Z.of_nat (length (l ++ v)) < 2 ^ 64 ->
  Q (inr (rbuf b (l ++ v) [])) (World (<[bd := (Some <$> v) ++ drop (length v) old]> h) n s) ->
  wp (cbuf_read (rbuf b l v) (Ptr bd 0) count) (World h n s) Q.
Proof.
  intros Hb Hd Hc Hold Hk HQ. pose proof (wp_cbuf_read_into h n s b bd l v [] old count Q) as H.
  rewrite app_nil_r in H. auto.
Qed.
End Buffers.

(** ** Answers of the server *)

Definition dbuf_result (key : Z) (data : list Z) : list Z :=
  be_bytes 4 key ++ be_bytes 4 RESULT_TYPE_ECMD_DBUF ++ be_bytes 4 (Z.of_nat (length data)) ++ data.

Definition status_result (key sv iv rc : Z) (st : list Z) : list Z :=
  be_bytes 4 key ++ be_bytes 4 RESULT_TYPE_INSTRUCTION_STATUS
  ++ be_bytes 4 (16 + Z.of_nat (length st))
  ++ be_bytes 4 sv ++ be_bytes 4 iv ++ be_bytes 4 rc ++ be_bytes 4 (Z.of_nat (length st)) ++ st.

(** The two results of a request, data first or status first, and the error
    text that ends the answer. *)
Definition server_reply (data_first : bool) (key : Z) (data : list Z) (sv iv rc : Z)
  (st err : list Z) : list Z :=
  be_bytes 4 2
  ++ (if data_first then dbuf_result key data ++ status_result key sv iv rc st
      else status_result key sv iv rc st ++ dbuf_result key data) ++ err.

Section Parse.
Context {D : Type} {Sv : Server D} {Al : Allocator}.
Hypothesis Hal : forall k n, can_alloc k n = true.
Implicit Types (h : gmap nat (list mval)) (s : cro D).

Lemma wp_malloc_ok k h n s Q :
  Q (inr (Ptr n 0)) (World (<[n := replicate (Z.to_nat k) None]> h) (S n) s) ->
  wp (malloc k) (World h n s) Q.
Proof. intros HQ. apply wp_malloc; intros Hc; [done|]. by rewrite Hal in Hc. Qed.

Definition with_data (r : cronus_reply) (data : list Z) (b : nat) : cronus_reply :=
  Creply (r_status_version r) (r_instruction_version r) (r_rc r) (r_status_len r) (r_status r)
    (r_error r) (Z.of_nat (length data)) (Ptr b 0).

Definition with_status (r : cronus_reply) (sv iv rc : Z) (st : list Z) (b : nat) : cronus_reply :=
  Creply sv iv rc (Z.of_nat (length st)) (Ptr b 0) (r_error r) (r_data_len r) (r_data r).

(** Reads the next word of a concrete answer. *)
Ltac read32 Hb := eapply wp_cbuf_read_uint32;
  [rewrite <- ?app_assoc; exact Hb | done || solve_range | rewrite <- ?app_assoc; done |].

Lemma wp_parse_dbuf h n s b l rest key data r Q :
  let res := dbuf_result key data in
  heap_ok h n -> h !! b = Some (Some <$> l ++ res ++ rest) ->
  in_range 32 key -> Z.of_nat (length data) < 2 ^ 32 ->
  Z.of_nat (length (l ++ res ++ rest)) < 2 ^ 64 ->
  Q (inr (rbuf b (l ++ res) rest, with_data r data n)) (World (<[n := Some <$> data]> h) (S n) s) ->
  wp (cronus_parse_one key (rbuf b l (res ++ rest)) r) (World h n s) Q.
Proof.
  cbv zeta. unfold dbuf_result. rewrite <- !app_assoc. intros Hok Hb Hkey Hd Hk HQ.
  assert (Hnb : n <> b) by (intros <-; rewrite heap_ok_fresh in Hb; done).
  apply wp_bind. read32 Hb. rewrite Z.eqb_refl. cbn [negb].
  apply wp_bind. read32 Hb. apply wp_bind. read32 Hb.
  change (RESULT_TYPE_ECMD_DBUF =? RESULT_TYPE_ECMD_DBUF) with true. cbv iota.
  apply wp_bind, wp_malloc_ok. cbn [is_null]. apply wp_bind.
  eapply wp_cbuf_read; [rewrite lookup_insert_ne, <- !app_assoc by done; exact Hb
    |apply lookup_insert_eq|done|rewrite length_replicate; lia|by rewrite <- !app_assoc|].
  rewrite insert_insert_eq, <- !app_assoc. apply wp_ret. exact HQ.
Qed.

Lemma wp_parse_status h n s b l rest key sv iv rc st r Q :
  let res := status_result key sv iv rc st in
  heap_ok h n -> h !! b = Some (Some <$> l ++ res ++ rest) ->
  in_range 32 key -> in_range 32 sv -> in_range 32 iv -> in_range 32 rc ->
  16 + Z.of_nat (length st) < 2 ^ 32 ->
  Z.of_nat (length (l ++ res ++ rest)) < 2 ^ 64 ->
  Q (inr (rbuf b (l ++ res) rest, with_status r sv iv rc st n)) (World (<[n := Some <$> st]> h) (S n) s) ->
  wp (cronus_parse_one key (rbuf b l (res ++ rest)) r) (World h n s) Q.
Proof.
  cbv zeta. unfold status_result. rewrite <- !app_assoc. intros Hok Hb Hkey Hsv Hiv Hrc Hd Hk HQ.
  assert (Hnb : n <> b) by (intros <-; rewrite heap_ok_fresh in Hb; done).
  apply wp_bind. read32 Hb. rewrite Z.eqb_refl. cbn [negb].
  apply wp_bind. read32 Hb. apply wp_bind. read32 Hb.
  change (RESULT_TYPE_INSTRUCTION_STATUS =? RESULT_TYPE_ECMD_DBUF) with false.
  change (RESULT_TYPE_INSTRUCTION_STATUS =? RESULT_TYPE_INSTRUCTION_STATUS) with true. cbv iota.
  unfold cronus_parse_instruction_status.
  destruct (Z.ltb_spec (16 + Z.of_nat (length st)) (4 * 4)); [lia|].
  apply wp_bind. read32 Hb. apply wp_bind. read32 Hb. apply wp_bind. read32 Hb. apply wp_bind. read32 Hb.
  cbv zeta. rewrite wrap_small by solve_range.
  destruct (Z.ltb_spec (16 + Z.of_nat (length st)) (4 * 4 + Z.of_nat (length st))); [lia|].
  apply wp_bind, wp_malloc_ok. cbn [is_null]. apply wp_bind.
  eapply wp_cbuf_read; [rewrite lookup_insert_ne, <- !app_assoc by done; exact Hb
    |apply lookup_insert_eq|done|rewrite length_replicate; lia|by rewrite <- !app_assoc|].
  rewrite insert_insert_eq, <- !app_assoc. apply wp_ret. exact HQ.
Qed.

Section Answer.
Context (data_first : bool) (key : Z) (data : list Z) (sv iv rc : Z) (st err : list Z).
Let l := server_reply data_first key data sv iv rc st err.
Hypothesis Hkey : in_range 32 key.
Hypothesis Hsv : in_range 32 sv.
Hypothesis Hiv : in_range 32 iv.
Hypothesis Hrc : in_range 32 rc.
Hypothesis Hlen : Z.of_nat (length l) < 2 ^ 32.

(** Blocks that hold the data and the status once the answer is parsed. *)
Definition data_block (n : nat) : nat := if data_first then n else S n.
Definition status_block (n : nat) : nat := if data_first then S n else n.
Definition answer_heap (n : nat) h : gmap nat (list mval) :=
  <[data_block n := Some <$> data]> (<[status_block n := Some <$> st]> h).
Definition answer (n : nat) (error : ptr) : cronus_reply :=
  Creply sv iv rc (Z.of_nat (length st)) (Ptr (status_block n) 0) error
    (Z.of_nat (length data)) (Ptr (data_block n) 0).

Lemma length_answer_parts :
  Z.of_nat (length data) + Z.of_nat (length st) + Z.of_nat (length err) + 44 = Z.of_nat (length l).
Proof.
  unfold l, server_reply, dbuf_result, status_result.
  destruct data_first; rewrite !length_app, !length_be_bytes; lia.
Qed.

Lemma wp_parse_results h n s b Q :
  heap_ok h n -> h !! b = Some (Some <$> l) ->
  Q (inr (rbuf b (take (length l - length err) l) err, answer n Null)) (World (answer_heap n h) (S (S n)) s) ->
  wp (cronus_parse_loop 2 key (rbuf b (be_bytes 4 2) (drop 4 l)) (Creply 0 0 0 0 Null Null 0 Null))
     (World h n s) Q.
Proof.
  intros Hok Hb HQ. pose proof length_answer_parts as El.
  assert (Hk : Z.of_nat (length l) < 2 ^ 64) by lia.
  assert (Hld : Z.of_nat (length data) < 2 ^ 32) by lia.
  assert (Hls : 16 + Z.of_nat (length st) < 2 ^ 32) by lia.
  assert (Hnb : n <> b) by (intros <-; rewrite heap_ok_fresh in Hb; done).
  assert (Hl : l = be_bytes 4 2 ++ drop 4 l) by (unfold l, server_reply; by destruct data_first).
  replace (take (length l - length err) l)
    with (be_bytes 4 2 ++ if data_first then dbuf_result key data ++ status_result key sv iv rc st
          else status_result key sv iv rc st ++ dbuf_result key data) in HQ.
  2: { unfold l, server_reply. rewrite app_assoc, take_app_length'; [done|]. rewrite !length_app. lia. }
  unfold answer, answer_heap, data_block, status_block in HQ. cbn [cronus_parse_loop].
  assert (Hd : drop 4 l = (if data_first then dbuf_result key data ++ status_result key sv iv rc st
          else status_result key sv iv rc st ++ dbuf_result key data) ++ err) by done.
  rewrite Hd. rewrite Hd in Hl. rewrite Hl in Hb, Hk. clear Hd Hl El Hlen. destruct data_first.
  - rewrite <- app_assoc in Hb, Hk. rewrite <- app_assoc.
    apply wp_bind, wp_parse_dbuf; [exact Hok|exact Hb|exact Hkey|exact Hld|exact Hk|].
    apply wp_bind, wp_parse_status; [eauto with cmem| |done..|exact Hls| |].
    + rewrite lookup_insert_ne, <- app_assoc by done. exact Hb.
    + rewrite <- app_assoc. exact Hk.
    + apply wp_ret. rewrite insert_insert_ne, <- app_assoc by lia. exact HQ.
  - rewrite <- app_assoc in Hb, Hk. rewrite <- app_assoc.
    apply wp_bind, wp_parse_status; [exact Hok|exact Hb|done..|exact Hls|exact Hk|].
    apply wp_bind, wp_parse_dbuf; [eauto with cmem| |exact Hkey|exact Hld| |].
    + rewrite lookup_insert_ne, <- app_assoc by done. exact Hb.
    + rewrite <- app_assoc. exact Hk.
    + apply wp_ret. rewrite <- app_assoc. exact HQ.
Qed.

Lemma wp_parse_reply h n s b Q :
  heap_ok h n -> h !! b = Some (Some <$> l) ->
  (rc = SERVER_COMMAND_COMPLETE ->
   Q (inr (answer n Null)) (World (answer_heap n h) (S (S n)) s)) ->
  (rc <> SERVER_COMMAND_COMPLETE ->
   Q (inr (answer n (Ptr (S (S n)) 0)))
     (World (<[S (S n) := Some <$> err]> (answer_heap n h)) (S (S (S n))) s)) ->
  wp (cronus_parse_reply key (rbuf b [] l)) (World h n s) Q.
Proof.
  intros Hok Hb HQ1 HQ2. assert (Hbn := heap_ok_lt _ _ _ _ Hok Hb).
  pose proof length_answer_parts as El.
  assert (Hl : l = be_bytes 4 2 ++ drop 4 l) by (unfold l, server_reply; by destruct data_first).
  unfold cronus_parse_reply. apply wp_bind. rewrite Hl.
  eapply wp_cbuf_read_uint32; [rewrite Hl in Hb; exact Hb|done|rewrite app_nil_l, <- Hl; lia|].
  change (2 =? 2) with true. cbn [negb]. rewrite app_nil_l.
  apply wp_bind, wp_parse_results; [done|done|]. cbn [r_rc answer].
  destruct (Z.eqb_spec rc SERVER_COMMAND_COMPLETE) as [E|E]; cbn [negb]; [apply wp_ret; auto|].
  set (pre := take (length l - length err) l).
  assert (Hpre : pre ++ err = l).
  { unfold pre, l, server_reply. rewrite app_assoc.
    rewrite take_app_length' by (rewrite !length_app; lia). done. }
  assert (Hpl : (length pre + length err = length l)%nat) by (rewrite <- Hpre; by rewrite length_app).
  assert (Hsz : u32 (cb_size (rbuf b pre err) - cb_offset (rbuf b pre err)) = Z.of_nat (length err)).
  { unfold rbuf. cbn [cb_size cb_offset]. rewrite Hpre, wrap_small; unfold in_range; lia. }
  cbv zeta. rewrite Hsz.
  apply wp_bind, wp_malloc_ok. cbn [is_null]. apply wp_bind.
  rewrite <- (app_nil_r err) at 1. eapply wp_cbuf_read; [|apply lookup_insert_eq|done| | |].
  - rewrite lookup_insert_ne by lia. unfold answer_heap, data_block, status_block.
    rewrite !lookup_insert_ne by (destruct data_first; lia). rewrite app_nil_r, Hpre. exact Hb.
  - rewrite length_replicate. lia.
  - rewrite app_nil_r, Hpre. lia.
  - rewrite insert_insert_eq. apply wp_ret, HQ2. exact E.
Qed.
End Answer.

(** ** One exchange with the server *)

(** The server takes the request [req] whole and answers [l]. *)
Definition answers (d : D) (fd : Z) (req : list mval) (buflen : Z) (l : list Z) (d2 : D) : Prop :=
  exists d1, srv_write d fd req = (d1, inr (Z.of_nat (length req))) /\
    srv_read d1 fd buflen = (d2, inr l) /\ Z.of_nat (length l) <= buflen.

Lemma wp_srv_call {A} es (f : D -> D * A) h n c d tr d' a Q :
  f d = (d', a) -> Q (inr a) (World h n (Cro c d' (tr ++ es))) ->
  wp (srv_call es f) (World h n (Cro c d tr)) Q.
Proof.
  intros E HQ. apply wp_bind, wp_get_st. cbn [cdev]. rewrite E. by apply wp_bind, wp_put_st, wp_ret.
Qed.

Lemma wp_cronus_request h n c d tr b k req key out_len l d2 Q :
  heap_ok h n -> h !! b = Some (wblock k req) -> Z.of_nat (length req) <= k -> req <> [] ->
  c_fd c <> -1 -> answers d (c_fd c) req (u32 (1024 + out_len)) l d2 ->
  Q (inr (rbuf (S n) [] l))
    (World (<[S n := Some <$> l]> h) (S (S n))
       (Cro c d2 (tr ++ [CevWrite req; CevRead (u32 (1024 + out_len))]))) ->
  wp (cronus_request key out_len (wbuf b k req)) (World h n (Cro c d tr)) Q.
Proof.
  intros Hok Hb Hk Hreq Hfd (d1 & Hw & Hr & Hl) HQ.
  assert (Hnb := heap_ok_lt _ _ _ _ Hok Hb). pose proof (heap_ok_fresh _ _ Hok) as Hfr.
  assert (Hpos : 0 < Z.of_nat (length req)) by (destruct req; simpl; [done|lia]).
  unfold cronus_request. apply wp_bind, wp_bind, wp_get_st, wp_ret. cbn [cctx].
  apply wp_bind, wp_assert; [by destruct (Z.eqb_spec (c_fd c) (-1))|].
  unfold wbuf. cbn [cbuf_finish cb_ptr cb_offset]. apply wp_bind, wp_assert; [by apply Z.ltb_lt|].
  set (buflen := u32 (1024 + out_len)) in *. cbv zeta.
  apply wp_bind, wp_malloc_ok. cbn [is_null]. apply wp_bind.
  eapply wp_load_bytes; [rewrite lookup_insert_ne by lia; exact Hb|lia|lia| |].
  { unfold wblock. rewrite length_app. lia. }
  change (Z.to_nat 0) with 0%nat. rewrite Nat2Z.id. unfold wblock.
  rewrite slice_app_l, slice_all by lia.
  apply wp_bind. eapply wp_srv_call; [exact Hw|]. cbv beta iota. rewrite Z.eqb_refl. cbn [negb].
  apply wp_bind. eapply wp_srv_call; [exact Hr|]. cbv beta iota.
  apply wp_bind. eapply wp_store_bytes; [apply lookup_insert_eq|lia| |].
  { rewrite length_fmap, length_replicate. lia. }
  rewrite insert_insert_eq, <- app_assoc. apply wp_bind, wp_attempt.
  apply wp_bind, wp_bind, wp_malloc_ok. cbn [is_null]. apply wp_ret, wp_bind. cbn [cb_ptr].
  eapply wp_memcpy; [apply lookup_insert_eq|rewrite lookup_insert_ne by lia; apply lookup_insert_eq
    |lia|lia|lia|rewrite length_replicate; lia| |].
  { rewrite length_patch; rewrite ?length_fmap, ?length_replicate; lia. }
  change (Z.to_nat 0) with 0%nat. rewrite Nat2Z.id.
  rewrite slice_patch_same by (rewrite ?length_fmap, ?length_replicate; lia).
  rewrite insert_insert_eq, patch_full by (rewrite ?length_fmap, ?length_replicate; lia).
  apply wp_ret, wp_bind. eapply wp_free; [rewrite lookup_insert_ne by lia; apply lookup_insert_eq|].
  rewrite delete_insert_ne, delete_insert_id by (done || lia). apply wp_check. exact HQ.
Qed.

(** The heap once the answer [l] to the request [req] has been parsed, before
    anything is freed. *)
Definition exchange_heap (data_first : bool) (data st : list Z) (k : Z) (req : list mval)
  (l : list Z) (n : nat) h : gmap nat (list mval) :=
  answer_heap data_first data st (3 + n) (<[(2 + n)%nat := Some <$> l]> (<[n := wblock k req]> h)).

Section Exchange.
Context (data_first : bool) (data : list Z) (sv iv rc : Z) (st err : list Z).
Context (c : cronus_context) (d d2 : D) (k out_len : Z) (fs : Z -> list cfield).
Let key := c_key c.
Let l := server_reply data_first key data sv iv rc st err.
Let req := fields_bytes (fs key).
Hypothesis Hkey : in_range 32 key.
Hypothesis Hsv : in_range 32 sv.
Hypothesis Hiv : in_range 32 iv.
Hypothesis Hrc : in_range 32 rc.
Hypothesis Hlen : Z.of_nat (length l) < 2 ^ 32.
Hypothesis Hfd : c_fd c <> -1.
Hypothesis Hfs : Forall cfield_ok (fs key).
Hypothesis Hreq : req <> [].
Hypothesis Hk : Z.of_nat (length req) <= k < 2 ^ 64.
Hypothesis Hans : answers d (c_fd c) req (u32 (1024 + out_len)) l d2.

(** The client after the exchange. *)
Definition after_exchange (tr : list cevent) : cro D :=
  Cro (Cctx (c_fd c) (u32 (key + 1)) (c_server_version c)) d2
    (tr ++ [CevWrite req; CevRead (u32 (1024 + out_len))]).

Lemma wp_exchange {A} (cont : cronus_buffer -> cronus_buffer -> cronus_reply -> M (cro D) A) h n tr Q :
  heap_ok h n ->
  (rc = SERVER_COMMAND_COMPLETE ->
   wp (cont (wbuf n k req) (rbuf (2 + n) [] l) (answer data_first data sv iv rc st (3 + n) Null))
      (World (exchange_heap data_first data st k req l n h) (5 + n) (after_exchange tr)) Q) ->
  (rc <> SERVER_COMMAND_COMPLETE ->
   wp (cont (wbuf n k req) (rbuf (2 + n) [] l)
         (answer data_first data sv iv rc st (3 + n) (Ptr (5 + n) 0)))
      (World (<[(5 + n)%nat := Some <$> err]> (exchange_heap data_first data st k req l n h)) (6 + n)
         (after_exchange tr)) Q) ->
  wp (cbuf_request ← cbuf_new k;
      key ← cronus_key;
      cbuf_request ← cbuf_write_fields cbuf_request (fs key);
      cbuf_reply ← cronus_request key out_len cbuf_request;
      reply ← cronus_parse_reply key cbuf_reply;
      cont cbuf_request cbuf_reply reply) (World h n (Cro c d tr)) Q.
Proof.
  intros Hok HQ1 HQ2.
  apply wp_bind, wp_bind, wp_malloc_ok. cbn [is_null]. apply wp_ret.
  apply wp_bind. apply wp_bind, wp_bind, wp_get_st, wp_ret. cbn [cctx].
  apply wp_bind. apply wp_bind, wp_get_st, wp_put_st. cbn [cdev ctrace]. apply wp_ret.
  apply wp_bind. fold key. change (Cbuf (Ptr n 0) k 0) with (wbuf n k []).
  eapply wp_cbuf_write_fields; [|exact Hfs|lia| |].
  { rewrite lookup_insert_eq. unfold wblock. simpl. by rewrite Nat.sub_0_r. }
  { simpl length. fold req. lia. }
  rewrite insert_insert_eq, app_nil_l. fold req.
  apply wp_bind. eapply wp_cronus_request; [eauto with cmem|apply lookup_insert_eq|lia|done|done|exact Hans|].
  apply wp_bind. unfold l. eapply wp_parse_reply; try done; [eauto 10 with cmem|].
  apply lookup_insert_eq.
Qed.
End Exchange.
End Parse.
