(* ===== verification/CronusTheorems.v ===== *)
(** * libcronus: the theorems *)

From S2P Require Import Prelude CMem SbeCore SbeCmdFacts SbeWitness Cronus CronusFacts.

(** ** Specification of the requests *)

(** Words, then bytes, as they leave the client. *)
Definition cro_words (ws : list Z) : list mval := msg_bytes ws.
Definition cro_u64 (v : Z) : list mval := Some <$> be_bytes 8 v.

Definition getcfam_req (key pib addr : Z) : list mval :=
  cro_words [1; key; 1; 28; 5; 13; 0x6200; addr; 32; 4] ++ devstr pib.
Definition putcfam_req (key pib addr value : Z) : list mval :=
  cro_words [1; key; 1; 44; 5; 14; 0x6200; addr; 32; 4; 12] ++ devstr pib
  ++ cro_words [32; 32; value].
Definition getscom_req (key pib addr : Z) : list mval :=
  cro_words [1; key; 1; 32; 5; 16; 0xC200] ++ cro_u64 addr ++ cro_words [64; 4] ++ devstr pib.
Definition putscom_req (key pib addr value : Z) : list mval :=
  cro_words [1; key; 1; 52; 5; 15; 0xC200] ++ cro_u64 addr ++ cro_words [64; 4; 16]
  ++ devstr pib ++ cro_words [64; 64] ++ cro_u64 value.
Definition submit_req (key pib reply_len : Z) (bs : list mval) : list mval :=
  let len := Z.of_nat (length bs) in
  cro_words [1; key; 13; (10 + len / 4) * 4; 1; 77; 0xC200; 30; reply_len; 4; len] ++ devstr pib
  ++ cro_words [len * 8; len * 8] ++ bs.

(** The payload of a request is as long as its fourth word says. *)
Definition payload_sized (req : list mval) : Prop :=
  exists size, slice 12 4 req = Some <$> be_bytes 4 size /\ Z.of_nat (length req) = 16 + size.

Lemma exchange_heap_free data_first data st k req l n h :
  heap_ok h n ->
  delete (2 + n)%nat (delete n (exchange_heap data_first data st k req l n h))
  = answer_heap data_first data st (3 + n) h.
Proof.
  intros Hok. unfold exchange_heap, answer_heap, data_block, status_block.
  apply map_eq. intros i. rewrite !lookup_delete, !lookup_insert.
  destruct data_first; repeat case_decide; subst; try done; try lia; symmetry; apply Hok; lia.
Qed.

Lemma exchange_heap_free_reply data_first data st k req l n h :
  heap_ok h n ->
  delete (2 + n)%nat (exchange_heap data_first data st k req l n h)
  = answer_heap data_first data st (3 + n) (<[n := wblock k req]> h).
Proof.
  intros Hok. unfold exchange_heap, answer_heap, data_block, status_block.
  apply map_eq. intros i. rewrite !lookup_delete, !lookup_insert.
  destruct data_first; repeat case_decide; subst; try done; try lia; symmetry; apply Hok; lia.
Qed.

Lemma exchange_heap_reply data_first data st k req l n h :
  exchange_heap data_first data st k req l n h !! (2 + n)%nat = Some (Some <$> l).
Proof.
  unfold exchange_heap, answer_heap, data_block, status_block.
  destruct data_first; by rewrite !lookup_insert_ne, lookup_insert_eq by lia.
Qed.

Section Theorems.
Context {D : Type} {Sv : Server D} {Al : Allocator}.
Hypothesis Hal : forall k n, can_alloc k n = true.

Section Call.
Context (data_first : bool) (sv iv : Z) (st : list Z) (c : cronus_context) (d d2 : D)
  (h : gmap nat (list mval)) (n : nat) (tr : list cevent).
Hypothesis Hkey : in_range 32 (c_key c).
Hypothesis Hsv : in_range 32 sv.
Hypothesis Hiv : in_range 32 iv.
Hypothesis Hfd : c_fd c <> -1.
Hypothesis Hok : heap_ok h n.

(** The server answers [req] with the data [data], the return code [rc] and
    the text [err]. *)
Definition replies (req : list mval) (buflen : Z) (data : list Z) (rc : Z) (err : list Z) : Prop :=
  let l := server_reply data_first (c_key c) data sv iv rc st err in
  Z.of_nat (length l) < 2 ^ 32 /\ in_range 32 rc /\ answers d (c_fd c) req buflen l d2.

Definition done_world (hf : gmap nat (list mval)) (next : nat) (req : list mval) (buflen : Z)
  : world (cro D) :=
  World hf next (Cro (Cctx (c_fd c) (u32 (c_key c + 1)) (c_server_version c)) d2
                   (tr ++ [CevWrite req; CevRead buflen])).

(** The exchange, whatever the server makes of the request. *)
Lemma wp_call {A} k out_len fs req data rc err
    (cont : cronus_buffer -> cronus_buffer -> cronus_reply -> M (cro D) A) Q :
  fields_bytes (fs (c_key c)) = req -> Forall cfield_ok (fs (c_key c)) -> req <> [] ->
  Z.of_nat (length req) <= k < 2 ^ 64 ->
  replies req (u32 (1024 + out_len)) data rc err ->
  let l := server_reply data_first (c_key c) data sv iv rc st err in
  let hx := exchange_heap data_first data st k req l n h in
  (rc = SERVER_COMMAND_COMPLETE ->
   wp (cont (wbuf n k req) (rbuf (2 + n) [] l) (answer data_first data sv iv rc st (3 + n) Null))
      (done_world hx (5 + n) req (u32 (1024 + out_len))) Q) ->
  (rc <> SERVER_COMMAND_COMPLETE ->
   wp (cont (wbuf n k req) (rbuf (2 + n) [] l)
         (answer data_first data sv iv rc st (3 + n) (Ptr (5 + n) 0)))
      (done_world (<[(5 + n)%nat := Some <$> err]> hx) (6 + n) req (u32 (1024 + out_len))) Q) ->
  wp (cbuf_request ← cbuf_new k;
      key ← cronus_key;
      cbuf_request ← cbuf_write_fields cbuf_request (fs key);
      cbuf_reply ← cronus_request key out_len cbuf_request;
      reply ← cronus_parse_reply key cbuf_reply;
      cont cbuf_request cbuf_reply reply) (World h n (Cro c d tr)) Q.
Proof.
  intros Hreq Hfs Hne Hk (Hlen & Hrc & Hans) l hx HQ1 HQ2.
  eapply (wp_exchange Hal data_first data sv iv rc st err c d d2 k out_len fs);
    rewrite ?Hreq; try done; unfold after_exchange; rewrite Hreq; done.
Qed.

(** [cbuf_free(&cbuf_request); cbuf_free(&cbuf_reply);] *)
Lemma wp_free_both {A} (m : M (cro D) A) k req l data err (failed : bool) nx (s : cro D) Q :
  let put hh := if failed then <[(5 + n)%nat := Some <$> err]> hh else hh in
  wp m (World (put (answer_heap data_first data st (3 + n) h)) nx s) Q ->
  wp (cbuf_free (wbuf n k req);; cbuf_free (rbuf (2 + n) [] l);; m)
     (World (put (exchange_heap data_first data st k req l n h)) nx s) Q.
Proof.
  cbv zeta. intros HQ. pose proof (exchange_heap_free data_first data st k req l n h Hok) as E.
  assert (Hn : exchange_heap data_first data st k req l n h !! n = Some (wblock k req)).
  { unfold exchange_heap, answer_heap, data_block, status_block.
    destruct data_first; by rewrite !lookup_insert_ne, lookup_insert_eq by lia. }
  pose proof (exchange_heap_reply data_first data st k req l n h) as Hn2.
  destruct failed; apply wp_bind; (eapply wp_free; [rewrite ?lookup_insert_ne by lia; exact Hn|]);
    apply wp_bind; (eapply wp_free;
      [rewrite lookup_delete_ne, ?lookup_insert_ne by lia; exact Hn2|]).
  - rewrite !delete_insert_ne, E by lia. exact HQ.
  - rewrite E. exact HQ.
Qed.

(** The exchange with a server that refuses, up to the continuation. *)
Lemma call_refused {A} k out_len fs req data rc err
    (cont : cronus_buffer -> cronus_buffer -> cronus_reply -> M (cro D) A) :
  fields_bytes (fs (c_key c)) = req -> Forall cfield_ok (fs (c_key c)) -> req <> [] ->
  Z.of_nat (length req) <= k < 2 ^ 64 ->
  replies req (u32 (1024 + out_len)) data rc err -> rc <> SERVER_COMMAND_COMPLETE ->
  let l := server_reply data_first (c_key c) data sv iv rc st err in
  (cbuf_request ← cbuf_new k;
   key ← cronus_key;
   cbuf_request ← cbuf_write_fields cbuf_request (fs key);
   cbuf_reply ← cronus_request key out_len cbuf_request;
   reply ← cronus_parse_reply key cbuf_reply;
   cont cbuf_request cbuf_reply reply) (World h n (Cro c d tr)) =
  cont (wbuf n k req) (rbuf (2 + n) [] l) (answer data_first data sv iv rc st (3 + n) (Ptr (5 + n) 0))
    (done_world (<[(5 + n)%nat := Some <$> err]> (exchange_heap data_first data st k req l n h)) (6 + n) req (u32 (1024 + out_len))).
Proof.
  intros Hreq Hfs Hne Hk Hrep Hrc l.
  pose proof (wp_call k out_len fs req data rc err (fun a b r => mret (a, b, r)) (fun r w' =>
    r = inr (wbuf n k req, rbuf (2 + n) [] l, answer data_first data sv iv rc st (3 + n) (Ptr (5 + n) 0)) /\
    w' = done_world (<[(5 + n)%nat := Some <$> err]> (exchange_heap data_first data st k req l n h)) (6 + n) req (u32 (1024 + out_len)))
    Hreq Hfs Hne Hk Hrep ltac:(done) (fun _ => conj eq_refl eq_refl)) as H.
  unfold wp, mbind, M_bind in H |- *.
  destruct (cbuf_new k _) as [[p|?|?] w1]; [|by destruct H|done].
  destruct (cronus_key w1) as [[key|?|?] w2]; [|by destruct H|done].
  destruct (cbuf_write_fields p (fs key) w2) as [[q|?|?] w3]; [|by destruct H|done].
  destruct (cronus_request key out_len q w3) as [[b|?|?] w4]; [|by destruct H|done].
  destruct (cronus_parse_reply key b w4) as [[r|?|?] w5]; [|by destruct H|done].
  cbn in H. destruct H as [H ->]. by simplify_eq.
Qed.

(** The end of a call that the server refuses: the text is printed up to its first zero byte;
    without one the reading leaves the block. *)
Definition refused_end {A} (err : list Z) (hh : gmap nat (list mval)) (req : list mval) (buflen : Z) : outcome A * world (cro D) :=
  let w tr' := World (<[(5 + n)%nat := Some <$> err]> hh) (6 + n) (Cro (Cctx (c_fd c) (u32 (c_key c + 1)) (c_server_version c)) d2 tr') in
  match until_nul (Some <$> err) with
  | Some txt => (Fail EIO, w (tr ++ [CevWrite req; CevRead buflen; CevPrint txt]))
  | None => (Crash OutOfBounds, w (tr ++ [CevWrite req; CevRead buflen]))
  end.

Lemma check_refused {A} (m : M (cro D) A) hh req buflen data rc err :
  rc <> SERVER_COMMAND_COMPLETE ->
  (check_complete (answer data_first data sv iv rc st (3 + n) (Ptr (5 + n) 0));; m)
    (done_world (<[(5 + n)%nat := Some <$> err]> hh) (6 + n) req buflen) = refused_end err hh req buflen.
Proof.
  intros Hrc. unfold check_complete, refused_end, done_world. cbn [r_rc r_error answer].
  destruct (Z.eqb_spec rc SERVER_COMMAND_COMPLETE); [done|]. cbn [negb]. unfold mbind, M_bind, load_cstr. cbn [w_heap].
  rewrite lookup_insert_eq. cbn [Z.leb Z.compare]. change (Z.to_nat 0) with 0%nat. rewrite drop_0.
  destruct (until_nul (Some <$> err)); [|done]. unfold clog, mbind, M_bind, get_st, put_st, fail. cbn. by rewrite <- app_assoc.
Qed.

Lemma check_refused_last hh req buflen data rc err :
  rc <> SERVER_COMMAND_COMPLETE ->
  check_complete (answer data_first data sv iv rc st (3 + n) (Ptr (5 + n) 0))
    (done_world (<[(5 + n)%nat := Some <$> err]> hh) (6 + n) req buflen) = refused_end err hh req buflen.
Proof.
  intros Hrc. rewrite <- (check_refused (mret tt) hh req buflen data rc err Hrc).
  unfold mbind at 1, M_bind. by destruct (check_complete _ _) as [[[]| |] ?].
Qed.

(** Freeing both buffers *)
Lemma free_both {A} (m : M (cro D) A) k req l data err nx (s : cro D) :
  (cbuf_free (wbuf n k req);; cbuf_free (rbuf (2 + n) [] l);; m)
    (World (<[(5 + n)%nat := Some <$> err]> (exchange_heap data_first data st k req l n h)) nx s) =
  m (World (<[(5 + n)%nat := Some <$> err]> (answer_heap data_first data st (3 + n) h)) nx s).
Proof.
  set (w' := World (<[(5 + n)%nat := Some <$> err]> (answer_heap data_first data st (3 + n) h)) nx s).
  pose proof (wp_free_both (mret tt) k req l data err true nx s (fun r w => r = inr tt /\ w = w') (conj eq_refl eq_refl)) as H.
  unfold wp, mbind, M_bind in H |- *. cbv zeta in H.
  destruct (cbuf_free (wbuf n k req) _) as [[[]|?|?] w1]; [|by destruct H|done].
  destruct (cbuf_free _ w1) as [[[]|?|?] w2]; [|by destruct H|done].
  cbn in H. by destruct H as [_ ->].
Qed.

(** Freeing the answer only, with the request still on the heap *)
Lemma free_reply {A} (m : M (cro D) A) k req l data err nx (s : cro D) :
  (cbuf_free (rbuf (2 + n) [] l);; m)
    (World (<[(5 + n)%nat := Some <$> err]> (exchange_heap data_first data st k req l n h)) nx s) =
  m (World (<[(5 + n)%nat := Some <$> err]> (answer_heap data_first data st (3 + n) (<[n := wblock k req]> h))) nx s).
Proof.
  unfold mbind, M_bind, cbuf_free, free, rbuf. cbn -[Nat.add]. rewrite lookup_insert_ne, exchange_heap_reply by lia.
  rewrite bool_decide_eq_true_2 by eauto. by rewrite delete_insert_ne, exchange_heap_free_reply by (done || lia).
Qed.

Lemma wp_completed {A} (m : M (cro D) A) w data e Q :
  wp m w Q ->
  wp (check_complete (answer data_first data sv iv SERVER_COMMAND_COMPLETE st (3 + n) e);; m) w Q.
Proof. intros HQ. apply wp_bind, wp_ret. exact HQ. Qed.

(** A register value as the server sends it: capacity, number of bits, value. *)
Definition value_data (w : nat) (v : Z) : list Z :=
  be_bytes 4 (8 * Z.of_nat w) ++ be_bytes 4 (8 * Z.of_nat w) ++ be_bytes w v.

Lemma length_value_data w v : length (value_data w v) = (8 + w)%nat.
Proof. unfold value_data. rewrite !length_app, !length_be_bytes. lia. Qed.

Lemma wp_value hh nx (s : cro D) b w v Q :
  (w <= 8)%nat -> hh !! b = Some (Some <$> value_data w v) -> 0 <= v < 256 ^ Z.of_nat w ->
  Q (inr v) (World hh nx s) ->
  wp ('(capacity, cbuf_reply) ← cbuf_read_uint32 (cbuf_init (Ptr b 0) (Z.of_nat (length (value_data w v))));
      if negb (capacity =? 8 * Z.of_nat w) then fail EPROTO else
      '(bits, cbuf_reply) ← cbuf_read_uint32 cbuf_reply;
      if negb (bits =? 8 * Z.of_nat w) then fail EPROTO else
      '(value, _) ← cbuf_read_be cbuf_reply (Z.of_nat w);
      mret value) (World hh nx s) Q.
Proof.
  intros Hw Hb Hv HQ. pose proof (length_value_data w v) as El.
  change (cbuf_init (Ptr b 0) (Z.of_nat (length (value_data w v)))) with (rbuf b [] (value_data w v)).
  unfold value_data in *. set (kk := 8 * Z.of_nat w) in *.
  assert (Hkk : in_range 32 kk) by (unfold in_range; lia).
  assert (Hl : Z.of_nat (length (be_bytes 4 kk ++ be_bytes 4 kk ++ be_bytes w v)) < 2 ^ 64) by lia.
  apply wp_bind. eapply wp_cbuf_read_uint32; [exact Hb|done|exact Hl|].
  rewrite Z.eqb_refl, app_nil_l. cbn [negb].
  apply wp_bind. eapply wp_cbuf_read_uint32; [exact Hb|done|exact Hl|].
  rewrite Z.eqb_refl. cbn [negb]. apply wp_bind. rewrite <- (app_nil_r (be_bytes w v)) at 1.
  eapply wp_cbuf_read_be; [rewrite app_nil_r, <- app_assoc; exact Hb|by rewrite length_be_bytes
    |rewrite app_nil_r, <- app_assoc; exact Hl|].
  rewrite be_val_be_bytes, Z.mod_small by done. apply wp_ret. exact HQ.
Qed.

Lemma lookup_answer_data data hh :
  answer_heap data_first data st (3 + n) hh !! data_block data_first (3 + n) = Some (Some <$> data).
Proof. apply lookup_insert_eq. Qed.
End Call.

(** The end of [cronus_submit]: the bytes of the SBE go to the caller. *)
Lemma wp_submit_reply hh nx (s : cro D) b rb old bits out Q :
  let data := be_bytes 4 (8 * Z.of_nat (length out)) ++ be_bytes 4 bits ++ out in
  hh !! b = Some (Some <$> data) -> hh !! rb = Some old ->
  in_range 32 bits -> 8 * Z.of_nat (length out) < 2 ^ 32 -> (length out <= length old)%nat ->
  Q (inr (Z.of_nat (length out)))
    (World (<[rb := (Some <$> out) ++ drop (length out) old]> hh) nx s) ->
  wp ('(capacity, cbuf_reply) ← cbuf_read_uint32 (cbuf_init (Ptr b 0) (Z.of_nat (length data)));
      '(bits, cbuf_reply) ← cbuf_read_uint32 cbuf_reply;
      let reply_len := capacity / 8 in
      cbuf_read cbuf_reply (Ptr rb 0) reply_len;;
      mret reply_len) (World hh nx s) Q.
Proof.
  intros data Hd Hrb Hbits Hout Hfit HQ.
  assert (Hld : Z.of_nat (length data) < 2 ^ 64).
  { unfold data. rewrite !length_app, !length_be_bytes. lia. }
  assert (E8 : 8 * Z.of_nat (length out) / 8 = Z.of_nat (length out))
    by (by rewrite Z.mul_comm, Z.div_mul).
  change (cbuf_init (Ptr b 0) (Z.of_nat (length data))) with (rbuf b [] data). unfold data in *.
  apply wp_bind. eapply wp_cbuf_read_uint32; [exact Hd|unfold in_range; lia|exact Hld|].
  apply wp_bind. eapply wp_cbuf_read_uint32; [exact Hd|done|exact Hld|].
  cbv zeta. rewrite E8. apply wp_bind.
  eapply wp_cbuf_read_last; [rewrite <- !app_assoc; exact Hd|exact Hrb|done|done
    |rewrite <- !app_assoc; exact Hld|]. by apply wp_ret.
Qed.

(** *** Scalars in a buffer *)

Inductive scalar := U8 (v : Z) | U16 (v : Z) | U32 (v : Z) | U64 (v : Z).

Definition scalar_bytes (x : scalar) : list Z :=
  match x with
  | U8 v => be_bytes 1 v | U16 v => be_bytes 2 v | U32 v => be_bytes 4 v | U64 v => be_bytes 8 v
  end.
Definition scalar_ok (x : scalar) : Prop :=
  match x with
  | U8 v => in_range 8 v | U16 v => in_range 16 v | U32 v => in_range 32 v | U64 v => in_range 64 v
  end.

Definition write_scalar (cb : cronus_buffer) (x : scalar) : M (cro D) cronus_buffer :=
  match x with
  | U8 v => cbuf_write_uint8 cb v | U16 v => cbuf_write_uint16 cb v
  | U32 v => cbuf_write_uint32 cb v | U64 v => cbuf_write_uint64 cb v
  end.
(** Reads a scalar of the same width as [x]. *)
Definition read_scalar (cb : cronus_buffer) (x : scalar) : M (cro D) (scalar * cronus_buffer) :=
  match x with
  | U8 _ => '(v, cb) ← cbuf_read_uint8 cb; mret (U8 v, cb)
  | U16 _ => '(v, cb) ← cbuf_read_uint16 cb; mret (U16 v, cb)
  | U32 _ => '(v, cb) ← cbuf_read_uint32 cb; mret (U32 v, cb)
  | U64 _ => '(v, cb) ← cbuf_read_uint64 cb; mret (U64 v, cb)
  end.

Fixpoint write_scalars (cb : cronus_buffer) (xs : list scalar) : M (cro D) cronus_buffer :=
  match xs with [] => mret cb | x :: xs' => cb ← write_scalar cb x; write_scalars cb xs' end.
Fixpoint read_scalars (cb : cronus_buffer) (xs : list scalar) : M (cro D) (list scalar) :=
  match xs with
  | [] => mret []
  | x :: xs' => '(y, cb) ← read_scalar cb x; ys ← read_scalars cb xs'; mret (y :: ys)
  end.

Definition scalars_bytes (xs : list scalar) : list Z := concat (scalar_bytes <$> xs).

Lemma wp_write_scalars nx (s : cro D) b k xs : forall hh l Q,
  hh !! b = Some (wblock k l) -> k < 2 ^ 64 ->
  Z.of_nat (length l) + Z.of_nat (length (scalars_bytes xs)) <= k ->
  Q (inr (wbuf b k (l ++ (Some <$> scalars_bytes xs))))
    (World (<[b := wblock k (l ++ (Some <$> scalars_bytes xs))]> hh) nx s) ->
  wp (write_scalars (wbuf b k l) xs) (World hh nx s) Q.
Proof.
  unfold scalars_bytes. induction xs as [|x xs IH]; intros hh l Q Hb Hk Hl HQ; cbn [write_scalars].
  - cbn in HQ. rewrite app_nil_r, insert_id in HQ by done. by apply wp_ret.
  - rewrite fmap_cons in *. cbn [concat] in *. rewrite length_app in Hl. rewrite fmap_app in HQ.
    apply wp_bind.
    assert (Hw : wp (write_scalar (wbuf b k l) x) (World hh nx s) (fun r w' =>
      r = inr (wbuf b k (l ++ (Some <$> scalar_bytes x))) /\
      w' = World (<[b := wblock k (l ++ (Some <$> scalar_bytes x))]> hh) nx s)).
    { destruct x; cbn [write_scalar scalar_bytes] in *; rewrite length_be_bytes in Hl;
        eapply wp_cbuf_write; rewrite ?length_fmap, ?length_be_bytes; try done; lia. }
    eapply wp_mono; [exact Hw|]. intros r w' [-> ->].
    eapply IH; [apply lookup_insert_eq|done|rewrite length_app, length_fmap; lia|].
    rewrite insert_insert_eq, <- app_assoc. exact HQ.
Qed.

Lemma wp_read_scalars nx (s : cro D) hh b xs : forall l Q,
  hh !! b = Some (Some <$> l ++ scalars_bytes xs) -> Forall scalar_ok xs ->
  Z.of_nat (length (l ++ scalars_bytes xs)) < 2 ^ 64 ->
  Q (inr xs) (World hh nx s) ->
  wp (read_scalars (rbuf b l (scalars_bytes xs)) xs) (World hh nx s) Q.
Proof.
  unfold scalars_bytes. induction xs as [|x xs IH]; intros l Q Hb Hxs Hl HQ; cbn [read_scalars].
  - by apply wp_ret.
  - rewrite fmap_cons in *. cbn [concat] in *. apply Forall_cons in Hxs as [Hx Hxs].
    apply wp_bind.
    assert (Hr : wp (read_scalar (rbuf b l (scalar_bytes x ++ concat (scalar_bytes <$> xs))) x)
      (World hh nx s) (fun r w' => w' = World hh nx s /\
        r = inr (x, rbuf b (l ++ scalar_bytes x) (concat (scalar_bytes <$> xs))))).
    { destruct x; cbn [read_scalar scalar_bytes scalar_ok] in *; apply wp_bind;
        (eapply wp_cbuf_read_be; [exact Hb|by rewrite length_be_bytes|exact Hl|]);
        rewrite be_val_be_bytes, Z.mod_small by done; by apply wp_ret. }
    eapply wp_mono; [exact Hr|]. intros r w' [-> ->]. apply wp_bind.
    eapply IH; [by rewrite <- app_assoc|done|by rewrite <- app_assoc|]. by apply wp_ret.
Qed.

(** What is written to a buffer is read back: any sequence of 8, 16, 32
    and 64-bit values written to a new buffer that is large enough, whose
    bytes are then read in the same widths, gives the same values; no
    assertion fails on the way. *)
Theorem cbuf_roundtrip k xs h n (s : cro D) :
  0 <= k < 2 ^ 64 -> Z.of_nat (length (scalars_bytes xs)) = k -> Forall scalar_ok xs ->
  wp (cb ← cbuf_new k; cb ← write_scalars cb xs;
      let '(p, len) := cbuf_finish cb in read_scalars (cbuf_init p len) xs)
     (World h n s) (fun r w' => r = inr xs /\
       w' = World (<[n := Some <$> scalars_bytes xs]> h) (S n) s).
Proof.
  intros Hk Hlen Hxs. apply wp_bind, wp_bind, wp_malloc_ok; [done|]. cbn [is_null]. apply wp_ret.
  apply wp_bind. change (Cbuf (Ptr n 0) k 0) with (wbuf n k []).
  eapply wp_write_scalars; [|lia|simpl length; lia|].
  { rewrite lookup_insert_eq. unfold wblock. simpl. by rewrite Nat.sub_0_r. }
  rewrite insert_insert_eq, app_nil_l. unfold wbuf, wblock. cbn [cbuf_finish cb_ptr cb_offset].
  rewrite length_fmap. replace (Z.to_nat k - length (scalars_bytes xs))%nat with 0%nat by lia.
  rewrite app_nil_r. change (cbuf_init (Ptr n 0) (Z.of_nat (length (scalars_bytes xs))))
    with (rbuf n [] (scalars_bytes xs)).
  eapply wp_read_scalars; [apply lookup_insert_eq|done|simpl; lia|done].
Qed.

(** The fields of a request whose bytes need no proof. *)
Ltac solve_fields := repeat constructor; simpl; lia.

(** C14. Reading a register through the server: [cronus_getscom] and
    [cronus_getcfam] send exactly the request of the protocol, payload size
    included, under a fresh key, accept the answer whichever of its two results comes first, and
    return the value the server read. The two blocks of the answer stay
    allocated, and after a CFAM read so does the request. *)
Theorem cronus_reads data_first sv iv st c (d d2 : D) h n tr pib :
  in_range 32 (c_key c) -> in_range 32 sv -> in_range 32 iv -> c_fd c <> -1 -> heap_ok h n ->
  pib_index_ok pib = true ->
  (forall addr v, in_range 64 v ->
   let req := getscom_req (c_key c) pib addr in
   replies data_first sv iv st c d d2 req 1024 (value_data 8 v) SERVER_COMMAND_COMPLETE [] ->
   wp (cronus_getscom pib addr) (World h n (Cro c d tr)) (fun r w' => r = inr v /\
     w' = done_world c d2 tr (answer_heap data_first (value_data 8 v) st (3 + n) h) (5 + n) req 1024) /\ payload_sized req) /\
  (forall addr v, in_range 32 v ->
   let req := getcfam_req (c_key c) pib addr in
   replies data_first sv iv st c d d2 req 1024 (value_data 4 v) SERVER_COMMAND_COMPLETE [] ->
   wp (cronus_getcfam pib addr) (World h n (Cro c d tr)) (fun r w' => r = inr v /\
     w' = done_world c d2 tr
            (answer_heap data_first (value_data 4 v) st (3 + n) (<[n := wblock 1024 req]> h))
            (5 + n) req 1024) /\ payload_sized req).
Proof.
  intros Hkey Hsv Hiv Hfd Hok Hpib. split; intros addr v Hv req Hrep; (split; [|by eexists]).
  - apply wp_bind, wp_assert; [done|].
    eapply (wp_call data_first sv iv st c d d2 h n tr Hkey Hsv Hiv Hfd Hok 1024 0 (fun key => _) req);
      [reflexivity|solve_fields|done|by vm_compute|exact Hrep| |done].
    intros _. cbv zeta.
    apply (wp_free_both data_first st h n Hok _ 1024 _ _ _ [] false). apply wp_completed.
    eapply (wp_value _ _ _ _ 8); [lia|apply lookup_answer_data|done|done].
  - apply wp_bind, wp_assert; [done|].
    eapply (wp_call data_first sv iv st c d d2 h n tr Hkey Hsv Hiv Hfd Hok 1024 0 (fun key => _) req);
      [reflexivity|solve_fields|done|by vm_compute|exact Hrep| |done].
    intros _. cbv zeta. apply wp_bind. eapply wp_free; [apply exchange_heap_reply|].
    rewrite exchange_heap_free_reply by done. apply wp_completed.
    eapply (wp_value _ _ _ _ 4); [lia|apply lookup_answer_data|done|done].
Qed.

(** Writing a register through the server: [cronus_putscom] and
    [cronus_putcfam] send exactly the request of the protocol, with the value,
    under a fresh key, and succeed when the server does. *)
Theorem cronus_writes data_first sv iv st c (d d2 : D) h n tr pib data :
  in_range 32 (c_key c) -> in_range 32 sv -> in_range 32 iv -> c_fd c <> -1 -> heap_ok h n ->
  pib_index_ok pib = true ->
  (forall addr v, let req := putscom_req (c_key c) pib addr v in
   replies data_first sv iv st c d d2 req 1024 data SERVER_COMMAND_COMPLETE [] ->
   wp (cronus_putscom pib addr v) (World h n (Cro c d tr)) (fun r w' => r = inr tt /\
     w' = done_world c d2 tr (answer_heap data_first data st (3 + n) h) (5 + n) req 1024) /\ payload_sized req) /\
  (forall addr v, let req := putcfam_req (c_key c) pib addr v in
   replies data_first sv iv st c d d2 req 1024 data SERVER_COMMAND_COMPLETE [] ->
   wp (cronus_putcfam pib addr v) (World h n (Cro c d tr)) (fun r w' => r = inr tt /\
     w' = done_world c d2 tr (answer_heap data_first data st (3 + n) h) (5 + n) req 1024) /\ payload_sized req).
Proof.
  intros Hkey Hsv Hiv Hfd Hok Hpib. split; intros addr v req Hrep; (split; [|by eexists]); (apply wp_bind, wp_assert; [done|]);
    (eapply (wp_call data_first sv iv st c d d2 h n tr Hkey Hsv Hiv Hfd Hok 1024 0 (fun key => _) req);
      [reflexivity|solve_fields|done|by vm_compute|exact Hrep| |done]);
    intros _; cbv zeta;
    apply (wp_free_both data_first st h n Hok _ 1024 _ _ _ [] false); by apply wp_ret.
Qed.

(** Passing an SBE request on: [cronus_submit] wraps the request in the
    protocol unchanged, and copies exactly the bytes the SBE answered to the
    front of the reply buffer of the caller, reporting their number, provided
    they fit. *)
Theorem cronus_submit_relays data_first sv iv st c (d d2 : D) h n tr pib (msg out : list Z) bits rb old
    reply_len :
  in_range 32 (c_key c) -> in_range 32 sv -> in_range 32 iv -> c_fd c <> -1 -> heap_ok h n ->
  pib_index_ok pib = true -> in_range 32 bits -> 0 <= reply_len < 2 ^ 32 - 1024 ->
  Z.of_nat (length msg) < 2 ^ 28 -> 8 * Z.of_nat (length out) < 2 ^ 32 ->
  h !! rb = Some old -> (length out <= length old)%nat ->
  let req := submit_req (c_key c) pib reply_len (Some <$> msg) in
  let data := be_bytes 4 (8 * Z.of_nat (length out)) ++ be_bytes 4 bits ++ out in
  replies data_first sv iv st c d d2 req (1024 + reply_len) data SERVER_COMMAND_COMPLETE [] ->
  wp (cronus_submit pib (Some <$> msg) (Z.of_nat (length msg)) (Ptr rb 0) reply_len)
     (World h n (Cro c d tr)) (fun r w' => r = inr (Z.of_nat (length out)) /\
     w' = done_world c d2 tr
            (<[rb := (Some <$> out) ++ drop (length out) old]> (answer_heap data_first data st (3 + n) h))
            (5 + n) req (1024 + reply_len)).
Proof.
  intros Hkey Hsv Hiv Hfd Hok Hpib Hbits Hrl Hmsg Hout Hrb Hfit req data Hrep.
  set (L := Z.of_nat (length msg)) in *.
  assert (Hdiv : 0 <= L / 4 <= L) by (split; [apply Z.div_pos; lia|apply Z.div_le_upper_bound; lia]).
  apply wp_bind, wp_assert; [done|]. rewrite (wrap_small 32 (1024 + L)) by solve_range.
  rewrite (wrap_small 32 (10 + L / 4)) by solve_range.
  assert (Ewr : u32 (1024 + reply_len) = 1024 + reply_len) by (apply wrap_small; unfold in_range; lia).
  rewrite <- Ewr in Hrep |- *.
  eapply (wp_call data_first sv iv st c d d2 h n tr Hkey Hsv Hiv Hfd Hok (1024 + L) reply_len (fun key => _) req);
    [| | | |exact Hrep| |done].
  - unfold fields_bytes. rewrite !fmap_cons. cbn [concat fmap list_fmap cfield_bytes].
    rewrite app_nil_r, (take_ge (Some <$> msg)) by (rewrite length_fmap; unfold L; lia).
    unfold req, submit_req. rewrite length_fmap. fold L. reflexivity.
  - repeat constructor; simpl; rewrite ?length_fmap; lia.
  - done.
  - unfold req, submit_req, cro_words. rewrite !length_app, !length_msg_bytes, length_fmap.
    simpl length. lia.
  - intros _. cbv zeta. fold data.
    apply (wp_free_both data_first st h n Hok _ (1024 + L) _ _ _ [] false). apply wp_completed.
    assert (Hrn := heap_ok_lt _ _ _ _ Hok Hrb).
    eapply (wp_submit_reply _ _ _ _ rb old bits out); [apply lookup_answer_data| |done..|].
    { unfold answer_heap, data_block, status_block.
      destruct data_first; by rewrite !lookup_insert_ne by lia. }
    split; [done|]. by rewrite Ewr.
Qed.

(** C17. When the server refuses, reading and writing registers end alike: the request has been sent,
    the text the server sends is printed up to its first zero byte and the call fails with EIO; the
    blocks of the answer and of the text stay allocated, after a CFAM read the request too. The code
    does not see to it that there is a zero byte: for a text without one the reading leaves the
    block. *)
Theorem cronus_refused data_first sv iv st c (d d2 : D) h n tr pib data rc err :
  in_range 32 (c_key c) -> in_range 32 sv -> in_range 32 iv -> c_fd c <> -1 -> heap_ok h n ->
  pib_index_ok pib = true -> rc <> SERVER_COMMAND_COMPLETE ->
  let w := World h n (Cro c d tr) in
  let refuses req := replies data_first sv iv st c d d2 req 1024 data rc err in
  let ends {A} (r : outcome A * world (cro D)) hf req :=
    r = refused_end c d2 n tr err (answer_heap data_first data st (3 + n) hf) req 1024 in
  (forall addr, let req := getscom_req (c_key c) pib addr in refuses req -> ends (cronus_getscom pib addr w) h req) /\
  (forall addr v, let req := putscom_req (c_key c) pib addr v in refuses req -> ends (cronus_putscom pib addr v w) h req) /\
  (forall addr, let req := getcfam_req (c_key c) pib addr in
     refuses req -> ends (cronus_getcfam pib addr w) (<[n := wblock 1024 req]> h) req) /\
  (forall addr v, let req := putcfam_req (c_key c) pib addr v in refuses req -> ends (cronus_putcfam pib addr v w) h req).
Proof.
  intros Hkey Hsv Hiv Hfd Hok Hpib Hrc w refuses ends. unfold ends, w.
  split_and!; [intros addr Hrep|intros addr v Hrep|intros addr Hrep|intros addr v Hrep];
    unfold cronus_getscom, cronus_putscom, cronus_getcfam, cronus_putcfam;
    (rewrite (bind_at _ _ _ tt (World h n (Cro c d tr))) by (unfold c_assert; by rewrite Hpib)).
  all: etrans; [eapply (call_refused data_first sv iv st c d d2 h n tr Hkey Hsv Hiv Hfd Hok 1024 0 (fun key => _) _ data rc err);
    [reflexivity|solve_fields|done|by vm_compute|exact Hrep|done]|].
  1,2,4: unfold done_world; rewrite free_both by done; by apply check_refused || by apply check_refused_last.
  unfold done_world. rewrite free_reply by done. by apply check_refused.
Qed.
End Theorems.

(** ** Witnesses *)

#[local] Existing Instance always_alloc.

(** A server that takes every request and sends one fixed answer. *)
Definition fixed_server (l : list Z) : Server unit := {|
  srv_resolve _ _ := (tt, true);
  srv_socket _ := (tt, inr 3);
  srv_connect _ _ := (tt, inr tt);
  srv_close _ _ := tt;
  srv_write _ _ bs := (tt, inr (Z.of_nat (length bs)));
  srv_read _ _ _ := (tt, inr l)
|}.

Definition cctx0 : cronus_context := Cctx 3 0x11111111 0.
Definition scom_answer : list Z :=
  server_reply true 0x11111111 (value_data 8 0xABCD) 1 1 SERVER_COMMAND_COMPLETE [1; 2] [].
Definition put_answer : list Z :=
  server_reply false 0x11111111 [] 1 1 SERVER_COMMAND_COMPLETE [] [].
Definition submit_answer : list Z :=
  server_reply true 0x11111111 (be_bytes 4 (8 * 4) ++ be_bytes 4 32 ++ [9; 8; 7; 6]) 1 1
    SERVER_COMMAND_COMPLETE [] [].
Definition refused_answer : list Z := server_reply true 0x11111111 [] 1 1 5 [] [78; 111; 0].

Lemma cbuf_roundtrip_witness :
  wp (S := cro unit) (cb ← cbuf_new 15; cb ← write_scalars cb [U16 0x1234; U8 7; U64 99; U32 0xFFFFFFFF];
      let '(p, len) := cbuf_finish cb in
      read_scalars (cbuf_init p len) [U16 0x1234; U8 7; U64 99; U32 0xFFFFFFFF])
     (World ∅ 0 (Cro cctx0 tt [])) (fun r w' => r = inr [U16 0x1234; U8 7; U64 99; U32 0xFFFFFFFF] /\
       w' = World (<[0%nat := Some <$> scalars_bytes [U16 0x1234; U8 7; U64 99; U32 0xFFFFFFFF]]> ∅) 1
              (Cro cctx0 tt [])).
Proof.
  exact (cbuf_roundtrip (Al := always_alloc) (fun _ _ => eq_refl) 15 [U16 0x1234; U8 7; U64 99; U32 0xFFFFFFFF] ∅ 0
    (Cro cctx0 tt []) ltac:(lia) eq_refl ltac:(repeat constructor; simpl; lia)).
Defined.

(** The fixed server gives the answer it was built with. *)
Lemma fixed_server_replies data_first sv iv st data rc err req buflen :
  let l := server_reply data_first 0x11111111 data sv iv rc st err in
  Z.of_nat (length l) <= buflen < 2 ^ 32 -> in_range 32 rc ->
  replies (Sv := fixed_server l) data_first sv iv st cctx0 tt tt req buflen data rc err.
Proof. intros l [Hl Hb] Hrc. split; [change (c_key cctx0) with 0x11111111; fold l; lia|]. split; [done|]. by exists tt. Qed.

Lemma scom_replies :
  replies (Sv := fixed_server scom_answer) true 1 1 [1; 2] cctx0 tt tt (getscom_req 0x11111111 0 0xF000F)
    1024 (value_data 8 0xABCD) SERVER_COMMAND_COMPLETE [].
Proof. apply (fixed_server_replies true 1 1 [1; 2] (value_data 8 0xABCD) SERVER_COMMAND_COMPLETE []); by vm_compute. Qed.

Lemma put_replies :
  replies (Sv := fixed_server put_answer) false 1 1 [] cctx0 tt tt (putcfam_req 0x11111111 1 0x2809 77)
    1024 [] SERVER_COMMAND_COMPLETE [].
Proof. apply (fixed_server_replies false 1 1 [] [] SERVER_COMMAND_COMPLETE []); by vm_compute. Qed.

Lemma submit_replies :
  replies (Sv := fixed_server submit_answer) true 1 1 [] cctx0 tt tt
    (submit_req 0x11111111 0 6 (Some <$> [0; 0; 0; 2; 0; 0; 0xA1; 2])) 1030
    (be_bytes 4 (8 * 4) ++ be_bytes 4 32 ++ [9; 8; 7; 6]) SERVER_COMMAND_COMPLETE [].
Proof.
  apply (fixed_server_replies true 1 1 [] (be_bytes 4 (8 * 4) ++ be_bytes 4 32 ++ [9; 8; 7; 6])
           SERVER_COMMAND_COMPLETE []); by vm_compute.
Qed.

Lemma refused_replies :
  replies (Sv := fixed_server refused_answer) true 1 1 [] cctx0 tt tt (getscom_req 0x11111111 0 0xF000F)
    1024 [] 5 [78; 111; 0].
Proof. apply (fixed_server_replies true 1 1 [] [] 5 [78; 111; 0]); by vm_compute. Qed.

Lemma cronus_reads_witness :
  wp (cronus_getscom (Sv := fixed_server scom_answer) 0 0xF000F) (World ∅ 0 (Cro cctx0 tt []))
    (fun r w' => r = inr 0xABCD /\
       w' = done_world cctx0 tt [] (answer_heap true (value_data 8 0xABCD) [1; 2] 3 ∅) 5
              (getscom_req 0x11111111 0 0xF000F) 1024) /\
  payload_sized (getscom_req 0x11111111 0 0xF000F).
Proof.
  exact (proj1 (cronus_reads (Sv := fixed_server scom_answer) (Al := always_alloc) (fun _ _ => eq_refl) true 1 1 [1; 2] cctx0
    tt tt ∅ 0 [] 0 ltac:(done) ltac:(done) ltac:(done) ltac:(done) (heap_ok_empty 0) eq_refl)
    0xF000F 0xABCD ltac:(done)
    scom_replies).
Defined.

Lemma cronus_writes_witness :
  wp (cronus_putcfam (Sv := fixed_server put_answer) 1 0x2809 77) (World ∅ 0 (Cro cctx0 tt []))
    (fun r w' => r = inr tt /\
       w' = done_world cctx0 tt [] (answer_heap false [] [] 3 ∅) 5
              (putcfam_req 0x11111111 1 0x2809 77) 1024) /\
  payload_sized (putcfam_req 0x11111111 1 0x2809 77).
Proof.
  exact (proj2 (cronus_writes (Sv := fixed_server put_answer) (Al := always_alloc) (fun _ _ => eq_refl) false 1 1 [] cctx0
    tt tt ∅ 0 [] 1 [] ltac:(done) ltac:(done) ltac:(done) ltac:(done) (heap_ok_empty 0) eq_refl)
    0x2809 77
    put_replies).
Defined.

(** The caller's reply buffer has six bytes; four are filled. *)
Definition caller_heap : gmap nat (list mval) := {[0%nat := replicate 6 None]}.

Lemma caller_heap_ok : heap_ok caller_heap 1.
Proof. intros b Hb. apply lookup_singleton_ne. lia. Qed.

Lemma cronus_submit_relays_witness :
  wp (cronus_submit (Sv := fixed_server submit_answer) 0 (Some <$> [0; 0; 0; 2; 0; 0; 0xA1; 2]) 8 (Ptr 0 0) 6)
     (World caller_heap 1 (Cro cctx0 tt [])) (fun r w' => r = inr 4 /\
       w' = done_world cctx0 tt []
         (<[0%nat := (Some <$> [9; 8; 7; 6]) ++ [None; None]]>
            (answer_heap true (be_bytes 4 (8 * 4) ++ be_bytes 4 32 ++ [9; 8; 7; 6]) [] 4 caller_heap)) 6
         (submit_req 0x11111111 0 6 (Some <$> [0; 0; 0; 2; 0; 0; 0xA1; 2])) 1030).
Proof.
  exact (cronus_submit_relays (Sv := fixed_server submit_answer) (Al := always_alloc) (fun _ _ => eq_refl) true 1 1 [] cctx0
    tt tt caller_heap 1 [] 0 [0; 0; 0; 2; 0; 0; 0xA1; 2] [9; 8; 7; 6] 32 0 (replicate 6 None) 6
    ltac:(done) ltac:(done) ltac:(done) ltac:(done) caller_heap_ok eq_refl ltac:(done) ltac:(lia)
    ltac:(done) ltac:(done) eq_refl ltac:(simpl; lia)
    submit_replies).
Defined.

Lemma cronus_refused_witness :
  cronus_getscom (Sv := fixed_server refused_answer) 0 0xF000F (World ∅ 0 (Cro cctx0 tt [])) =
    (Fail EIO, World (<[5%nat := Some <$> [78; 111; 0]]> (answer_heap true [] [] 3 ∅)) 6
              (Cro (Cctx 3 0x11111112 0) tt [CevWrite (getscom_req 0x11111111 0 0xF000F);
                 CevRead 1024; CevPrint (Some <$> [78; 111])])).
Proof.
  exact (proj1 (cronus_refused (Sv := fixed_server refused_answer) (Al := always_alloc) (fun _ _ => eq_refl) true 1 1 [] cctx0
    tt tt ∅ 0 [] 0 [] 5 [78; 111; 0] ltac:(done) ltac:(done) ltac:(done) ltac:(done) (heap_ok_empty 0)
    eq_refl ltac:(done)) 0xF000F refused_replies).
Defined.

(** ** libcronus: where the code does not do what it means to *)

#[local] Existing Instance always_alloc.

(** Blocks on the heap after a run. *)
Definition cblocks {A} (r : outcome A * world (cro unit)) : nat := size (dom (w_heap r.2)).

(** An answer that is cut short, or a server that has closed the connection,
    ends the program: the reader of the buffer asserts. *)
Theorem short_answer_aborts :
  (cronus_getscom (Sv := fixed_server []) 0 1 (World ∅ 0 (Cro cctx0 tt []))).1 = Crash AssertFailed /\
  (cronus_getscom (Sv := fixed_server (take 30 scom_answer)) 0 1 (World ∅ 0 (Cro cctx0 tt []))).1
  = Crash AssertFailed.
Proof. split; vm_compute; reflexivity. Qed.

(** The error text is printed as a string although nothing ends it. *)
Theorem error_text_unterminated :
  (cronus_putscom (Sv := fixed_server (server_reply true 0x11111111 [] 1 1 5 [] [78; 111])) 0 1 2
     (World ∅ 0 (Cro cctx0 tt []))).1 = Crash OutOfBounds.
Proof. vm_compute. reflexivity. Qed.

(** [cronus_submit] copies as many bytes as the server announces, whatever the
    size of the buffer of its caller. *)
Theorem submit_overflows :
  (cronus_submit (Sv := fixed_server submit_answer) 0 (Some <$> [0; 0; 0; 2]) 4 (Ptr 0 0) 2
     (World {[0%nat := replicate 2 None]} 1 (Cro cctx0 tt []))).1 = Crash OutOfBounds.
Proof. vm_compute. reflexivity. Qed.

(** The request is not freed when the exchange fails, and the context is not
    freed when the server does not identify itself. *)
Theorem failures_leak :
  (let r := cronus_getscom (Sv := fixed_server (be_bytes 4 3)) 0 1 (World ∅ 0 (Cro cctx0 tt [])) in
   r.1 = Fail EPROTO /\ cblocks r = 2%nat) /\
  (let r := cronus_connect (Sv := fixed_server (be_bytes 4 0)) (Some "localhost"%string) true (World ∅ 0 (Cro cctx0 tt [])) in
   r.1 = Fail EPROTO /\ cblocks r = 1%nat).
Proof. cbv zeta. split_and!; vm_compute; reflexivity. Qed.
