(* ===== verification/Target.v ===== *)
(** * libpdbg: the target tree

    Models the part of libpdbg/libpdbg.c and libpdbg/target.c that walks the
    device tree: virtual and real nodes, parents, iteration, indices, address
    resolution, probing and releasing. The tree itself does not change once it
    is built, so it is a value of type [dtree]; targets are named by numbers,
    the status of each target, the hardware and the trace of the calls to it
    are the state. *)

From stdpp Require Import functions.
From S2P Require Import Prelude CMem.

Inductive pdbg_target_status :=
| PDBG_TARGET_UNKNOWN
| PDBG_TARGET_ENABLED
| PDBG_TARGET_DISABLED
| PDBG_TARGET_MUSTEXIST
| PDBG_TARGET_NONEXISTENT
| PDBG_TARGET_RELEASED.

#[export] Instance pdbg_target_status_eq_dec : EqDecision pdbg_target_status.
Proof. solve_decision. Defined.

(** The members of [struct pdbg_target] that are fixed once the tree is built.
    [translate] is [None] where the member is NULL; its value is [None] where an
    [assert] in it fails. *)
Definition ATTR_TYPE_OCMB_CHIP : Z := 75.
Definition ODYSSEY_CHIP_ID : Z := 0x60C0.

(** The [release] member: NULL, an operation that does not look at other targets, or that of a core of
    p8chip.c, p9chip.c or p10chip.c, which settles its threads first. *)
Inductive release_op := NoRelease | ReleaseHw | ReleaseCore.
Definition has_release (op : release_op) : bool := match op with NoRelease => false | _ => true end.

Record pdbg_target := Node {
  compatible : bool;                      (* [compatible] is set *)
  class : option string;
  translate : option (Z -> option Z);
  has_probe : bool;
  on_release : release_op;
  index : Z;
  parent : option nat;
  children : list nat;
  vnode : option nat;
  reg : option Z;                         (* [pdbg_target_address]; [None] where there is no "reg", or too short a one *)
  attr_type : Z;                          (* ATTR_TYPE and ATTR_CHIP_ID, 0 where absent *)
  attr_chip_id : Z;
  fapi_pos : Z;                           (* ATTR_FAPI_POS *)
  proc_prop : option Z;                   (* the "proc" property *)
  can_read : bool;                        (* the [read] and [write] members *)
  can_write : bool
}.

Record dtree := Dtree {
  node : nat -> pdbg_target;
  pdbg_target_root : nat;
  target_classes : string -> option (list nat);
  backend_kernel : bool                   (* [pdbg_get_backend() == PDBG_BACKEND_KERNEL] *)
}.

(** What the hardware is asked, and its answers; a return code of 0 is a
    success. *)
Inductive tevent :=
| EvProbe (t : nat)
| EvRelease (t : nat)
| EvRead (t : nat) (addr : Z)
| EvWrite (t : nat) (addr data : Z).

Class Hardware (D : Type) := {
  hw_probe : nat -> D -> D * Z;
  hw_release : nat -> D -> D;
  hw_read : nat -> Z -> D -> D * (Z + Z);
  hw_write : nat -> Z -> Z -> D -> D * Z
}.

Record tgt (D : Type) := Tgt {
  t_status : nat -> pdbg_target_status;
  t_dev : D;
  t_trace : list tevent
}.
Arguments Tgt {D} _ _ _.
Arguments t_status {D} _.
Arguments t_dev {D} _.
Arguments t_trace {D} _.

Section Target.
Context {D : Type} {Hw : Hardware D}.
Context (T : dtree).

(** ** Virtual and real nodes *)

Definition target_is_virtual (t : nat) : bool := negb (compatible (node T t)).

Definition target_to_real (t : nat) (strict : bool) : option nat :=
  match vnode (node T t) with
  | Some v => if negb (compatible (node T t)) then Some v else if strict then None else Some t
  | None => if strict then None else Some t
  end.

Definition target_to_virtual (t : nat) (strict : bool) : option nat :=
  match vnode (node T t) with
  | Some v => if compatible (node T t) then Some v else if strict then None else Some t
  | None => if strict then None else Some t
  end.

Definition get_parent (t : nat) (system : bool) : option nat :=
  t ← (if system then target_to_virtual t false else Some t);
  parent ← parent (node T t);
  target_to_real parent false.

(** ** Searching upwards

    The loops over the ancestors take fuel; a tree has no cycles. *)

Definition pdbg_target_class_name (t : nat) : option string := class (node T t).

Fixpoint target_parent_loop (fuel : nat) (klass : string) (parent : option nat) (system : bool)
  : M (tgt D) (option nat) :=
  match fuel with
  | O => crash NoFuel
  | S fuel' =>
      match parent with
      | None => mret None
      | Some p =>
          match get_parent p system with
          | None => mret None
          | Some p' =>
              if bool_decide (pdbg_target_class_name p = Some klass) then mret (Some p)
              else target_parent_loop fuel' klass (Some p') system
          end
      end
  end.

Definition target_parent (fuel : nat) (klass : option string) (t : nat) (system : bool)
  : M (tgt D) (option nat) :=
  match klass with
  | None => mret (get_parent t system)
  | Some klass => target_parent_loop fuel klass (get_parent t system) system
  end.

Definition pdbg_target_parent (fuel : nat) (klass : option string) (t : nat) : M (tgt D) (option nat) :=
  target_parent fuel klass t true.

Definition require_target_parent (fuel : nat) (klass : option string) (t : nat) (system : bool)
  : M (tgt D) nat :=
  parent ← target_parent fuel klass t system;
  match parent with Some p => mret p | None => crash AssertFailed end.

(** [return -1] from a function that returns [uint32_t] *)
Fixpoint pdbg_target_index (fuel : nat) (dn : option nat) : M (tgt D) Z :=
  match fuel with
  | O => crash NoFuel
  | S fuel' =>
      match dn with
      | None => mret (u32 (-1))
      | Some t =>
          if index (node T t) =? -1 then pdbg_target_index fuel' (get_parent t true)
          else mret (u32 (index (node T t)))
      end
  end.

Definition pdbg_parent_index (fuel : nat) (t : nat) (klass : option string) : M (tgt D) Z :=
  parent ← pdbg_target_parent fuel klass t;
  match parent with
  | Some p => pdbg_target_index fuel (Some p)
  | None => mret (u32 (-1))
  end.

(** ** Iteration over the children *)

Definition target_map_child (next : nat) (system : bool) : option nat :=
  if system then
    match vnode (node T next) with
    | None => Some next
    | Some v => if target_is_virtual next then Some v else None
    end
  else if negb (target_is_virtual next) then Some next else None.

(** The first of the children that maps to a target. *)
Fixpoint first_child (cs : list nat) (system : bool) : option nat :=
  match cs with
  | [] => None
  | c :: cs' =>
      match target_map_child c system with Some n => Some n | None => first_child cs' system end
  end.

(** The elements after [last]; [None] when it is not in the list. *)
Fixpoint list_after (last : nat) (cs : list nat) : option (list nat) :=
  match cs with
  | [] => None
  | c :: cs' => if Nat.eqb c last then Some cs' else list_after last cs'
  end.

(** A [last] that is not among the children would walk out of the list. *)
Definition pdbg_next_child_target (parent : nat) (last : option nat) (system : bool)
  : M (tgt D) (option nat) :=
  let parent :=
    match children (node T parent) with [] => vnode (node T parent) | _ :: _ => Some parent end in
  match parent with
  | None => mret None
  | Some parent =>
      let cs := children (node T parent) in
      match last with
      | None => mret (first_child cs system)
      | Some last =>
          let last := if system then default last (target_to_virtual last false) else last in
          match list_after last cs with
          | None => crash OutOfBounds
          | Some rest => mret (first_child rest system)
          end
      end
  end.

(** [pdbg_for_each_child_target(parent, child) body] from the child [cur] on *)
Fixpoint for_each_child_from (fuel : nat) (parent : nat) (cur : option nat)
    (body : nat -> M (tgt D) unit) : M (tgt D) unit :=
  match fuel with
  | O => crash NoFuel
  | S fuel' =>
      match cur with
      | None => mret tt
      | Some c =>
          body c;;
          next ← pdbg_next_child_target parent (Some c) true;
          for_each_child_from fuel' parent next body
      end
  end.

Definition for_each_child (fuel : nat) (parent : nat) (body : nat -> M (tgt D) unit) : M (tgt D) unit :=
  first ← pdbg_next_child_target parent None true;
  for_each_child_from fuel parent first body.

(** ** Iteration over a class *)

Definition find_target_class (name : string) : option (list nat) := target_classes T name.

(** [for (tmp = next; tmp && get_parent(tmp) && tmp != parent; tmp = get_parent(tmp)) {}]
    and the comparison after it *)
Fixpoint is_below (fuel : nat) (tmp : nat) (parent : nat) (system : bool) : M (tgt D) bool :=
  match fuel with
  | O => crash NoFuel
  | S fuel' =>
      match get_parent tmp system with
      | Some p => if Nat.eqb tmp parent then mret true else is_below fuel' p parent system
      | None => mret (Nat.eqb tmp parent)
      end
  end.

Fixpoint next_below (fuel : nat) (ts : list nat) (parent : option nat) (system : bool)
  : M (tgt D) (option nat) :=
  match ts with
  | [] => mret None
  | next :: ts' =>
      match parent with
      | None => mret (Some next)
      | Some p =>
          b ← is_below fuel next p system;
          if b : bool then mret (Some next) else next_below fuel ts' parent system
      end
  end.

Definition pdbg_next_target (fuel : nat) (klass : string) (parent last : option nat) (system : bool)
  : M (tgt D) (option nat) :=
  match find_target_class klass with
  | None => mret None
  | Some targets =>
      match last with
      | None => next_below fuel targets parent system
      | Some l =>
          match list_after l targets with
          | None => crash OutOfBounds
          | Some rest => next_below fuel rest parent system
          end
      end
  end.

(** [pdbg_for_each_target(klass, parent, target) body], from the target [cur] on *)
Fixpoint each_target (fuel n : nat) (klass : string) (parent : nat) (cur : option nat) (body : nat -> M (tgt D) unit) : M (tgt D) unit :=
  match n with
  | O => crash NoFuel
  | S n' =>
      match cur with
      | None => mret tt
      | Some t =>
          body t;;
          next ← pdbg_next_target fuel klass (Some parent) (Some t) true;
          each_target fuel n' klass parent next body
      end
  end.

Definition for_each_target (fuel : nat) (klass : string) (parent : nat) (body : nat -> M (tgt D) unit) : M (tgt D) unit :=
  first ← pdbg_next_target fuel klass (Some parent) None true;
  each_target fuel fuel klass parent first body.

(** ** The status of a target and the hardware *)

Definition pdbg_target_status_of (t : nat) : M (tgt D) pdbg_target_status :=
  s ← get_st; mret (t_status s t).

Definition set_status (t : nat) (st : pdbg_target_status) : M (tgt D) unit :=
  s ← get_st; put_st (Tgt (<[t := st]> (t_status s)) (t_dev s) (t_trace s)).

Definition pdbg_target_status_set (t : nat) (st : pdbg_target_status) : M (tgt D) unit :=
  c_assert (bool_decide (st = PDBG_TARGET_DISABLED) || bool_decide (st = PDBG_TARGET_MUSTEXIST));;
  set_status t st.

Definition hw_call {A} (e : tevent) (f : D -> D * A) : M (tgt D) A :=
  s ← get_st;
  let '(d, a) := f (t_dev s) in
  put_st (Tgt (t_status s) d (t_trace s ++ [e]));;
  mret a.

(** [target->probe && target->probe(target)] *)
Definition call_probe (t : nat) : M (tgt D) bool :=
  if has_probe (node T t) then rc ← hw_call (EvProbe t) (hw_probe t); mret (truthy rc)
  else mret false.

(** The body of the loop over the threads of a core that is released. *)
Definition settle_with (probe : nat -> M (tgt D) pdbg_target_status) (release : nat -> M (tgt D) unit) (child : nat) : M (tgt D) unit :=
  status ← pdbg_target_status_of child;
  if bool_decide (status = PDBG_TARGET_RELEASED) then mret tt else
  status ← probe child;
  if negb (bool_decide (status = PDBG_TARGET_ENABLED)) then mret tt else
  release child.

(** [if (target->release) target->release(target);] *)
Definition call_release (fuel : nat) (probe : nat -> M (tgt D) pdbg_target_status) (release : nat -> M (tgt D) unit) (t : nat) : M (tgt D) unit :=
  match on_release (node T t) with
  | NoRelease => mret tt
  | ReleaseHw => hw_call (EvRelease t) (fun d => (hw_release t d, tt))
  | ReleaseCore =>
      for_each_target fuel "thread" t (settle_with probe release);;
      hw_call (EvRelease t) (fun d => (hw_release t d, tt))
  end.

(** ** Odyssey chips *)

Definition is_ody_ocmb_chip (t : nat) : bool :=
  if negb (attr_type (node T t) =? ATTR_TYPE_OCMB_CHIP) then false
  else attr_chip_id (node T t) =? ODYSSEY_CHIP_ID.

Definition is_child_of_ody_chip (fuel : nat) (t : nat) : M (tgt D) bool :=
  ocmb ← pdbg_target_parent fuel (Some "ocmb"%string) t;
  mret (match ocmb with Some o => is_ody_ocmb_chip o | None => false end).

(** The search of [get_backend_target]; a target that is not found ends in an
    [assert]. *)
Fixpoint backend_search (fuel : nat) (ts : list nat) (pos ocmb_proc : Z) : M (tgt D) nat :=
  match ts with
  | [] => crash AssertFailed
  | t :: ts' =>
      i ← pdbg_target_index fuel (Some t);
      match proc_prop (node T t) with
      | Some proc =>
          if (i =? pos) && (proc =? ocmb_proc) then mret t else backend_search fuel ts' pos ocmb_proc
      | None => backend_search fuel ts' pos ocmb_proc
      end
  end.

Definition get_backend_target (fuel : nat) (klass : string) (ocmb : nat) : M (tgt D) nat :=
  c_assert (is_ody_ocmb_chip ocmb);;
  proc ← pdbg_target_parent fuel (Some "proc"%string) ocmb;
  ocmb_proc ← pdbg_target_index fuel proc;
  backend_search fuel (default [] (find_target_class klass)) (fapi_pos (node T ocmb) mod 8) ocmb_proc.

(** [if (t->probe && t->probe(t)) { t->status = NONEXISTENT; return NONEXISTENT; }] *)
Definition probe_else (t : nat) (k : M (tgt D) pdbg_target_status) : M (tgt D) pdbg_target_status :=
  failed ← call_probe t;
  if failed : bool then set_status t PDBG_TARGET_NONEXISTENT;; mret PDBG_TARGET_NONEXISTENT else k.

Fixpoint pdbg_target_probe_ody_ocmb (fuel : nat) (t : nat) : M (tgt D) pdbg_target_status :=
  match fuel with
  | O => crash NoFuel
  | S fuel' =>
      child ← is_child_of_ody_chip fuel t;
      c_assert (is_ody_ocmb_chip t || child);;
      if child : bool then
        probe_else t (
        set_status t PDBG_TARGET_ENABLED;;
        parent_target ← pdbg_target_parent fuel (Some "ocmb"%string) t;
        match parent_target with
        | Some p => pdbg_target_probe_ody_ocmb fuel' p
        | None => crash AssertFailed
        end)
      else if backend_kernel T then
        pibtarget ← get_backend_target fuel "pib-ody" t;
        probe_else pibtarget (
        fsitarget ← get_backend_target fuel "fsi-ody" t;
        probe_else fsitarget (
        probe_else t (
        set_status fsitarget PDBG_TARGET_ENABLED;;
        set_status t PDBG_TARGET_ENABLED;;
        set_status pibtarget PDBG_TARGET_ENABLED;;
        mret PDBG_TARGET_ENABLED)))
      else
        sbefifo ← get_backend_target fuel "sbefifo-ody" t;
        probe_else sbefifo (
        probe_else t (
        co_target ← get_backend_target fuel "chipop-ody" t;
        probe_else co_target (
        fsi_target ← get_backend_target fuel "fsi-ody" t;
        probe_else fsi_target (
        set_status t PDBG_TARGET_ENABLED;;
        set_status sbefifo PDBG_TARGET_ENABLED;;
        set_status co_target PDBG_TARGET_ENABLED;;
        set_status fsi_target PDBG_TARGET_ENABLED;;
        mret PDBG_TARGET_ENABLED))))
  end.

(** ** Probing and releasing *)

(** The end of [pdbg_target_probe]: the virtual node is probed, then the target. *)
Definition probe_here (probe : nat -> M (tgt D) pdbg_target_status) (t : nat)
  : M (tgt D) pdbg_target_status :=
  (match target_to_virtual t true with Some v => probe v;; mret tt | None => mret tt end);;
  failed ← call_probe t;
  if failed : bool then
    status ← pdbg_target_status_of t;
    c_assert (negb (bool_decide (status = PDBG_TARGET_MUSTEXIST)));;
    set_status t PDBG_TARGET_NONEXISTENT;;
    mret PDBG_TARGET_NONEXISTENT
  else
    set_status t PDBG_TARGET_ENABLED;;
    mret PDBG_TARGET_ENABLED.

(** A parent that is neither enabled, disabled nor absent ends in an [assert]. *)
Fixpoint pdbg_target_probe (fuel : nat) (t : nat) : M (tgt D) pdbg_target_status :=
  match fuel with
  | O => crash NoFuel
  | S fuel' =>
      status ← pdbg_target_status_of t;
      c_assert (negb (bool_decide (status = PDBG_TARGET_RELEASED)));;
      if bool_decide (status ∈ [PDBG_TARGET_DISABLED; PDBG_TARGET_NONEXISTENT; PDBG_TARGET_ENABLED])
      then mret status else
      child ← is_child_of_ody_chip fuel t;
      if is_ody_ocmb_chip t || child then pdbg_target_probe_ody_ocmb fuel t else
      match get_parent t false with
      | None => probe_here (pdbg_target_probe fuel') t
      | Some p =>
          pdbg_target_probe fuel' p;;
          status ← pdbg_target_status_of p;
          match status with
          | PDBG_TARGET_NONEXISTENT =>
              set_status t PDBG_TARGET_NONEXISTENT;; mret PDBG_TARGET_NONEXISTENT
          | PDBG_TARGET_DISABLED =>
              status ← pdbg_target_status_of t;
              c_assert (negb (bool_decide (status = PDBG_TARGET_MUSTEXIST)));;
              mret status
          | PDBG_TARGET_RELEASED | PDBG_TARGET_MUSTEXIST | PDBG_TARGET_UNKNOWN => crash AssertFailed
          | PDBG_TARGET_ENABLED => probe_here (pdbg_target_probe fuel') t
          end
      end
  end.

Fixpoint pdbg_target_release (fuel : nat) (t : nat) : M (tgt D) unit :=
  match fuel with
  | O => crash NoFuel
  | S fuel' =>
      status ← pdbg_target_status_of t;
      if negb (bool_decide (status = PDBG_TARGET_ENABLED)) then mret tt else
      for_each_child fuel t (pdbg_target_release fuel');;
      call_release fuel (pdbg_target_probe fuel) (pdbg_target_release fuel') t;;
      set_status t PDBG_TARGET_RELEASED
  end.

Fixpoint pdbg_target_probe_all (fuel : nat) (parent : option nat) : M (tgt D) unit :=
  match fuel with
  | O => crash NoFuel
  | S fuel' =>
      let parent := default (pdbg_target_root T) parent in
      for_each_child fuel parent (fun child =>
        pdbg_target_probe_all fuel' (Some child);;
        pdbg_target_probe fuel child;;
        mret tt)
  end.
End Target.
