(* ===== verification/Pib.v ===== *)
(** * libpdbg: register access through the tree

    Models the access functions of libpdbg/target.c: the address of an access is
    resolved along the tree to the target of the bus class, and the access is
    handed to it, directly or, for an indirect SCOM address, through the indirect
    protocol. *)

From S2P Require Import Prelude CMem Target.

(** ** bitutils.h *)

Definition PPC_BIT (bit : Z) : Z := Z.shiftr 0x8000000000000000 bit.
Definition PPC_BITMASK (bs be : Z) : Z := Z.lor (u64 (PPC_BIT bs - PPC_BIT be)) (PPC_BIT bs).

Definition PIB_IND_MAX_RETRIES : nat := 10.
Definition PIB_IND_READ : Z := PPC_BIT 0.
Definition PIB_IND_ADDR : Z := PPC_BITMASK 12 31.
Definition PIB_IND_DATA : Z := PPC_BITMASK 48 63.
Definition PIB_DATA_IND_COMPLETE : Z := PPC_BIT 32.
Definition PIB_DATA_IND_ERR : Z := PPC_BITMASK 33 35.
Definition PIB_DATA_IND_DATA : Z := PPC_BITMASK 48 63.

Section Pib.
Context {D : Type} {Hw : Hardware D}.
Context (T : dtree).

(** ** Resolving an address *)

(** [pdbg_target_address]: without a "reg" that is long enough the program stops. *)
Definition target_address (t : nat) : M (tgt D) Z :=
  match reg (node T t) with Some r => mret r | None => crash AssertFailed end.

(** [strcmp(target->class, name)] reads through a NULL class; so does the loop when
    it runs off the top of the tree. *)
Fixpoint get_class_target_addr (fuel : nat) (t : nat) (name : string) (addr : Z) : M (tgt D) (nat * Z) :=
  match fuel with
  | O => crash NoFuel
  | S fuel' =>
      match class (node T t) with
      | None => crash OutOfBounds
      | Some c =>
          if bool_decide (c = name) then mret (t, addr) else
          match translate (node T t) with
          | Some f =>
              match f addr with
              | None => crash AssertFailed
              | Some addr =>
                  p ← target_parent T fuel (Some name) t false;
                  match p with Some p => mret (p, addr) | None => crash AssertFailed end
              end
          | None =>
              r ← target_address t;
              let addr := u64 (addr + r) in
              match get_parent T t false with
              | None => crash OutOfBounds
              | Some p =>
                  c_assert (negb (Nat.eqb p (pdbg_target_root T)));;
                  get_class_target_addr fuel' p name addr
              end
          end
      end
  end.

Definition pdbg_address_absolute (fuel : nat) (t : nat) (addr : Z) : M (tgt D) (nat * Z) :=
  get_class_target_addr fuel t "pib" addr.

(** ** The operations of the bus target *)

(** [pib->read(pib, addr, &data)] *)
Definition bus_read (t : nat) (addr : Z) : M (tgt D) Z :=
  r ← hw_call (EvRead t addr) (hw_read t addr);
  check r.

Definition bus_write (t : nat) (addr data : Z) : M (tgt D) unit :=
  rc ← hw_call (EvWrite t addr data) (hw_write t addr data);
  if truthy rc then fail rc else mret tt.

(** [if (pdbg_target_status(dt) != PDBG_TARGET_ENABLED) return -1;] *)
Definition require_enabled (t : nat) : M (tgt D) unit :=
  status ← pdbg_target_status_of t;
  if negb (bool_decide (status = PDBG_TARGET_ENABLED)) then fail (-1) else mret tt.

(** [if (!pib->read) return -1;] *)
Definition require_op (b : bool) : M (tgt D) unit := if b then mret tt else fail (-1).

(** ** Indirect access *)

(** The retry loop of a read from the [n]-th retry before the last; without a complete
    word it ends with the last word read. *)
Fixpoint indirect_read_loop (n : nat) (pib : nat) (indirect_addr data : Z) : M (tgt D) Z :=
  match n with
  | O => mret data
  | S n' =>
      data ← bus_read pib indirect_addr;
      if truthy (Z.land data PIB_DATA_IND_COMPLETE) && (Z.land data PIB_DATA_IND_ERR =? 0)
      then mret (Z.land data PIB_DATA_IND_DATA)
      else if truthy (Z.land data PIB_DATA_IND_COMPLETE) then fail (-1)
      else indirect_read_loop n' pib indirect_addr data
  end.

Definition pib_indirect_read (pib : nat) (addr : Z) : M (tgt D) Z :=
  if truthy (Z.land (Z.shiftr addr 60) 1) then fail (-1) else
  let indirect_addr := Z.land addr 0x7fffffff in
  let data := Z.lor PIB_IND_READ (Z.land addr PIB_IND_ADDR) in
  bus_write pib indirect_addr data;;
  indirect_read_loop PIB_IND_MAX_RETRIES pib indirect_addr data.

Fixpoint indirect_write_loop (n : nat) (pib : nat) (indirect_addr : Z) : M (tgt D) unit :=
  match n with
  | O => mret tt
  | S n' =>
      data ← bus_read pib indirect_addr;
      if truthy (Z.land data PIB_DATA_IND_COMPLETE) && (Z.land data PIB_DATA_IND_ERR =? 0)
      then mret tt
      else if truthy (Z.land data PIB_DATA_IND_COMPLETE) then fail (-1)
      else indirect_write_loop n' pib indirect_addr
  end.

Definition pib_indirect_write (pib : nat) (addr data : Z) : M (tgt D) unit :=
  if truthy (Z.land (Z.shiftr addr 60) 1) then fail (-1) else
  let indirect_addr := Z.land addr 0x7fffffff in
  let data := Z.land data PIB_IND_DATA in
  let data := Z.lor data (Z.land addr PIB_IND_ADDR) in
  bus_write pib indirect_addr data;;
  indirect_write_loop PIB_IND_MAX_RETRIES pib indirect_addr.

(** ** Access to a SCOM register *)

(** [if (addr & PPC_BIT(0)) pib_indirect_read(...); else pib->read(...);] *)
Definition pib_any_read (pib : nat) (addr : Z) : M (tgt D) Z :=
  if truthy (Z.land addr (PPC_BIT 0)) then pib_indirect_read pib addr else bus_read pib addr.

Definition pib_any_write (pib : nat) (addr data : Z) : M (tgt D) unit :=
  if truthy (Z.land addr (PPC_BIT 0)) then pib_indirect_write pib addr data else bus_write pib addr data.

Definition pib_read (fuel : nat) (t : nat) (addr : Z) : M (tgt D) Z :=
  '(pib, target_addr) ← get_class_target_addr fuel t "pib" addr;
  require_enabled pib;;
  require_op (can_read (node T pib));;
  pib_any_read pib target_addr.

Definition pib_ody_read (t : nat) (addr : Z) : M (tgt D) Z :=
  require_enabled t;;
  require_op (can_read (node T t));;
  pib_any_read t addr.

Definition pib_write (fuel : nat) (t : nat) (addr data : Z) : M (tgt D) unit :=
  '(pib, target_addr) ← get_class_target_addr fuel t "pib" addr;
  require_enabled pib;;
  require_op (can_write (node T pib));;
  pib_any_write pib target_addr data.

Definition pib_ody_write (t : nat) (addr data : Z) : M (tgt D) unit :=
  require_enabled t;;
  require_op (can_write (node T t));;
  pib_any_write t addr data.

Definition pib_write_mask (fuel : nat) (t : nat) (addr data mask : Z) : M (tgt D) unit :=
  value ← pib_read fuel t addr;
  let value := Z.lor (Z.land value (u64 (Z.lnot mask))) (Z.land data mask) in
  pib_write fuel t addr value.

(** [do { ... } while ((tmp & mask) != data);] need not end: the fuel bounds the
    number of reads. *)
Fixpoint pib_wait_loop (fuel : nat) (pib : nat) (addr mask data : Z) : M (tgt D) unit :=
  match fuel with
  | O => crash NoFuel
  | S fuel' =>
      tmp ← pib_any_read pib addr;
      if negb (Z.land tmp mask =? data) then pib_wait_loop fuel' pib addr mask data else mret tt
  end.

Definition pib_wait (fuel : nat) (t : nat) (addr mask data : Z) : M (tgt D) unit :=
  '(pib, addr) ← get_class_target_addr fuel t "pib" addr;
  require_enabled pib;;
  require_op (can_read (node T pib));;
  pib_wait_loop fuel pib addr mask data.

(** ** The other buses *)

Definition opb_read (fuel : nat) (t : nat) (addr : Z) : M (tgt D) Z :=
  '(opb, addr64) ← get_class_target_addr fuel t "opb" addr;
  require_enabled opb;;
  require_op (can_read (node T opb));;
  bus_read opb (u32 addr64).

Definition opb_write (fuel : nat) (t : nat) (addr data : Z) : M (tgt D) unit :=
  '(opb, addr64) ← get_class_target_addr fuel t "opb" addr;
  require_enabled opb;;
  require_op (can_write (node T opb));;
  bus_write opb (u32 addr64) data.

Definition fsi_read (fuel : nat) (t : nat) (addr : Z) : M (tgt D) Z :=
  '(fsi, addr64) ← get_class_target_addr fuel t "fsi" addr;
  require_op (can_read (node T fsi));;
  bus_read fsi (u32 addr64).

Definition fsi_write (fuel : nat) (t : nat) (addr data : Z) : M (tgt D) unit :=
  '(fsi, addr64) ← get_class_target_addr fuel t "fsi" addr;
  require_op (can_write (node T fsi));;
  bus_write fsi (u32 addr64) data.

Definition fsi_ody_read (t : nat) (addr : Z) : M (tgt D) Z :=
  require_op (can_read (node T t));; bus_read t (u32 addr).

Definition fsi_ody_write (t : nat) (addr data : Z) : M (tgt D) unit :=
  require_op (can_write (node T t));; bus_write t (u32 addr) data.

Definition fsi_write_mask (fuel : nat) (t : nat) (addr data mask : Z) : M (tgt D) unit :=
  value ← fsi_read fuel t addr;
  let value := Z.lor (Z.land value (u32 (Z.lnot mask))) (Z.land data mask) in
  fsi_write fuel t addr value.
End Pib.
