(* ===== verification/TargetFacts.v ===== *)
(** * libpdbg: walking the target tree

    The loops that search the ancestors of a target end, and find what they are
    meant to find. *)

From stdpp Require Import functions.
From S2P Require Import Prelude CMem Target Pib.

(** ** The line of ancestors *)

Section Ancestry.
Context (T : dtree) (system : bool).

(** The chain from a target to the top of its tree, both included. *)
Inductive ancestry : nat -> list nat -> Prop :=
| anc_top t : get_parent T t system = None -> ancestry t [t]
| anc_up t p l : get_parent T t system = Some p -> ancestry p l -> ancestry t (t :: l).

Lemma ancestry_head t l : ancestry t l -> exists l', l = t :: l'.
Proof. inversion 1; eauto. Qed.

Lemma ancestry_fun t l l' : ancestry t l -> ancestry t l' -> l = l'.
Proof.
  intros H. revert l'. induction H as [t E|t p l E H IH]; inversion 1; subst; try congruence.
  f_equal. apply IH. congruence.
Qed.

(** The nearest of the targets that is not the top and has the class. *)
Definition nearest (klass : string) (l : list nat) : option nat :=
  snd <$> list_find (fun p => class (node T p) = Some klass) (removelast l).

Lemma nearest_cons klass p q l :
  nearest klass (p :: q :: l) =
  if bool_decide (class (node T p) = Some klass) then Some p else nearest klass (q :: l).
Proof.
  unfold nearest. change (removelast (p :: q :: l)) with (p :: removelast (q :: l)). cbn [list_find].
  case_bool_decide as E; destruct (decide _); try done.
  destruct (list_find _ _) as [[]|]; done.
Qed.
End Ancestry.

Section Walk.
Context {D : Type} {Hw : Hardware D} (T : dtree).
Implicit Types (w : world (tgt D)).

Lemma target_parent_loop_ok fuel klass p l system w :
  ancestry T system p l -> (length l <= fuel)%nat ->
  target_parent_loop T fuel klass (Some p) system w = (Ret (nearest T klass l), w).
Proof.
  intros H. revert fuel. induction H as [t E|t p l E H IH]; intros fuel Hf.
  - destruct fuel as [|fuel]; [cbn in Hf; lia|]. cbn. by rewrite E.
  - destruct fuel as [|fuel]; [cbn in Hf; lia|]. cbn [target_parent_loop]. rewrite E.
    destruct (ancestry_head _ _ _ _ H) as [l' ->]. rewrite nearest_cons.
    unfold pdbg_target_class_name. case_bool_decide; [done|]. apply IH. cbn [length] in *. lia.
Qed.

Lemma target_parent_ok fuel klass t l system w :
  ancestry T system t (t :: l) -> (length l < fuel)%nat ->
  target_parent T fuel (Some klass) t system w = (Ret (nearest T klass l), w).
Proof.
  intros H Hf. inversion H as [? E|? p ? E Hp]; subst; unfold target_parent; rewrite E.
  - destruct fuel as [|fuel]; [lia|done].
  - apply target_parent_loop_ok; [done|lia].
Qed.

(** The first index on the line of ancestors. *)
Definition first_index (l : list nat) : Z :=
  match list_find (fun p => index (node T p) <> -1) l with
  | Some (_, p) => u32 (index (node T p))
  | None => u32 (-1)
  end.

Lemma index_ok fuel t l (w : world (tgt D)) :
  ancestry T true t l -> (length l < fuel)%nat -> pdbg_target_index T fuel (Some t) w = (Ret (first_index l), w).
Proof.
  intros H. revert fuel. induction H as [t E|t p l E H IH]; intros fuel Hf;
    (destruct fuel as [|fuel]; [lia|]); cbn [pdbg_target_index length] in *; unfold first_index; cbn [list_find];
    destruct (decide (index (node T t) <> -1)) as [Hn|Hn], (Z.eqb_spec (index (node T t)) (-1)); try (exfalso; tauto);
    try reflexivity; rewrite E.
  - destruct fuel; [lia|done].
  - rewrite IH by lia. unfold first_index. by destruct (list_find _ l) as [[]|].
Qed.

(** ** Resolving an address *)

(** A target that only adds its own address on the way to [name]. *)
Definition plain (name : string) (t : nat) : bool :=
  negb (bool_decide (class (node T t) = Some name)) &&
  match translate (node T t) with Some _ => false | None => true end.

Fixpoint split_while (f : nat -> bool) (l : list nat) : list nat * list nat :=
  match l with
  | [] => ([], [])
  | x :: l' => if f x then let '(a, b) := split_while f l' in (x :: a, b) else ([], l)
  end.

Definition regs (l : list nat) : option Z := foldr (fun t a => r ← reg (node T t); a ← a; Some (r + a)) (Some 0) l.

(** What an access by [name] from the bottom of the line [l] reaches: the targets before
    the first one of the class or with a translation add their addresses, which they must have; a translation
    then applies once, and the nearest target of the class above it is taken. *)
Definition resolve (name : string) (l : list nat) (addr : Z) : option (nat * Z) :=
  let '(pre, rest) := split_while (plain name) (removelast l) in
  sum ← regs pre;
  let addr := u64 (addr + sum) in
  match rest with
  | [] => None
  | x :: up =>
      if bool_decide (class (node T x) = Some name) then Some (x, addr) else
      f ← translate (node T x);
      addr ← f addr;
      p ← snd <$> list_find (fun p => class (node T p) = Some name) up;
      Some (p, addr)
  end.

Lemma wrap_add n a b : wrap n (wrap n a + b) = wrap n (a + b).
Proof. unfold wrap. apply Zplus_mod_idemp_l. Qed.

Lemma resolve_plain name t q l addr :
  plain name t = true -> resolve name (t :: q :: l) addr = r ← reg (node T t); resolve name (q :: l) (u64 (addr + r)).
Proof.
  intros Hp. unfold resolve. change (removelast (t :: q :: l)) with (t :: removelast (q :: l)).
  cbn [split_while]. rewrite Hp. destruct (split_while _ _) as [pre rest]. cbn [regs foldr]. fold (regs pre).
  destruct (reg (node T t)) as [r|]; [|done]. unfold mbind, option_bind. destruct (regs pre) as [a|]; [|done].
  by rewrite wrap_add, Z.add_assoc.
Qed.

(** One step of the walk, from a target below the top. *)
Lemma class_addr_step fuel name t q l addr w :
  ancestry T false t (t :: q :: l) -> (length l + 2 <= fuel)%nat -> is_Some (class (node T t)) ->
  in_range 64 addr -> plain name t = false ->
  get_class_target_addr T fuel t name addr w =
  (match resolve name (t :: q :: l) addr with Some r => Ret r | None => Crash AssertFailed end, w).
Proof.
  intros H Hf [c Ec] Ha Hp. destruct fuel as [|fuel]; [lia|]. cbn [get_class_target_addr]. rewrite Ec.
  unfold resolve. change (removelast (t :: q :: l)) with (t :: removelast (q :: l)). cbn [split_while].
  rewrite Hp, Ec. change (regs []) with (Some 0). cbn [mbind option_bind]. rewrite Z.add_0_r, (wrap_small 64 addr Ha).
  unfold plain in Hp. rewrite Ec in Hp.
  rewrite (bool_decide_ext (c = name) (Some c = Some name)) by (split; congruence).
  case_bool_decide; [done|]. cbn in Hp. destruct (translate (node T t)) as [f|]; [|done].
  unfold mbind, M_bind, option_bind. destruct (f addr) as [a|]; [|done].
  rewrite (target_parent_ok _ _ _ (q :: l)) by (done || cbn; lia). unfold nearest.
  by destruct (list_find _ _) as [[]|].
Qed.

Lemma class_addr_ok fuel name l t q addr w :
  ancestry T false t (t :: q :: l) -> (length l + 2 <= fuel)%nat ->
  last (t :: q :: l) = Some (pdbg_target_root T) -> NoDup (t :: q :: l) -> in_range 64 addr ->
  Forall (fun p => is_Some (class (node T p))) (removelast (t :: q :: l)) ->
  get_class_target_addr T fuel t name addr w =
  (match resolve name (t :: q :: l) addr with Some r => Ret r | None => Crash AssertFailed end, w).
Proof.
  revert fuel t q addr. induction l as [|r l IH]; intros fuel t q addr H Hf Hl Hn Ha Hc;
    destruct (plain name t) eqn:Hp; try (apply class_addr_step; [done..|by inversion Hc|done|done]).
  all: destruct fuel as [|fuel]; [cbn in Hf; lia|]; cbn [get_class_target_addr].
  all: pose proof (Forall_inv Hc) as [c Ec]; rewrite Ec; rewrite resolve_plain by done.
  all: unfold plain in Hp; apply andb_prop in Hp as [Hp1 Hp2]; rewrite Ec in Hp1.
  all: rewrite (bool_decide_ext (c = name) (Some c = Some name)) by (split; congruence).
  all: apply negb_true_iff in Hp1; rewrite Hp1; destruct (translate (node T t)); [done|].
  all: unfold target_address; destruct (reg (node T t)) as [r0|]; [|done].
  all: inversion H as [|? p ? E Hp]; subst; destruct (ancestry_head _ _ _ _ Hp) as [l' El]; injection El as -> <-.
  all: rewrite E.
  - injection Hl as ->. rewrite Nat.eqb_refl. reflexivity.
  - assert (p <> pdbg_target_root T) as Hr.
    { intros ->. apply NoDup_cons in Hn as [_ Hn]. apply NoDup_cons in Hn as [Hn _].
      apply Hn. cbn in Hl. eapply last_Some_elem_of, Hl. }
    apply Nat.eqb_neq in Hr. rewrite Hr. cbn. unfold mbind, M_bind. cbn.
    apply IH; [done|cbn in Hf; lia|done|by apply NoDup_cons in Hn as [_ ?]| |by inversion Hc].
    apply wrap_range. lia.
Qed.
End Walk.

(** ** libpdbg: the indirect SCOM protocol

    What a run of the retry loops returns, in terms of the words the hardware
    delivers. *)

(** ** The words of the protocol *)

(** The bits of a data word, numbered from the least significant one. *)
Definition word_complete (x : Z) : bool := Z.testbit x 31.
Definition word_error (x : Z) : Z := (x / 2 ^ 28) mod 8.
Definition word_data (x : Z) : Z := x mod 2 ^ 16.

(** The register of an indirect address, and the part of the address that goes into
    the command word. *)
Definition ind_register (addr : Z) : Z := addr mod 2 ^ 31.
Definition ind_field (addr : Z) : Z := (addr / 2 ^ 32) mod 2 ^ 20.

Lemma truthy_land_bit x k : 0 <= k -> truthy (Z.land x (2 ^ k)) = Z.testbit x k.
Proof.
  intros Hk. unfold truthy. destruct (Z.testbit x k) eqn:E.
  - apply negb_true_iff, Z.eqb_neq. intros H. apply (f_equal (fun v => Z.testbit v k)) in H.
    rewrite Z.land_spec, Z.pow2_bits_true, E, Z.testbit_0_l in H by lia. done.
  - apply negb_false_iff, Z.eqb_eq, Z.bits_inj'. intros i Hi.
    rewrite Z.land_spec, Z.pow2_bits_eqb, Z.testbit_0_l by lia.
    destruct (Z.eqb_spec k i); [subst; by rewrite E|apply andb_false_r].
Qed.

Lemma land_ones_shift x lo w : 0 <= lo -> 0 <= w -> Z.land x (Z.shiftl (Z.ones w) lo) = (x / 2 ^ lo) mod 2 ^ w * 2 ^ lo.
Proof.
  intros Hl Hw. rewrite <- Z.land_ones, <- Z.shiftr_div_pow2, <- Z.shiftl_mul_pow2 by lia.
  apply Z.bits_inj'. intros i Hi. rewrite Z.land_spec, !Z.shiftl_spec by lia.
  destruct (Z.leb_spec lo i).
  - rewrite Z.land_spec, Z.shiftr_spec by lia. do 2 f_equal. lia.
  - rewrite !(Z.testbit_neg_r _ (i - lo)) by lia. apply andb_false_r.
Qed.

Lemma complete_bit x : truthy (Z.land x PIB_DATA_IND_COMPLETE) = word_complete x.
Proof. change PIB_DATA_IND_COMPLETE with (2 ^ 31). apply truthy_land_bit. lia. Qed.

Lemma error_bits x : (Z.land x PIB_DATA_IND_ERR =? 0) = (word_error x =? 0).
Proof.
  change PIB_DATA_IND_ERR with (Z.shiftl (Z.ones 3) 28). rewrite land_ones_shift by lia. unfold word_error.
  change (2 ^ 3) with 8. destruct (Z.eqb_spec ((x / 2 ^ 28) mod 8) 0) as [->|]; [done|]. apply Z.eqb_neq. lia.
Qed.

Lemma data_bits x : Z.land x PIB_DATA_IND_DATA = word_data x.
Proof. change PIB_DATA_IND_DATA with (Z.ones 16). by apply Z.land_ones. Qed.

Lemma register_bits addr : Z.land addr 0x7fffffff = ind_register addr.
Proof. change 0x7fffffff with (Z.ones 31). by apply Z.land_ones. Qed.

Lemma field_bits addr : Z.land addr PIB_IND_ADDR = ind_field addr * 2 ^ 32.
Proof. change PIB_IND_ADDR with (Z.shiftl (Z.ones 20) 32). by apply land_ones_shift. Qed.

Lemma read_command addr : Z.lor PIB_IND_READ (Z.land addr PIB_IND_ADDR) = 2 ^ 63 + ind_field addr * 2 ^ 32.
Proof.
  rewrite field_bits. change PIB_IND_READ with (Z.shiftl 1 63). rewrite lor_shiftl_add; [done|lia|].
  unfold ind_field, in_range. pose proof (Z.mod_pos_bound (addr / 2 ^ 32) (2 ^ 20)). lia.
Qed.

Lemma write_command addr data :
  Z.lor (Z.land data PIB_IND_DATA) (Z.land addr PIB_IND_ADDR) = ind_field addr * 2 ^ 32 + word_data data.
Proof.
  rewrite field_bits. change PIB_IND_DATA with PIB_DATA_IND_DATA. rewrite data_bits, Z.lor_comm.
  rewrite <- (lor_shiftl_add (ind_field addr)); [by rewrite Z.shiftl_mul_pow2 by lia|lia|].
  unfold word_data, in_range. pose proof (Z.mod_pos_bound data (2 ^ 16)). lia.
Qed.

(** ** Runs of the protocol *)

Section Runs.
Context {D : Type} {Hw : Hardware D}.

(** [answers pib a d xs d']: reading register [a] again and again from state [d]
    delivers the words [xs] and ends in [d']. *)
Inductive answers (pib : nat) (a : Z) : D -> list Z -> D -> Prop :=
| ans_nil d : answers pib a d [] d
| ans_cons d d1 d2 x xs :
    hw_read pib a d = (d1, inr x) -> answers pib a d1 xs d2 -> answers pib a d (x :: xs) d2.

Context (pib : nat) (a : Z) (h : gmap nat (list mval)) (n : nat) (st : nat -> pdbg_target_status).

Lemma read_step d d1 x tr :
  hw_read pib a d = (d1, inr x) ->
  bus_read pib a (World h n (Tgt st d tr)) = (Ret x, World h n (Tgt st d1 (tr ++ [EvRead pib a]))).
Proof. intros E. unfold bus_read, hw_call, mbind, M_bind. cbn. by rewrite E. Qed.

Lemma write_step d d1 x tr :
  hw_write pib a x d = (d1, 0) ->
  bus_write pib a x (World h n (Tgt st d tr)) = (Ret tt, World h n (Tgt st d1 (tr ++ [EvWrite pib a x]))).
Proof. intros E. unfold bus_write, hw_call, mbind, M_bind. cbn. by rewrite E. Qed.

(** The words before the first complete one are skipped. *)
Lemma read_loop_skip xs k data d d' tr :
  answers pib a d xs d' -> Forall (fun x => word_complete x = false) xs ->
  indirect_read_loop (length xs + k) pib a data (World h n (Tgt st d tr)) =
  indirect_read_loop k pib a (default data (last xs))
    (World h n (Tgt st d' (tr ++ replicate (length xs) (EvRead pib a)))).
Proof.
  intros H. revert data tr. induction H as [d|d d1 d2 x xs E H IH]; intros data tr HF.
  - by rewrite app_nil_r.
  - apply Forall_cons in HF as [Hx HF]. cbn [length Nat.add indirect_read_loop].
    unfold mbind at 1, M_bind. rewrite (read_step _ _ _ _ E), complete_bit, Hx. cbn [andb].
    rewrite (IH x) by done. rewrite <- app_assoc. cbn [app]. f_equal. rewrite last_cons. by destruct (last xs).
Qed.

Lemma write_loop_skip xs k d d' tr :
  answers pib a d xs d' -> Forall (fun x => word_complete x = false) xs ->
  indirect_write_loop (length xs + k) pib a (World h n (Tgt st d tr)) =
  indirect_write_loop k pib a (World h n (Tgt st d' (tr ++ replicate (length xs) (EvRead pib a)))).
Proof.
  intros H. revert tr. induction H as [d|d d1 d2 x xs E H IH]; intros tr HF.
  - by rewrite app_nil_r.
  - apply Forall_cons in HF as [Hx HF]. cbn [length Nat.add indirect_write_loop].
    unfold mbind at 1, M_bind. rewrite (read_step _ _ _ _ E), complete_bit, Hx. cbn [andb].
    rewrite IH by done. rewrite <- app_assoc. done.
Qed.

Lemma read_loop_last x k data d d' tr :
  hw_read pib a d = (d', inr x) -> word_complete x = true ->
  indirect_read_loop (S k) pib a data (World h n (Tgt st d tr)) =
  ((if word_error x =? 0 then Ret (word_data x) else Fail (-1)),
   World h n (Tgt st d' (tr ++ [EvRead pib a]))).
Proof.
  intros E Hx. cbn [indirect_read_loop]. unfold mbind, M_bind.
  rewrite (read_step _ _ _ _ E), complete_bit, Hx, error_bits, data_bits. by destruct (word_error x =? 0).
Qed.

Lemma write_loop_last x k d d' tr :
  hw_read pib a d = (d', inr x) -> word_complete x = true ->
  indirect_write_loop (S k) pib a (World h n (Tgt st d tr)) =
  ((if word_error x =? 0 then Ret tt else Fail (-1)), World h n (Tgt st d' (tr ++ [EvRead pib a]))).
Proof.
  intros E Hx. cbn [indirect_write_loop]. unfold mbind, M_bind.
  rewrite (read_step _ _ _ _ E), complete_bit, Hx, error_bits. by destruct (word_error x =? 0).
Qed.
End Runs.
