(* ===== verification/TargetProbe.v ===== *)
(** * libpdbg: probing and releasing the target tree

    The status of a target after probing says whether it is there: the hardware
    finds it and all its ancestors. *)

From stdpp Require Import functions.
From S2P Require Import Prelude CMem Target Pib TargetFacts.

Definition probes (tr : list tevent) : list nat :=
  omap (fun e => match e with EvProbe t => Some t | _ => None end) tr.

Lemma probes_app tr tr' : probes (tr ++ tr') = probes tr ++ probes tr'.
Proof. apply omap_app. Qed.

(** A tree is well founded when a rank decreases from a target to its parent and to
    its virtual node. *)
Record ranked (T : dtree) (rank : nat -> nat) : Prop := Ranked {
  rank_parent t p : get_parent T t false = Some p -> (rank p < rank t)%nat;
  rank_virtual t v : target_to_virtual T t true = Some v -> (rank v < rank t)%nat
}.

Definition no_ody (T : dtree) : Prop := forall t, is_ody_ocmb_chip T t = false.

(** A target is there when its probe finds it, if it has one, and its parent is there. *)
Inductive on_hw (T : dtree) (present : nat -> bool) : nat -> Prop :=
| on_hw_intro t :
    (has_probe (node T t) = true -> present t = true) ->
    (forall p, get_parent T t false = Some p -> on_hw T present p) -> on_hw T present t.

Section Probe.
Context {D : Type} {Hw : Hardware D} (T : dtree).
Context (rank : nat -> nat) (present : nat -> bool).
Context (Hrank : ranked T rank) (Hody : no_ody T).
(** The hardware does not come and go: the answer to a probe is fixed. *)
Context (Hdet : forall t (d : D), truthy (hw_probe t d).2 = negb (present t)).

Definition decided (t : nat) (s : pdbg_target_status) : Prop :=
  (s = PDBG_TARGET_ENABLED /\ on_hw T present t) \/ (s = PDBG_TARGET_NONEXISTENT /\ ~ on_hw T present t).

(** The states probing goes through. *)
Record probe_inv (s : tgt D) : Prop := ProbeInv {
  inv_status t : t_status s t = PDBG_TARGET_UNKNOWN \/ decided t (t_status s t);
  inv_nodup : NoDup (probes (t_trace s));
  inv_probed t : t ∈ probes (t_trace s) -> t_status s t <> PDBG_TARGET_UNKNOWN
}.

(** What probing a target of rank [k] may change. *)
Record probe_step (k : nat) (s s' : tgt D) : Prop := ProbeStep {
  step_kept t : t_status s t <> PDBG_TARGET_UNKNOWN -> t_status s' t = t_status s t;
  step_rank t : (k < rank t)%nat -> t_status s' t = t_status s t;
  step_trace : exists ps, t_trace s' = t_trace s ++ (EvProbe <$> ps) /\ Forall (fun p => (rank p <= k)%nat) ps
}.

Lemma probe_step_refl k s : probe_step k s s.
Proof. split; [done..|]. exists []. by rewrite app_nil_r. Qed.

Lemma probe_step_trans k k1 k2 s s1 s2 :
  probe_step k1 s s1 -> probe_step k2 s1 s2 -> (k1 <= k)%nat -> (k2 <= k)%nat -> probe_step k s s2.
Proof.
  intros [A1 B1 (ps1 & E1 & F1)] [A2 B2 (ps2 & E2 & F2)] H1 H2. split.
  - intros t Ht. rewrite A2; [by apply A1|]. by rewrite A1.
  - intros t Ht. rewrite B2, B1 by lia. done.
  - exists (ps1 ++ ps2). rewrite E2, E1, fmap_app, app_assoc. split; [done|]. apply Forall_app. split.
    + eapply Forall_impl; [exact F1|]. cbn. intros. lia.
    + eapply Forall_impl; [exact F2|]. cbn. intros. lia.
Qed.

(** ** The Odyssey test *)

Lemma target_parent_ends fuel klass p system w :
  (forall t p, get_parent T t system = Some p -> (rank p < rank t)%nat) -> (rank p < fuel)%nat ->
  exists r, target_parent_loop T fuel klass (Some p) system w = (Ret r, w : world (tgt D)).
Proof.
  intros Hr. revert p. induction fuel as [|fuel IH]; intros p Hf; [lia|]. cbn [target_parent_loop].
  destruct (get_parent T p system) as [q|] eqn:E; [|by eexists].
  case_bool_decide; [by eexists|]. apply IH. apply Hr in E. lia.
Qed.

Lemma rank_system t p : get_parent T t true = Some p -> (rank p < rank t)%nat.
Proof.
  unfold get_parent. destruct (target_to_virtual T t false) as [v|] eqn:E; [|done]. cbn. intros Hp.
  assert (get_parent T v false = Some p) as Hv by exact Hp. apply (rank_parent _ _ Hrank) in Hv.
  enough (rank v <= rank t)%nat by lia. unfold target_to_virtual in E.
  destruct (vnode (node T t)) as [u|] eqn:Eu; [|injection E as <-; lia].
  destruct (compatible (node T t)) eqn:Ec; injection E as <-; [|lia].
  enough (rank u < rank t)%nat by lia. apply (rank_virtual _ _ Hrank). unfold target_to_virtual. by rewrite Eu, Ec.
Qed.

Lemma not_ody_child fuel t w :
  (rank t < fuel)%nat -> is_child_of_ody_chip T fuel t w = (Ret false, w : world (tgt D)).
Proof.
  intros Hf. unfold is_child_of_ody_chip, pdbg_target_parent, target_parent, mbind, M_bind.
  destruct (get_parent T t true) as [p|] eqn:E.
  - destruct (target_parent_ends fuel "ocmb" p true w rank_system) as [r ->]; [apply rank_system in E; lia|].
    destruct r; [|done]. by rewrite Hody.
  - destruct fuel; [lia|done].
Qed.

(** ** The state of a run *)

Lemma wp_status_of t h n (s : tgt D) Q :
  Q (inr (t_status s t)) (World h n s) -> wp (pdbg_target_status_of t) (World h n s) Q.
Proof. done. Qed.

Lemma wp_set_status t st h n (s : tgt D) Q :
  Q (inr tt) (World h n (Tgt (<[t := st]> (t_status s)) (t_dev s) (t_trace s))) ->
  wp (set_status t st) (World h n s) Q.
Proof. done. Qed.

Lemma wp_hw_call {A} e (f : D -> D * A) h n (s : tgt D) Q :
  (forall d a, f (t_dev s) = (d, a) -> Q (inr a) (World h n (Tgt (t_status s) d (t_trace s ++ [e])))) ->
  wp (hw_call e f) (World h n s) Q.
Proof.
  intros H. unfold hw_call. apply wp_bind, wp_get_st. destruct (f (t_dev s)) as [d a].
  apply wp_bind, wp_put_st, wp_ret. by apply H.
Qed.

(** ** One target *)

Lemma decided_known t st : decided t st -> st <> PDBG_TARGET_UNKNOWN.
Proof. intros [[-> _]|[-> _]]; done. Qed.

(** Setting the status of an unknown target, after at most one probe of it. *)
Lemma set_decided s t st d ps :
  probe_inv s -> t_status s t = PDBG_TARGET_UNKNOWN -> decided t st -> ps = [] \/ ps = [t] ->
  let s' := Tgt (<[t := st]> (t_status s)) d (t_trace s ++ (EvProbe <$> ps)) in
  probe_inv s' /\ probe_step (rank t) s s' /\ t_status s' t = st.
Proof.
  intros [I1 I2 I3] Hu Hd Hps s'.
  assert (forall x, x <> t -> t_status s' x = t_status s x) as Hne by (intros; cbn; by apply fn_lookup_insert_ne).
  assert (t_status s' t = st) as Ht by (cbn; apply fn_lookup_insert).
  assert (probes (t_trace s') = probes (t_trace s) ++ ps) as Hp.
  { cbn. rewrite probes_app. f_equal. by destruct Hps as [-> | ->]. }
  split; [|split; [|done]].
  - split.
    + intros x. destruct (decide (x = t)) as [->|Hx]; [rewrite Ht; by right|rewrite Hne by done; apply I1].
    + rewrite Hp. apply NoDup_app. split; [done|]. split.
      * intros x Hx Hx'. destruct Hps as [-> | ->]; [by apply elem_of_nil in Hx'|].
        apply list_elem_of_singleton in Hx' as ->. by apply I3 in Hx.
      * destruct Hps as [-> | ->]; [constructor|apply NoDup_singleton].
    + intros x. rewrite Hp. intros Hx. destruct (decide (x = t)) as [->|Hxt].
      * rewrite Ht. by eapply decided_known.
      * rewrite Hne by done. apply I3. apply elem_of_app in Hx as [?|Hx]; [done|].
        destruct Hps as [-> | ->]; [by apply elem_of_nil in Hx|]. by apply list_elem_of_singleton in Hx as ->.
  - split.
    + intros x Hx. apply Hne. by intros ->.
    + intros x Hx. apply Hne. intros ->. lia.
    + exists ps. split; [done|]. destruct Hps as [-> | ->]; repeat constructor.
Qed.

Definition probe_post (t : nat) (s : tgt D) (h : gmap nat (list mval)) (n : nat)
    (r : Z + pdbg_target_status) (w : world (tgt D)) : Prop :=
  exists s', r = inr (t_status s' t) /\ w = World h n s' /\ decided t (t_status s' t) /\
    probe_inv s' /\ probe_step (rank t) s s'.

Lemma post_decided t st h n s d ps :
  probe_inv s -> t_status s t = PDBG_TARGET_UNKNOWN -> decided t st -> ps = [] \/ ps = [t] ->
  probe_post t s h n (inr st)
    (World h n (Tgt (<[t := st]> (t_status s)) d (t_trace s ++ (EvProbe <$> ps)))).
Proof.
  intros I Hu Hd Hps. destruct (set_decided s t st d ps I Hu Hd Hps) as (I' & S' & E').
  eexists. rewrite E'. done.
Qed.

(** The end of [pdbg_target_probe], once the parent is known to be there. *)
Lemma probe_self t h n s :
  probe_inv s -> t_status s t = PDBG_TARGET_UNKNOWN ->
  (forall p, get_parent T t false = Some p -> on_hw T present p) ->
  wp (failed ← call_probe T t;
      if failed : bool then
        status ← pdbg_target_status_of t;
        c_assert (negb (bool_decide (status = PDBG_TARGET_MUSTEXIST)));;
        set_status t PDBG_TARGET_NONEXISTENT;;
        mret PDBG_TARGET_NONEXISTENT
      else
        set_status t PDBG_TARGET_ENABLED;;
        mret PDBG_TARGET_ENABLED) (World h n s) (probe_post t s h n).
Proof.
  intros I Hu Hp. unfold call_probe. destruct (has_probe (node T t)) eqn:Hpr.
  - apply wp_bind, wp_bind, wp_hw_call. intros d1 rc E. apply wp_ret.
    pose proof (Hdet t (t_dev s)) as Hd. rewrite E in Hd. cbn in Hd. rewrite Hd. destruct (present t) eqn:Ep; cbn.
    + apply wp_bind, wp_set_status, wp_ret. apply (post_decided t _ h n s d1 [t]); [done|done| |by right].
      left. split; [done|by constructor].
    + apply wp_bind, wp_status_of. cbn. rewrite Hu.
      apply wp_bind, wp_assert; [done|]. apply wp_bind, wp_set_status, wp_ret.
      apply (post_decided t _ h n s d1 [t]); [done|done| |by right]. right. split; [done|].
      inversion 1 as [? Hx]. specialize (Hx Hpr). congruence.
  - apply wp_bind, wp_ret, wp_bind, wp_set_status, wp_ret. rewrite <- (app_nil_r (t_trace s)).
    apply (post_decided t _ h n s (t_dev s) []); [done|done| |by left].
    left. split; [done|]. constructor; [by rewrite Hpr|done].
Qed.

(** ** The whole line of ancestors *)

Lemma probe_post_known t h n s :
  probe_inv s -> t_status s t <> PDBG_TARGET_UNKNOWN -> probe_post t s h n (inr (t_status s t)) (World h n s).
Proof.
  intros I Hk. exists s. split; [done|]. split; [done|]. split; [|split; [done|apply probe_step_refl]].
  by destruct (inv_status _ I t).
Qed.

Lemma probe_post_trans t h n s s' r w :
  probe_step (rank t) s s' -> probe_post t s' h n r w -> probe_post t s h n r w.
Proof.
  intros S1 (s2 & -> & -> & Hd & I & S2). exists s2. do 4 (split; [done|]).
  eapply probe_step_trans; [exact S1|exact S2|reflexivity|reflexivity].
Qed.

Lemma probe_here_ok fuel t h n s :
  (forall t s, (rank t < fuel)%nat -> probe_inv s ->
     wp (pdbg_target_probe T fuel t) (World h n s) (probe_post t s h n)) ->
  (rank t <= fuel)%nat -> probe_inv s -> t_status s t = PDBG_TARGET_UNKNOWN ->
  (forall p, get_parent T t false = Some p -> on_hw T present p) ->
  wp (probe_here T (pdbg_target_probe T fuel) t) (World h n s) (probe_post t s h n).
Proof.
  intros IH Hf I Hu Hp. unfold probe_here. destruct (target_to_virtual T t true) as [v|] eqn:Ev.
  - apply (rank_virtual _ _ Hrank) in Ev. apply wp_bind, wp_bind. eapply wp_mono; [apply IH; [lia|done]|].
    intros r w' (s' & -> & -> & _ & I' & S'). apply wp_ret. eapply wp_mono.
    + apply probe_self; [done| |done]. by rewrite (step_rank _ _ _ S') by lia.
    + intros r w'. apply probe_post_trans.
      eapply probe_step_trans; [apply probe_step_refl|exact S'|reflexivity|lia].
  - apply wp_bind, wp_ret. by apply probe_self.
Qed.

Lemma probe_ok fuel t h n s :
  (rank t < fuel)%nat -> probe_inv s -> wp (pdbg_target_probe T fuel t) (World h n s) (probe_post t s h n).
Proof.
  revert t s. induction fuel as [|fuel IH]; intros t s Hf I; [lia|]. cbn [pdbg_target_probe].
  apply wp_bind, wp_status_of. cbn beta iota.
  destruct (decide (t_status s t = PDBG_TARGET_UNKNOWN)) as [Hu|Hk].
  2: { apply wp_bind, wp_assert; [by destruct (inv_status _ I t) as [?|[[-> _]|[-> _]]]|].
       destruct (inv_status _ I t) as [?|[[E _]|[E _]]]; [done|..]; rewrite E; apply wp_ret; rewrite <- E;
         by apply probe_post_known. }
  rewrite Hu. apply wp_bind, wp_assert; [done|]. rewrite bool_decide_eq_false_2 by (by rewrite !elem_of_cons, elem_of_nil; intuition).
 
  apply wp_bind. unfold wp at 1. rewrite not_ody_child by done. rewrite Hody. cbn [orb].
  destruct (get_parent T t false) as [p|] eqn:Ep; [|apply probe_here_ok; [done|lia|done|done|congruence]].
  pose proof (rank_parent _ _ Hrank _ _ Ep) as Hr. apply wp_bind. eapply wp_mono; [apply IH; [lia|done]|].
  intros r w' (s' & -> & -> & Hd & I' & S'). apply wp_bind, wp_status_of.
  assert (t_status s' t = PDBG_TARGET_UNKNOWN) as Hu' by (by rewrite (step_rank _ _ _ S') by lia).
  assert (probe_step (rank t) s s') as S''
    by (eapply probe_step_trans; [apply probe_step_refl|exact S'|reflexivity|lia]).
  destruct Hd as [[-> Hp]|[-> Hp]]; eapply wp_mono; try (intros r w'; apply probe_post_trans, S'').
  - apply probe_here_ok; [done|lia|done|done|congruence].
  - apply wp_bind, wp_set_status, wp_ret. rewrite <- (app_nil_r (t_trace s')).
    apply (post_decided t _ h n s' (t_dev s') []); [done|done| |by left].
    right. split; [done|]. inversion 1 as [? _ Hx]. by apply Hp, Hx.
Qed.

(** ** Below a disabled target *)

Lemma probe_unchanged fuel t h n s : t_status s t = PDBG_TARGET_DISABLED ->
  pdbg_target_probe T (S fuel) t (World h n s) = (Ret PDBG_TARGET_DISABLED, World h n s).
Proof. intros Hs. cbn [pdbg_target_probe]. unfold pdbg_target_status_of, get_st, mbind, M_bind, mret, M_ret. cbn. by rewrite Hs. Qed.

(** The parent [p] answers with a status that is not UNKNOWN and changes nothing. *)
Lemma probe_below fuel t p st h n s : (rank t < S fuel)%nat -> get_parent T t false = Some p ->
  t_status s t = PDBG_TARGET_UNKNOWN \/ t_status s t = PDBG_TARGET_MUSTEXIST ->
  pdbg_target_probe T fuel p (World h n s) = (Ret st, World h n s) ->
  pdbg_target_probe T (S fuel) t (World h n s) =
  match t_status s p with
  | PDBG_TARGET_DISABLED => (if bool_decide (t_status s t = PDBG_TARGET_MUSTEXIST) then Crash AssertFailed else Ret (t_status s t), World h n s)
  | PDBG_TARGET_NONEXISTENT => (set_status t PDBG_TARGET_NONEXISTENT;; mret PDBG_TARGET_NONEXISTENT) (World h n s)
  | PDBG_TARGET_ENABLED => probe_here T (pdbg_target_probe T fuel) t (World h n s)
  | _ => (Crash AssertFailed, World h n s)
  end.
Proof.
  intros Hf Hp Ht E. cbn [pdbg_target_probe]. unfold mbind at 1, M_bind at 1, pdbg_target_status_of at 1, get_st at 1, mbind at 1, M_bind at 1, mret at 1, M_ret at 1. cbn [w_st].
  rewrite (bool_decide_eq_false_2 (t_status s t = PDBG_TARGET_RELEASED)) by (by destruct Ht as [-> | ->]).
  unfold mbind at 1, M_bind at 1. cbn [negb c_assert]. rewrite bool_decide_eq_false_2 by (rewrite !elem_of_cons, elem_of_nil; destruct Ht as [-> | ->]; intuition done).
  unfold mret at 1, M_ret at 1. unfold mbind at 1, M_bind at 1. rewrite not_ody_child by done. rewrite Hody, Hp. cbn [orb]. unfold mbind at 1, M_bind at 1. rewrite E.
  unfold mbind at 1, M_bind at 1, pdbg_target_status_of at 1, get_st at 1, mbind at 1, M_bind at 1, mret at 1, M_ret at 1. cbn [w_st].
  destruct (t_status s p); try done. unfold pdbg_target_status_of, get_st, mbind, M_bind, mret, M_ret. cbn. destruct Ht as [Et|Et]; rewrite !Et; reflexivity.
Qed.
End Probe.
