(* ===== verification/TargetRelease.v ===== *)
(** * libpdbg: the children of a target, and walks over the tree below it *)

From stdpp Require Import functions.
From S2P Require Import Prelude CMem Target Pib TargetFacts TargetProbe.

(** ** Iteration over the children *)

(** The links between real and virtual nodes go both ways, and no target is twice
    among the children of another. *)
Record linked (T : dtree) : Prop := Linked {
  link_back t v : vnode (node T t) = Some v ->
    vnode (node T v) = Some t /\ compatible (node T v) = negb (compatible (node T t));
  link_nodup t : NoDup (children (node T t))
}.

(** The targets whose children are those of [t]: its own or, if it has none, those of
    the node it is linked with. *)
Definition child_nodes (T : dtree) (t : nat) : list nat :=
  match children (node T t) with
  | [] => match vnode (node T t) with Some v => children (node T v) | None => [] end
  | cs => cs
  end.

(** The children of [t] in the system tree, each node by the real target it stands for. *)
Definition child_targets (T : dtree) (t : nat) : list nat :=
  omap (fun c => target_map_child T c true) (child_nodes T t).

Section Children.
Context {D : Type} {Hw : Hardware D} (T : dtree) (HL : linked T).

Fixpoint run_all (body : nat -> M (tgt D) unit) (cs : list nat) : M (tgt D) unit :=
  match cs with [] => mret tt | c :: cs' => body c;; run_all body cs' end.

Lemma list_after_app pre c rest : c ∉ pre -> list_after c (pre ++ c :: rest) = Some rest.
Proof.
  induction pre as [|x pre IH]; cbn; [by rewrite Nat.eqb_refl|]. intros H.
  apply not_elem_of_cons in H as [Hx H]. destruct (Nat.eqb_spec x c); [congruence|]. by apply IH.
Qed.

Lemma map_child_back c m : target_map_child T c true = Some m -> target_to_virtual T m false = Some c.
Proof.
  unfold target_map_child, target_to_virtual, target_is_virtual. destruct (vnode (node T c)) as [v|] eqn:E.
  - destruct (compatible (node T c)) eqn:Ec; [done|]. intros [= <-].
    destruct (link_back _ HL _ _ E) as [-> ->]. by rewrite Ec.
  - intros [= <-]. by rewrite E.
Qed.

Lemma first_child_omap cs system :
  match omap (fun c => target_map_child T c system) cs with
  | [] => first_child T cs system = None
  | m :: ms => exists pre c rest, cs = pre ++ c :: rest /\ target_map_child T c system = Some m /\
      ms = omap (fun c => target_map_child T c system) rest /\ first_child T cs system = Some m
  end.
Proof.
  induction cs as [|c cs IH]; [done|]. cbn. destruct (target_map_child T c system) as [m|] eqn:E.
  - by exists [], c, cs.
  - destruct (omap _ cs) as [|m ms]; [done|]. destruct IH as (pre & x & rest & -> & ? & ? & ?).
    by exists (c :: pre), x, rest.
Qed.

(** The parent whose children are walked. *)
Lemma next_child_eq t last w :
  pdbg_next_child_target T t last true w =
  match last with
  | None => (Ret (first_child T (child_nodes T t) true), w : world (tgt D))
  | Some l =>
      match children (node T t), vnode (node T t) with
      | [], None => (Ret None, w)
      | _, _ =>
          match list_after (default l (target_to_virtual T l false)) (child_nodes T t) with
          | None => (Crash OutOfBounds, w)
          | Some rest => (Ret (first_child T rest true), w)
          end
      end
  end.
Proof.
  unfold pdbg_next_child_target, child_nodes. destruct (children (node T t)) as [|c cs] eqn:Ec.
  - destruct (vnode (node T t)) as [v|]; destruct last; try done. by destruct (list_after _ _).
  - rewrite Ec. destruct last; [|done]. by destruct (list_after _ _).
Qed.

Lemma child_nodes_nodup t : NoDup (child_nodes T t).
Proof.
  unfold child_nodes. pose proof (link_nodup _ HL t) as H. destruct (children (node T t)); [|done].
  destruct (vnode (node T t)); [apply HL|constructor].
Qed.

Lemma for_each_child_suffix fuel t body rest pre w :
  child_nodes T t = pre ++ rest -> (length (omap (fun c => target_map_child T c true) rest) < fuel)%nat ->
  for_each_child_from T fuel t (first_child T rest true) body w =
  run_all body (omap (fun c => target_map_child T c true) rest) w.
Proof.
  revert rest pre w. induction fuel as [|fuel IH]; intros rest pre w E Hf; [lia|].
  pose proof (first_child_omap rest true) as H. revert H Hf.
  destruct (omap _ rest) as [|m ms]; intros H Hf; [by rewrite H|].
  destruct H as (pre' & c & rest' & -> & Hm & -> & ->). cbn [for_each_child_from run_all].
  unfold mbind, M_bind. destruct (body m w) as [[[]| |] w1]; [|done..].
  rewrite next_child_eq, (map_child_back _ _ Hm). cbn [default from_option id].
  rewrite E, app_assoc, list_after_app.
  - destruct (children (node T t)) eqn:Ec;
      [|apply (IH _ ((pre ++ pre') ++ [c])); [by rewrite E, <- !app_assoc|cbn [length] in Hf; lia]].
    unfold child_nodes in E. rewrite Ec in E. destruct (vnode (node T t)) as [v|] eqn:Ev.
    + apply (IH _ ((pre ++ pre') ++ [c])); [|cbn [length] in Hf; lia]. unfold child_nodes.
      by rewrite Ec, Ev, E, <- !app_assoc.
    + by destruct pre, pre'.
  - pose proof (child_nodes_nodup t) as Hn. rewrite E, app_assoc in Hn. apply NoDup_app in Hn as (_ & Hn & _).
    intros Hin. eapply Hn; [exact Hin|]. left.
Qed.

Lemma for_each_child_ok fuel t body w :
  (length (child_targets T t) < fuel)%nat -> for_each_child T fuel t body w = run_all body (child_targets T t) w.
Proof.
  intros Hf. unfold for_each_child, mbind, M_bind. rewrite next_child_eq.
  by apply (for_each_child_suffix _ _ _ _ []).
Qed.
End Children.

Lemma wp_same {S A} (m m' : M S A) w Q : m w = m' w -> wp m' w Q -> wp m w Q.
Proof. unfold wp. by intros ->. Qed.

(** ** libpdbg: the targets of a class

    [pdbg_next_target] goes through the targets of a class below a target, in the order of the
    list of the class. *)

Section Class.
Context {D : Type} (T : dtree) (fuel : nat).
Implicit Types (w : world (tgt D)).

(** ** The targets of a class below a target *)

(** The ancestors of the targets, each with itself. *)
Context (line : nat -> list nat).

Definition under (parent : option nat) (t : nat) : Prop := match parent with None => True | Some p => p ∈ line t end.
#[export] Instance under_dec parent t : Decision (under parent t).
Proof. unfold under. destruct parent; apply _. Defined.

(** The lines of the targets of a class fit into the fuel. *)
Definition lined (ts : list nat) : Prop := Forall (fun t => ancestry T true t (line t) /\ (length (line t) < fuel)%nat) ts.

Lemma is_below_ok n t l p w : ancestry T true t l -> (length l < n)%nat ->
  is_below (D := D) T n t p true w = (Ret (bool_decide (p ∈ l)), w).
Proof.
  intros H. revert n. induction H as [t E|t q l E H IH]; intros [|n] Hn; cbn in Hn; try lia; cbn [is_below]; rewrite E.
  - rewrite (bool_decide_ext _ (t = p)) by (rewrite list_elem_of_singleton; split; congruence).
    destruct (Nat.eqb_spec t p); [by rewrite bool_decide_eq_true_2|by rewrite bool_decide_eq_false_2].
  - destruct (Nat.eqb_spec t p) as [->|Hne]; [by rewrite bool_decide_eq_true_2 by (left)|]. rewrite IH by lia.
    f_equal. f_equal. apply bool_decide_ext. rewrite elem_of_cons. intuition congruence.
Qed.

Lemma next_below_ok ts parent w : lined ts ->
  next_below (D := D) T fuel ts parent true w = (Ret (head (filter (under parent) ts)), w).
Proof.
  intros H. induction H as [|t ts [Ha Hl] H IH]; [done|]. cbn [next_below]. destruct parent as [p|]; [|by rewrite filter_cons_True].
  unfold mbind, M_bind. rewrite (is_below_ok fuel t (line t)) by done.
  destruct (decide (p ∈ line t)) as [Hin|Hin].
  - rewrite bool_decide_eq_true_2 by done. by rewrite filter_cons_True.
  - rewrite bool_decide_eq_false_2 by done. rewrite filter_cons_False by done. apply IH.
Qed.

Definition targets (klass : string) (parent : option nat) : list nat := filter (under parent) (default [] (target_classes T klass)).

Context (klass : string) (parent : option nat) (cs : list nat) (Hcs : target_classes T klass = Some cs).
Context (Hnd : NoDup cs) (Hlined : lined cs).

Lemma next_target_ok pre t suf w : cs = pre ++ t :: suf ->
  pdbg_next_target (D := D) T fuel klass parent (Some t) true w = (Ret (head (filter (under parent) suf)), w).
Proof.
  intros E. unfold pdbg_next_target, find_target_class. rewrite Hcs, E. pose proof Hnd as H. rewrite E in H.
  rewrite list_after_app by (apply NoDup_app in H as (_ & H & _); intros Hin; apply (H t Hin); left).
  apply next_below_ok. unfold lined in *. rewrite E in Hlined. by apply Forall_app in Hlined as [_ [_ Hl]%Forall_cons].
Qed.

Lemma first_target_ok w :
  pdbg_next_target (D := D) T fuel klass parent None true w = (Ret (head (targets klass parent)), w).
Proof. unfold pdbg_next_target, find_target_class, targets. rewrite Hcs. by apply next_below_ok. Qed.
End Class.

Section Each.
Context {D : Type} {Hw : Hardware D} (T : dtree) (fuel : nat).

(** The threads of a core, in the order of the class. *)
Inductive core_threads (core : nat) : list nat -> Prop :=
| core_threads_intro line cs :
    target_classes T "thread" = Some cs -> NoDup cs -> lined T fuel line cs -> (length cs < fuel)%nat ->
    core_threads core (targets T line "thread" (Some core)).

Section EachThread.
Context (klass : string) (core : nat) (line : nat -> list nat) (cs : list nat) (Hcs : target_classes T klass = Some cs).
Context (Hnd : NoDup cs) (Hl : lined T fuel line cs) (body : nat -> M (tgt D) unit).

Lemma each_target_ok k pre suf w : cs = pre ++ suf -> (length suf < k)%nat ->
  each_target T fuel k klass core (head (filter (under line (Some core)) suf)) body w =
  run_all body (filter (under line (Some core)) suf) w.
Proof.
  revert pre suf w. induction k as [|k IH]; intros pre suf w Ec Hk; [lia|].
  revert pre Ec Hk. induction suf as [|t suf IHs]; intros pre Ec Hk; [done|].
  assert (cs = (pre ++ [t]) ++ suf) as Ec' by (by rewrite <- app_assoc). cbn [length] in Hk.
  destruct (decide (under line (Some core) t)) as [Hb|Hb]; [|rewrite filter_cons_False by done; apply (IHs (pre ++ [t]) Ec'); lia].
  rewrite filter_cons_True by done. cbn [head each_target run_all]. unfold mbind, M_bind.
  destruct (body t w) as [[u|rc|c] w']; [|done..].
  rewrite (next_target_ok T fuel line klass (Some core) cs Hcs Hnd Hl pre t suf w' Ec). apply (IH (pre ++ [t])); [done|lia].
Qed.
End EachThread.

Lemma for_each_thread core ts body (w : world (tgt D)) : core_threads core ts ->
  for_each_target T fuel "thread" core body w = run_all body ts w.
Proof.
  intros [line cs Hcs Hnd Hl Hf]. unfold for_each_target, mbind, M_bind.
  rewrite (first_target_ok T fuel line "thread" (Some core) cs) by done. unfold targets. rewrite Hcs.
  by apply (each_target_ok "thread" core line cs Hcs Hnd Hl body fuel []).
Qed.
End Each.

(** ** Releasing *)

Section Release.
Context {D : Type} {Hw : Hardware D} (T : dtree) (HL : linked T).
(** Nothing is below itself, and [fuel] exceeds the height of the tree and the number
    of children of any target. *)
Context (height : nat -> nat) (Hheight : forall t c, c ∈ child_targets T t -> (height c < height t)%nat).

(** [x] is reached from [t] going down over enabled targets. *)
Inductive reach (st : nat -> pdbg_target_status) : nat -> nat -> Prop :=
| reach_here t : st t = PDBG_TARGET_ENABLED -> reach st t t
| reach_down t c x : st t = PDBG_TARGET_ENABLED -> c ∈ child_targets T t -> reach st c x -> reach st t x.

Definition reach_any (st : nat -> pdbg_target_status) (cs : list nat) (x : nat) : Prop :=
  exists c, c ∈ cs /\ reach st c x.

Lemma reach_enabled st t x : reach st t x -> st t = PDBG_TARGET_ENABLED /\ st x = PDBG_TARGET_ENABLED.
Proof. induction 1 as [|t c x ? ? ? [? ?]]; done. Qed.

Lemma reach_trans st t x y : reach st t x -> reach st x y -> reach st t y.
Proof. induction 1; [done|]. intros. eapply reach_down; eauto. Qed.

Lemma reach_height st t x : reach st t x -> (height x <= height t)%nat.
Proof. induction 1 as [|t c x Ht Hc H IH]; [done|]. apply Hheight in Hc. lia. Qed.

(** The outcome of releasing the targets that satisfy [P]: exactly these change, each
    one that has a release operation is released once, and none after its parent. *)
Record release_step (P : nat -> Prop) (s s' : tgt D) (rs : list nat) : Prop := ReleaseStep {
  rel_status x : (P x /\ t_status s' x = PDBG_TARGET_RELEASED) \/ (~ P x /\ t_status s' x = t_status s x);
  rel_trace : t_trace s' = t_trace s ++ (EvRelease <$> rs);
  rel_nodup : NoDup rs;
  rel_calls x : x ∈ rs <-> P x /\ has_release (on_release (node T x)) = true;
  rel_order l1 x l2 : rs = l1 ++ x :: l2 -> forall c, c ∈ child_targets T x -> c ∉ l2
}.

(** Releasing what is reached from [c] leaves of what was reached from other targets
    what is not below [c]. *)
Lemma reach_after st st' c t x :
  (forall x, (reach st c x /\ st' x = PDBG_TARGET_RELEASED) \/ (~ reach st c x /\ st' x = st x)) ->
  reach st' t x <-> reach st t x /\ ~ reach st c x.
Proof.
  intros H. split.
  - induction 1 as [t E|t d x E Hd H1 [IH1 IH2]].
    + destruct (H t) as [[_ ?]|[? E']]; [congruence|]. split; [constructor; congruence|done].
    + destruct (H t) as [[_ ?]|[? E']]; [congruence|]. split; [|done]. eapply reach_down; [congruence|done..].
  - intros [H1 H2]. induction H1 as [t E|t d x E Hd H1 IH].
    + destruct (H t) as [[? _]|[_ E']]; [done|]. constructor. congruence.
    + destruct (H t) as [[Ht _]|[_ E']]; [|eapply reach_down; [congruence|done|by apply IH]].
      destruct H2. eapply reach_trans; [exact Ht|]. by eapply reach_down.
Qed.

(** A target of the first batch has no child in the second. *)
Lemma release_step_seq (P Q : nat -> Prop) s s1 s2 rs1 rs2 :
  release_step P s s1 rs1 -> release_step Q s1 s2 rs2 -> (forall x, Q x -> ~ P x) ->
  (forall x c, P x -> c ∈ child_targets T x -> ~ Q c) ->
  release_step (fun x => P x \/ Q x) s s2 (rs1 ++ rs2).
Proof.
  intros [A1 B1 C1 E1 F1] [A2 B2 C2 E2 F2] Hd Hc. split.
  - intros x. destruct (A2 x) as [[? ?]|[? Ex]]; [by left; split; [right|]|].
    destruct (A1 x) as [[? ?]|[? ?]]; [left|right]; (split; [tauto|congruence]).
  - by rewrite B2, B1, fmap_app, app_assoc.
  - apply NoDup_app. split; [done|]. split; [|done]. intros x H1 H2.
    apply E1 in H1 as [H1 _]. apply E2 in H2 as [H2 _]. by eapply Hd.
  - intros x. rewrite elem_of_app, E1, E2. tauto.
  - intros l1 x l2 E c Hx Hin. apply app_eq_app in E as (l & [[-> E]|[-> E]]).
    + destruct l as [|y l]; cbn in E.
      * by eapply (F2 [] x l2).
      * injection E as <- ->. apply elem_of_app in Hin as [Hin|Hin]; [by eapply (F1 l1 x l)|].
        apply E2 in Hin as [Hin _]. eapply Hc; [|done|done]. apply E1.
        rewrite elem_of_app. right. left.
    + by eapply (F2 l x l2).
Qed.

Lemma release_step_ext (P Q : nat -> Prop) s s' rs :
  (forall x, P x <-> Q x) -> release_step P s s' rs -> release_step Q s s' rs.
Proof.
  intros E [A B C F G]. split; [|done|done| |done].
  - intros x. rewrite <- E. apply A.
  - intros x. rewrite <- E. apply F.
Qed.

Lemma release_step_none (P : nat -> Prop) s : (forall x, ~ P x) -> release_step P s s [].
Proof.
  intros H. split; [intros x; right; by split|by rewrite app_nil_r|constructor| |by intros [|] ? ?].
  intros x. rewrite elem_of_nil. split; [done|]. intros [? _]. by eapply H.
Qed.

Definition release_post (P : nat -> Prop) (s : tgt D) (h : gmap nat (list mval)) (n : nat)
    (r : Z + unit) (w : world (tgt D)) : Prop :=
  exists s' rs, r = inr tt /\ w = World h n s' /\ release_step P s s' rs.

(** *** The release operation of a core *)

(** A target that the release operation of a core passes by *)
Definition closed (x : pdbg_target_status) : Prop := x = PDBG_TARGET_DISABLED \/ x = PDBG_TARGET_NONEXISTENT \/ x = PDBG_TARGET_RELEASED.

(** The threads below a core are known: they are there and right below it, or they are not available. *)
Definition threads_known (st : nat -> pdbg_target_status) (depth c : nat) : Prop := on_release (node T c) = ReleaseCore ->
  exists us, core_threads T depth c us /\ forall u, u ∈ us -> closed (st u) \/ st u = PDBG_TARGET_ENABLED /\ u ∈ child_targets T c.

Lemma core_threads_more f f' c us : (f <= f')%nat -> core_threads T f c us -> core_threads T f' c us.
Proof.
  intros Hf [line cs Hcs Hnd Hl Hlen]. econstructor; [done|done| |lia]. eapply Forall_impl; [exact Hl|]. intros u [? ?]. split; [done|lia].
Qed.

Lemma settle_closed fuel (release : nat -> M (tgt D) unit) u h n (s : tgt D) : closed (t_status s u) ->
  settle_with (pdbg_target_probe T (S fuel)) release u (World h n s) = (Ret tt, World h n s).
Proof.
  intros Hc. assert (forall x, t_status s u = x -> settle_with (pdbg_target_probe T (S fuel)) release u (World h n s) =
    (if bool_decide (x = PDBG_TARGET_RELEASED) then mret tt else
     status ← pdbg_target_probe T (S fuel) u; if negb (bool_decide (status = PDBG_TARGET_ENABLED)) then mret tt else release u) (World h n s)) as E.
  { by intros x <-. }
  destruct Hc as [Hc|[Hc|Hc]]; rewrite (E _ Hc); [..|done]; rewrite bool_decide_eq_false_2 by done;
    cbn [pdbg_target_probe]; unfold pdbg_target_status_of, get_st, mbind, M_bind, mret, M_ret; cbn; rewrite Hc; reflexivity.
Qed.
Lemma settle_all fuel release us h n (s : tgt D) : (forall u, u ∈ us -> closed (t_status s u)) ->
  run_all (settle_with (pdbg_target_probe T (S fuel)) release) us (World h n s) = (Ret tt, World h n s).
Proof.
  induction us as [|u us IH]; intros H; [done|]. cbn [run_all]. unfold mbind, M_bind. rewrite settle_closed by (apply H; left). apply IH. intros v Hv. apply H. by right.
Qed.

(** The end of [pdbg_target_release]. *)
Lemma release_self fuel release t h n s :
  (on_release (node T t) = ReleaseCore -> exists us, core_threads T (S fuel) t us /\ forall u, u ∈ us -> closed (t_status s u)) ->
  wp (call_release T (S fuel) (pdbg_target_probe T (S fuel)) release t;; set_status t PDBG_TARGET_RELEASED) (World h n s) (release_post (eq t) s h n).
Proof.
  intros Hcore.
  assert (forall d, release_step (eq t) s
    (Tgt (<[t := PDBG_TARGET_RELEASED]> (t_status s)) d
       (t_trace s ++ (EvRelease <$> (if has_release (on_release (node T t)) then [t] else []))))
    (if has_release (on_release (node T t)) then [t] else [])) as R.
  { intros d. split; cbn.
    - intros x. destruct (decide (t = x)) as [<-|Hx].
      + left. split; [done|]. apply fn_lookup_insert.
      + right. split; [done|]. by apply fn_lookup_insert_ne.
    - done.
    - destruct (has_release _); [apply NoDup_singleton|constructor].
    - intros x. destruct (has_release (on_release (node T t))) eqn:E.
      + rewrite list_elem_of_singleton. split; [by intros ->|]. by intros [-> _].
      + rewrite elem_of_nil. split; [done|]. intros [<- ?]. congruence.
    - intros l1 x l2 E c _. destruct (has_release _); [|by destruct l1].
      destruct l1 as [|? []]; [|done..]. injection E as _ <-. apply not_elem_of_nil. }
  unfold call_release. apply wp_bind. destruct (on_release (node T t)) eqn:Eo.
  - apply wp_ret, wp_set_status. eexists _, []. split; [done|]. split; [done|].
    specialize (R (t_dev s)). cbn in R. by rewrite app_nil_r in R.
  - apply wp_hw_call. intros d [] E. apply wp_set_status. eexists _, [t]. split; [done|]. split; [done|]. apply R.
  - destruct (Hcore eq_refl) as (us & Hus & Hclosed). apply wp_bind. eapply wp_same; [by apply for_each_thread|].
    unfold wp at 1. rewrite settle_all by done.
    apply wp_hw_call. intros d [] E. apply wp_set_status. eexists _, [t]. split; [done|]. split; [done|]. apply R.
Qed.

(** Releasing keeps it so that the threads of the cores that are left are known. *)
Lemma known_after (P : nat -> Prop) s s' rs depth c : release_step P s s' rs ->
  threads_known (t_status s) depth c -> threads_known (t_status s') depth c.
Proof.
  intros R H Hc. destruct (H Hc) as (us & Hus & Hu). exists us. split; [done|]. intros u Hin.
  destruct (rel_status _ _ _ _ R u) as [[_ ->]|[_ ->]]; [by left; right; right|by apply Hu].
Qed.

Lemma release_all_ok fuel depth cs h n s :
  (forall c, reach_any (t_status s) cs c -> threads_known (t_status s) depth c) ->
  (forall c s, c ∈ cs -> (forall x, reach (t_status s) c x -> threads_known (t_status s) depth x) ->
     wp (pdbg_target_release T fuel c) (World h n s) (release_post (reach (t_status s) c) s h n)) ->
  wp (run_all (pdbg_target_release T fuel) cs) (World h n s) (release_post (reach_any (t_status s) cs) s h n).
Proof.
  revert s. induction cs as [|c cs IH]; intros s Hk H; cbn [run_all].
  - apply wp_ret. exists s, []. split; [done|]. split; [done|]. apply release_step_none.
    by intros x (? & ?%elem_of_nil & _).
  - apply wp_bind. eapply wp_mono; [apply H; [left|intros x Hx; apply Hk; exists c; split; [left|done]]|]. intros r w' (s1 & rs1 & -> & -> & R1).
    assert (forall x, reach_any (t_status s1) cs x <-> reach_any (t_status s) cs x /\ ~ reach (t_status s) c x) as RA.
    { intros x. unfold reach_any. split.
      - intros (d & Hd & Hr). eapply reach_after in Hr as [? ?]; [|apply R1]. eauto.
      - intros [(d & Hd & Hr) Hn]. exists d. split; [done|]. eapply reach_after; [apply R1|done]. }
    eapply wp_mono; [apply IH; [|intros; apply H; [by right|done]]|].
    { intros x [(d & Hd & Hr) _]%RA. eapply known_after; [exact R1|]. apply Hk. exists d. split; [by right|done]. }
    intros r w' (s2 & rs2 & -> & -> & R2). exists s2, (rs1 ++ rs2). split; [done|]. split; [done|].
    eapply release_step_ext; [|eapply release_step_seq; [exact R1|exact R2|..]].
    + intros x. cbn. rewrite RA. split.
      * intros [?|[(d & ? & ?) _]]; [exists c; split; [left|done]|exists d; split; [by right|done]].
      * intros (d & [->|Hd]%elem_of_cons & Hr); [by left|].
        destruct (rel_status _ _ _ _ R1 x) as [[? _]|[? _]]; [by left|right]. split; [by exists d|done].
    + intros x [_ Hx]%RA. done.
    + intros x d Hx Hd [(e & _ & He) Hn]%RA. apply Hn. eapply reach_trans; [exact Hx|].
      eapply reach_down; [apply (reach_enabled _ _ _ Hx)|exact Hd|]. constructor. apply (reach_enabled _ _ _ He).
Qed.

Lemma release_ok width depth fuel t h n s :
  (forall t, (length (child_targets T t) <= width)%nat) -> (height t + width + depth < fuel)%nat ->
  (forall c, reach (t_status s) t c -> threads_known (t_status s) depth c) ->
  wp (pdbg_target_release T fuel t) (World h n s) (release_post (reach (t_status s) t) s h n).
Proof.
  intros Hwd. revert t s. induction fuel as [|fuel IH]; intros t s Hf Hk; [lia|]. cbn [pdbg_target_release].
  apply wp_bind, wp_status_of. cbn beta iota. case_bool_decide as E; cbn [negb].
  2: { apply wp_ret. exists s, []. split; [done|]. split; [done|]. apply release_step_none.
       intros x Hx%reach_enabled. by destruct Hx. }
  apply wp_bind. eapply wp_same; [apply for_each_child_ok; [done|specialize (Hwd t); lia]|].
  eapply wp_mono; [apply (release_all_ok fuel depth)|].
  { intros c (d & Hd & Hr). apply Hk. by eapply reach_down. }
  { intros c s' Hc Hkc. apply IH; [apply Hheight in Hc; lia|done]. }
  intros r w' (s1 & rs1 & -> & -> & R1). eapply wp_mono; [apply release_self|].
  { intros Hc. destruct (known_after _ _ _ _ _ _ R1 (Hk t (reach_here _ t E)) Hc) as (us & Hus & Hu). exists us.
    split; [eapply core_threads_more; [|exact Hus]; lia|]. intros u Hin. destruct (Hu u Hin) as [?|[Hon Hch]]; [done|].
    destruct (rel_status _ _ _ _ R1 u) as [[_ Hr]|[Hn Hs]]; [by right; right|]. exfalso. apply Hn. exists u. split; [done|].
    constructor. congruence. }
  intros r w' (s2 & rs2 & -> & -> & R2). exists s2, (rs1 ++ rs2). split; [done|]. split; [done|].
  assert (forall x, reach_any (t_status s) (child_targets T t) x -> (height x < height t)%nat) as Hlt.
  { intros x (c & Hc & Hr%reach_height). apply Hheight in Hc. lia. }
  eapply release_step_ext; [|eapply release_step_seq; [exact R1|exact R2|..]].
  - intros x. cbn. split.
    + intros [(c & Hc & Hr)|<-]; [by eapply reach_down|by constructor].
    + inversion 1; subst; [by right|left; by eexists].
  - intros x <- Hx%Hlt. lia.
  - intros x c Hx%Hlt Hc <-. apply Hheight in Hc. lia.
Qed.
End Release.

(** ** Probing everything *)

Section ProbeAll.
Context {D : Type} {Hw : Hardware D} (T : dtree) (HL : linked T).
Context (height : nat -> nat) (Hheight : forall t c, c ∈ child_targets T t -> (height c < height t)%nat).
Context (rank : nat -> nat) (present : nat -> bool) (Hrank : ranked T rank) (Hody : no_ody T).
Context (Hdet : forall t (d : D), truthy (hw_probe t d).2 = negb (present t)).
Context (width top : nat) (Hwidth : forall t, (length (child_targets T t) <= width)%nat).
Context (Htop : forall t, (rank t <= top)%nat).

Inductive below : nat -> nat -> Prop :=
| below_child t c : c ∈ child_targets T t -> below t c
| below_down t c x : c ∈ child_targets T t -> below c x -> below t x.

Definition known (s : tgt D) (x : nat) : Prop := t_status s x <> PDBG_TARGET_UNKNOWN.

Definition all_post (P : nat -> Prop) (s : tgt D) (h : gmap nat (list mval)) (n : nat)
    (r : Z + unit) (w : world (tgt D)) : Prop :=
  exists s', r = inr tt /\ w = World h n s' /\ probe_inv T present s' /\
    (forall x, known s x -> t_status s' x = t_status s x) /\ (forall x, P x -> known s' x).

Lemma kept_known s s' x : (forall x, known s x -> t_status s' x = t_status s x) -> known s x -> known s' x.
Proof. unfold known. intros H Hx. by rewrite H. Qed.

Lemma run_all_known body cs (P : nat -> nat -> Prop) h n s :
  (forall c s, c ∈ cs -> probe_inv T present s -> wp (body c) (World h n s) (all_post (P c) s h n)) ->
  probe_inv T present s ->
  wp (run_all body cs) (World h n s) (all_post (fun x => exists c, c ∈ cs /\ P c x) s h n).
Proof.
  revert s. induction cs as [|c cs IH]; intros s H I; cbn [run_all].
  - apply wp_ret. exists s. repeat (split; [done|]). by intros x (? & ?%elem_of_nil & _).
  - apply wp_bind. eapply wp_mono; [apply H; [left|done]|]. intros r w' (s1 & -> & -> & I1 & K1 & P1).
    eapply wp_mono; [apply IH; [intros; apply H; [by right|done]|done]|]. intros r w' (s2 & -> & -> & I2 & K2 & P2).
    exists s2. do 3 (split; [done|]). split.
    + intros x Hx. rewrite K2; [by apply K1|by eapply kept_known].
    + intros x (d & [->|Hd]%elem_of_cons & Hx); [eapply kept_known; [exact K2|by apply P1]|apply P2; eauto].
Qed.

Lemma probe_all_ok fuel t h n s :
  (height t + width + top < fuel)%nat -> probe_inv T present s ->
  wp (pdbg_target_probe_all T fuel (Some t)) (World h n s) (all_post (below t) s h n).
Proof.
  revert t s. induction fuel as [|fuel IH]; intros t s Hf I; [lia|]. cbn [pdbg_target_probe_all default from_option id].
  eapply wp_same; [apply for_each_child_ok; [done|specialize (Hwidth t); lia]|].
  eapply wp_mono; [apply (run_all_known _ _ (fun c x => x = c \/ below c x)); [|done]|].
  - intros c s1 Hc I1. apply wp_bind. eapply wp_mono; [apply IH; [apply Hheight in Hc; lia|done]|].
    intros r w' (s2 & -> & -> & I2 & K2 & P2). apply wp_bind.
    eapply wp_mono; [eapply (probe_ok T rank present); [done|done|done|specialize (Htop c); lia|done]|].
    intros r w' (s3 & -> & -> & Hd & I3 & S3). apply wp_ret. exists s3. do 3 (split; [done|]).
    assert (forall x, known s2 x -> t_status s3 x = t_status s2 x) as K3 by apply S3. split.
    + intros x Hx. rewrite K3; [by apply K2|by eapply kept_known].
    + intros x [->|Hx]; [by eapply decided_known|]. eapply kept_known; [exact K3|by apply P2].
  - intros r w' (s' & -> & -> & I' & K' & P'). exists s'. do 4 (split; [done|]).
    intros x Hx. apply P'. destruct Hx as [t c Hc|t c x Hc Hx]; eauto.
Qed.
End ProbeAll.
