(* ===== verification/Device.v ===== *)
(** * libpdbg: the properties and attributes of a target

    Models the property access of libpdbg/device.c. The device tree blobs are
    libfdt's: all that is used of them is that [fdt_getprop] finds the bytes of a
    property and [fdt_setprop_inplace] overwrites them, so the state is a map from a
    target and a property name to bytes. The values of an attribute, an array or a packed
    structure of the caller, are given by the numbers in it. *)

From S2P Require Import Prelude CMem Target.
From Stdlib Require Import Ascii.

Abbreviation props := (gmap (nat * string) (list Z)).

Section Device.
Context {Al : Allocator} (T : dtree).
(** [fdt_offset != -1], [fdt != NULL] and [pdbg_fdt_is_readonly(fdt)] *)
Context (has_offset has_fdt readonly : nat -> bool).

(** ** Properties *)

Definition _target_property (ps : props) (t : nat) (name : string) : option (list Z) :=
  if has_offset t then ps !! (t, name) else None.

Definition pdbg_target_property (ps : props) (t : nat) (name : string) : option (list Z) :=
  match _target_property ps t name with
  | Some p => Some p
  | None =>
      match vnode (node T t) with
      | Some v => _target_property ps v name
      | None => None
      end
  end.

(** [None] is an error: no such property ([-FDT_ERR_NOTFOUND]), or another length
    ([-FDT_ERR_NOSPACE]). *)
Definition fdt_setprop_inplace (ps : props) (t : nat) (name : string) (val : list Z) : option props :=
  propval ← ps !! (t, name);
  if negb (length propval =? length val)%nat then None else Some (<[(t, name) := val]> ps).

(** The target whose property is set, and the length of the property. *)
Definition property_owner (ps : props) (t : nat) (name : string) : option (nat * list Z) :=
  match _target_property ps t name with
  | Some p => Some (t, p)
  | None =>
      match vnode (node T t) with
      | Some v => p ← _target_property ps v name; Some (v, p)
      | None => None
      end
  end.

Definition pdbg_target_set_property (t : nat) (name : string) (val : ptr) (size : Z) : M props bool :=
  ps ← get_st;
  match property_owner ps t name with
  | None => mret false
  | Some (o, p) =>
      if negb (has_fdt o) || readonly o then mret false else
      if negb (Z.of_nat (length p) =? size) then mret false else
      bs ← load_bytes val size;
      l ← defined bs;
      match fdt_setprop_inplace ps o name l with
      | Some ps' => put_st ps';; mret true
      | None => mret false
      end
  end.

(** ** Attributes: arrays *)

(** [b[i] = htobeN(v[i]);] for the elements from [i] on, [n] of them *)
Fixpoint put_elems (width : nat) (buf : ptr) (i : Z) (n : nat) (val : list Z) : M props unit :=
  match n with
  | O => mret tt
  | S n' =>
      v ← array_get val i;
      store_bytes (ptr_add buf (i * Z.of_nat width)) (Some <$> be_bytes width v);;
      put_elems width buf (i + 1) n' val
  end.

Definition pdbg_target_set_attribute (t : nat) (name : string) (size count : Z) (val : list Z)
  : M props bool :=
  let total_size := u32 (count * size) in
  buf ← malloc total_size;
  if is_null buf then mret false else
  let finish :=
    ok ← pdbg_target_set_property t name buf total_size;
    free buf;;
    mret ok in
  if size =? 1 then copy_in buf (Some <$> val) total_size;; finish
  else if size =? 2 then put_elems 2 buf 0 (Z.to_nat count) val;; finish
  else if size =? 4 then put_elems 4 buf 0 (Z.to_nat count) val;; finish
  else if size =? 8 then put_elems 8 buf 0 (Z.to_nat count) val;; finish
  else free buf;; mret false.

(** [*(uintN_t * )(buf + pos)] for a property, given by its bytes *)
Definition prop_read (width : nat) (buf : list Z) (pos : nat) : M props Z :=
  if (pos + width <=? length buf)%nat then mret (be_val (take width (drop pos buf))) else crash OutOfBounds.

(** [v[i] = beNtoh(b[i])] for the elements from [i] on, [n] of them: the values read *)
Fixpoint get_elems (width : nat) (buf : list Z) (i n : nat) : M props (list Z) :=
  match n with
  | O => mret []
  | S n' =>
      v ← prop_read width buf (i * width);
      vs ← get_elems width buf (S i) n';
      mret (v :: vs)
  end.

(** [None] is the result [false]. *)
Definition pdbg_target_get_attribute (t : nat) (name : string) (size count : Z) : M props (option (list Z)) :=
  ps ← get_st;
  match pdbg_target_property ps t name with
  | None => mret None
  | Some buf =>
      let total_size := Z.of_nat (length buf) in
      if negb (total_size =? u32 (count * size)) then mret None else
      if size =? 1 then mret (Some buf)
      else if size =? 2 then vs ← get_elems 2 buf 0 (Z.to_nat count); mret (Some vs)
      else if size =? 4 then vs ← get_elems 4 buf 0 (Z.to_nat count); mret (Some vs)
      else if size =? 8 then vs ← get_elems 8 buf 0 (Z.to_nat count); mret (Some vs)
      else mret None
  end.

(** ** Attributes: packed structures *)

Definition spec_width (ch : ascii) : option nat :=
  if bool_decide (ch = "1"%char) then Some 1%nat
  else if bool_decide (ch = "2"%char) then Some 2%nat
  else if bool_decide (ch = "4"%char) then Some 4%nat
  else if bool_decide (ch = "8"%char) then Some 8%nat
  else None.

(** [return -1] from a function that returns [size_t] *)
Fixpoint spec_size_from (spec : string) (size : Z) : Z :=
  match spec with
  | EmptyString => size
  | String ch spec' =>
      match spec_width ch with
      | Some k => spec_size_from spec' (u64 (size + Z.of_nat k))
      | None => u64 (-1)
      end
  end.

Definition spec_size (spec : string) : Z := spec_size_from spec 0.

(** The inner loop over the characters of [spec]: the position after it and the values
    not yet stored; [None] for a character that is no width. *)
Fixpoint put_spec (spec : string) (buf : ptr) (pos : Z) (val : list Z) : M props (option (Z * list Z)) :=
  match spec with
  | EmptyString => mret (Some (pos, val))
  | String ch spec' =>
      match spec_width ch with
      | Some k =>
          v ← array_get val 0;
          store_bytes (ptr_add buf pos) (Some <$> be_bytes k v);;
          put_spec spec' buf (pos + Z.of_nat k) (tail val)
      | None => mret None
      end
  end.

Fixpoint put_packed (count : nat) (spec : string) (buf : ptr) (pos : Z) (val : list Z) : M props bool :=
  match count with
  | O => mret true
  | S count' =>
      r ← put_spec spec buf pos val;
      match r with
      | Some (pos, val) => put_packed count' spec buf pos val
      | None => mret false
      end
  end.

Definition pdbg_target_set_attribute_packed (t : nat) (name : string) (spec : string) (count : Z)
    (val : list Z) : M props bool :=
  if bool_decide (spec = EmptyString) then mret false else
  if count =? 0 then mret false else
  let size := spec_size spec in
  if size <=? 0 then mret false else
  let size := u64 (size * count) in
  buf ← malloc size;
  if is_null buf then mret false else
  good ← put_packed (Z.to_nat count) spec buf 0 val;
  if good : bool then
    ok ← pdbg_target_set_property t name buf size;
    free buf;;
    mret ok
  else free buf;; mret false.

(** The inner loop: the values read and the position after it. Other characters are skipped. *)
Fixpoint get_spec (spec : string) (buf : list Z) (pos : nat) : M props (list Z * nat) :=
  match spec with
  | EmptyString => mret ([], pos)
  | String ch spec' =>
      match spec_width ch with
      | Some k =>
          v ← prop_read k buf pos;
          '(vs, pos) ← get_spec spec' buf (pos + k)%nat;
          mret (v :: vs, pos)
      | None => get_spec spec' buf pos
      end
  end.

Fixpoint get_packed (count : nat) (spec : string) (buf : list Z) (pos : nat) : M props (list Z) :=
  match count with
  | O => mret []
  | S count' =>
      '(vs, pos) ← get_spec spec buf pos;
      vs' ← get_packed count' spec buf pos;
      mret (vs ++ vs')
  end.

Definition pdbg_target_get_attribute_packed (t : nat) (name : string) (spec : string) (count : Z)
  : M props (option (list Z)) :=
  if bool_decide (spec = EmptyString) then mret None else
  if count =? 0 then mret None else
  ps ← get_st;
  match pdbg_target_property ps t name with
  | None => mret None
  | Some buf =>
      let total_size := Z.of_nat (length buf) in
      let size := u64 (spec_size spec * count) in
      if negb (total_size =? size) then mret None else
      vs ← get_packed (Z.to_nat count) spec buf 0;
      mret (Some vs)
  end.
End Device.
