(* ===== verification/DeviceTheorems.v ===== *)
(** * libpdbg: attributes round trip *)

From S2P Require Import Prelude CMem Target Device.
From Stdlib Require Import Ascii.

Implicit Types (h : gmap nat (list mval)) (ps : props) (v : Z) (vs pre rest : list Z) (n i pos w : nat) (t : nat) (name : string).

(** ** Encodings *)

(** The bytes of values of the given widths, big endian and without gaps. *)
Fixpoint encode (ws : list nat) (vs : list Z) : list Z :=
  match ws, vs with w :: ws', v :: vs' => be_bytes w v ++ encode ws' vs' | _, _ => [] end.

Definition total (ws : list nat) : nat := foldr Nat.add 0%nat ws.

Lemma total_app ws ws' : total (ws ++ ws') = (total ws + total ws')%nat.
Proof. induction ws as [|w ws IH]; cbn; [done|]. unfold total in *. lia. Qed.

Definition values_ok : list nat -> list Z -> Prop := Forall2 (fun w v => in_range (8 * Z.of_nat w) v).

Lemma length_encode ws vs : length ws = length vs -> length (encode ws vs) = total ws.
Proof.
  revert vs. induction ws as [|w ws IH]; intros [|v vs] E; cbn in *; try done.
  rewrite length_app, length_be_bytes, IH by lia. done.
Qed.

Lemma encode_bytes ws vs : Forall is_byte (encode ws vs).
Proof.
  revert vs. induction ws as [|w ws IH]; intros [|v vs]; cbn; try constructor.
  apply Forall_app. split; [apply be_bytes_is_byte|apply IH].
Qed.

Lemma encode_app ws ws' vs vs' :
  length ws = length vs -> encode (ws ++ ws') (vs ++ vs') = encode ws vs ++ encode ws' vs'.
Proof.
  revert vs. induction ws as [|w ws IH]; intros [|v vs] E; cbn in *; try done.
  by rewrite <- app_assoc, IH by lia.
Qed.

Lemma wp_prop_read w v pre rest pos h n ps Q :
  in_range (8 * Z.of_nat w) v -> pos = length pre -> Q (inr v) (World h n ps) ->
  wp (prop_read w (pre ++ be_bytes w v ++ rest) pos) (World h n ps) Q.
Proof.
  intros Hv -> HQ. pose proof (length_be_bytes w v) as E. unfold prop_read.
  rewrite (proj2 (Nat.leb_le _ _)) by (rewrite !length_app; lia). apply wp_ret.
  rewrite drop_app_length, take_app_length' by done. rewrite be_val_be_bytes, Z.mod_small; [exact HQ|].
  unfold in_range in Hv. rewrite Z.pow_mul_r in Hv by lia. exact Hv.
Qed.

Lemma wp_get_elems w pre vs rest i h n ps Q :
  values_ok (replicate (length vs) w) vs -> length pre = (i * w)%nat -> Q (inr vs) (World h n ps) ->
  wp (get_elems w (pre ++ encode (replicate (length vs) w) vs ++ rest) i (length vs)) (World h n ps) Q.
Proof.
  revert pre i Q. induction vs as [|v vs IH]; cbn [length replicate encode get_elems]; intros pre i Q H Hp HQ.
  { by apply wp_ret. }
  inversion H as [|? ? ? ? Hv Hvs]; subst. rewrite <- (app_assoc (be_bytes w v)).
  apply wp_bind, wp_prop_read; [done..|]. rewrite (app_assoc pre).
  apply wp_bind, IH; [done|rewrite length_app, length_be_bytes; lia|]. by apply wp_ret.
Qed.

(** The widths a format string stands for. *)
Fixpoint widths (spec : string) : option (list nat) :=
  match spec with
  | EmptyString => Some []
  | String ch spec' => w ← spec_width ch; ws ← widths spec'; Some (w :: ws)
  end.

Lemma widths_String ch spec ws :
  widths (String ch spec) = Some ws ->
  exists w ws', ws = w :: ws' /\ spec_width ch = Some w /\ widths spec = Some ws'.
Proof.
  cbn. destruct (spec_width ch) as [w|]; [|done]. cbn. destruct (widths spec) as [ws'|]; [|done]. cbn.
  intros [= <-]. eauto.
Qed.

Lemma wp_get_spec spec ws pre vs rest h n ps Q :
  widths spec = Some ws -> values_ok ws vs ->
  Q (inr (vs, length (pre ++ encode ws vs))) (World h n ps) ->
  wp (get_spec spec (pre ++ encode ws vs ++ rest) (length pre)) (World h n ps) Q.
Proof.
  revert ws pre vs Q. induction spec as [|ch spec IH]; intros ws pre vs Q E H HQ; cbn [get_spec].
  - injection E as <-. inversion H; subst. apply wp_ret. by rewrite app_nil_r in HQ.
  - apply widths_String in E as (w & ws' & -> & Ew & Es). inversion H as [|? v ? vs' Hv Hvs]; subst.
    cbn [encode] in *. rewrite Ew, <- (app_assoc (be_bytes w v)).
    apply wp_bind, wp_prop_read; [done..|]. rewrite (app_assoc pre) in HQ |- *.
    replace (length pre + w)%nat with (length (pre ++ be_bytes w v)) by (by rewrite length_app, length_be_bytes).
    apply wp_bind, (IH ws'); [done..|]. by apply wp_ret.
Qed.

Definition packed_widths (count : nat) (ws : list nat) : list nat := concat (replicate count ws).

Lemma wp_get_packed count spec ws pre vs rest h n ps Q :
  widths spec = Some ws -> values_ok (packed_widths count ws) vs -> Q (inr vs) (World h n ps) ->
  wp (get_packed count spec (pre ++ encode (packed_widths count ws) vs ++ rest) (length pre)) (World h n ps) Q.
Proof.
  intros E. revert pre vs Q. induction count as [|count IH]; intros pre vs Q H HQ; cbn in *.
  - inversion H; subst. by apply wp_ret.
  - apply Forall2_app_inv_l in H as (v1 & v2 & H1 & H2 & ->).
    rewrite encode_app by (by eapply Forall2_length). rewrite <- (app_assoc (encode ws v1)).
    apply wp_bind, (wp_get_spec _ ws); [done..|]. rewrite (app_assoc pre).
    apply wp_bind, IH; [done|]. by apply wp_ret.
Qed.

Lemma spec_size_widths spec ws acc :
  widths spec = Some ws -> 0 <= acc -> acc + Z.of_nat (total ws) < 2 ^ 64 ->
  spec_size_from spec acc = acc + Z.of_nat (total ws).
Proof.
  revert ws acc. induction spec as [|ch spec IH]; intros ws acc E Ha Hs.
  - injection E as <-. cbn. lia.
  - apply widths_String in E as (w & ws' & -> & Ew & Es). cbn [spec_size_from]. rewrite Ew. cbn [total foldr] in Hs |- *.
    fold (total ws') in *. rewrite wrap_small by (unfold in_range; lia). rewrite (IH ws') by (done || lia). lia.
Qed.

(** ** Filling the buffer *)

Section Fill.
Context {Al : Allocator}.

(** A block whose first bytes are [pre], with [k] indeterminate bytes to come. *)
Definition part (pre : list Z) (k : nat) : list mval := (Some <$> pre) ++ replicate k None.

Lemma wp_store_next h b pre k bs (pos : Z) n ps Q :
  h !! b = Some (part pre k) -> pos = Z.of_nat (length pre) -> (length bs <= k)%nat ->
  Q (inr tt) (World (<[b := part (pre ++ bs) (k - length bs)]> h) n ps) ->
  wp (store_bytes (ptr_add (Ptr b 0) pos) (Some <$> bs)) (World h n ps) Q.
Proof.
  intros Hb -> Hk HQ. cbn [ptr_add]. unfold part in *.
  eapply wp_store_bytes; [exact Hb|lia|rewrite length_fmap, length_app, length_fmap, length_replicate; lia|].
  replace (Z.to_nat (0 + Z.of_nat (length pre))) with (length (Some <$> pre)) by (rewrite length_fmap; lia).
  rewrite patch_end by (by rewrite length_fmap). by rewrite length_fmap, <- fmap_app.
Qed.

Lemma wp_array_next (val : list Z) i v n h ps Q :
  val !! i = Some v -> Q (inr v) (World h n ps) -> wp (array_get val (Z.of_nat i)) (World h n ps) Q.
Proof.
  intros E HQ. unfold array_get. destruct (Z.ltb_spec (Z.of_nat i) 0); [lia|].
  by rewrite Nat2Z.id, E.
Qed.

Lemma wp_put_elems w val m i pre k h b n ps Q :
  (i + m = length val)%nat -> length pre = (i * w)%nat -> (m * w <= k)%nat -> h !! b = Some (part pre k) ->
  Q (inr tt) (World (<[b := part (pre ++ encode (replicate m w) (drop i val)) (k - m * w)]> h) n ps) ->
  wp (put_elems w (Ptr b 0) (Z.of_nat i) m val) (World h n ps) Q.
Proof.
  revert i pre k h. induction m as [|m IH]; intros i pre k h Hi Hp Hk Hb HQ; cbn [put_elems].
  - apply wp_ret. cbn in HQ. rewrite app_nil_r, Nat.sub_0_r, insert_id in HQ by done. exact HQ.
  - destruct (lookup_lt_is_Some_2 val i) as [v Ev]; [lia|]. apply wp_bind. eapply wp_array_next; [exact Ev|].
    apply wp_bind. eapply wp_store_next; [exact Hb|lia|rewrite length_be_bytes; lia|].
    replace (Z.of_nat i + 1) with (Z.of_nat (S i)) by lia.
    eapply IH; [lia| | |apply lookup_insert_eq|].
    + rewrite length_app, length_be_bytes. lia.
    + rewrite length_be_bytes. lia.
    + rewrite insert_insert_eq, length_be_bytes, <- app_assoc. rewrite (drop_S val v i Ev) in HQ. cbn in HQ.
      replace (k - w - m * w)%nat with (k - (w + m * w))%nat by lia. exact HQ.
Qed.

Lemma wp_put_spec spec ws vs val pre k h b n ps Q :
  widths spec = Some ws -> length vs = length ws -> (total ws <= k)%nat -> h !! b = Some (part pre k) ->
  Q (inr (Some (Z.of_nat (length pre + total ws), val)))
    (World (<[b := part (pre ++ encode ws vs) (k - total ws)]> h) n ps) ->
  wp (put_spec spec (Ptr b 0) (Z.of_nat (length pre)) (vs ++ val)) (World h n ps) Q.
Proof.
  revert ws vs pre k h. induction spec as [|ch spec IH]; intros ws vs pre k h E Hl Hk Hb HQ; cbn [put_spec].
  - injection E as <-. destruct vs; [|done]. apply wp_ret. cbn in HQ.
    rewrite app_nil_r, Nat.sub_0_r, Nat.add_0_r, insert_id in HQ by done. exact HQ.
  - apply widths_String in E as (w & ws' & -> & Ew & Es). rewrite Ew. destruct vs as [|v vs]; [done|].
    cbn [total foldr] in *. fold (total ws') in *.
    apply wp_bind. apply (wp_array_next _ 0 v); [done|].
    apply wp_bind. eapply wp_store_next; [exact Hb|lia|rewrite length_be_bytes; lia|]. cbn [app tail].
    replace (Z.of_nat (length pre) + Z.of_nat w) with (Z.of_nat (length (pre ++ be_bytes w v)))
      by (rewrite length_app, length_be_bytes; lia).
    eapply (IH ws' vs); [done|by injection Hl| |apply lookup_insert_eq|].
    + rewrite length_be_bytes. lia.
    + rewrite insert_insert_eq, !length_app, length_be_bytes, <- app_assoc.
      replace (k - w - total ws')%nat with (k - (w + total ws'))%nat by lia.
      replace (length pre + w + total ws')%nat with (length pre + (w + total ws'))%nat by lia. exact HQ.
Qed.

Lemma wp_put_packed count spec ws vs pre k h b n ps Q :
  widths spec = Some ws -> length vs = length (packed_widths count ws) ->
  (total (packed_widths count ws) <= k)%nat -> h !! b = Some (part pre k) ->
  Q (inr true) (World (<[b := part (pre ++ encode (packed_widths count ws) vs)
                                (k - total (packed_widths count ws))]> h) n ps) ->
  wp (put_packed count spec (Ptr b 0) (Z.of_nat (length pre)) vs) (World h n ps) Q.
Proof.
  intros E. revert vs pre k h. induction count as [|count IH]; intros vs pre k h Hl Hk Hb HQ; cbn [put_packed].
  - destruct vs; [|done]. apply wp_ret. cbn in HQ. rewrite app_nil_r, Nat.sub_0_r, insert_id in HQ by done. exact HQ.
  - unfold packed_widths in *. cbn [replicate concat] in *. rewrite length_app in Hl.
    rewrite <- (take_drop (length ws) vs) in HQ |- *. assert (length (take (length ws) vs) = length ws) as Ht
      by (rewrite length_take; lia).
    rewrite total_app in Hk, HQ. rewrite encode_app in HQ by done.
    apply wp_bind. eapply wp_put_spec; [exact E|exact Ht| |exact Hb|]; [lia|].
    replace (length pre + total ws)%nat with (length (pre ++ encode ws (take (length ws) vs)))
      by (rewrite length_app, length_encode by done; lia).
    eapply IH; [rewrite length_drop; lia| |apply lookup_insert_eq|]; [lia|].
    rewrite insert_insert_eq, <- app_assoc.
    replace (k - total ws - total (concat (replicate count ws)))%nat
      with (k - (total ws + total (concat (replicate count ws))))%nat by lia. exact HQ.
Qed.
End Fill.

(** ** Setting a property *)

Section Attributes.
Context {Al : Allocator} (T : dtree) (has_offset has_fdt readonly : nat -> bool).

(** The property of [t] is there, has [len] bytes and can be written: the target, [t] or its
    linked node, that has it. *)
Definition settable ps (t : nat) (name : string) (len : nat) : option nat :=
  '(o, p) ← property_owner T has_offset ps t name;
  if has_fdt o && negb (readonly o) && Nat.eqb (length p) len then Some o else None.

Definition set_result ps (t : nat) (name : string) (bytes : list Z) : bool * props :=
  match settable ps t name (length bytes) with
  | Some o => (true, <[(o, name) := bytes]> ps)
  | None => (false, ps)
  end.

Lemma property_owner_has ps t name o p :
  property_owner T has_offset ps t name = Some (o, p) -> ps !! (o, name) = Some p.
Proof.
  unfold property_owner, _target_property. intros E.
  destruct (has_offset t); [destruct (ps !! (t, name)) eqn:Et; [by simplify_eq|]|].
  all: destruct (vnode (node T t)) as [v|]; [|done]; destruct (has_offset v); [|done];
    destruct (ps !! (v, name)) eqn:Ev; [|done]; cbn in E; by simplify_eq.
Qed.

Lemma wp_set_property t name bytes b h n ps Q :
  h !! b = Some (Some <$> bytes) ->
  Q (inr (set_result ps t name bytes).1) (World h n (set_result ps t name bytes).2) ->
  wp (pdbg_target_set_property T has_offset has_fdt readonly t name (Ptr b 0) (Z.of_nat (length bytes)))
     (World h n ps) Q.
Proof.
  intros Hb HQ. unfold pdbg_target_set_property. apply wp_bind, wp_get_st. unfold set_result, settable in HQ.
  destruct (property_owner T has_offset ps t name) as [[o p]|] eqn:Eo; cbn in HQ; [|by apply wp_ret].
  destruct (has_fdt o); cbn in *; [|by apply wp_ret]. destruct (readonly o); cbn in *; [by apply wp_ret|].
  destruct (Nat.eqb_spec (length p) (length bytes)) as [El|Hne]; cbn in *.
  - rewrite El, Z.eqb_refl. cbn. apply wp_bind. eapply wp_load_bytes; [exact Hb|lia|lia|rewrite length_fmap; lia|].
    rewrite Nat2Z.id, Z2Nat.inj_0. rewrite <- (length_fmap Some bytes), slice_all.
    apply wp_bind. unfold defined. rewrite mapM_id_Some. apply wp_ret.
    unfold fdt_setprop_inplace. rewrite (property_owner_has _ _ _ _ _ Eo). cbn. rewrite El, Nat.eqb_refl. cbn.
    apply wp_bind, wp_put_st, wp_ret. exact HQ.
  - destruct (Z.eqb_spec (Z.of_nat (length p)) (Z.of_nat (length bytes))); [lia|]. by apply wp_ret.
Qed.

(** The property that was set is the one that is read. *)
Lemma set_result_read ps t name bytes :
  (set_result ps t name bytes).1 = true ->
  pdbg_target_property T has_offset (set_result ps t name bytes).2 t name = Some bytes.
Proof.
  unfold set_result, settable, property_owner, pdbg_target_property, _target_property.
  destruct (has_offset t) eqn:Et; [destruct (ps !! (t, name)) as [p|] eqn:Ep|].
  1: { cbn. destruct (_ && _); [|done]. intros _. cbn. by rewrite lookup_insert_eq. }
  all: destruct (vnode (node T t)) as [v|]; [|done]; destruct (has_offset v) eqn:Ev; [|done];
    destruct (ps !! (v, name)) as [p|] eqn:Epv; [|done]; cbn; destruct (_ && _); [|done]; intros _; cbn;
    rewrite ?lookup_insert_eq; try done.
  rewrite lookup_insert_ne by congruence. by rewrite Ep.
Qed.

(** The result of a setter that wants to store [bytes], when it allocates its buffer as block
    [n], and the properties after it. *)
Definition set_outcome n ps t name (bytes : list Z) : bool * props :=
  if can_alloc n (Z.of_nat (length bytes)) then set_result ps t name bytes else (false, ps).

(** A setter returns that result, has changed the properties like that, and has released its
    buffer. *)
Definition set_post n ps t name (bytes : list Z) h (r : Z + bool) (wd : world props) : Prop :=
  r = inr (set_outcome n ps t name bytes).1 /\ w_st wd = (set_outcome n ps t name bytes).2 /\ w_heap wd = h.

(** Reading gives [vs] and changes nothing. *)
Definition get_post vs (wd : world props) (r : Z + option (list Z)) (wd' : world props) : Prop :=
  r = inr (Some vs) /\ wd' = wd.

Lemma set_outcome_read n ps t name bytes :
  (set_outcome n ps t name bytes).1 = true ->
  pdbg_target_property T has_offset (set_outcome n ps t name bytes).2 t name = Some bytes.
Proof. unfold set_outcome. destruct (can_alloc _ _); [apply set_result_read|done]. Qed.

Definition finish t name (buf : ptr) (size : Z) : M props bool :=
  ok ← pdbg_target_set_property T has_offset has_fdt readonly t name buf size; free buf;; mret ok.

(** The setters: a buffer is allocated, [body] fills it and sets the property. *)
Lemma wp_setter (body : ptr -> M props bool) t name bytes (size : Z) h n ps :
  heap_ok h n -> size = Z.of_nat (length bytes) ->
  (forall Q, wp (finish t name (Ptr n 0) size) (World (<[n := Some <$> bytes]> h) (S n) ps) Q ->
             wp (body (Ptr n 0)) (World (<[n := part [] (length bytes)]> h) (S n) ps) Q) ->
  wp (buf ← malloc size; if is_null buf then mret false else body buf) (World h n ps)
     (set_post n ps t name bytes h).
Proof.
  intros Hh -> Hfill. unfold set_post, set_outcome. apply wp_bind, wp_malloc; intros ->; cbn [is_null].
  - rewrite Nat2Z.id. apply Hfill. unfold finish. apply wp_bind.
    eapply wp_set_property; [apply lookup_insert_eq|]. apply wp_bind.
    eapply wp_free; [apply lookup_insert_eq|]. apply wp_ret. cbn.
    by rewrite delete_insert_eq, delete_id by (by apply heap_ok_fresh).
  - by apply wp_ret.
Qed.

Lemma part_full l : part l 0 = Some <$> l.
Proof. unfold part. cbn. apply app_nil_r. Qed.

Lemma total_replicate m w : total (replicate m w) = (m * w)%nat.
Proof. induction m; cbn; [done|]. unfold total in IHm. lia. Qed.

Lemma encode_ones vs : values_ok (replicate (length vs) 1%nat) vs -> encode (replicate (length vs) 1%nat) vs = vs.
Proof.
  induction vs as [|v vs IH]; cbn [length replicate encode]; intros H; [done|].
  inversion H as [|? ? ? ? Hv Hvs]; subst. rewrite IH by done. unfold in_range in Hv.
  cbn [be_bytes app]. f_equal.
  change (2 ^ (8 * Z.of_nat 0)) with 1. change (2 ^ (8 * Z.of_nat 1)) with 256 in Hv. rewrite Z.div_1_r. by apply Z.mod_small.
Qed.

(** The body of the array setter, for each width of the elements. *)
Lemma wp_fill_elems w t name vs (size : Z) h n ps Q :
  let bytes := encode (replicate (length vs) w) vs in
  values_ok (replicate (length vs) w) vs ->
  wp (finish t name (Ptr n 0) size) (World (<[n := Some <$> bytes]> h) (S n) ps) Q ->
  wp (put_elems w (Ptr n 0) 0 (length vs) vs;; finish t name (Ptr n 0) size)
     (World (<[n := part [] (length bytes)]> h) (S n) ps) Q.
Proof.
  intros bytes Hv HQ.
  assert (length bytes = (length vs * w)%nat) as El
    by (unfold bytes; rewrite length_encode, total_replicate; [done|by rewrite length_replicate]).
  apply wp_bind. eapply (wp_put_elems w vs (length vs) 0 []); [done|done| |apply lookup_insert_eq|]; rewrite El; [lia|].
  cbn [app]. by rewrite insert_insert_eq, drop_0, Nat.sub_diag, part_full.
Qed.

Lemma wp_fill_bytes t name vs (size : Z) h n ps Q :
  values_ok (replicate (length vs) 1%nat) vs -> size = Z.of_nat (length vs) ->
  wp (finish t name (Ptr n 0) size) (World (<[n := Some <$> vs]> h) (S n) ps) Q ->
  wp (copy_in (Ptr n 0) (Some <$> vs) size;; finish t name (Ptr n 0) size)
     (World (<[n := part [] (length vs)]> h) (S n) ps) Q.
Proof.
  intros Hv Es HQ. apply wp_bind.
  eapply wp_copy_in; [apply lookup_insert_eq|lia|lia|rewrite length_fmap; lia|cbn; rewrite length_replicate; lia|].
  rewrite insert_insert_eq, Es, Nat2Z.id. rewrite take_ge by (by rewrite length_fmap).
  change (Z.to_nat 0) with (length (Some <$> @nil Z)). unfold part. rewrite patch_end by (by rewrite length_fmap).
  cbn [fmap list_fmap app]. rewrite length_fmap, Nat.sub_diag, app_nil_r. rewrite Es in HQ. exact HQ.
Qed.

Lemma wp_set_attribute w t name vs h n ps :
  w ∈ [1; 2; 4; 8]%nat -> values_ok (replicate (length vs) w) vs -> Z.of_nat (length vs * w) < 2 ^ 32 -> heap_ok h n ->
  wp (pdbg_target_set_attribute T has_offset has_fdt readonly t name (Z.of_nat w) (Z.of_nat (length vs)) vs)
     (World h n ps) (set_post n ps t name (encode (replicate (length vs) w) vs) h).
Proof.
  intros Hw Hv Hs Hh. pose proof (length_encode (replicate (length vs) w) vs (length_replicate _ _)) as El.
  rewrite total_replicate in El. unfold pdbg_target_set_attribute.
  rewrite wrap_small by (unfold in_range; lia). rewrite Nat2Z.id.
  assert (Z.of_nat (length vs) * Z.of_nat w = Z.of_nat (length (encode (replicate (length vs) w) vs))) as Es by lia.
  apply wp_setter; [done|done|]. intros Q HQ. fold (finish t name (Ptr n 0) (Z.of_nat (length vs) * Z.of_nat w)).
  rewrite !elem_of_cons, elem_of_nil in Hw. destruct Hw as [->|[->|[->|[->|[]]]]]; cbn [Z.of_nat Z.eqb Pos.eqb Pos.of_succ_nat Pos.succ].
  2-4: by apply wp_fill_elems.
  rewrite encode_ones in * by done. apply wp_fill_bytes; [done|lia|done].
Qed.

Lemma wp_get_attribute w t name vs h n ps :
  w ∈ [1; 2; 4; 8]%nat -> values_ok (replicate (length vs) w) vs -> Z.of_nat (length vs * w) < 2 ^ 32 ->
  pdbg_target_property T has_offset ps t name = Some (encode (replicate (length vs) w) vs) ->
  wp (pdbg_target_get_attribute T has_offset t name (Z.of_nat w) (Z.of_nat (length vs)))
     (World h n ps) (get_post vs (World h n ps)).
Proof.
  intros Hw Hv Hs Hp. unfold pdbg_target_get_attribute. apply wp_bind, wp_get_st. rewrite Hp.
  rewrite length_encode, total_replicate, wrap_small, Nat2Z.inj_mul, Z.eqb_refl, Nat2Z.id
    by (by rewrite length_replicate || unfold in_range; lia).
  pose proof (wp_get_elems w [] vs [] 0 h n ps) as G. rewrite app_nil_r in G. cbn [app negb] in G |- *.
  rewrite !elem_of_cons, elem_of_nil in Hw. destruct Hw as [->|[->|[->|[->|[]]]]]; cbn [Z.of_nat Z.eqb Pos.eqb Pos.of_succ_nat Pos.succ].
  - apply wp_ret. by rewrite encode_ones.
  - apply wp_bind, G; [done..|]. by apply wp_ret.
  - apply wp_bind, G; [done..|]. by apply wp_ret.
  - apply wp_bind, G; [done..|]. by apply wp_ret.
Qed.

Lemma packed_total count ws : total (packed_widths count ws) = (count * total ws)%nat.
Proof.
  unfold packed_widths. induction count as [|count IH]; cbn [replicate concat Nat.mul]; [done|].
  by rewrite total_app, IH.
Qed.

Lemma spec_size_pos spec ws : widths spec = Some ws -> spec <> EmptyString -> (0 < total ws)%nat.
Proof.
  destruct spec as [|ch spec]; [done|]. intros E _. apply widths_String in E as (w & ws' & -> & Ew & _).
  unfold spec_width in Ew. cbn. repeat case_bool_decide; simplify_eq; lia.
Qed.

(** What is known of a well-formed packed attribute. *)
Record packed_ok (spec : string) (ws : list nat) (count : nat) vs : Prop := {
  pk_widths : widths spec = Some ws;
  pk_spec : spec <> EmptyString;
  pk_count : count <> 0%nat;
  pk_fits : Z.of_nat (count * total ws) < 2 ^ 64;
  pk_values : values_ok (packed_widths count ws) vs }.

Lemma packed_sizes spec ws count vs : packed_ok spec ws count vs ->
  0 < spec_size spec /\
  u64 (spec_size spec * Z.of_nat count) = Z.of_nat (length (encode (packed_widths count ws) vs)).
Proof.
  intros [Hw Hne Hc Hf Hv]. pose proof (spec_size_pos _ _ Hw Hne) as Hp.
  assert (spec_size spec = Z.of_nat (total ws)) as -> by (unfold spec_size; rewrite (spec_size_widths _ ws); [lia|done|lia|nia]).
  rewrite length_encode by (by eapply Forall2_length). rewrite packed_total, wrap_small by (unfold in_range; lia). lia.
Qed.

Lemma wp_set_packed spec ws count t name vs h n ps :
  packed_ok spec ws count vs -> heap_ok h n ->
  wp (pdbg_target_set_attribute_packed T has_offset has_fdt readonly t name spec (Z.of_nat count) vs)
     (World h n ps) (set_post n ps t name (encode (packed_widths count ws) vs) h).
Proof.
  intros Hpk Hh. pose proof (packed_sizes _ _ _ _ Hpk) as [Hp Hsz]. destruct Hpk as [Hw Hne Hc Hf Hv].
  unfold pdbg_target_set_attribute_packed. rewrite bool_decide_eq_false_2 by done.
  destruct (Z.eqb_spec (Z.of_nat count) 0); [lia|]. destruct (Z.leb_spec (spec_size spec) 0); [lia|].
  apply wp_setter; [done|done|]. intros Q HQ. pose proof (Forall2_length _ _ _ Hv) as El.
  apply wp_bind. rewrite Nat2Z.id.
  eapply (wp_put_packed count spec ws vs []); [done|done| |apply lookup_insert_eq|]; rewrite length_encode by done; [done|].
  cbn [app]. by rewrite insert_insert_eq, Nat.sub_diag, part_full.
Qed.

Lemma wp_get_attribute_packed spec ws count t name vs h n ps :
  packed_ok spec ws count vs ->
  pdbg_target_property T has_offset ps t name = Some (encode (packed_widths count ws) vs) ->
  wp (pdbg_target_get_attribute_packed T has_offset t name spec (Z.of_nat count))
     (World h n ps) (get_post vs (World h n ps)).
Proof.
  intros Hpk Hprop. pose proof (packed_sizes _ _ _ _ Hpk) as [Hp Hsz]. destruct Hpk as [Hw Hne Hc Hf Hv].
  unfold pdbg_target_get_attribute_packed. rewrite bool_decide_eq_false_2 by done.
  destruct (Z.eqb_spec (Z.of_nat count) 0); [lia|]. apply wp_bind, wp_get_st. rewrite Hprop, Hsz, Z.eqb_refl, Nat2Z.id.
  cbn [negb]. apply wp_bind. pose proof (wp_get_packed count spec ws [] vs [] h n ps) as G. rewrite app_nil_r in G.
  apply G; [done..|]. by apply wp_ret.
Qed.

(** C32. An array attribute that is set is read back. For elements of 1, 2, 4 or 8 bytes,
    [pdbg_target_set_attribute] stores exactly the big-endian bytes of the values, in the target
    or in the node linked to it, and only when that property is there, writable and of that
    length (and the buffer can be allocated); otherwise nothing changes. Its buffer is gone
    afterwards. After a success [pdbg_target_get_attribute] gives the values back. *)
Theorem attribute_roundtrip w t name vs h n ps :
  w ∈ [1; 2; 4; 8]%nat -> values_ok (replicate (length vs) w) vs ->
  Z.of_nat (length vs * w) < 2 ^ 32 -> heap_ok h n ->
  let bytes := encode (replicate (length vs) w) vs in
  wp (pdbg_target_set_attribute T has_offset has_fdt readonly t name (Z.of_nat w) (Z.of_nat (length vs)) vs)
     (World h n ps) (set_post n ps t name bytes h) /\
  ((set_outcome n ps t name bytes).1 = true ->
   forall h' n', let after := World h' n' (set_outcome n ps t name bytes).2 in
   wp (pdbg_target_get_attribute T has_offset t name (Z.of_nat w) (Z.of_nat (length vs))) after (get_post vs after)).
Proof.
  intros Hw Hv Hs Hh bytes. split; [by apply wp_set_attribute|].
  intros E h' n' after. apply wp_get_attribute; [done..|]. by apply set_outcome_read.
Qed.

(** The same for the packed attributes: for a format string of the digits 1, 2, 4 and 8 and
    a number of records, the values of all records are stored big endian one after the other,
    and read back. *)
Theorem packed_attribute_roundtrip spec ws count t name vs h n ps :
  packed_ok spec ws count vs -> heap_ok h n ->
  let bytes := encode (packed_widths count ws) vs in
  wp (pdbg_target_set_attribute_packed T has_offset has_fdt readonly t name spec (Z.of_nat count) vs)
     (World h n ps) (set_post n ps t name bytes h) /\
  ((set_outcome n ps t name bytes).1 = true ->
   forall h' n', let after := World h' n' (set_outcome n ps t name bytes).2 in
   wp (pdbg_target_get_attribute_packed T has_offset t name spec (Z.of_nat count)) after (get_post vs after)).
Proof.
  intros Hpk Hh bytes. split; [by apply wp_set_packed|].
  intros E h' n' after. eapply wp_get_attribute_packed; [exact Hpk|]. by apply set_outcome_read.
Qed.
End Attributes.

(** The length of an array attribute is computed in 32 bits: 2^29 elements of eight bytes get
    an empty buffer, and the first of them is stored beyond its end. *)
Lemma attribute_size_wraps {Al : Allocator} T has_offset has_fdt readonly t name v vs h n ps :
  can_alloc n 0 = true ->
  (pdbg_target_set_attribute T has_offset has_fdt readonly t name 8 (2 ^ 29) (v :: vs) (World h n ps)).1 =
  Crash OutOfBounds.
Proof.
  intros Ha. unfold pdbg_target_set_attribute. change (u32 (2 ^ 29 * 8)) with 0.
  replace (Z.to_nat (2 ^ 29)) with (S (Z.to_nat (2 ^ 29 - 1))) by lia. generalize (Z.to_nat (2 ^ 29 - 1)). intros m.
  unfold mbind, M_bind, malloc. cbn -[be_bytes]. rewrite Ha. cbn -[be_bytes].
  unfold mbind, M_bind. cbn -[be_bytes]. unfold store_bytes.
  change (array_get (v :: vs) 0) with (mret (M := M props) v). cbn -[be_bytes]. rewrite lookup_insert_eq. reflexivity.
Qed.

(** ** The theorems at work

    Target 1 is linked to target 0; each has one property. *)

Definition pair_node (t : nat) : pdbg_target :=
  Node false None None false NoRelease 0 None [] (if Nat.eqb t 1 then Some 0%nat else None) None 0 0 0 None false false.
Definition pair_tree : dtree := Dtree pair_node 0 (fun _ => None) false.
Definition anywhere (t : nat) : bool := true.
Definition nowhere (t : nat) : bool := false.
Definition pair_props : props := <[(0%nat, "ATTR_A"%string) := [0; 0; 0; 0; 0; 0; 0; 0]]> (<[(1%nat, "ATTR_B"%string) := [0; 0; 0]]> ∅).
#[local] Instance generous : Allocator := fun _ _ => true.

Lemma attribute_roundtrip_witness :
  set_outcome pair_tree anywhere anywhere nowhere 0 pair_props 1 "ATTR_A" [0; 0; 1; 2; 255; 255; 255; 255] =
    (true, <[(0%nat, "ATTR_A"%string) := [0; 0; 1; 2; 255; 255; 255; 255]]> pair_props) /\
  wp (pdbg_target_set_attribute pair_tree anywhere anywhere nowhere 1 "ATTR_A" 4 2 [258; 4294967295])
     (World ∅ 0 pair_props)
     (set_post pair_tree anywhere anywhere nowhere 0 pair_props 1 "ATTR_A" [0; 0; 1; 2; 255; 255; 255; 255] ∅).
Proof.
  split; [reflexivity|].
  apply (attribute_roundtrip pair_tree anywhere anywhere nowhere 4 1 "ATTR_A" [258; 4294967295] ∅ 0 pair_props).
  - set_solver.
  - repeat constructor; unfold in_range; lia.
  - cbn. lia.
  - intros b _. apply lookup_empty.
Defined.

Lemma packed_attribute_roundtrip_witness :
  wp (pdbg_target_get_attribute_packed pair_tree anywhere 1 "ATTR_B" "12" 1)
     (World ∅ 5 (<[(1%nat, "ATTR_B"%string) := [7; 1; 2]]> pair_props))
     (get_post [7; 258] (World ∅ 5 (<[(1%nat, "ATTR_B"%string) := [7; 1; 2]]> pair_props))).
Proof.
  refine (proj2 (packed_attribute_roundtrip pair_tree anywhere anywhere nowhere "12" [1; 2]%nat 1 1 "ATTR_B" [7; 258] ∅ 0
           pair_props _ _) _ ∅ 5%nat).
  - split; [reflexivity|done|done|reflexivity|]. repeat constructor; unfold in_range; lia.
  - intros b _. apply lookup_empty.
  - reflexivity.
Defined.
