(* ===== verification/DevTree.v ===== *)
(** * libpdbg: building and searching the device tree

    Models the construction of the target tree in libpdbg/device.c: new nodes, their sorted
    insertion below a parent, the expansion of a device tree blob, virtual nodes, and the
    paths of nodes. Here the tree changes, so it is the state: a store of nodes named by
    numbers, in the order in which they are created. C strings are lists of characters
    without the terminating zero. A blob is the sequence of tags that [fdt_next_tag] yields;
    an offset is a position in it. *)

From S2P Require Import Prelude CMem Target.
From Stdlib Require Import Ascii.

Abbreviation cstr := (list ascii).

(** ** C strings *)

Definition is_char (c d : ascii) : bool := Ascii.eqb c d.

Fixpoint strchr (s : cstr) (c : ascii) : option nat :=
  match s with
  | [] => None
  | d :: s' => if is_char d c then Some 0%nat else S <$> strchr s' c
  end.
Definition strrchr (s : cstr) (c : ascii) : option nat :=
  (fun i => length s - 1 - i)%nat <$> strchr (reverse s) c.

Fixpoint strcmp (a b : cstr) : comparison :=
  match a, b with
  | [], [] => Eq
  | [], _ :: _ => Lt
  | _ :: _, [] => Gt
  | x :: a', y :: b' => match Ascii.compare x y with Eq => strcmp a' b' | r => r end
  end.

Definition strncmp (a b : cstr) (n : nat) : comparison := strcmp (take n a) (take n b).

Definition ULONG_MAX : Z := 2 ^ 64 - 1.

Definition in_chars (lo c hi : ascii) : bool :=
  ((nat_of_ascii lo <=? nat_of_ascii c) && (nat_of_ascii c <=? nat_of_ascii hi))%nat.

Definition hex_digit (c : ascii) : option Z :=
  let v := Z.of_nat (nat_of_ascii c) in
  if in_chars "0" c "9" then Some (v - 48)
  else if in_chars "a" c "f" then Some (v - 87)
  else if in_chars "A" c "F" then Some (v - 55)
  else None.

Definition is_space (c : ascii) : bool := in_chars "009" c "013" || is_char c " ".

(** The digits from here on: their value after [acc], and what follows. *)
Fixpoint hex_number (acc : Z) (s : cstr) : Z * cstr :=
  match s with
  | c :: s' => match hex_digit c with Some d => hex_number (acc * 16 + d) s' | None => (acc, s) end
  | [] => (acc, [])
  end.

Fixpoint skip_while (f : ascii -> bool) (s : cstr) : cstr :=
  match s with c :: s' => if f c then skip_while f s' else s | [] => [] end.

(** [strtoul(s, &end, 16)]: the value and [end]. Without digits [end] is [s]. *)
Definition strtoul16 (s : cstr) : Z * cstr :=
  let p := skip_while is_space s in
  let '(neg, p) :=
    match p with
    | c :: p' => if is_char c "-" then (true, p') else if is_char c "+" then (false, p') else (false, p)
    | [] => (false, [])
    end in
  let p :=
    match p with
    | c :: x :: d :: _ =>
        if is_char c "0" && (is_char x "x" || is_char x "X") && bool_decide (is_Some (hex_digit d)) then drop 2 p else p
    | _ => p
    end in
  match p with
  | d :: _ =>
      match hex_digit d with
      | None => (0, s)
      | Some _ =>
          let '(v, e) := hex_number 0 p in
          (if ULONG_MAX <? v then ULONG_MAX else if neg then u64 (- v) else v, e)
      end
  | [] => (0, s)
  end.

(** ** Nodes *)

Record dnode := DNode {
  dn_name : cstr;
  dn_parent : option nat;
  dn_children : list nat;
  dn_vnode : option nat;
  dn_real : bool;                          (* [compatible] is set *)
  dn_index : Z;
  dn_status : pdbg_target_status;
  dn_phandle : Z;
  dn_fdt_offset : Z
}.

Record dstate := DState {
  d_nodes : gmap nat dnode;
  d_next : nat;                            (* names given so far are below this *)
  last_phandle : Z
}.

#[export] Instance dnode_inhabited : Inhabited dnode :=
  populate (DNode [] None [] None false 0 PDBG_TARGET_UNKNOWN 0 0).

Definition get_dnode (t : nat) : M dstate dnode :=
  s ← get_st;
  match d_nodes s !! t with Some n => mret n | None => crash OutOfBounds end.

Definition put_dnode (t : nat) (n : dnode) : M dstate unit :=
  s ← get_st;
  put_st (DState (<[t := n]> (d_nodes s)) (d_next s) (last_phandle s)).

Definition set_parent (p : option nat) (n : dnode) : dnode :=
  DNode (dn_name n) p (dn_children n) (dn_vnode n) (dn_real n) (dn_index n) (dn_status n) (dn_phandle n) (dn_fdt_offset n).
Definition set_children (cs : list nat) (n : dnode) : dnode :=
  DNode (dn_name n) (dn_parent n) cs (dn_vnode n) (dn_real n) (dn_index n) (dn_status n) (dn_phandle n) (dn_fdt_offset n).
Definition set_vnode (v : option nat) (n : dnode) : dnode :=
  DNode (dn_name n) (dn_parent n) (dn_children n) v (dn_real n) (dn_index n) (dn_status n) (dn_phandle n) (dn_fdt_offset n).
Definition set_index (i : Z) (n : dnode) : dnode :=
  DNode (dn_name n) (dn_parent n) (dn_children n) (dn_vnode n) (dn_real n) i (dn_status n) (dn_phandle n) (dn_fdt_offset n).
Definition set_node_status (st : pdbg_target_status) (n : dnode) : dnode :=
  DNode (dn_name n) (dn_parent n) (dn_children n) (dn_vnode n) (dn_real n) (dn_index n) st (dn_phandle n) (dn_fdt_offset n).
Definition set_phandle (p : Z) (n : dnode) : dnode :=
  DNode (dn_name n) (dn_parent n) (dn_children n) (dn_vnode n) (dn_real n) (dn_index n) (dn_status n) p (dn_fdt_offset n).

(** [fdt] is the offset of the node in its blob, [None] for a node without one; [known] tells
    whether a hardware unit matches its [compatible] property ([dt_pdbg_target_new]). *)
Definition dt_new_node (name : cstr) (fdt : option Z) (known : bool) : M dstate nat :=
  s ← get_st;
  let ph := u32 (last_phandle s + 1) in
  let node := DNode name None [] None (match fdt with Some _ => known | None => false end) 0 PDBG_TARGET_UNKNOWN ph
                    (match fdt with Some o => o | None => -1 end) in
  put_st (DState (<[d_next s := node]> (d_nodes s)) (S (d_next s)) ph);;
  mret (d_next s).

(** ** Sorted insertion *)

Definition get_unitname (name : cstr) : option nat := S <$> strchr name "@".

Definition dt_cmp_subnodes (a b : cstr) : comparison :=
  match get_unitname a, get_unitname b with
  | Some a_unit, Some b_unit =>
      match strncmp a b a_unit with
      | Eq =>
          let '(a_num, a_end) := strtoul16 (drop a_unit a) in
          let '(b_num, b_end) := strtoul16 (drop b_unit b) in
          match a_end, b_end with
          | [], [] => Z.compare a_num b_num
          | _, _ => strcmp a b
          end
      | _ => strcmp a b
      end
  | _, _ => strcmp a b
  end.

(** The loop over the children [cs]: the list with [child] in front of the first larger node,
    or [None] for a duplicate. *)
Fixpoint insert_child (name : nat -> cstr) (child : nat) (cs : list nat) : option (list nat) :=
  match cs with
  | [] => Some [child]
  | c :: cs' =>
      match dt_cmp_subnodes (name c) (name child) with
      | Eq => None
      | Gt => Some (child :: cs)
      | Lt => cons c <$> insert_child name child cs'
      end
  end.

Definition name_in (s : dstate) (t : nat) : cstr := dn_name (d_nodes s !!! t).

Definition dt_attach_node (parent child : nat) : M dstate bool :=
  c ← get_dnode child;
  c_assert (match dn_parent c with None => true | Some _ => false end);;
  p ← get_dnode parent;
  s ← get_st;
  match insert_child (name_in s) child (dn_children p) with
  | None => mret false
  | Some cs =>
      put_dnode parent (set_children cs p);;
      c ← get_dnode child;
      put_dnode child (set_parent (Some parent) c);;
      mret true
  end.

(** ** Paths *)

(** The path component at [p]: the rest after it, its name and its unit address. *)
Definition __dt_path_split (p : cstr) : cstr * cstr * cstr :=
  let p := skip_while (fun c => is_char c "/") p in
  match p with
  | [] => ([], [], [])
  | _ :: _ =>
      let sl := match strchr p "/" with Some i => i | None => length p end in
      let at_ := match strchr p "@" with Some i => if (sl <? i)%nat then None else Some i | None => None end in
      match at_ with
      | Some i => (drop sl p, take i p, take (sl - i - 1) (drop (i + 1) p))
      | None => (drop sl p, take sl p, [])
      end
  end.

Definition is_empty (s : cstr) : bool := match s with [] => true | _ :: _ => false end.
Definition cstr_eqb (a b : cstr) : bool := bool_decide (a = b).

(** Does a node of this name match the component? Empty parts match anything. *)
Definition name_matches (pn pa : cstr) (name : cstr) : bool :=
  let '(_, nn, na) := __dt_path_split name in
  (is_empty pn || cstr_eqb pn nn) && (is_empty pa || cstr_eqb pa na).

Fixpoint find_child (s : dstate) (pn pa : cstr) (cs : list nat) : option nat :=
  match cs with
  | [] => None
  | c :: cs' => if name_matches pn pa (name_in s c) then Some c else find_child s pn pa cs'
  end.

Definition kids (s : dstate) (t : nat) : list nat := dn_children (d_nodes s !!! t).
Definition link (s : dstate) (t : nat) : option nat := dn_vnode (d_nodes s !!! t).

Definition to_real (s : dstate) (t : nat) : nat :=
  match link s t with Some v => if negb (dn_real (d_nodes s !!! t)) then v else t | None => t end.
Definition to_virtual (s : dstate) (t : nat) : nat :=
  match link s t with Some v => if dn_real (d_nodes s !!! t) then v else t | None => t end.

(** [NULL] is [None]. The path gets shorter with every component: its length is fuel enough. *)
Fixpoint dt_find_loop (s : dstate) (fuel : nat) (root : nat) (p : cstr) : option nat :=
  match p with
  | [] => Some (to_real s root)
  | _ :: _ =>
      match fuel with
      | O => None
      | S fuel' =>
          let '(rest, pn, pa) := __dt_path_split p in
          if is_empty pn && is_empty pa then Some (to_real s root) else
          match find_child s pn pa (kids s root) with
          | Some n => dt_find_loop s fuel' n rest
          | None =>
              v ← link s root;
              n ← find_child s pn pa (kids s v);
              dt_find_loop s fuel' n rest
          end
      end
  end.

Definition dt_find_by_path (s : dstate) (root : nat) (path : cstr) : option nat :=
  dt_find_loop s (length path) root path.

Definition has_parent (s : dstate) (t : nat) : bool :=
  match dn_parent (d_nodes s !!! t) with Some _ => true | None => false end.

(** The two loops over the ancestors of [node]: the length of the path, and the path in
    front of [acc], which is what has been filled in so far. *)
Fixpoint path_len (s : dstate) (fuel : nat) (node : nat) (n : option nat) (len : nat) : M dstate nat :=
  match n with
  | None => mret len
  | Some n =>
      match fuel with
      | O => crash NoFuel
      | S fuel' =>
          let n := to_virtual s n in
          let len := (len + length (name_in s n))%nat in
          let len := if has_parent s n || Nat.eqb n node then S len else len in
          path_len s fuel' node (dn_parent (d_nodes s !!! n)) len
      end
  end.

Fixpoint path_fill (s : dstate) (fuel : nat) (node : nat) (n : option nat) (acc : cstr) : M dstate cstr :=
  match n with
  | None => mret acc
  | Some n =>
      match fuel with
      | O => crash NoFuel
      | S fuel' =>
          let n := to_virtual s n in
          let acc := name_in s n ++ acc in
          let acc := if has_parent s n || Nat.eqb n node then "/"%char :: acc else acc in
          path_fill s fuel' node (dn_parent (d_nodes s !!! n)) acc
      end
  end.

Definition dt_get_path (fuel : nat) (node : nat) : M dstate cstr :=
  s ← get_st;
  len ← path_len s fuel node (Some node) 0;
  path ← path_fill s fuel node (Some node) [];
  c_assert (Nat.eqb (length path) len);;
  mret path.

(** ** Virtual nodes *)

Definition dt_new_virtual (root : nat) (system_path : cstr) : M dstate (option nat) :=
  match strrchr system_path "/" with
  | None => mret None
  | Some sep =>
      if is_empty (drop (sep + 1) system_path) then mret None else
      s ← get_st;
      match dt_find_by_path s root (take sep system_path) with
      | None => mret None
      | Some parent =>
          vnode ← dt_new_node (drop (sep + 1) system_path) None false;
          ok ← dt_attach_node parent vnode;
          mret (if ok : bool then Some vnode else None)
      end
  end.

Definition dt_link_virtual (node vnode : nat) : M dstate unit :=
  n ← get_dnode node;
  put_dnode node (set_vnode (Some vnode) n);;
  v ← get_dnode vnode;
  put_dnode vnode (set_vnode (Some node) v).

(** What [pdbg_targets_init_virtual] does with one node, whose property [system-path] is
    [system_path]. *)
Definition init_virtual_node (node root : nat) (system_path : option cstr) : M dstate unit :=
  n ← get_dnode node;
  if negb (dn_real n) then mret tt else
  match system_path with
  | None => mret tt
  | Some system_path =>
      s ← get_st;
      vnode ← match dt_find_by_path s root system_path with
              | Some v => mret (Some v)
              | None => dt_new_virtual root system_path
              end;
      match vnode with
      | None => mret tt
      | Some v =>
          vn ← get_dnode v;
          if negb (dn_real vn) then
            c_assert (match dn_vnode vn with None => true | Some _ => false end);;
            dt_link_virtual node v
          else mret tt
      end
  end.

(** ** Expanding a blob *)

Inductive fdt_tag :=
| FDT_PROP (name : string) (data : list Z)
| FDT_BEGIN_NODE (name : cstr)
| FDT_END_NODE
| FDT_NOP
| FDT_END.

Section Expand.
Context (fdt : list fdt_tag).
(** Whether a hardware unit matches the node at an offset. *)
Context (known : nat -> bool).

Definition tag_at (offset : nat) : fdt_tag := default FDT_END (fdt !! offset).

(** Property strings are terminated. *)
Definition data_string (data : list Z) : option string :=
  match until_nul (Some <$> data) with
  | Some l => Some (String.string_of_list_ascii ((fun b => ascii_of_nat (Z.to_nat (default 0 b))) <$> l))
  | None => None
  end.

Definition str_to_status (status : string) : M dstate pdbg_target_status :=
  if bool_decide (status = "enabled"%string) then crash AssertFailed
  else if bool_decide (status = "disabled"%string) then mret PDBG_TARGET_DISABLED
  else if bool_decide (status = "mustexist"%string) then mret PDBG_TARGET_MUSTEXIST
  else if bool_decide (status = "nonexistent"%string) then mret PDBG_TARGET_NONEXISTENT
  else if bool_decide (status = "unknown"%string) then mret PDBG_TARGET_UNKNOWN
  else crash AssertFailed.

(** The handle is stored as it is in the blob, big endian, and read by the host. *)
Definition dt_add_phandle (node : nat) (name : string) (data : list Z) : M dstate unit :=
  if bool_decide (name = "linux,phandle"%string) || bool_decide (name = "phandle"%string) then
    c_assert (Nat.eqb (length data) 4);;
    let ph := be_val (reverse data) in
    n ← get_dnode node;
    put_dnode node (set_phandle ph n);;
    s ← get_st;
    if last_phandle s <=? ph then put_st (DState (d_nodes s) (d_next s) ph) else mret tt
  else mret tt.

Definition expand_prop (node : nat) (name : string) (data : list Z) : M dstate unit :=
  (if bool_decide (name = "index"%string) then
     if (length data <? 4)%nat then crash OutOfBounds else
     n ← get_dnode node;
     put_dnode node (set_index (be_val (take 4 data)) n)
   else mret tt);;
  (if bool_decide (name = "status"%string) then
     match data_string data with
     | None => crash OutOfBounds
     | Some str =>
         st ← str_to_status str;
         n ← get_dnode node;
         put_dnode node (set_node_status st n)
     end
   else mret tt);;
  dt_add_phandle node name data.

(** The loop over the tags of a node from [offset] on; the offset after the node, or [None]
    for -1. Every round takes at least one tag. *)
Fixpoint expand_loop (fuel : nat) (node offset : nat) : M dstate (option nat) :=
  match fuel with
  | O => crash NoFuel
  | S fuel' =>
      match tag_at offset with
      | FDT_PROP name data => expand_prop node name data;; expand_loop fuel' node (S offset)
      | FDT_BEGIN_NODE name =>
          child ← dt_new_node name (Some (Z.of_nat offset)) (known offset);
          next ← expand_loop fuel' child (S offset);
          dt_attach_node node child;;
          match next with
          | Some next => expand_loop fuel' node next
          | None => mret None
          end
      | FDT_END_NODE => mret (Some (S offset))
      | FDT_NOP => expand_loop fuel' node (S offset)
      | FDT_END => mret None
      end
  end.

Definition dt_expand_node (node fdt_node : nat) : M dstate (option nat) :=
  match tag_at fdt_node with
  | FDT_BEGIN_NODE _ => expand_loop (S (length fdt)) node (S fdt_node)
  | _ => mret None
  end.

Definition dt_expand (root : nat) : M dstate unit :=
  r ← dt_expand_node root 0;
  match r with Some _ => mret tt | None => crash AssertFailed end.
End Expand.
