(* ===== verification/DevTreeFacts.v ===== *)
(** * libpdbg: the invariant of the device tree

    Parents and children agree, siblings are sorted and have different names, parents are
    older than their children, and links between virtual and real nodes go both ways. Every
    operation that builds the tree keeps this. *)

From Stdlib Require Import Ascii.
From Stdlib Require Import Ascii Sorting.Sorted.
From S2P Require Import Prelude CMem Target DevTree.

(** ** libpdbg: the order of sibling nodes

    [dt_cmp_subnodes] orders names with unit addresses by number and all others by their
    characters. It is no order on all names: 9 comes before 10 as a number and after "1g" as
    a string. On names whose unit addresses are numbers it is one. *)

Abbreviation SLASH := ("/"%char).
Abbreviation AT := ("@"%char).

Section Order.
Implicit Types (a b x y u v : cstr) (c : ascii).

(** ** Comparing strings *)

Lemma strcmp_refl a : strcmp a a = Eq.
Proof. induction a as [|c a IH]; cbn; [done|]. unfold Ascii.compare. by rewrite N.compare_refl. Qed.

Lemma strcmp_eq a b : strcmp a b = Eq -> a = b.
Proof.
  revert b. induction a as [|c a IH]; intros [|d b]; cbn; try done. destruct (Ascii.compare c d) eqn:E; try done.
  apply Ascii.compare_eq_iff in E as ->. by intros ->%IH.
Qed.

Lemma strcmp_antisym a b : strcmp b a = CompOpp (strcmp a b).
Proof.
  revert b. induction a as [|c a IH]; intros [|d b]; cbn; try done.
  rewrite (Ascii.compare_antisym d c). destruct (Ascii.compare c d); cbn; auto.
Qed.

Lemma strcmp_trans a b x : strcmp a b = Lt -> strcmp b x = Lt -> strcmp a x = Lt.
Proof.
  revert b x. induction a as [|c a IH]; intros [|d b] [|e x]; cbn; try done.
  unfold Ascii.compare.
  destruct (N.compare_spec (N_of_ascii c) (N_of_ascii d)) as [E1|E1|E1],
    (N.compare_spec (N_of_ascii d) (N_of_ascii e)) as [E2|E2|E2]; try done; intros H1 H2.
  - rewrite E1, E2, N.compare_refl. eauto.
  - rewrite E1. by rewrite (proj2 (N.compare_lt_iff _ _) E2).
  - rewrite <- E2. by rewrite (proj2 (N.compare_lt_iff _ _) E1).
  - by rewrite (proj2 (N.compare_lt_iff _ _) (N.lt_trans _ _ _ E1 E2)).
Qed.

(** What follows a string does not matter when it is not a prefix of the other. *)
Lemma strcmp_app_r x y v : ~ y `prefix_of` x -> strcmp x (y ++ v) = strcmp x y.
Proof.
  revert x. induction y as [|d y IH]; intros x H.
  - destruct H. apply prefix_nil.
  - destruct x as [|c x]; [done|]. cbn. destruct (Ascii.compare c d) eqn:E; try done.
    apply Ascii.compare_eq_iff in E as ->. apply IH. intros P. by apply H, prefix_cons.
Qed.

Lemma strcmp_app_l x u y : ~ x `prefix_of` y -> strcmp (x ++ u) y = strcmp x y.
Proof. intros H. rewrite strcmp_antisym, strcmp_app_r by done. by rewrite <- strcmp_antisym. Qed.

(** ** Searching for a character *)

Lemma is_char_spec c d : is_char c d = true <-> c = d.
Proof. unfold is_char. apply Ascii.eqb_eq. Qed.

Lemma strchr_first x c y : c ∉ x -> strchr (x ++ c :: y) c = Some (length x).
Proof.
  induction x as [|d x IH]; cbn; intros H.
  - by rewrite (proj2 (is_char_spec c c)).
  - apply not_elem_of_cons in H as [H1 H2]. destruct (is_char d c) eqn:E; [by apply is_char_spec in E|].
    by rewrite IH.
Qed.

Lemma strchr_none x c : c ∉ x -> strchr x c = None.
Proof.
  induction x as [|d x IH]; cbn; intros H; [done|].
  apply not_elem_of_cons in H as [H1 H2]. destruct (is_char d c) eqn:E; [by apply is_char_spec in E|].
  by rewrite IH.
Qed.

Lemma strchr_cases x c :
  ((c ∉ x) /\ strchr x c = None) \/ (exists y z, x = y ++ c :: z /\ (c ∉ y) /\ strchr x c = Some (length y)).
Proof.
  destruct (decide (c ∈ x)) as [H|H]; [|left; split; [done|by apply strchr_none]].
  right. apply list_elem_of_split_l in H as (y & z & -> & Hy). exists y, z. split; [done|].
  split; [done|by apply strchr_first].
Qed.

(** ** Names of nodes *)


(** A name is not empty and has no slash; a unit address follows a base name and is a number. *)
Definition name_ok (name : cstr) : Prop :=
  name <> [] /\ (SLASH ∉ name) /\
  forall b u, name = b ++ AT :: u -> AT ∉ b -> b <> [] /\ u <> [] /\ (strtoul16 u).2 = [].

(** The part of a name that is compared as a string, and the number. *)
Definition rep (name : cstr) : cstr :=
  match strchr name AT with Some i => take (S i) name | None => name end.
Definition num (name : cstr) : Z :=
  match strchr name AT with Some i => (strtoul16 (drop (S i) name)).1 | None => 0 end.

Lemma take_unit x c y : take (S (length x)) (x ++ c :: y) = x ++ [c] /\ drop (S (length x)) (x ++ c :: y) = y.
Proof.
  rewrite cons_middle, app_assoc. replace (S (length x)) with (length (x ++ [c])) by (rewrite length_app; cbn; lia).
  by rewrite take_app_length, drop_app_length.
Qed.

Lemma rep_unit x y : AT ∉ x -> rep (x ++ AT :: y) = x ++ [AT] /\ num (x ++ AT :: y) = (strtoul16 y).1.
Proof. intros H. unfold rep, num. rewrite strchr_first by done. by destruct (take_unit x AT y) as [-> ->]. Qed.

(** The first unit separator splits a name in one way. *)
Lemma app_inj_at x y u v : AT ∉ x -> AT ∉ y -> x ++ AT :: u = y ++ AT :: v -> x = y /\ u = v.
Proof.
  intros Hx Hy E. pose proof (f_equal (fun s => strchr s AT) E) as L. cbn in L.
  rewrite !strchr_first in L by done. injection L as L. apply app_inj_1 in E as [-> E]; [|done]. by injection E as ->.
Qed.

Lemma at_in x y : AT ∈ (x ++ [AT]) ++ y.
Proof. rewrite !elem_of_app. left. right. by apply list_elem_of_singleton. Qed.

(** [dt_cmp_subnodes] compares these parts first and then the numbers. *)
Lemma cmp_lex a b : name_ok a -> name_ok b ->
  dt_cmp_subnodes a b = match strcmp (rep a) (rep b) with Eq => Z.compare (num a) (num b) | r => r end.
Proof.
  intros (_ & _ & Ha) (_ & _ & Hb). unfold dt_cmp_subnodes, get_unitname.
  destruct (strchr_cases a AT) as [[Na Ea]|(x & u & -> & Nx & Ea)]; rewrite Ea; cbn [fmap option_fmap option_map];
    destruct (strchr_cases b AT) as [[Nb Eb]|(y & v & -> & Ny & Eb)]; rewrite ?Eb; cbn [fmap option_fmap option_map].
  - unfold rep, num. rewrite Ea, Eb. destruct (strcmp a b) eqn:E; done.
  - destruct (rep_unit y v Ny) as [-> ->]. unfold rep, num. rewrite Ea.
    rewrite cons_middle, app_assoc, strcmp_app_r. 2: { intros [z ->]. apply Na, at_in. }
    destruct (strcmp a (y ++ [AT])) eqn:E; try done. apply strcmp_eq in E as ->. destruct Na. apply elem_of_app. right. by apply list_elem_of_singleton.
  - destruct (rep_unit x u Nx) as [-> ->]. unfold rep, num. rewrite Eb.
    rewrite cons_middle, app_assoc, strcmp_app_l. 2: { intros [z ->]. apply Nb, at_in. }
    destruct (strcmp (x ++ [AT]) b) eqn:E; try done. apply strcmp_eq in E as <-. destruct Nb. apply elem_of_app. right. by apply list_elem_of_singleton.
  - destruct (rep_unit x u Nx) as [-> ->], (rep_unit y v Ny) as [-> ->].
    destruct (take_unit x AT u) as [Tx Dx], (take_unit y AT v) as [_ Dy]. unfold strncmp. rewrite Tx, Dx, Dy.
    destruct (decide (x = y)) as [->|Hne].
    + destruct (take_unit y AT v) as [-> _]. rewrite strcmp_refl.
      destruct (Ha y u) as (_ & _ & Pa); [done..|]. destruct (Hb y v) as (_ & _ & Pb); [done..|].
      destruct (strtoul16 u), (strtoul16 v). cbn in Pa, Pb |- *. by subst.
    + assert (strcmp (x ++ AT :: u) (y ++ AT :: v) = strcmp (x ++ [AT]) (y ++ [AT])) as E.
      { rewrite (cons_middle _ x u), (cons_middle _ y v), !app_assoc. rewrite strcmp_app_r, strcmp_app_l; [done|..].
        all: intros [z Hz]; rewrite <- ?app_assoc in Hz; cbn in Hz;
          apply app_inj_at in Hz as [? _]; [congruence|done|done]. }
      rewrite E. assert (strcmp (x ++ [AT]) (y ++ [AT]) <> Eq) as N1
        by (intros [? _]%strcmp_eq%app_inj_tail; done).
      assert (strcmp (x ++ [AT]) (take (S (length x)) (y ++ AT :: v)) <> Eq) as N2.
      { intros P%strcmp_eq. pose proof (take_drop (S (length x)) (y ++ AT :: v)) as Hz.
        rewrite <- P, <- app_assoc in Hz. apply app_inj_at in Hz as [? _]; [congruence|done|done]. }
      destruct (strcmp (x ++ [AT]) (take _ _)); [done|..]; destruct (strcmp (x ++ [AT]) (y ++ [AT])); done.
Qed.

(** So it is a strict order on good names. *)
Definition name_lt a b : Prop := dt_cmp_subnodes a b = Lt.

Lemma cmp_antisym a b : name_ok a -> name_ok b -> dt_cmp_subnodes b a = CompOpp (dt_cmp_subnodes a b).
Proof.
  intros Ha Hb. rewrite !cmp_lex by done. rewrite (strcmp_antisym (rep a)), (Z.compare_antisym (num a)).
  by destruct (strcmp (rep a) (rep b)).
Qed.

Lemma name_lt_trans a b x : name_ok a -> name_ok b -> name_ok x -> name_lt a b -> name_lt b x -> name_lt a x.
Proof.
  intros Ha Hb Hx. unfold name_lt. rewrite !cmp_lex by done.
  destruct (strcmp (rep a) (rep b)) eqn:E1, (strcmp (rep b) (rep x)) eqn:E2; try done.
  - apply strcmp_eq in E1 as ->. rewrite E2. rewrite !Z.compare_lt_iff. lia.
  - apply strcmp_eq in E1 as ->. by rewrite E2.
  - apply strcmp_eq in E2 as <-. by rewrite E1.
  - intros _ _. by rewrite (strcmp_trans _ _ _ E1 E2).
Qed.

Lemma name_lt_eq a b x :
  name_ok a -> name_ok b -> name_ok x -> name_lt a b -> dt_cmp_subnodes b x = Eq -> name_lt a x.
Proof.
  intros Ha Hb Hx. unfold name_lt. rewrite !cmp_lex by done.
  destruct (strcmp (rep b) (rep x)) eqn:E2; try done. apply strcmp_eq in E2 as ->.
  intros H E%Z.compare_eq. by rewrite E in H.
Qed.

Lemma name_lt_irrefl a : ~ name_lt a a.
Proof.
  unfold name_lt, dt_cmp_subnodes. destruct (get_unitname a); rewrite ?strcmp_refl; [|done].
  unfold strncmp. rewrite strcmp_refl. destruct (strtoul16 _) as [k [|]]; [|done]. by rewrite Z.compare_refl.
Qed.

(** ** Components of paths *)

Lemma skip_slash_id x : SLASH ∉ x -> skip_while (fun c => is_char c SLASH) x = x.
Proof.
  destruct x as [|c x]; [done|]. cbn. intros H. destruct (is_char c SLASH) eqn:E; [|done].
  apply is_char_spec in E as ->. destruct H. apply list_elem_of_here.
Qed.

(** The base name and the unit address of a name. *)
Definition base_unit (name : cstr) : cstr * cstr :=
  match strchr name AT with Some i => (take i name, drop (S i) name) | None => (name, []) end.

Lemma strchr_app x y c : c ∉ x -> strchr (x ++ y) c = (fun i => length x + i)%nat <$> strchr y c.
Proof.
  induction x as [|d x IH]; cbn; intros H; [by destruct (strchr y c)|].
  apply not_elem_of_cons in H as [H1 H2]. destruct (is_char d c) eqn:E; [by apply is_char_spec in E|].
  rewrite IH by done. by destruct (strchr y c).
Qed.

Definition comp_end (rest : cstr) : Prop := rest = [] \/ exists r, rest = SLASH :: r.

Lemma slash_of_comp name rest : SLASH ∉ name -> comp_end rest ->
  match strchr (name ++ rest) SLASH with Some i => i | None => length (name ++ rest) end = length name.
Proof. intros Hs [->|[r ->]]; [by rewrite app_nil_r, strchr_none|by rewrite strchr_first]. Qed.

Lemma at_of_comp name rest : comp_end rest ->
  match strchr (name ++ rest) AT with Some i => if (length name <? i)%nat then None else Some i | None => None end
  = strchr name AT.
Proof.
  intros Hr. destruct (strchr_cases name AT) as [[Na ->]|(x & u & -> & Nx & ->)].
  - rewrite strchr_app by done. destruct Hr as [->|[r ->]]; [done|]. cbn -[Nat.ltb]. destruct (strchr r AT) as [n|]; [|done]. cbn -[Nat.ltb].
    destruct (Nat.ltb_spec (length name) (length name + S n)); [done|lia].
  - rewrite <- app_assoc. cbn [app]. rewrite strchr_first, length_app by done. cbn -[Nat.ltb].
    destruct (Nat.ltb_spec (length x + S (length u)) (length x)); [lia|done].
Qed.

(** Splitting a path that begins with a good name gives its two parts. *)
Lemma split_name name rest : name_ok name -> comp_end rest ->
  __dt_path_split (name ++ rest) = (rest, (base_unit name).1, (base_unit name).2).
Proof.
  intros (Hne & Hs & Hu) Hr. unfold __dt_path_split.
  assert (skip_while (fun c => is_char c SLASH) (name ++ rest) = name ++ rest) as ->.
  { destruct name as [|c name]; [done|]. cbn. destruct (is_char c SLASH) eqn:E; [|done].
    apply is_char_spec in E as ->. destruct Hs. apply list_elem_of_here. }
  pose proof (slash_of_comp name rest Hs Hr) as Esl. pose proof (at_of_comp name rest Hr) as Eat.
  pose proof (drop_app_length name rest) as Ed.
  assert (forall i, (i <= length name)%nat -> take i (name ++ rest) = take i name) as Et
    by (intros i Hi; by rewrite take_app_le).
  assert (forall i, (i <= length name)%nat -> take (length name - i) (drop i (name ++ rest)) = drop i name) as Eu
    by (intros i Hi; rewrite drop_app_le by done; by rewrite take_app_length' by (rewrite length_drop; lia)).
  destruct (name ++ rest) as [|c l]; [by destruct name|]. rewrite Esl, Eat. unfold base_unit.
  destruct (strchr_cases name AT) as [[Na Ea]|(x & u & En & Nx & Ea)]; rewrite Ea, Ed; cbn [fst snd].
  - rewrite Et by done. by rewrite take_ge.
  - assert (length x < length name)%nat by (rewrite En, length_app; cbn; lia).
    rewrite Et by lia. replace (length name - length x - 1)%nat with (length name - S (length x))%nat by lia.
    rewrite Nat.add_1_r, Eu by lia. done.
Qed.

Lemma split_whole name : name_ok name -> __dt_path_split name = ([], (base_unit name).1, (base_unit name).2).
Proof. intros H. rewrite <- (app_nil_r name) at 1. apply split_name; [done|by left]. Qed.

Lemma split_slash p : __dt_path_split (SLASH :: p) = __dt_path_split p.
Proof. done. Qed.

Lemma base_nonempty name : name_ok name -> (base_unit name).1 <> [].
Proof.
  intros (Hne & _ & Hu). unfold base_unit.
  destruct (strchr_cases name AT) as [[_ ->]|(x & u & -> & Nx & ->)]; [done|]. cbn.
  rewrite take_app_length. by destruct (Hu x u).
Qed.

Lemma strcmp_prefix x c y : strcmp x (x ++ c :: y) = Lt.
Proof. induction x as [|d x IH]; cbn; [done|]. unfold Ascii.compare. by rewrite N.compare_refl. Qed.

(** Of sorted siblings the first that matches the components of a name is the one of that
    name: an unadorned name comes before those with a unit address. *)
Lemma matches_first a b : name_ok a -> name_ok b ->
  name_matches (base_unit a).1 (base_unit a).2 b = true -> a = b \/ name_lt a b.
Proof.
  intros Ha Hb. unfold name_matches. rewrite split_whole by done.
  pose proof (base_nonempty a Ha) as Hne. destruct Ha as (_ & _ & Hua). unfold base_unit in *.
  destruct (strchr_cases a AT) as [[Na Ea]|(x & u & -> & Nx & Ea)]; rewrite Ea in *; cbn [fst snd] in *.
  - replace (is_empty a) with false by (by destruct a). cbn [orb].
    destruct (strchr_cases b AT) as [[Nb Eb]|(y & v & -> & Ny & Eb)]; rewrite Eb; cbn [fst snd is_empty].
    + intros [H _]%andb_prop. left. by apply bool_decide_eq_true in H.
    + intros [H _]%andb_prop. apply bool_decide_eq_true in H. rewrite take_app_length in H. subst y. right.
      unfold name_lt, dt_cmp_subnodes, get_unitname. rewrite Ea. cbn. apply strcmp_prefix.
  - rewrite take_app_length in *. destruct (take_unit x AT u) as [_ ->]. destruct (Hua x u) as (_ & Hu & _); [done..|].
    replace (is_empty x) with false by (by destruct x). replace (is_empty u) with false by (by destruct u). cbn [orb].
    intros [H1 H2]%andb_prop. apply bool_decide_eq_true in H1, H2. left.
    destruct (strchr_cases b AT) as [[Nb Eb]|(y & v & -> & Ny & Eb)]; rewrite Eb in *; cbn [fst snd] in *; [done|].
    rewrite take_app_length in H1. destruct (take_unit y AT v) as [_ Ev]. rewrite Ev in H2. by subst.
Qed.

End Order.

Implicit Types (s : dstate) (t p c : nat) (m : dnode) (h : gmap nat (list mval)).

Definition sibling_lt s (a b : nat) : Prop := name_lt (name_in s a) (name_in s b).

Record shape_inv s : Prop := {
  ti_next t : is_Some (d_nodes s !! t) -> (t < d_next s)%nat;
  ti_child p m c : d_nodes s !! p = Some m -> c ∈ dn_children m ->
    exists mc, d_nodes s !! c = Some mc /\ dn_parent mc = Some p;
  ti_parent c m p : d_nodes s !! c = Some m -> dn_parent m = Some p ->
    (p < c)%nat /\ exists mp, d_nodes s !! p = Some mp /\ c ∈ dn_children mp;
  ti_sorted p m : d_nodes s !! p = Some m -> StronglySorted (sibling_lt s) (dn_children m);
  ti_name c m p : d_nodes s !! c = Some m -> dn_parent m = Some p -> name_ok (dn_name m)
}.

Record tree_inv s : Prop := {
  ti_shape :> shape_inv s;
  ti_link t m v : d_nodes s !! t = Some m -> dn_vnode m = Some v ->
    exists mv, d_nodes s !! v = Some mv /\ dn_vnode mv = Some t /\ dn_real mv = negb (dn_real m)
}.

(** ** Changes that keep the shape *)

Definition same_shape (m m' : dnode) : Prop :=
  dn_name m' = dn_name m /\ dn_parent m' = dn_parent m /\ dn_children m' = dn_children m /\ dn_real m' = dn_real m.

(** The store with [t] replaced. *)
Definition upd s t m : dstate := DState (<[t := m]> (d_nodes s)) (d_next s) (last_phandle s).

Lemma name_in_Some s t m : d_nodes s !! t = Some m -> name_in s t = dn_name m.
Proof. intros E. unfold name_in. by rewrite (lookup_total_correct _ _ _ E). Qed.

Lemma name_in_upd s t m t' : name_in (upd s t m) t' = if decide (t = t') then dn_name m else name_in s t'.
Proof. unfold name_in. cbn. rewrite lookup_total_insert. by case_decide. Qed.

Lemma sorted_ext s s' cs :
  (forall c, c ∈ cs -> name_in s' c = name_in s c) ->
  StronglySorted (sibling_lt s) cs -> StronglySorted (sibling_lt s') cs.
Proof.
  induction cs as [|c cs IH]; intros E H; [constructor|]. inversion H as [|? ? H1 H2]; subst. constructor.
  - apply IH; [|done]. intros c' Hc. apply E. by right.
  - rewrite Forall_forall in H2 |- *. intros x Hx. unfold sibling_lt in *. rewrite !E; [by apply H2|by right|by left].
Qed.

(** The nodes of the two stores have the same shape. *)
Definition shape_eq s s' : Prop :=
  d_next s' = d_next s /\ forall t, option_Forall2 same_shape (d_nodes s !! t) (d_nodes s' !! t).

Lemma shape_eq_name s s' t : shape_eq s s' -> name_in s' t = name_in s t.
Proof.
  intros [_ H]. unfold name_in, lookup_total, map_lookup_total. specialize (H t). by inversion H as [? ? (? & _)|].
Qed.

Lemma shape_eq_l s s' t m : shape_eq s s' -> d_nodes s !! t = Some m -> exists m', d_nodes s' !! t = Some m' /\ same_shape m m'.
Proof. intros [_ H] E. specialize (H t). rewrite E in H. inversion H; eauto. Qed.

Lemma shape_eq_r s s' t m : shape_eq s s' -> d_nodes s' !! t = Some m -> exists m', d_nodes s !! t = Some m' /\ same_shape m' m.
Proof. intros [_ H] E. specialize (H t). rewrite E in H. inversion H; eauto. Qed.

Lemma inv_shape s s' : shape_eq s s' -> shape_inv s -> shape_inv s'.
Proof.
  intros E I. split.
  - intros t [m Hm]. destruct (shape_eq_r _ _ _ _ E Hm) as (m' & Hm' & _). destruct E as [-> _].
    by eapply (ti_next _ I), mk_is_Some.
  - intros p m c Hp Hc. destruct (shape_eq_r _ _ _ _ E Hp) as (m' & Hm' & _ & _ & Ec & _). rewrite Ec in Hc.
    destruct (ti_child _ I _ _ _ Hm' Hc) as (mc & Hmc & Pc). destruct (shape_eq_l _ _ _ _ E Hmc) as (mc' & ? & _ & Ep & _).
    exists mc'. by rewrite Ep.
  - intros c m p Hc Hp. destruct (shape_eq_r _ _ _ _ E Hc) as (m' & Hm' & _ & Ep & _). rewrite Ep in Hp.
    destruct (ti_parent _ I _ _ _ Hm' Hp) as (Hlt & mp & Hmp & Hin). split; [done|].
    destruct (shape_eq_l _ _ _ _ E Hmp) as (mp' & ? & _ & _ & Ec & _). exists mp'. by rewrite Ec.
  - intros p m Hp. destruct (shape_eq_r _ _ _ _ E Hp) as (m' & Hm' & _ & _ & -> & _).
    eapply sorted_ext; [|exact (ti_sorted _ I _ _ Hm')]. intros c _. by apply shape_eq_name.
  - intros c m p Hc Hp. destruct (shape_eq_r _ _ _ _ E Hc) as (m' & Hm' & -> & Ep & _). rewrite Ep in Hp.
    by apply (ti_name _ I _ _ _ Hm' Hp).
Qed.

Lemma inv_shape_links s s' : shape_eq s s' ->
  (forall t, dn_vnode <$> d_nodes s' !! t = dn_vnode <$> d_nodes s !! t) -> tree_inv s -> tree_inv s'.
Proof.
  intros E Ev I. split; [exact (inv_shape _ _ E I)|]. intros t m v Ht Hv.
  destruct (shape_eq_r _ _ _ _ E Ht) as (m0 & Hm0 & _ & _ & _ & ->).
  assert (dn_vnode m0 = Some v) as Hv0 by (specialize (Ev t); rewrite Ht, Hm0 in Ev; injection Ev; congruence).
  destruct (ti_link _ I _ _ _ Hm0 Hv0) as (mv & Hmv & Lv & Rv).
  destruct (shape_eq_l _ _ _ _ E Hmv) as (mv' & Hmv' & _ & _ & _ & Er). exists mv'. rewrite Er. split_and!; try done.
  specialize (Ev v). rewrite Hmv, Hmv' in Ev. injection Ev. congruence.
Qed.

(** ** New nodes *)

Lemma inv_new s name fdt_offset real ph st ix : tree_inv s ->
  tree_inv (DState (<[d_next s := DNode name None [] None real ix st ph fdt_offset]> (d_nodes s)) (S (d_next s)) ph).
Proof.
  intros I. set (nd := DNode _ _ _ _ _ _ _ _ _).
  assert (d_nodes s !! d_next s = None) as Hf.
  { destruct (d_nodes s !! d_next s) eqn:E; [|done]. apply mk_is_Some, (ti_next _ I) in E. lia. }
  assert (forall t m, d_nodes s !! t = Some m -> <[d_next s := nd]> (d_nodes s) !! t = Some m) as Hold.
  { intros t m E. rewrite lookup_insert_ne; [done|congruence]. }
  assert (forall t m, <[d_next s := nd]> (d_nodes s) !! t = Some m -> m = nd \/ d_nodes s !! t = Some m) as Hnew.
  { intros t m E. apply lookup_insert_Some in E as [[? ?]|[? ?]]; auto. }
  split; [split|]; cbn.
  - intros t [m E]. apply lookup_insert_Some in E as [[<- ?]|[? E]]; [lia|]. apply mk_is_Some, (ti_next _ I) in E. lia.
  - intros p m c Hp Hc. apply Hnew in Hp as [->|Hp]; [by apply not_elem_of_nil in Hc|].
    destruct (ti_child _ I _ _ _ Hp Hc) as (mc & ? & ?). eauto.
  - intros c m p Hc Hp. apply Hnew in Hc as [->|Hc]; [done|]. destruct (ti_parent _ I _ _ _ Hc Hp) as (? & mp & ? & ?). eauto.
  - intros p m Hp. apply Hnew in Hp as [->|Hp]; [constructor|].
    eapply sorted_ext; [|exact (ti_sorted _ I _ _ Hp)]. intros c Hc. destruct (ti_child _ I _ _ _ Hp Hc) as (mc & Hmc & _).
    rewrite (name_in_Some s c mc Hmc). by apply name_in_Some, Hold.
  - intros c m p Hc Hp. apply Hnew in Hc as [->|Hc]; [done|]. by apply (ti_name _ I _ _ _ Hc Hp).
  - intros t m v Ht Hv. apply Hnew in Ht as [->|Ht]; [done|]. destruct (ti_link _ I _ _ _ Ht Hv) as (mv & ? & ?). eauto.
Qed.

(** ** Insertion *)

Lemma insert_child_spec (name : nat -> cstr) c cs cs' :
  name_ok (name c) -> Forall (fun d => name_ok (name d)) cs ->
  StronglySorted (fun a b => name_lt (name a) (name b)) cs -> insert_child name c cs = Some cs' ->
  StronglySorted (fun a b => name_lt (name a) (name b)) cs' /\ cs' ≡ₚ c :: cs.
Proof.
  intros Hc. revert cs'. induction cs as [|d cs IH]; cbn; intros cs' Hn Hs E.
  { injection E as <-. repeat constructor. }
  inversion Hn as [|? ? Hd Hn']; inversion Hs as [|? ? Hs' Hf]; subst.
  destruct (dt_cmp_subnodes (name d) (name c)) eqn:Ecmp; [done|..].
  - destruct (insert_child name c cs) as [cs1|]; [|done]. injection E as <-.
    destruct (IH cs1) as [S1 P1]; [done..|]. split; [constructor; [done|]|by rewrite P1, perm_swap].
    rewrite P1. by constructor.
  - injection E as <-. split; [|done].
    assert (name_lt (name c) (name d)) as Hlt by (unfold name_lt; by rewrite cmp_antisym, Ecmp).
    constructor; [done|]. constructor; [done|]. rewrite Forall_forall in Hf, Hn' |- *. intros e He.
    apply (name_lt_trans _ (name d)); auto.
Qed.

(** Insertion fails only for a duplicate. *)
Lemma insert_child_dup (name : nat -> cstr) c cs :
  name_ok (name c) -> Forall (fun d => name_ok (name d)) cs ->
  StronglySorted (fun a b => name_lt (name a) (name b)) cs ->
  is_Some (insert_child name c cs) <-> forall d, d ∈ cs -> dt_cmp_subnodes (name d) (name c) <> Eq.
Proof.
  intros Hc. induction cs as [|d cs IH]; cbn; intros Hn Hs.
  { split; [|eauto]. intros _ d Hd. by apply not_elem_of_nil in Hd. }
  inversion Hn as [|? ? Hd Hn']; inversion Hs as [|? ? Hs' Hf]; subst. specialize (IH Hn' Hs').
  destruct (dt_cmp_subnodes (name d) (name c)) eqn:E.
  - split; [by intros [? ?]|]. intros H. by destruct (H d (list_elem_of_here _ _)).
  - rewrite fmap_is_Some, IH. split; intros H e He; [|apply H; by right].
    apply elem_of_cons in He as [->|He]; [congruence|auto].
  - split; [|eauto]. intros _ e [->|He]%elem_of_cons; [congruence|]. rewrite Forall_forall in Hf, Hn'. intros Ee.
    assert (name_lt (name d) (name c)) as Hlt; [|unfold name_lt in Hlt; congruence].
    apply (name_lt_eq _ (name e)); auto.
Qed.

Lemma kids_ok s p mp : shape_inv s -> d_nodes s !! p = Some mp ->
  Forall (fun d => name_ok (name_in s d)) (dn_children mp).
Proof.
  intros I Hp. apply Forall_forall. intros d Hd. destruct (ti_child _ I _ _ _ Hp Hd) as (md & Hmd & Pd).
  rewrite (name_in_Some _ _ _ Hmd). exact (ti_name _ I _ _ _ Hmd Pd).
Qed.

Definition attached s p mp c mc cs : dstate :=
  upd (upd s p (set_children cs mp)) c (set_parent (Some p) mc).

Section Attach.
Context (s : dstate) (p c : nat) (mp mc : dnode) (cs : list nat).
Context (I : tree_inv s) (Hp : d_nodes s !! p = Some mp) (Hc : d_nodes s !! c = Some mc).
Context (Hpar : dn_parent mc = None) (Hlt : (p < c)%nat) (Hok : name_ok (dn_name mc)).
Context (Hins : insert_child (name_in s) c (dn_children mp) = Some cs).

Lemma attached_name t : name_in (attached s p mp c mc cs) t = name_in s t.
Proof.
  unfold attached. rewrite !name_in_upd. destruct (decide (c = t)) as [<-|]; [by rewrite (name_in_Some _ _ _ Hc)|].
  destruct (decide (p = t)) as [<-|]; [by rewrite (name_in_Some _ _ _ Hp)|done].
Qed.

(** The nodes afterwards. *)
Lemma attached_lookup t :
  d_nodes (attached s p mp c mc cs) !! t =
  if decide (t = c) then Some (set_parent (Some p) mc)
  else if decide (t = p) then Some (set_children cs mp) else d_nodes s !! t.
Proof.
  cbn. destruct (decide (t = c)) as [->|Hne]; [by rewrite lookup_insert_eq|]. rewrite lookup_insert_ne by done.
  destruct (decide (t = p)) as [->|]; [by rewrite lookup_insert_eq|by rewrite lookup_insert_ne].
Qed.

Lemma attached_sorted : StronglySorted (sibling_lt s) cs /\ cs ≡ₚ c :: dn_children mp.
Proof.
  apply (insert_child_spec (name_in s)); [by rewrite (name_in_Some _ _ _ Hc)| |exact (ti_sorted _ I _ _ Hp)|done].
  exact (kids_ok s p mp I Hp).
Qed.

(** Every old node is still there; only its parent or its children may have changed. *)
Lemma attached_keeps t m : d_nodes s !! t = Some m ->
  exists m', d_nodes (attached s p mp c mc cs) !! t = Some m' /\
    dn_name m' = dn_name m /\ dn_vnode m' = dn_vnode m /\ dn_real m' = dn_real m /\
    (t <> c -> dn_parent m' = dn_parent m) /\ (forall d, d ∈ dn_children m -> d ∈ dn_children m').
Proof.
  intros E. rewrite attached_lookup. destruct (decide (t = c)) as [->|]; [|destruct (decide (t = p)) as [->|]].
  - assert (m = mc) as -> by congruence. eexists. split; [done|]. split_and!; done.
  - assert (m = mp) as -> by congruence. eexists. split; [done|]. split_and!; try done. intros d Hd. cbn.
    rewrite (proj2 attached_sorted). by right.
  - exists m. split_and!; done.
Qed.

Lemma inv_attach : tree_inv (attached s p mp c mc cs).
Proof.
  destruct attached_sorted as [Hs Hperm]. assert (c <> p) by lia. split; [split|].
  - intros t [m E]. change (d_next (attached s p mp c mc cs)) with (d_next s). apply (ti_next _ I).
    rewrite attached_lookup in E. repeat case_decide; subst; eauto.
  - intros q m d Eq Hd. rewrite attached_lookup in Eq. destruct (decide (q = c)) as [->|].
    { injection Eq as <-. destruct (ti_child _ I _ _ _ Hc Hd) as (md & Hmd & Pd).
      destruct (attached_keeps _ _ Hmd) as (md' & ? & _ & _ & _ & Ep & _). exists md'. rewrite Ep; [done|].
      intros ->. congruence. }
    destruct (decide (q = p)) as [->|].
    + injection Eq as <-. cbn in Hd. rewrite Hperm in Hd. apply elem_of_cons in Hd as [->|Hd].
      { eexists. rewrite attached_lookup, decide_True by done. done. }
      destruct (ti_child _ I _ _ _ Hp Hd) as (md & Hmd & Pd).
      destruct (attached_keeps _ _ Hmd) as (md' & ? & _ & _ & _ & Ep & _). exists md'. rewrite Ep; [done|]. congruence.
    + destruct (ti_child _ I _ _ _ Eq Hd) as (md & Hmd & Pd).
      destruct (attached_keeps _ _ Hmd) as (md' & ? & _ & _ & _ & Ep & _). exists md'. rewrite Ep; [done|]. congruence.
  - intros d m q Ed Eq. rewrite attached_lookup in Ed. destruct (decide (d = c)) as [->|Hdc].
    { injection Ed as <-. injection Eq as <-. split; [done|]. exists (set_children cs mp).
      rewrite attached_lookup, decide_False, decide_True by done. split; [done|]. cbn. rewrite Hperm. by left. }
    assert (exists m0, d_nodes s !! d = Some m0 /\ dn_parent m0 = Some q) as (m0 & Hm0 & Pq).
    { destruct (decide (d = p)) as [->|]; [|eauto]. injection Ed as <-. eauto. }
    destruct (ti_parent _ I _ _ _ Hm0 Pq) as (? & mq & Hmq & Hin). split; [done|].
    destruct (attached_keeps _ _ Hmq) as (mq' & ? & _ & _ & _ & _ & Hk). eauto.
  - intros q m Eq. eapply sorted_ext; [intros; apply attached_name|]. rewrite attached_lookup in Eq.
    destruct (decide (q = c)) as [->|]; [injection Eq as <-; exact (ti_sorted _ I _ _ Hc)|].
    destruct (decide (q = p)) as [->|]; [by injection Eq as <-|]. exact (ti_sorted _ I _ _ Eq).
  - intros d m q Ed Eq. rewrite attached_lookup in Ed. destruct (decide (d = c)) as [->|]; [by injection Ed as <-|].
    destruct (decide (d = p)) as [->|]; [injection Ed as <-; exact (ti_name _ I _ _ _ Hp Eq)|].
    exact (ti_name _ I _ _ _ Ed Eq).
  - intros t m v Et Ev. assert (exists m0, d_nodes s !! t = Some m0 /\ dn_vnode m0 = Some v /\ dn_real m0 = dn_real m)
      as (m0 & Hm0 & Hv0 & <-).
    { rewrite attached_lookup in Et. destruct (decide (t = c)) as [->|]; [injection Et as <-; eauto|].
      destruct (decide (t = p)) as [->|]; [injection Et as <-; eauto|eauto]. }
    destruct (ti_link _ I _ _ _ Hm0 Hv0) as (mv & Hmv & Lv & Rv).
    destruct (attached_keeps _ _ Hmv) as (mv' & ? & _ & Ev' & Er' & _). exists mv'. by rewrite Ev', Er'.
Qed.
End Attach.

(** ** Links *)

Lemma upd_shape s t m (m' : dnode) : d_nodes s !! t = Some m -> same_shape m m' -> shape_eq s (upd s t m').
Proof.
  intros E H. split; [done|]. intros d. cbn. destruct (decide (d = t)) as [->|].
  - rewrite lookup_insert_eq, E. by constructor.
  - rewrite lookup_insert_ne by done. destruct (d_nodes s !! d); constructor. repeat split; done.
Qed.

Lemma shape_eq_trans s1 s2 s3 : shape_eq s1 s2 -> shape_eq s2 s3 -> shape_eq s1 s3.
Proof.
  intros [E1 H1] [E2 H2]. split; [congruence|]. intros t. specialize (H1 t). specialize (H2 t).
  inversion H1 as [? ? (? & ? & ? & ?) A B|A B]; rewrite <- B in H2; inversion H2 as [? ? (? & ? & ? & ?)|]; constructor.
  repeat split; congruence.
Qed.

Definition linked_up s t v mt mv : dstate := upd (upd s t (set_vnode (Some v) mt)) v (set_vnode (Some t) mv).

Lemma inv_link s t v mt mv : tree_inv s ->
  d_nodes s !! t = Some mt -> d_nodes s !! v = Some mv -> dn_real mt = true -> dn_real mv = false ->
  dn_vnode mt = None -> dn_vnode mv = None -> tree_inv (linked_up s t v mt mv).
Proof.
  intros I Ht Hv Rt Rv Lt Lv. assert (t <> v) as Hne by congruence. unfold linked_up. split.
  { apply (inv_shape s); [|exact I]. apply (shape_eq_trans _ (upd s t (set_vnode (Some v) mt))); [by apply (upd_shape _ _ mt)|].
    apply (upd_shape _ _ mv); [|done]. cbn. by rewrite lookup_insert_ne. }
  intros d m w. cbn. intros [[<- <-]|[Hd E]]%lookup_insert_Some Ew.
  - injection Ew as <-. eexists. rewrite lookup_insert_ne, lookup_insert_eq by done. split; [done|]. cbn. by rewrite Rt, Rv.
  - apply lookup_insert_Some in E as [[<- <-]|[Hd' E]].
    + injection Ew as <-. eexists. rewrite lookup_insert_eq. split; [done|]. cbn. by rewrite Rt, Rv.
    + destruct (ti_link _ I _ _ _ E Ew) as (mw & Hmw & Lw & Rw). exists mw.
      rewrite !lookup_insert_ne by congruence. done.
Qed.
