(* ===== verification/DevTreeTheorems.v ===== *)
(** * libpdbg: the guarantees of the device tree *)

From Stdlib Require Import Ascii Sorting.Sorted.
From S2P Require Import Prelude CMem Target DevTree DevTreeFacts.

(** ** libpdbg: the operations that build the tree keep its invariant *)

Implicit Types (s : dstate) (t p c n : nat) (m : dnode) (h : gmap nat (list mval)).

Lemma wp_get_dnode t m h n s Q :
  d_nodes s !! t = Some m -> Q (inr m) (World h n s) -> wp (get_dnode t) (World h n s) Q.
Proof. intros E HQ. apply wp_bind, wp_get_st. rewrite E. by apply wp_ret. Qed.

Lemma wp_put_dnode t m h n s Q : Q (inr tt) (World h n (upd s t m)) -> wp (put_dnode t m) (World h n s) Q.
Proof. intros HQ. by apply wp_bind, wp_get_st, wp_put_st. Qed.

(** Old nodes stay, with their names, parents and links. *)
Definition grows s s' : Prop :=
  (d_next s <= d_next s')%nat /\
  forall t m, d_nodes s !! t = Some m -> exists m', d_nodes s' !! t = Some m' /\
    dn_name m' = dn_name m /\ dn_vnode m' = dn_vnode m /\ dn_real m' = dn_real m /\ dn_parent m' = dn_parent m.

#[export] Instance grows_preorder : PreOrder grows.
Proof.
  split.
  - intros s. split; [done|]. intros t m E. exists m. done.
  - intros s1 s2 s3 [N1 G1] [N2 G2]. split; [lia|]. intros t m E. destruct (G1 _ _ E) as (m1 & E1 & A).
    destruct (G2 _ _ E1) as (m2 & E2 & B). exists m2. destruct_and!. split_and!; congruence.
Qed.

(** A step that goes from a good tree to a good tree that extends it. *)
Definition builds {A} (R : A -> dstate -> Prop) h n s (r : Z + A) (w : world dstate) : Prop :=
  exists a s', r = inr a /\ w = World h n s' /\ tree_inv s' /\ grows s s' /\ R a s'.

Lemma wp_new_node name fdt known h n s Q :
  tree_inv s ->
  (forall s' m, tree_inv s' -> grows s s' -> d_nodes s' !! d_next s = Some m -> dn_name m = name ->
    dn_parent m = None -> dn_vnode m = None -> (dn_real m = true -> known = true /\ fdt <> None) ->
    (d_next s < d_next s')%nat -> Q (inr (d_next s)) (World h n s')) ->
  wp (dt_new_node name fdt known) (World h n s) Q.
Proof.
  intros I HQ. unfold dt_new_node. apply wp_bind, wp_get_st, wp_bind, wp_put_st, wp_ret.
  eapply HQ; [by apply inv_new| |apply lookup_insert_eq|done|done|done| |cbn; lia].
  - split; [cbn; lia|]. intros t m E. exists m. cbn. rewrite lookup_insert_ne; [done|].
    intros <-. apply mk_is_Some, (ti_next _ I) in E. lia.
  - cbn. by destruct fdt.
Qed.

Lemma wp_attach p c mc h n s Q :
  tree_inv s -> is_Some (d_nodes s !! p) -> d_nodes s !! c = Some mc -> dn_parent mc = None -> (p < c)%nat ->
  name_ok (dn_name mc) ->
  (forall b s', tree_inv s' -> d_next s' = d_next s ->
     (b = true <-> forall d, d ∈ kids s p -> dt_cmp_subnodes (name_in s d) (dn_name mc) <> Eq) ->
     (b = true -> kids s' p ≡ₚ c :: kids s p) ->
     (forall t m, d_nodes s !! t = Some m -> exists m', d_nodes s' !! t = Some m' /\ dn_name m' = dn_name m /\
        dn_vnode m' = dn_vnode m /\ dn_real m' = dn_real m /\ (t <> c -> dn_parent m' = dn_parent m)) ->
     Q (inr b) (World h n s')) ->
  wp (dt_attach_node p c) (World h n s) Q.
Proof.
  intros I [mp Hp] Hc Hpar Hlt Hok HQ. unfold dt_attach_node.
  apply wp_bind, (wp_get_dnode c mc); [done|]. rewrite Hpar. apply wp_bind, wp_assert; [done|].
  apply wp_bind, (wp_get_dnode p mp); [done|]. apply wp_bind, wp_get_st.
  assert (forall r, insert_child (name_in s) c (dn_children mp) = r ->
    is_Some r <-> forall d, d ∈ kids s p -> dt_cmp_subnodes (name_in s d) (dn_name mc) <> Eq) as duplicates.
  { intros r <-. rewrite <- (name_in_Some _ _ _ Hc). unfold kids. rewrite (lookup_total_correct _ _ _ Hp).
    apply insert_child_dup; [by rewrite (name_in_Some _ _ _ Hc)|exact (kids_ok s p mp I Hp)|exact (ti_sorted _ I _ _ Hp)]. }
  destruct (insert_child (name_in s) c (dn_children mp)) as [cs|] eqn:E.
  - apply wp_bind, wp_put_dnode, wp_bind, (wp_get_dnode c mc); [cbn; rewrite lookup_insert_ne; [done|lia]|].
    apply wp_bind, wp_put_dnode, wp_ret. apply HQ; [by apply inv_attach|done| | |].
    { split; [intros _|done]. by apply (duplicates _ eq_refl). }
    { intros _. unfold kids. rewrite (lookup_total_correct _ _ _ Hp). cbn.
      rewrite lookup_total_insert_ne, lookup_total_insert_eq by lia. by eapply attached_sorted. }
    intros t m Et. destruct (attached_keeps s p c mp mc cs I Hp Hc Hok E t m Et) as (m' & H). exists m'. tauto.
  - apply wp_ret. apply HQ; [done|done| |done|]; [|intros t m Et; by exists m].
    split; [done|]. intros Hd. by apply (duplicates _ eq_refl) in Hd as [? ?].
Qed.

(** ** Expanding a blob *)

(** The properties the code reads have the form it expects. *)
Definition prop_ok (name : string) (data : list Z) : Prop :=
  (name = "index"%string -> (4 <= length data)%nat) /\
  (name = "status"%string ->
     exists str, data_string data = Some str /\ str ∈ ["disabled"; "mustexist"; "nonexistent"; "unknown"]%string) /\
  (name = "linux,phandle"%string \/ name = "phandle"%string -> length data = 4%nat).

Definition tag_ok (tag : fdt_tag) : Prop :=
  match tag with
  | FDT_PROP name data => prop_ok name data
  | FDT_BEGIN_NODE name => name_ok name
  | _ => True
  end.

(** A change of the other members of a node. *)
Lemma member_kept s t m m' :
  tree_inv s -> d_nodes s !! t = Some m -> same_shape m m' -> dn_vnode m' = dn_vnode m ->
  tree_inv (upd s t m') /\ grows s (upd s t m').
Proof.
  intros I Hm Hs Hv. split.
  - apply (inv_shape_links s); [by apply (upd_shape _ _ m)| |done]. intros d. cbn.
    destruct (decide (d = t)) as [->|]; [rewrite lookup_insert_eq, Hm; cbn; by rewrite Hv|by rewrite lookup_insert_ne].
  - split; [done|]. intros d m0 Hd. cbn. destruct (decide (d = t)) as [->|].
    + rewrite lookup_insert_eq. exists m'. assert (m0 = m) as -> by congruence. destruct Hs as (? & ? & ? & ?).
      split_and!; done.
    + rewrite lookup_insert_ne by done. by exists m0.
Qed.

Lemma wp_set_member (f : dnode -> dnode) t h n s Q :
  (forall m, same_shape m (f m) /\ dn_vnode (f m) = dn_vnode m) -> tree_inv s -> is_Some (d_nodes s !! t) ->
  (forall s', tree_inv s' -> grows s s' -> Q (inr tt) (World h n s')) ->
  wp (m ← get_dnode t; put_dnode t (f m)) (World h n s) Q.
Proof.
  intros Hf I [m Hm] HQ. destruct (Hf m) as [Hs Hv]. apply wp_bind, (wp_get_dnode t m); [done|]. apply wp_put_dnode.
  destruct (member_kept s t m (f m)) as [I' G]; auto.
Qed.

Lemma phandle_kept s ph : tree_inv s -> tree_inv (DState (d_nodes s) (d_next s) ph) /\ grows s (DState (d_nodes s) (d_next s) ph).
Proof.
  intros I. split; [|split; [done|]; intros t m E; by exists m].
  apply (inv_shape_links s); [|done|done]. split; [done|]. intros t. cbn. destruct (d_nodes s !! t); by constructor.
Qed.

Lemma grows_has s s' t : grows s s' -> is_Some (d_nodes s !! t) -> is_Some (d_nodes s' !! t).
Proof. intros [_ G] [m E]. destruct (G _ _ E) as (m' & ? & _). eauto. Qed.

Lemma wp_add_phandle t name data h n s Q :
  tree_inv s -> is_Some (d_nodes s !! t) -> prop_ok name data ->
  (forall s', tree_inv s' -> grows s s' -> Q (inr tt) (World h n s')) ->
  wp (dt_add_phandle t name data) (World h n s) Q.
Proof.
  intros I [m Hm] (_ & _ & Hp) HQ. unfold dt_add_phandle.
  destruct (bool_decide _ || bool_decide _) eqn:E; [|apply wp_ret; by apply HQ].
  rewrite Hp by (apply orb_prop in E as [E|E]; apply bool_decide_eq_true in E; auto).
  apply wp_bind, wp_assert; [done|]. apply wp_bind, (wp_get_dnode t m); [done|].
  apply wp_bind, wp_put_dnode, wp_bind, wp_get_st. set (ph := be_val _).
  destruct (member_kept s t m (set_phandle ph m)) as [I1 G1]; [done..|].
  destruct (_ <=? _); [|apply wp_ret; by apply HQ]. apply wp_put_st.
  destruct (phandle_kept _ ph I1) as [I2 G2]. apply HQ; [done|by etrans].
Qed.

Lemma wp_expand_prop t name data h n s Q :
  tree_inv s -> is_Some (d_nodes s !! t) -> prop_ok name data ->
  (forall s', tree_inv s' -> grows s s' -> Q (inr tt) (World h n s')) ->
  wp (expand_prop t name data) (World h n s) Q.
Proof.
  intros I Ht Hp HQ. unfold expand_prop. pose proof Hp as (Hi & Hst & _). apply wp_bind.
  assert (forall s1, tree_inv s1 -> grows s s1 ->
    wp ((if bool_decide (name = "status"%string) then
           match data_string data with
           | None => crash OutOfBounds
           | Some str => st ← str_to_status str; m ← get_dnode t; put_dnode t (set_node_status st m)
           end
         else mret tt);; dt_add_phandle t name data) (World h n s1) Q) as Hrest.
  { intros s1 I1 G1. apply wp_bind. assert (forall s2, tree_inv s2 -> grows s s2 ->
      wp (dt_add_phandle t name data) (World h n s2) Q) as Hlast.
    { intros s2 I2 G2. apply wp_add_phandle; [done|by eapply grows_has|done|].
      intros s3 I3 G3. apply HQ; [done|by etrans]. }
    destruct (bool_decide (name = "status"%string)) eqn:Es; [|by apply wp_ret, Hlast].
    apply bool_decide_eq_true in Es. destruct (Hst Es) as (str & -> & Hin).
    apply wp_bind. assert (exists st, str_to_status str = mret st) as [st ->].
    { rewrite !elem_of_cons, elem_of_nil in Hin. destruct Hin as [->|[->|[->|[->|[]]]]]; eexists; reflexivity. }
    apply wp_ret, wp_set_member; [done|done|by eapply grows_has|]. intros s2 I2 G2. apply Hlast; [done|by etrans]. }
  destruct (bool_decide (name = "index"%string)) eqn:Ei; [|by apply wp_ret, Hrest]. apply bool_decide_eq_true in Ei.
  destruct (Nat.ltb_spec (length data) 4); [specialize (Hi Ei); lia|].
  apply wp_set_member; [done|done|done|]. intros s1 I1 G1. by apply Hrest.
Qed.

Section Expansion.
Context (fdt : list fdt_tag) (known : nat -> bool) (Htags : Forall tag_ok (tail fdt)).

Lemma tag_at_ok o : (0 < o)%nat -> tag_ok (tag_at fdt o).
Proof.
  intros Ho. unfold tag_at. destruct (fdt !! o) eqn:E; [|done]. destruct o as [|o]; [lia|].
  eapply (proj1 (Forall_lookup _ _) Htags o). by destruct fdt.
Qed.

Lemma tag_at_end o : (length fdt <= o)%nat -> tag_at fdt o = FDT_END.
Proof. intros H. unfold tag_at. by rewrite lookup_ge_None_2. Qed.

Lemma wp_expand_loop fuel t o h n s Q :
  (length fdt < fuel + o)%nat -> (0 < fuel)%nat -> (0 < o)%nat -> tree_inv s -> is_Some (d_nodes s !! t) ->
  (forall r s', tree_inv s' -> grows s s' -> (forall o', r = Some o' -> (o < o')%nat) -> Q (inr r) (World h n s')) ->
  wp (expand_loop fdt known fuel t o) (World h n s) Q.
Proof.
  revert t o s Q. induction fuel as [|fuel IH]; intros t o s Q Hf Hf0 Ho0 I Ht HQ; [lia|]. cbn [expand_loop].
  assert (tag_at fdt o = FDT_END \/ (o < length fdt)%nat) as [Hend|Hin].
  { destruct (decide (length fdt <= o)%nat); [left; by apply tag_at_end|right; lia]. }
  { rewrite Hend. apply wp_ret, HQ; [done|done|done]. }
  assert (forall s1, tree_inv s1 -> grows s s1 -> wp (expand_loop fdt known fuel t (S o)) (World h n s1) Q) as Hnext.
  { intros s1 I1 G1. apply IH; [lia|lia|lia|done|by eapply grows_has|].
    intros r s2 I2 G2 Ho. apply HQ; [done|by etrans|]. intros o' E. specialize (Ho o' E). lia. }
  pose proof (tag_at_ok o Ho0) as Hok. destruct (tag_at fdt o) as [name data|name| | |] eqn:Etag.
  - apply wp_bind, wp_expand_prop; [done..|]. apply Hnext.
  - apply wp_bind, wp_new_node; [done|]. intros s1 mc I1 G1 Hc En Ep Ev _ Hlt.
    apply wp_bind, IH; [lia|lia|lia|done|by eexists|]. intros r s2 I2 G2 Hr.
    destruct (proj2 G2 _ _ Hc) as (mc2 & Hc2 & En2 & _ & _ & Ep2).
    apply wp_bind, (wp_attach _ _ mc2); [done| |done|congruence| |by rewrite En2, En|].
    { eapply grows_has; [|exact Ht]. by etrans. }
    { by apply (ti_next _ I). }
    intros b s3 I3 En3 _ _ G3. assert (grows s s3) as G.
    { split; [destruct G1 as [? _], G2 as [? _]; lia|]. intros d m Hd. assert (grows s s2) as [_ G] by (by etrans).
      destruct (G _ _ Hd) as (m2 & Hm2 & ? & ? & ? & ?). destruct (G3 _ _ Hm2) as (m3 & Hm3 & ? & ? & ? & Hp).
      exists m3. assert (d <> d_next s) by (pose proof (ti_next _ I d (mk_is_Some _ _ Hd)); lia).
      specialize (Hp ltac:(done)). split_and!; congruence. }
    destruct r as [o'|]; [|apply wp_ret, HQ; done]. specialize (Hr o' eq_refl).
    apply IH; [lia|lia|lia|done|by eapply grows_has|]. intros r s4 I4 G4 Ho. apply HQ; [done|by etrans|].
    intros o2 E. specialize (Ho o2 E). lia.
  - apply wp_ret, HQ; [done|done|]. intros o' [= <-]. lia.
  - by apply Hnext.
  - apply wp_ret, HQ; done.
Qed.

Lemma wp_expand_node t h n s :
  tree_inv s -> is_Some (d_nodes s !! t) ->
  wp (dt_expand_node fdt known t 0) (World h n s) (builds (fun _ _ => True) h n s).
Proof.
  intros I Ht. unfold dt_expand_node. destruct (tag_at fdt 0).
  2: { apply wp_expand_loop; [lia|lia|lia|done|done|]. intros r s' I' G _. exists r, s'. done. }
  all: apply wp_ret; exists None, s; done.
Qed.
End Expansion.

(** ** Virtual nodes *)

Lemma kids_has s t c : tree_inv s -> c ∈ kids s t -> is_Some (d_nodes s !! c).
Proof.
  intros I. unfold kids, lookup_total, map_lookup_total. destruct (d_nodes s !! t) as [m|] eqn:E; cbn.
  - intros Hc. destruct (ti_child _ I _ _ _ E Hc) as (mc & ? & _). eauto.
  - by intros ?%not_elem_of_nil.
Qed.

Lemma link_has s t v : tree_inv s -> link s t = Some v -> is_Some (d_nodes s !! v).
Proof.
  intros I. unfold link, lookup_total, map_lookup_total. destruct (d_nodes s !! t) as [m|] eqn:E; cbn; [|done].
  intros Hv. destruct (ti_link _ I _ _ _ E Hv) as (mv & ? & _). eauto.
Qed.

Lemma find_child_in s pn pa cs c : find_child s pn pa cs = Some c -> c ∈ cs.
Proof.
  induction cs as [|d cs IH]; cbn; [done|]. destruct (name_matches _ _ _); [intros [= <-]; by left|].
  intros E. right. auto.
Qed.

Lemma to_real_has s t : tree_inv s -> is_Some (d_nodes s !! t) -> is_Some (d_nodes s !! to_real s t).
Proof.
  intros I H. unfold to_real. destruct (link s t) as [v|] eqn:E; [|done]. destruct (negb _); [|done].
  by eapply link_has.
Qed.

(** A virtual node that a search returns is not linked. *)
Lemma to_real_unlinked s t m : tree_inv s -> d_nodes s !! to_real s t = Some m -> dn_real m = false -> dn_vnode m = None.
Proof.
  intros I E R. destruct (dn_vnode m) as [v|] eqn:Ev; [|done]. unfold to_real, link in E.
  destruct (d_nodes s !! t) as [mt|] eqn:Et; unfold lookup_total, map_lookup_total in E; rewrite Et in E; cbn in E; [|congruence].
  destruct (dn_vnode mt) as [v'|] eqn:Ev'; [|congruence].
  destruct (dn_real mt) eqn:Rt; cbn in E; [congruence|].
  destruct (ti_link _ I _ _ _ Et Ev') as (mv & Hmv & _ & Rv). rewrite Rt in Rv. cbn in Rv. congruence.
Qed.

Lemma find_is_real s fuel root (p : cstr) t : tree_inv s -> is_Some (d_nodes s !! root) ->
  dt_find_loop s fuel root p = Some t -> exists t0, t = to_real s t0 /\ is_Some (d_nodes s !! t0).
Proof.
  intros I. revert root p. induction fuel as [|fuel IH]; intros root [|ch p] Hr; cbn [dt_find_loop].
  1,3: intros [= <-]; eauto.
  - done.
  - destruct (__dt_path_split (ch :: p)) as [[rest pn] pa]. destruct (is_empty pn && is_empty pa); [intros [= <-]; eauto|].
    destruct (find_child s pn pa (kids s root)) as [c|] eqn:Ec.
    { apply IH. eapply kids_has; [done|]. by eapply find_child_in. }
    destruct (link s root) as [v|] eqn:Ev; [|done]. cbn. destruct (find_child s pn pa (kids s v)) as [c|] eqn:Ec'; [|done].
    cbn. apply IH. eapply kids_has; [done|]. by eapply find_child_in.
Qed.

Lemma find_has s root (p : cstr) t : tree_inv s -> is_Some (d_nodes s !! root) ->
  dt_find_by_path s root p = Some t ->
  exists m, d_nodes s !! t = Some m /\ (dn_real m = false -> dn_vnode m = None).
Proof.
  intros I Hr E. destruct (find_is_real _ _ _ _ _ I Hr E) as (t0 & -> & H0).
  destruct (to_real_has _ _ I H0) as [m Hm]. exists m. split; [done|]. by apply (to_real_unlinked s t0).
Qed.

(** The name of a virtual node that would be made for a path. *)
Definition last_name (path : cstr) : cstr :=
  match strrchr path "/" with Some i => drop (i + 1) path | None => [] end.

Definition fresh_virtual s (v : option nat) s' : Prop :=
  forall t, v = Some t -> exists m, d_nodes s' !! t = Some m /\ dn_real m = false /\ dn_vnode m = None.

Lemma wp_new_virtual root path h n s :
  tree_inv s -> is_Some (d_nodes s !! root) -> name_ok (last_name path) ->
  wp (dt_new_virtual root path) (World h n s) (builds (fresh_virtual s) h n s).
Proof.
  intros I Hr Hn. unfold dt_new_virtual. unfold last_name in Hn.
  destruct (strrchr path "/") as [i|]; [|apply wp_ret; by exists None, s].
  destruct (is_empty _); [apply wp_ret; by exists None, s|]. apply wp_bind, wp_get_st.
  destruct (dt_find_by_path s root (take i path)) as [par|] eqn:E; [|apply wp_ret; by exists None, s].
  destruct (find_has _ _ _ _ I Hr E) as (mpar & Hpar & _).
  apply wp_bind, wp_new_node; [done|]. intros s1 m I1 G1 Hm En Ep Ev Er Hlt.
  apply wp_bind, (wp_attach _ _ m); [done| |done|done| |by rewrite En|].
  { eapply grows_has; [done|]. by eexists. }
  { apply (ti_next _ I). by eexists. }
  intros b s2 I2 En2 _ _ G2. apply wp_ret. exists (if b then Some (d_next s) else None), s2. split_and!; try done.
  - split; [destruct G1; lia|]. intros d md Hd. destruct (proj2 G1 _ _ Hd) as (m1 & Hm1 & ? & ? & ? & ?).
    destruct (G2 _ _ Hm1) as (m2 & Hm2 & ? & ? & ? & Hp). exists m2.
    assert (d <> d_next s) by (pose proof (ti_next _ I d (mk_is_Some _ _ Hd)); lia).
    specialize (Hp ltac:(done)). split_and!; congruence.
  - intros t Ht. destruct b; [|done]. injection Ht as <-. destruct (G2 _ _ Hm) as (m2 & Hm2 & _ & Ev2 & Er2 & _).
    exists m2. split_and!; [done| |congruence]. rewrite Er2. destruct (dn_real m) eqn:R; [|done]. by destruct (Er eq_refl).
Qed.

Lemma wp_link_virtual t v mt mv h n s :
  tree_inv s -> d_nodes s !! t = Some mt -> d_nodes s !! v = Some mv -> dn_real mt = true -> dn_real mv = false ->
  dn_vnode mt = None -> dn_vnode mv = None ->
  wp (dt_link_virtual t v) (World h n s) (fun r w => r = inr tt /\ exists s', w = World h n s' /\ tree_inv s').
Proof.
  intros I Ht Hv Rt Rv Lt Lv. unfold dt_link_virtual.
  apply wp_bind, (wp_get_dnode t mt); [done|]. apply wp_bind, wp_put_dnode.
  apply wp_bind, (wp_get_dnode v mv); [cbn; rewrite lookup_insert_ne; [done|congruence]|].
  apply wp_put_dnode. split; [done|]. eexists. split; [done|]. by apply inv_link.
Qed.

Lemma wp_init_virtual_node t root path h n s m :
  tree_inv s -> d_nodes s !! t = Some m -> (dn_real m = true -> dn_vnode m = None) ->
  is_Some (d_nodes s !! root) -> (forall sp, path = Some sp -> name_ok (last_name sp)) ->
  wp (init_virtual_node t root path) (World h n s)
     (fun r w => r = inr tt /\ exists s', w = World h n s' /\ tree_inv s').
Proof.
  intros I Ht Lt Hr Hp. unfold init_virtual_node. apply wp_bind, (wp_get_dnode t m); [done|].
  destruct (dn_real m) eqn:Rm; cbn [negb]; [|apply wp_ret; eauto]. specialize (Lt eq_refl).
  destruct path as [path|]; [|apply wp_ret; eauto]. specialize (Hp _ eq_refl).
  apply wp_bind, wp_get_st, wp_bind.
  (* whichever way the virtual node was found, it can be linked *)
  assert (forall v s1, tree_inv s1 -> grows s s1 ->
    (forall t', v = Some t' -> exists m', d_nodes s1 !! t' = Some m' /\ (dn_real m' = false -> dn_vnode m' = None)) ->
    wp (match v with
        | None => mret tt
        | Some v =>
            vn ← get_dnode v;
            if negb (dn_real vn) then
              c_assert (match dn_vnode vn with None => true | Some _ => false end);; dt_link_virtual t v
            else mret tt
        end) (World h n s1) (fun r w => r = inr tt /\ exists s', w = World h n s' /\ tree_inv s')) as Hlink.
  { intros [v|] s1 I1 G1 Hv; [|apply wp_ret; eauto]. destruct (Hv v eq_refl) as (mv & Hmv & Lv).
    apply wp_bind, (wp_get_dnode v mv); [done|]. destruct (dn_real mv) eqn:Rv; cbn [negb]; [apply wp_ret; eauto|].
    rewrite (Lv eq_refl). apply wp_bind, wp_assert; [done|]. destruct (proj2 G1 _ _ Ht) as (mt & Hmt & _ & ? & ? & _).
    eapply wp_link_virtual; eauto; congruence. }
  destruct (dt_find_by_path s root path) as [v|] eqn:E.
  - apply wp_ret. apply (Hlink (Some v)); [done|done|]. intros t' [= <-]. by eapply find_has.
  - eapply wp_mono; [by apply wp_new_virtual|]. intros r w (v & s1 & -> & -> & I1 & G1 & F). 
    apply (Hlink v); [done|done|]. intros t' E'. destruct (F t' E') as (m' & ? & ? & ?). eauto.
Qed.


(** ** Building *)

(** C34. The operations that build the tree keep it well formed, and do not fail: parents and
    children agree, siblings stay sorted by name and number and have different names, links go
    both ways. Names are well formed: a unit address, if there is one, is a hexadecimal number
    ([name_ok]). A new node is added; attaching a new node fails exactly when a sibling has the
    same name; expanding a blob whose tags are well formed ends and keeps all nodes that were
    there; giving a real node its virtual node ends without the failure of an assertion. *)
Theorem tree_kept_well_formed s h n root :
  tree_inv s -> is_Some (d_nodes s !! root) ->
  (forall name fdt known,
     wp (dt_new_node name fdt known) (World h n s)
        (builds (fun t s' => t = d_next s /\ name_in s' t = name) h n s)) /\
  (forall c mc, d_nodes s !! c = Some mc -> dn_parent mc = None -> (root < c)%nat -> name_ok (dn_name mc) ->
     wp (dt_attach_node root c) (World h n s) (fun r w => exists b s', r = inr b /\ w = World h n s' /\ tree_inv s' /\
       (b = true <-> forall d, d ∈ kids s root -> dt_cmp_subnodes (name_in s d) (dn_name mc) <> Eq) /\
       (b = true -> kids s' root ≡ₚ c :: kids s root))) /\
  (forall fdt known, Forall tag_ok (tail fdt) ->
     wp (dt_expand_node fdt known root 0) (World h n s) (builds (fun _ _ => True) h n s)) /\
  (forall t m path, d_nodes s !! t = Some m -> (dn_real m = true -> dn_vnode m = None) ->
     (forall sp, path = Some sp -> name_ok (last_name sp)) ->
     wp (init_virtual_node t root path) (World h n s)
        (fun r w => r = inr tt /\ exists s', w = World h n s' /\ tree_inv s')).
Proof.
  intros I Hr. split_and!.
  - intros name fdt known. apply wp_new_node; [done|]. intros s' m I' G Hm En _ _ _ _.
    exists (d_next s), s'. split_and!; try done. by rewrite (name_in_Some _ _ _ Hm).
  - intros c mc Hc Hp Hlt Hok. apply (wp_attach _ _ mc); [done..|]. intros b s' I' _ Hb Hk _. exists b, s'. done.
  - intros fdt known Ht. by apply wp_expand_node.
  - intros t m path Ht Hl Hp. by apply (wp_init_virtual_node _ _ _ _ _ _ m).
Qed.

(** ** Paths *)

Lemma self_match a : name_ok a -> name_matches (base_unit a).1 (base_unit a).2 a = true.
Proof.
  intros H. unfold name_matches. rewrite split_whole by done.
  unfold cstr_eqb. by rewrite !bool_decide_eq_true_2, !orb_true_r by done.
Qed.

(** Among sorted siblings the components of a name find its node. *)
Lemma find_child_sorted s cs c :
  Forall (fun d => name_ok (name_in s d)) cs -> StronglySorted (sibling_lt s) cs -> c ∈ cs ->
  find_child s (base_unit (name_in s c)).1 (base_unit (name_in s c)).2 cs = Some c.
Proof.
  induction cs as [|d cs IH]; intros Hn Hs Hc; [by apply not_elem_of_nil in Hc|]. cbn [find_child].
  inversion Hn as [|? ? Hd Hn']; inversion Hs as [|? ? Hs' Hf]; subst.
  apply elem_of_cons in Hc as [->|Hc]; [by rewrite self_match|].
  rewrite Forall_forall in Hf. pose proof (Hf c Hc) as Hlt. unfold sibling_lt in Hlt.
  assert (name_ok (name_in s c)) as Hok by (by apply (proj1 (Forall_forall _ _) Hn')).
  destruct (name_matches _ _ (name_in s d)) eqn:E; [|by apply IH].
  apply matches_first in E as [E|E]; [| |done|done].
  - rewrite E in Hlt. by apply name_lt_irrefl in Hlt.
  - destruct (name_lt_irrefl (name_in s d)). by apply (name_lt_trans _ (name_in s c)).
Qed.

Lemma find_child_none s pn pa cs :
  (forall c, c ∈ cs -> name_matches pn pa (name_in s c) = false) -> find_child s pn pa cs = None.
Proof.
  induction cs as [|d cs IH]; intros H; cbn; [done|]. rewrite H by (by left). apply IH. intros c Hc. apply H. by right.
Qed.

(** The way from [root] down to [t] in the system tree, with the names on it. *)
Inductive chain s (root : nat) : nat -> list cstr -> Prop :=
| chain_root : chain s root root []
| chain_step t p names :
    dn_parent (d_nodes s !!! to_virtual s t) = Some p -> chain s root p names ->
    chain s root t (names ++ [name_in s (to_virtual s t)]).

Record good_root s (root : nat) : Prop := {
  gr_name : name_in s root = [];
  gr_parent : dn_parent (d_nodes s !!! root) = None;
  gr_link : link s root = None }.

(** No child of a virtual node hides a child of the node it is linked to. *)
Definition links_clear s : Prop := forall q p c d,
  link s q = Some p -> c ∈ kids s q -> d ∈ kids s p ->
  name_matches (base_unit (name_in s d)).1 (base_unit (name_in s d)).2 (name_in s c) = false.

Definition path_of (names : list cstr) : cstr := concat (cons SLASH <$> names).

Lemma path_of_snoc names a : path_of (names ++ [a]) = path_of names ++ SLASH :: a.
Proof. unfold path_of. rewrite fmap_app, concat_app. cbn. by rewrite app_nil_r. Qed.

Section Paths.
Context (s : dstate) (root : nat) (I : tree_inv s) (R : good_root s root) (C : links_clear s).

Lemma parent_of t p : dn_parent (d_nodes s !!! t) = Some p ->
  (t ∈ kids s p) /\ name_ok (name_in s t) /\ exists mp, d_nodes s !! p = Some mp.
Proof.
  unfold name_in, kids, lookup_total, map_lookup_total. destruct (d_nodes s !! t) as [m|] eqn:E; cbn; [|done]. intros Hp.
  destruct (ti_parent _ I _ _ _ E Hp) as (_ & mp & Hmp & Hin). rewrite Hmp. cbn. split_and!; [done| |eauto].
  exact (ti_name _ I _ _ _ E Hp).
Qed.

Lemma find_among_kids t p : dn_parent (d_nodes s !!! t) = Some p ->
  find_child s (base_unit (name_in s t)).1 (base_unit (name_in s t)).2 (kids s p) = Some t.
Proof.
  intros Hp. destruct (parent_of t p Hp) as (Hin & _ & mp & Hmp). revert Hin. unfold kids.
  rewrite (lookup_total_correct _ _ _ Hmp). apply find_child_sorted; [exact (kids_ok _ _ _ I Hmp)|exact (ti_sorted _ I _ _ Hmp)].
Qed.

(** The link of the virtual node of a real one leads back. *)
Lemma to_virtual_link p : to_virtual s p <> p -> link s (to_virtual s p) = Some p.
Proof.
  unfold to_virtual, link, lookup_total, map_lookup_total. destruct (d_nodes s !! p) as [m|] eqn:E; cbn; [|done].
  destruct (dn_vnode m) as [v|] eqn:Ev; [|done]. destruct (dn_real m); [|done]. intros _.
  destruct (ti_link _ I _ _ _ E Ev) as (mv & Hmv & Lv & _). by rewrite Hmv.
Qed.

(** One component of a path. *)
Lemma find_step fuel t p rest :
  dn_parent (d_nodes s !!! t) = Some p -> comp_end rest ->
  dt_find_loop s (S fuel) (to_virtual s p) (SLASH :: name_in s t ++ rest) = dt_find_loop s fuel t rest.
Proof.
  intros Hp He. destruct (parent_of t p Hp) as (Hin & Hok & _). cbn [dt_find_loop].
  rewrite split_slash, split_name by done.
  replace (is_empty (base_unit (name_in s t)).1) with false
    by (pose proof (base_nonempty _ Hok); by destruct (base_unit (name_in s t)).1).
  cbn [andb]. destruct (decide (to_virtual s p = p)) as [->|Hne]; [by rewrite find_among_kids|].
  pose proof (to_virtual_link p Hne) as Hl.
  rewrite find_child_none by (intros c Hc; exact (C _ _ _ _ Hl Hc Hin)).
  rewrite Hl. cbn. by rewrite find_among_kids.
Qed.

Lemma root_virtual : to_virtual s root = root.
Proof. unfold to_virtual. by rewrite (gr_link _ _ R). Qed.

Lemma find_chain t names : chain s root t names -> forall rest fuel, comp_end rest ->
  (length (path_of names ++ rest) <= fuel)%nat ->
  exists fuel', (length rest <= fuel')%nat /\
    dt_find_loop s fuel root (path_of names ++ rest) = dt_find_loop s fuel' (to_virtual s t) rest.
Proof.
  induction 1 as [|t p names Hp Hc IH]; intros rest fuel He Hf.
  { exists fuel. rewrite root_virtual. done. }
  rewrite path_of_snoc, <- app_assoc in *. cbn [app] in *.
  destruct (IH (SLASH :: name_in s (to_virtual s t) ++ rest) fuel) as (fuel' & Hf' & ->); [right; eauto|done|].
  cbn [length] in Hf'. destruct fuel' as [|fuel']; [lia|]. rewrite length_app in Hf'.
  exists fuel'. split; [lia|]. by apply find_step.
Qed.

Lemma to_real_virtual t : to_real s (to_virtual s t) = to_real s t.
Proof.
  destruct (decide (to_virtual s t = t)) as [->|Hne]; [done|]. pose proof (to_virtual_link t Hne) as Hl.
  unfold to_real at 1. rewrite Hl. revert Hl. unfold to_virtual, to_real, link, lookup_total, map_lookup_total in *.
  destruct (d_nodes s !! t) as [m|] eqn:E; cbn in *; [|done]. destruct (dn_vnode m) as [v|] eqn:Ev; [|done].
  destruct (dn_real m) eqn:Rm; [|done]. destruct (ti_link _ I _ _ _ E Ev) as (mv & Hmv & _ & Rv). rewrite Hmv. cbn. by rewrite Rv, Rm.
Qed.

(** The two loops of [dt_get_path] over a chain. *)
Lemma path_fill_chain t names node : chain s root t names -> node <> root ->
  forall acc fuel, (length names < fuel)%nat ->
  path_fill s fuel node (Some t) acc = mret (path_of names ++ acc).
Proof.
  intros Hc Hne. induction Hc as [|t p names Hp Hc IH]; intros acc [|fuel] Hf; [lia| |lia|]; cbn [path_fill].
  - rewrite root_virtual, (gr_name _ _ R), (gr_parent _ _ R). unfold has_parent. rewrite (gr_parent _ _ R).
    destruct (Nat.eqb_spec root node); [done|]. by destruct fuel.
  - unfold has_parent. rewrite Hp. cbn [orb]. rewrite length_app in Hf. cbn in Hf. rewrite IH by lia.
    rewrite path_of_snoc, <- app_assoc. done.
Qed.

Lemma path_len_chain t names node : chain s root t names -> node <> root ->
  forall len fuel, (length names < fuel)%nat ->
  path_len s fuel node (Some t) len = mret (len + length (path_of names))%nat.
Proof.
  intros Hc Hne. induction Hc as [|t p names Hp Hc IH]; intros len [|fuel] Hf; [lia| |lia|]; cbn [path_len].
  - rewrite root_virtual, (gr_name _ _ R), (gr_parent _ _ R). unfold has_parent. rewrite (gr_parent _ _ R).
    destruct (Nat.eqb_spec root node); [done|]. by destruct fuel.
  - unfold has_parent. rewrite Hp. cbn [orb]. rewrite length_app in Hf. cbn in Hf. rewrite IH by lia.
    rewrite path_of_snoc, length_app. cbn [length]. f_equal. lia.
Qed.

Lemma wp_get_path t names fuel h n : chain s root t names -> (length names < fuel)%nat ->
  wp (dt_get_path fuel t) (World h n s)
     (fun r w => r = inr (if Nat.eqb t root then [SLASH] else path_of names) /\ w = World h n s).
Proof.
  intros Hc Hf. unfold dt_get_path. apply wp_bind, wp_get_st. destruct (Nat.eqb_spec t root) as [->|Hne].
  - destruct fuel as [|fuel]; [lia|]. cbn [path_len path_fill].
    rewrite root_virtual, (gr_name _ _ R), (gr_parent _ _ R), Nat.eqb_refl, orb_true_r. by destruct fuel.
  - rewrite (path_len_chain t names), (path_fill_chain t names) by done. rewrite app_nil_r.
    apply wp_bind, wp_ret, wp_bind, wp_ret, wp_bind, wp_assert; [apply Nat.eqb_refl|by apply wp_ret].
Qed.
End Paths.

(** C35. The path of a node leads back to it: in a well-formed tree, for a node that hangs below
    the root (through links to virtual nodes where there are some), [dt_get_path] ends and
    gives its path, and [dt_find_by_path] finds for that path the node, or the real node
    linked to it. A name without unit address finds its node and not a sibling with one,
    because siblings are sorted. *)
Theorem path_roundtrip s root t names fuel h n :
  tree_inv s -> good_root s root -> links_clear s -> chain s root t names -> (length names < fuel)%nat ->
  exists path,
    wp (dt_get_path fuel t) (World h n s) (fun r w => r = inr path /\ w = World h n s) /\
    dt_find_by_path s root path = Some (to_real s t).
Proof.
  intros I R C Hc Hf. eexists. split; [by apply (wp_get_path s root R t names)|].
  destruct (Nat.eqb_spec t root) as [->|Hne]; [done|]. unfold dt_find_by_path.
  destruct (find_chain s root I R C t names Hc [] (length (path_of names))) as (fuel' & _ & E);
    [by left|by rewrite app_nil_r|].
  rewrite app_nil_r in E. rewrite E. destruct fuel'; cbn; by rewrite to_real_virtual.
Qed.

(** ** The theorems at work

    A chip found over FSI that is also the processor [proc] of the system: node 1 is linked to
    the virtual node 3. *)

Definition name_okb (name : cstr) : bool :=
  negb (is_empty name) && bool_decide (strchr name SLASH = None) &&
  match strchr name AT with
  | None => true
  | Some i => negb (Nat.eqb i 0) && negb (is_empty (drop (S i) name)) && is_empty (strtoul16 (drop (S i) name)).2
  end.

Lemma name_okb_ok name : name_okb name = true -> name_ok name.
Proof.
  unfold name_okb. intros [[H1 H2]%andb_prop H3]%andb_prop. apply bool_decide_eq_true in H2. split_and!.
  - by intros ->.
  - intros Hin. destruct (strchr_cases name SLASH) as [[? _]|(y & z & _ & _ & E)]; [done|]. congruence.
  - intros b u -> Hb. rewrite strchr_first in H3 by done. destruct (take_unit b AT u) as [_ E]. rewrite E in H3.
    apply andb_prop in H3 as [[H3 H4]%andb_prop H5]. split_and!; [by intros ->|by intros ->|].
    by destruct (strtoul16 u).2.
Qed.

Definition cs (x : string) : cstr := String.list_ascii_of_string x.

Definition plain (name : string) (par : option nat) (kids : list nat) (v : option nat) (real : bool) : dnode :=
  DNode (cs name) par kids v real 0 PDBG_TARGET_UNKNOWN 0 0.

Definition chip_store : dstate :=
  DState (<[0%nat := plain "" None [1; 3]%nat None true]>
         (<[1%nat := plain "fsi@0" (Some 0%nat) [2; 4]%nat (Some 3%nat) true]>
         (<[2%nat := plain "core@9" (Some 1%nat) [] None true]>
         (<[3%nat := plain "proc" (Some 0%nat) [] (Some 1%nat) false]>
         (<[4%nat := plain "core@10" (Some 1%nat) [] None true]> ∅))))) 5 0.

Ltac store_cases H :=
  repeat (apply lookup_insert_Some in H as [[? ?]|[? H]]); [..|by rewrite lookup_empty in H]; subst.
Ltac list_cases H := rewrite ?elem_of_cons, ?elem_of_nil in H; destruct_or!; try done; subst.

Lemma chip_inv : tree_inv chip_store.
Proof.
  split; [split|]; cbn [d_nodes d_next chip_store].
  - intros t [m H]. store_cases H; lia.
  - intros p m c H Hc. store_cases H; cbn in Hc; list_cases Hc; by eexists.
  - intros c m p H Hp. store_cases H; cbn in Hp; simplify_eq; split; try lia; eexists; (split; [reflexivity|]); set_solver.
  - intros p m H. store_cases H; repeat constructor.
  - intros c m p H Hp. store_cases H; cbn in Hp; simplify_eq; by apply name_okb_ok.
  - intros t m v H Hv. store_cases H; cbn in Hv; simplify_eq; by eexists.
Qed.

Lemma tree_kept_well_formed_witness :
  wp (dt_expand_node [FDT_BEGIN_NODE []; FDT_BEGIN_NODE (cs "i2c@f"); FDT_PROP "index" [0; 0; 0; 7]; FDT_END_NODE;
                      FDT_BEGIN_NODE (cs "proc"); FDT_END_NODE; FDT_END_NODE; FDT_END] (fun _ => true) 0 0)
     (World ∅ 0 chip_store) (builds (fun _ _ => True) ∅ 0 chip_store).
Proof.
  refine (proj1 (proj2 (proj2 (tree_kept_well_formed chip_store ∅ 0 0 chip_inv _))) _ _ _); [by eexists|].
  cbn [tail]. repeat apply Forall_cons_2; try apply Forall_nil_2; try exact Logic.I; try by apply name_okb_ok.
  split_and!; [intros _; cbn; lia|done|by intros [?|?]].
Defined.

Lemma path_roundtrip_witness :
  (exists path,
    wp (dt_get_path 3 4) (World ∅ 0 chip_store) (fun r w => r = inr path /\ w = World ∅ 0 chip_store) /\
    dt_find_by_path chip_store 0 path = Some (to_real chip_store 4)) /\
  (dt_get_path 3 4 (World ∅ 0 chip_store)).1 = Ret (cs "/proc/core@10").
Proof.
  split; [|reflexivity]. apply (path_roundtrip chip_store 0 4 [cs "proc"; cs "core@10"]).
  - exact chip_inv.
  - by split.
  - intros q p c d Hl Hc Hd. unfold link, kids, lookup_total, map_lookup_total in *.
    destruct (d_nodes chip_store !! q) as [mq|] eqn:Hq; cbn in Hl, Hc; [|done].
    cbn [d_nodes chip_store] in Hq. store_cases Hq; cbn in Hl, Hc; simplify_eq; cbn in Hd; list_cases Hc; list_cases Hd.
  - apply (chain_step chip_store 0 4 1 [cs "proc"]); [done|]. by apply (chain_step chip_store 0 1 0 []), chain_root.
  - cbn. lia.
Defined.

(** Names whose unit addresses are no numbers are not ordered: [dt_cmp_subnodes] has a cycle. *)
Lemma name_order_cycle :
  dt_cmp_subnodes (cs "a@9") (cs "a@10") = Lt /\ dt_cmp_subnodes (cs "a@10") (cs "a@1g") = Lt /\
  dt_cmp_subnodes (cs "a@1g") (cs "a@9") = Lt.
Proof. split_and!; reflexivity. Qed.
