(* ===== verification/Adu.v ===== *)
(** * libpdbg: memory access through the alter-display unit

    Models libpdbg/adu.c: reading and writing main memory in blocks, and the register
    protocols of the POWER8 and POWER9 units. A function that returns 0 or an error code is
    a computation without a result that may fail with the code. *)

From S2P Require Import Prelude CMem Target Pib.

(** ** Words of the host, which is little endian *)

Definition le_bytes (n : nat) (v : Z) : list Z := reverse (be_bytes n v).
Definition le_val (l : list Z) : Z := be_val (reverse l).
Definition bswap64 (v : Z) : Z := be_val (le_bytes 8 v).

(** ** Fields of registers *)

Definition MASK_TO_LSH (m : Z) : Z := Z.log2 (Z.land m (- m)).
Definition GETFIELD (m v : Z) : Z := Z.shiftr (Z.land v m) (MASK_TO_LSH m).
(** for 64-bit [v] *)
Definition SETFIELD (m v val : Z) : Z :=
  Z.lor (Z.land v (Z.lnot m)) (Z.land (u64 (Z.shiftl (u64 val) (MASK_TO_LSH m))) m).

Definition P8_ALTD_CONTROL_REG : Z := 0.
Definition P8_ALTD_CMD_REG : Z := 1.
Definition P8_ALTD_STATUS_REG : Z := 2.
Definition P8_ALTD_DATA_REG : Z := 3.
Definition P9_ALTD_CONTROL_REG : Z := 0.
Definition P9_ALTD_CMD_REG : Z := 1.
Definition P9_ALTD_STATUS_REG : Z := 3.
Definition P9_ALTD_DATA_REG : Z := 4.

Definition FBC_ALTD_START_OP : Z := PPC_BIT 2.
Definition FBC_ALTD_CLEAR_STATUS : Z := PPC_BIT 3.
Definition FBC_ALTD_RESET_AD_PCB : Z := PPC_BIT 4.
Definition FBC_ALTD_SCOPE : Z := PPC_BITMASK 16 18.
Definition FBC_ALTD_DROP_PRIORITY : Z := PPC_BITMASK 20 21.
Definition FBC_LOCKED : Z := PPC_BIT 11.

Definition P9_TTYPE_TREAD : Z := PPC_BIT 5.
Definition P9_TTYPE_TWRITE : Z := 0.
Definition P9_FBC_ALTD_TTYPE : Z := PPC_BITMASK 25 31.
Definition P9_TTYPE_CI_PARTIAL_WRITE : Z := 55.
Definition P9_TTYPE_CI_PARTIAL_READ : Z := 52.
Definition P9_TTYPE_DMA_PARTIAL_READ : Z := 6.
Definition P9_TTYPE_DMA_PARTIAL_WRITE : Z := 38.
Definition P9_FBC_ALTD_TSIZE : Z := PPC_BITMASK 32 39.
Definition P9_FBC_ALTD_ADDRESS : Z := PPC_BITMASK 8 63.

Definition DROP_PRIORITY_LOW : Z := 0.
Definition DROP_PRIORITY_MEDIUM : Z := 1.
Definition SCOPE_SYSTEM : Z := 2.
Definition SCOPE_REMOTE : Z := 3.

Definition P8_FBC_ALTD_TTYPE : Z := PPC_BITMASK 0 5.
Definition P8_TTYPE_TREAD : Z := PPC_BIT 6.
Definition P8_TTYPE_TWRITE : Z := 0.
Definition P8_FBC_ALTD_TSIZE : Z := PPC_BITMASK 7 13.
Definition P8_FBC_ALTD_ADDRESS : Z := PPC_BITMASK 14 63.
Definition P8_TTYPE_CI_PARTIAL_WRITE : Z := 55.
Definition P8_TTYPE_DMA_PARTIAL_WRITE : Z := 38.
Definition P8_TTYPE_CI_PARTIAL_READ : Z := 52.
Definition P8_TTYPE_DMA_PARTIAL_READ : Z := 53.

Definition FBC_ALTD_ADDR_DONE : Z := PPC_BIT 2.
Definition FBC_ALTD_DATA_DONE : Z := PPC_BIT 3.
Definition FBC_ALTD_PBINIT_MISSING : Z := PPC_BIT 18.

Section Adu.
Context {D : Type} {Hw : Hardware D}.
Context (T : dtree).

(** [struct mem]; the members [read] and [write] are [adu_read] and [adu_write] below. The
    result of a call that fails is not used. *)
Record mem := Mem {
  mem_target : nat;
  getmem : option (Z -> bool -> Z -> M (tgt D) Z);
  putmem : option (Z -> Z -> Z -> bool -> Z -> M (tgt D) unit)
}.

(** ** Reading *)

(** [memcpy(dst, (uint8_t * )&data + offset, n)] *)
Definition copy_data (dst : ptr) (data offset n : Z) : M (tgt D) unit :=
  copy_in dst (drop (Z.to_nat offset) (Some <$> le_bytes 8 data)) n.

(** The loop; a block covers at least a byte, so [size + 2] rounds are enough. *)
Fixpoint adu_read_loop (fuel : nat) (get : Z -> bool -> Z -> M (tgt D) Z)
    (start_addr : Z) (output : ptr) (size block_size : Z) (ci : bool) (addr : Z) : M (tgt D) unit :=
  match fuel with
  | O => crash NoFuel
  | S fuel' =>
      if addr <? u64 (start_addr + size) then
        r ← attempt (get addr ci block_size);
        match r with
        | inl _ => fail (-1)
        | inr data =>
            let data := bswap64 data in
            let data := Z.shiftr data (Z.land addr 7 * 8) in
            n ← (if addr <? start_addr then
                   let offset := u64 (start_addr - addr) in
                   let n := if size <=? u64 (block_size - offset) then size else u64 (block_size - offset) in
                   copy_data output data offset n;; mret n
                 else if u64 (start_addr + size) <? u64 (addr + block_size) then
                   let offset := u64 (start_addr + size - addr) in
                   copy_data output data 0 offset;; mret offset
                 else copy_data output data 0 block_size;; mret block_size);
            adu_read_loop fuel' get start_addr (ptr_add output n) size block_size ci (u64 (addr + block_size))
        end
      else mret tt
  end.

Definition adu_read (adu : mem) (start_addr : Z) (output : ptr) (size block_size : Z) (ci : bool) : M (tgt D) unit :=
  match getmem adu with
  | None => fail (-1)
  | Some get =>
      let block_size := if block_size =? 0 then 8 else block_size in
      let addr0 := u64 (block_size * (start_addr / block_size)) in
      adu_read_loop (Z.to_nat size + 2) get start_addr output size block_size ci addr0
  end.

(** ** Writing *)

(** [input] are the bytes of the caller. The first value of [data] is what happens to be in
    that variable; the errors of [putmem] are ignored. *)
Fixpoint adu_write_loop (fuel : nat) (put : Z -> Z -> Z -> bool -> Z -> M (tgt D) unit)
    (end_addr : Z) (input : list Z) (block_size : Z) (ci : bool) (data addr : Z) : M (tgt D) unit :=
  match fuel with
  | O => crash NoFuel
  | S fuel' =>
      if addr <? end_addr then
        '(tsize, data) ←
          (if truthy (addr mod block_size) || (end_addr <? u64 (addr + block_size)) then
             b ← array_get input 0;
             mret (1, u64 (Z.shiftl b (8 * (8 - addr mod 8 - 1))))
           else if (8 <? block_size) || (Z.of_nat (length input) <? block_size) then crash OutOfBounds
           else
             let data := le_val (take (Z.to_nat block_size) input ++ drop (Z.to_nat block_size) (le_bytes 8 data)) in
             let data := bswap64 data in
             mret (block_size, Z.shiftr data (Z.land addr 7 * 8)));
        attempt (put addr data tsize ci block_size);;
        adu_write_loop fuel' put end_addr (drop (Z.to_nat tsize) input) block_size ci data (u64 (addr + tsize))
      else mret tt
  end.

Definition adu_write (adu : mem) (start_addr : Z) (input : list Z) (size block_size : Z) (ci : bool) (junk : Z)
  : M (tgt D) unit :=
  match putmem adu with
  | None => fail (-1)
  | Some put =>
      let block_size := if block_size =? 0 then 8 else block_size in
      let end_addr := u64 (start_addr + size) in
      adu_write_loop (Z.to_nat size + 1) put end_addr input block_size ci junk start_addr
  end.

(** ** The public functions *)

Definition pdbg_target_is_class (t : nat) (c : string) : bool := bool_decide (class (node T t) = Some c).

(** The guards they all begin with. *)
Definition mem_guard (adu : mem) : M (tgt D) unit :=
  c_assert (pdbg_target_is_class (mem_target adu) "mem");;
  require_enabled (mem_target adu).

Definition adu_getmem (adu : mem) (start_addr : Z) (output : ptr) (size : Z) : M (tgt D) unit :=
  mem_guard adu;; adu_read adu start_addr output size 8 false.
Definition adu_getmem_ci (adu : mem) (start_addr : Z) (output : ptr) (size : Z) : M (tgt D) unit :=
  mem_guard adu;; adu_read adu start_addr output size 8 true.
Definition adu_getmem_io (adu : mem) (start_addr : Z) (output : ptr) (size blocksize : Z) : M (tgt D) unit :=
  mem_guard adu;; adu_read adu start_addr output size blocksize true.
Definition __adu_getmem (adu : mem) (start_addr : Z) (output : ptr) (size : Z) (ci : bool) : M (tgt D) unit :=
  mem_guard adu;; adu_read adu start_addr output size 8 ci.

Definition adu_putmem (adu : mem) (start_addr : Z) (input : list Z) (size junk : Z) : M (tgt D) unit :=
  mem_guard adu;; adu_write adu start_addr input size 8 false junk.
Definition adu_putmem_ci (adu : mem) (start_addr : Z) (input : list Z) (size junk : Z) : M (tgt D) unit :=
  mem_guard adu;; adu_write adu start_addr input size 8 true junk.
Definition adu_putmem_io (adu : mem) (start_addr : Z) (input : list Z) (size block_size junk : Z) : M (tgt D) unit :=
  mem_guard adu;; adu_write adu start_addr input size block_size true junk.
Definition __adu_putmem (adu : mem) (start_addr : Z) (input : list Z) (size : Z) (ci : bool) (junk : Z) : M (tgt D) unit :=
  mem_guard adu;; adu_write adu start_addr input size 8 ci junk.
End Adu.
Arguments Mem {D} _ _ _.
Arguments mem_target {D} _.
Arguments getmem {D} _.
Arguments putmem {D} _.

(** ** The units

    [fuel] bounds the walk through the tree, [tries] the polling of the status register and
    the repetition of an operation, which the code does without limit. *)

Section Units.
Context {D : Type} {Hw : Hardware D}.
Context (T : dtree) (fuel : nat) (adu : nat).

Definition reg_read (reg : Z) : M (tgt D) Z := pib_read T fuel adu reg.
Definition reg_write (reg v : Z) : M (tgt D) unit := pib_write T fuel adu reg v.

Definition blog2 (x : Z) : M (tgt D) Z :=
  if x =? 1 then mret 0
  else if x =? 2 then mret 1
  else if x =? 4 then mret 2
  else if x =? 8 then mret 3
  else if x =? 16 then mret 4
  else if x =? 32 then mret 5
  else if x =? 64 then mret 6
  else crash AssertFailed.

Definition adu_lock : M (tgt D) unit :=
  val ← reg_read P8_ALTD_CMD_REG;
  reg_write P8_ALTD_CMD_REG (Z.lor val FBC_LOCKED).

Definition adu_unlock : M (tgt D) unit :=
  val ← reg_read P8_ALTD_CMD_REG;
  if negb (truthy (Z.land val FBC_LOCKED)) then mret tt
  else reg_write P8_ALTD_CMD_REG (Z.land val (Z.lnot FBC_LOCKED)).

Definition adu_reset : M (tgt D) unit :=
  val ← reg_read P8_ALTD_CMD_REG;
  reg_write P8_ALTD_CMD_REG (Z.lor val (Z.lor FBC_ALTD_CLEAR_STATUS FBC_ALTD_RESET_AD_PCB)).

(** [do { ... } while (!val);] *)
Fixpoint wait_status (tries : nat) (reg : Z) : M (tgt D) Z :=
  match tries with
  | O => crash NoFuel
  | S tries' =>
      val ← reg_read reg;
      if truthy val then mret val else wait_status tries' reg
  end.

Definition altd_done (val : Z) : bool :=
  truthy (Z.land val FBC_ALTD_ADDR_DONE) && truthy (Z.land val FBC_ALTD_DATA_DONE).
Definition pbinit_missing (val : Z) : bool := truthy (Z.land val FBC_ALTD_PBINIT_MISSING).

Fixpoint p8_read_retry (tries : nat) (ctrl_reg cmd_reg addr : Z) : M (tgt D) Z :=
  match tries with
  | O => crash NoFuel
  | S tries' =>
      adu_reset;;
      let ctrl_reg := SETFIELD P8_FBC_ALTD_ADDRESS ctrl_reg addr in
      reg_write P8_ALTD_CONTROL_REG ctrl_reg;;
      reg_write P8_ALTD_CMD_REG cmd_reg;;
      val ← wait_status tries P8_ALTD_STATUS_REG;
      if negb (altd_done val) then
        if pbinit_missing val then p8_read_retry tries' ctrl_reg cmd_reg addr else fail (-1)
      else reg_read P8_ALTD_DATA_REG
  end.

(** [cmd_reg] of an operation on POWER8 *)
Definition p8_cmd (cmd_reg : Z) : Z :=
  let cmd_reg := Z.lor cmd_reg FBC_ALTD_START_OP in
  let cmd_reg := SETFIELD FBC_ALTD_SCOPE cmd_reg SCOPE_SYSTEM in
  SETFIELD FBC_ALTD_DROP_PRIORITY cmd_reg DROP_PRIORITY_MEDIUM.

Definition p8_adu_getmem (tries : nat) (addr : Z) (ci : bool) (block_size : Z) : M (tgt D) Z :=
  adu_lock;;
  let ctrl_reg := P8_TTYPE_TREAD in
  '(ctrl_reg, block_size) ←
    (if ci then l ← blog2 block_size; mret (SETFIELD P8_FBC_ALTD_TTYPE ctrl_reg P8_TTYPE_CI_PARTIAL_READ, u8 (l + 1))
     else mret (SETFIELD P8_FBC_ALTD_TTYPE ctrl_reg P8_TTYPE_DMA_PARTIAL_READ, 0));
  let ctrl_reg := SETFIELD P8_FBC_ALTD_TSIZE ctrl_reg block_size in
  r ← attempt (cmd_reg ← reg_read P8_ALTD_CMD_REG; p8_read_retry tries ctrl_reg (p8_cmd cmd_reg) addr);
  attempt adu_unlock;;
  check r.

Fixpoint p8_write_retry (tries : nat) (ctrl_reg cmd_reg data : Z) : M (tgt D) unit :=
  match tries with
  | O => crash NoFuel
  | S tries' =>
      reg_write P8_ALTD_CONTROL_REG ctrl_reg;;
      reg_write P8_ALTD_DATA_REG data;;
      reg_write P8_ALTD_CMD_REG cmd_reg;;
      val ← wait_status tries P8_ALTD_STATUS_REG;
      if negb (altd_done val) then
        if pbinit_missing val then p8_write_retry tries' ctrl_reg cmd_reg data else fail (-1)
      else mret tt
  end.

Definition p8_adu_putmem (tries : nat) (addr data size : Z) (ci : bool) (block_size : Z) : M (tgt D) unit :=
  adu_lock;;
  let ctrl_reg := P8_TTYPE_TWRITE in
  '(ctrl_reg, block_size) ←
    (if ci then l ← blog2 block_size; mret (SETFIELD P8_FBC_ALTD_TTYPE ctrl_reg P8_TTYPE_CI_PARTIAL_WRITE, u8 (l + 1))
     else mret (SETFIELD P8_FBC_ALTD_TTYPE ctrl_reg P8_TTYPE_DMA_PARTIAL_WRITE, block_size));
  let ctrl_reg := SETFIELD P8_FBC_ALTD_TSIZE ctrl_reg block_size in
  r ← attempt (cmd_reg ← reg_read P8_ALTD_CMD_REG;
               adu_reset;;
               p8_write_retry tries (SETFIELD P8_FBC_ALTD_ADDRESS ctrl_reg addr) (p8_cmd cmd_reg) data);
  attempt adu_unlock;;
  check r.

(** [cmd_reg] of an operation on POWER9, from the type and the size of the transfer on *)
Definition p9_cmd (cmd_reg block_size : Z) : Z :=
  let cmd_reg := SETFIELD P9_FBC_ALTD_TSIZE cmd_reg block_size in
  let cmd_reg := Z.lor cmd_reg FBC_ALTD_START_OP in
  let cmd_reg := SETFIELD FBC_ALTD_SCOPE cmd_reg SCOPE_REMOTE in
  SETFIELD FBC_ALTD_DROP_PRIORITY cmd_reg DROP_PRIORITY_LOW.

Fixpoint p9_read_retry (tries : nat) (cmd_reg addr : Z) : M (tgt D) Z :=
  match tries with
  | O => crash NoFuel
  | S tries' =>
      adu_reset;;
      let ctrl_reg := SETFIELD P9_FBC_ALTD_ADDRESS 0 addr in
      reg_write P9_ALTD_CONTROL_REG ctrl_reg;;
      reg_write P9_ALTD_CMD_REG cmd_reg;;
      val ← wait_status tries P9_ALTD_STATUS_REG;
      if negb (altd_done val) then
        if pbinit_missing val then p9_read_retry tries' cmd_reg addr else fail (-1)
      else reg_read P9_ALTD_DATA_REG
  end.

Definition p9_adu_getmem (tries : nat) (addr : Z) (ci : bool) (block_size : Z) : M (tgt D) Z :=
  let cmd_reg := P9_TTYPE_TREAD in
  '(cmd_reg, block_size) ←
    (if ci then l ← blog2 block_size;
                mret (SETFIELD P9_FBC_ALTD_TTYPE cmd_reg P9_TTYPE_CI_PARTIAL_READ, u8 (Z.shiftl (l + 1) 1))
     else mret (SETFIELD P9_FBC_ALTD_TTYPE cmd_reg P9_TTYPE_DMA_PARTIAL_READ, 0));
  p9_read_retry tries (p9_cmd cmd_reg block_size) addr.

Fixpoint p9_write_retry (tries : nat) (ctrl_reg cmd_reg data : Z) : M (tgt D) unit :=
  match tries with
  | O => crash NoFuel
  | S tries' =>
      reg_write P9_ALTD_CONTROL_REG ctrl_reg;;
      reg_write P9_ALTD_DATA_REG data;;
      reg_write P9_ALTD_CMD_REG cmd_reg;;
      val ← wait_status tries P9_ALTD_STATUS_REG;
      if negb (altd_done val) then
        if pbinit_missing val then p9_write_retry tries' ctrl_reg cmd_reg data else fail (-1)
      else mret tt
  end.

(** [size <<= 1] has no effect: [size] is not used after it. *)
Definition p9_adu_putmem (tries : nat) (addr data size : Z) (ci : bool) (block_size : Z) : M (tgt D) unit :=
  let cmd_reg := P9_TTYPE_TWRITE in
  '(cmd_reg, block_size) ←
    (if ci then l ← blog2 block_size;
                mret (SETFIELD P9_FBC_ALTD_TTYPE cmd_reg P9_TTYPE_CI_PARTIAL_WRITE, u8 (Z.shiftl (l + 1) 1))
     else mret (SETFIELD P9_FBC_ALTD_TTYPE cmd_reg P9_TTYPE_DMA_PARTIAL_WRITE, u8 (Z.shiftl block_size 1)));
  let cmd_reg := p9_cmd cmd_reg block_size in
  adu_reset;;
  p9_write_retry tries (SETFIELD P9_FBC_ALTD_ADDRESS 0 addr) cmd_reg data.

(** [struct mem p8_adu] and [p9_adu] *)
Definition p8_adu (tries : nat) : mem := Mem adu (Some (p8_adu_getmem tries)) (Some (p8_adu_putmem tries)).
Definition p9_adu (tries : nat) : mem := Mem adu (Some (p9_adu_getmem tries)) (Some (p9_adu_putmem tries)).
End Units.
