(* ===== verification/AduTheorems.v ===== *)
(** * libpdbg: memory is read and written byte for byte *)

From S2P Require Import Prelude CMem Target Pib Adu.

(** ** libpdbg: blocks of memory and byte lanes *)

(** ** Bytes of a word *)

Lemma be_bytes_lookup n v i : (i < n)%nat ->
  be_bytes n v !! i = Some ((v / 2 ^ (8 * Z.of_nat (n - 1 - i))) mod 256).
Proof.
  revert i. induction n as [|n IH]; intros i Hi; [lia|]. destruct i as [|i]; cbn.
  - by rewrite Nat.sub_0_r, Nat.sub_0_r.
  - rewrite IH by lia. do 5 f_equal. lia.
Qed.

Lemma length_le_bytes n v : length (le_bytes n v) = n.
Proof. unfold le_bytes. by rewrite length_reverse, length_be_bytes. Qed.

Lemma le_bytes_lookup n v i : (i < n)%nat -> le_bytes n v !! i = Some ((v / 2 ^ (8 * Z.of_nat i)) mod 256).
Proof.
  intros Hi. unfold le_bytes. rewrite reverse_lookup by (rewrite length_be_bytes; lia).
  rewrite length_be_bytes, be_bytes_lookup by lia. do 5 f_equal. lia.
Qed.

Lemma le_bytes_is_byte n v : Forall is_byte (le_bytes n v).
Proof. unfold le_bytes. apply Forall_reverse, be_bytes_is_byte. Qed.

Lemma bswap64_bytes v : le_bytes 8 (bswap64 v) = be_bytes 8 v.
Proof.
  unfold bswap64, le_bytes at 1. replace 8%nat with (length (le_bytes 8 v)) at 1 by apply length_le_bytes.
  rewrite be_bytes_be_val by apply le_bytes_is_byte. unfold le_bytes. apply reverse_involutive.
Qed.

Lemma bswap64_range v : in_range 64 (bswap64 v).
Proof.
  unfold bswap64, in_range. pose proof (be_val_range (le_bytes 8 v) (le_bytes_is_byte 8 v)) as H.
  rewrite length_le_bytes in H. exact H.
Qed.

Lemma shiftr_lane v k i : in_range 64 v -> (i + k < 8)%nat ->
  le_bytes 8 (Z.shiftr v (8 * Z.of_nat k)) !! i = le_bytes 8 v !! (k + i)%nat.
Proof.
  intros Hv H. rewrite !le_bytes_lookup by lia. rewrite Z.shiftr_div_pow2 by lia. rewrite Z.div_div by (apply Z.pow_nonzero || idtac; lia).
  rewrite <- Z.pow_add_r by lia. do 4 f_equal. lia.
Qed.

(** The word that [adu_read] makes of the register: its bytes are the lanes from that of the
    address on. *)
Lemma read_word_lane addr data i : 0 <= addr -> (i + Z.to_nat (addr mod 8) < 8)%nat ->
  le_bytes 8 (Z.shiftr (bswap64 data) (Z.land addr 7 * 8)) !! i = be_bytes 8 data !! (Z.to_nat (addr mod 8) + i)%nat.
Proof.
  intros Ha H. change 7 with (Z.ones 3). rewrite Z.land_ones by lia. change (2 ^ 3) with 8.
  pose proof (Z.mod_pos_bound addr 8 ltac:(lia)). replace (addr mod 8 * 8) with (8 * Z.of_nat (Z.to_nat (addr mod 8))) by lia.
  rewrite shiftr_lane; [by rewrite bswap64_bytes|apply bswap64_range|done].
Qed.

(** ** Lists *)

Lemma patch_patch {A} o (a b l : list A) : (o + length a + length b <= length l)%nat ->
  patch (o + length a) b (patch o a l) = patch o (a ++ b) l.
Proof.
  intros H. assert (length (take o l ++ a) = o + length a)%nat as E by (rewrite length_app, length_take; lia).
  unfold patch at 2. rewrite app_assoc. rewrite <- E, patch_app. unfold patch. rewrite length_app, drop_drop, <- !app_assoc.
  do 4 f_equal. rewrite length_take, length_app. lia.
Qed.

(** The bytes of a memory from an address on. *)
Definition mem_range (view : Z -> Z) (a n : Z) : list Z := (fun j => view (a + Z.of_nat j)) <$> seq 0 (Z.to_nat n).

Lemma length_mem_range view a n : length (mem_range view a n) = Z.to_nat n.
Proof. unfold mem_range. by rewrite length_fmap, length_seq. Qed.

Lemma mem_range_lookup view a n i : (i < Z.to_nat n)%nat -> mem_range view a n !! i = Some (view (a + Z.of_nat i)).
Proof. intros H. unfold mem_range. rewrite list_lookup_fmap, lookup_seq_lt by done. done. Qed.

Lemma mem_range_app view a n k : 0 <= n -> 0 <= k -> mem_range view a (n + k) = mem_range view a n ++ mem_range view (a + n) k.
Proof.
  intros Hn Hk. unfold mem_range. rewrite Z2Nat.inj_add, seq_app, fmap_app by done. f_equal.
  replace (seq (0 + Z.to_nat n) (Z.to_nat k)) with (Nat.add (Z.to_nat n) <$> seq 0 (Z.to_nat k))
    by (rewrite fmap_add_seq; f_equal; lia).
  rewrite <- list_fmap_compose.
  apply list_fmap_ext. intros _ j _. cbn. f_equal. lia.
Qed.

(** ** What the unit promises

    [getmem] of a block that is aligned gives a register whose byte lanes hold the memory, or
    fails where the memory cannot be read; [putmem] changes exactly the bytes it is told to. *)

Definition block_sizes : list Z := [1; 2; 4; 8].

Section Interface.
Context {D : Type} (view : tgt D -> Z -> Z) (bad : Z -> bool).

Definition lanes (data addr bs : Z) (mem : Z -> Z) : Prop :=
  forall j, 0 <= j < bs -> be_bytes 8 data !! Z.to_nat (addr mod 8 + j) = Some (mem (addr + j)).

Class GetsMemory (get : Z -> bool -> Z -> M (tgt D) Z) : Prop :=
  gets addr ci bs h n s : bs ∈ block_sizes -> in_range 64 addr -> addr mod bs = 0 ->
    wp (get addr ci bs) (World h n s) (fun r w => exists s', w = World h n s' /\ (forall a, view s' a = view s a) /\
      if bad addr then exists rc, r = inl rc else exists data, r = inr data /\ lanes data addr bs (view s)).

(** A [putmem] that fails changes nothing. One that [honours] its argument [size] can write a
    single byte; one that does not, as those of POWER8 and POWER9, is only understood for whole
    blocks. *)
Class PutsMemory (honours : bool) (put : Z -> Z -> Z -> bool -> Z -> M (tgt D) unit) : Prop :=
  puts addr data size ci bs h n s : bs ∈ block_sizes -> (size = bs \/ honours = true /\ size = 1) -> in_range 64 addr -> addr mod size = 0 ->
    wp (put addr data size ci bs) (World h n s) (fun r w => exists s', w = World h n s' /\
      if bad addr then (exists rc, r = inl rc) /\ (forall a, view s' a = view s a)
      else r = inr tt /\ lanes data addr size (view s') /\ forall a, ~ (addr <= a < addr + size) -> view s' a = view s a).
End Interface.

Lemma block_fits addr bs : bs ∈ block_sizes -> addr mod bs = 0 -> addr mod 8 + bs <= 8.
Proof.
  unfold block_sizes. rewrite !elem_of_cons, elem_of_nil. intros [->|[->|[->|[->|[]]]]] H; Z.to_euclidean_division_equations; lia.
Qed.

Lemma block_size_bounds bs : bs ∈ block_sizes -> 1 <= bs <= 8.
Proof. unfold block_sizes. rewrite !elem_of_cons, elem_of_nil. intros [->|[->|[->|[->|[]]]]]; lia. Qed.

(** The part of a block that [adu_read] copies. *)
Lemma chunk_bytes addr bs data mem off k :
  bs ∈ block_sizes -> 0 <= addr -> addr mod bs = 0 -> lanes data addr bs mem -> 0 <= off -> 0 <= k -> off + k <= bs ->
  take (Z.to_nat k) (drop (Z.to_nat off) (Some <$> le_bytes 8 (Z.shiftr (bswap64 data) (Z.land addr 7 * 8)))) =
  Some <$> mem_range mem (addr + off) k.
Proof.
  intros Hbs Ha Hal Hl Ho Hk Hok. pose proof (block_fits _ _ Hbs Hal) as Hf. pose proof (Z.mod_pos_bound addr 8 ltac:(lia)).
  apply list_eq_same_length with (n := Z.to_nat k).
  - by rewrite length_fmap, length_mem_range.
  - rewrite length_take, length_drop, length_fmap, length_le_bytes. lia.
  - intros i x y Hi. rewrite lookup_take_lt by done. rewrite lookup_drop, !list_lookup_fmap.
    rewrite read_word_lane, mem_range_lookup by lia.
    replace (Z.to_nat (addr mod 8) + (Z.to_nat off + i))%nat with (Z.to_nat (addr mod 8 + (off + Z.of_nat i))) by lia.
    rewrite Hl by lia. cbn. replace (addr + off + Z.of_nat i) with (addr + (off + Z.of_nat i)) by lia. congruence.
Qed.

Section Reading.
Context {D : Type} {Hw : Hardware D} (view : tgt D -> Z -> Z) (bad : Z -> bool).
Context (get : Z -> bool -> Z -> M (tgt D) Z) {Hget : GetsMemory view bad get}.
Context (start size bs : Z) (ci : bool).
Context (Hbs : bs ∈ block_sizes) (Hstart : 0 <= start) (Hsize : 0 <= size) (Hfit : start + size <= 2 ^ 64 - 8).
Implicit Types (h : gmap nat (list mval)).

(** The outcome of reading the blocks from [addr] on into the block [b] at [o]. *)
Definition read_post (addr : Z) (b : nat) (o : Z) l h (n : nat) (s : tgt D) (r : Z + unit) (w : world (tgt D)) : Prop :=
  exists h' s', w = World h' n s' /\ (forall a, view s' a = view s a) /\
    ((r = inr tt /\ (forall a, a mod bs = 0 -> addr <= a < start + size -> bad a = false) /\
      h' = <[b := patch (Z.to_nat o)
                    (Some <$> mem_range (view s) (Z.max addr start) (start + size - Z.max addr start)) l]> h) \/
     (r = inl (-1) /\ (exists a, a mod bs = 0 /\ addr <= a < start + size /\ bad a = true) /\
      exists l', length l' = length l /\ h' = <[b := l']> h)).

(** The three ways to copy are one: the part of the block that was asked for. *)
Lemma wp_copy_chunk addr data b o l h n s Q :
  let lo := Z.max addr start in let k := Z.min (addr + bs) (start + size) - lo in
  0 <= addr -> addr mod bs = 0 -> start - bs < addr < start + size -> lanes data addr bs (view s) ->
  h !! b = Some l -> 0 <= o -> o + k <= Z.of_nat (length l) ->
  Q (inr k) (World (<[b := patch (Z.to_nat o) (Some <$> mem_range (view s) lo k) l]> h) n s) ->
  wp (let data := Z.shiftr (bswap64 data) (Z.land addr 7 * 8) in
      if addr <? start then
        let offset := u64 (start - addr) in
        let n := if size <=? u64 (bs - offset) then size else u64 (bs - offset) in
        copy_data (Ptr b o) data offset n;; mret n
      else if u64 (start + size) <? u64 (addr + bs) then
        let offset := u64 (start + size - addr) in
        copy_data (Ptr b o) data 0 offset;; mret offset
      else copy_data (Ptr b o) data 0 bs;; mret bs) (World h n s) Q.
Proof.
  intros lo k Ha Hal Hr Hl Hb Ho Hfl HQ. cbv zeta. pose proof (block_size_bounds _ Hbs).
  assert (forall off, off = lo - addr -> 0 <= k -> off + k <= bs ->
    wp (copy_data (Ptr b o) (Z.shiftr (bswap64 data) (Z.land addr 7 * 8)) off k;; mret k) (World h n s) Q) as Hcopy.
  { intros off Eo Hk Hok. apply wp_bind. unfold copy_data. eapply wp_copy_in; [exact Hb|done|done| |done|].
    { rewrite length_drop, length_fmap, length_le_bytes. lia. }
    rewrite (chunk_bytes addr bs data (view s)) by (done || lia). replace (addr + off) with lo by lia. by apply wp_ret. }
  assert (forall z, 0 <= z < 2 ^ 64 -> u64 z = z) as U by (intros z Hz; by apply wrap_small).
  rewrite (U (start + size)), (U (addr + bs)) by lia. destruct (Z.ltb_spec addr start).
  - rewrite (U (start - addr)), (U (bs - (start - addr))) by lia.
    assert ((if size <=? bs - (start - addr) then size else bs - (start - addr)) = k) as ->
      by (destruct (Z.leb_spec size (bs - (start - addr))); lia).
    apply Hcopy; lia.
  - destruct (Z.ltb_spec (start + size) (addr + bs)).
    + rewrite U by lia. replace (start + size - addr) with k by lia. apply Hcopy; lia.
    + assert (bs = k) as Ek by lia. specialize (Hcopy 0). rewrite <- Ek in Hcopy. apply Hcopy; lia.
Qed.

(** The next block begins where this one ends. *)
Lemma aligned_next addr a : addr mod bs = 0 -> a mod bs = 0 -> addr <= a -> a = addr \/ addr + bs <= a.
Proof.
  intros H1 H2 H. pose proof (block_size_bounds _ Hbs). destruct (decide (a < addr + bs)); [left|lia].
  assert ((a - addr) mod bs = 0) as E by (rewrite Zminus_mod, H1, H2; apply Z.mod_0_l; lia).
  rewrite Z.mod_small in E by lia. lia.
Qed.

Lemma mem_range_view (f g : Z -> Z) a k : (forall x, f x = g x) -> mem_range f a k = mem_range g a k.
Proof. intros E. unfold mem_range. apply list_fmap_ext. intros. apply E. Qed.

Lemma read_next (f : Z -> Z) addr : start - bs < addr < start + size ->
  mem_range f (Z.max addr start) (Z.min (addr + bs) (start + size) - Z.max addr start) ++
  mem_range f (Z.max (addr + bs) start) (start + size - Z.max (addr + bs) start) =
  mem_range f (Z.max addr start) (start + size - Z.max addr start).
Proof.
  intros H. pose proof (block_size_bounds _ Hbs). destruct (decide (addr + bs <= start + size)).
  - rewrite !(Z.max_l (addr + bs)), Z.min_l by lia.
    replace (start + size - Z.max addr start) with ((addr + bs - Z.max addr start) + (start + size - (addr + bs))) by lia.
    rewrite mem_range_app by lia. do 2 f_equal. lia.
  - rewrite Z.min_r by lia. unfold mem_range at 2.
    replace (Z.to_nat (start + size - Z.max (addr + bs) start)) with 0%nat by lia. apply app_nil_r.
Qed.

Lemma wp_read_loop fuel addr b o l h n s :
  0 <= addr -> addr mod bs = 0 -> start - bs < addr -> start + size <= addr + (Z.of_nat fuel - 1) * bs -> (0 < fuel)%nat ->
  h !! b = Some l -> 0 <= o -> o + Z.max 0 (start + size - Z.max addr start) <= Z.of_nat (length l) ->
  wp (adu_read_loop fuel get start (Ptr b o) size bs ci addr) (World h n s) (read_post addr b o l h n s).
Proof.
  pose proof (block_size_bounds _ Hbs) as Hb1. revert addr o l h s.
  induction fuel as [|fuel IH]; intros addr o l h s Ha Hal Hlo Hf Hf0 Hb Ho Hlen; [lia|]. cbn [adu_read_loop].
  assert (forall z, 0 <= z < 2 ^ 64 -> u64 z = z) as U by (intros z Hz; by apply wrap_small).
  destruct (Z.ltb_spec addr (u64 (start + size))) as [Hin|Hout]; [rewrite (U (start + size)) in Hin by lia|rewrite (U (start + size)) in Hout by lia].
  2: { apply wp_ret. exists h, s. split_and!; [done|done|left]. split_and!; [done|intros; lia|].
       unfold mem_range. replace (Z.to_nat (start + size - Z.max addr start)) with 0%nat by lia. cbn.
       unfold patch. cbn. by rewrite Nat.add_0_r, take_drop, insert_id. }
  apply wp_bind, wp_attempt. eapply wp_mono; [apply (Hget addr ci bs); [done|split; lia|done]|].
  intros r w (s1 & -> & Hv & Hr). cbn beta. destruct (bad addr) eqn:Eb.
  { destruct Hr as [rc ->]. apply wp_fail. exists h, s1. split_and!; [done|done|right]. split_and!; [done|exists addr; split_and!; done || lia|].
    exists l. by rewrite insert_id. }
  destruct Hr as (data & -> & Hl). apply wp_bind.
  set (lo := Z.max addr start) in *. set (k := Z.min (addr + bs) (start + size) - lo) in *.
  apply (wp_copy_chunk addr data b o l h n s1); [done|done|lia| |done|done|fold lo k; lia|].
  { intros j Hj. rewrite Hv. by apply Hl. }
  fold lo k. cbn [ptr_add]. rewrite U by lia.
  assert (patch (Z.to_nat o) (Some <$> mem_range (view s1) lo k) l = patch (Z.to_nat o) (Some <$> mem_range (view s) lo k) l)
    as -> by (do 2 f_equal; apply list_fmap_ext; intros; apply Hv).
  set (l1 := patch (Z.to_nat o) (Some <$> mem_range (view s) lo k) l).
  assert (length l1 = length l) as El by (apply length_patch; rewrite length_fmap, length_mem_range; lia).
  eapply wp_mono; [apply (IH (addr + bs) (o + k) l1)|].
  1-8: try lia.
  - rewrite <- (Z.mul_1_l bs) at 1. by rewrite Z.mod_add by lia.
  - apply lookup_insert_eq.
  - intros r w (h' & s' & -> & Hv' & Hpost). exists h', s'. split; [done|]. split; [intros a; by rewrite Hv', Hv|].
    destruct Hpost as [(-> & Hok & ->)|(-> & (a & Ha1 & Ha2 & Ha3) & l' & El' & ->)].
    + left. split_and!; [done| |].
      { intros a Ea Hra. destruct (aligned_next addr a) as [->|]; [done..|lia|done|]. apply Hok; [done|lia]. }
      rewrite insert_insert_eq. unfold l1. f_equal.
      replace (Z.to_nat (o + k)) with (Z.to_nat o + length (Some <$> mem_range (view s) lo k))%nat
        by (rewrite length_fmap, length_mem_range; lia).
      rewrite patch_patch by (rewrite !length_fmap, !length_mem_range; lia). rewrite <- fmap_app.
      rewrite (mem_range_view (view s1) (view s)) by done. unfold lo, k. by rewrite read_next by lia.
    + right. split_and!; [done| |].
      { exists a. split_and!; [done|lia|lia|done]. }
      exists l'. split; [congruence|]. by rewrite insert_insert_eq.
Qed.
End Reading.

Section Writing.
Context {D : Type} {Hw : Hardware D} (view : tgt D -> Z -> Z) (bad : Z -> bool).
Context (honours : bool) (put : Z -> Z -> Z -> bool -> Z -> M (tgt D) unit) {Hput : PutsMemory view bad honours put}.
Context (fin bs : Z) (ci : bool) (Hbs : bs ∈ block_sizes) (Hfin : fin <= 2 ^ 64 - 8).
Implicit Types (h : gmap nat (list mval)).

(** The outcome of writing [input] from [addr] on: only that range changes, and all of it is
    written where the memory can be written. *)
Definition write_post (addr : Z) (input : list Z) h (n : nat) (s : tgt D) (r : Z + unit) (w : world (tgt D)) : Prop :=
  exists s', r = inr tt /\ w = World h n s' /\
    (forall a, ~ (addr <= a < fin) -> view s' a = view s a) /\
    ((forall a, addr <= a < fin -> bad a = false) ->
     forall a, addr <= a < fin -> input !! Z.to_nat (a - addr) = Some (view s' a)).

Lemma write_byte_lane addr b : 0 <= addr -> is_byte b ->
  be_bytes 8 (u64 (Z.shiftl b (8 * (8 - addr mod 8 - 1)))) !! Z.to_nat (addr mod 8 + 0) = Some b.
Proof.
  intros Ha Hb. pose proof (Z.mod_pos_bound addr 8 ltac:(lia)). unfold is_byte in Hb.
  assert (2 ^ (8 * (8 - addr mod 8 - 1)) <= 2 ^ 56) by (apply Z.pow_le_mono_r; lia).
  assert (0 < 2 ^ (8 * (8 - addr mod 8 - 1))) by (apply Z.pow_pos_nonneg; lia).
  rewrite Z.shiftl_mul_pow2 by lia. rewrite wrap_small by (unfold in_range; nia). rewrite be_bytes_lookup by lia. f_equal.
  replace (8 * Z.of_nat (8 - 1 - Z.to_nat (addr mod 8 + 0))) with (8 * (8 - addr mod 8 - 1)) by lia.
  rewrite Z.div_mul by lia. apply Z.mod_small. lia.
Qed.

Lemma le_bytes_le_val l : Forall is_byte l -> le_bytes (length l) (le_val l) = l.
Proof.
  intros H. unfold le_bytes, le_val. rewrite <- (length_reverse l), be_bytes_be_val by (by apply Forall_reverse).
  apply reverse_involutive.
Qed.

Lemma write_block_lane addr l j : 0 <= addr -> length l = 8%nat -> Forall is_byte l -> 0 <= j -> addr mod 8 + j < 8 ->
  be_bytes 8 (Z.shiftr (bswap64 (le_val l)) (Z.land addr 7 * 8)) !! Z.to_nat (addr mod 8 + j) = l !! Z.to_nat j.
Proof.
  intros Ha Hl Hb Hj Hm. pose proof (Z.mod_pos_bound addr 8 ltac:(lia)).
  change 7 with (Z.ones 3). rewrite Z.land_ones by lia. change (2 ^ 3) with 8.
  rewrite be_bytes_lookup by lia. rewrite Z.shiftr_div_pow2 by lia.
  rewrite Z.div_div by (apply Z.pow_nonzero || apply Z.pow_pos_nonneg; lia). rewrite <- Z.pow_add_r by lia.
  replace (addr mod 8 * 8 + 8 * Z.of_nat (8 - 1 - Z.to_nat (addr mod 8 + j))) with (8 * Z.of_nat (7 - Z.to_nat j)) by lia.
  rewrite <- (le_bytes_lookup 8) by lia. rewrite bswap64_bytes.
  rewrite <- (le_bytes_le_val l Hb) at 2. rewrite Hl. unfold le_bytes.
  rewrite reverse_lookup by (rewrite length_be_bytes; lia). rewrite length_be_bytes. f_equal; lia.
Qed.

(** Single bytes can be written, or none are needed. *)
Definition suits (addr : Z) : Prop := honours = true \/ addr mod bs = 0 /\ fin mod bs = 0.

Lemma whole_blocks addr : suits addr -> addr < fin -> addr mod bs = 0 /\ addr + bs <= fin \/ honours = true.
Proof.
  pose proof (block_size_bounds _ Hbs). intros [->|[Ha Hf]] Hlt; [by right|left]. split; [done|].
  pose proof (Z.div_mod addr bs ltac:(lia)). pose proof (Z.div_mod fin bs ltac:(lia)).
  assert (addr / bs < fin / bs) by nia. nia.
Qed.

(** What one step hands to [putmem]. *)
Lemma wp_write_step addr input data h n (s : tgt D) Q :
  0 <= addr < fin -> Z.of_nat (length input) = fin - addr -> Forall is_byte input -> suits addr ->
  (forall size data', (size = bs \/ honours = true /\ size = 1) -> suits (addr + size) -> addr mod size = 0 -> addr + size <= fin ->
     (forall j, 0 <= j < size -> be_bytes 8 data' !! Z.to_nat (addr mod 8 + j) = input !! Z.to_nat j) ->
     Q (inr (size, data')) (World h n s)) ->
  wp (if truthy (addr mod bs) || (fin <? u64 (addr + bs)) then
        b ← array_get input 0; mret (1, u64 (Z.shiftl b (8 * (8 - addr mod 8 - 1))))
      else if (8 <? bs) || (Z.of_nat (length input) <? bs) then crash OutOfBounds
      else
        let data := le_val (take (Z.to_nat bs) input ++ drop (Z.to_nat bs) (le_bytes 8 data)) in
        let data := bswap64 data in
        mret (bs, Z.shiftr data (Z.land addr 7 * 8))) (World h n s) Q.
Proof.
  intros Ha Hlen Hin Hsu HQ. pose proof (block_size_bounds _ Hbs). rewrite wrap_small by (unfold in_range; lia).
  pose proof (whole_blocks addr Hsu ltac:(lia)) as Hwb.
  destruct (truthy (addr mod bs)) eqn:Et; [|destruct (Z.ltb_spec fin (addr + bs))]; cbn [orb].
  1,2: destruct Hwb as [[Hw1 Hw2]|Hho]; [first [lia|by rewrite Hw1 in Et]|]; destruct input as [|b input]; [cbn in Hlen; lia|];
    apply wp_bind, (wp_array_get _ _ b); [done|done|];
    apply wp_ret, HQ; [by right|by left|apply Z.mod_1_r|lia|]; intros j Hj; replace j with 0 by lia;
    apply write_byte_lane; [lia|by inversion Hin].
  destruct (Z.ltb_spec 8 bs); [lia|]. destruct (Z.ltb_spec (Z.of_nat (length input)) bs); [lia|]. cbn [orb].
  assert (addr mod bs = 0) as Hal by (unfold truthy in Et; destruct (Z.eqb_spec (addr mod bs) 0); done).
  pose proof (block_fits _ _ Hbs Hal). apply wp_ret, HQ; [by left| |done|lia|].
  { destruct Hsu as [->|[_ Hf]]; [by left|right]. split; [|done]. rewrite <- (Z.mul_1_l bs) at 1. by rewrite Z.mod_add by lia. }
  intros j Hj. rewrite write_block_lane; [|lia| | |lia|lia].
  2: { rewrite length_app, length_take, length_drop, length_le_bytes. lia. }
  2: { apply Forall_app. split; [by apply Forall_take|apply Forall_drop, le_bytes_is_byte]. }
  rewrite lookup_app_l by (rewrite length_take; lia). apply lookup_take_lt. lia.
Qed.

Lemma wp_write_loop fuel addr input data h n s :
  0 <= addr <= fin -> fin - addr < Z.of_nat fuel -> Z.of_nat (length input) = fin - addr -> Forall is_byte input -> suits addr ->
  wp (adu_write_loop fuel put fin input bs ci data addr) (World h n s) (write_post addr input h n s).
Proof.
  pose proof (block_size_bounds _ Hbs) as Hb1. revert addr input data s.
  induction fuel as [|fuel IH]; intros addr input data s Ha Hf Hlen Hin Hsu; [lia|]. cbn [adu_write_loop].
  destruct (Z.ltb_spec addr fin) as [Hlt|Hge].
  2: { apply wp_ret. exists s. split_and!; [done..|intros; lia]. }
  apply wp_bind, wp_write_step; [lia|done|done|done|]. intros size data' Hsz Hsu' Hal Hend Hl.
  apply wp_bind, wp_attempt. eapply wp_mono; [apply (Hput addr data' size ci bs); [done|done|split; lia|done]|].
  intros r w (s1 & -> & Hr). cbn beta. rewrite wrap_small by (unfold in_range; lia).
  eapply wp_mono; [apply (IH (addr + size) (drop (Z.to_nat size) input)); [lia|lia|rewrite length_drop; lia|by apply Forall_drop|done]|].
  intros r' w' (s' & -> & -> & Hout & Hok). exists s'. split_and!; [done|done| |].
  - intros a Hna. rewrite Hout by lia. destruct (bad addr); [by apply Hr|]. apply Hr. lia.
  - intros Hgood a Hra. rewrite Hgood in Hr by lia. destruct Hr as (_ & Hlane & _).
    destruct (decide (a < addr + size)) as [Hfirst|Hrest].
    + rewrite Hout by lia. specialize (Hl (a - addr) ltac:(lia)). rewrite (Hlane (a - addr) ltac:(lia)) in Hl.
      rewrite <- Hl. do 3 f_equal. lia.
    + rewrite <- (Hok ltac:(intros; apply Hgood; lia) a ltac:(lia)), lookup_drop. f_equal. lia.
Qed.
End Writing.

(** ** The public functions *)

Section Public.
Context {D : Type} {Hw : Hardware D} (T : dtree) (view : tgt D -> Z -> Z) (bad : Z -> bool).
Implicit Types (h : gmap nat (list mval)) (s : tgt D).

Definition block_of (bs : Z) : Z := if bs =? 0 then 8 else bs.

Lemma block_8 : block_of 8 ∈ block_sizes.
Proof. repeat (apply list_elem_of_here || apply list_elem_of_further). Qed.

(** A call on a target that is not enabled fails and does nothing. *)
Definition if_enabled (adu : mem (D := D)) {A} s (wd : world (tgt D)) (post : Z + A -> world (tgt D) -> Prop) (r : Z + A) w : Prop :=
  if bool_decide (t_status s (mem_target adu) = PDBG_TARGET_ENABLED) then post r w else r = inl (-1) /\ w = wd.

Lemma wp_mem_guard (adu : mem (D := D)) (m : M (tgt D) unit) h n s post :
  class (node T (mem_target adu)) = Some "mem"%string ->
  wp m (World h n s) post ->
  wp (mem_guard T adu;; m) (World h n s) (if_enabled adu s (World h n s) post).
Proof.
  intros Hc Hm. apply wp_bind. unfold mem_guard. apply wp_bind, wp_assert; [unfold pdbg_target_is_class; by rewrite bool_decide_eq_true_2|].
  unfold require_enabled, if_enabled, pdbg_target_status_of. apply wp_bind, wp_bind, wp_get_st, wp_ret.
  destruct (bool_decide _); cbn [negb]; [by apply wp_ret|by apply wp_fail].
Qed.

(** Bytes [start] to [start + size] of the memory are in the block [b] at [o]; or a block that
    overlaps that range cannot be read. *)
Definition memory_copied (start size bs : Z) (b : nat) (o : Z) l h (n : nat) s (r : Z + unit) (w : world (tgt D)) : Prop :=
  exists h' s', w = World h' n s' /\ (forall a, view s' a = view s a) /\
    ((r = inr tt /\ (forall a, a mod bs = 0 -> start - bs < a < start + size -> bad a = false) /\
      h' = <[b := patch (Z.to_nat o) (Some <$> mem_range (view s) start size) l]> h) \/
     (r = inl (-1) /\ (exists a, a mod bs = 0 /\ start - bs < a < start + size /\ bad a = true) /\
      exists l', length l' = length l /\ h' = <[b := l']> h)).

Lemma wp_adu_read (adu : mem (D := D)) get start b o l size bs ci h n s :
  getmem adu = Some get -> GetsMemory view bad get -> block_of bs ∈ block_sizes ->
  0 <= start -> 0 <= size -> start + size <= 2 ^ 64 - 8 ->
  h !! b = Some l -> 0 <= o -> o + size <= Z.of_nat (length l) ->
  wp (adu_read adu start (Ptr b o) size bs ci) (World h n s) (memory_copied start size (block_of bs) b o l h n s).
Proof.
  intros Eg Hg Hbs Hs Hz Hfit Hb Ho Hlen. unfold adu_read. rewrite Eg. fold (block_of bs). set (k := block_of bs) in *.
  pose proof (block_size_bounds _ Hbs). pose proof (Z.mod_pos_bound start k ltac:(lia)).
  pose proof (Z.div_mod start k ltac:(lia)). pose proof (Z.div_pos start k ltac:(lia) ltac:(lia)).
  assert (0 <= k * (start / k)) by nia. rewrite wrap_small by (unfold in_range; lia).
  set (addr0 := k * (start / k)) in *.
  assert (addr0 mod k = 0) as Hal by (unfold addr0; rewrite Z.mul_comm; apply Z.mod_mul; lia).
  eapply wp_mono; [apply (wp_read_loop view bad get start size k ci Hbs Hs Hz Hfit); [nia|done|lia|nia|lia|done|done|lia]|].
  intros r w (h' & s' & -> & Hv & Hp). exists h', s'. split_and!; [done|done|]. rewrite Z.max_r in Hp by lia.
  replace (start + size - start) with size in Hp by lia. destruct Hp as [(-> & Hok & ->)|(-> & (a & Ha1 & Ha2 & Ha3) & Hl)].
  - left. split_and!; [done| |done]. intros a Ha Hra. apply Hok; [done|].
    destruct (decide (addr0 <= a)); [lia|]. exfalso.
    destruct (aligned_next k Hbs a addr0) as [E|E]; [done|done|lia|lia|lia].
  - right. split_and!; [done| |done]. exists a. split_and!; [done|lia|lia|done].
Qed.

(** Only the range changes; all of it is written where the memory can be written. *)
Definition memory_written (start size : Z) (input : list Z) h (n : nat) s (r : Z + unit) (w : world (tgt D)) : Prop :=
  exists s', r = inr tt /\ w = World h n s' /\
    (forall a, ~ (start <= a < start + size) -> view s' a = view s a) /\
    ((forall a, start <= a < start + size -> bad a = false) -> mem_range (view s') start size = input).

Lemma wp_adu_write (adu : mem (D := D)) honours put start input bs ci junk h n s :
  putmem adu = Some put -> PutsMemory view bad honours put -> block_of bs ∈ block_sizes ->
  suits honours (start + Z.of_nat (length input)) (block_of bs) start ->
  0 <= start -> start + Z.of_nat (length input) <= 2 ^ 64 - 8 -> Forall is_byte input ->
  wp (adu_write adu start input (Z.of_nat (length input)) bs ci junk) (World h n s)
     (memory_written start (Z.of_nat (length input)) input h n s).
Proof.
  intros Ep Hp Hbs Hsu Hs Hfit Hin. unfold adu_write. rewrite Ep. fold (block_of bs). rewrite wrap_small by (unfold in_range; lia).
  eapply wp_mono; [apply (wp_write_loop view bad honours put _ _ ci Hbs Hfit); [lia|lia|lia|done|done]|].
  intros r w (s' & -> & -> & Hout & Hok). exists s'. split_and!; [done..|]. intros Hgood.
  apply list_eq_same_length with (n := length input); [done|rewrite length_mem_range; lia|].
  intros i x y Hi Hx Hy. rewrite mem_range_lookup in Hx by lia.
  specialize (Hok Hgood (start + Z.of_nat i) ltac:(lia)).
  replace (Z.to_nat (start + Z.of_nat i - start)) with i in Hok by lia. congruence.
Qed.

(** C36. Memory is read byte for byte: through a unit whose [getmem] gives the byte lanes of
    aligned blocks, each of the reading functions fills the buffer with exactly the bytes of the
    range and nothing beyond, whatever the alignment of its ends, for blocks of 1, 2, 4 or 8 bytes
    (0 stands for 8; wider blocks overrun the data word) and a range that ends at least 8 bytes
    below 2^64, so that no address wraps. It fails exactly when a block that overlaps the range
    cannot be read. A target that is not enabled is not touched. *)
Theorem memory_read (adu : mem (D := D)) get start b o l size bs ci h n s :
  class (node T (mem_target adu)) = Some "mem"%string -> getmem adu = Some get -> GetsMemory view bad get ->
  block_of bs ∈ block_sizes -> 0 <= start -> 0 <= size -> start + size <= 2 ^ 64 - 8 ->
  h !! b = Some l -> 0 <= o -> o + size <= Z.of_nat (length l) ->
  let reads m k := wp m (World h n s) (if_enabled adu s (World h n s) (memory_copied start size k b o l h n s)) in
  reads (adu_getmem T adu start (Ptr b o) size) 8 /\
  reads (adu_getmem_ci T adu start (Ptr b o) size) 8 /\
  reads (adu_getmem_io T adu start (Ptr b o) size bs) (block_of bs) /\
  reads (__adu_getmem T adu start (Ptr b o) size ci) 8.
Proof.
  intros Hc Eg Hg Hbs Hs Hz Hfit Hb Ho Hlen reads. pose proof block_8.
  split_and!; apply wp_mem_guard; try done; by apply (wp_adu_read adu get start b o l size).
Qed.

(** C37. Memory is written byte for byte, for blocks of 1, 2, 4 or 8 bytes (0 stands for 8) and a range
    that ends at least 8 bytes below 2^64. Through a unit whose [putmem] honours the size of a
    transfer, each of the writing functions changes nothing outside the range and leaves in it
    the bytes given, provided that no write fails, whatever the alignment of the ends. Through a
    unit that ignores the size, as the [putmem] of POWER8 and POWER9 do, this holds of ranges of
    whole aligned blocks. A write that fails is not reported: the functions always succeed. *)
Theorem memory_write (adu : mem (D := D)) honours put start input bs ci junk h n s :
  class (node T (mem_target adu)) = Some "mem"%string -> putmem adu = Some put -> PutsMemory view bad honours put ->
  block_of bs ∈ block_sizes -> 0 <= start -> start + Z.of_nat (length input) <= 2 ^ 64 - 8 -> Forall is_byte input ->
  let size := Z.of_nat (length input) in
  let writes k m := honours = true \/ (start mod k = 0 /\ (start + size) mod k = 0) ->
    wp m (World h n s) (if_enabled adu s (World h n s) (memory_written start size input h n s)) in
  writes 8 (adu_putmem T adu start input size junk) /\
  writes 8 (adu_putmem_ci T adu start input size junk) /\
  writes (block_of bs) (adu_putmem_io T adu start input size bs junk) /\
  writes 8 (__adu_putmem T adu start input size ci junk).
Proof.
  intros Hc Ep Hp Hbs Hs Hfit Hin size writes. pose proof block_8.
  split_and!; intros Hsu; apply wp_mem_guard; try done; by apply (wp_adu_write adu honours put).
Qed.
End Public.

(** ** The theorems at work

    A unit in front of a memory that keeps what is written; target 0 is the unit. *)

Definition ram_view (s : tgt (Z -> Z)) (a : Z) : Z := t_dev s a mod 256.

Definition ram_get (addr : Z) (ci : bool) (bs : Z) : M (tgt (Z -> Z)) Z :=
  s ← get_st; mret (be_val (mem_range (ram_view s) (addr - addr mod 8) 8)).

Definition ram_put (addr data size : Z) (ci : bool) (bs : Z) : M (tgt (Z -> Z)) unit :=
  s ← get_st;
  put_st (Tgt (t_status s)
    (fun a => if (addr <=? a) && (a <? addr + size) then default 0 (be_bytes 8 data !! Z.to_nat (addr mod 8 + (a - addr)))
              else t_dev s a) (t_trace s)).

Lemma ram_gets : GetsMemory ram_view (fun _ => false) ram_get.
Proof.
  intros addr ci bs h n s Hbs Hr Hal. apply wp_bind, wp_get_st, wp_ret. exists s. split_and!; [done|done|].
  eexists. split; [done|]. intros j Hj. pose proof (block_fits _ _ Hbs Hal). pose proof (Z.mod_pos_bound addr 8 ltac:(lia)).
  set (l := mem_range _ _ _). assert (length l = 8%nat) as El by apply length_mem_range.
  rewrite <- El at 1. rewrite be_bytes_be_val.
  - unfold l. rewrite mem_range_lookup by lia. do 2 f_equal. lia.
  - apply Forall_lookup. intros i x Hi. pose proof (lookup_lt_Some _ _ _ Hi). unfold l in Hi.
    rewrite mem_range_lookup in Hi by lia. injection Hi as <-. apply Z.mod_pos_bound. lia.
Qed.

Lemma ram_puts : PutsMemory ram_view (fun _ => false) true ram_put.
Proof.
  intros addr data size ci bs h n s Hbs Hsz Hr Hal. apply wp_bind, wp_get_st, wp_put_st. eexists. split; [done|].
  assert (size ∈ block_sizes) as Hs by (destruct Hsz as [->|[_ ->]]; [done|apply list_elem_of_here]).
  pose proof (block_fits _ _ Hs Hal). pose proof (Z.mod_pos_bound addr 8 ltac:(lia)). split_and!; [done| |].
  - intros j Hj. unfold ram_view. cbn [t_dev]. destruct (Z.leb_spec addr (addr + j)); [|lia].
    destruct (Z.ltb_spec (addr + j) (addr + size)); [|lia]. cbn [andb]. replace (addr + j - addr) with j by lia.
    rewrite be_bytes_lookup by lia. cbn. by rewrite Zmod_mod.
  - intros a Ha. unfold ram_view. cbn [t_dev]. destruct (Z.leb_spec addr a), (Z.ltb_spec a (addr + size)); done || lia.
Qed.

#[local] Instance ram_hw : Hardware (Z -> Z) :=
  {| hw_probe _ d := (d, 0); hw_release _ d := d; hw_read _ _ d := (d, inl (-1)); hw_write _ _ _ d := (d, -1) |}.

Definition ram_tree : dtree :=
  Dtree (fun _ => Node true (Some "mem"%string) None false NoRelease 0 None [] None (Some 0%Z) 0 0 0 None false false) 0 (fun _ => None) false.
Definition ram_unit : mem := Mem 0 (Some ram_get) (Some ram_put).
Definition ram_start : tgt (Z -> Z) := Tgt (fun _ => PDBG_TARGET_ENABLED) (fun a => a) [].

(** Seven bytes from address 5 on, in blocks of four, into the middle of a buffer. *)
Lemma memory_read_witness :
  wp (adu_getmem_io ram_tree ram_unit 5 (Ptr 3 1) 7 4) (World {[3%nat := replicate 9 None]} 4 ram_start)
     (fun r w => r = inr tt /\ w_heap w !! 3%nat = Some ([None] ++ (Some <$> [5; 6; 7; 8; 9; 10; 11]) ++ [None])).
Proof.
  eapply wp_mono.
  - apply (proj1 (proj2 (proj2 (memory_read ram_tree ram_view (fun _ => false) ram_unit ram_get 5 3 1 (replicate 9 None) 7 4 true
      {[3%nat := replicate 9 None]} 4 ram_start eq_refl eq_refl ram_gets ltac:(by repeat (apply list_elem_of_here || apply list_elem_of_further))
      ltac:(lia) ltac:(lia) ltac:(lia) eq_refl ltac:(lia) ltac:(cbn; lia))))).
  - intros r w (h' & s' & -> & _ & [(-> & _ & ->)|(_ & (a & _ & _ & ?) & _)]); [|done]. split; [done|].
    cbn [w_heap]. rewrite lookup_insert_eq. reflexivity.
Defined.

(** A unit that writes whole blocks, whatever the size it is told. *)
Definition wide_put (addr data size : Z) (ci : bool) (bs : Z) : M (tgt (Z -> Z)) unit := ram_put addr data bs ci bs.
Definition wide_unit : mem := Mem 0 (Some ram_get) (Some wide_put).

Lemma wide_puts : PutsMemory ram_view (fun _ => false) false wide_put.
Proof. intros addr data size ci bs h n s Hbs [->|[? _]] Hr Hal; [apply ram_puts; by auto|done]. Qed.

(** Twelve bytes to address 13, and eight to address 16 of a unit that ignores the size. *)
Lemma memory_write_witness :
  wp (adu_putmem ram_tree ram_unit 13 [1; 2; 3; 4; 5; 6; 7; 8; 9; 10; 11; 12] 12 77) (World ∅ 0 ram_start)
     (fun r w => r = inr tt /\ mem_range (ram_view (w_st w)) 12 14 = [12; 1; 2; 3; 4; 5; 6; 7; 8; 9; 10; 11; 12; 25]) /\
  wp (adu_putmem ram_tree wide_unit 16 [1; 2; 3; 4; 5; 6; 7; 8] 8 77) (World ∅ 0 ram_start)
     (fun r w => r = inr tt /\ mem_range (ram_view (w_st w)) 16 8 = [1; 2; 3; 4; 5; 6; 7; 8]).
Proof.
  split; eapply wp_mono.
  - apply (proj1 (memory_write ram_tree ram_view (fun _ => false) ram_unit true ram_put 13 [1; 2; 3; 4; 5; 6; 7; 8; 9; 10; 11; 12] 8 true 77
      ∅ 0 ram_start eq_refl eq_refl ram_puts block_8 ltac:(lia) ltac:(cbn; lia) ltac:(repeat constructor; unfold is_byte; lia))).
    by left.
  - intros r w (s' & -> & -> & Hout & Hin). split; [done|]. cbn [w_st].
    change 14 with (1 + (12 + 1)). rewrite !mem_range_app by lia.
    change (12 + 1) with 13. change (Z.of_nat (length _)) with 12 in Hin. rewrite (Hin ltac:(done)).
    change (Z.of_nat (length _)) with 12 in Hout. unfold mem_range. change (Z.to_nat 1) with 1%nat.
    cbn [seq fmap list_fmap app]. by rewrite !Hout by lia.
  - apply (proj1 (memory_write ram_tree ram_view (fun _ => false) wide_unit false wide_put 16 [1; 2; 3; 4; 5; 6; 7; 8] 8 true 77
      ∅ 0 ram_start eq_refl eq_refl wide_puts block_8 ltac:(lia) ltac:(cbn; lia) ltac:(repeat constructor; unfold is_byte; lia))).
    by right.
  - intros r w (s' & -> & -> & _ & Hin). split; [done|]. exact (Hin ltac:(done)).
Defined.

(** ** Findings *)

(** The units take the size of a transfer from [block_size]: the number of bytes to write is
    ignored, also for the single bytes at the ends of a range. *)
Lemma putmem_ignores_size {D} {Hw : Hardware D} T fuel adu tries addr data ci bs size size' :
  p8_adu_putmem T fuel adu tries addr data size ci bs = p8_adu_putmem T fuel adu tries addr data size' ci bs /\
  p9_adu_putmem T fuel adu tries addr data size ci bs = p9_adu_putmem T fuel adu tries addr data size' ci bs.
Proof. split; reflexivity. Qed.

(** Blocks of more than eight bytes, which [blog2] accepts, read beyond the register. *)
Lemma wide_block_overreads :
  (adu_read ram_unit 0 (Ptr 3 0) 16 16 true (World {[3%nat := replicate 16 None]} 4 ram_start)).1 = Crash OutOfBounds.
Proof. vm_compute. reflexivity. Qed.
