(* ===== verification/Ram.v ===== *)
(** * libpdbg: registers of a thread through instruction ramming

    Models libpdbg/chip.c: the instructions that are fed to a stopped thread, and the access to
    its registers with them. The members of [struct thread] that do the ramming differ from
    chip to chip; they are the operations of the class [RamThread]. *)

From S2P Require Import Prelude CMem.

(** ** Instructions *)

Definition MTNIA_OPCODE : Z := 0x00000002.
Definition MFNIA_OPCODE : Z := 0x00000004.
Definition MFMSR_OPCODE : Z := 0x7c0000a6.
Definition MTMSR_OPCODE : Z := 0x7c000164.
Definition MFSPR_OPCODE : Z := 0x7c0002a6.
Definition MTSPR_OPCODE : Z := 0x7c0003a6.
Definition MFOCRF_OPCODE : Z := 0x7c100026.
Definition MTOCRF_OPCODE : Z := 0x7C100120.
Definition LD_OPCODE : Z := 0xe8000000.

Definition SPR_LR : Z := 8.

(** A register that is too large is only reported; [mtocrf], which ends the program instead, is
    called with constants in range. *)
Definition mfspr (reg spr : Z) : Z :=
  u64 (Z.lor (Z.lor (Z.lor MFSPR_OPCODE (Z.shiftl reg 21)) (Z.shiftl (Z.land spr 0x1f) 16)) (Z.shiftl (Z.land spr 0x3e0) 6)).
Definition mtspr (spr reg : Z) : Z :=
  u64 (Z.lor (Z.lor (Z.lor MTSPR_OPCODE (Z.shiftl reg 21)) (Z.shiftl (Z.land spr 0x1f) 16)) (Z.shiftl (Z.land spr 0x3e0) 6)).
Definition mfocrf (reg cr : Z) : Z :=
  u64 (Z.lor (Z.lor MFOCRF_OPCODE (Z.shiftl reg 21)) (u32 (Z.shiftl 1 (12 + cr)))).
Definition mtocrf (cr reg : Z) : Z :=
  u64 (Z.lor (Z.lor MTOCRF_OPCODE (Z.shiftl reg 21)) (u32 (Z.shiftl 1 (12 + cr)))).
Definition mfnia (reg : Z) : Z := u64 (Z.lor MFNIA_OPCODE (Z.shiftl reg 21)).
Definition mtnia (reg : Z) : Z := u64 (Z.lor MTNIA_OPCODE (Z.shiftl reg 21)).
Definition mfmsr (reg : Z) : Z := u64 (Z.lor MFMSR_OPCODE (Z.shiftl reg 21)).
Definition mtmsr (reg : Z) : Z := u64 (Z.lor MTMSR_OPCODE (Z.shiftl reg 21)).
Definition ld (rt ds ra : Z) : Z :=
  u64 (Z.lor (Z.lor (Z.lor LD_OPCODE (Z.shiftl rt 21)) (Z.shiftl ra 16)) (Z.shiftl ds 2)).

(** The members of [struct thread] that ramming uses. [ram_instruction] gives its return code
    and the new value of the scratch register. *)
Class RamThread (S : Type) := {
  ram_is_setup : S -> bool;
  ram_setup : M S unit;
  ram_destroy : M S unit;
  ram_instruction : Z -> Z -> M S (Z * Z)
}.

Section Ram.
Context {S : Type} {Th : RamThread S}.

Definition array_set {A} (a : list A) (i : Z) (x : A) : M S (list A) :=
  if (0 <=? i) && (i <? Z.of_nat (length a)) then mret (<[Z.to_nat i := x]> a) else crash OutOfBounds.

(** The instruction of round [i] and the value that is put into the scratch register. *)
Definition ram_fetch (opcodes results : list Z) (len i r0 r1 scratch : Z) : M S (Z * Z) :=
  if i =? -2 then mret (mtspr 277 1, scratch)
  else if i =? -1 then mret (mtspr 277 0, scratch)
  else if i <? len then
    scratch ← array_get results i;
    opcode ← array_get opcodes i;
    mret (opcode, scratch)
  else if i =? len then mret (mfspr 0 277, r0)
  else mret (mfspr 1 277, r1).

(** The loop of [ram_instructions], from -2 to [len + 1]: whether there was an exception, and
    the results. *)
Fixpoint ram_loop (fuel : nat) (opcodes results : list Z) (len i r0 r1 scratch : Z) (exception : bool)
  : M S (bool * list Z) :=
  match fuel with
  | O => crash NoFuel
  | Datatypes.S fuel' =>
      if negb (i <? len + 2) then mret (exception, results) else
      '(opcode, scratch) ← ram_fetch opcodes results len i r0 r1 scratch;
      '(rc, scratch) ← ram_instruction opcode scratch;
      if truthy rc && negb ((0 <=? i) && (i <? len)) then mret (true, results) else
      let exception := truthy rc || exception in
      let i := if truthy rc then len - 1 else i in
      let r1 := if i =? -2 then scratch else r1 in
      let r0 := if i =? -1 then scratch else r0 in
      results ← (if negb (i =? -2) && negb (i =? -1) && (i <? len) then array_set results i scratch else mret results);
      ram_loop fuel' opcodes results len (i + 1) r0 r1 scratch exception
  end.

(** [len] is the number of opcodes. An exception is the return code 1. *)
Definition ram_instructions (opcodes results : list Z) : M S (list Z) :=
  s ← get_st;
  let did_setup := negb (ram_is_setup s) in
  (if did_setup then ram_setup else mret tt);;
  let len := Z.of_nat (length opcodes) in
  '(exception, results) ← ram_loop (length opcodes + 5) opcodes results len (-2) 0 0 0 false;
  (if did_setup then ram_destroy else mret tt);;
  if exception : bool then fail 1 else mret results.

Definition ram_getgpr (gpr : Z) : M S Z :=
  results ← ram_instructions [mtspr 277 gpr] [0];
  array_get results 0.

Definition ram_putgpr (gpr value : Z) : M S unit :=
  ram_instructions [mfspr gpr 277] [value];; mret tt.

Definition ram_getnia : M S Z :=
  results ← ram_instructions [mfnia 0; mtspr 277 0] [0; 0];
  array_get results 1.

Definition ram_putnia (value : Z) : M S unit :=
  ram_instructions [mfspr 1 8; mfspr 0 277; mtspr 8 0; mtnia 0; mtspr 8 1] [0; value; 0; 0; 0];; mret tt.

Definition ram_getspr (spr : Z) : M S Z :=
  results ← ram_instructions [mfspr 0 spr; mtspr 277 0] [0; 0];
  array_get results 1.

Definition ram_putspr (spr value : Z) : M S unit :=
  ram_instructions [mfspr 0 277; mtspr spr 0] [value; 0];; mret tt.

Definition ram_getmsr : M S Z :=
  results ← ram_instructions [mfmsr 0; mtspr 277 0] [0; 0];
  array_get results 1.

Definition cr_opcodes : list Z :=
  [mfocrf 0 0; mtspr 277 0; mfocrf 0 1; mtspr 277 0; mfocrf 0 2; mtspr 277 0; mfocrf 0 3; mtspr 277 0;
   mfocrf 0 4; mtspr 277 0; mfocrf 0 5; mtspr 277 0; mfocrf 0 6; mtspr 277 0; mfocrf 0 7; mtspr 277 0].

(** [for (i = 1; i < 16; i += 2)], [n] rounds from [i] on *)
Fixpoint cr_fields (n : nat) (results : list Z) (i cr : Z) : M S Z :=
  match n with
  | O => mret cr
  | Datatypes.S n' =>
      r ← array_get results i;
      let cr_field := u32 r in
      cr_fields n' results (i + 2) (Z.lor cr (Z.land cr_field (u32 (Z.shiftl 0xf (2 * (i - 1))))))
  end.

Definition ram_getcr : M S Z :=
  results ← ram_instructions cr_opcodes (replicate 16 0);
  cr_fields 8 results 1 0.

(** [results] has one element only. *)
Definition ram_putcr (value : Z) : M S unit :=
  ram_instructions [mfspr 0 277; mtocrf 0 0; mtocrf 1 0; mtocrf 2 0; mtocrf 3 0; mtocrf 4 0; mtocrf 5 0; mtocrf 6 0; mtocrf 7 0]
                   [value];; mret tt.

Definition ram_putmsr (value : Z) : M S unit :=
  ram_instructions [mfspr 0 277; mtmsr 0] [value; 0];; mret tt.

Definition ram_getmem (addr : Z) : M S Z :=
  results ← ram_instructions [mfspr 0 277; mfspr 1 277; ld 0 0 1; mtspr 277 0] [0xdeaddeaddeaddead; addr; 0; 0];
  array_get results 3.

(** ** All registers *)

(** [struct thread_regs]: the value of each member and, for [gprs], each index. *)
Definition keep (name : string) (i : nat) (m : M S Z) (regs : gmap (string * nat) Z) : M S (gmap (string * nat) Z) :=
  r ← attempt m;
  mret (match r with inr v => <[(name, i) := v]> regs | inl _ => regs end).

(** [ram_getspr(thread, spr, &value); regs->name = value;] for a member of 32 bits *)
Definition keep32 (name : string) (spr : Z) (st : gmap (string * nat) Z * Z) : M S (gmap (string * nat) Z * Z) :=
  r ← attempt (ram_getspr spr);
  let value := match r with inr v => v | inl _ => st.2 end in
  mret (<[(name, 0%nat) := u32 value]> st.1, value).

Fixpoint keep_sprs (l : list (string * Z)) (regs : gmap (string * nat) Z) : M S (gmap (string * nat) Z) :=
  match l with
  | [] => mret regs
  | (name, spr) :: l' => regs ← keep name 0 (ram_getspr spr) regs; keep_sprs l' regs
  end.

Fixpoint keep_gprs (n i : nat) (regs : gmap (string * nat) Z) : M S (gmap (string * nat) Z) :=
  match n with
  | O => mret regs
  | Datatypes.S n' => regs ← keep "gprs" i (ram_getgpr (Z.of_nat i)) regs; keep_gprs n' (Datatypes.S i) regs
  end.

Definition ram_getregs (getxer : M S Z) (regs : gmap (string * nat) Z) : M S (gmap (string * nat) Z) :=
  ram_setup;;
  regs ← keep "nia" 0 ram_getnia regs;
  regs ← keep_sprs [("cfar", 28)] regs;
  regs ← keep "msr" 0 ram_getmsr regs;
  regs ← keep_sprs [("lr", 8); ("ctr", 9); ("tar", 815)] regs;
  regs ← keep "cr" 0 ram_getcr regs;
  regs ← keep "xer" 0 getxer regs;
  regs ← keep_gprs 32 0 regs;
  regs ← keep_sprs [("lpcr", 318); ("ptcr", 464); ("lpidr", 319); ("pidr", 48); ("hfscr", 190)] regs;
  '(regs, value) ← keep32 "hdsisr" 306 (regs, 0);
  regs ← keep_sprs [("hdar", 307)] regs;
  '(regs, value) ← keep32 "heir" 339 (regs, value);
  regs ← keep_sprs [("hid", 1008); ("hsrr0", 314); ("hsrr1", 315); ("hdec", 310); ("hsprg0", 304); ("hsprg1", 305);
                    ("fscr", 153)] regs;
  '(regs, value) ← keep32 "dsisr" 18 (regs, value);
  regs ← keep_sprs [("dar", 19); ("srr0", 26); ("srr1", 27); ("dec", 22); ("tb", 268); ("sprg0", 272); ("sprg1", 273);
                    ("sprg2", 274); ("sprg3", 275); ("ppr", 896)] regs;
  ram_destroy;;
  mret regs.
End Ram.
