(* ===== verification/RamFacts.v ===== *)
(** * libpdbg: ramming runs the instructions and restores the registers it uses *)

From S2P Require Import Prelude CMem Ram.

(** ** libpdbg: a thread as the instruction set describes it

    The instructions that ramming uses, decoded from their words and executed on the registers
    of a thread. This is what a thread is expected to do with the words that chip.c makes;
    register 277 gives access to the scratch register. *)

Record cpu := Cpu {
  gprs : list Z;
  sprs : gmap Z Z;          (* the registers the thread implements *)
  cr : Z;
  msr : Z;
  nia : Z
}.

Inductive instr :=
| Mfspr (rt spr : Z)
| Mtspr (spr rs : Z)
| Mfocrf (rt fxm : Z)
| Mtocrf (fxm rs : Z)
| Mfnia (rt : Z)
| Mtnia (rs : Z)
| Mfmsr (rt : Z)
| Mtmsr (rs : Z)
| Ld (rt ra disp : Z).

#[export] Instance instr_eq_dec : EqDecision instr.
Proof. solve_decision. Defined.

(** [bits hi n op]: the [n] bits of a 32-bit word up to bit [hi], counted from the right. *)
Definition bits (lo n op : Z) : Z := Z.land (Z.shiftr op lo) (Z.ones n).

Definition decode (op : Z) : option instr :=
  let rt := bits 21 5 op in
  let ra := bits 16 5 op in
  let xo := bits 1 10 op in
  let spr := Z.lor (bits 16 5 op) (Z.shiftl (bits 11 5 op) 5) in
  let fxm := bits 12 8 op in
  let prim := bits 26 38 op in
  if prim =? 31 then
    if xo =? 339 then Some (Mfspr rt spr)
    else if xo =? 467 then Some (Mtspr spr rt)
    else if (xo =? 19) && (bits 20 1 op =? 1) then Some (Mfocrf rt fxm)
    else if (xo =? 144) && (bits 20 1 op =? 1) then Some (Mtocrf fxm rt)
    else if xo =? 83 then Some (Mfmsr rt)
    else if xo =? 178 then Some (Mtmsr rt)
    else None
  else if (prim =? 58) && (bits 0 2 op =? 0) then Some (Ld rt ra (Z.shiftl (bits 2 14 op) 2))
  else if prim =? 0 then
    if bits 0 21 op =? 2 then Some (Mtnia rt) else if bits 0 21 op =? 4 then Some (Mfnia rt) else None
  else None.

Definition reg (c : cpu) (r : Z) : option Z := gprs c !! Z.to_nat r.
Definition set_reg (r v : Z) (c : cpu) : cpu := Cpu (<[Z.to_nat r := v]> (gprs c)) (sprs c) (cr c) (msr c) (nia c).
Definition set_spr (r v : Z) (c : cpu) : cpu := Cpu (gprs c) (<[r := v]> (sprs c)) (cr c) (msr c) (nia c).
Definition set_cr (v : Z) (c : cpu) : cpu := Cpu (gprs c) (sprs c) v (msr c) (nia c).
Definition set_msr (v : Z) (c : cpu) : cpu := Cpu (gprs c) (sprs c) (cr c) v (nia c).
Definition set_nia (v : Z) (c : cpu) : cpu := Cpu (gprs c) (sprs c) (cr c) (msr c) v.

Definition SPRD : Z := 277.

(** The field of the condition register that a one-hot mask selects. *)
Definition cr_mask (fxm : Z) : Z := Z.shiftl 0xf (4 * Z.log2 fxm).

Section Exec.
(** The memory; whether MTNIA takes its value from the link register; the bits of the target
    that MFOCRF leaves undefined. *)
Context (load : Z -> option Z) (nia_from_lr : bool) (undef : cpu -> Z).

(** The registers and the scratch register after the instruction; [None] for an exception. *)
Definition exec (i : instr) (c : cpu) (scratch : Z) : option (cpu * Z) :=
  match i with
  | Mfspr rt spr =>
      if spr =? SPRD then Some (set_reg rt scratch c, scratch)
      else v ← sprs c !! spr; Some (set_reg rt v c, scratch)
  | Mtspr spr rs =>
      v ← reg c rs;
      if spr =? SPRD then Some (c, v)
      else _ ← sprs c !! spr; Some (set_spr spr v c, scratch)
  | Mfocrf rt fxm =>
      let m := cr_mask fxm in
      Some (set_reg rt (Z.lor (Z.land (cr c) m) (Z.land (undef c) (Z.lnot m))) c, scratch)
  | Mtocrf fxm rs =>
      let m := cr_mask fxm in
      v ← reg c rs;
      Some (set_cr (Z.lor (Z.land (cr c) (Z.lnot m)) (Z.land v m)) c, scratch)
  | Mfnia rt => Some (set_reg rt (nia c) c, scratch)
  | Mtnia rs => v ← (if nia_from_lr then sprs c !! SPR_LR else reg c rs); Some (set_nia v c, scratch)
  | Mfmsr rt => Some (set_reg rt (msr c) c, scratch)
  | Mtmsr rs => v ← reg c rs; Some (set_msr v c, scratch)
  | Ld rt ra disp =>
      base ← (if ra =? 0 then Some 0 else reg c ra);
      v ← load (u64 (base + disp));
      Some (set_reg rt v c, scratch)
  end.

Definition run_word (op : Z) (c : cpu) (scratch : Z) : option (cpu * Z) := i ← decode op; exec i c scratch.
End Exec.

(** ** The words that are fed to a thread *)

Definition encode (i : instr) : Z :=
  match i with
  | Mfspr rt spr => mfspr rt spr
  | Mtspr spr rs => mtspr spr rs
  | Mfocrf rt fxm => mfocrf rt (Z.log2 fxm)
  | Mtocrf fxm rs => mtocrf (Z.log2 fxm) rs
  | Mfnia rt => mfnia rt
  | Mtnia rs => mtnia rs
  | Mfmsr rt => mfmsr rt
  | Mtmsr rs => mtmsr rs
  | Ld rt ra disp => ld rt (Z.shiftr disp 2) ra
  end.

(** The instructions that chip.c makes use of: the one for the next instruction address only
    with register 0, and no load with a displacement. *)
Definition used (i : instr) : Prop :=
  match i with
  | Mfspr r spr | Mtspr spr r => 0 <= r < 32 /\ 0 <= spr < 1024
  | Mfocrf r fxm | Mtocrf fxm r => r = 0 /\ exists k, 0 <= k < 8 /\ fxm = 2 ^ k
  | Mfnia r | Mtnia r | Mfmsr r | Mtmsr r => r = 0
  | Ld rt ra disp => rt = 0 /\ ra = 1 /\ disp = 0
  end.

Definition rammed (op : Z) : Prop := exists i, used i /\ op = encode i.

Lemma rammed_mfspr r spr : 0 <= r < 32 -> 0 <= spr < 1024 -> rammed (mfspr r spr).
Proof. intros. by exists (Mfspr r spr). Qed.
Lemma rammed_mtspr r spr : 0 <= r < 32 -> 0 <= spr < 1024 -> rammed (mtspr spr r).
Proof. intros. by exists (Mtspr spr r). Qed.
Lemma rammed_mfocrf k : 0 <= k < 8 -> rammed (mfocrf 0 k).
Proof. intros H. exists (Mfocrf 0 (2 ^ k)). split; [split; [done|by exists k]|]. cbn. by rewrite Z.log2_pow2 by lia. Qed.
Lemma rammed_mfnia : rammed (mfnia 0). Proof. by exists (Mfnia 0). Qed.
Lemma rammed_mtnia : rammed (mtnia 0). Proof. by exists (Mtnia 0). Qed.
Lemma rammed_mfmsr : rammed (mfmsr 0). Proof. by exists (Mfmsr 0). Qed.
Lemma rammed_mtmsr : rammed (mtmsr 0). Proof. by exists (Mtmsr 0). Qed.
Lemma rammed_ld : rammed (ld 0 0 1). Proof. by exists (Ld 0 1 0). Qed.

Create HintDb ram.
#[export] Hint Resolve rammed_mfspr rammed_mtspr rammed_mfocrf rammed_mfnia rammed_mtnia rammed_mfmsr rammed_mtmsr rammed_ld : ram.
#[export] Hint Extern 1 (_ <= _ < _) => lia : ram.
#[export] Hint Extern 1 (_ <= _ < _) => unfold SPR_LR; lia : ram.

(** ** The words are the instructions meant *)

Lemma all_below (P : Z -> bool) n : forallb P (seqZ 0 n) = true -> forall x, 0 <= x < n -> P x = true.
Proof. intros H x Hx. rewrite forallb_forall in H. apply H. apply list_elem_of_In, elem_of_seqZ. lia. Qed.

Lemma decode_mfspr rt spr : 0 <= rt < 32 -> 0 <= spr < 1024 -> decode (mfspr rt spr) = Some (Mfspr rt spr).
Proof.
  intros Hr Hs. apply (bool_decide_eq_true_1 _). revert spr Hs. apply (all_below _ 1024).
  revert rt Hr. apply (all_below (fun rt => forallb (fun spr => bool_decide (decode (mfspr rt spr) = Some (Mfspr rt spr))) (seqZ 0 1024)) 32).
  vm_compute. reflexivity.
Qed.

Lemma decode_mtspr spr rs : 0 <= rs < 32 -> 0 <= spr < 1024 -> decode (mtspr spr rs) = Some (Mtspr spr rs).
Proof.
  intros Hr Hs. apply (bool_decide_eq_true_1 _). revert spr Hs. apply (all_below _ 1024).
  revert rs Hr. apply (all_below (fun rs => forallb (fun spr => bool_decide (decode (mtspr spr rs) = Some (Mtspr spr rs))) (seqZ 0 1024)) 32).
  vm_compute. reflexivity.
Qed.

(** ** A thread that runs what it is given *)

Section Thread.
Context {S : Type} {Th : RamThread S} (view : S -> cpu) (ready : S -> Prop).
Context (load : Z -> option Z) (nia_from_lr : bool) (undef : cpu -> Z).
Implicit Types (s : S) (c : cpu) (h : gmap nat (list mval)).

Abbreviation run := (run_word load nia_from_lr undef).

(** A thread that is [ready] for it executes the words it is fed while it is set up. *)
Class RunsInstructions : Prop := {
  runs_one op scratch h n s : ready s -> ram_is_setup s = true -> rammed op ->
    wp (ram_instruction op scratch) (World h n s) (fun r w => exists s', w = World h n s' /\
      ready s' /\ ram_is_setup s' = true /\
      match run op (view s) scratch with
      | Some (c', scratch') => r = inr (0, scratch') /\ view s' = c'
      | None => (exists rc scratch', rc <> 0 /\ r = inr (rc, scratch')) /\ view s' = view s
      end);
  sets_up h n s : ready s -> ram_is_setup s = false ->
    wp ram_setup (World h n s) (fun r w => exists s', w = World h n s' /\ r = inr tt /\
      ready s' /\ ram_is_setup s' = true /\ view s' = view s);
  destroys h n s : ready s -> ram_is_setup s = true ->
    wp ram_destroy (World h n s) (fun r w => exists s', w = World h n s' /\ r = inr tt /\
      ready s' /\ ram_is_setup s' = false /\ view s' = view s)
}.

(** The instructions one after the other, each with its scratch value: the registers after
    them, the scratch values they leave, and whether none raised an exception. *)
Fixpoint run_seq (ops ins : list Z) c : cpu * list Z * bool :=
  match ops, ins with
  | op :: ops', x :: ins' =>
      match run op c x with
      | Some (c', x') => let '(c'', outs, ok) := run_seq ops' ins' c' in (c'', x' :: outs, ok)
      | None => (c, [], false)
      end
  | _, _ => (c, [], true)
  end.

Definition restore c0 c : cpu :=
  set_reg 1 (default 0 (reg c0 1)) (set_reg 0 (default 0 (reg c0 0)) c).

Context {Hth : RunsInstructions}.

(** A round whose instruction raises no exception. *)
Lemma wp_ram_round fuel opcodes results len i r0 r1 scratch exc op sc c' sc' h n s Q :
  ready s -> ram_is_setup s = true -> rammed op ->
  i < len + 2 -> ram_fetch (S := S) opcodes results len i r0 r1 scratch = mret (op, sc) ->
  run op (view s) sc = Some (c', sc') ->
  (forall s', ready s' -> ram_is_setup s' = true -> view s' = c' ->
     wp (results ← (if negb (i =? -2) && negb (i =? -1) && (i <? len) then array_set results i sc' else mret results);
         ram_loop fuel opcodes results len (i + 1) (if i =? -1 then sc' else r0) (if i =? -2 then sc' else r1) sc' exc)
        (World h n s') Q) ->
  wp (ram_loop (Datatypes.S fuel) opcodes results len i r0 r1 scratch exc) (World h n s) Q.
Proof.
  intros Hrd Hset Hop Hi Hfetch Hrun HQ. cbn [ram_loop]. destruct (Z.ltb_spec i (len + 2)); [|lia]. cbn [negb]. rewrite Hfetch.
  apply wp_bind, wp_ret, wp_bind. eapply wp_mono; [by apply runs_one|]. intros r w (s1 & -> & Hr1 & Hs1 & Hr).
  rewrite Hrun in Hr. destruct Hr as [-> Hv1]. cbn beta iota. cbn [truthy Z.eqb negb andb orb]. by apply HQ.
Qed.

Lemma run_mfsprd rt c x : 0 <= rt < 32 -> run (mfspr rt 277) c x = Some (set_reg rt x c, x).
Proof. intros H. unfold run_word. by rewrite decode_mfspr by lia. Qed.

Lemma run_mtsprd rs c x v : 0 <= rs < 32 -> reg c rs = Some v -> run (mtspr 277 rs) c x = Some (c, v).
Proof. intros H E. unfold run_word. rewrite decode_mtspr by lia. cbn. by rewrite E. Qed.

(** The end of the loop: registers 0 and 1 get their values back. *)
Lemma wp_ram_end fuel opcodes results r0 r1 scratch exc h n s Q :
  let len := Z.of_nat (length opcodes) in
  ready s -> ram_is_setup s = true ->
  (forall s', ready s' -> ram_is_setup s' = true -> view s' = set_reg 1 r1 (set_reg 0 r0 (view s)) ->
     Q (inr (exc, results)) (World h n s')) ->
  wp (ram_loop (3 + fuel) opcodes results len len r0 r1 scratch exc) (World h n s) Q.
Proof.
  intros len Hrd Hset HQ. assert (0 <= len) by lia.
  eapply (wp_ram_round _ _ _ _ _ _ _ _ _ (mfspr 0 277) r0); [done|done|auto with ram|lia| |by apply run_mfsprd|].
  { unfold ram_fetch. destruct (Z.eqb_spec len (-2)); [lia|]. destruct (Z.eqb_spec len (-1)); [lia|].
    by rewrite Z.ltb_irrefl, Z.eqb_refl. }
  intros s1 Hr1 Hs1 Hv1. rewrite Z.ltb_irrefl, andb_false_r. apply wp_bind, wp_ret.
  destruct (Z.eqb_spec len (-1)); [lia|]. destruct (Z.eqb_spec len (-2)); [lia|].
  eapply (wp_ram_round _ _ _ _ _ _ _ _ _ (mfspr 1 277) r1); [done|done|auto with ram|lia| |by apply run_mfsprd|].
  { unfold ram_fetch. destruct (Z.eqb_spec (len + 1) (-2)); [lia|]. destruct (Z.eqb_spec (len + 1) (-1)); [lia|].
    destruct (Z.ltb_spec (len + 1) len); [lia|]. destruct (Z.eqb_spec (len + 1) len); [lia|done]. }
  intros s2 Hr2 Hs2 Hv2. destruct (Z.ltb_spec (len + 1) len); [lia|]. rewrite andb_false_r. apply wp_bind, wp_ret.
  cbn [ram_loop]. destruct (Z.ltb_spec (len + 1 + 1) (len + 2)); [lia|]. apply wp_ret, HQ; congruence.
Qed.

(** The instructions from round [length done] on. *)
Lemma wp_ram_middle opcodes done ops ins outs r0 r1 scratch fuel h n s Q :
  opcodes = done ++ ops -> length outs = length done -> length ins = length ops ->
  (length ops + 3 <= fuel)%nat -> Forall rammed ops -> ready s -> ram_is_setup s = true ->
  (forall s' results, let '(c', outs', ok) := run_seq ops ins (view s) in
     ready s' -> ram_is_setup s' = true -> view s' = set_reg 1 r1 (set_reg 0 r0 c') ->
     (ok = true -> results = outs ++ outs') -> Q (inr (negb ok, results)) (World h n s')) ->
  wp (ram_loop fuel opcodes (outs ++ ins) (Z.of_nat (length opcodes)) (Z.of_nat (length done)) r0 r1 scratch false) (World h n s) Q.
Proof.
  revert done ins outs scratch fuel s. induction ops as [|op ops IH]; intros done [|x ins] outs scratch fuel s Eop Eout Ein Hf Hops Hrd Hset HQ;
    try (cbn in Ein; lia).
  - rewrite app_nil_r in *. subst done. replace fuel with (3 + (fuel - 3))%nat by (cbn in Hf; lia). apply wp_ram_end; [done..|].
    intros s' Hr Hs Hv. apply (HQ s' outs); try done. by rewrite app_nil_r.
  - apply Forall_cons in Hops as [Hop Hops]. assert ((outs ++ x :: ins) !! length done = Some x) as Ex by (rewrite <- Eout; apply list_lookup_middle; lia).
    assert (opcodes !! length done = Some op) as Eo by (rewrite Eop; by apply list_lookup_middle).
    set (len := Z.of_nat (length opcodes)) in *. set (i := Z.of_nat (length done)) in *.
    assert (0 <= i < len) as Hi by (unfold i, len; rewrite Eop, length_app; cbn; lia).
    assert (Z.of_nat (length (outs ++ x :: ins)) = len) as Elen by (unfold len; rewrite Eop, !length_app; cbn in *; lia).
    assert (ram_fetch (S := S) opcodes (outs ++ x :: ins) len i r0 r1 scratch = mret (op, x)) as Hfetch.
    { unfold ram_fetch, array_get. destruct (Z.eqb_spec i (-2)); [lia|]. destruct (Z.eqb_spec i (-1)); [lia|].
      destruct (Z.ltb_spec i len); [|lia]. destruct (Z.ltb_spec i 0); [lia|]. unfold i. by rewrite Nat2Z.id, Ex, Eo. }
    cbn in Hf. destruct fuel as [|fuel]; [lia|]. cbn [run_seq] in HQ. destruct (run op (view s) x) as [[c' x']|] eqn:Erun.
    + eapply wp_ram_round; [done|done|done|lia|exact Hfetch|exact Erun|]. intros s1 Hr1 Hs1 Hv1.
      destruct (Z.eqb_spec i (-2)); [lia|]. destruct (Z.eqb_spec i (-1)); [lia|]. destruct (Z.ltb_spec i len); [|lia].
      cbn [negb andb]. unfold array_set. rewrite Elen. destruct (Z.leb_spec 0 i); [|lia]. destruct (Z.ltb_spec i len); [|lia].
      cbn [andb]. apply wp_bind, wp_ret. unfold i. rewrite Nat2Z.id.
      replace (<[length done:=x']> (outs ++ x :: ins)) with ((outs ++ [x']) ++ ins)
        by (rewrite <- Eout, insert_app_r_alt, Nat.sub_diag, <- app_assoc by lia; done).
      replace (Z.of_nat (length done) + 1) with (Z.of_nat (length (done ++ [op]))) by (rewrite length_app; cbn; lia).
      apply IH; [by rewrite <- app_assoc|rewrite !length_app; cbn; lia|by injection Ein|lia|done|done|done|].
      rewrite Hv1. intros s2 results. destruct (run_seq ops ins c') as [[c2 outs'] ok]. specialize (HQ s2 results). cbn in HQ.
      intros Hr2 Hs2 Hv2 Hres. apply HQ; [done..|]. intros Hok. rewrite (Hres Hok), <- app_assoc. done.
    + cbn [ram_loop]. destruct (Z.ltb_spec i (len + 2)); [|lia]. cbn [negb]. rewrite Hfetch.
      apply wp_bind, wp_ret, wp_bind. eapply wp_mono; [by apply runs_one|]. intros r w (s1 & -> & Hr1 & Hs1 & Hr).
      rewrite Erun in Hr. destruct Hr as [(rc & sc' & Hrc & ->) Hv1]. cbn beta iota.
      replace (truthy rc) with true by (unfold truthy; destruct (Z.eqb_spec rc 0); done).
      destruct (Z.leb_spec 0 i); [|lia]. destruct (Z.ltb_spec i len); [|lia]. cbn [negb andb orb].
      destruct (Z.eqb_spec (len - 1) (-2)); [lia|]. destruct (Z.eqb_spec (len - 1) (-1)); [lia|].
      destruct (Z.ltb_spec (len - 1) len); [|lia]. cbn [negb andb]. unfold array_set. rewrite Elen.
      destruct (Z.leb_spec 0 (len - 1)); [|lia]. destruct (Z.ltb_spec (len - 1) len); [|lia]. cbn [andb].
      apply wp_bind, wp_ret. replace (len - 1 + 1) with len by lia. replace fuel with (3 + (fuel - 3))%nat by lia.
      apply wp_ram_end; [done..|]. intros s2 Hr2 Hs2 Hv2. apply (HQ s2); [done|done|by rewrite Hv2, Hv1|done].
Qed.

(** What the caller of [ram_instructions] gets: the registers as the instructions leave them,
    except 0 and 1, which are as before. *)
Definition ram_post {A} (s : S) (c : cpu) (res : Z + A) h (n : nat) (r : Z + A) (w : world S) : Prop :=
  exists s', w = World h n s' /\ ready s' /\ ram_is_setup s' = ram_is_setup s /\ view s' = restore (view s) c /\ r = res.

Lemma wp_ram_instructions ops ins h n s :
  length ins = length ops -> Forall rammed ops -> ready s -> length (gprs (view s)) = 32%nat ->
  let '(c, outs, ok) := run_seq ops ins (view s) in
  wp (ram_instructions ops ins) (World h n s) (ram_post s c (if ok then inr outs else inl 1) h n).
Proof.
  intros Elen Hops Hrd Hg. destruct (run_seq ops ins (view s)) as [[c outs] ok] eqn:Eseq. unfold ram_instructions.
  apply wp_bind, wp_get_st, wp_bind.
  assert (exists v0, reg (view s) 0 = Some v0) as [v0 E0] by (apply lookup_lt_is_Some_2; rewrite Hg; lia).
  assert (exists v1, reg (view s) 1 = Some v1) as [v1 E1] by (apply lookup_lt_is_Some_2; rewrite Hg; lia).
  (* the loop, from a thread that is set up *)
  assert (forall s1, ready s1 -> ram_is_setup s1 = true -> view s1 = view s ->
    wp (ram_loop (length ops + 5) ops ins (Z.of_nat (length ops)) (-2) 0 0 0 false) (World h n s1)
       (fun r w => exists s', w = World h n s' /\ ready s' /\ ram_is_setup s' = true /\ view s' = restore (view s) c /\
          exists results, r = inr (negb ok, results) /\ (ok = true -> results = outs))) as Hloop.
  { intros s1 Hr1 Hs1 Hv1. replace (length ops + 5)%nat with (Datatypes.S (Datatypes.S (length ops + 3))) by lia.
    eapply (wp_ram_round _ _ _ _ _ _ _ _ _ (mtspr 277 1) 0); [done|done|auto with ram|lia|done|apply run_mtsprd; [lia|by rewrite Hv1]|].
    intros s2 Hr2 Hs2 Hv2. apply wp_bind, wp_ret.
    eapply (wp_ram_round _ _ _ _ _ _ _ _ _ (mtspr 277 0) v1); [done|done|auto with ram|lia|done|apply run_mtsprd; [lia|by rewrite Hv2, Hv1]|].
    intros s3 Hr3 Hs3 Hv3. apply wp_bind, wp_ret. cbn [Z.eqb Z.add Pos.eqb].
    apply (wp_ram_middle ops [] ops ins []); [done|done|done|lia|done|done|done|]. rewrite Hv3, Hv2, Hv1. intros s4 results. rewrite Eseq.
    intros Hr4 Hs4 Hv4 Hres. exists s4. split_and!; [done|done|done| |by exists results]. rewrite Hv4. unfold restore. by rewrite E0, E1. }
  assert (forall s1, ready s1 -> ram_is_setup s1 = true -> view s1 = view s ->
    wp ('(exception, results) ← ram_loop (length ops + 5) ops ins (Z.of_nat (length ops)) (-2) 0 0 0 false;
        (if negb (ram_is_setup s) then ram_destroy else mret tt);; if exception : bool then fail 1 else mret results) (World h n s1)
       (ram_post s c (if ok then inr outs else inl 1) h n)) as Hrest.
  { intros s1 Hr1 Hs1 Hv1. apply wp_bind. eapply wp_mono; [by apply Hloop|].
    intros r w (s2 & -> & Hr2 & Hs2 & Hv2 & results & -> & Hres). cbn beta iota. apply wp_bind.
    assert (forall s3, ready s3 -> view s3 = restore (view s) c -> ram_is_setup s3 = ram_is_setup s ->
      wp (if negb ok then fail 1 else mret results) (World h n s3) (ram_post s c (if ok then inr outs else inl 1) h n)) as Hend.
    { intros s3 Hr3 Hv3 Hs3. destruct ok; cbn; [rewrite Hres by done; apply wp_ret|apply wp_fail]; by exists s3. }
    destruct (ram_is_setup s) eqn:Es; cbn [negb]; [by apply wp_ret, Hend|].
    eapply wp_mono; [by apply destroys|]. intros r w (s3 & -> & -> & Hr3 & Hs3 & Hv3). apply Hend; [done|congruence|done]. }
  destruct (ram_is_setup s) eqn:Es; cbn [negb] in *.
  - apply wp_ret. by apply Hrest.
  - eapply wp_mono; [by apply sets_up|]. intros r w (s1 & -> & -> & Hr1 & Hs1 & Hv1). by apply Hrest.
Qed.
End Thread.
