(* ===== verification/RamTheorems.v ===== *)
(** * libpdbg: the registers of a stopped thread *)

From S2P Require Import Prelude CMem Ram RamFacts.

(** ** Condition register fields *)

Lemma cr_field_of cr u m : Z.land m (Z.ones 32) = m ->
  Z.land (u32 (Z.lor (Z.land cr m) (Z.land u (Z.lnot m)))) m = Z.land cr m.
Proof.
  intros Hm. unfold wrap. rewrite <- Z.land_ones by lia. rewrite <- Z.land_assoc, (Z.land_comm (Z.ones 32)), Hm.
  apply Z.bits_inj'. intros i Hi. rewrite !Z.land_spec, Z.lor_spec, !Z.land_spec, Z.lnot_spec by lia.
  destruct (Z.testbit cr i), (Z.testbit m i), (Z.testbit u i); reflexivity.
Qed.

Section Registers.
Context {S : Type} {Th : RamThread S} (view : S -> cpu) (ready : S -> Prop).
Context (load : Z -> option Z) (nia_from_lr : bool) (undef : cpu -> Z).
Context {Hth : RunsInstructions view ready load nia_from_lr undef}.
Context (s : S) (h : gmap nat (list mval)) (n : nat) (Hrd : ready s) (Hg : length (gprs (view s)) = 32%nat).
Abbreviation seq := (run_seq load nia_from_lr undef).

(** [words]: the opcodes are words that are fed to threads. *)
Ltac words := repeat constructor; auto with ram.

(** The thread has the registers [c] and is still ready, and the call gave [res]. *)
Definition leaves {A} (c : cpu) (res : Z + A) (r : Z + A) (w : world S) : Prop :=
  exists s', w = World h n s' /\ ready s' /\ ram_is_setup s' = ram_is_setup s /\ view s' = c /\ r = res.

Lemma wp_ram ops ins c outs ok c' Q :
  length ins = length ops -> Forall rammed ops -> seq ops ins (view s) = (c, outs, ok) -> restore (view s) c = c' ->
  (forall s', ready s' -> ram_is_setup s' = ram_is_setup s -> view s' = c' -> Q (if ok then inr outs else inl 1) (World h n s')) ->
  wp (ram_instructions ops ins) (World h n s) Q.
Proof.
  intros El Ho Es Ec HQ. pose proof (wp_ram_instructions view ready load nia_from_lr undef ops ins h n s El Ho Hrd Hg) as W. rewrite Es in W.
  eapply wp_mono; [exact W|]. intros r w (s' & -> & ? & ? & ? & ->). apply HQ; congruence.
Qed.

Lemma two_gprs : exists a b l, gprs (view s) = a :: b :: l /\ length l = 30%nat.
Proof. destruct (gprs (view s)) as [|a [|b l]]; [done..|]. exists a, b, l. cbn in Hg. split; [done|lia]. Qed.

Lemma gpr_Some g : 0 <= g < 32 -> exists v, reg (view s) g = Some v.
Proof. intros H. apply lookup_lt_is_Some_2. rewrite Hg. lia. Qed.

Lemma restore_id : restore (view s) (view s) = view s.
Proof.
  destruct two_gprs as (a & b & l & E & _). unfold restore, set_reg, reg. cbn. rewrite E. cbn.
  destruct (view s). cbn in *. by rewrite E.
Qed.

Lemma restore_0 x : restore (view s) (set_reg 0 x (view s)) = view s.
Proof.
  destruct two_gprs as (a & b & l & E & _). unfold restore, set_reg, reg. cbn. rewrite E. cbn.
  destruct (view s). cbn in *. by rewrite E.
Qed.

Lemma restore_set_0 x c : restore (view s) (set_reg 0 x c) = restore (view s) c.
Proof. unfold restore, set_reg. cbn [gprs sprs cr msr nia]. by rewrite list_insert_insert_eq. Qed.

Lemma wp_getgpr g v : 0 <= g < 32 -> reg (view s) g = Some v ->
  wp (ram_getgpr g) (World h n s) (leaves (view s) (inr v)).
Proof.
  intros Hr Ev. unfold ram_getgpr. apply wp_bind.
  eapply wp_ram; [done|words|cbn [run_seq]; by rewrite (run_mtsprd _ _ _ _ _ _ v)|apply restore_id|].
  intros s' Hr' Hs Hv. apply wp_ret. by exists s'.
Qed.

Lemma restore_far g x : 2 <= g < 32 -> restore (view s) (set_reg g x (view s)) = set_reg g x (view s).
Proof.
  intros Hr. destruct two_gprs as (a & b & l & E & _). unfold restore, set_reg, reg. cbn.
  replace (Z.to_nat g) with (Datatypes.S (Datatypes.S (Z.to_nat (g - 2)))) by lia. rewrite E. done.
Qed.

Lemma wp_putgpr g x : 2 <= g < 32 -> wp (ram_putgpr g x) (World h n s) (leaves (set_reg g x (view s)) (inr tt)).
Proof.
  intros Hr. unfold ram_putgpr. apply wp_bind.
  eapply wp_ram; [done|words|cbn [run_seq]; by rewrite run_mfsprd by lia|by apply restore_far|].
  intros s' Hr' Hs Hv. apply wp_ret. by exists s'.
Qed.

(** Registers 0 and 1 are restored after they have been set. *)
Lemma wp_putgpr_lost g x : 0 <= g < 2 -> wp (ram_putgpr g x) (World h n s) (leaves (view s) (inr tt)).
Proof.
  intros Hr. unfold ram_putgpr. apply wp_bind.
  eapply wp_ram; [done|words|cbn [run_seq]; by rewrite run_mfsprd by lia| |].
  - instantiate (1 := view s). destruct two_gprs as (a & b & l & E & _). unfold restore, set_reg, reg.
    assert (g = 0 \/ g = 1) as [-> | ->] by lia; cbn; rewrite E; cbn; destruct (view s); cbn in *; by rewrite E.
  - intros s' Hr' Hs Hv. apply wp_ret. by exists s'.
Qed.

Lemma run_mfspr rt spr c x : 0 <= rt < 32 -> 0 <= spr < 1024 -> spr <> SPRD ->
  run_word load nia_from_lr undef (mfspr rt spr) c x = v ← sprs c !! spr; Some (set_reg rt v c, x).
Proof. intros Hr Hs Hne. unfold run_word. rewrite decode_mfspr by lia. cbn. by destruct (Z.eqb_spec spr SPRD). Qed.

Lemma run_mtspr rs spr c x : 0 <= rs < 32 -> 0 <= spr < 1024 -> spr <> SPRD ->
  run_word load nia_from_lr undef (mtspr spr rs) c x = v ← reg c rs; _ ← sprs c !! spr; Some (set_spr spr v c, x).
Proof. intros Hr Hs Hne. unfold run_word. rewrite decode_mtspr by lia. cbn. by destruct (Z.eqb_spec spr SPRD). Qed.

Lemma reg_set_0 x c : (0 < length (gprs c))%nat -> reg (set_reg 0 x c) 0 = Some x.
Proof. intros H. unfold reg, set_reg. cbn. by apply list_lookup_insert_eq. Qed.

Lemma wp_getspr spr : 0 <= spr < 1024 -> spr <> SPRD ->
  wp (ram_getspr spr) (World h n s)
     (leaves (view s) (match sprs (view s) !! spr with Some v => inr v | None => inl 1 end)).
Proof.
  intros Hs Hne. unfold ram_getspr. apply wp_bind. destruct (sprs (view s) !! spr) as [v|] eqn:Ev.
  - eapply wp_ram; [done|words| |apply (restore_0 v)|].
    + cbn [run_seq]. rewrite run_mfspr, Ev by lia. cbn [mbind option_bind].
      by rewrite (run_mtsprd _ _ _ _ _ _ v) by (lia || apply reg_set_0; lia).
    + intros s' Hr' Hs' Hv. apply wp_ret. by exists s'.
  - eapply wp_ram; [done|words|cbn [run_seq]; by rewrite run_mfspr, Ev by lia|apply restore_id|].
    intros s' Hr' Hs' Hv. by exists s'.
Qed.

Lemma restore_sets f x : (forall c v, f (set_reg 0 v c) = set_reg 0 v (f c)) ->
  (forall c v, f (set_reg 1 v c) = set_reg 1 v (f c)) -> restore (view s) (f (set_reg 0 x (view s))) = f (view s).
Proof.
  intros H0 H1. trans (f (restore (view s) (set_reg 0 x (view s)))); [|by rewrite restore_0].
  unfold restore. by rewrite H1, !H0.
Qed.

Lemma wp_putspr spr x : 0 <= spr < 1024 -> spr <> SPRD ->
  wp (ram_putspr spr x) (World h n s)
     (match sprs (view s) !! spr with
      | Some _ => leaves (set_spr spr x (view s)) (inr tt)
      | None => leaves (view s) (inl 1)
      end).
Proof.
  intros Hs Hne. unfold ram_putspr. apply wp_bind.
  assert (forall ins, seq [mfspr 0 277; mtspr spr 0] [x; ins] (view s) =
    match sprs (view s) !! spr with
    | Some _ => (set_spr spr x (set_reg 0 x (view s)), [x; ins], true)
    | None => (set_reg 0 x (view s), [x], false)
    end) as E.
  { intros ins. cbn [run_seq]. rewrite run_mfsprd, run_mtspr, reg_set_0 by lia. cbn. by destruct (sprs (view s) !! spr). }
  destruct (sprs (view s) !! spr).
  - eapply wp_ram; [done|words|apply E|by apply (restore_sets (set_spr spr x))|]. intros s' Hr' Hs' Hv. apply wp_ret. by exists s'.
  - eapply wp_ram; [done|words|apply E|apply restore_0|]. intros s' Hr' Hs' Hv. by exists s'.
Qed.

Lemma wp_getnia : wp ram_getnia (World h n s) (leaves (view s) (inr (nia (view s)))).
Proof.
  unfold ram_getnia. apply wp_bind. eapply wp_ram; [done|words| |apply (restore_0 (nia (view s)))|].
  - cbn [run_seq]. change (run_word load nia_from_lr undef (mfnia 0) (view s) 0) with (Some (set_reg 0 (nia (view s)) (view s), 0)).
    cbv beta iota. by rewrite (run_mtsprd _ _ _ _ _ _ (nia (view s))) by (lia || apply reg_set_0; lia).
  - intros s' Hr' Hs' Hv. apply wp_ret. by exists s'.
Qed.

Lemma wp_getmsr : wp ram_getmsr (World h n s) (leaves (view s) (inr (msr (view s)))).
Proof.
  unfold ram_getmsr. apply wp_bind. eapply wp_ram; [done|words| |apply (restore_0 (msr (view s)))|].
  - cbn [run_seq]. change (run_word load nia_from_lr undef (mfmsr 0) (view s) 0) with (Some (set_reg 0 (msr (view s)) (view s), 0)).
    cbv beta iota. by rewrite (run_mtsprd _ _ _ _ _ _ (msr (view s))) by (lia || apply reg_set_0; lia).
  - intros s' Hr' Hs' Hv. apply wp_ret. by exists s'.
Qed.

Lemma wp_putmsr x : wp (ram_putmsr x) (World h n s) (leaves (set_msr x (view s)) (inr tt)).
Proof.
  unfold ram_putmsr. apply wp_bind. eapply wp_ram; [done|words| |by apply (restore_sets (set_msr x) x)|].
  - cbn [run_seq]. rewrite run_mfsprd by lia. cbv beta iota.
    assert (run_word load nia_from_lr undef (mtmsr 0) (set_reg 0 x (view s)) 0 = Some (set_msr x (set_reg 0 x (view s)), 0)) as ->;
      [|done].
    unfold run_word. change (decode (mtmsr 0)) with (Some (Mtmsr 0)). cbn. by rewrite reg_set_0 by lia.
  - intros s' Hr' Hs' Hv. apply wp_ret. by exists s'.
Qed.

(** The next instruction address is taken from the link register or from register 0; both hold
    it, and the link register is put back. *)
Lemma wp_putnia x lr : sprs (view s) !! SPR_LR = Some lr ->
  wp (ram_putnia x) (World h n s) (leaves (set_nia x (view s)) (inr tt)).
Proof.
  intros El. unfold ram_putnia. apply wp_bind. destruct two_gprs as (a & b & l & E & _).
  eapply wp_ram; [done|words| |instantiate (1 := set_nia x (view s))|].
  - cbn [run_seq]. rewrite run_mfspr by (unfold SPRD; lia). change 8 with SPR_LR. rewrite El. cbn [mbind option_bind].
    rewrite run_mfsprd, run_mtspr by (unfold SPRD, SPR_LR; lia). rewrite reg_set_0 by (cbn; rewrite length_insert; lia).
    cbn [mbind option_bind sprs set_reg]. rewrite El. cbn [mbind option_bind].
    assert (run_word load nia_from_lr undef (mtnia 0) (set_spr SPR_LR x (set_reg 0 x (set_reg 1 lr (view s)))) 0 =
      Some (set_nia x (set_spr SPR_LR x (set_reg 0 x (set_reg 1 lr (view s)))), 0)) as ->.
    { unfold run_word. change (decode (mtnia 0)) with (Some (Mtnia 0)). cbn [mbind option_bind exec].
      destruct nia_from_lr; cbn; [by rewrite lookup_insert_eq|]. unfold reg. cbn. rewrite E. done. }
    rewrite run_mtspr by (unfold SPRD, SPR_LR; lia). unfold reg. cbn. rewrite E. cbn. rewrite lookup_insert_eq. reflexivity.
  - unfold restore, set_reg, set_nia, set_spr, reg. cbn. rewrite E. cbn. by rewrite insert_insert_eq, insert_id.
  - intros s' Hr' Hs' Hv. apply wp_ret. by exists s'.
Qed.

Lemma wp_getmem addr : in_range 64 addr ->
  wp (ram_getmem addr) (World h n s) (leaves (view s) (match load addr with Some v => inr v | None => inl 1 end)).
Proof.
  intros Ha. unfold ram_getmem. apply wp_bind. destruct two_gprs as (a & b & l & E & _).
  set (k := 0xdeaddeaddeaddead).
  assert (run_word load nia_from_lr undef (ld 0 0 1) (set_reg 1 addr (set_reg 0 k (view s))) 0 =
    v ← load addr; Some (set_reg 0 v (set_reg 1 addr (set_reg 0 k (view s))), 0)) as Eld.
  { unfold run_word. change (decode (ld 0 0 1)) with (Some (Ld 0 1 0)). cbn [mbind option_bind exec Z.eqb].
    assert (reg (set_reg 1 addr (set_reg 0 k (view s))) 1 = Some addr) as -> by (unfold reg, set_reg; cbn; by rewrite E).
    cbn [mbind option_bind]. by rewrite Z.add_0_r, wrap_small. }
  assert (forall x y, restore (view s) (set_reg 0 x (set_reg 1 y (set_reg 0 k (view s)))) = view s) as Hres.
  { intros x y. unfold restore, set_reg, reg. cbn. rewrite E. cbn. destruct (view s). cbn in *. by rewrite E. }
  destruct (load addr) as [v|].
  - eapply wp_ram; [done|words| |apply (Hres v addr)|].
    + cbn [run_seq]. rewrite !run_mfsprd, Eld by lia. cbn [mbind option_bind].
      rewrite (run_mtsprd _ _ _ _ _ _ v); [done|lia|]. unfold reg, set_reg. cbn. by rewrite E.
    + intros s' Hr' Hs' Hv. apply wp_ret. by exists s'.
  - eapply wp_ram; [done|words|cbn [run_seq]; by rewrite !run_mfsprd, Eld by lia| |].
    + instantiate (1 := view s). unfold restore, set_reg, reg. cbn. rewrite E. cbn. destruct (view s). cbn in *. by rewrite E.
    + intros s' Hr' Hs' Hv. by exists s'.
Qed.

(** One field of the condition register. *)
Definition field_of (k : Z) (c : cpu) : Z :=
  Z.lor (Z.land (cr c) (Z.shiftl 0xf (4 * k))) (Z.land (undef c) (Z.lnot (Z.shiftl 0xf (4 * k)))).

Lemma masked_field k c m : 0 <= k < 8 -> m = Z.shiftl 0xf (4 * k) -> Z.land (u32 (field_of k c)) m = Z.land (cr c) m.
Proof.
  intros Hk ->. apply cr_field_of. rewrite Z.land_ones by lia. apply Z.mod_small. split; [apply Z.shiftl_nonneg; lia|].
  rewrite Z.shiftl_mul_pow2 by lia. pose proof (Z.pow_le_mono_r 2 (4 * k) 28). lia.
Qed.

Lemma seq_field k ops ins c : 0 <= k < 8 -> (0 < length (gprs c))%nat ->
  seq (mfocrf 0 k :: mtspr 277 0 :: ops) (0 :: 0 :: ins) c =
  (let '(c', outs, ok) := seq ops ins (set_reg 0 (field_of k c) c) in (c', 0 :: field_of k c :: outs, ok)).
Proof.
  intros Hk Hl. cbn [run_seq].
  assert (run_word load nia_from_lr undef (mfocrf 0 k) c 0 = Some (set_reg 0 (field_of k c) c, 0)) as ->.
  { assert (k = 0 \/ k = 1 \/ k = 2 \/ k = 3 \/ k = 4 \/ k = 5 \/ k = 6 \/ k = 7) as Hin by lia.
    destruct_or! Hin; subst k; reflexivity. }
  rewrite (run_mtsprd _ _ _ _ _ _ (field_of k c)) by (lia || apply reg_set_0; done).
  by destruct (seq ops ins _) as [[? ?] ?].
Qed.

Lemma wp_getcr : in_range 32 (cr (view s)) -> wp ram_getcr (World h n s) (leaves (view s) (inr (cr (view s)))).
Proof.
  intros Hcr. unfold ram_getcr. apply wp_bind. destruct two_gprs as (a & b & l & E & _).
  set (c0 := view s). assert (0 < length (gprs c0))%nat as L by (unfold c0; lia).
  assert (forall x c, (0 < length (gprs c))%nat -> (0 < length (gprs (set_reg 0 x c)))%nat) as Lset
    by (intros x c H; cbn; by rewrite length_insert).
  set (c1 := set_reg 0 (field_of 0 c0) c0). set (c2 := set_reg 0 (field_of 1 c1) c1).
  set (c3 := set_reg 0 (field_of 2 c2) c2). set (c4 := set_reg 0 (field_of 3 c3) c3).
  set (c5 := set_reg 0 (field_of 4 c4) c4). set (c6 := set_reg 0 (field_of 5 c5) c5).
  set (c7 := set_reg 0 (field_of 6 c6) c6). set (c8 := set_reg 0 (field_of 7 c7) c7).
  assert (seq cr_opcodes (replicate 16 0) c0 =
    (c8, [0; field_of 0 c0; 0; field_of 1 c1; 0; field_of 2 c2; 0; field_of 3 c3;
          0; field_of 4 c4; 0; field_of 5 c5; 0; field_of 6 c6; 0; field_of 7 c7], true)) as Eseq.
  { unfold cr_opcodes. cbn [replicate].
    rewrite (seq_field 0 _ _ c0), (seq_field 1 _ _ c1), (seq_field 2 _ _ c2), (seq_field 3 _ _ c3),
      (seq_field 4 _ _ c4), (seq_field 5 _ _ c5), (seq_field 6 _ _ c6), (seq_field 7 _ _ c7) by (lia || (subst c1 c2 c3 c4 c5 c6 c7; auto 10)). done. }
  eapply wp_ram; [done|words|exact Eseq| |].
  - instantiate (1 := view s). unfold c8, c7, c6, c5, c4, c3, c2, c1. rewrite !restore_set_0. apply restore_id.
  - intros s' Hr' Hs' Hv. cbn [cr_fields].
    repeat (apply wp_bind, (wp_array_get _ _ _ _); [lia|reflexivity|]). apply wp_ret. exists s'. split_and!; try done. f_equal.
    rewrite (masked_field 0), (masked_field 1), (masked_field 2), (masked_field 3), (masked_field 4), (masked_field 5),
      (masked_field 6), (masked_field 7) by (lia || reflexivity).
    change (cr c1) with (cr c0). change (cr c2) with (cr c0). change (cr c3) with (cr c0). change (cr c4) with (cr c0).
    change (cr c5) with (cr c0). change (cr c6) with (cr c0). change (cr c7) with (cr c0).
    rewrite Z.lor_0_l, <- !Z.land_lor_distr_r. change (Z.land (cr c0) (Z.ones 32) = cr c0).
    rewrite Z.land_ones by lia. apply Z.mod_small. exact Hcr.
Qed.
End Registers.

(** ** Register access *)

(** C38: reading and writing the registers of a stopped thread. On a thread that
    is ready to execute the words it is fed as the instruction set says, with 32 general
    registers, every read of a general register, of a special register other than the scratch
    register 277, of the next instruction address, the machine state and the condition
    register gives the register and leaves all registers of the thread as they were, the
    general registers 0 and 1 that ramming uses included. A write to a general register from 2
    on, to such a special register, to the next instruction address (on a thread with a link
    register) or to the machine state changes exactly that register. A write to general
    register 0 or 1 reports success and changes nothing: the value is replaced by the one saved
    when ramming began. A special register the thread does not implement and an address it
    cannot load are reported as an error with no register changed. The condition register is
    put together from the eight fields though each read leaves the other fields undefined. The
    thread is set up for ramming after the call exactly if it was before. *)
Theorem ram_register_access {S : Type} {Th : RamThread S} (view : S -> cpu) (ready : S -> Prop) (load : Z -> option Z) (nia_from_lr : bool)
    (undef : cpu -> Z) (Hth : RunsInstructions view ready load nia_from_lr undef) (s : S) (h : gmap nat (list mval)) (n : nat) :
  ready s -> length (gprs (view s)) = 32%nat -> in_range 32 (cr (view s)) ->
  let c := view s in
  let gives {A} (m : M S A) (c' : cpu) (r : Z + A) := wp m (World h n s) (leaves view ready s h n c' r) in
  (forall g v, 0 <= g < 32 -> reg c g = Some v -> gives (ram_getgpr g) c (inr v)) /\
  (forall g x, 2 <= g < 32 -> gives (ram_putgpr g x) (set_reg g x c) (inr tt)) /\
  (forall g x, 0 <= g < 2 -> gives (ram_putgpr g x) c (inr tt)) /\
  (forall spr, 0 <= spr < 1024 -> spr <> SPRD ->
     gives (ram_getspr spr) c (match sprs c !! spr with Some v => inr v | None => inl 1 end)) /\
  (forall spr x, 0 <= spr < 1024 -> spr <> SPRD ->
     match sprs c !! spr with
     | Some _ => gives (ram_putspr spr x) (set_spr spr x c) (inr tt)
     | None => gives (ram_putspr spr x) c (inl 1)
     end) /\
  gives ram_getnia c (inr (nia c)) /\
  (forall x, is_Some (sprs c !! SPR_LR) -> gives (ram_putnia x) (set_nia x c) (inr tt)) /\
  gives ram_getmsr c (inr (msr c)) /\
  (forall x, gives (ram_putmsr x) (set_msr x c) (inr tt)) /\
  gives ram_getcr c (inr (cr c)) /\
  (forall addr, in_range 64 addr -> gives (ram_getmem addr) c (match load addr with Some v => inr v | None => inl 1 end)).
Proof.
  intros Hrd Hg Hcr c gives. unfold gives, c. split_and!.
  - intros. by eapply wp_getgpr.
  - intros. by eapply wp_putgpr.
  - intros. by eapply wp_putgpr_lost.
  - intros. by eapply wp_getspr.
  - intros spr x Hs Hne. pose proof (wp_putspr view ready load nia_from_lr undef s h n Hrd Hg spr x Hs Hne) as W.
    by destruct (sprs (view s) !! spr).
  - by eapply wp_getnia.
  - intros x [lr Hlr]. by eapply wp_putnia.
  - by eapply wp_getmsr.
  - intros. by eapply wp_putmsr.
  - by eapply wp_getcr.
  - intros. by eapply wp_getmem.
Qed.

(** ** libpdbg: all registers of a thread at once

    [ram_getregs] reads the registers one by one and goes on when a read fails. Here it is
    shown to take a snapshot of the thread. *)

Abbreviation regmap := (gmap (string * nat) Z).

(** A member that is set when there is a value. *)
Definition put_opt (name : string) (i : nat) (r : option Z) (regs : regmap) : regmap :=
  match r with Some v => <[(name, i) := v]> regs | None => regs end.

Abbreviation update := (string * nat * option Z)%type.
Definition put_all (l : list update) (regs : regmap) : regmap := foldl (fun regs u => put_opt u.1.1 u.1.2 u.2 regs) regs l.

Definition spr_updates (c : cpu) (l : list (string * Z)) : list update := (fun p => (p.1, 0%nat, sprs c !! p.2)) <$> l.
Definition gpr_updates (c : cpu) (k i : nat) : list update := (fun j => ("gprs", j, gprs c !! j)) <$> seq i k.

(** The members of [struct thread_regs], each with the register that it shows; [None] for a
    register that the thread does not have. A member of 32 bits shows the last value read when
    its own register cannot be read. *)
Definition members (c : cpu) (xer : option Z) : list update :=
  let hdsisr := default 0 (sprs c !! 306) in
  let heir := default hdsisr (sprs c !! 339) in
  let dsisr := default heir (sprs c !! 18) in
  ("nia", 0%nat, Some (nia c)) :: spr_updates c [("cfar", 28)] ++
  ("msr", 0%nat, Some (msr c)) :: spr_updates c [("lr", 8); ("ctr", 9); ("tar", 815)] ++
  ("cr", 0%nat, Some (cr c)) :: ("xer", 0%nat, xer) :: gpr_updates c 32 0 ++
  spr_updates c [("lpcr", 318); ("ptcr", 464); ("lpidr", 319); ("pidr", 48); ("hfscr", 190)] ++
  ("hdsisr", 0%nat, Some (u32 hdsisr)) :: spr_updates c [("hdar", 307)] ++
  ("heir", 0%nat, Some (u32 heir)) ::
  spr_updates c [("hid", 1008); ("hsrr0", 314); ("hsrr1", 315); ("hdec", 310); ("hsprg0", 304); ("hsprg1", 305); ("fscr", 153)] ++
  ("dsisr", 0%nat, Some (u32 dsisr)) ::
  spr_updates c [("dar", 19); ("srr0", 26); ("srr1", 27); ("dec", 22); ("tb", 268); ("sprg0", 272); ("sprg1", 273);
                 ("sprg2", 274); ("sprg3", 275); ("ppr", 896)].

Lemma lookup_put_opt name i r regs k :
  put_opt name i r regs !! k = (if decide (k = (name, i)) then match r with Some v => Some v | None => regs !! k end else regs !! k).
Proof.
  unfold put_opt. destruct r as [v|]; case_decide as E; try done; subst; [apply lookup_insert_eq|by apply lookup_insert_ne].
Qed.

Lemma lookup_put_all_ne l regs k : k ∉ l.*1 -> put_all l regs !! k = regs !! k.
Proof.
  unfold put_all. revert regs. induction l as [|[[name i] r] l IH]; intros regs Hk; [done|]. cbn in *.
  rewrite IH, lookup_put_opt by set_solver. rewrite decide_False by set_solver. done.
Qed.

Lemma lookup_put_all l regs k r : NoDup l.*1 -> (k, r) ∈ l ->
  put_all l regs !! k = match r with Some v => Some v | None => regs !! k end.
Proof.
  unfold put_all. revert regs. induction l as [|[[name i] r'] l IH]; intros regs Hnd Hin; [by apply elem_of_nil in Hin|].
  cbn in *. apply NoDup_cons in Hnd as [Hni Hnd]. apply elem_of_cons in Hin as [E|Hin].
  - simplify_eq. pose proof (lookup_put_all_ne l (put_opt name i r' regs) (name, i) Hni) as Ek. unfold put_all in Ek.
    by rewrite Ek, lookup_put_opt, decide_True.
  - rewrite (IH _ Hnd Hin), lookup_put_opt, decide_False; [done|]. intros ->. apply Hni, list_elem_of_fmap. by exists ((name, i), r).
Qed.

Lemma members_distinct c xer : NoDup (members c xer).*1.
Proof. apply (bool_decide_eq_true_1 _). vm_compute. reflexivity. Qed.

Lemma put_all_app l1 l2 regs : put_all (l1 ++ l2) regs = put_all l2 (put_all l1 regs).
Proof. apply foldl_app. Qed.

Section Regs.
Context {S : Type} {Th : RamThread S} (view : S -> cpu) (ready : S -> Prop).
Context (load : Z -> option Z) (nia_from_lr : bool) (undef : cpu -> Z).
Context {Hth : RunsInstructions view ready load nia_from_lr undef}.
Context (c : cpu) (h : gmap nat (list mval)) (n : nat) (Hg : length (gprs c) = 32%nat) (Hcr : in_range 32 (cr c)).
Implicit Types (s : S) (regs : regmap).

(** [m] reads [r] from a thread with the registers [c], which stays as it is. *)
Definition reads (m : M S Z) (r : option Z) : Prop :=
  forall s, ready s -> view s = c ->
  wp m (World h n s) (leaves view ready s h n c (match r with Some v => inr v | None => inl 1 end)).

Lemma reads_spr spr : 0 <= spr < 1024 -> spr <> SPRD -> reads (ram_getspr spr) (sprs c !! spr).
Proof. intros H1 H2 s Hr <-. by eapply wp_getspr. Qed.
Lemma reads_gpr (i : nat) : (i < 32)%nat -> reads (ram_getgpr (Z.of_nat i)) (gprs c !! i).
Proof.
  intros H1 s Hr <-. assert (is_Some (gprs (view s) !! i)) as [v E] by (apply lookup_lt_is_Some_2; lia). rewrite E.
  eapply (wp_getgpr view ready load nia_from_lr undef); [done|exact Hg|lia|]. unfold reg. by rewrite Nat2Z.id.
Qed.
Lemma reads_nia : reads ram_getnia (Some (nia c)).
Proof. intros s Hr <-. by eapply wp_getnia. Qed.
Lemma reads_msr : reads ram_getmsr (Some (msr c)).
Proof. intros s Hr <-. by eapply wp_getmsr. Qed.
Lemma reads_cr : reads ram_getcr (Some (cr c)).
Proof. intros s Hr <-. by eapply wp_getcr. Qed.

(** The next step of [ram_getregs] runs on the same registers. *)
Definition goes_on {A} (s : S) (a : A) (Q : Z + A -> world S -> Prop) : Prop :=
  forall s', ready s' -> view s' = c -> ram_is_setup s' = ram_is_setup s -> Q (inr a) (World h n s').

Lemma wp_keep name i m r regs s Q : reads m r -> ready s -> view s = c -> goes_on s (put_opt name i r regs) Q ->
  wp (keep name i m regs) (World h n s) Q.
Proof.
  intros Hm Hrd Hv HQ. unfold keep. apply wp_bind, wp_attempt. eapply wp_mono; [by apply Hm|].
  intros x w (s' & -> & Hr' & Hs & Hv' & ->). destruct r; apply wp_ret; by apply HQ.
Qed.

Lemma wp_keep32 name spr st s Q : 0 <= spr < 1024 -> spr <> SPRD -> ready s -> view s = c ->
  goes_on s (<[(name, 0%nat) := u32 (default st.2 (sprs c !! spr))]> st.1, default st.2 (sprs c !! spr)) Q ->
  wp (keep32 name spr st) (World h n s) Q.
Proof.
  intros H1 H2 Hrd Hv HQ. unfold keep32. apply wp_bind, wp_attempt. eapply wp_mono; [by apply reads_spr|].
  intros x w (s' & -> & Hr' & Hs & Hv' & ->). destruct (sprs c !! spr); apply wp_ret; by apply HQ.
Qed.

Lemma wp_keep_sprs l regs s Q : Forall (fun p => 0 <= p.2 < 1024 /\ p.2 <> SPRD) l -> ready s -> view s = c ->
  goes_on s (put_all (spr_updates c l) regs) Q -> wp (keep_sprs l regs) (World h n s) Q.
Proof.
  revert regs s. induction l as [|[name spr] l IH]; intros regs s Hl Hrd Hv HQ; cbn [keep_sprs]; [apply wp_ret; by apply HQ|].
  apply Forall_cons in Hl as [[H1 H2] Hl]. apply wp_bind. eapply wp_keep; [by apply reads_spr|done|done|].
  intros s' Hr' Hv' Hs'. apply IH; [done..|]. intros s2 Hr2 Hv2 Hs2. apply HQ; congruence.
Qed.

Lemma wp_keep_gprs k i regs s Q : (i + k <= 32)%nat -> ready s -> view s = c ->
  goes_on s (put_all (gpr_updates c k i) regs) Q -> wp (keep_gprs k i regs) (World h n s) Q.
Proof.
  revert i regs s. induction k as [|k IH]; intros i regs s Hi Hrd Hv HQ; cbn [keep_gprs]; [apply wp_ret; by apply HQ|].
  apply wp_bind. eapply wp_keep; [apply reads_gpr; lia|done|done|].
  intros s' Hr' Hv' Hs'. apply IH; [lia|done..|]. intros s2 Hr2 Hv2 Hs2. apply HQ; congruence.
Qed.

Lemma wp_getregs getxer xer regs s : reads getxer xer -> ready s -> ram_is_setup s = false -> view s = c ->
  wp (ram_getregs getxer regs) (World h n s) (fun r w => exists s', w = World h n s' /\ ready s' /\ view s' = c /\
    ram_is_setup s' = false /\ r = inr (put_all (members c xer) regs)).
Proof.
  intros Hx Hrd Hset Hv. unfold ram_getregs.
  apply wp_bind. eapply wp_mono; [by eapply sets_up|]. intros r w (s1 & -> & -> & Hr1 & Hs1 & Hv1). rewrite Hv in Hv1.
  apply wp_bind. eapply wp_keep; [apply reads_nia|done|done|]. intros s2 Hr2 Hv2 Hs2.
  apply wp_bind, wp_keep_sprs; [by repeat constructor|done|done|]. intros s3 Hr3 Hv3 Hs3.
  apply wp_bind. eapply wp_keep; [apply reads_msr|done|done|]. intros s4 Hr4 Hv4 Hs4.
  apply wp_bind, wp_keep_sprs; [by repeat constructor|done|done|]. intros s5 Hr5 Hv5 Hs5.
  apply wp_bind. eapply wp_keep; [apply reads_cr|done|done|]. intros s6 Hr6 Hv6 Hs6.
  apply wp_bind. eapply wp_keep; [exact Hx|done|done|]. intros s7 Hr7 Hv7 Hs7.
  apply wp_bind, wp_keep_gprs; [lia|done|done|]. intros s8 Hr8 Hv8 Hs8.
  apply wp_bind, wp_keep_sprs; [by repeat constructor|done|done|]. intros s9 Hr9 Hv9 Hs9.
  apply wp_bind, wp_keep32; [done..|]. intros s10 Hr10 Hv10 Hs10.
  apply wp_bind, wp_keep_sprs; [by repeat constructor|done|done|]. intros s11 Hr11 Hv11 Hs11.
  apply wp_bind, wp_keep32; [done..|]. intros s12 Hr12 Hv12 Hs12.
  apply wp_bind, wp_keep_sprs; [by repeat constructor|done|done|]. intros s13 Hr13 Hv13 Hs13.
  apply wp_bind, wp_keep32; [done..|]. intros s14 Hr14 Hv14 Hs14.
  apply wp_bind, wp_keep_sprs; [by repeat constructor|done|done|]. intros s15 Hr15 Hv15 Hs15.
  apply wp_bind. eapply wp_mono; [eapply destroys; [exact Hth|done|congruence]|]. intros r w (s16 & -> & -> & Hr16 & Hs16 & Hv16). apply wp_ret.
  exists s16. split_and!; [done|done|congruence|done|]. reflexivity.
Qed.
End Regs.

(** Reading all registers at once. On a thread that is ready to execute the words it is
    fed as the instruction set says and not yet set up for it, [ram_getregs] succeeds, every register of the thread is as before, the
    thread is no longer set up for ramming, every member of [struct thread_regs] has the value
    of its register, and a member whose register the thread does not have is left alone, as is
    everything that is not a member of the table. *)
Theorem getregs_snapshot {S : Type} {Th : RamThread S} (view : S -> cpu) (ready : S -> Prop) (load : Z -> option Z) (nia_from_lr : bool)
    (undef : cpu -> Z) (Hth : RunsInstructions view ready load nia_from_lr undef) (s : S) (h : gmap nat (list mval)) (n : nat)
    (getxer : M S Z) (xer : option Z) (regs : regmap) :
  ready s -> ram_is_setup s = false -> length (gprs (view s)) = 32%nat -> in_range 32 (cr (view s)) ->
  reads view ready (view s) h n getxer xer ->
  wp (ram_getregs getxer regs) (World h n s) (fun r w => exists s' regs', w = World h n s' /\ r = inr regs' /\
    ready s' /\ view s' = view s /\ ram_is_setup s' = false /\
    (forall k x, (k, x) ∈ members (view s) xer -> regs' !! k = match x with Some v => Some v | None => regs !! k end) /\
    (forall k, k ∉ (members (view s) xer).*1 -> regs' !! k = regs !! k)).
Proof.
  intros Hrd Hset Hg Hcr Hx. eapply wp_mono; [by eapply (wp_getregs view ready load nia_from_lr undef)|].
  intros r w (s' & -> & Hr & Hv & Hs & ->). exists s', (put_all (members (view s) xer) regs).
  split_and!; try done; [intros k x; apply lookup_put_all, members_distinct|intros k; apply lookup_put_all_ne].
Qed.

(** ** libpdbg: a thread that executes what it is fed

    A concrete thread for the theorems on register access, and what they do not cover: writing
    the registers 0 and 1, and writing the condition register. *)

(** The thread: its registers, and whether it is set up for ramming. A word that raises an
    exception is answered with 1. *)
Definition some_load (addr : Z) : option Z := if addr <? 4096 then Some (u64 (addr * 0x0101010101010101)) else None.
Definition no_undef (_ : cpu) : Z := 0xffffffffffffffff.

#[export] Instance plain_thread : RamThread (cpu * bool) := {|
  ram_is_setup s := s.2;
  ram_setup := s ← get_st; put_st (s.1, true);
  ram_destroy := s ← get_st; put_st (s.1, false);
  ram_instruction op scratch :=
    s ← get_st;
    match run_word some_load true no_undef op s.1 scratch with
    | Some (c, scratch') => put_st (c, s.2);; mret (0, scratch')
    | None => mret (1, scratch)
    end
|}.

#[export] Instance plain_runs : RunsInstructions (S := cpu * bool) fst (fun _ => True) some_load true no_undef.
Proof.
  split.
  - intros op scratch h n [c b] _ Hs _. cbn [ram_instruction plain_thread]. apply wp_bind, wp_get_st. cbn [fst snd].
    destruct (run_word _ _ _ _ _ _) as [[c' sc']|].
    + apply wp_bind, wp_put_st, wp_ret. by exists (c', b).
    + apply wp_ret. exists (c, b). split_and!; try done. by exists 1, scratch.
  - intros h n [c b] _ _. apply wp_bind, wp_get_st, wp_put_st. by exists (c, true).
  - intros h n [c b] _ _. apply wp_bind, wp_get_st, wp_put_st. by exists (c, false).
Defined.

Definition some_cpu : cpu :=
  Cpu (Z.of_nat <$> seq 100 32) (list_to_map [(1, 0x20000000); (8, 0x3000); (9, 7); (18, 0x42000000); (315, 0x9000)])
      0x24000842 0x9000000000001033 0xc000000000010000.

Abbreviation stopped := (World (∅ : gmap nat (list mval)) 0%nat (some_cpu, false)).

Lemma ram_register_access_witness :
  wp (ram_getgpr 5) stopped (leaves fst (fun _ => True) (some_cpu, false) ∅ 0 some_cpu (inr 105)) /\
  wp ram_getcr stopped (leaves fst (fun _ => True) (some_cpu, false) ∅ 0 some_cpu (inr 0x24000842)) /\
  wp (ram_getspr 7) stopped (leaves fst (fun _ => True) (some_cpu, false) ∅ 0 some_cpu (inl 1)) /\
  wp (ram_putnia 0x4000) stopped (leaves fst (fun _ => True) (some_cpu, false) ∅ 0 (set_nia 0x4000 some_cpu) (inr tt)).
Proof.
  assert (length (gprs some_cpu) = 32%nat) as Hg by reflexivity.
  assert (in_range 32 (cr some_cpu)) as Hc by done.
  destruct (ram_register_access fst (fun _ => True) some_load true no_undef plain_runs (some_cpu, false) ∅ 0 I Hg Hc)
    as (Hgpr & _ & _ & Hspr & _ & _ & Hnia & _ & _ & Hcr & _).
  assert (sprs some_cpu !! 7 = None) as E7 by reflexivity.
  assert (7 <> SPRD) as Hne by discriminate.
  assert (is_Some (sprs some_cpu !! SPR_LR)) as Hlr by (eexists; vm_compute; reflexivity).
  split; [exact (Hgpr 5 105 ltac:(lia) eq_refl)|]. split; [exact Hcr|]. split; [|exact (Hnia 0x4000 Hlr)].
  pose proof (Hspr 7 ltac:(lia) Hne) as H7. cbn [fst] in H7. rewrite E7 in H7. exact H7.
Defined.

Lemma getregs_snapshot_witness :
  wp (ram_getregs (ram_getspr 1) ∅) stopped (fun r w => exists regs', r = inr regs' /\
    regs' !! ("gprs", 31%nat) = Some 131 /\ regs' !! ("lr", 0%nat) = Some 0x3000 /\ regs' !! ("tar", 0%nat) = None /\
    regs' !! ("xer", 0%nat) = Some 0x20000000).
Proof.
  assert (in_range 32 (cr some_cpu)) as Hc by done.
  assert (reads (S := cpu * bool) fst (fun _ => True) some_cpu ∅ 0 (ram_getspr 1) (Some 0x20000000)) as Hx
    by exact (reads_spr fst (fun _ => True) some_load true no_undef some_cpu ∅ 0 eq_refl Hc 1 ltac:(lia) ltac:(discriminate)).
  eapply wp_mono; [exact (getregs_snapshot fst (fun _ => True) some_load true no_undef plain_runs (some_cpu, false) ∅ 0 (ram_getspr 1) _ ∅ I eq_refl eq_refl Hc Hx)|].
  intros r w (s' & regs' & -> & -> & Hr & Hv & Hs & Hin & Hout). exists regs'. split; [done|].
  split_and!.
  - apply (Hin ("gprs", 31%nat) (Some 131)). apply (bool_decide_eq_true_1 _). vm_compute. reflexivity.
  - apply (Hin ("lr", 0%nat) (Some 0x3000)). apply (bool_decide_eq_true_1 _). vm_compute. reflexivity.
  - apply (Hin ("tar", 0%nat) None). apply (bool_decide_eq_true_1 _). vm_compute. reflexivity.
  - apply (Hin ("xer", 0%nat) (Some 0x20000000)). apply (bool_decide_eq_true_1 _). vm_compute. reflexivity.
Defined.

(** ** What goes wrong *)

(** A value for register 0 or 1 is written to the thread and then replaced by the value that
    was saved when ramming began; the call succeeds. *)
Lemma putgpr_lost : wp (ram_putgpr 1 77) stopped (leaves fst (fun _ => True) (some_cpu, false) ∅ 0 some_cpu (inr tt)).
Proof. exact (wp_putgpr_lost fst (fun _ => True) some_load true no_undef (some_cpu, false) ∅ 0 I eq_refl 1 77 ltac:(lia)). Qed.

(** Writing the condition register reads beyond the end of the array of one result. *)
Lemma putcr_out_of_bounds : (ram_putcr 0x24000842 stopped).1 = Crash OutOfBounds.
Proof. vm_compute. reflexivity. Qed.

(** A register of 32 bits that cannot be read shows the value of the register read before. *)
Lemma getregs_stale :
  match (ram_getregs (ram_getspr 1) ∅ (World (∅ : gmap nat (list mval)) 0%nat (Cpu (gprs some_cpu) {[306 := 0x42]} 0 0 0, false))).1 with
  | Ret regs => regs !! ("heir", 0%nat) = Some 0x42
  | _ => False
  end.
Proof. vm_compute. reflexivity. Qed.
