(* ===== verification/Thread.v ===== *)
(** * libpdbg: control of the threads

    Models libpdbg/thread.c: access to one thread through the members of its [struct thread],
    and the operations on all threads of the system or of a processor. The members themselves
    differ from chip to chip and from back end to back end; they are parameters. *)

From S2P Require Import Prelude CMem Target Adu.

Definition SPR_XER : Z := 1.
Definition SPR_NIA : Z := 2000.
Definition SPR_MSR : Z := 2001.
Definition SPR_CR : Z := 2002.

Section Thread.
Context {D : Type} (T : dtree) (fuel : nat).
Abbreviation m := (M (tgt D)).

(** The members that control a thread and give access to its registers; [None] for NULL. *)
Record thread := Thread {
  step : option (Z -> m unit);
  start : option (m unit);
  stop : option (m unit);
  sreset : option (m unit);
  getmem_op : option (Z -> m Z);
  getregs_op : option (m (gmap (string * nat) Z));
  getgpr : option (Z -> m Z);
  putgpr : option (Z -> Z -> m unit);
  getspr : option (Z -> m Z);
  putspr : option (Z -> Z -> m unit);
  getfpr : option (Z -> m Z);
  putfpr : option (Z -> Z -> m unit);
  getmsr : option (m Z);
  putmsr : option (Z -> m unit);
  getnia : option (m Z);
  putnia : option (Z -> m unit);
  getxer : option (m Z);
  putxer : option (Z -> m unit);
  getcr : option (m Z);
  putcr : option (Z -> m unit)
}.

Record pib := Pib {
  pib_step_all : option (Z -> m unit);
  pib_start_all : option (m unit);
  pib_stop_all : option (m unit);
  pib_sreset_all : option (m unit)
}.

Context (target_to_thread : nat -> thread) (target_to_pib : nat -> pib).

(** [if (pdbg_target_status(target) != PDBG_TARGET_ENABLED) return -1;] *)
Definition check_enabled (t : nat) : m unit :=
  status ← pdbg_target_status_of t;
  if bool_decide (status = PDBG_TARGET_ENABLED) then mret tt else fail (-1).

Definition thread_guard (t : nat) : m unit :=
  c_assert (pdbg_target_is_class T t "thread");;
  check_enabled t.

(** [if (!thread->op) return -1;], else the operation *)
Definition or_missing {A B} (op : option A) (k : A -> m B) : m B :=
  match op with Some f => k f | None => fail (-1) end.

(** ** One thread *)

Definition thread_step (t : nat) (count : Z) : m unit :=
  thread_guard t;; or_missing (step (target_to_thread t)) (fun f => f count).
Definition thread_start (t : nat) : m unit :=
  thread_guard t;; or_missing (start (target_to_thread t)) (fun f => f).
Definition thread_stop (t : nat) : m unit :=
  thread_guard t;; or_missing (stop (target_to_thread t)) (fun f => f).
Definition thread_sreset (t : nat) : m unit :=
  thread_guard t;; or_missing (sreset (target_to_thread t)) (fun f => f).
Definition thread_getmem (t : nat) (addr : Z) : m Z :=
  thread_guard t;; or_missing (getmem_op (target_to_thread t)) (fun f => f addr).
Definition thread_getregs (t : nat) : m (gmap (string * nat) Z) :=
  thread_guard t;; or_missing (getregs_op (target_to_thread t)) (fun f => f).
Definition thread_getgpr (t : nat) (gpr : Z) : m Z :=
  thread_guard t;; or_missing (getgpr (target_to_thread t)) (fun f => f gpr).
Definition thread_putgpr (t : nat) (gpr value : Z) : m unit :=
  thread_guard t;; or_missing (putgpr (target_to_thread t)) (fun f => f gpr value).

(** The registers that are no special registers have operations of their own. The value of the
    condition register has 32 bits. *)
Definition thread_getspr (t : nat) (spr : Z) : m Z :=
  thread_guard t;;
  let th := target_to_thread t in
  let other := or_missing (getspr th) (fun f => f spr) in
  if spr =? SPR_MSR then default other (getmsr th)
  else if spr =? SPR_NIA then default other (getnia th)
  else if spr =? SPR_XER then default other (getxer th)
  else if spr =? SPR_CR then default other (getcr th)
  else other.
Definition thread_putspr (t : nat) (spr value : Z) : m unit :=
  thread_guard t;;
  let th := target_to_thread t in
  let other := or_missing (putspr th) (fun f => f spr value) in
  if spr =? SPR_MSR then match putmsr th with Some f => f value | None => other end
  else if spr =? SPR_NIA then match putnia th with Some f => f value | None => other end
  else if spr =? SPR_XER then match putxer th with Some f => f value | None => other end
  else if spr =? SPR_CR then match putcr th with Some f => f (u32 value) | None => other end
  else other.

Definition thread_getfpr (t : nat) (fpr : Z) : m Z :=
  thread_guard t;; or_missing (getfpr (target_to_thread t)) (fun f => f fpr).
Definition thread_putfpr (t : nat) (fpr value : Z) : m unit :=
  thread_guard t;; or_missing (putfpr (target_to_thread t)) (fun f => f fpr value).
Definition thread_getmsr (t : nat) : m Z :=
  thread_guard t;; or_missing (getmsr (target_to_thread t)) (fun f => f).
Definition thread_putmsr (t : nat) (value : Z) : m unit :=
  thread_guard t;; or_missing (putmsr (target_to_thread t)) (fun f => f value).
Definition thread_getnia (t : nat) : m Z :=
  thread_guard t;; or_missing (getnia (target_to_thread t)) (fun f => f).
Definition thread_putnia (t : nat) (value : Z) : m unit :=
  thread_guard t;; or_missing (putnia (target_to_thread t)) (fun f => f value).
Definition thread_getxer (t : nat) : m Z :=
  thread_guard t;; or_missing (getxer (target_to_thread t)) (fun f => f).
Definition thread_putxer (t : nat) (value : Z) : m unit :=
  thread_guard t;; or_missing (putxer (target_to_thread t)) (fun f => f value).
Definition thread_getcr (t : nat) : m Z :=
  thread_guard t;; or_missing (getcr (target_to_thread t)) (fun f => f).

(** The status is looked at before the class. *)
Definition thread_putcr (t : nat) (value : Z) : m unit :=
  check_enabled t;;
  c_assert (pdbg_target_is_class T t "thread");;
  or_missing (putcr (target_to_thread t)) (fun f => f value).

(** ** All threads *)

(** [rc = f(...)], a success being 0 *)
Definition code (op : m unit) : m Z :=
  r ← attempt op; mret (match r with inl rc => rc | inr _ => 0 end).

(** The loop over the targets of a class below [parent], from [cur] on. A target that is not
    enabled is passed over; a target without the operation ends the loop. [n] bounds the
    number of targets. *)
Fixpoint each_enabled (n : nat) (klass : string) (parent cur : option nat) (op : nat -> option (m unit)) (rc count : Z)
  : m (Z * Z) :=
  match n with
  | O => crash NoFuel
  | S n' =>
      match cur with
      | None => mret (rc, count)
      | Some t =>
          let next rc count :=
            cur ← pdbg_next_target T fuel klass parent (Some t) true;
            each_enabled n' klass parent cur op rc count in
          status ← pdbg_target_status_of t;
          if negb (bool_decide (status = PDBG_TARGET_ENABLED)) then next rc count else
          match op t with
          | None => mret (rc, count)
          | Some f => r ← code f; next (Z.lor rc r) (count + 1)
          end
      end
  end.

Definition for_each_enabled (klass : string) (parent : option nat) (op : nat -> option (m unit)) (rc count : Z) : m (Z * Z) :=
  cur ← pdbg_next_target T fuel klass parent None true;
  each_enabled fuel klass parent cur op rc count.

(** Some PIB that can do it for all its threads, or one thread after the other. *)
Definition all_threads (pib_op : nat -> option (m unit)) (thread_op : nat -> m unit) : m unit :=
  '(rc, count) ← for_each_enabled "pib" None pib_op 0 0;
  if 0 <? count then (if truthy rc then fail rc else mret tt) else
  '(rc, count) ← for_each_enabled "thread" None (fun t => Some (thread_op t)) rc count;
  if 0 <? count then (if truthy rc then fail rc else mret tt) else fail (-1).

Definition thread_step_all : m unit :=
  all_threads (fun t => (fun f => f 1) <$> pib_step_all (target_to_pib t)) (fun t => thread_step t 1).
Definition thread_start_all : m unit := all_threads (fun t => pib_start_all (target_to_pib t)) thread_start.
Definition thread_stop_all : m unit := all_threads (fun t => pib_stop_all (target_to_pib t)) thread_stop.
Definition thread_sreset_all : m unit := all_threads (fun t => pib_sreset_all (target_to_pib t)) thread_sreset.

(** The threads of one processor. *)
Definition proc_threads (t : nat) (pib_op : option (m unit)) (thread_op : nat -> m unit) : m unit :=
  c_assert (pdbg_target_is_class T t "pib");;
  check_enabled t;;
  match pib_op with
  | Some f => f
  | None =>
      '(rc, _) ← for_each_enabled "thread" (Some t) (fun t => Some (thread_op t)) 0 0;
      if truthy rc then fail rc else mret tt
  end.

Definition thread_start_proc (t : nat) : m unit := proc_threads t (pib_start_all (target_to_pib t)) thread_start.
Definition thread_stop_proc (t : nat) : m unit := proc_threads t (pib_stop_all (target_to_pib t)) thread_stop.
End Thread.
