(* ===== verification/ThreadTheorems.v ===== *)
(** * libpdbg: the operations on all threads reach every enabled thread once

    The loops over the targets of a class are compared with a description by lists. *)

From stdpp Require Import functions.
From S2P Require Import Prelude CMem Target TargetFacts TargetRelease Adu Thread.

Section Loops.
Context {D : Type} (T : dtree) (fuel : nat).
Implicit Types (w : world (tgt D)) (op : nat -> option (M (tgt D) unit)).

(** The ancestors of the targets, each with itself. *)
Context (line : nat -> list nat).

(** ** The loop *)

(** Operations one after the other, with their codes collected. *)
Fixpoint run_codes (ops : list (M (tgt D) unit)) (rc : Z) : M (tgt D) Z :=
  match ops with
  | [] => mret rc
  | f :: ops' => r ← code f; run_codes ops' (Z.lor rc r)
  end.

(** The operations up to the first target without one. *)
Fixpoint op_prefix op (ts : list nat) : list (M (tgt D) unit) :=
  match ts with
  | [] => []
  | t :: ts' => match op t with Some f => f :: op_prefix op ts' | None => [] end
  end.

Definition enabled_at w (t : nat) : Prop := t_status (w_st w) t = PDBG_TARGET_ENABLED.
#[export] Instance enabled_at_dec w t : Decision (enabled_at w t).
Proof. unfold enabled_at. apply _. Defined.

(** The operation does not change which targets are enabled. *)
Definition keeps_status (f : M (tgt D) unit) : Prop := forall w, t_status (w_st (f w).2) = t_status (w_st w).

Lemma code_keeps f w : keeps_status f -> t_status (w_st (code f w).2) = t_status (w_st w).
Proof.
  intros H. specialize (H w). unfold code, attempt, mbind, M_bind. destruct (f w) as [[a|rc|c] w']; exact H.
Qed.

Lemma filter_enabled_keeps w w' (ts : list nat) : t_status (w_st w') = t_status (w_st w) ->
  filter (enabled_at w') ts = filter (enabled_at w) ts.
Proof. intros E. apply list_filter_iff. intros t. unfold enabled_at. by rewrite E. Qed.

Context (op : nat -> option (M (tgt D) unit)) (Hkeep : forall t f, op t = Some f -> keeps_status f).
Context (klass : string) (parent : option nat) (cs : list nat) (Hcs : target_classes T klass = Some cs).
Context (Hnd : NoDup cs) (Hlined : lined T fuel line cs).

Lemma each_enabled_ok n pre suf rc count w : cs = pre ++ suf -> (length suf < n)%nat ->
  each_enabled T fuel n klass parent (head (filter (under line parent) suf)) op rc count w =
  (let ops := op_prefix op (filter (enabled_at w) (filter (under line parent) suf)) in
   rc' ← run_codes ops rc; mret (rc', count + Z.of_nat (length ops))) w.
Proof.
  revert pre suf rc count w. induction n as [|n IH]; intros pre suf rc count w Ec Hn; [lia|].
  (* to the next target that is below the parent *)
  revert pre Ec Hn. induction suf as [|t suf IHs]; intros pre Ec Hn.
  { cbn. unfold mret, M_ret, mbind, M_bind. cbn. by rewrite Z.add_0_r. }
  assert (cs = (pre ++ [t]) ++ suf) as Ec' by (by rewrite <- app_assoc). cbn [length] in Hn.
  destruct (decide (under line parent t)) as [Hb|Hb]; [|rewrite filter_cons_False by done; apply (IHs (pre ++ [t]) Ec'); lia].
  clear IHs. rewrite (filter_cons_True (under line parent)) by done. cbn [head each_enabled].
  unfold pdbg_target_status_of at 1. unfold mbind at 1, M_bind at 1, mbind at 1, M_bind at 1, get_st. cbn [mret M_ret].
  destruct (decide (enabled_at w t)) as [He|He].
  - rewrite bool_decide_eq_true_2 by done. cbn [negb]. rewrite (filter_cons_True (enabled_at w)) by done. cbn [op_prefix].
    destruct (op t) as [f|] eqn:Eop; [|cbn; unfold mret, M_ret, mbind, M_bind; cbn; by rewrite Z.add_0_r].
    cbn [run_codes]. unfold mbind, M_bind. pose proof (code_keeps f w (Hkeep t f Eop)) as Hk.
    destruct (code f w) as [[r|rc'|c] w'] eqn:Ef; [|done..]. cbn [snd] in Hk.
    rewrite (next_target_ok T fuel line klass parent cs Hcs Hnd Hlined pre t suf w' Ec), (IH (pre ++ [t]) suf _ _ w' Ec') by lia.
    rewrite (filter_enabled_keeps w w') by done. unfold mbind, M_bind. cbn [length].
    destruct (run_codes _ (Z.lor rc r) w') as [[rc''|rc''|c] w'']; try done. unfold mret, M_ret. do 3 f_equal. lia.
  - rewrite bool_decide_eq_false_2 by done. cbn [negb]. rewrite (filter_cons_False (enabled_at w)) by done.
    unfold mbind at 1, M_bind at 1. rewrite (next_target_ok T fuel line klass parent cs Hcs Hnd Hlined pre t suf w Ec). apply (IH (pre ++ [t])); [done|lia].
Qed.

Lemma for_each_enabled_ok rc count w : (length cs < fuel)%nat ->
  for_each_enabled T fuel klass parent op rc count w =
  (let ops := op_prefix op (filter (enabled_at w) (targets T line klass parent)) in
   rc' ← run_codes ops rc; mret (rc', count + Z.of_nat (length ops))) w.
Proof.
  intros Hf. unfold for_each_enabled, targets. rewrite Hcs. cbn [default from_option].
  unfold pdbg_next_target, find_target_class. rewrite Hcs. unfold mbind at 1, M_bind at 1. rewrite (next_below_ok T fuel line) by done.
  by apply (each_enabled_ok fuel []).
Qed.
End Loops.

(** ** The description by lists *)

Section Control.
Context {D : Type} (T : dtree) (fuel : nat) (line : nat -> list nat).
Context (target_to_thread : nat -> thread (D := D)) (target_to_pib : nat -> pib (D := D)).
Implicit Types (w : world (tgt D)).

Definition enabled_targets (klass : string) (parent : option nat) : M (tgt D) (list nat) := fun w =>
  (Ret (filter (enabled_at w) (targets T line klass parent)), w).

Definition finish (r : M (tgt D) Z) : M (tgt D) unit := rc ← r; if truthy rc then fail rc else mret tt.

(** An operation on all threads: the PIBs do it for theirs, if the first of those that are
    enabled can, or else every enabled thread does it; -1 if there is none. *)
Definition control_all (pib_op : nat -> option (M (tgt D) unit)) (thread_op : nat -> M (tgt D) unit) : M (tgt D) unit :=
  pibs ← enabled_targets "pib" None;
  threads ← enabled_targets "thread" None;
  match op_prefix pib_op pibs, threads with
  | [], [] => fail (-1)
  | [], _ => finish (run_codes (thread_op <$> threads) 0)
  | ops, _ => finish (run_codes ops 0)
  end.

Definition control_proc (t : nat) (pib_op : option (M (tgt D) unit)) (thread_op : nat -> M (tgt D) unit) : M (tgt D) unit :=
  threads ← enabled_targets "thread" (Some t);
  match pib_op with
  | Some f => f
  | None => finish (run_codes (thread_op <$> threads) 0)
  end.

(** The class lists are those of a tree, and the operations leave the statuses alone. *)
Record controlled : Prop := {
  co_class k : k = "pib" \/ k = "thread" -> NoDup (default [] (target_classes T k)) /\ lined T fuel line (default [] (target_classes T k)) /\
    (length (default [] (target_classes T k)) < fuel)%nat;
  co_thread t : t ∈ default [] (target_classes T "thread") -> class (node T t) = Some "thread";
  co_pib t f : pib_start_all (target_to_pib t) = Some f \/ pib_stop_all (target_to_pib t) = Some f \/
    pib_sreset_all (target_to_pib t) = Some f \/ (exists g, pib_step_all (target_to_pib t) = Some g /\ f = g 1) -> keeps_status f;
  co_member t f : start (target_to_thread t) = Some f \/ stop (target_to_thread t) = Some f \/
    sreset (target_to_thread t) = Some f \/ (exists g, step (target_to_thread t) = Some g /\ f = g 1) -> keeps_status f
}.

Lemma for_each_any klass parent op rc count w : (forall t f, op t = Some f -> keeps_status f) ->
  NoDup (default [] (target_classes T klass)) -> lined T fuel line (default [] (target_classes T klass)) ->
  (length (default [] (target_classes T klass)) < fuel)%nat ->
  for_each_enabled T fuel klass parent op rc count w =
  (let ops := op_prefix op (filter (enabled_at w) (targets T line klass parent)) in
   rc' ← run_codes ops rc; mret (rc', count + Z.of_nat (length ops))) w.
Proof.
  intros Hk Hn Hl Hf. destruct (target_classes T klass) as [cs|] eqn:E; cbn [default from_option] in *.
  - by apply (for_each_enabled_ok T fuel line op Hk klass parent cs).
  - unfold for_each_enabled, targets, pdbg_next_target, find_target_class. rewrite E. destruct fuel as [|n]; [cbn in Hf; lia|].
    cbn. unfold mbind, M_bind, mret, M_ret. cbn. by rewrite Z.add_0_r.
Qed.

Lemma op_prefix_some (g : nat -> M (tgt D) unit) ts : op_prefix (fun t => Some (g t)) ts = g <$> ts.
Proof. induction ts as [|t ts IH]; [done|]. cbn. by rewrite IH. Qed.

Lemma bind_eq {A B} (m m' : M (tgt D) A) (k k' : A -> M (tgt D) B) w :
  m w = m' w -> (forall a w', m' w = (Ret a, w') -> k a w' = k' a w') -> (m ≫= k) w = (m' ≫= k') w.
Proof. intros E H. unfold mbind, M_bind. rewrite E. destruct (m' w) as [[a|rc|c] w'] eqn:Em; [by apply H|done..]. Qed.

(** The guards of the operation on one thread hold for the enabled targets of the class. *)
Lemma run_codes_guarded (g : nat -> M (tgt D) unit) ts rc w :
  Forall (fun t => class (node T t) = Some "thread" /\ enabled_at w t) ts -> (forall t, keeps_status (g t)) ->
  run_codes ((fun t => thread_guard T t;; g t) <$> ts) rc w = run_codes (g <$> ts) rc w.
Proof.
  intros H Hk. revert rc w H. induction ts as [|t ts IH]; intros rc w H; [done|].
  apply Forall_cons in H as [[Hc He] H]. cbn [fmap list_fmap run_codes]. apply bind_eq.
  - unfold code, attempt, thread_guard, pdbg_target_is_class, check_enabled, pdbg_target_status_of, get_st, c_assert, mbind, M_bind.
    rewrite bool_decide_eq_true_2 by done. cbn. rewrite bool_decide_eq_true_2 by done. done.
  - intros r w' E. pose proof (code_keeps (g t) w (Hk t)) as Es. rewrite E in Es. cbn in Es. apply IH.
    eapply Forall_impl; [exact H|]. intros t' [Hc' He']. split; [done|]. unfold enabled_at in *. by rewrite Es.
Qed.

Context (Hc : controlled).

Lemma threads_in klass parent w : Forall (fun t => t ∈ default [] (target_classes T klass) /\ enabled_at w t)
  (filter (enabled_at w) (targets T line klass parent)).
Proof. apply Forall_forall. intros t [He [_ Hin]%list_elem_of_filter]%list_elem_of_filter. done. Qed.

Lemma thread_codes parent (g : nat -> M (tgt D) unit) rc w : (forall t, keeps_status (g t)) ->
  let ts := filter (enabled_at w) (targets T line "thread" parent) in
  run_codes ((fun t => thread_guard T t;; g t) <$> ts) rc w = run_codes (g <$> ts) rc w.
Proof.
  intros Hk ts. apply run_codes_guarded; [|done]. eapply Forall_impl; [apply (threads_in "thread" parent)|].
  intros t [Hin He]. split; [by apply (co_thread Hc)|done].
Qed.

Lemma or_missing_keeps {A} (op : option A) (k : A -> M (tgt D) unit) : (forall f, op = Some f -> keeps_status (k f)) ->
  keeps_status (or_missing op k).
Proof. intros H. destruct op; [by apply H|]. by intros w. Qed.

Lemma bind_ret_assoc {A B C} (m : M (tgt D) A) (f : A -> B) (k : B -> M (tgt D) C) w :
  ((x ← m; mret (f x)) ≫= k) w = (m ≫= (fun x => k (f x))) w.
Proof. unfold mbind, M_bind. by destruct (m w) as [[a|rc|c] w']. Qed.

Lemma ret_bind {A B} (a : A) (k : A -> M (tgt D) B) w : (mret a ≫= k) w = k a w.
Proof. done. Qed.

(** A loop and what follows it. *)
Lemma for_each_then {A} klass parent op rc count (k : Z * Z -> M (tgt D) A) w :
  klass = "pib" \/ klass = "thread" -> (forall t f, op t = Some f -> keeps_status f) ->
  let ops := op_prefix op (filter (enabled_at w) (targets T line klass parent)) in
  (for_each_enabled T fuel klass parent op rc count ≫= k) w = (run_codes ops rc ≫= (fun rc' => k (rc', count + Z.of_nat (length ops)))) w.
Proof.
  intros Hk Ho ops. destruct (co_class Hc klass Hk) as (Hn & Hl & Hf). unfold ops.
  rewrite <- (bind_ret_assoc _ (fun rc' => (rc', _))). apply bind_eq; [by apply for_each_any|done].
Qed.

Lemma guarded_keeps (g : nat -> M (tgt D) unit) t : keeps_status (g t) -> keeps_status (thread_guard T t;; g t).
Proof.
  intros H w. unfold thread_guard, check_enabled, pdbg_target_status_of, get_st, c_assert, mbind, M_bind, fail, crash, mret, M_ret.
  destruct (pdbg_target_is_class T t "thread"); [|done]. cbn. case_bool_decide; [apply H|done].
Qed.

(** The operations on all threads, with the guards gone. *)
Lemma all_threads_ok (pib_op : nat -> option (M (tgt D) unit)) (g : nat -> M (tgt D) unit) :
  (forall t f, pib_op t = Some f -> keeps_status f) -> (forall t, keeps_status (g t)) ->
  m_equiv (all_threads T fuel pib_op (fun t => thread_guard T t;; g t)) (control_all pib_op g).
Proof.
  intros Hp Hg w. unfold all_threads. rewrite for_each_then by (by left || done). cbv zeta.
  set (pibs := filter (enabled_at w) (targets T line "pib" None)). set (ts := filter (enabled_at w) (targets T line "thread" None)).
  trans (match op_prefix pib_op pibs, ts with
         | [], [] => fail (-1)
         | [], _ => finish (run_codes (g <$> ts) 0)
         | ops, _ => finish (run_codes ops 0)
         end w); [|done].
  destruct (op_prefix pib_op pibs) as [|f ops].
  - cbn [run_codes]. rewrite ret_bind. change (0 + Z.of_nat (length (@nil (M (tgt D) unit)))) with 0. change (0 <? 0) with false. cbv iota beta.
    rewrite for_each_then; [|by right|intros t f [= <-]; by apply guarded_keeps]. cbv zeta. rewrite op_prefix_some, length_fmap.
    pose proof (thread_codes None g 0 w Hg) as E. cbv zeta in E. fold ts in E |- *. destruct ts as [|t ts']; [done|].
    unfold finish. apply bind_eq; [exact E|]. intros rc w' _. destruct (Z.ltb_spec 0 (0 + Z.of_nat (length (t :: ts')))); [done|cbn in *; lia].
  - unfold finish. apply bind_eq; [done|]. intros rc w' _. destruct (Z.ltb_spec 0 (0 + Z.of_nat (length (f :: ops)))); [done|cbn in *; lia].
Qed.

Lemma check_enabled_ok t w : enabled_at w t -> check_enabled t w = (Ret tt, w).
Proof.
  intros He. unfold check_enabled, pdbg_target_status_of, get_st, mbind, M_bind, mret, M_ret. by rewrite bool_decide_eq_true_2.
Qed.

Lemma proc_threads_ok t pib_op (g : nat -> M (tgt D) unit) w : (forall t, keeps_status (g t)) ->
  class (node T t) = Some "pib" -> enabled_at w t ->
  proc_threads T fuel t pib_op (fun t => thread_guard T t;; g t) w = control_proc t pib_op g w.
Proof.
  intros Hg Hcl He. set (ts := filter (enabled_at w) (targets T line "thread" (Some t))).
  trans (match pib_op with
         | Some f => f
         | None => '(rc, _) ← for_each_enabled T fuel "thread" (Some t) (fun t => Some (thread_guard T t;; g t)) 0 0;
                   if truthy rc then fail rc else mret tt
         end w).
  - unfold proc_threads, pdbg_target_is_class. rewrite bool_decide_eq_true_2 by done. cbn [c_assert]. rewrite ret_bind.
    unfold mbind at 1, M_bind at 1. by rewrite check_enabled_ok.
  - destruct pib_op as [f|]; [done|]. rewrite for_each_then; [|by right|intros t' f [= <-]; by apply guarded_keeps].
    cbv zeta. rewrite op_prefix_some. change (control_proc t None g w) with (finish (run_codes (g <$> ts) 0) w).
    unfold finish. apply bind_eq; [by apply thread_codes|done].
Qed.
End Control.

(** C19: operations on all threads. In a tree whose class lists hold each target once, and
    whose operations leave the statuses of the targets alone, starting, stopping, stepping and
    resetting all threads is the same as this: when the enabled PIBs, from the first one on,
    have an operation for all their threads, it is called for each of them once and in order,
    up to the first that has none; otherwise the operation of every enabled thread is called
    once and in order, -1 standing for one that is missing; all return codes are combined, and
    without any enabled target the result is -1. Starting or stopping a processor reaches
    exactly the enabled threads below its PIB. The loops end within the fuel. *)
Theorem threads_controlled {D : Type} (T : dtree) (fuel : nat) (line : nat -> list nat)
    (target_to_thread : nat -> thread (D := D)) (target_to_pib : nat -> pib (D := D)) :
  controlled T fuel line target_to_thread target_to_pib ->
  let th t := target_to_thread t in
  let pb t := target_to_pib t in
  m_equiv (thread_step_all T fuel target_to_thread target_to_pib)
    (control_all T line (fun t => (fun f => f 1) <$> pib_step_all (pb t)) (fun t => or_missing (step (th t)) (fun f => f 1))) /\
  m_equiv (thread_start_all T fuel target_to_thread target_to_pib)
    (control_all T line (fun t => pib_start_all (pb t)) (fun t => or_missing (start (th t)) (fun f => f))) /\
  m_equiv (thread_stop_all T fuel target_to_thread target_to_pib)
    (control_all T line (fun t => pib_stop_all (pb t)) (fun t => or_missing (stop (th t)) (fun f => f))) /\
  m_equiv (thread_sreset_all T fuel target_to_thread target_to_pib)
    (control_all T line (fun t => pib_sreset_all (pb t)) (fun t => or_missing (sreset (th t)) (fun f => f))) /\
  forall t w, class (node T t) = Some "pib" -> enabled_at w t ->
    thread_start_proc T fuel target_to_thread target_to_pib t w =
      control_proc T line t (pib_start_all (pb t)) (fun t => or_missing (start (th t)) (fun f => f)) w /\
    thread_stop_proc T fuel target_to_thread target_to_pib t w =
      control_proc T line t (pib_stop_all (pb t)) (fun t => or_missing (stop (th t)) (fun f => f)) w.
Proof.
  intros Hc th pb. pose proof (co_pib _ _ _ _ _ Hc) as Hp. pose proof (co_member _ _ _ _ _ Hc) as Hm.
  assert (forall t, keeps_status (or_missing (start (th t)) (fun f => f))) as K1 by (intros t; apply or_missing_keeps; eauto 6).
  assert (forall t, keeps_status (or_missing (stop (th t)) (fun f => f))) as K2 by (intros t; apply or_missing_keeps; eauto 6).
  assert (forall t, keeps_status (or_missing (sreset (th t)) (fun f => f))) as K3 by (intros t; apply or_missing_keeps; eauto 6).
  assert (forall t, keeps_status (or_missing (step (th t)) (fun f => f 1))) as K4 by (intros t; apply or_missing_keeps; eauto 9).
  split_and!.
  - eapply all_threads_ok; [done| |done]. intros t f (g & E & ->)%fmap_Some. apply (Hp t). eauto 9.
  - eapply all_threads_ok; [done| |done]. intros t f E. apply (Hp t). eauto 9.
  - eapply all_threads_ok; [done| |done]. intros t f E. apply (Hp t). eauto 9.
  - eapply all_threads_ok; [done| |done]. intros t f E. apply (Hp t). eauto 9.
  - intros t w Hcl He. split; by eapply proc_threads_ok.
Qed.

(** ** A processor with three threads, one of them disabled *)

Definition thread_node (klass : string) (parent : option nat) (cs : list nat) : pdbg_target :=
  Node true (Some klass) None false NoRelease 0 parent cs None (Some 0%Z) 0 0 0 None false false.

Definition chip_node (t : nat) : pdbg_target :=
  match t with
  | 0 => thread_node "root" None [1]
  | 1 => thread_node "pib" (Some 0) [2; 3; 4]
  | _ => thread_node "thread" (Some 1) []
  end%nat.

Definition chip_tree : dtree :=
  Dtree chip_node 0 (fun k => if String.eqb k "pib" then Some [1%nat] else if String.eqb k "thread" then Some [2; 3; 4]%nat else None) false.

Definition chip_line (t : nat) : list nat := match t with 0 => [0] | 1 => [1; 0] | t => [t; 1; 0] end%nat.

(** Starting a thread writes it down; thread 4 cannot be started. *)
Definition write_down (t : nat) : M (tgt (list nat)) unit :=
  s ← get_st; put_st (Tgt (t_status s) (t_dev s ++ [t]) (t_trace s)).

Definition chip_thread (t : nat) : thread (D := list nat) :=
  Thread None (if Nat.eqb t 4 then None else Some (write_down t)) None None None None None None None None None None None None None
    None None None None None.
Definition chip_pib (t : nat) : pib (D := list nat) := Thread.Pib None None None None.

Lemma chip_controlled : controlled chip_tree 10 chip_line chip_thread chip_pib.
Proof.
  assert (forall t, (2 <= t)%nat -> ancestry chip_tree true t (chip_line t)) as Hl.
  { intros [|[|t]] Ht; try lia. eapply anc_up; [reflexivity|]. eapply anc_up; [reflexivity|]. by apply anc_top. }
  split.
  - intros k [-> | ->]; cbn [chip_tree target_classes String.eqb Ascii.eqb Bool.eqb default from_option]; split_and!; cbn; try lia.
    + apply NoDup_singleton.
    + constructor; [|constructor]. split; [|cbn; lia]. eapply anc_up; [reflexivity|]. by apply anc_top.
    + apply (bool_decide_eq_true_1 _). reflexivity.
    + repeat constructor; try (apply Hl; lia); cbn; lia.
  - intros t Ht. cbn in Ht. rewrite !elem_of_cons, elem_of_nil in Ht. by destruct_or! Ht; subst.
  - intros t f H. cbn in H. destruct_or! H; try done. by destruct H as (g & ? & _).
  - intros t f H. cbn in H. destruct_or! H; try done; [|by destruct H as (g & ? & _)].
    destruct (Nat.eqb t 4); simplify_eq. by intros w.
Qed.

Definition chip_world : world (tgt (list nat)) :=
  World ∅ 0%nat (Tgt (fun t => if Nat.eqb t 3 then PDBG_TARGET_DISABLED else PDBG_TARGET_ENABLED) [] []).

Lemma threads_controlled_witness :
  (thread_start_all chip_tree 10 chip_thread chip_pib chip_world).1 = Fail (-1) /\
  t_dev (w_st (thread_start_all chip_tree 10 chip_thread chip_pib chip_world).2) = [2%nat] /\
  thread_stop_proc chip_tree 10 chip_thread chip_pib 1 chip_world = (Fail (-1), chip_world).
Proof.
  destruct (threads_controlled chip_tree 10 chip_line chip_thread chip_pib chip_controlled) as (_ & Hstart & _ & _ & Hproc).
  split_and!.
  - rewrite (Hstart chip_world). vm_compute. reflexivity.
  - rewrite (Hstart chip_world). vm_compute. reflexivity.
  - destruct (Hproc 1%nat chip_world eq_refl eq_refl) as [_ ->]. vm_compute. reflexivity.
Defined.
