(* ===== verification/Walk.v ===== *)
(** * libpdbg: walking the device tree

    Models the part of libpdbg/device.c that walks a subtree node by node and looks at the
    "compatible" and "reg" properties, and libpdbg/hwunit.c, the table of hardware units that
    nodes are matched against. *)

From S2P Require Import Prelude CMem Target Device.
From Stdlib Require Import Ascii.

(** ** Strings in properties *)

Definition str_bytes (s : string) : list Z := (fun c => Z.of_nat (nat_of_ascii c)) <$> String.list_ascii_of_string s.

(** [tolower] of the C locale *)
Definition tolower (c : Z) : Z := if (65 <=? c) && (c <=? 90) then c + 32 else c.

Definition strcaseeq (a b : list Z) : bool := bool_decide ((tolower <$> a) = (tolower <$> b)).

(** The bytes of the string at the start of [bs]. *)
Fixpoint cstring (bs : list Z) : option (list Z) :=
  match bs with
  | [] => None
  | b :: bs' => if b =? 0 then Some [] else cons b <$> cstring bs'
  end.

Section Walk.
Context {S : Type}.

(** [while (c < end) { ...; c += strlen(c) + 1; }] over a list of strings; a string without its
    end in the property is read beyond it. *)
Fixpoint scan_strings {A} (fuel : nat) (bs : list Z) (f : list Z -> option A) : M S (option A) :=
  match fuel with
  | O => crash NoFuel
  | Datatypes.S fuel' =>
      match bs with
      | [] => mret None
      | _ :: _ =>
          match cstring bs with
          | None => crash OutOfBounds
          | Some s =>
              match f s with
              | Some a => mret (Some a)
              | None => scan_strings fuel' (drop (length s + 1) bs) f
              end
          end
      end
  end.

Context (T : dtree) (has_offset : nat -> bool) (ps : props).
Abbreviation property t name := (pdbg_target_property T has_offset ps t name).

Definition pdbg_target_compatible (t : nat) (compat : string) : M S bool :=
  match property t "compatible" with
  | None => mret false
  | Some c =>
      r ← scan_strings (Datatypes.S (length c)) c (fun s => if strcaseeq (str_bytes compat) s then Some tt else None);
      mret (match r with Some _ => true | None => false end)
  end.

(** ** The walk *)

Definition dt_first (t : nat) : option nat := head (children (node T t)).

(** [do { ... } while (prev != root);]: the next sibling of [prev] or of one of its ancestors. A
    node without a parent is an access through NULL. *)
Fixpoint dt_up (fuel : nat) (root prev : nat) : M S (option nat) :=
  match fuel with
  | O => crash NoFuel
  | Datatypes.S fuel' =>
      match parent (node T prev) with
      | None => crash OutOfBounds
      | Some p =>
          match list_after prev (children (node T p)) with
          | None => crash OutOfBounds
          | Some (next :: _) => mret (Some next)
          | Some [] => if Nat.eqb p root then mret None else dt_up fuel' root p
          end
      end
  end.

Definition dt_next (fuel : nat) (root prev : nat) : M S (option nat) :=
  match children (node T prev) with
  | _ :: _ => mret (dt_first prev)
  | [] => dt_up fuel root prev
  end.

(** [for (; target; target = dt_next(root, target)) if (compatible) return target;] *)
Fixpoint compatible_from (fuel : nat) (root : nat) (target : option nat) (compat : string) : M S (option nat) :=
  match fuel with
  | O => crash NoFuel
  | Datatypes.S fuel' =>
      match target with
      | None => mret None
      | Some t =>
          b ← pdbg_target_compatible t compat;
          if b : bool then mret (Some t) else
          next ← dt_next fuel root t;
          compatible_from fuel' root next compat
      end
  end.

Definition __pdbg_next_compatible_node (fuel : nat) (root : nat) (prev : option nat) (compat : string) : M S (option nat) :=
  target ← match prev with Some p => dt_next fuel root p | None => mret (Some root) end;
  compatible_from fuel root target compat.

(** [pdbg_for_each_compatible(parent, target, compat) body], after [prev] *)
Fixpoint each_compatible (n fuel : nat) (root : nat) (prev : option nat) (compat : string) (body : nat -> M S unit) : M S unit :=
  match n with
  | O => crash NoFuel
  | Datatypes.S n' =>
      target ← __pdbg_next_compatible_node fuel root prev compat;
      match target with
      | None => mret tt
      | Some t => body t;; each_compatible n' fuel root (Some t) compat body
      end
  end.

Definition for_each_compatible (fuel : nat) (root : nat) (compat : string) (body : nat -> M S unit) : M S unit :=
  each_compatible fuel fuel root None compat body.

(** ** Addresses *)

Definition dt_property_get_cell (prop : list Z) (index : nat) : M S Z :=
  c_assert (4 * (index + 1) <=? length prop)%nat;;
  mret (be_val (slice (4 * index) 4 prop)).

Definition dt_prop_get_u32_def (t : nat) (name : string) (def : Z) : M S Z :=
  match property t name with
  | None => mret def
  | Some p => dt_property_get_cell p 0
  end.

Definition dt_n_address_cells (t : nat) : M S Z :=
  match parent (node T t) with None => mret 0 | Some p => dt_prop_get_u32_def p "#address-cells" 2 end.

Definition dt_n_size_cells (t : nat) : M S Z :=
  match parent (node T t) with None => mret 0 | Some p => dt_prop_get_u32_def p "#size-cells" 1 end.

(** [cells] words of 32 bits, the first one highest. *)
Fixpoint dt_get_number (cells : nat) (p : list Z) (ret : Z) : M S Z :=
  match cells with
  | O => mret ret
  | Datatypes.S cells' =>
      if (length p <? 4)%nat then crash OutOfBounds
      else dt_get_number cells' (drop 4 p) (Z.lor (u64 (Z.shiftl ret 32)) (be_val (take 4 p)))
  end.

(** A negative [wanted_len] is any length; the checks end in [abort()]. *)
Definition dt_require_property (t : nat) (name : string) (wanted_len : Z) : M S (list Z) :=
  match property t name with
  | None => crash AssertFailed
  | Some p => if (0 <=? wanted_len) && negb (Z.of_nat (length p) =? wanted_len) then crash AssertFailed else mret p
  end.

(** The address and, for a caller that asks for it, the size. *)
Definition pdbg_target_address (t : nat) (want_size : bool) : M S (Z * option Z) :=
  na ← dt_n_address_cells t;
  ns ← dt_n_size_cells t;
  p ← dt_require_property t "reg" (-1);
  let n := u32 (u32 (na + ns) * 4) in
  if Z.of_nat (length p) <? n then crash AssertFailed else
  out_size ← (if want_size then size ← dt_get_number (Z.to_nat ns) (drop (Z.to_nat (na * 4)) p) 0; mret (Some size) else mret None);
  addr ← dt_get_number (Z.to_nat na) p 0;
  mret (addr, out_size).
End Walk.

(** ** Hardware units *)

Definition MAX_HW_UNITS : nat := 1024.
Definition MAX_BACKENDS : nat := 16.
Definition PDBG_DEFAULT_BACKEND : nat := 0.

(** A unit is known by the string its target is compatible with; the table has a list of units
    for each back end. *)
Record hw_unit_info := HwUnit { hu_compatible : string; hu_number : nat }.

Section HwUnit.
Abbreviation table := (nat -> list hw_unit_info).

Definition pdbg_hwunit_register (backend : nat) (u : hw_unit_info) : M table unit :=
  if negb (backend <? MAX_BACKENDS)%nat then crash OutOfBounds else
  tab ← get_st;
  c_assert (length (tab backend) <? MAX_HW_UNITS)%nat;;
  put_st (fun b => if Nat.eqb b backend then tab b ++ [u] else tab b).

Fixpoint find_driver (units : list hw_unit_info) (compat : list Z) : option hw_unit_info :=
  match units with
  | [] => None
  | p :: units' => if bool_decide (str_bytes (hu_compatible p) = compat) then Some p else find_driver units' compat
  end.

Definition find_compatible (backend : nat) (compat_list : list Z) : M table (option hw_unit_info) :=
  tab ← get_st;
  scan_strings (S (length compat_list)) compat_list (find_driver (tab backend)).

(** [current] is the answer of [pdbg_get_backend()]. *)
Definition pdbg_hwunit_find_compatible (current : nat) (compat_list : list Z) : M table (option hw_unit_info) :=
  p ← find_compatible current compat_list;
  match p with
  | Some p => mret (Some p)
  | None => find_compatible PDBG_DEFAULT_BACKEND compat_list
  end.
End HwUnit.
