(* ===== verification/WalkTheorems.v ===== *)
(** * libpdbg: a walk visits a subtree in preorder

    The nodes of a subtree, parents before children and children in order, and the proof that
    walking from node to node goes through exactly these; what the search for compatible nodes,
    the addresses of nodes and the table of hardware units give. *)

From stdpp Require Import functions.
From S2P Require Import Prelude CMem Target TargetRelease Device Walk.
From Stdlib Require Import Ascii.

(** ** Lists of strings *)

(** [ss] are the strings in the bytes [bs]. *)
Definition holds_strings (bs : list Z) (ss : list (list Z)) : Prop :=
  bs = concat ((fun s => s ++ [0]) <$> ss) /\ Forall (fun s => 0 ∉ s) ss.

Lemma cstring_app s rest : 0 ∉ s -> cstring (s ++ 0 :: rest) = Some s.
Proof.
  induction s as [|b s IH]; intros H; [done|]. apply not_elem_of_cons in H as [Hb Hs]. cbn. rewrite IH by done.
  by destruct (Z.eqb_spec b 0).
Qed.

(** The first answer for a string of the list. *)
Fixpoint first_some {A B} (f : A -> option B) (l : list A) : option B :=
  match l with
  | [] => None
  | x :: l' => match f x with Some b => Some b | None => first_some f l' end
  end.

Lemma scan_step {S A} fuel s rest (f : list Z -> option A) (w : world S) : 0 ∉ s ->
  scan_strings (Datatypes.S fuel) (s ++ 0 :: rest) f w =
  match f s with Some a => (Ret (Some a), w) | None => scan_strings fuel rest f w end.
Proof.
  intros Hs. cbn [scan_strings]. rewrite cstring_app by done. destruct (s ++ 0 :: rest) as [|b bs] eqn:E; [by destruct s|].
  rewrite <- E. destruct (f s); [done|]. rewrite drop_app_ge by lia. by replace (length s + 1 - length s)%nat with 1%nat by lia.
Qed.

Lemma scan_strings_ok {S A} fuel bs ss (f : list Z -> option A) (w : world S) : holds_strings bs ss -> (length bs < fuel)%nat ->
  scan_strings fuel bs f w = (Ret (first_some f ss), w).
Proof.
  intros [-> Hz]. revert fuel. induction ss as [|s ss IH]; intros fuel Hf; (destruct fuel as [|fuel]; [lia|]); [done|].
  apply Forall_cons in Hz as [Hs Hz]. cbn [fmap list_fmap concat] in *. rewrite <- app_assoc, length_app in *. cbn [app length] in *.
  rewrite scan_step by done. cbn [first_some]. destruct (f s); [done|]. apply IH; [done|lia].
Qed.

Section Walk.
Context {S : Type} (T : dtree).
Implicit Types (w : world S).

(** ** Subtrees *)

Inductive sub : nat -> list nat -> Prop :=
| sub_intro t l : NoDup (children (node T t)) -> subs t (children (node T t)) l -> sub t (t :: l)
with subs : nat -> list nat -> list nat -> Prop :=
| subs_nil p : subs p [] []
| subs_cons p c cs l l' : parent (node T c) = Some p -> sub c l -> subs p cs l' -> subs p (c :: cs) (l ++ l').

Scheme sub_mind := Minimality for sub Sort Prop
with subs_mind := Minimality for subs Sort Prop.
Combined Scheme sub_subs_ind from sub_mind, subs_mind.

(** ** One step *)

(** Going up from [prev] ends at [o] after [k] nodes. *)
Inductive up_to (root : nat) : nat -> option nat -> nat -> Prop :=
| up_next prev p next rest : parent (node T prev) = Some p ->
    list_after prev (children (node T p)) = Some (next :: rest) -> up_to root prev (Some next) 1
| up_stop prev : parent (node T prev) = Some root -> list_after prev (children (node T root)) = Some [] -> up_to root prev None 1
| up_more prev p o k : parent (node T prev) = Some p -> p <> root ->
    list_after prev (children (node T p)) = Some [] -> up_to root p o k -> up_to root prev o (Datatypes.S k).

Lemma up_to_ok root prev o k fuel w : up_to root prev o k -> (k <= fuel)%nat -> dt_up T fuel root prev w = (Ret o, w).
Proof.
  intros H. revert fuel. induction H as [prev p next rest Hp Hl|prev Hp Hl|prev p o k Hp Hne Hl H IH];
    intros fuel Hf; (destruct fuel as [|fuel]; [lia|]); cbn [dt_up]; rewrite Hp, Hl; [done|by rewrite Nat.eqb_refl|].
  apply Nat.eqb_neq in Hne as ->. apply IH. lia.
Qed.

(** [walk root K o l o']: from [o] the walk goes through [l] and arrives at [o']; [K] is enough
    fuel for every step. *)
Inductive walk (root K : nat) : option nat -> list nat -> option nat -> Prop :=
| walk_nil o : walk root K o [] o
| walk_cons t l o o' : (forall fuel w, (K <= fuel)%nat -> dt_next T fuel root t w = (Ret o, w)) -> walk root K o l o' ->
    walk root K (Some t) (t :: l) o'.

Lemma walk_app root K o l o' l' o'' : walk root K o l o' -> walk root K o' l' o'' -> walk root K o (l ++ l') o''.
Proof. induction 1; [done|]. intros. cbn. econstructor; [done|auto]. Qed.

Lemma walk_mono root K K' o l o' : (K <= K')%nat -> walk root K o l o' -> walk root K' o l o'.
Proof. intros Hle. induction 1 as [|t l o o' H Hw IH]; [constructor|]. econstructor; [|exact IH]. intros fuel w Hf. apply H. lia. Qed.

Lemma list_after_here pre c cs : NoDup (pre ++ c :: cs) -> list_after c (pre ++ c :: cs) = Some cs.
Proof. intros H. apply list_after_app. apply NoDup_app in H as (_ & H & _). intros Hin. apply (H c Hin). left. Qed.

(** The walk through a subtree that does not hold the root. *)
Lemma walk_sub root :
  (forall t l, sub t l -> forall o k, root ∉ l -> up_to root t o k -> walk root (k + length l) (Some t) l o) /\
  (forall p cs l, subs p cs l -> forall pre o k, root ∉ l -> children (node T p) = pre ++ cs -> NoDup (children (node T p)) ->
     (forall c pre', children (node T p) = pre' ++ [c] -> parent (node T c) = Some p -> up_to root c o k) -> (0 < k)%nat ->
     walk root (k + length l) (match cs with [] => o | c :: _ => Some c end) l o).
Proof.
  apply sub_subs_ind.
  - intros t l Hnd Hs IH o k Hr Hup. apply not_elem_of_cons in Hr as [Hne Hr].
    assert (0 < k)%nat by (inversion Hup; lia).
    destruct (children (node T t)) as [|c cs] eqn:Ec.
    + inversion Hs; subst. econstructor; [|constructor]. intros fuel w Hf. unfold dt_next. rewrite Ec. eapply up_to_ok; [exact Hup|cbn in Hf; lia].
    + econstructor.
      * intros fuel w Hf. unfold dt_next, dt_first. rewrite Ec. done.
      * cbn [length]. replace (k + Datatypes.S (length l))%nat with (Datatypes.S k + length l)%nat by lia.
        apply (IH [] o (Datatypes.S k)); [done|done|done| |lia]. intros c' pre' E' Hp'. eapply up_more; [exact Hp'|done| |exact Hup].
        rewrite Ec, E'. apply list_after_here. by rewrite <- E'.
  - intros p pre o k _ _ _ _ _. constructor.
  - intros p c cs l l' Hp Hc IHc Hcs IHcs pre o k Hr Ech Hnd Hend Hk. rewrite not_elem_of_app in Hr. destruct Hr as [Hr1 Hr2].
    assert (children (node T p) = (pre ++ [c]) ++ cs) as Ech' by (by rewrite <- app_assoc).
    eapply walk_app; [|eapply walk_mono; [|apply (IHcs (pre ++ [c]) o k); [done|done|done|exact Hend|done]]].
    + assert (list_after c (children (node T p)) = Some cs) as Hla by (rewrite Ech; apply list_after_here; by rewrite <- Ech).
      destruct cs as [|c2 cs].
      * eapply walk_mono; [|apply (IHc o k); [done|by apply (Hend c pre)]]. rewrite length_app. lia.
      * eapply walk_mono; [|apply (IHc (Some c2) 1%nat); [done|by eapply up_next]]. rewrite length_app. lia.
    + rewrite length_app. lia.
Qed.

(** The walk through a subtree from its root, when there is anything below it. *)
Lemma walk_root root l : sub root (root :: l) -> root ∉ l -> children (node T root) <> [] ->
  walk root (2 + length l) (Some root) (root :: l) None.
Proof.
  intros H Hr Hne. inversion H as [t l0 Hnd Hs]; subst. destruct (children (node T root)) as [|c cs] eqn:Ec; [done|].
  econstructor; [intros fuel w Hf; unfold dt_next, dt_first; by rewrite Ec|]. cbn [head].
  eapply walk_mono; [|apply (proj2 (walk_sub root) root (c :: cs) l Hs [] None 1%nat); [done|done|by rewrite Ec| |lia]]; [lia|].
  intros c' pre' E' Hp'. apply up_stop; [done|]. rewrite E'. apply list_after_here. by rewrite <- E', Ec.
Qed.
End Walk.

Section Compatible.
Context {S : Type} (T : dtree) (has_offset : nat -> bool) (ps : props) (compat : string).
Implicit Types (w : world S) (body : nat -> M S unit).
Abbreviation property t name := (pdbg_target_property T has_offset ps t name).

(** The strings a node is compatible with. *)
Definition compat_strings (t : nat) (ss : list (list Z)) : Prop :=
  match property t "compatible" with Some bs => holds_strings bs ss | None => ss = [] end.

Definition is_compatible (strings : nat -> list (list Z)) (t : nat) : Prop :=
  Exists (fun s => strcaseeq (str_bytes compat) s = true) (strings t).
#[export] Instance is_compatible_dec strings t : Decision (is_compatible strings t).
Proof. unfold is_compatible. apply _. Defined.

Context (strings : nat -> list (list Z)).

Lemma first_some_exists ss : match first_some (fun s => if strcaseeq (str_bytes compat) s then Some tt else None) ss with Some _ => true | None => false end =
  bool_decide (Exists (fun s => strcaseeq (str_bytes compat) s = true) ss).
Proof.
  induction ss as [|s ss IH]; [done|]. cbn [first_some]. destruct (strcaseeq (str_bytes compat) s) eqn:E.
  - symmetry. apply bool_decide_eq_true_2. by left.
  - rewrite IH. apply bool_decide_ext. rewrite Exists_cons. split; [by right|]. intros [H|H]; [congruence|done].
Qed.

Lemma compatible_ok t w : compat_strings t (strings t) ->
  pdbg_target_compatible T has_offset ps t compat w = (Ret (bool_decide (is_compatible strings t)), w).
Proof.
  unfold compat_strings, pdbg_target_compatible. destruct (property t "compatible") as [bs|].
  - intros H. unfold mbind, M_bind. rewrite (scan_strings_ok _ _ (strings t)) by (done || lia). rewrite first_some_exists.
    unfold mret, M_ret. do 2 f_equal.
  - intros E. rewrite bool_decide_eq_false_2; [done|]. unfold is_compatible. rewrite E. by intros ?%Exists_nil.
Qed.

Context (root K : nat).

Lemma compatible_from_ok o l fuel w : walk (S := S) T root K o l None -> Forall (fun t => compat_strings t (strings t)) l ->
  (K + length l < fuel)%nat ->
  compatible_from T has_offset ps fuel root o compat w = (Ret (head (filter (is_compatible strings) l)), w).
Proof.
  intros H. remember None as o' eqn:Eo. revert fuel. induction H as [o|t l o o' Hn Hw IH]; intros fuel Hs Hf; subst;
    (destruct fuel as [|fuel]; [lia|]); [done|]. apply Forall_cons in Hs as [Ht Hs]. cbn [length] in Hf.
  cbn [compatible_from]. unfold mbind, M_bind. rewrite compatible_ok by done.
  destruct (decide (is_compatible strings t)) as [Hc|Hc].
  - rewrite bool_decide_eq_true_2 by done. by rewrite filter_cons_True.
  - rewrite bool_decide_eq_false_2 by done. rewrite filter_cons_False by done.
    rewrite (Hn (Datatypes.S fuel)) by lia. apply IH; [done|done|lia].
Qed.

Fixpoint run_list body (ts : list nat) : M S unit :=
  match ts with
  | [] => mret tt
  | t :: ts' => body t;; run_list body ts'
  end.

(** From a node of the walk to the rest of it. *)
Lemma walk_split pre t l : forall o, walk (S := S) T root K o (pre ++ t :: l) None ->
  exists o', (forall fuel w, (K <= fuel)%nat -> dt_next T fuel root t w = (Ret o', w)) /\ walk (S := S) T root K o' l None.
Proof.
  induction pre as [|x pre IH]; intros o H; inversion H as [|? ? o1 ? H1 H2]; subst; [by exists o1|]. by eapply IH.
Qed.

Lemma filter_head l t r : filter (is_compatible strings) l = t :: r ->
  exists pre l', l = pre ++ t :: l' /\ filter (is_compatible strings) l' = r.
Proof.
  induction l as [|x l IH]; intros E; [done|]. destruct (decide (is_compatible strings x)) as [Hx|Hx].
  - rewrite filter_cons_True in E by done. injection E as -> <-. by exists [], l.
  - rewrite filter_cons_False in E by done. destruct (IH E) as (pre & l' & -> & <-). by exists (x :: pre), l'.
Qed.

Lemma each_compatible_ok n fuel prev o l body w :
  (forall w, (match prev with Some p => dt_next T fuel root p | None => mret (Some root) end) w = (Ret o, w)) ->
  walk (S := S) T root K o l None -> Forall (fun t => compat_strings t (strings t)) l -> (K + length l < fuel)%nat -> (length l < n)%nat ->
  each_compatible T has_offset ps n fuel root prev compat body w = run_list body (filter (is_compatible strings) l) w.
Proof.
  revert prev o l w. induction n as [|n IH]; intros prev o l w Hp Hw Hs Hf Hn; [lia|]. cbn [each_compatible].
  unfold __pdbg_next_compatible_node. unfold mbind at 1, M_bind at 1. unfold mbind at 1, M_bind at 1.
  rewrite Hp, (compatible_from_ok o l) by done. destruct (filter (is_compatible strings) l) as [|t r] eqn:Ef; [done|].
  cbn [head run_list]. unfold mbind, M_bind. destruct (body t w) as [[[]|rc|c] w']; [|done..].
  destruct (filter_head l t r Ef) as (pre & l' & -> & <-). destruct (walk_split pre t l' o Hw) as (o' & Hn' & Hw').
  apply Forall_app in Hs as [_ [_ Hs]%Forall_cons]. rewrite length_app in Hf, Hn. cbn [length] in Hf, Hn.
  apply (IH (Some t) o'); [intros w''; apply Hn'; lia|done|done|lia|lia].
Qed.
End Compatible.

(** Going through the compatible nodes of a subtree. For a node that has children, the loop
    over the nodes below it that are compatible with a string runs its body once for each node
    of the subtree, the node itself included, among whose strings there is this one whatever
    its case, and for no other; parents come before children, and children in their order. The
    body may fail or do anything to the state; the loop then ends there. More fuel than twice
    the number of nodes is enough for every step. *)
Theorem compatible_nodes_visited {S : Type} (T : dtree) (has_offset : nat -> bool) (ps : props) (compat : string)
    (strings : nat -> list (list Z)) (root : nat) (l : list nat) (fuel : nat) (body : nat -> M S unit) (w : world S) :
  sub T root (root :: l) -> root ∉ l -> children (node T root) <> [] ->
  Forall (fun t => compat_strings T has_offset ps t (strings t)) (root :: l) -> (2 * length l + 3 < fuel)%nat ->
  for_each_compatible T has_offset ps fuel root compat body w =
  run_list body (filter (is_compatible compat strings) (root :: l)) w.
Proof.
  intros Hs Hr Hc Hst Hf. unfold for_each_compatible.
  eapply (each_compatible_ok T has_offset ps compat strings root (2 + length l) fuel fuel None (Some root));
    [done|by apply walk_root|done|cbn; lia|cbn; lia].
Qed.

(** ** Addresses *)

(** The words of a property as one number; it keeps the lowest 64 bits. *)
Lemma dt_get_number_ok {S} cells : forall bs acc rest (w : world S), length bs = (4 * cells)%nat -> Forall is_byte bs ->
  dt_get_number cells (bs ++ rest) (u64 acc) w = (Ret (u64 (acc * 256 ^ Z.of_nat (length bs) + be_val bs)), w).
Proof.
  induction cells as [|cells IH]; intros bs acc rest w Hl Hb.
  - destruct bs; [|done]. cbn. by rewrite Z.mul_1_r, Z.add_0_r.
  - destruct bs as [|b0 [|b1 [|b2 [|b3 bs]]]]; try (cbn in Hl; lia). cbn [dt_get_number app length Nat.ltb Nat.leb]. rewrite !firstn_cons, !skipn_cons, take_0, drop_0.
    do 4 (apply Forall_cons in Hb as [? Hb]). set (x := be_val [b0; b1; b2; b3]).
    assert (0 <= x < 2 ^ 32) as Hx by (unfold x; rewrite !be_val_cons; unfold is_byte in *; cbn [length Z.of_nat]; cbn; lia).
    assert (Z.lor (u64 (u64 acc ≪ 32)) x = u64 (acc * 2 ^ 32 + x)) as ->.
    { rewrite Z.shiftl_mul_pow2 by lia. unfold wrap. rewrite Z.mul_mod_idemp_l by lia.
      change (2 ^ 64) with (2 ^ 32 * 2 ^ 32). rewrite Z.mul_mod_distr_r by lia. rewrite <- Z.shiftl_mul_pow2 by lia.
      rewrite lor_shiftl_add by (done || lia). rewrite <- (Z.mul_mod_distr_r acc (2 ^ 32) (2 ^ 32)) by lia.
      rewrite (Z.add_mod (acc * 2 ^ 32)), (Z.mod_small x) by lia. symmetry. apply Z.mod_small.
      pose proof (Z.mod_pos_bound acc (2 ^ 32)). rewrite Z.mul_mod_distr_r by lia. nia. }
    rewrite IH by (done || (cbn in Hl; lia)). do 2 f_equal. f_equal.
    rewrite !be_val_cons. cbn [length]. rewrite !Nat2Z.inj_succ, !Z.pow_succ_r by lia. unfold x. rewrite !be_val_cons.
    generalize (256 ^ Z.of_nat (length bs)) as y, (be_val bs) as z. intros y z.
    change (2 ^ 32) with (256 * 256 * 256 * 256). change (256 ^ Z.of_nat (length [b1; b2; b3])) with (256 * 256 * 256).
    change (256 ^ Z.of_nat (length [b2; b3])) with (256 * 256). change (256 ^ Z.of_nat (length [b3])) with 256.
    change (256 ^ Z.of_nat (@length Z [])) with 1. change (be_val []) with 0. ring.
Qed.

(** The cells of a node: those its parent says, or the usual ones. *)
Definition cells_of {S : Type} (T : dtree) (has_offset : nat -> bool) (ps : props) (t : nat) (na ns : nat) : Prop :=
  (forall w : world S, dt_n_address_cells T has_offset ps t w = (Ret (Z.of_nat na), w)) /\
  (forall w : world S, dt_n_size_cells T has_offset ps t w = (Ret (Z.of_nat ns), w)).

(** The address and the size that were put into the "reg" property of a node, each with its
    number of cells, come out of it again, as far as 64 bits go. *)
Lemma target_address_ok {S : Type} (T : dtree) (has_offset : nat -> bool) (ps : props) (t : nat) (na ns : nat) (addr size : Z) (rest : list Z) (w : world S) :
  cells_of (S := S) T has_offset ps t na ns -> Z.of_nat (na + ns) < 2 ^ 30 -> 0 <= addr < 256 ^ Z.of_nat (4 * na) -> 0 <= size < 256 ^ Z.of_nat (4 * ns) ->
  pdbg_target_property T has_offset ps t "reg" = Some (be_bytes (4 * na) addr ++ be_bytes (4 * ns) size ++ rest) ->
  pdbg_target_address T has_offset ps t true w = (Ret (u64 addr, Some (u64 size)), w) /\
  pdbg_target_address T has_offset ps t false w = (Ret (u64 addr, None), w).
Proof.
  intros [Hna Hns] Hlt Ha Hs Hp.
  assert (forall k v bs, 0 <= v < 256 ^ Z.of_nat (4 * k) -> dt_get_number (S := S) k (be_bytes (4 * k) v ++ bs) 0 w = (Ret (u64 v), w)) as Hn.
  { intros k v bs Hv. change 0 with (u64 0). rewrite dt_get_number_ok by (apply length_be_bytes || apply be_bytes_is_byte).
    rewrite be_val_be_bytes, Z.mul_0_l, Z.add_0_l, (Z.mod_small v) by done. done. }
  unfold pdbg_target_address, dt_require_property, mbind, M_bind, mret, M_ret. rewrite Hna, Hns, Hp. cbn [andb Z.leb Z.compare].
  rewrite (wrap_small 32 (Z.of_nat na + Z.of_nat ns)), wrap_small by (unfold in_range; lia).
  rewrite !length_app, !length_be_bytes. destruct (Z.ltb_spec (Z.of_nat (4 * na + (4 * ns + length rest))) ((Z.of_nat na + Z.of_nat ns) * 4)); [lia|].
  replace (Z.to_nat (Z.of_nat na * 4)) with (4 * na)%nat by lia. rewrite !Nat2Z.id.
  rewrite drop_app_length' by (by rewrite length_be_bytes). rewrite (Hn ns) by done. by rewrite (Hn na) by done.
Qed.

(** ** Hardware units *)

(** The first unit that was registered for the string. *)
Definition unit_for (tab : nat -> list hw_unit_info) (backend : nat) (s : list Z) : option hw_unit_info :=
  List.find (fun u => bool_decide (str_bytes (hu_compatible u) = s)) (tab backend).

Lemma find_driver_find us s : find_driver us s = List.find (fun u => bool_decide (str_bytes (hu_compatible u) = s)) us.
Proof. induction us as [|u us IH]; [done|]. cbn. by case_bool_decide. Qed.

Lemma hwunit_found tab cur compat ss h n :
  holds_strings compat ss ->
  pdbg_hwunit_find_compatible cur compat (World h n tab) =
  (Ret (match first_some (unit_for tab cur) ss with
        | Some u => Some u
        | None => first_some (unit_for tab PDBG_DEFAULT_BACKEND) ss
        end), World h n tab).
Proof.
  intros Hs. assert (forall b, find_compatible b compat (World h n tab) = (Ret (first_some (unit_for tab b) ss), World h n tab)) as Hf.
  { intros b. unfold find_compatible, get_st, mbind, M_bind. cbn [w_st]. rewrite (scan_strings_ok _ _ ss) by (done || lia).
    do 2 f_equal. clear Hs. induction ss as [|s ss' IH]; [done|]. cbn [first_some]. rewrite IH. unfold unit_for at 2. by rewrite find_driver_find. }
  unfold pdbg_hwunit_find_compatible, mbind, M_bind. rewrite Hf. destruct (first_some (unit_for tab cur) ss); [done|]. apply Hf.
Qed.

(** Registering a unit puts it behind the others of its back end; the table of a back end has
    room for 1024, and one more ends the program. *)
Lemma hwunit_registered backend u tab h n : (backend < MAX_BACKENDS)%nat ->
  pdbg_hwunit_register backend u (World h n tab) =
  if (length (tab backend) <? MAX_HW_UNITS)%nat
  then (Ret tt, World h n (fun b => if Nat.eqb b backend then tab b ++ [u] else tab b))
  else (Crash AssertFailed, World h n tab).
Proof.
  intros Hb. unfold pdbg_hwunit_register. apply Nat.ltb_lt in Hb as ->. unfold get_st, c_assert, put_st, mbind, M_bind. cbn [negb w_st].
  destruct (length (tab backend) <? MAX_HW_UNITS)%nat; reflexivity.
Qed.

(** ** A small tree *)

Definition walk_node (parent : option nat) (cs : list nat) : pdbg_target :=
  Node true None None false NoRelease 0 parent cs None None 0 0 0 None false false.

Definition walk_tree : dtree :=
  Dtree (fun t => match t with 0 => walk_node None [1; 2] | 1 => walk_node (Some 0) [3] | 2 => walk_node (Some 0) [] | _ => walk_node (Some 1) [] end%nat)
    0 (fun _ => None) false.

(** Nodes 2 and 3 are compatible with two strings, the second with other letters. *)
Definition walk_strings (t : nat) : list (list Z) :=
  match t with
  | 2 => [str_bytes "ibm,core"; str_bytes "IBM,Thread"]
  | 3 => [str_bytes "ibm,thread"]
  | _ => []
  end%nat.

Definition walk_props : props :=
  {[(2%nat, "compatible"%string) := concat ((fun s => s ++ [0]) <$> walk_strings 2);
    (3%nat, "compatible"%string) := concat ((fun s => s ++ [0]) <$> walk_strings 3)]}.

(** The body writes down the node. *)
Definition note (t : nat) : M (list nat) unit := s ← get_st; put_st (s ++ [t]).

Lemma walk_tree_sub : sub walk_tree 0 [0; 1; 3; 2]%nat.
Proof.
  assert (forall t, (2 <= t)%nat -> sub walk_tree t [t]) as Hleaf.
  { intros [|[|[|t]]] Ht; try lia; (constructor; [constructor|constructor]). }
  apply (sub_intro _ 0 [1; 3; 2]%nat); [apply (bool_decide_eq_true_1 _); reflexivity|].
  apply (subs_cons _ 0 1 [2] [1; 3] [2])%nat; [done| |apply (subs_cons _ 0 2 [] [2] [])%nat; [done|apply Hleaf; lia|constructor]].
  apply (sub_intro _ 1 [3]%nat); [apply NoDup_singleton|]. apply (subs_cons _ 1 3 [] [3] [])%nat; [done|apply Hleaf; lia|constructor].
Qed.

Lemma compatible_nodes_visited_witness :
  w_st (for_each_compatible walk_tree (fun _ => true) walk_props 10 0 "ibm,thread" note (World ∅ 0%nat [])).2 = [3; 2]%nat.
Proof.
  assert (Forall (fun t => compat_strings walk_tree (fun _ => true) walk_props t (walk_strings t)) [0; 1; 3; 2]%nat) as Hs.
  { repeat first [apply Forall_nil_2 | apply Forall_cons_2]; try (vm_compute; reflexivity);
      (split; [vm_compute; reflexivity|]); apply (bool_decide_eq_true_1 _); vm_compute; reflexivity. }
  rewrite (compatible_nodes_visited walk_tree (fun _ => true) walk_props "ibm,thread" walk_strings 0 [1; 3; 2]%nat 10 note (World ∅ 0%nat [])
    walk_tree_sub ltac:(apply (bool_decide_eq_true_1 _); reflexivity) ltac:(discriminate) Hs ltac:(cbn; lia)).
  vm_compute. reflexivity.
Defined.

(** ** What goes wrong *)

(** A node without children is left by the walk: it goes on to the nodes that come after it, here
    from node 3, which should be the whole subtree, to node 2. *)
Lemma childless_walk_escapes : dt_next (S := unit) walk_tree 10 3 3 (World ∅ 0%nat tt) = (Ret (Some 2%nat), World ∅ 0%nat tt).
Proof. reflexivity. Qed.
