(* ===== verification/Chip.v ===== *)
(** * libpdbg: the threads and cores of POWER9 and POWER10

    Models libpdbg/p9chip.c and libpdbg/p10chip.c: the state of a thread as its registers show
    it, starting, stopping, stepping and resetting a thread, feeding it instructions, and the
    special wakeup of a core. The two chips differ in the registers and in the test for a
    quiesced thread; what they share is defined once, over a record of the registers. *)

From S2P Require Import Prelude CMem Target Pib Adu Ram Thread.

(** ** Data *)

Inductive pdbg_sleep_state :=
| PDBG_THREAD_STATE_RUN
| PDBG_THREAD_STATE_DOZE
| PDBG_THREAD_STATE_NAP
| PDBG_THREAD_STATE_SLEEP
| PDBG_THREAD_STATE_STOP.

#[export] Instance pdbg_sleep_state_eq_dec : EqDecision pdbg_sleep_state.
Proof. solve_decision. Defined.

Inductive pdbg_smt_state :=
| PDBG_SMT_UNKNOWN
| PDBG_SMT_1
| PDBG_SMT_2
| PDBG_SMT_4
| PDBG_SMT_8.

#[export] Instance pdbg_smt_state_eq_dec : EqDecision pdbg_smt_state.
Proof. solve_decision. Defined.

Record thread_state := ThreadState {
  active : bool;
  quiesced : bool;
  lpar_per_thread : bool;
  fused_core_mode : bool;
  sleep_state : pdbg_sleep_state;
  smt_state : pdbg_smt_state
}.

(** The members of [struct thread] that change. *)
Record thread_vars := ThreadVars {
  id : Z;
  status : thread_state;
  ram_set_up : bool;                      (* [ram_is_setup] *)
  ram_did_quiesce : bool
}.

(** What the threads and cores keep, by target, next to the hardware. *)
Record chips (E : Type) := Chips {
  thread_of : nat -> thread_vars;
  release_spwkup : nat -> bool;
  chip_dev : E
}.
Arguments Chips {E} _ _ _.
Arguments thread_of {E} _.
Arguments release_spwkup {E} _.
Arguments chip_dev {E} _.

(** ** The registers of the chips *)

Definition OPCODE_MASK : Z := 0xfc0003ff.
Definition MXSPR_SPR (opcode : Z) : Z :=
  Z.lor (Z.land (Z.shiftr opcode 16) 0x1f) (Z.land (Z.shiftr opcode 6) 0x3e0).

Definition P9_RAS_STATUS : Z := 0x10a02.
Definition P9_CORE_THREAD_STATE : Z := 0x10ab3.
Definition P9_THREAD_INFO : Z := 0x10a9b.
Definition P9_DIRECT_CONTROL : Z := 0x10a9c.
Definition P9_RAS_MODEREG : Z := 0x10a9d.
Definition P9_RAM_MODEREG : Z := 0x10a4e.
Definition P9_RAM_CTRL : Z := 0x10a4f.
Definition P9_RAM_STATUS : Z := 0x10a50.
Definition P9_SCOMC : Z := 0x10a80.
Definition P9_SPR_MODE : Z := 0x10a84.
Definition P9_SCR0_REG : Z := 0x10a86.
Definition PPM_SPWKUP_FSP : Z := 0xf010b.
Definition PPM_SSHFSP : Z := 0xf0111.

Definition P10_CORE_THREAD_STATE : Z := 0x28412.
Definition P10_THREAD_INFO : Z := 0x28413.
Definition P10_DIRECT_CONTROL : Z := 0x28449.
Definition P10_RAS_STATUS : Z := 0x28454.
Definition QME_SSH_FSP : Z := 0xE8824.
Definition QME_SPWU_FSP : Z := 0xE8834.

Definition SPECIAL_WKUP_DONE : Z := PPC_BIT 1.
Definition RAS_STATUS_TIMEOUT : Z := 100.
Definition SPECIAL_WKUP_TIMEOUT : Z := 100.

Record chip_regs := ChipRegs {
  ras_status : Z;
  thread_info : Z;
  core_thread_state : Z;
  direct_control : Z;
  spwkup_request : Z;
  spwkup_state : Z;
  is_quiesced : Z -> Z -> bool            (* of the thread number and the status register *)
}.

Definition p9_is_quiesced (id value : Z) : bool :=
  GETFIELD (PPC_BITMASK (8 * id) (3 + 8 * id)) value =? 0xf.

Definition p10_is_quiesced (id value : Z) : bool :=
  let maint_mode := truthy (Z.land value (PPC_BIT (0 + 8 * id))) in
  let thread_quiesced := truthy (Z.land value (PPC_BIT (1 + 8 * id))) in
  let ict_empty := truthy (Z.land value (PPC_BIT (2 + 8 * id))) in
  maint_mode && thread_quiesced && ict_empty.

Definition p9_regs : chip_regs :=
  ChipRegs P9_RAS_STATUS P9_THREAD_INFO P9_CORE_THREAD_STATE P9_DIRECT_CONTROL PPM_SPWKUP_FSP PPM_SSHFSP p9_is_quiesced.
Definition p10_regs : chip_regs :=
  ChipRegs P10_RAS_STATUS P10_THREAD_INFO P10_CORE_THREAD_STATE P10_DIRECT_CONTROL QME_SPWU_FSP QME_SSH_FSP p10_is_quiesced.

(** [switch (smt_mode)] *)
Definition smt_of (smt_mode : Z) : pdbg_smt_state :=
  if smt_mode =? 0 then PDBG_SMT_1
  else if smt_mode =? 2 then PDBG_SMT_2
  else if smt_mode =? 3 then PDBG_SMT_4
  else PDBG_SMT_UNKNOWN.

(** The state of thread [id] that the three registers show. *)
Definition decode_state (R : chip_regs) (id ras info core : Z) : thread_state :=
  ThreadState (truthy (Z.land info (PPC_BIT id))) (is_quiesced R id ras)
    (negb (truthy (Z.land core (PPC_BIT 62)))) (truthy (Z.land core (PPC_BIT 63)))
    (if truthy (Z.land core (PPC_BIT (56 + id))) then PDBG_THREAD_STATE_STOP else PDBG_THREAD_STATE_RUN)
    (smt_of (u8 (GETFIELD (PPC_BITMASK 8 9) info))).

Section Chip.
Context {E : Type} {Hw : Hardware (chips E)} (T : dtree) (fuel : nat).
Abbreviation m := (M (tgt (chips E))).

(** ** The variables of a thread and a core *)

Definition get_thread (t : nat) : m thread_vars := s ← get_st; mret (thread_of (t_dev s) t).

Definition put_thread (t : nat) (v : thread_vars) : m unit :=
  s ← get_st;
  put_st (Tgt (t_status s) (Chips (fun u => if Nat.eqb u t then v else thread_of (t_dev s) u)
                              (release_spwkup (t_dev s)) (chip_dev (t_dev s))) (t_trace s)).

Definition set_release_spwkup (c : nat) (b : bool) : m unit :=
  s ← get_st;
  put_st (Tgt (t_status s) (Chips (thread_of (t_dev s))
                              (fun u => if Nat.eqb u c then b else release_spwkup (t_dev s) u) (chip_dev (t_dev s))) (t_trace s)).

Definition put_id (t : nat) (i : Z) : m unit :=
  v ← get_thread t; put_thread t (ThreadVars i (status v) (ram_set_up v) (ram_did_quiesce v)).
Definition put_status (t : nat) (st : thread_state) : m unit :=
  v ← get_thread t; put_thread t (ThreadVars (id v) st (ram_set_up v) (ram_did_quiesce v)).
Definition put_ram_is_setup (t : nat) (b : bool) : m unit :=
  v ← get_thread t; put_thread t (ThreadVars (id v) (status v) b (ram_did_quiesce v)).
Definition put_ram_did_quiesce (t : nat) (b : bool) : m unit :=
  v ← get_thread t; put_thread t (ThreadVars (id v) (status v) (ram_set_up v) b).

(** ** Access to the registers *)

Definition thread_read (t : nat) (addr : Z) : m Z :=
  chip ← require_target_parent T fuel (Some "core"%string) t true;
  pib_read T fuel chip addr.

Definition thread_write (t : nat) (addr data : Z) : m unit :=
  chip ← require_target_parent T fuel (Some "core"%string) t true;
  pib_write T fuel chip addr data.

(** A read whose return code is not looked at: the variable keeps its value when the read
    fails, and using it before it has one is a use of an indeterminate value. *)
Definition read_into (old : mval) (r : m Z) : m mval :=
  v ← attempt r; mret (match v with inr v => Some v | inl _ => old end).
Definition value_of (v : mval) : m Z := match v with Some v => mret v | None => crash Uninit end.

(** A write whose return code is not looked at. *)
Definition unchecked (op : m unit) : m unit := attempt op;; mret tt.

(** ** What POWER9 and POWER10 share *)

Section Shared.
Context (R : chip_regs).

Definition state_of (t : nat) : m thread_state :=
  th ← get_thread t;
  value ← read_into None (thread_read t (ras_status R));
  ras ← value_of value;
  value ← read_into value (thread_read t (thread_info R));
  info ← value_of value;
  value ← read_into value (thread_read t (core_thread_state R));
  core ← value_of value;
  mret (decode_state R (id th) ras info core).

(** [thread->status = thread->state(thread);] *)
Definition update_status (t : nat) : m unit := st ← state_of t; put_status t st.

(** [thread->id] is an [int], the index an unsigned number of 32 bits. *)
Definition s32 (v : Z) : Z := if u32 v <? 2 ^ 31 then u32 v else u32 v - 2 ^ 32.

Definition probe_thread (t : nat) : m unit :=
  i ← pdbg_target_index T fuel (Some t);
  put_id t (s32 i);;
  update_status t.

Definition release_thread (t : nat) : m unit :=
  core ← require_target_parent T fuel (Some "core"%string) t true;
  th ← get_thread t;
  if quiesced (status th) then set_release_spwkup core false else mret tt.

Definition start_thread (t : nat) : m unit :=
  th ← get_thread t;
  if negb (quiesced (status th)) then fail 1 else
  (if negb (active (status th)) || bool_decide (sleep_state (status th) = PDBG_THREAD_STATE_STOP)
   then unchecked (thread_write t (direct_control R) (PPC_BIT (3 + 8 * id th)))
   else unchecked (thread_write t (direct_control R) (PPC_BIT (6 + 8 * id th))));;
  update_status t.

(** [do { ... } while (!thread->status.quiesced);] from the count [i] on *)
Fixpoint stop_loop (n : nat) (t : nat) (i : Z) : m unit :=
  match n with
  | O => crash NoFuel
  | S n' =>
      if RAS_STATUS_TIMEOUT <? i then fail 1 else
      update_status t;;
      th ← get_thread t;
      if negb (quiesced (status th)) then stop_loop n' t (i + 1) else mret tt
  end.

Definition stop_fuel : nat := 102.

Definition stop_thread (t : nat) : m unit :=
  th ← get_thread t;
  unchecked (thread_write t (direct_control R) (PPC_BIT (7 + 8 * id th)));;
  stop_loop stop_fuel t 0.

Definition sreset_thread (t : nat) : m unit :=
  th ← get_thread t;
  if negb (quiesced (status th)) then fail 1 else
  unchecked (thread_write t (direct_control R) (PPC_BIT (4 + 8 * id th)));;
  update_status t.

(** [do { ... } while (!(value & SPECIAL_WKUP_DONE));]: a timeout leaves the loop. *)
Fixpoint wakeup_loop (n : nat) (core : nat) (i : Z) : m unit :=
  match n with
  | O => crash NoFuel
  | S n' =>
      value ← pib_read T fuel core (spwkup_state R);
      if SPECIAL_WKUP_TIMEOUT <? i then mret tt else
      if negb (truthy (Z.land value SPECIAL_WKUP_DONE)) then wakeup_loop n' core (i + 1) else mret tt
  end.

Definition probe_core (core : nat) : m unit :=
  pib_write T fuel core (spwkup_request R) (PPC_BIT 0);;
  wakeup_loop stop_fuel core 0;;
  set_release_spwkup core true.

(** The body of the loop over the threads of a core that is released. *)
Definition settle_thread : nat -> m unit := settle_with (pdbg_target_probe T fuel) (pdbg_target_release T fuel).

Definition release_core (core : nat) : m unit :=
  for_each_target T fuel "thread" core settle_thread;;
  s ← get_st;
  if negb (release_spwkup (t_dev s) core) then mret tt else
  unchecked (pib_write T fuel core (spwkup_request R) 0).
End Shared.

(** ** POWER9 *)

(** [do { thread_read(thread, addr, &value); } while (cond);] need not end: the fuel bounds
    the number of reads. *)
Fixpoint read_while (n : nat) (t : nat) (addr : Z) (cond : Z -> bool) (value : mval) : m mval :=
  match n with
  | O => crash NoFuel
  | S n' =>
      value ← read_into value (thread_read t addr);
      v ← value_of value;
      if cond v then read_while n' t addr cond value else mret value
  end.

Definition p9_thread_state : nat -> m thread_state := state_of p9_regs.

Definition p9_thread_probe : nat -> m unit := probe_thread p9_regs.

Definition p9_thread_release : nat -> m unit := release_thread.

Definition p9_thread_start : nat -> m unit := start_thread p9_regs.

Definition p9_thread_stop : nat -> m unit := stop_thread p9_regs.

(** [for (i = 0; i < count; i++) ...], [n] rounds *)
Fixpoint step_loop (n : nat) (t : nat) (value : mval) : m unit :=
  match n with
  | O => mret tt
  | S n' =>
      th ← get_thread t;
      unchecked (thread_write t P9_DIRECT_CONTROL (PPC_BIT (5 + 8 * id th)));;
      value ← read_while fuel t P9_RAS_STATUS (fun v => negb (truthy (Z.land v (PPC_BIT (4 + 8 * id th))))) value;
      step_loop n' t value
  end.

Definition p9_thread_step (t : nat) (count : Z) : m unit :=
  th ← get_thread t;
  if negb (quiesced (status th)) then fail 1 else
  if negb (active (status th)) then fail 1 else
  if bool_decide (sleep_state (status th) = PDBG_THREAD_STATE_STOP) then fail 1 else
  unchecked (thread_write t P9_RAS_MODEREG (PPC_BIT 57));;
  step_loop (Z.to_nat count) t None;;
  unchecked (thread_write t P9_RAS_MODEREG 0).

Definition p9_thread_sreset : nat -> m unit := sreset_thread p9_regs.

(** [CHECK_ERR_GOTO(out_fail, ...)]: every failure is a return code of 1. *)
Definition or_fail (op : m unit) : m unit :=
  r ← attempt op; match r with inl _ => fail 1 | inr _ => mret tt end.

(** The body of the loop over the threads of the core. *)
Definition require_quiesced (target : nat) : m unit :=
  st ← pdbg_target_probe T fuel target;
  if negb (bool_decide (st = PDBG_TARGET_ENABLED)) then fail 1 else
  tmp ← get_thread target;
  if negb (quiesced (status tmp)) then fail 1 else mret tt.

Definition p9_ram_setup (t : nat) : m unit :=
  chip ← require_target_parent T fuel (Some "core"%string) t true;
  th ← get_thread t;
  if ram_set_up th then fail 1 else
  for_each_target T fuel "thread" chip require_quiesced;;
  value ← read_while fuel t P9_RAS_STATUS (fun v => truthy (Z.land v (PPC_BIT 32))) None;
  read_while fuel t P9_THREAD_INFO (fun v => truthy (Z.land v (PPC_BIT 23))) value;;
  th ← get_thread t;
  or_fail (thread_write t P9_THREAD_INFO (PPC_BIT (18 + id th)));;
  or_fail (thread_write t P9_RAM_MODEREG (PPC_BIT 0));;
  or_fail (thread_write t P9_SPR_MODE 0x00000ff000000000);;
  or_fail (thread_write t P9_SCOMC 0x0);;
  update_status p9_regs t;;
  put_ram_is_setup t true.

(** The switch over the instruction: the word that is fed to the thread, and its predecode. *)
Definition p9_predecode (opcode : Z) : Z * Z :=
  let op := Z.land opcode OPCODE_MASK in
  if op =? MTNIA_OPCODE then (Z.lor 0x4c0000a4 0x001e0000, 8)
  else if op =? MFNIA_OPCODE then (0x1ac804, 2)
  else if op =? MTMSR_OPCODE then (Z.lor opcode 0x001e0000, 8)
  else if op =? MFSPR_OPCODE then (opcode, if MXSPR_SPR opcode =? 1 then 4 else 0)
  else if op =? MTSPR_OPCODE then (opcode, if MXSPR_SPR opcode =? 1 then 4 else 0)
  else (opcode, 0).

Definition p9_ram_ctrl (id predecode opcode : Z) : Z :=
  let value := SETFIELD (PPC_BITMASK 0 1) 0 id in
  let value := SETFIELD (PPC_BITMASK 2 5) value predecode in
  SETFIELD (PPC_BITMASK 8 39) value opcode.

(** [while (!(value & PPC_BIT(3))) CHECK_ERR(...);] *)
Fixpoint load_wait (n : nat) (t : nat) (value : Z) : m unit :=
  match n with
  | O => crash NoFuel
  | S n' =>
      if truthy (Z.land value (PPC_BIT 3)) then mret tt else
      value ← thread_read t P9_RAM_STATUS;
      load_wait n' t value
  end.

(** An error of an access is the result of the function, as are the codes 0 and 1; the scratch
    variable of the caller changes only where it is read from the chip. *)
Definition __p9_ram_instruction (t : nat) (opcode scratch : Z) : m (Z * Z) :=
  th ← get_thread t;
  if negb (ram_set_up th) then mret (1, scratch) else
  let '(opcode, predecode) := p9_predecode opcode in
  r ← attempt (
    thread_write t P9_SCR0_REG scratch;;
    thread_write t P9_RAM_CTRL (p9_ram_ctrl (id th) predecode opcode);;
    value ← thread_read t P9_RAM_STATUS;
    let rc := if truthy (Z.land value (PPC_BIT 0)) then 1 else if truthy (Z.land value (PPC_BIT 2)) then 1 else 0 in
    (if Z.land opcode OPCODE_MASK =? LD_OPCODE then load_wait fuel t value else mret tt);;
    if negb (truthy rc) then thread_read t P9_SCR0_REG else fail rc);
  mret (match r with inl rc => (rc, scratch) | inr v => (0, v) end).

(** The second test for a load, after the first one has returned, is never true. *)
Definition p9_ram_instruction (t : nat) (opcode scratch : Z) : m (Z * Z) :=
  if Z.land opcode OPCODE_MASK =? LD_OPCODE then mret (1, scratch) else __p9_ram_instruction t opcode scratch.

Definition p9_ram_destroy (t : nat) : m unit :=
  th ← get_thread t;
  if negb (ram_set_up th) then fail 1 else
  thread_write t P9_RAM_MODEREG 0;;
  thread_write t P9_THREAD_INFO 0;;
  update_status p9_regs t;;
  put_ram_is_setup t false.

(** The members of [p9_thread] that ramming uses, for one thread. *)
#[local] Instance p9_thread (t : nat) : RamThread (tgt (chips E)) := {|
  ram_is_setup s := ram_set_up (thread_of (t_dev s) t);
  ram_setup := p9_ram_setup t;
  ram_destroy := p9_ram_destroy t;
  ram_instruction := p9_ram_instruction t
|}.

Definition p9_ram_getxer (t : nat) : m Z := ram_getspr (Th := p9_thread t) SPR_XER.
Definition p9_ram_putxer (t : nat) (value : Z) : m unit := ram_putspr (Th := p9_thread t) SPR_XER value.

(** The members of [p9_thread], as the functions of thread.c use them. *)
Definition p9_thread_ops (t : nat) : @thread (chips E) :=
  let th := p9_thread t in
  Thread.Thread (Some (p9_thread_step t)) (Some (p9_thread_start t)) (Some (p9_thread_stop t)) (Some (p9_thread_sreset t))
    (Some (ram_getmem (Th := th))) (Some (ram_getregs (Th := th) (p9_ram_getxer t) ∅))
    (Some (ram_getgpr (Th := th))) (Some (ram_putgpr (Th := th))) (Some (ram_getspr (Th := th))) (Some (ram_putspr (Th := th)))
    None None (Some (ram_getmsr (Th := th))) (Some (ram_putmsr (Th := th))) (Some (ram_getnia (Th := th))) (Some (ram_putnia (Th := th)))
    (Some (p9_ram_getxer t)) (Some (p9_ram_putxer t)) (Some (ram_getcr (Th := th))) (Some (ram_putcr (Th := th))).

Definition p9_core_probe : nat -> m unit := probe_core p9_regs.

Definition p9_core_release : nat -> m unit := release_core p9_regs.

(** ** POWER10 *)

Definition p10_thread_state : nat -> m thread_state := state_of p10_regs.

Definition p10_thread_probe : nat -> m unit := probe_thread p10_regs.

Definition p10_thread_release : nat -> m unit := release_thread.

Definition p10_thread_start : nat -> m unit := start_thread p10_regs.

Definition p10_thread_stop : nat -> m unit := stop_thread p10_regs.

Definition p10_thread_sreset : nat -> m unit := sreset_thread p10_regs.

(** No registers can be read or written. *)
Definition p10_thread_ops (t : nat) : @thread (chips E) :=
  Thread.Thread None (Some (p10_thread_start t)) (Some (p10_thread_stop t)) (Some (p10_thread_sreset t))
    None None None None None None None None None None None None None None None None.

(** [context_short] is the answer of [pdbg_context_is_short()]. *)
Definition p10_core_probe (context_short : bool) (core : nat) : m unit :=
  if negb context_short then set_release_spwkup core false else probe_core p10_regs core.

Definition p10_core_release : nat -> m unit := release_core p10_regs.
End Chip.

(** The address of a register of the POWER10 core with the index [index]. The quotient and the
    remainder of C are those of numbers that are not negative. *)
Definition NUM_CORES_PER_EQ : Z := 4.
Definition p10_core_translate (index addr : Z) : Z :=
  let chiplet_id := 0x20 + Z.quot index NUM_CORES_PER_EQ in
  let region :=
    let i := Z.rem index NUM_CORES_PER_EQ in
    if i =? 0 then 8 else if i =? 1 then 4 else if i =? 2 then 2 else if i =? 3 then 1 else 0 in
  let addr := Z.land addr 0xFFFFFFFFC0FFFFFF in
  let addr := Z.lor addr (Z.shiftl (Z.land chiplet_id 0x3F) 24) in
  let addr := Z.land addr 0xFFFFFFFFFFFF0FFF in
  Z.lor addr (Z.shiftl (Z.land region 0xF) 12).
