(* ===== verification/ChipFacts.v ===== *)
(** * libpdbg: looking at and controlling one thread

    The interface between the chips and the bus below them, and what the operations on one
    thread do with its registers. *)

From S2P Require Import Prelude CMem Target TargetRelease Pib Adu Ram Chip.

#[local] Arguments thread_read : simpl never.
#[local] Arguments thread_write : simpl never.

(** A bus with registers; a return code other than 0 is an error. *)
Class Scom (E : Type) := {
  scom_read : nat -> Z -> E -> E * (Z + Z);
  scom_write : nat -> Z -> Z -> E -> E * Z
}.

Definition set_dev {E} (e : E) (d : chips E) : chips E := Chips (thread_of d) (release_spwkup d) e.

(** The registers of the cores are on the bus, and accessing them leaves the variables of
    threads and cores alone. *)
Class OnBus (E : Type) {Sc : Scom E} {Hw : Hardware (chips E)} : Prop := {
  bus_reads P a d : hw_read P a d = (set_dev (scom_read P a (chip_dev d)).1 d, (scom_read P a (chip_dev d)).2);
  bus_writes P a x d : hw_write P a x d = (set_dev (scom_write P a x (chip_dev d)).1 d, (scom_write P a x (chip_dev d)).2)
}.

Definition set_vars_status (v : thread_vars) (st : thread_state) : thread_vars :=
  ThreadVars (id v) st (ram_set_up v) (ram_did_quiesce v).

Section Facts.
Context {E : Type} {Sc : Scom E} {Hw : Hardware (chips E)} {Ob : OnBus E} (T : dtree) (fuel : nat).
Implicit Types (h : gmap nat (list mval)) (n : nat) (st : nat -> pdbg_target_status) (d : chips E) (e : E) (tr : list tevent).

(** The core [core] has its registers on the bus [P], register [a] at the address [f a], and no
    indirect ones among those below 2^20. *)
Record core_at (core P : nat) (f : Z -> Z) : Prop := {
  at_addr a (w : world (tgt (chips E))) : get_class_target_addr T fuel core "pib" a w = (Ret (P, f a), w);
  at_direct a : 0 <= a < 2 ^ 20 -> truthy (Z.land (f a) (PPC_BIT 0)) = false;
  at_read : can_read (node T P) = true;
  at_write : can_write (node T P) = true
}.

Definition in_core (t core : nat) : Prop :=
  forall w, require_target_parent (D := chips E) T fuel (Some "core"%string) t true w = (Ret core, w).

Lemma wp_eq {A} (m m' : M (tgt (chips E)) A) w Q : m w = m' w -> wp m' w Q -> wp m w Q.
Proof. unfold wp. by intros ->. Qed.

Context (core P : nat) (f : Z -> Z) (Hat : core_at core P f).

Lemma pib_read_at a h n st d tr : 0 <= a < 2 ^ 20 -> st P = PDBG_TARGET_ENABLED ->
  pib_read T fuel core a (World h n (Tgt st d tr)) =
  (match (scom_read P (f a) (chip_dev d)).2 with inl rc => Fail rc | inr v => Ret v end,
   World h n (Tgt st (set_dev (scom_read P (f a) (chip_dev d)).1 d) (tr ++ [EvRead P (f a)]))).
Proof.
  intros Ha HP. unfold pib_read, mbind at 1, M_bind at 1. rewrite (at_addr _ _ _ Hat).
  unfold require_enabled, pdbg_target_status_of, get_st, require_op, pib_any_read, bus_read, hw_call.
  rewrite (at_direct _ _ _ Hat) by done. rewrite (at_read _ _ _ Hat). unfold mbind, M_bind. cbn. rewrite HP, bool_decide_eq_true_2 by done. cbn.
  rewrite bus_reads. cbn. by destruct (scom_read P (f a) (chip_dev d)) as [e [rc|v]].
Qed.

Lemma pib_write_at a x h n st d tr : 0 <= a < 2 ^ 20 -> st P = PDBG_TARGET_ENABLED ->
  pib_write T fuel core a x (World h n (Tgt st d tr)) =
  (if truthy (scom_write P (f a) x (chip_dev d)).2 then Fail (scom_write P (f a) x (chip_dev d)).2 else Ret tt,
   World h n (Tgt st (set_dev (scom_write P (f a) x (chip_dev d)).1 d) (tr ++ [EvWrite P (f a) x]))).
Proof.
  intros Ha HP. unfold pib_write, mbind at 1, M_bind at 1. rewrite (at_addr _ _ _ Hat).
  unfold require_enabled, pdbg_target_status_of, get_st, require_op, pib_any_write, bus_write, hw_call.
  rewrite (at_direct _ _ _ Hat) by done. rewrite (at_write _ _ _ Hat). unfold mbind, M_bind. cbn. rewrite HP, bool_decide_eq_true_2 by done. cbn.
  rewrite bus_writes. cbn. destruct (scom_write P (f a) x (chip_dev d)) as [e rc]. cbn. by destruct (truthy rc).
Qed.

Context (t : nat) (Hin : in_core t core).

Lemma thread_read_ok a h n st d tr : 0 <= a < 2 ^ 20 -> st P = PDBG_TARGET_ENABLED ->
  thread_read T fuel t a (World h n (Tgt st d tr)) =
  (match (scom_read P (f a) (chip_dev d)).2 with inl rc => Fail rc | inr v => Ret v end,
   World h n (Tgt st (set_dev (scom_read P (f a) (chip_dev d)).1 d) (tr ++ [EvRead P (f a)]))).
Proof. intros Ha HP. unfold thread_read, mbind, M_bind. rewrite Hin. by apply pib_read_at. Qed.

Lemma thread_write_ok a x h n st d tr : 0 <= a < 2 ^ 20 -> st P = PDBG_TARGET_ENABLED ->
  thread_write T fuel t a x (World h n (Tgt st d tr)) =
  (if truthy (scom_write P (f a) x (chip_dev d)).2 then Fail (scom_write P (f a) x (chip_dev d)).2 else Ret tt,
   World h n (Tgt st (set_dev (scom_write P (f a) x (chip_dev d)).1 d) (tr ++ [EvWrite P (f a) x]))).
Proof. intros Ha HP. unfold thread_write, mbind, M_bind. rewrite Hin. by apply pib_write_at. Qed.

(** ** Looking at a thread *)

(** The registers are where they are on a chip. *)
Record regs_ok (R : chip_regs) : Prop := {
  ok_ras : 0 <= ras_status R < 2 ^ 20;
  ok_info : 0 <= thread_info R < 2 ^ 20;
  ok_core : 0 <= core_thread_state R < 2 ^ 20;
  ok_control : 0 <= direct_control R < 2 ^ 20;
  ok_request : 0 <= spwkup_request R < 2 ^ 20;
  ok_wakeup : 0 <= spwkup_state R < 2 ^ 20
}.

Lemma p9_regs_ok : regs_ok p9_regs. Proof. split; cbn; split; (reflexivity || discriminate). Qed.
Lemma p10_regs_ok : regs_ok p10_regs. Proof. split; cbn; split; (reflexivity || discriminate). Qed.

Context (R : chip_regs) (HR : regs_ok R).

(** [sees i e s e']: the three reads of the state of thread [i] show [s]. *)
Inductive sees (i : Z) : E -> thread_state -> E -> Prop :=
| sees_intro e e1 e2 e3 ras info cts :
    scom_read P (f (ras_status R)) e = (e1, inr ras) ->
    scom_read P (f (thread_info R)) e1 = (e2, inr info) ->
    scom_read P (f (core_thread_state R)) e2 = (e3, inr cts) ->
    sees i e (decode_state R i ras info cts) e3.

Definition looks : list tevent :=
  [EvRead P (f (ras_status R)); EvRead P (f (thread_info R)); EvRead P (f (core_thread_state R))].

Lemma state_of_ok h n st d tr s e : st P = PDBG_TARGET_ENABLED ->
  sees (id (thread_of d t)) (chip_dev d) s e ->
  state_of T fuel R t (World h n (Tgt st d tr)) = (Ret s, World h n (Tgt st (set_dev e d) (tr ++ looks))).
Proof.
  intros HP Hs. inversion Hs as [e0 e1 e2 e3 ras info cts E1 E2 E3]; subst. destruct HR.
  unfold state_of, get_thread, get_st, read_into, attempt, value_of, mbind, M_bind, mret, M_ret. cbn.
  rewrite thread_read_ok, E1 by done. cbn. rewrite thread_read_ok by done. cbn. rewrite E2. cbn.
  rewrite thread_read_ok by done. cbn. rewrite E3. cbn. unfold set_dev. cbn. by rewrite <- !app_assoc.
Qed.

(** Probing the thread, as a function of the state it is seen in. *)
Definition set_thread (v : thread_vars) d : chips E :=
  Chips (fun u => if Nat.eqb u t then v else thread_of d u) (release_spwkup d) (chip_dev d).
Definition probe_vars (i : Z) (s : thread_state) (v : thread_vars) : thread_vars := ThreadVars i s (ram_set_up v) (ram_did_quiesce v).

Lemma probe_thread_eq i s e h n st d tr : st P = PDBG_TARGET_ENABLED ->
  (forall w : world (tgt (chips E)), pdbg_target_index T fuel (Some t) w = (Ret i, w)) -> sees (s32 i) (chip_dev d) s e ->
  probe_thread T fuel R t (World h n (Tgt st d tr)) =
  (Ret tt, World h n (Tgt st (set_thread (probe_vars (s32 i) s (thread_of d t))
                                (set_dev e (set_thread (probe_vars (s32 i) (status (thread_of d t)) (thread_of d t)) d))) (tr ++ looks))).
Proof.
  intros HP Hidx Hs. unfold probe_thread, put_id, update_status, put_status, put_thread, get_thread, get_st, put_st, mbind, M_bind, mret, M_ret.
  rewrite Hidx. cbn [w_st t_dev t_status t_trace w_heap w_next].
  rewrite (state_of_ok _ _ _ _ _ s e); [|done|cbn; rewrite Nat.eqb_refl; exact Hs]. cbn. by rewrite !Nat.eqb_refl.
Qed.

(** [after v e d d']: only the variables of the thread and the bus have changed. *)
Definition after (v : thread_vars) e d d' : Prop :=
  chip_dev d' = e /\ thread_of d' t = v /\ (forall u, u <> t -> thread_of d' u = thread_of d u) /\
  release_spwkup d' = release_spwkup d.

Lemma after_refl d : after (thread_of d t) (chip_dev d) d d.
Proof. done. Qed.

Lemma after_trans v v' e e' d d' d'' : after v e d d' -> after v' e' d' d'' -> after v' e' d d''.
Proof.
  intros (_ & _ & H1 & H2) (H3 & H4 & H5 & H6). split_and!; try done; [|congruence].
  intros u Hu. by rewrite H5, H1.
Qed.

Lemma after_set_dev e d : after (thread_of d t) e d (set_dev e d).
Proof. done. Qed.

(** The outcome of an operation on the thread: the result, the thread and the bus, and the
    accesses it made; nothing else has changed. *)
Definition does {A} (r : Z + A) (v : thread_vars) e (evs : list tevent) h n st d tr (r' : Z + A) (w : world (tgt (chips E))) : Prop :=
  r' = r /\ exists d', w = World h n (Tgt st d' (tr ++ evs)) /\ after v e d d'.

Lemma wp_put_thread v h n st d tr (Q : Z + unit -> world (tgt (chips E)) -> Prop) :
  (forall d', after v (chip_dev d) d d' -> Q (inr tt) (World h n (Tgt st d' tr))) ->
  wp (put_thread t v) (World h n (Tgt st d tr)) Q.
Proof.
  intros HQ. apply HQ. split_and!; cbn; [done|by rewrite Nat.eqb_refl| |done].
  intros u Hu. by apply Nat.eqb_neq in Hu as ->.
Qed.

Lemma wp_update h n st d tr s e (Q : Z + unit -> world (tgt (chips E)) -> Prop) : st P = PDBG_TARGET_ENABLED ->
  sees (id (thread_of d t)) (chip_dev d) s e ->
  (forall d', after (set_vars_status (thread_of d t) s) e d d' -> Q (inr tt) (World h n (Tgt st d' (tr ++ looks)))) ->
  wp (update_status T fuel R t) (World h n (Tgt st d tr)) Q.
Proof.
  intros HP Hs HQ. unfold update_status. apply wp_bind. unfold wp at 1. rewrite (state_of_ok _ _ _ _ _ _ _ HP Hs).
  apply wp_bind. apply wp_put_thread. intros d' Hd'. apply HQ. exact Hd'.
Qed.

Lemma wp_unchecked a x h n st d tr (Q : Z + unit -> world (tgt (chips E)) -> Prop) :
  0 <= a < 2 ^ 20 -> st P = PDBG_TARGET_ENABLED ->
  Q (inr tt) (World h n (Tgt st (set_dev (scom_write P (f a) x (chip_dev d)).1 d) (tr ++ [EvWrite P (f a) x]))) ->
  wp (unchecked (thread_write T fuel t a x)) (World h n (Tgt st d tr)) Q.
Proof.
  intros Ha HP HQ. unfold unchecked. apply wp_bind, wp_attempt. unfold wp at 1. rewrite thread_write_ok by done.
  by destruct (truthy _).
Qed.

(** ** Stopping a thread *)

(** Looking again and again shows the states [ss]. *)
Inductive shows (i : Z) : E -> list thread_state -> E -> Prop :=
| shows_nil e : shows i e [] e
| shows_cons e e1 e2 s ss : sees i e s e1 -> shows i e1 ss e2 -> shows i e (s :: ss) e2.

(** The thread as the last of these looks shows it. *)
Definition seen (v : thread_vars) (ss : list thread_state) : thread_vars := default v (set_vars_status v <$> last ss).

Lemma id_seen v ss : id (seen v ss) = id v.
Proof. unfold seen. by destruct (last ss). Qed.

Lemma seen_cons v s ss : seen (set_vars_status v s) ss = seen v (s :: ss).
Proof. unfold seen. rewrite last_cons. by destruct (last ss). Qed.

(** The looks that show a running thread are passed over. *)
Lemma wp_stop_skip ss : forall i m h n st d tr e (Q : Z + unit -> world (tgt (chips E)) -> Prop),
  st P = PDBG_TARGET_ENABLED -> shows (id (thread_of d t)) (chip_dev d) ss e ->
  Forall (fun s => quiesced s = false) ss -> i + Z.of_nat (length ss) <= RAS_STATUS_TIMEOUT + 1 ->
  (forall d', after (seen (thread_of d t) ss) e d d' ->
     wp (stop_loop T fuel R m t (i + Z.of_nat (length ss))) (World h n (Tgt st d' (tr ++ concat (replicate (length ss) looks)))) Q) ->
  wp (stop_loop T fuel R (length ss + m) t i) (World h n (Tgt st d tr)) Q.
Proof.
  induction ss as [|s ss IH]; intros i m h n st d tr e Q HP Hs Hq Hi HQ.
  - inversion Hs; subst. cbn [length Nat.add] in *. change (Z.of_nat 0) with 0 in HQ. rewrite Z.add_0_r in HQ.
    cbn in HQ. rewrite app_nil_r in HQ. apply HQ, after_refl.
  - inversion Hs as [|e0 e1 e2 s' ss' H1 H2]; subst. apply Forall_cons in Hq as [Hq1 Hq2].
    cbn [length Nat.add stop_loop] in *. unfold RAS_STATUS_TIMEOUT in *. destruct (Z.ltb_spec 100 i); [lia|].
    apply wp_bind. eapply wp_update; [done|exact H1|]. intros d' Hd'. apply wp_bind, wp_bind, wp_get_st, wp_ret.
    destruct Hd' as (He & Hv & Hrest). cbn [t_dev]. rewrite Hv. cbn [status set_vars_status]. rewrite Hq1. cbn [negb].
    eapply IH; [done| |done|lia|].
    + rewrite Hv, He. exact H2.
    + intros d'' Hd''. rewrite Hv, seen_cons in Hd''. replace (i + 1 + Z.of_nat (length ss)) with (i + Z.of_nat (S (length ss))) by lia.
      rewrite <- app_assoc. apply HQ. eapply after_trans; [split; [exact He|split; [exact Hv|exact Hrest]]|exact Hd''].
Qed.

Lemma wp_stop_ends ss s h n st d tr e e' :
  st P = PDBG_TARGET_ENABLED -> shows (id (thread_of d t)) (chip_dev d) ss e -> sees (id (thread_of d t)) e s e' ->
  Forall (fun s => quiesced s = false) ss -> quiesced s = true -> (length ss <= 100)%nat ->
  wp (stop_loop T fuel R stop_fuel t 0) (World h n (Tgt st d tr))
    (does (inr tt) (set_vars_status (thread_of d t) s) e' (concat (replicate (S (length ss)) looks)) h n st d tr).
Proof.
  intros HP Hss Hs Hq Hqs Hl. replace stop_fuel with (length ss + S (101 - length ss))%nat by (unfold stop_fuel; lia).
  eapply wp_stop_skip; [done|exact Hss|done|unfold RAS_STATUS_TIMEOUT; lia|]. intros d' Hd'. cbn [stop_loop].
  unfold RAS_STATUS_TIMEOUT. destruct (Z.ltb_spec 100 (0 + Z.of_nat (length ss))); [lia|].
  pose proof Hd' as (He & Hv & _). apply wp_bind. eapply wp_update; [done|rewrite Hv, id_seen, He; exact Hs|].
  intros d'' Hd''. apply wp_bind, wp_bind, wp_get_st, wp_ret. pose proof Hd'' as (He' & Hv' & _). cbn [t_dev]. rewrite Hv'.
  cbn [status set_vars_status]. rewrite Hqs. apply wp_ret. split; [done|]. exists d''. split.
  - rewrite replicate_S_end, concat_app. cbn [concat]. by rewrite app_nil_r, <- app_assoc.
  - eapply after_trans; [exact Hd'|]. replace (set_vars_status (thread_of d t) s) with (set_vars_status (thread_of d' t) s); [done|].
    rewrite Hv. unfold seen. by destruct (last ss).
Qed.

Lemma wp_stop_gives_up ss h n st d tr e :
  st P = PDBG_TARGET_ENABLED -> shows (id (thread_of d t)) (chip_dev d) ss e ->
  Forall (fun s => quiesced s = false) ss -> length ss = 101%nat ->
  wp (stop_loop T fuel R stop_fuel t 0) (World h n (Tgt st d tr))
    (does (inl 1) (seen (thread_of d t) ss) e (concat (replicate 101 looks)) h n st d tr).
Proof.
  intros HP Hss Hq Hl. change stop_fuel with (101 + 1)%nat. rewrite <- Hl.
  eapply wp_stop_skip; [done|exact Hss|done|unfold RAS_STATUS_TIMEOUT; lia|]. intros d' Hd'. cbn [stop_loop].
  rewrite Hl. cbn. split; [done|]. by exists d'.
Qed.

(** ** Waiting for a register *)

(** [settles a go e k v e']: register [a] is read [k] times while [go] holds of it, and once
    more, when it shows [v]. *)
Inductive settles (a : Z) (go : Z -> bool) : E -> nat -> Z -> E -> Prop :=
| settles_now e v e' : scom_read P (f a) e = (e', inr v) -> go v = false -> settles a go e 0 v e'
| settles_later e x e1 k v e' : scom_read P (f a) e = (e1, inr x) -> go x = true -> settles a go e1 k v e' -> settles a go e (S k) v e'.

Lemma wp_read_while a go e k v e' : settles a go e k v e' -> forall m old h n st d tr (Q : Z + mval -> world (tgt (chips E)) -> Prop),
  0 <= a < 2 ^ 20 -> st P = PDBG_TARGET_ENABLED -> chip_dev d = e -> (k < m)%nat ->
  Q (inr (Some v)) (World h n (Tgt st (set_dev e' d) (tr ++ replicate (S k) (EvRead P (f a))))) ->
  wp (read_while T fuel m t a go old) (World h n (Tgt st d tr)) Q.
Proof.
  induction 1 as [e v e' E1 Hg|e x e1 k v e' E1 Hg H IH]; intros m old h n st d tr Q Ha HP Hd Hm HQ;
    (destruct m as [|m]; [lia|]); cbn [read_while]; apply wp_bind, wp_bind, wp_attempt; unfold wp at 1;
    rewrite thread_read_ok, Hd, E1 by done; cbn [snd fst]; apply wp_ret, wp_bind, wp_ret; cbn beta iota; rewrite Hg.
  - by apply wp_ret.
  - eapply IH; [done|done|done|lia|]. rewrite <- app_assoc. exact HQ.
Qed.

(** ** Single steps of POWER9 *)

Definition step_done (i v : Z) : bool := negb (truthy (Z.land v (PPC_BIT (4 + 8 * i)))).

(** [stepped i c e e' evs]: [c] steps, each ended by the bit of the thread in the status. *)
Inductive stepped (i : Z) : nat -> E -> E -> list tevent -> Prop :=
| stepped_none e : stepped i 0 e e []
| stepped_one c e e1 k v e2 e' evs :
    (scom_write P (f P9_DIRECT_CONTROL) (PPC_BIT (5 + 8 * i)) e).1 = e1 ->
    settles P9_RAS_STATUS (step_done i) e1 k v e2 -> (k < fuel)%nat -> stepped i c e2 e' evs ->
    stepped i (S c) e e' (EvWrite P (f P9_DIRECT_CONTROL) (PPC_BIT (5 + 8 * i)) ::
                            replicate (S k) (EvRead P (f P9_RAS_STATUS)) ++ evs).

Lemma wp_steps i c e e' evs : stepped i c e e' evs -> forall old h n st d tr (Q : Z + unit -> world (tgt (chips E)) -> Prop),
  st P = PDBG_TARGET_ENABLED -> chip_dev d = e -> id (thread_of d t) = i ->
  Q (inr tt) (World h n (Tgt st (set_dev e' d) (tr ++ evs))) ->
  wp (step_loop T fuel c t old) (World h n (Tgt st d tr)) Q.
Proof.
  induction 1 as [e|c e e1 k v e2 e' evs Ew Hs Hk Hst IH]; intros old h n st d tr Q HP Hd Hi HQ; cbn [step_loop].
  - apply wp_ret. rewrite app_nil_r in HQ. by destruct d; subst.
  - apply wp_bind, wp_bind, wp_get_st, wp_ret, wp_bind. cbn [t_dev]. rewrite Hi. apply wp_unchecked; [done|done|]. rewrite Hd, Ew.
    apply wp_bind. eapply wp_read_while; [exact Hs|done|done|done|done|]. cbn [set_dev].
    eapply IH; [done|done|done|]. cbn [set_dev thread_of release_spwkup]. by rewrite <- !app_assoc.
Qed.
End Facts.
