(* ===== verification/ChipRam.v ===== *)
(** * libpdbg: ramming a POWER9 thread through the registers of its core

    What the ram unit of a POWER9 core does with the registers p9chip.c uses, as a small machine
    that decodes and executes the word it is given, and the proof that the ramming operations of
    p9chip.c on top of it are a thread that runs instructions, as chip.c expects it. *)

From S2P Require Import Prelude CMem Target TargetRelease Pib TargetFacts Adu Ram RamFacts Chip ChipFacts.

(** ** The ram unit *)

(** Four registers prepare the core, one holds the scratch value, one starts an instruction. *)
Record ram_unit := RamUnit {
  u_cpu : cpu;
  u_scratch : Z;
  u_mode : Z -> Z;                        (* what was written to the registers that prepare the core *)
  u_ok : bool                             (* the last instruction raised no exception *)
}.

(** A word with its predecode. The instructions that the normal decoder does not take in this
    way need their own predecode. *)
Definition p9_decode (predecode op : Z) : option instr :=
  if predecode =? 8 then
    if op =? 0x4c1e00a4 then Some (Mtnia 0)
    else match decode op with Some (Mtmsr rs) => if bits 16 5 op =? 0x1e then Some (Mtmsr rs) else None | _ => None end
  else if predecode =? 2 then if op =? 0x1ac804 then Some (Mfnia 0) else None
  else if predecode =? 4 then
    match decode op with
    | Some (Mfspr rt spr) => if spr =? 1 then Some (Mfspr rt spr) else None
    | Some (Mtspr spr rs) => if spr =? 1 then Some (Mtspr spr rs) else None
    | _ => None
    end
  else if predecode =? 0 then
    match decode op with
    | Some (Mtmsr _) | Some (Mtnia _) | Some (Mfnia _) => None
    | Some (Mfspr rt spr) => if spr =? 1 then None else Some (Mfspr rt spr)
    | Some (Mtspr spr rs) => if spr =? 1 then None else Some (Mtspr spr rs)
    | i => i
    end
  else None.

Definition mode_regs : list Z := [P9_THREAD_INFO; P9_RAM_MODEREG; P9_SPR_MODE; P9_SCOMC].

(** The core is prepared to ram thread [i]. *)
Definition armed (i : Z) (u : ram_unit) : bool :=
  (u_mode u P9_THREAD_INFO =? PPC_BIT (18 + i)) && (u_mode u P9_RAM_MODEREG =? PPC_BIT 0) &&
  (u_mode u P9_SPR_MODE =? 0x00000ff000000000) && (u_mode u P9_SCOMC =? 0).

(** Link register to next instruction address; no load is ever given to the unit. *)
Definition run_unit (undef : cpu -> Z) (i : instr) (u : ram_unit) : ram_unit :=
  match exec (fun _ => None) true undef i (u_cpu u) (u_scratch u) with
  | Some (c, x) => RamUnit c x (u_mode u) true
  | None => RamUnit (u_cpu u) (u_scratch u) (u_mode u) false
  end.

(** The effect of a write to the unit of thread [i]; [None] where it is not known. *)
Definition unit_write (undef : cpu -> Z) (i a x : Z) (u : ram_unit) : option ram_unit :=
  if a =? P9_SCR0_REG then Some (RamUnit (u_cpu u) x (u_mode u) (u_ok u))
  else if a =? P9_RAM_CTRL then
    if armed i u && (bits 62 2 x =? i)
    then ins ← p9_decode (bits 58 4 x) (bits 24 32 x); Some (run_unit undef ins u)
    else None
  else if bool_decide (a ∈ mode_regs)
  then Some (RamUnit (u_cpu u) (u_scratch u) (fun r => if r =? a then x else u_mode u r) (u_ok u))
  else None.

(** ** A core with such a unit behind the bus *)

Section Unit.
Context {E : Type} {Sc : Scom E} (P : nat) (f : Z -> Z) (i : Z) (undef : cpu -> Z).
Context (unit_of : E -> ram_unit) (steady : E -> Prop).

(** While the core is steady, its accesses succeed, the thread shows as quiesced, and no action
    of the core is in progress. *)
Class RamCore : Prop := {
  rc_write a x e u : steady e -> unit_write undef i a x (unit_of e) = Some u ->
    exists e', scom_write P (f a) x e = (e', 0) /\ steady e' /\ unit_of e' = u;
  rc_status e : steady e -> exists e' v, scom_read P (f P9_RAM_STATUS) e = (e', inr v) /\ steady e' /\ unit_of e' = unit_of e /\
    truthy (Z.land v (PPC_BIT 0)) || truthy (Z.land v (PPC_BIT 2)) = negb (u_ok (unit_of e));
  rc_scratch e : steady e -> exists e', scom_read P (f P9_SCR0_REG) e = (e', inr (u_scratch (unit_of e))) /\
    steady e' /\ unit_of e' = unit_of e;
  rc_ras e : steady e -> exists e' v, scom_read P (f P9_RAS_STATUS) e = (e', inr v) /\ steady e' /\ unit_of e' = unit_of e /\
    p9_is_quiesced i v = true /\ truthy (Z.land v (PPC_BIT 32)) = false;
  rc_info e : steady e -> exists e' v, scom_read P (f P9_THREAD_INFO) e = (e', inr v) /\ steady e' /\ unit_of e' = unit_of e /\
    truthy (Z.land v (PPC_BIT 23)) = false;
  rc_state e : steady e -> exists e' v, scom_read P (f P9_CORE_THREAD_STATE) e = (e', inr v) /\ steady e' /\ unit_of e' = unit_of e
}.
End Unit.

(** ** The words *)

Lemma setfield_shift w lo v val : 0 <= lo -> 0 <= w -> lo + w <= 64 -> 0 <= val < 2 ^ w ->
  MASK_TO_LSH (Z.shiftl (Z.ones w) lo) = lo ->
  SETFIELD (Z.shiftl (Z.ones w) lo) (Z.shiftl v (lo + w)) val = v * 2 ^ (lo + w) + val * 2 ^ lo.
Proof.
  intros Hl Hw Hlw Hv Em. unfold SETFIELD. rewrite Em.
  assert (2 ^ (lo + w) <= 2 ^ 64) as H64 by (apply Z.pow_le_mono_r; lia). rewrite Z.pow_add_r in H64 by lia.
  assert (0 < 2 ^ lo) by (apply Z.pow_pos_nonneg; lia).
  assert (0 < 2 ^ w) by (apply Z.pow_pos_nonneg; lia).
  assert (Z.land (Z.shiftl v (lo + w)) (Z.lnot (Z.shiftl (Z.ones w) lo)) = Z.shiftl v (lo + w)) as ->.
  { apply Z.bits_inj'. intros k Hk. rewrite Z.land_spec, Z.lnot_spec, !Z.shiftl_spec by lia.
    destruct (Z.ltb_spec (k - lo) w).
    - by rewrite Z.testbit_neg_r by lia.
    - rewrite Z.ones_spec_high by lia. apply andb_true_r. }
  assert (2 ^ w <= 2 ^ 64) by (apply Z.pow_le_mono_r; lia). assert (0 <= val * 2 ^ lo < 2 ^ lo * 2 ^ w) as Hm by nia.
  rewrite (wrap_small 64 val) by (unfold in_range; lia). rewrite (Z.shiftl_mul_pow2 val) by lia.
  rewrite wrap_small by (unfold in_range; lia). rewrite land_ones_shift, Z.div_mul, (Z.mod_small val) by lia.
  apply lor_shiftl_add; [lia|]. unfold in_range. rewrite Z.pow_add_r by lia. exact Hm.
Qed.

Lemma ram_ctrl_fields id predecode op : 0 <= id < 4 -> 0 <= predecode < 16 -> 0 <= op < 2 ^ 32 ->
  bits 62 2 (p9_ram_ctrl id predecode op) = id /\ bits 58 4 (p9_ram_ctrl id predecode op) = predecode /\ bits 24 32 (p9_ram_ctrl id predecode op) = op.
Proof.
  intros Hi Hp Ho. assert (p9_ram_ctrl id predecode op = id * 2 ^ 62 + predecode * 2 ^ 58 + op * 2 ^ 24) as ->.
  { unfold p9_ram_ctrl. change (PPC_BITMASK 0 1) with (Z.shiftl (Z.ones 2) 62). change (PPC_BITMASK 2 5) with (Z.shiftl (Z.ones 4) 58).
    change (PPC_BITMASK 8 39) with (Z.shiftl (Z.ones 32) 24). change 0 with (Z.shiftl 0 (62 + 2)) at 1.
    rewrite setfield_shift by (lia || reflexivity). rewrite Z.mul_0_l, Z.add_0_l.
    replace (id * 2 ^ 62) with (Z.shiftl id (58 + 4)) at 1 by (apply Z.shiftl_mul_pow2; lia).
    rewrite setfield_shift by (lia || reflexivity).
    replace (id * 2 ^ (58 + 4) + predecode * 2 ^ 58) with (Z.shiftl ((id * 2 ^ 4 + predecode) * 4) (24 + 32))
      by (rewrite Z.shiftl_mul_pow2 by lia; lia).
    rewrite setfield_shift by (lia || reflexivity). lia. }
  unfold bits. rewrite !Z.shiftr_div_pow2, !Z.land_ones by lia. split_and!; Z.to_euclidean_division_equations; lia.
Qed.

(** The word and predecode of an instruction that is rammed, other than a load. *)
Definition fed (op : Z) : option instr := let '(w, p) := p9_predecode op in p9_decode p w.

Definition fits (op : Z) : bool :=
  let '(w, p) := p9_predecode op in (0 <=? w) && (w <? 2 ^ 32) && (0 <=? p) && (p <? 16) && negb (Z.land op OPCODE_MASK =? LD_OPCODE) &&
  negb (Z.land w OPCODE_MASK =? LD_OPCODE).

Definition feeds (op : Z) : bool := bool_decide (fed op = decode op) && bool_decide (is_Some (decode op)) && fits op.

Lemma feeds_mfspr r spr : 0 <= r < 32 -> 0 <= spr < 1024 -> feeds (mfspr r spr) = true.
Proof.
  intros Hr. revert spr. apply (all_below _ 1024). revert r Hr.
  apply (all_below (fun r => forallb (fun spr => feeds (mfspr r spr)) (seqZ 0 1024)) 32). vm_compute. reflexivity.
Qed.

Lemma feeds_mtspr r spr : 0 <= r < 32 -> 0 <= spr < 1024 -> feeds (mtspr spr r) = true.
Proof.
  intros Hr. revert spr. apply (all_below _ 1024). revert r Hr.
  apply (all_below (fun r => forallb (fun spr => feeds (mtspr spr r)) (seqZ 0 1024)) 32). vm_compute. reflexivity.
Qed.

Lemma rammed_feeds op : rammed op -> op = ld 0 0 1 \/ feeds op = true.
Proof.
  intros (ins & Hu & ->). destruct ins; cbn [used encode] in *.
  - right. destruct Hu. by apply feeds_mfspr.
  - right. destruct Hu. by apply feeds_mtspr.
  - destruct Hu as [-> (k & Hk & ->)]. right. rewrite Z.log2_pow2 by lia. revert k Hk.
    apply (all_below (fun k => feeds (mfocrf 0 k)) 8). vm_compute. reflexivity.
  - destruct Hu as [-> (k & Hk & ->)]. right. rewrite Z.log2_pow2 by lia. revert k Hk.
    apply (all_below (fun k => feeds (mtocrf k 0)) 8). vm_compute. reflexivity.
  - subst. right. vm_compute. reflexivity.
  - subst. right. vm_compute. reflexivity.
  - subst. right. vm_compute. reflexivity.
  - subst. right. vm_compute. reflexivity.
  - destruct Hu as (-> & -> & ->). by left.
Qed.

(** ** The operations on a core with a ram unit *)

Section Ready.
Context {E : Type} {Sc : Scom E} {Hw : Hardware (chips E)} {Ob : OnBus E} (T : dtree) (fuel : nat).
Context (core P : nat) (f : Z -> Z) (t : nat) (i : Z) (undef : cpu -> Z) (unit_of : E -> ram_unit) (steady : E -> Prop) (ts : list nat).

(** The thread is one of those of a core, on a bus that is there, and there is fuel for a read. *)
Record ram_place : Prop := {
  rp_at : core_at (E := E) T fuel core P f;
  rp_in : in_core (E := E) T fuel t core;
  rp_threads : core_threads T fuel core ts;
  rp_id : 0 <= i < 4;
  rp_fuel : (0 < fuel)%nat
}.

Context (Hpl : ram_place) {RC : RamCore P f i undef unit_of steady}.
Implicit Types (d : chips E) (h : gmap nat (list mval)) (n : nat) (st : nat -> pdbg_target_status) (tr : list tevent).

Definition view_of (s : tgt (chips E)) : cpu := u_cpu (unit_of (chip_dev (t_dev s))).

(** All threads of the core are enabled and known to be quiesced, the core is steady, and
    prepared when the thread is marked as set up. *)
Definition ready9 (s : tgt (chips E)) : Prop :=
  t_status s P = PDBG_TARGET_ENABLED /\ steady (chip_dev (t_dev s)) /\ id (thread_of (t_dev s) t) = i /\
  (forall u, u ∈ ts -> t_status s u = PDBG_TARGET_ENABLED /\ quiesced (status (thread_of (t_dev s) u)) = true) /\
  (ram_set_up (thread_of (t_dev s) t) = true -> armed i (unit_of (chip_dev (t_dev s))) = true).

Lemma wp_unit_write a x u h n st d tr (Q : Z + unit -> world (tgt (chips E)) -> Prop) :
  st P = PDBG_TARGET_ENABLED -> steady (chip_dev d) -> 0 <= a < 2 ^ 20 -> unit_write undef i a x (unit_of (chip_dev d)) = Some u ->
  (forall e, steady e -> unit_of e = u -> Q (inr tt) (World h n (Tgt st (set_dev e d) (tr ++ [EvWrite P (f a) x])))) ->
  wp (thread_write T fuel t a x) (World h n (Tgt st d tr)) Q.
Proof.
  intros HP Hs Ha Hu HQ. destruct (rc_write _ _ _ _ _ _ _ _ _ _ Hs Hu) as (e & Ee & Hs' & Hu'). unfold wp.
  rewrite (thread_write_ok T fuel core P f (rp_at Hpl) t (rp_in Hpl)) by done. rewrite Ee. cbn. by apply HQ.
Qed.

Lemma wp_unit_read a v e h n st d tr (Q : Z + Z -> world (tgt (chips E)) -> Prop) :
  st P = PDBG_TARGET_ENABLED -> 0 <= a < 2 ^ 20 -> scom_read P (f a) (chip_dev d) = (e, inr v) ->
  Q (inr v) (World h n (Tgt st (set_dev e d) (tr ++ [EvRead P (f a)]))) ->
  wp (thread_read T fuel t a) (World h n (Tgt st d tr)) Q.
Proof.
  intros HP Ha Ee HQ. unfold wp. rewrite (thread_read_ok T fuel core P f (rp_at Hpl) t (rp_in Hpl)) by done. by rewrite Ee.
Qed.

(** Looking at the thread shows it quiesced. *)
Lemma steady_sees e : steady e -> exists s e', sees P f p9_regs i e s e' /\ quiesced s = true /\ steady e' /\ unit_of e' = unit_of e.
Proof.
  intros Hs. destruct (rc_ras P f i undef unit_of steady e Hs) as (e1 & v1 & E1 & Hs1 & U1 & Hq & _).
  destruct (rc_info P f i undef unit_of steady e1 Hs1) as (e2 & v2 & E2 & Hs2 & U2 & _).
  destruct (rc_state P f i undef unit_of steady e2 Hs2) as (e3 & v3 & E3 & Hs3 & U3).
  eexists _, e3. split; [by econstructor|]. split_and!; [exact Hq|done|congruence].
Qed.

Lemma wp_update9 h n st d tr (Q : Z + unit -> world (tgt (chips E)) -> Prop) :
  st P = PDBG_TARGET_ENABLED -> steady (chip_dev d) -> id (thread_of d t) = i ->
  (forall s e d', after t (set_vars_status (thread_of d t) s) e d d' -> quiesced s = true -> steady e -> unit_of e = unit_of (chip_dev d) ->
     Q (inr tt) (World h n (Tgt st d' (tr ++ looks P f p9_regs)))) ->
  wp (update_status T fuel p9_regs t) (World h n (Tgt st d tr)) Q.
Proof.
  intros HP Hs Hi HQ. destruct (steady_sees _ Hs) as (s & e & Hse & Hq & Hs' & Hu).
  eapply (wp_update T fuel core P f (rp_at Hpl) t (rp_in Hpl) p9_regs p9_regs_ok); [done|rewrite Hi; exact Hse|].
  intros d' Hd'. by eapply HQ.
Qed.

(** One instruction that is not a load. *)
Lemma wp_ram_one op x h n s : ready9 s -> ram_set_up (thread_of (t_dev s) t) = true -> feeds op = true ->
  wp (p9_ram_instruction T fuel t op x) (World h n s) (fun r w => exists s', w = World h n s' /\
    ready9 s' /\ ram_set_up (thread_of (t_dev s') t) = true /\
    match run_word (fun _ => None) true undef op (view_of s) x with
    | Some (c', x') => r = inr (0, x') /\ view_of s' = c'
    | None => (exists rc x', rc <> 0 /\ r = inr (rc, x')) /\ view_of s' = view_of s
    end).
Proof.
  destruct s as [st d tr]. intros (HP & Hs & Hi & Hq & Har) Hset Hf. cbn in HP, Hs, Hi, Hq, Har, Hset.
  unfold feeds, fed, fits in Hf. destruct (p9_predecode op) as [w p] eqn:Ep.
  rewrite !andb_true_iff, !bool_decide_eq_true in Hf. destruct Hf as [[Hd [ins Hdec]] [[[[[Hw0 Hw1] Hp0] Hp1] Hld] Hldw]].
  apply Z.leb_le in Hw0, Hp0. apply Z.ltb_lt in Hw1, Hp1. apply negb_true_iff in Hld, Hldw.
  unfold p9_ram_instruction. rewrite Hld. unfold __p9_ram_instruction. apply wp_bind, wp_bind, wp_get_st, wp_ret. cbn [t_dev].
  rewrite Hset. cbn [negb]. rewrite Ep. apply wp_bind, wp_attempt, wp_bind.
  eapply wp_unit_write; [done|done|done|reflexivity|]. intros e1 Hs1 Hu1. apply wp_bind.
  destruct (ram_ctrl_fields i p w (rp_id Hpl) (conj Hp0 Hp1) (conj Hw0 Hw1)) as (F1 & F2 & F3).
  assert (unit_write undef i P9_RAM_CTRL (p9_ram_ctrl (id (thread_of d t)) p w) (unit_of e1) = Some (run_unit undef ins (unit_of e1))) as Hctrl.
  { unfold unit_write. cbn [Z.eqb P9_RAM_CTRL P9_SCR0_REG Pos.eqb]. rewrite Hi, F1, F2, F3, Z.eqb_refl, Hd, Hdec.
    rewrite Hu1. unfold armed in *. cbn. by rewrite (Har Hset). }
  eapply (wp_unit_write _ _ _ _ _ _ (set_dev e1 d)); [done|done|done|exact Hctrl|]. intros e2 Hs2 Hu2. apply wp_bind.
  destruct (rc_status P f i undef unit_of steady e2 Hs2) as (e3 & v & E3 & Hs3 & Hu3 & Hv).
  eapply wp_unit_read; [done|done|exact E3|]. apply wp_bind.
  rewrite Hldw. apply wp_ret.
  unfold run_word. rewrite Hdec. cbn [mbind option_bind]. unfold view_of. cbn [t_dev]. rewrite Hu1 in Hu2. unfold run_unit in Hu2. cbn [u_cpu u_scratch u_mode] in Hu2.
  specialize (Har Hset).
  destruct (exec _ _ _ ins _ x) as [[c x']|].
  - rewrite Hu2 in Hv. apply orb_false_iff in Hv as [-> ->]. cbn [truthy Z.eqb negb].
    destruct (rc_scratch P f i undef unit_of steady e3 Hs3) as (e4 & E4 & Hs4 & Hu4).
    eapply wp_unit_read; [done|done|exact E4|]. apply wp_ret. eexists. split; [reflexivity|]. unfold ready9. cbn.
    rewrite Hu4, Hu3, Hu2. split_and!; try done; congruence.
  - rewrite Hu2 in Hv. cbn in Hv.
    assert (truthy (if truthy (Z.land v (PPC_BIT 0)) then 1 else if truthy (Z.land v (PPC_BIT 2)) then 1 else 0) = true) as Hrc
      by (destruct (truthy (Z.land v (PPC_BIT 0))), (truthy (Z.land v (PPC_BIT 2))); done).
    rewrite Hrc. cbn [negb]. apply wp_fail, wp_ret. eexists. split; [reflexivity|]. unfold ready9. cbn.
    rewrite Hu3, Hu2. split_and!; try done. eexists _, x. split; [|reflexivity].
    by apply negb_true_iff, Z.eqb_neq in Hrc.
Qed.

Lemma run_load c x : run_word (fun _ => None) true undef (ld 0 0 1) c x = None.
Proof. unfold run_word. change (decode (ld 0 0 1)) with (Some (Ld 0 1 0)). cbn. by destruct (reg c 1). Qed.

(** ** Preparing the core *)

Lemma wp_or_fail (op : M (tgt (chips E)) unit) w (Q : Z + unit -> world (tgt (chips E)) -> Prop) :
  wp op w (fun r w' => r = inr tt /\ Q (inr tt) w') -> wp (or_fail op) w Q.
Proof.
  intros H. unfold or_fail. apply wp_bind, wp_attempt. eapply wp_mono; [exact H|]. intros r w' [-> HQ]. by apply wp_ret.
Qed.

Lemma wp_all_quiesced us h n st d tr (Q : Z + unit -> world (tgt (chips E)) -> Prop) :
  (forall u, u ∈ us -> st u = PDBG_TARGET_ENABLED /\ quiesced (status (thread_of d u)) = true) ->
  Q (inr tt) (World h n (Tgt st d tr)) ->
  wp (run_all (require_quiesced T fuel) us) (World h n (Tgt st d tr)) Q.
Proof.
  intros Hq HQ. induction us as [|u us IH]; [by apply wp_ret|]. cbn [run_all]. apply wp_bind. unfold require_quiesced.
  destruct (Hq u ltac:(left)) as [Hu1 Hu2]. destruct fuel as [|fuel'] eqn:Ef; [destruct Hpl as [_ _ _ _ Hf]; lia|].
  apply wp_bind. cbn [pdbg_target_probe]. apply wp_bind, wp_bind, wp_get_st, wp_ret. cbn [t_status]. rewrite Hu1.
  apply wp_bind, wp_assert; [done|]. rewrite bool_decide_eq_true_2 by (do 2 right; left). apply wp_ret.
  apply wp_bind, wp_bind, wp_get_st, wp_ret. cbn [t_dev]. rewrite Hu2. apply wp_ret. apply IH. intros u' Hu'. apply Hq. by right.
Qed.

Lemma armed_setup u : armed i (RamUnit (u_cpu u) (u_scratch u)
  (fun r => if r =? P9_SCOMC then 0 else if r =? P9_SPR_MODE then 0x00000ff000000000 else
            if r =? P9_RAM_MODEREG then PPC_BIT 0 else if r =? P9_THREAD_INFO then PPC_BIT (18 + i) else u_mode u r) (u_ok u)) = true.
Proof. unfold armed. cbn [u_mode]. cbn. by rewrite Z.eqb_refl. Qed.

Lemma wp_setup9 h n s : ready9 s -> ram_set_up (thread_of (t_dev s) t) = false ->
  wp (p9_ram_setup T fuel t) (World h n s) (fun r w => exists s', w = World h n s' /\ r = inr tt /\
    ready9 s' /\ ram_set_up (thread_of (t_dev s') t) = true /\ view_of s' = view_of s).
Proof.
  destruct s as [st d tr]. intros (HP & Hs & Hi & Hq & _) Hset. cbn in HP, Hs, Hi, Hq, Hset.
  unfold p9_ram_setup. apply wp_bind. unfold wp at 1. rewrite (rp_in Hpl). apply wp_bind, wp_bind, wp_get_st, wp_ret.
  cbn [t_dev]. rewrite Hset. apply wp_bind. eapply wp_eq; [apply for_each_thread, (rp_threads Hpl)|].
  apply wp_all_quiesced; [done|]. apply wp_bind.
  destruct (rc_ras P f i undef unit_of steady _ Hs) as (e1 & v1 & E1 & Hs1 & U1 & _ & G1).
  eapply (wp_read_while T fuel core P f (rp_at Hpl) t (rp_in Hpl)); [by eapply settles_now|done|done|done|apply (rp_fuel Hpl)|].
  apply wp_bind. destruct (rc_info P f i undef unit_of steady _ Hs1) as (e2 & v2 & E2 & Hs2 & U2 & G2).
  eapply (wp_read_while T fuel core P f (rp_at Hpl) t (rp_in Hpl)); [by eapply settles_now|done|done|done|apply (rp_fuel Hpl)|].
  apply wp_bind, wp_bind, wp_get_st, wp_ret. cbn [t_dev set_dev thread_of]. rewrite Hi.
  apply wp_bind, wp_or_fail. eapply wp_unit_write; [done|exact Hs2|done|reflexivity|]. intros e3 Hs3 U3. split; [done|].
  apply wp_bind, wp_or_fail. eapply wp_unit_write; [done|exact Hs3|done|reflexivity|]. intros e4 Hs4 U4. split; [done|].
  apply wp_bind, wp_or_fail. eapply wp_unit_write; [done|exact Hs4|done|reflexivity|]. intros e5 Hs5 U5. split; [done|].
  apply wp_bind, wp_or_fail. eapply wp_unit_write; [done|exact Hs5|done|reflexivity|]. intros e6 Hs6 U6. split; [done|].
  apply wp_bind. eapply wp_update9; [done|exact Hs6|exact Hi|]. intros s e d' (Hd1 & Hd2 & Hd3 & _) Hqs Hse Hue.
  apply wp_bind, wp_bind, wp_get_st, wp_ret. apply wp_put_thread. intros d'' (Hf1 & Hf2 & Hf3 & _).
  eexists. split; [reflexivity|]. split; [done|]. unfold ready9, view_of. cbn in *. rewrite Hf1, Hf2, Hd1, Hd2. cbn. rewrite Hue, U6. cbn.
  rewrite U5, U4, U3, U2, U1. cbn. split_and!; try done.
  - intros u Hu. split; [by apply Hq|]. destruct (decide (u = t)) as [->|Hne]; [by rewrite Hf2, Hd2|]. rewrite Hf3, Hd3 by done. by apply Hq.
  - intros _. by apply armed_setup.
Qed.

Lemma wp_destroy9 h n s : ready9 s -> ram_set_up (thread_of (t_dev s) t) = true ->
  wp (p9_ram_destroy T fuel t) (World h n s) (fun r w => exists s', w = World h n s' /\ r = inr tt /\
    ready9 s' /\ ram_set_up (thread_of (t_dev s') t) = false /\ view_of s' = view_of s).
Proof.
  destruct s as [st d tr]. intros (HP & Hs & Hi & Hq & _) Hset. cbn in HP, Hs, Hi, Hq, Hset.
  unfold p9_ram_destroy. apply wp_bind, wp_bind, wp_get_st, wp_ret. cbn [t_dev]. rewrite Hset. cbn [negb].
  apply wp_bind. eapply wp_unit_write; [done|exact Hs|done|reflexivity|]. intros e3 Hs3 U3.
  apply wp_bind. eapply wp_unit_write; [done|exact Hs3|done|reflexivity|]. intros e4 Hs4 U4.
  apply wp_bind. eapply wp_update9; [done|exact Hs4|exact Hi|]. intros s e d' (Hd1 & Hd2 & Hd3 & _) Hqs Hse Hue.
  apply wp_bind, wp_bind, wp_get_st, wp_ret. apply wp_put_thread. intros d'' (Hf1 & Hf2 & Hf3 & _).
  eexists. split; [reflexivity|]. split; [done|]. unfold ready9, view_of. cbn in *. rewrite Hf1, Hf2, Hd1, Hd2. cbn. rewrite Hue, U4. cbn.
  rewrite U3. cbn. split_and!; try done.
  intros u Hu. split; [by apply Hq|]. destruct (decide (u = t)) as [->|Hne]; [by rewrite Hf2, Hd2|]. rewrite Hf3, Hd3 by done. by apply Hq.
Qed.

(** The members of a POWER9 thread are a thread that runs instructions. *)
#[export] Instance p9_runs : RunsInstructions (Th := p9_thread T fuel t) view_of ready9 (fun _ => None) true undef.
Proof.
  split.
  - intros op x h n s Hr Hset Hop. cbn [ram_instruction p9_thread ram_is_setup] in *.
    destruct (rammed_feeds op Hop) as [->|Hf]; [|by apply wp_ram_one].
    rewrite run_load. unfold p9_ram_instruction. change (Z.land (ld 0 0 1) OPCODE_MASK =? LD_OPCODE) with true. apply wp_ret.
    exists s. split_and!; try done. by exists 1, x.
  - intros h n s Hr Hset. by apply wp_setup9.
  - intros h n s Hr Hset. by apply wp_destroy9.
Qed.
End Ready.
