(* ===== verification/ChipCore.v ===== *)
(** * libpdbg: releasing a core

    A core that is released settles its threads first: those that are not known yet are probed,
    and all that are there are released, each telling the core when it is left quiesced. *)

From stdpp Require Import functions.
From S2P Require Import Prelude CMem Target TargetRelease Pib Adu Ram Chip ChipFacts.

Section Core.
Context {E : Type} {Sc : Scom E} {Hw : Hardware (chips E)} {Ob : OnBus E} (T : dtree) (fuel : nat).
Context (core P : nat) (f : Z -> Z) (R : chip_regs) (ts : list nat).
Implicit Types (d : chips E) (h : gmap nat (list mval)) (n : nat) (st : nat -> pdbg_target_status) (tr : list tevent) (e : E).

(** The probe and release members of the threads are those of the chip. *)
Class ThreadHooks : Prop := {
  hook_probe u h n st d tr d' tr' : u ∈ ts -> st P = PDBG_TARGET_ENABLED ->
    probe_thread T fuel R u (World h n (Tgt st d tr)) = (Ret tt, World h n (Tgt st d' tr')) -> hw_probe u d = (d', 0);
  hook_release u h n st d tr d' : u ∈ ts ->
    release_thread T fuel u (World h n (Tgt st d tr)) = (Ret tt, World h n (Tgt st d' tr)) -> hw_release u d = d'
}.

(** A thread of the core in the tree: right below the core, with both members, without
    children or a virtual counterpart, with the index [idx u]. *)
Record core_thread (idx : nat -> Z) (u : nat) : Prop := {
  th_core : in_core (E := E) T fuel u core;
  th_parent : get_parent T u false = Some core;
  th_vnode : vnode (node T u) = None;
  th_children : children (node T u) = [];
  th_probe : has_probe (node T u) = true;
  th_release : on_release (node T u) = ReleaseHw;
  th_ody : is_ody_ocmb_chip T u = false;
  th_no_ody (w : world (tgt (chips E))) : is_child_of_ody_chip T fuel u w = (Ret false, w);
  th_index (w : world (tgt (chips E))) : pdbg_target_index T fuel (Some u) w = (Ret (idx u), w)
}.

Record core_place (idx : nat -> Z) : Prop := {
  cp_at : core_at (E := E) T fuel core P f;
  cp_threads : core_threads T fuel core ts;
  cp_thread u : u ∈ ts -> core_thread idx u;
  cp_once : NoDup ts;
  cp_apart : (core ∉ ts) /\ (P ∉ ts);
  cp_fuel : (2 <= fuel)%nat;
  cp_regs : regs_ok R
}.

Context (idx : nat -> Z) (Hpl : core_place idx) {Hk : ThreadHooks}.

(** Every register of the bus can be read. *)
Definition answering : Prop := forall a e, exists e' v, scom_read P a e = (e', inr v).

Context (Hans : answering).

Lemma answering_sees i e : exists s e', sees P f R i e s e'.
Proof.
  destruct (Hans (f (ras_status R)) e) as (e1 & v1 & E1). destruct (Hans (f (thread_info R)) e1) as (e2 & v2 & E2).
  destruct (Hans (f (core_thread_state R)) e2) as (e3 & v3 & E3). eexists _, e3. by econstructor.
Qed.

(** A thread that is enabled is known; one that is released, disabled or absent is not open. *)
Definition is_known (x : pdbg_target_status) : bool := bool_decide (x = PDBG_TARGET_ENABLED).
Definition is_open (x : pdbg_target_status) : bool :=
  negb (bool_decide (x ∈ [PDBG_TARGET_RELEASED; PDBG_TARGET_DISABLED; PDBG_TARGET_NONEXISTENT])).

(** The variables of a thread that was not known, as probing it leaves them. *)
Definition probed (u : nat) (v v' : thread_vars) : Prop :=
  id v' = s32 (idx u) /\ ram_set_up v' = ram_set_up v /\ ram_did_quiesce v' = ram_did_quiesce v.

(** [all_settled us st d st' d']: the effect of settling the threads [us]. *)
Record all_settled (us : list nat) st d st' d' : Prop := {
  as_status v : st' v = if bool_decide (v ∈ us) && is_open (st v) then PDBG_TARGET_RELEASED else st v;
  as_others v : v ∉ us \/ is_known (st v) = true \/ is_open (st v) = false -> thread_of d' v = thread_of d v;
  as_probed v : v ∈ us -> is_known (st v) = false -> is_open (st v) = true -> probed v (thread_of d v) (thread_of d' v);
  as_wakeup : release_spwkup d' core =
    release_spwkup d core && forallb (fun u => negb (is_open (st u) && quiesced (status (thread_of d' u)))) us
}.

Definition no_write (evs : list tevent) : Prop := forall t a x, EvWrite t a x ∉ evs.

Lemma wp_probe_thread u h n st d tr : u ∈ ts -> st P = PDBG_TARGET_ENABLED ->
  exists d' tr', probe_thread T fuel R u (World h n (Tgt st d tr)) = (Ret tt, World h n (Tgt st d' (tr ++ tr'))) /\
    no_write tr' /\ (forall v, v <> u -> thread_of d' v = thread_of d v) /\ probed u (thread_of d u) (thread_of d' u) /\
    release_spwkup d' = release_spwkup d.
Proof.
  intros Hu HP. destruct (cp_thread _ Hpl u Hu) as [Hc _ _ _ _ _ _ _ Hidx].
  destruct (answering_sees (s32 (idx u)) (chip_dev d)) as (s & e & Hs).
  set (v1 := ThreadVars (s32 (idx u)) (status (thread_of d u)) (ram_set_up (thread_of d u)) (ram_did_quiesce (thread_of d u))).
  assert (wp (probe_thread T fuel R u) (World h n (Tgt st d tr)) (fun r w => r = inr tt /\ exists d',
    w = World h n (Tgt st d' (tr ++ looks P f R)) /\ after u (set_vars_status v1 s) e d d')) as W.
  { unfold probe_thread. apply wp_bind. unfold wp at 1. rewrite Hidx. apply wp_bind. unfold put_id. apply wp_bind, wp_bind, wp_get_st, wp_ret. apply wp_put_thread.
    intros d1 Hd1. pose proof Hd1 as (Hd2 & Hd3 & _).
    eapply (wp_update T fuel core P f (cp_at _ Hpl) u Hc R (cp_regs _ Hpl)); [done|rewrite Hd3, Hd2; exact Hs|].
    intros d2 Hd4. split; [done|]. exists d2. split; [done|]. rewrite Hd3 in Hd4. by eapply after_trans. }
  unfold wp in W. destruct (probe_thread T fuel R u _) as [[[]|rc|c] w]; [|by destruct W as [? _]|done].
  destruct W as (_ & d' & -> & _ & Hv & Ho & Hr). exists d', (looks P f R). split_and!; try done.
  - intros t a x. unfold looks. by rewrite !elem_of_cons, elem_of_nil; intuition.
  - rewrite Hv. done.
Qed.

(** Releasing a thread that is enabled. *)
Lemma wp_release_known u h n st d tr : u ∈ ts -> st u = PDBG_TARGET_ENABLED ->
  wp (pdbg_target_release T fuel u) (World h n (Tgt st d tr)) (fun r w => r = inr tt /\ exists d',
    w = World h n (Tgt (<[u := PDBG_TARGET_RELEASED]> st) d' (tr ++ [EvRelease u])) /\ thread_of d' = thread_of d /\
    release_spwkup d' core = release_spwkup d core && negb (quiesced (status (thread_of d u)))).
Proof.
  intros Hu Hst. destruct (cp_thread _ Hpl u Hu) as [Hc _ Hvn Hch _ Hrel _ _ _]. pose proof (cp_fuel _ Hpl) as Hfu.
  assert (exists d', release_thread T fuel u (World h n (Tgt st d tr)) = (Ret tt, World h n (Tgt st d' tr)) /\
    thread_of d' = thread_of d /\ release_spwkup d' core = release_spwkup d core && negb (quiesced (status (thread_of d u)))) as (d' & Er & Hd1 & Hd2).
  { unfold release_thread, get_thread, set_release_spwkup, get_st, put_st, mbind, M_bind, mret, M_ret. rewrite Hc. cbn. destruct (quiesced (status (thread_of d u))).
    - eexists. split; [reflexivity|]. cbn. by rewrite Nat.eqb_refl, andb_false_r.
    - exists d. by rewrite andb_true_r. }
  apply (hook_release u) in Er; [|done]. destruct fuel as [|[|k]] eqn:Ef; [lia|lia|]. cbn [pdbg_target_release].
  apply wp_bind, wp_bind, wp_get_st, wp_ret. cbn [t_status]. rewrite Hst. cbn [bool_decide negb].
  rewrite bool_decide_eq_true_2 by done. cbn [negb]. apply wp_bind.
  unfold for_each_child, pdbg_next_child_target. rewrite Hch, Hvn. apply wp_bind, wp_ret. cbn [for_each_child_from]. apply wp_ret.
  apply wp_bind. unfold call_release. rewrite Hrel. unfold hw_call. apply wp_bind, wp_get_st. cbn [t_dev]. rewrite Er.
  apply wp_bind, wp_put_st, wp_ret. unfold set_status. apply wp_bind, wp_get_st, wp_put_st. split; [done|]. by exists d'.
Qed.

(** Probing a thread that is not known. *)
Lemma wp_probe_open u h n st d tr : u ∈ ts -> st P = PDBG_TARGET_ENABLED -> st core = PDBG_TARGET_ENABLED ->
  st u = PDBG_TARGET_UNKNOWN \/ st u = PDBG_TARGET_MUSTEXIST ->
  wp (pdbg_target_probe T fuel u) (World h n (Tgt st d tr)) (fun r w => r = inr PDBG_TARGET_ENABLED /\ exists d',
    w = World h n (Tgt (<[u := PDBG_TARGET_ENABLED]> st) d' (tr ++ [EvProbe u])) /\
    (forall v, v <> u -> thread_of d' v = thread_of d v) /\ probed u (thread_of d u) (thread_of d' u) /\
    release_spwkup d' = release_spwkup d).
Proof.
  intros Hu HP Hco Hst. destruct (cp_thread _ Hpl u Hu) as [Hc Hpar Hvn Hch Hpr _ Hody Hno _]. pose proof (cp_fuel _ Hpl) as Hfu.
  destruct (wp_probe_thread u h n st d tr Hu HP) as (d' & tr' & Ep & _ & Ho & Hpb & Hr).
  apply (hook_probe u) in Ep; [|done|done]. destruct fuel as [|[|k]] eqn:Ef; [lia|lia|].
  assert (bool_decide (st u = PDBG_TARGET_RELEASED) = false /\
    bool_decide (st u ∈ [PDBG_TARGET_DISABLED; PDBG_TARGET_NONEXISTENT; PDBG_TARGET_ENABLED]) = false) as [B1 B2]
    by (by destruct Hst as [-> | ->]).
  remember (S k) as fuel1. cbn [pdbg_target_probe]. apply wp_bind, wp_bind, wp_get_st, wp_ret. cbn [t_status]. rewrite B1, B2.
  apply wp_bind, wp_assert; [done|]. apply wp_bind. unfold wp at 1. rewrite Hno. rewrite Hody, Hpar. cbn [orb].
  apply wp_bind. subst fuel1. cbn [pdbg_target_probe]. apply wp_bind, wp_bind, wp_get_st, wp_ret. cbn [t_status]. rewrite Hco.
  apply wp_bind, wp_assert; [done|]. rewrite bool_decide_eq_true_2 by (do 2 right; left). apply wp_ret.
  apply wp_bind, wp_bind, wp_get_st, wp_ret. cbn [t_status]. rewrite Hco. unfold probe_here, target_to_virtual. rewrite Hvn.
  apply wp_bind, wp_ret, wp_bind. unfold call_probe. rewrite Hpr. unfold hw_call. apply wp_bind, wp_bind, wp_get_st. cbn [t_dev].
  rewrite Ep. apply wp_bind, wp_put_st, wp_ret, wp_ret. apply wp_bind. unfold set_status. apply wp_bind, wp_get_st, wp_put_st.
  apply wp_ret. split; [done|]. by exists d'.
Qed.

Lemma settled_closed u st d : is_open (st u) = false -> all_settled [u] st d st d.
Proof.
  intros Ho. split; [|done|intros v [= ->]%list_elem_of_singleton; congruence|cbn; by rewrite Ho, andb_true_r].
  intros v. destruct (decide (v = u)) as [->|Hne]; [by rewrite Ho, andb_false_r|].
  by rewrite bool_decide_eq_false_2 by (by rewrite list_elem_of_singleton).
Qed.

Lemma settled_open u st d st' d' : is_open (st u) = true ->
  (forall v, st' v = if bool_decide (v = u) then PDBG_TARGET_RELEASED else st v) ->
  (forall v, v <> u -> thread_of d' v = thread_of d v) ->
  (is_known (st u) = true -> thread_of d' u = thread_of d u) ->
  (is_known (st u) = false -> probed u (thread_of d u) (thread_of d' u)) ->
  release_spwkup d' core = release_spwkup d core && negb (quiesced (status (thread_of d' u))) ->
  all_settled [u] st d st' d'.
Proof.
  intros Ho Hst Hoth Hkn Hpr Hwk. split.
  - intros v. rewrite Hst, (bool_decide_ext (v ∈ [u]) (v = u)) by apply list_elem_of_singleton.
    destruct (decide (v = u)) as [->|Hne]; [by rewrite !bool_decide_eq_true_2, Ho|by rewrite !bool_decide_eq_false_2].
  - intros v H. destruct (decide (v = u)) as [->|Hne]; [|by apply Hoth]. destruct H as [H|[H|H]]; [|by apply Hkn|congruence].
    destruct H. by apply list_elem_of_singleton.
  - intros v ->%list_elem_of_singleton H _. by apply Hpr.
  - cbn. by rewrite Ho, andb_true_r.
Qed.

Lemma probe_known u h n st d tr : st u ∈ [PDBG_TARGET_DISABLED; PDBG_TARGET_NONEXISTENT; PDBG_TARGET_ENABLED] ->
  pdbg_target_probe T fuel u (World h n (Tgt st d tr)) = (Ret (st u), World h n (Tgt st d tr)).
Proof.
  intros H. pose proof (cp_fuel _ Hpl) as Hfu. destruct fuel as [|k]; [lia|].
  cbn [pdbg_target_probe]. unfold pdbg_target_status_of, get_st, mbind, M_bind, mret, M_ret. cbn [w_st t_status].
  assert (bool_decide (st u = PDBG_TARGET_RELEASED) = false) as -> by (apply bool_decide_eq_false_2; intros E'; rewrite E', !elem_of_cons, elem_of_nil in H; intuition discriminate).
  cbn [negb c_assert]. unfold mret, M_ret. by rewrite bool_decide_eq_true_2.
Qed.

Lemma no_write_one (e : tevent) : (forall t a x, e <> EvWrite t a x) -> no_write [e].
Proof. intros H t a x Hin%list_elem_of_singleton. by eapply H. Qed.

Lemma no_write_app evs evs' : no_write evs -> no_write evs' -> no_write (evs ++ evs').
Proof. intros H1 H2 t a x [H|H]%elem_of_app; [by eapply H1|by eapply H2]. Qed.

Lemma insert_alt u (x : pdbg_target_status) st v : (<[u := x]> st) v = if bool_decide (v = u) then x else st v.
Proof. destruct (decide (v = u)) as [->|]; [by rewrite fn_lookup_insert, bool_decide_eq_true_2|by rewrite fn_lookup_insert_ne, bool_decide_eq_false_2]. Qed.

Lemma wp_settle u h n st d tr : u ∈ ts -> st P = PDBG_TARGET_ENABLED -> st core = PDBG_TARGET_ENABLED ->
  wp (settle_thread T fuel u) (World h n (Tgt st d tr)) (fun r w => r = inr tt /\ exists st' d' evs,
    w = World h n (Tgt st' d' (tr ++ evs)) /\ no_write evs /\ all_settled [u] st d st' d').
Proof.
  intros Hu HP Hco. unfold settle_thread. apply wp_bind, wp_bind, wp_get_st, wp_ret. cbn [t_status].
  destruct (decide (st u = PDBG_TARGET_RELEASED)) as [Er|Er].
  { rewrite bool_decide_eq_true_2 by done. apply wp_ret. split; [done|]. exists st, d, []. rewrite app_nil_r. split_and!; [done|by intros ??? ?%elem_of_nil|].
    apply settled_closed. unfold is_open. by rewrite Er. }
  rewrite bool_decide_eq_false_2 by done. apply wp_bind.
  destruct (decide (st u ∈ [PDBG_TARGET_DISABLED; PDBG_TARGET_NONEXISTENT; PDBG_TARGET_ENABLED])) as [Hk1|Hk1].
  - unfold wp at 1. rewrite probe_known by done. destruct (decide (st u = PDBG_TARGET_ENABLED)) as [Ee|Ee].
    + rewrite bool_decide_eq_true_2 by done. cbn [negb]. eapply wp_mono; [by apply wp_release_known|].
      intros r w (-> & d' & -> & Ht & Hw'). split; [done|]. eexists _, d', _. split_and!; [reflexivity|by apply no_write_one|].
      apply settled_open; [unfold is_open; by rewrite Ee|apply insert_alt|by intros; rewrite Ht|by rewrite Ht| |by rewrite Ht].
      unfold is_known. by rewrite Ee.
    + rewrite bool_decide_eq_false_2 by done. apply wp_ret. split; [done|]. exists st, d, []. rewrite app_nil_r.
      split_and!; [done|by intros ??? ?%elem_of_nil|]. apply settled_closed. unfold is_open.
      rewrite bool_decide_eq_true_2; [done|]. rewrite !elem_of_cons, elem_of_nil in *. intuition.
  - assert (st u = PDBG_TARGET_UNKNOWN \/ st u = PDBG_TARGET_MUSTEXIST) as Hst
      by (rewrite !elem_of_cons, elem_of_nil in Hk1; destruct (st u); intuition).
    eapply wp_mono; [by apply wp_probe_open|]. intros r w (-> & d1 & -> & Ho & Hpb & Hr). cbn beta iota.
    rewrite bool_decide_eq_true_2 by done. cbn [negb]. eapply wp_mono; [apply wp_release_known; [done|by rewrite fn_lookup_insert]|].
    intros r w (-> & d' & -> & Ht & Hw'). split; [done|]. eexists _, d', _. rewrite <- app_assoc.
    split_and!; [reflexivity|apply no_write_app; by apply no_write_one|].
    assert (is_open (st u) = true /\ is_known (st u) = false) as [Ho1 Ho2] by (unfold is_open, is_known; by destruct Hst as [-> | ->]).
    apply settled_open; [done| |intros v Hv; by rewrite Ht, Ho|congruence|by rewrite Ht|by rewrite Ht, Hw', Hr].
    intros v. rewrite !insert_alt. by case_bool_decide.
Qed.

Lemma settled_cons u us st d st1 d1 st2 d2 : u ∉ us -> all_settled [u] st d st1 d1 -> all_settled us st1 d1 st2 d2 ->
  all_settled (u :: us) st d st2 d2.
Proof.
  intros Hn [A1 A2 A3 A4] [B1 B2 B3 B4].
  assert (forall v, v <> u -> st1 v = st v /\ thread_of d1 v = thread_of d v) as Hv.
  { intros v Hne. split; [|apply A2; left; by rewrite list_elem_of_singleton].
    by rewrite A1, bool_decide_eq_false_2 by (by rewrite list_elem_of_singleton). }
  assert (thread_of d2 u = thread_of d1 u) as Hu by (apply B2; by left).
  assert (st1 u = if is_open (st u) then PDBG_TARGET_RELEASED else st u) as Hsu
    by (rewrite A1, bool_decide_eq_true_2 by (by apply list_elem_of_singleton); done).
  split.
  - intros v. rewrite B1. destruct (decide (v = u)) as [->|Hne].
    + rewrite (bool_decide_eq_false_2 (u ∈ us)), (bool_decide_eq_true_2 (u ∈ u :: us)) by (by left || done). exact Hsu.
    + destruct (Hv v Hne) as [-> _]. rewrite (bool_decide_ext (v ∈ u :: us) (v ∈ us)); [done|]. rewrite elem_of_cons. intuition.
  - intros v H. destruct (decide (v = u)) as [->|Hne].
    + rewrite Hu. apply A2. rewrite list_elem_of_singleton. destruct H as [H|H]; [destruct H; by left|by right].
    + destruct (Hv v Hne) as [E1 <-]. apply B2. rewrite E1. rewrite elem_of_cons in H. intuition.
  - intros v Hin H1 H2. destruct (decide (v = u)) as [->|Hne].
    + rewrite Hu. apply A3; [by apply list_elem_of_singleton|done..].
    + destruct (Hv v Hne) as [E1 <-]. apply B3; rewrite ?E1; [|done..]. apply elem_of_cons in Hin. intuition.
  - rewrite B4, A4. cbn. rewrite andb_true_r, Hu, <- andb_assoc. do 2 f_equal.
    clear - Hv Hn. induction us as [|v us IH]; [done|]. apply not_elem_of_cons in Hn as [Hne Hn]. cbn.
    destruct (Hv v) as [-> _]; [done|]. by rewrite IH.
Qed.

Lemma settled_nil st d : all_settled [] st d st d.
Proof.
  split; [|done|by intros v ?%elem_of_nil|cbn; by rewrite andb_true_r].
  intros v. by rewrite bool_decide_eq_false_2 by (by intros ?%elem_of_nil).
Qed.

Lemma wp_settle_all us : forall h n st d tr, (forall u, u ∈ us -> u ∈ ts) -> NoDup us ->
  st P = PDBG_TARGET_ENABLED -> st core = PDBG_TARGET_ENABLED ->
  wp (run_all (settle_thread T fuel) us) (World h n (Tgt st d tr)) (fun r w => r = inr tt /\ exists st' d' evs,
    w = World h n (Tgt st' d' (tr ++ evs)) /\ no_write evs /\ all_settled us st d st' d').
Proof.
  induction us as [|u us IH]; intros h n st d tr Hin Hnd HP Hco; cbn [run_all].
  - apply wp_ret. split; [done|]. exists st, d, []. rewrite app_nil_r. split_and!; [done|by intros ??? ?%elem_of_nil|apply settled_nil].
  - apply NoDup_cons in Hnd as [Hn Hnd]. apply wp_bind. eapply wp_mono; [apply wp_settle; [apply Hin; by left|done|done]|].
    intros r w (-> & st1 & d1 & evs1 & -> & Hw1 & Hs1). cbn beta iota. destruct (cp_apart _ Hpl) as [Hc1 Hc2].
    assert (forall v, v ∉ ts -> st1 v = st v) as Hsame.
    { intros v Hv. rewrite (as_status _ _ _ _ _ Hs1), bool_decide_eq_false_2; [done|]. intros ->%list_elem_of_singleton. apply Hv, Hin. by left. }
    eapply wp_mono; [apply IH; [intros v Hv; apply Hin; by right|done|by rewrite Hsame|by rewrite Hsame]|].
    intros r w (-> & st2 & d2 & evs2 & -> & Hw2 & Hs2). split; [done|]. exists st2, d2, (evs1 ++ evs2). rewrite app_assoc.
    split_and!; [done|by apply no_write_app|by eapply settled_cons].
Qed.

(** ** Probing a core *)

Lemma wp_wakeup_loop k i h n st d tr : st P = PDBG_TARGET_ENABLED -> SPECIAL_WKUP_TIMEOUT + 2 - i = Z.of_nat k -> 0 <= i -> (0 < k)%nat ->
  wp (wakeup_loop T fuel R k core i) (World h n (Tgt st d tr)) (fun r w => r = inr tt /\ exists e j, (0 < j <= k)%nat /\
    w = World h n (Tgt st (set_dev e d) (tr ++ replicate j (EvRead P (f (spwkup_state R)))))).
Proof.
  intros HP. revert i d tr. induction k as [|k IH]; intros i d tr Hle Hi Hpos; [lia|]. cbn [wakeup_loop].
  apply wp_bind. unfold wp at 1. rewrite (pib_read_at T fuel core P f (cp_at _ Hpl)) by (exact HP || apply (ok_wakeup R (cp_regs _ Hpl))).
  destruct (Hans (f (spwkup_state R)) (chip_dev d)) as (e & v & Ee). rewrite Ee. cbn [fst snd]. unfold SPECIAL_WKUP_TIMEOUT in *.
  destruct (Z.ltb_spec 100 i) as [Hl|Hl]; [apply wp_ret; split; [done|]; exists e, 1%nat; split; [lia|done]|].
  destruct (negb _); [|apply wp_ret; split; [done|]; exists e, 1%nat; split; [lia|done]].
  eapply wp_mono; [apply IH; lia|]. intros r w (-> & e' & j & Hj & ->). split; [done|]. exists e', (S j). split; [lia|].
  by rewrite <- app_assoc.
Qed.

Lemma wp_probe_core h n st d tr e : st P = PDBG_TARGET_ENABLED -> scom_write P (f (spwkup_request R)) (PPC_BIT 0) (chip_dev d) = (e, 0) ->
  wp (probe_core T fuel R core) (World h n (Tgt st d tr)) (fun r w => r = inr tt /\ exists d' j, (0 < j <= 102)%nat /\
    w = World h n (Tgt st d' (tr ++ EvWrite P (f (spwkup_request R)) (PPC_BIT 0) :: replicate j (EvRead P (f (spwkup_state R))))) /\
    thread_of d' = thread_of d /\ forall c, release_spwkup d' c = if Nat.eqb c core then true else release_spwkup d c).
Proof.
  intros HP Ew. unfold probe_core. apply wp_bind. unfold wp at 1.
  rewrite (pib_write_at T fuel core P f (cp_at _ Hpl)) by (exact HP || apply (ok_request R (cp_regs _ Hpl))). rewrite Ew. cbn [fst snd truthy Z.eqb negb].
  apply wp_bind. eapply wp_mono; [apply wp_wakeup_loop; [done|reflexivity|done|unfold stop_fuel; lia]|].
  intros r w (-> & e' & j & Hj & ->). cbn beta iota. apply wp_bind, wp_get_st, wp_put_st. split; [done|]. eexists _, j.
  split; [exact Hj|]. rewrite <- app_assoc. split; [reflexivity|]. by split.
Qed.

(** The request is taken back exactly when no thread is left quiesced. *)
Lemma wp_release_core h n st d tr : st P = PDBG_TARGET_ENABLED -> st core = PDBG_TARGET_ENABLED ->
  wp (release_core T fuel R core) (World h n (Tgt st d tr)) (fun r w => r = inr tt /\ exists st' d' d'' evs,
    no_write evs /\ all_settled ts st d st' d' /\
    if release_spwkup d' core
    then w = World h n (Tgt st' d'' (tr ++ evs ++ [EvWrite P (f (spwkup_request R)) 0])) /\
         d'' = set_dev (scom_write P (f (spwkup_request R)) 0 (chip_dev d')).1 d'
    else w = World h n (Tgt st' d'' (tr ++ evs)) /\ d'' = d').
Proof.
  intros HP Hco. unfold release_core. apply wp_bind. eapply wp_eq; [apply for_each_thread, (cp_threads _ Hpl)|].
  eapply wp_mono; [apply wp_settle_all; [done|apply (cp_once _ Hpl)|done|done]|].
  intros r w (-> & st' & d' & evs & -> & Hnw & Hs). cbn beta iota. apply wp_bind, wp_get_st. cbn [t_dev].
  destruct (release_spwkup d' core) eqn:Er; cbn [negb].
  - unfold unchecked. apply wp_bind, wp_attempt. unfold wp at 1.
    assert (st' P = PDBG_TARGET_ENABLED) as HP'.
    { rewrite (as_status _ _ _ _ _ Hs), bool_decide_eq_false_2 by apply (cp_apart _ Hpl). exact HP. }
    rewrite (pib_write_at T fuel core P f (cp_at _ Hpl)) by (exact HP' || apply (ok_request R (cp_regs _ Hpl))).
    destruct (truthy _); (apply wp_ret; split; [done|]; eexists st', d', _, evs; split; [done|]; split; [done|]; rewrite Er;
      split; [rewrite <- app_assoc; reflexivity|reflexivity]).
  - apply wp_ret. split; [done|]. exists st', d', d', evs. split; [done|]. split; [done|]. by rewrite Er.
Qed.
End Core.
