(* ===== verification/ChipTheorems.v ===== *)
(** * libpdbg: what the operations on threads and cores do

    Stopping, starting, resetting and stepping a thread, access to the registers of a POWER9
    thread, and the special wakeup of a core. *)

From stdpp Require Import functions.
From S2P Require Import Prelude CMem Target TargetRelease Pib Adu Ram RamFacts RamTheorems Thread Chip ChipFacts ChipRam ChipCore.

Section Looking.
Context {E : Type} {Sc : Scom E} (P : nat) (f : Z -> Z) (R : chip_regs).

Abbreviation running := (fun s => quiesced s = false).

(** A thread that is looked at again and again is seen quiesced at some time, or never. *)
Lemma look_until i m e : answering (E := E) P ->
  (exists ss e', shows P f R i e ss e' /\ Forall running ss /\ length ss = m) \/
  (exists ss s e1 e', shows P f R i e ss e1 /\ sees P f R i e1 s e' /\ Forall running ss /\ quiesced s = true /\ (length ss < m)%nat).
Proof.
  intros Hans. revert e. induction m as [|m IH]; intros e; [left; exists [], e; by repeat constructor|].
  destruct (answering_sees P f R Hans i e) as (s & e1 & Hs). destruct (quiesced s) eqn:Eq.
  - right. exists [], s, e, e1. split; [constructor|]. split_and!; [done|constructor|done|cbn; lia].
  - destruct (IH e1) as [(ss & e' & Hss & Hr & Hl)|(ss & s' & e2 & e' & Hss & Hs' & Hr & Hq & Hl)].
    + left. exists (s :: ss), e'. split; [by econstructor|]. split; [by constructor|cbn; lia].
    + right. exists (s :: ss), s', e2, e'. split; [by econstructor|]. split_and!; [done|by constructor|done|cbn; lia].
Qed.
End Looking.

Section Stop.
Context {E : Type} {Sc : Scom E} {Hw : Hardware (chips E)} {Ob : OnBus E} (T : dtree) (fuel : nat).
Context (core P : nat) (f : Z -> Z) (Hat : core_at (E := E) T fuel core P f) (t : nat) (Hin : in_core (E := E) T fuel t core).
Context (R : chip_regs) (HR : regs_ok R).
Context (h : gmap nat (list mval)) (n : nat) (st : nat -> pdbg_target_status) (d : chips E) (tr : list tevent).
Context (HP : st P = PDBG_TARGET_ENABLED).

Abbreviation v := (thread_of d t).
Abbreviation w0 := (World h n (Tgt st d tr)).

(** Setting bit [b] of the control register of the thread, and the bus after it. *)
Definition control_event (b : Z) : tevent := EvWrite P (f (direct_control R)) (PPC_BIT (b + 8 * id v)).
Definition controlled_by (b : Z) : E := (scom_write P (f (direct_control R)) (PPC_BIT (b + 8 * id v)) (chip_dev d)).1.

(** What comes after the write to the control register. *)
Lemma does_after_write {A} b (m : M (tgt (chips E)) A) r x e evs :
  wp m (World h n (Tgt st (set_dev (controlled_by b) d) (tr ++ [control_event b])))
    (does t r x e evs h n st (set_dev (controlled_by b) d) (tr ++ [control_event b])) ->
  wp (unchecked (thread_write T fuel t (direct_control R) (PPC_BIT (b + 8 * id v)));; m) w0 (does t r x e (control_event b :: evs) h n st d tr).
Proof.
  intros H. apply wp_bind. eapply (wp_unchecked T fuel core P f Hat t Hin); [apply (ok_control R HR)|done|].
  eapply wp_mono; [exact H|]. intros r' w (-> & d' & -> & Ha). split; [done|]. exists d'. split; [by rewrite <- app_assoc|]. exact Ha.
Qed.

Lemma wp_stop_quiesces ss s e e' : shows P f R (id v) (controlled_by 7) ss e -> sees P f R (id v) e s e' ->
  Forall (fun s => quiesced s = false) ss -> quiesced s = true -> (length ss <= 100)%nat ->
  wp (stop_thread T fuel R t) w0
    (does t (inr tt) (set_vars_status v s) e' (control_event 7 :: concat (replicate (S (length ss)) (looks P f R))) h n st d tr).
Proof.
  intros Hss Hs Hr Hq Hl. unfold stop_thread. apply wp_bind, wp_bind, wp_get_st, wp_ret. apply does_after_write.
  by apply (wp_stop_ends T fuel core P f Hat t Hin R HR _ _ _ _ _ (set_dev (controlled_by 7) d) _ e).
Qed.

Lemma wp_stop_times_out ss e : shows P f R (id v) (controlled_by 7) ss e ->
  Forall (fun s => quiesced s = false) ss -> length ss = 101%nat ->
  wp (stop_thread T fuel R t) w0 (does t (inl 1) (seen v ss) e (control_event 7 :: concat (replicate 101 (looks P f R))) h n st d tr).
Proof.
  intros Hss Hr Hl. unfold stop_thread. apply wp_bind, wp_bind, wp_get_st, wp_ret. apply does_after_write.
  by apply (wp_stop_gives_up T fuel core P f Hat t Hin R HR _ _ _ _ (set_dev (controlled_by 7) d)).
Qed.

Lemma wp_stop_answers : answering (E := E) P ->
  wp (stop_thread T fuel R t) w0 (fun r w => exists x e k, (k <= 101)%nat /\ (quiesced (status x) = false -> k = 101%nat) /\
    does t (if quiesced (status x) then inr tt else inl 1) x e (control_event 7 :: concat (replicate k (looks P f R))) h n st d tr r w).
Proof.
  intros Hans. destruct (look_until P f R (id v) 101 (controlled_by 7) Hans) as [(ss & e & Hss & Hr & Hl)|(ss & s & e1 & e & Hss & Hs & Hr & Hq & Hl)].
  - eapply wp_mono; [by apply wp_stop_times_out|]. intros r w H. exists (seen v ss), e, 101%nat. split; [lia|]. split; [done|].
    destruct (last ss) as [s|] eqn:El; [|by apply last_None in El as ->].
    assert (quiesced (status (seen v ss)) = false) as ->; [|exact H]. unfold seen. rewrite El. cbn.
    rewrite Forall_forall in Hr. apply Hr. apply last_Some in El as [l ->]. apply elem_of_app. right. by apply list_elem_of_singleton.
  - eapply wp_mono; [eapply wp_stop_quiesces; [exact Hss|exact Hs|done|done|lia]|]. intros r w H. exists (set_vars_status v s), e, (S (length ss)).
    split; [lia|]. cbn [set_vars_status status]. rewrite Hq. split; [done|]. exact H.
Qed.

(** Writing a bit and looking at the thread. *)
Lemma wp_control b s e : sees P f R (id v) (controlled_by b) s e ->
  wp (unchecked (thread_write T fuel t (direct_control R) (PPC_BIT (b + 8 * id v)));; update_status T fuel R t) w0
    (does t (inr tt) (set_vars_status v s) e (control_event b :: looks P f R) h n st d tr).
Proof.
  intros Hs. apply does_after_write. eapply (wp_update T fuel core P f Hat t Hin R HR); [done|exact Hs|].
  intros d' Hd'. split; [done|]. by exists d'.
Qed.

(** The bit that starts the thread depends on what was seen of it last. *)
Definition start_bit : Z :=
  if negb (active (status v)) || bool_decide (sleep_state (status v) = PDBG_THREAD_STATE_STOP) then 3 else 6.

Lemma wp_start s e : quiesced (status v) = true -> sees P f R (id v) (controlled_by start_bit) s e ->
  wp (start_thread T fuel R t) w0 (does t (inr tt) (set_vars_status v s) e (control_event start_bit :: looks P f R) h n st d tr).
Proof.
  intros Hq Hs. unfold start_thread. apply wp_bind, wp_bind, wp_get_st, wp_ret. cbn [t_dev]. rewrite Hq. cbn [negb].
  pose proof (wp_control start_bit s e Hs) as W. unfold start_bit in *. by destruct (_ || _).
Qed.

Lemma wp_sreset s e : quiesced (status v) = true -> sees P f R (id v) (controlled_by 4) s e ->
  wp (sreset_thread T fuel R t) w0 (does t (inr tt) (set_vars_status v s) e (control_event 4 :: looks P f R) h n st d tr).
Proof.
  intros Hq Hs. unfold sreset_thread. apply wp_bind, wp_bind, wp_get_st, wp_ret. cbn [t_dev]. rewrite Hq. cbn [negb]. by apply wp_control.
Qed.

Lemma start_refused : quiesced (status v) = false -> start_thread T fuel R t w0 = (Fail 1, w0) /\ sreset_thread T fuel R t w0 = (Fail 1, w0).
Proof. intros Hq. unfold start_thread, sreset_thread, get_thread, get_st, mbind, M_bind, mret, M_ret. cbn. by rewrite Hq. Qed.
End Stop.

Section Step.
Context {E : Type} {Sc : Scom E} {Hw : Hardware (chips E)} {Ob : OnBus E} (T : dtree) (fuel : nat).
Context (core P : nat) (f : Z -> Z) (Hat : core_at (E := E) T fuel core P f) (t : nat) (Hin : in_core (E := E) T fuel t core).
Context (h : gmap nat (list mval)) (n : nat) (st : nat -> pdbg_target_status) (d : chips E) (tr : list tevent).
Context (HP : st P = PDBG_TARGET_ENABLED).
Abbreviation v := (thread_of d t).
Abbreviation w0 := (World h n (Tgt st d tr)).

Definition can_step : bool :=
  quiesced (status v) && active (status v) && negb (bool_decide (sleep_state (status v) = PDBG_THREAD_STATE_STOP)).

Lemma step_refused count : can_step = false -> p9_thread_step T fuel t count w0 = (Fail 1, w0).
Proof.
  unfold can_step, p9_thread_step, get_thread, get_st, mbind, M_bind, mret, M_ret. cbn.
  destruct (quiesced (status v)), (active (status v)); cbn; try done. by destruct (bool_decide _).
Qed.

Definition fence (x : Z) : tevent := EvWrite P (f P9_RAS_MODEREG) x.

Lemma wp_step count e e' evs : can_step = true ->
  e = (scom_write P (f P9_RAS_MODEREG) (PPC_BIT 57) (chip_dev d)).1 -> stepped fuel P f (id v) (Z.to_nat count) e e' evs ->
  wp (p9_thread_step T fuel t count) w0
    (does t (inr tt) v (scom_write P (f P9_RAS_MODEREG) 0 e').1 (fence (PPC_BIT 57) :: evs ++ [fence 0]) h n st d tr).
Proof.
  unfold can_step. rewrite !andb_true_iff, negb_true_iff. intros [[Hq Ha] Hsl] -> Hst.
  unfold p9_thread_step. apply wp_bind, wp_bind, wp_get_st, wp_ret. cbn [t_dev]. rewrite Hq, Ha, Hsl. cbn [negb].
  apply wp_bind. eapply (wp_unchecked T fuel core P f Hat t Hin); [done|done|].
  apply wp_bind. eapply (wp_steps T fuel core P f Hat t Hin); [exact Hst|done|done|done|].
  eapply (wp_unchecked T fuel core P f Hat t Hin); [done|done|].
  split; [done|]. eexists. split; [by rewrite <- !app_assoc|]. done.
Qed.
End Step.

(** C26: stopping a thread. Stopping sets the stop bit of the thread once and then looks at the
    thread until it is quiesced. It ends after at most 101 looks whatever the thread does, as
    long as the registers can be read. When the thread is seen quiesced within 101 looks the
    call succeeds at that look; otherwise it returns 1 after 101 looks. The state seen last is
    kept for the thread, the accesses are exactly the write and the looks, and nothing else
    changes. This holds for POWER9 and POWER10. *)
Theorem thread_stops {E : Type} {Sc : Scom E} {Hw : Hardware (chips E)} (Ob : OnBus E) (T : dtree) (fuel core P : nat) (f : Z -> Z) (t : nat)
    (h : gmap nat (list mval)) (n : nat) (st : nat -> pdbg_target_status) (d : chips E) (tr : list tevent) :
  core_at (E := E) T fuel core P f -> in_core (E := E) T fuel t core -> st P = PDBG_TARGET_ENABLED ->
  let v := thread_of d t in
  let w := World h n (Tgt st d tr) in
  Forall (fun '(R, stop) =>
    let e0 := controlled_by P f t R d 7 in
    let evs k := control_event P f t R d 7 :: concat (replicate k (looks P f R)) in
    (answering (E := E) P ->
       wp stop w (fun r w' => exists x e k, (k <= 101)%nat /\ (quiesced (status x) = false -> k = 101%nat) /\
         does t (if quiesced (status x) then inr tt else inl 1) x e (evs k) h n st d tr r w')) /\
    (forall ss s e e', shows P f R (id v) e0 ss e -> sees P f R (id v) e s e' ->
       Forall (fun s => quiesced s = false) ss -> quiesced s = true -> (length ss <= 100)%nat ->
       wp stop w (does t (inr tt) (set_vars_status v s) e' (evs (S (length ss))) h n st d tr)) /\
    (forall ss e, shows P f R (id v) e0 ss e -> Forall (fun s => quiesced s = false) ss -> length ss = 101%nat ->
       wp stop w (does t (inl 1) (seen v ss) e (evs 101%nat) h n st d tr)))
  [(p9_regs, p9_thread_stop T fuel t); (p10_regs, p10_thread_stop T fuel t)].
Proof.
  intros Hat Hin HP v w.
  pose proof p9_regs_ok. pose proof p10_regs_ok.
  do 2 (apply Forall_cons; split; [split_and!; [by eapply wp_stop_answers|intros; by eapply wp_stop_quiesces|intros; by eapply wp_stop_times_out]|]).
  constructor.
Qed.

(** C11: starting and resetting a thread of POWER9 or POWER10, and stepping one of POWER9; p10chip.c
    has no step. Start and reset leave a thread that was not quiesced when it was last looked at alone
    and return 1. Otherwise starting a thread sets one bit of the control register: the one that clears
    the maintenance mode for a thread that is inactive or has stopped itself, the start bit for
    another; a reset sets the reset bit; both then look at the thread once. A step is refused with 1,
    without an access, for a thread that is not quiesced, not active, or has stopped itself; otherwise
    it sets the fence bit of the register RAS_MODEREG of the core, sets the step bit of the thread the
    given number of times, waiting for the completion each time, and clears RAS_MODEREG; it does not
    look at the thread again, so that what is known of the thread stays. The control bits are those of
    this thread, and there are no other accesses. *)
Theorem thread_control {E : Type} {Sc : Scom E} {Hw : Hardware (chips E)} (Ob : OnBus E) (T : dtree) (fuel core P : nat) (f : Z -> Z) (t : nat)
    (h : gmap nat (list mval)) (n : nat) (st : nat -> pdbg_target_status) (d : chips E) (tr : list tevent) :
  core_at (E := E) T fuel core P f -> in_core (E := E) T fuel t core -> st P = PDBG_TARGET_ENABLED ->
  let v := thread_of d t in
  let w := World h n (Tgt st d tr) in
  Forall (fun '(R, start, sreset) =>
    (quiesced (status v) = false -> start w = (Fail 1, w) /\ sreset w = (Fail 1, w)) /\
    (forall s e, quiesced (status v) = true -> sees P f R (id v) (controlled_by P f t R d (start_bit t d)) s e ->
       wp start w (does t (inr tt) (set_vars_status v s) e (control_event P f t R d (start_bit t d) :: looks P f R) h n st d tr)) /\
    (forall s e, quiesced (status v) = true -> sees P f R (id v) (controlled_by P f t R d 4) s e ->
       wp sreset w (does t (inr tt) (set_vars_status v s) e (control_event P f t R d 4 :: looks P f R) h n st d tr)))
  [(p9_regs, p9_thread_start T fuel t, p9_thread_sreset T fuel t); (p10_regs, p10_thread_start T fuel t, p10_thread_sreset T fuel t)] /\
  (forall count, can_step t d = false -> p9_thread_step T fuel t count w = (Fail 1, w)) /\
  (forall count e e' evs, can_step t d = true -> e = (scom_write P (f P9_RAS_MODEREG) (PPC_BIT 57) (chip_dev d)).1 ->
     stepped fuel P f (id v) (Z.to_nat count) e e' evs ->
     wp (p9_thread_step T fuel t count) w
       (does t (inr tt) v (scom_write P (f P9_RAS_MODEREG) 0 e').1 (fence P f (PPC_BIT 57) :: evs ++ [fence P f 0]) h n st d tr)).
Proof.
  intros Hat Hin HP v w. split; [|split].
  - pose proof p9_regs_ok. pose proof p10_regs_ok.
    do 2 (apply Forall_cons; split; [split_and!; [by apply start_refused|intros; by eapply wp_start|intros; by eapply wp_sreset]|]).
    constructor.
  - intros. by apply step_refused.
  - intros. by eapply wp_step.
Qed.

(** C28: the registers of a POWER9 thread. The ramming operations of p9chip.c, which prepare the
    core, write the scratch register, start an instruction with its thread number and predecode
    and look at the outcome, implement a thread that executes instructions, given a core whose
    ram unit does what its registers say. So on a core whose threads are enabled and
    quiesced, every read of a general register, of a special register other than the scratch
    register 277, of the next instruction address, the machine state and the condition register
    through p9chip.c and chip.c gives the register and leaves all of them alone. A write to a
    general register from 2 on, to such a special register, to the next instruction address
    (on a thread with a link register) or to the machine state changes exactly that register;
    a write to general register 0 or 1, which ramming itself uses, reports success and changes
    nothing. Exceptions are reported, and the core is prepared afterwards exactly if it was
    before. A load is refused. *)
Theorem p9_registers {E : Type} {Sc : Scom E} {Hw : Hardware (chips E)} (Ob : OnBus E) (T : dtree) (fuel core P : nat) (f : Z -> Z) (t : nat)
    (i : Z) (undef : cpu -> Z) (unit_of : E -> ram_unit) (steady : E -> Prop) (ts : list nat) (s : tgt (chips E)) (h : gmap nat (list mval)) (n : nat) :
  ram_place (E := E) T fuel core P f t i ts -> RamCore P f i undef unit_of steady -> ready9 P t i unit_of steady ts s ->
  let c := view_of unit_of s in
  length (gprs c) = 32%nat -> in_range 32 (cr c) ->
  let th := p9_thread T fuel t in
  let gives {A} (m : M (tgt (chips E)) A) (c' : cpu) (r : Z + A) :=
    wp m (World h n s) (leaves (Th := th) (view_of unit_of) (ready9 P t i unit_of steady ts) s h n c' r) in
  (forall g x, 0 <= g < 32 -> reg c g = Some x -> gives (ram_getgpr (Th := th) g) c (inr x)) /\
  (forall g x, 2 <= g < 32 -> gives (ram_putgpr (Th := th) g x) (set_reg g x c) (inr tt)) /\
  (forall g x, 0 <= g < 2 -> gives (ram_putgpr (Th := th) g x) c (inr tt)) /\
  (forall spr, 0 <= spr < 1024 -> spr <> SPRD ->
     gives (ram_getspr (Th := th) spr) c (match sprs c !! spr with Some x => inr x | None => inl 1 end)) /\
  (forall spr x, 0 <= spr < 1024 -> spr <> SPRD ->
     match sprs c !! spr with
     | Some _ => gives (ram_putspr (Th := th) spr x) (set_spr spr x c) (inr tt)
     | None => gives (ram_putspr (Th := th) spr x) c (inl 1)
     end) /\
  gives (p9_ram_getxer T fuel t) c (match sprs c !! Thread.SPR_XER with Some x => inr x | None => inl 1 end) /\
  (forall x, is_Some (sprs c !! Thread.SPR_XER) -> gives (p9_ram_putxer T fuel t x) (set_spr Thread.SPR_XER x c) (inr tt)) /\
  gives (ram_getnia (Th := th)) c (inr (nia c)) /\
  (forall x, is_Some (sprs c !! SPR_LR) -> gives (ram_putnia (Th := th) x) (set_nia x c) (inr tt)) /\
  gives (ram_getmsr (Th := th)) c (inr (msr c)) /\
  (forall x, gives (ram_putmsr (Th := th) x) (set_msr x c) (inr tt)) /\
  gives (ram_getcr (Th := th)) c (inr (cr c)) /\
  (forall addr, in_range 64 addr -> gives (ram_getmem (Th := th) addr) c (inl 1)).
Proof.
  intros Hpl RC Hrd c Hg Hcr th gives.
  pose proof (p9_runs T fuel core P f t i undef unit_of steady ts Hpl) as Hth.
  assert (forall spr x, 0 <= spr < 1024 -> spr <> SPRD -> is_Some (sprs c !! spr) ->
            gives unit (ram_putspr (Th := th) spr x) (set_spr spr x c) (inr tt)) as Hput.
  { intros spr x Hs Hne [y Hy]. pose proof (wp_putspr (Th := th) (view_of unit_of) (ready9 P t i unit_of steady ts) (fun _ => None) true undef s h n Hrd Hg spr x Hs Hne) as W.
    unfold c in Hy. by rewrite Hy in W. }
  unfold gives, c, th. split_and!.
  - intros. by eapply wp_getgpr.
  - intros. by eapply wp_putgpr.
  - intros. by eapply wp_putgpr_lost.
  - intros. by eapply wp_getspr.
  - intros spr x Hs Hne. pose proof (wp_putspr (Th := th) (view_of unit_of) (ready9 P t i unit_of steady ts) (fun _ => None) true undef s h n Hrd Hg spr x Hs Hne) as W.
    by destruct (sprs (view_of unit_of s) !! spr).
  - by eapply wp_getspr.
  - intros. by apply Hput.
  - by eapply wp_getnia.
  - intros x [lr Hlr]. by eapply wp_putnia.
  - by eapply wp_getmsr.
  - intros. by eapply wp_putmsr.
  - by eapply wp_getcr.
  - intros. by apply (wp_getmem (Th := th) (view_of unit_of) (ready9 P t i unit_of steady ts) (fun _ => None) true undef).
Qed.

(** C31: the special wakeup of a core. Probing a core asks for the special wakeup, waits for it
    by at most 102 looks, and notes that the request may be taken back; a POWER10 core outside a
    short context is not asked and keeps nothing. Releasing a core settles its threads first:
    threads that were not known are probed, all that are there are released, threads that are
    released, disabled or absent stay as they are. The request is taken back, as the last access,
    exactly when it was noted that it may be and no thread released here was quiesced when last
    looked at; there is no other write. *)
Theorem wakeup_kept {E : Type} {Sc : Scom E} {Hw : Hardware (chips E)} (Ob : OnBus E) (T : dtree) (fuel core P : nat) (f : Z -> Z)
    (ts : list nat) (idx : nat -> Z) (h : gmap nat (list mval)) (n : nat) (st : nat -> pdbg_target_status) (d : chips E) (tr : list tevent) :
  answering (E := E) P -> st P = PDBG_TARGET_ENABLED -> st core = PDBG_TARGET_ENABLED ->
  let w := World h n (Tgt st d tr) in
  Forall (fun '(R, probe, release) =>
    core_place (E := E) T fuel core P f R ts idx ->
    (forall e, scom_write P (f (spwkup_request R)) (PPC_BIT 0) (chip_dev d) = (e, 0) ->
       wp probe w (fun r w' => r = inr tt /\ exists d' j, (0 < j <= 102)%nat /\
         w' = World h n (Tgt st d' (tr ++ EvWrite P (f (spwkup_request R)) (PPC_BIT 0) :: replicate j (EvRead P (f (spwkup_state R))))) /\
         thread_of d' = thread_of d /\ forall c, release_spwkup d' c = if Nat.eqb c core then true else release_spwkup d c)) /\
    (ThreadHooks T fuel P R ts ->
       wp release w (fun r w' => r = inr tt /\ exists st' d' d'' evs, no_write evs /\
         all_settled core idx ts st d st' d' /\
         if release_spwkup d core && forallb (fun u => negb (is_open (st u) && quiesced (status (thread_of d' u)))) ts
         then w' = World h n (Tgt st' d'' (tr ++ evs ++ [EvWrite P (f (spwkup_request R)) 0])) /\
              d'' = set_dev (scom_write P (f (spwkup_request R)) 0 (chip_dev d')).1 d'
         else w' = World h n (Tgt st' d'' (tr ++ evs)) /\ d'' = d')))
  [(p9_regs, p9_core_probe T fuel core, p9_core_release T fuel core);
   (p10_regs, p10_core_probe T fuel true core, p10_core_release T fuel core)] /\
  (exists d', p10_core_probe T fuel false core w = (Ret tt, World h n (Tgt st d' tr)) /\ thread_of d' = thread_of d /\
     chip_dev d' = chip_dev d /\ forall c, release_spwkup d' c = if Nat.eqb c core then false else release_spwkup d c).
Proof.
  intros Hans HP Hco w. split; [|by eexists].
  do 2 (apply Forall_cons; split; [intros Hpl; split; [intros e He; by eapply wp_probe_core|]; intros Hk;
    eapply wp_mono; [by eapply wp_release_core|]; intros r w' (-> & st' & d' & d'' & evs & Hnw & Hs & Hw'); split; [done|];
    exists st', d', d'', evs; split; [done|]; split; [done|]; by rewrite <- (as_wakeup _ _ _ _ _ _ _ Hs)|]).
  constructor.
Qed.
