(* ===== verification/ChipWitness.v ===== *)
(** * libpdbg: a POWER9 core

    A tree with a bus, a core and two threads, and a core behind the bus that quiesces some time
    after it was told to and then executes what its ram unit is given. *)

From S2P Require Import Prelude CMem Target TargetFacts TargetRelease Pib Adu Ram RamFacts RamTheorems.
From S2P Require Import Chip ChipFacts ChipRam ChipCore ChipTheorems.

(** ** The tree *)

Definition core_node (t : nat) : pdbg_target :=
  match t with
  | 0 => Node true (Some "root") None false NoRelease 0 None [1] None (Some 0%Z) 0 0 0 None false false
  | 1 => Node true (Some "pib") None false NoRelease 0 (Some 0) [2] None (Some 0%Z) 0 0 0 None true true
  | 2 => Node true (Some "core") None true ReleaseCore 0 (Some 1) [3; 4] None (Some 0x20000000%Z) 0 0 0 None false false
  | t => Node true (Some "thread") None true ReleaseHw (Z.of_nat t - 3) (Some 2) [] None (Some 0%Z) 0 0 0 None false false
  end%nat.

Definition core_tree : dtree :=
  Dtree core_node 0 (fun k => if String.eqb k "thread" then Some [3; 4]%nat else None) false.

Definition core_line (t : nat) : list nat := match t with 0 => [0] | 1 => [1; 0] | 2 => [2; 1; 0] | t => [t; 2; 1; 0] end%nat.

Definition core_addr (a : Z) : Z := u64 (a + 0x20000000).

Lemma core_tree_at {E} : core_at (E := E) core_tree 10 2 1 core_addr.
Proof.
  split; [done| |done..]. intros a Ha. change (PPC_BIT 0) with (2 ^ 63). rewrite truthy_land_bit by lia. unfold core_addr.
  rewrite wrap_small by (unfold in_range; lia). apply Z.bits_above_log2; [lia|]. apply Z.log2_lt_pow2; lia.
Qed.

Lemma core_tree_threads : core_threads core_tree 10 2 [3; 4]%nat.
Proof.
  change [3; 4]%nat with (targets core_tree core_line "thread" (Some 2%nat)). econstructor; [reflexivity| | |cbn; lia].
  - apply (bool_decide_eq_true_1 _). reflexivity.
  - assert (forall t, ancestry core_tree true (S (S (S t))) (core_line (S (S (S t))))) as H.
    { intros t. do 3 (eapply anc_up; [reflexivity|]). by apply anc_top. }
    repeat constructor; (apply H || (cbn; lia)).
Qed.

(** ** The core *)

(** The number of looks until a core that was told to stop is quiesced. *)
Record dev9 := Dev9 { dv_unit : ram_unit; dv_stopped : bool; dv_delay : nat }.

Definition quiet (e : dev9) : bool := dv_stopped e && Nat.eqb (dv_delay e) 0.

Definition dev9_read (a : Z) (e : dev9) : dev9 * Z :=
  if a =? core_addr P9_RAS_STATUS then
    (Dev9 (dv_unit e) (dv_stopped e) (if dv_stopped e then Nat.pred (dv_delay e) else dv_delay e),
     if quiet e then 0xf8f8f8f800000000 else 0x0808080800000000)
  else if a =? core_addr P9_THREAD_INFO then (e, 0xf0c0000000000000)
  else if a =? core_addr P9_RAM_STATUS then (e, if u_ok (dv_unit e) then PPC_BIT 1 else PPC_BIT 2)
  else if a =? core_addr P9_SCR0_REG then (e, u_scratch (dv_unit e))
  else (e, 0).

Definition dev9_write (a x : Z) (e : dev9) : dev9 :=
  if a =? core_addr P9_DIRECT_CONTROL then
    Dev9 (dv_unit e) (dv_stopped e || bool_decide (x = PPC_BIT 7)) (dv_delay e)
  else Dev9 (default (dv_unit e) (unit_write no_undef 0 (a - 0x20000000) x (dv_unit e))) (dv_stopped e) (dv_delay e).

#[export] Instance dev9_scom : Scom dev9 := {|
  scom_read _ a e := ((dev9_read a e).1, inr (dev9_read a e).2);
  scom_write _ a x e := (dev9_write a x e, 0)
|}.

(** The members of the threads are those of the chip, run on a bus that is there. *)
Definition run_hook {E} (op : M (tgt (chips E)) unit) (d : chips E) : chips E :=
  t_dev (w_st (op (World ∅ 0%nat (Tgt (fun _ => PDBG_TARGET_ENABLED) d []))).2).

#[export] Instance bus_hardware {E} {Sc : Scom E} : Hardware (chips E) | 10 := {|
  hw_probe _ d := (d, 0);
  hw_release _ d := d;
  hw_read P a d := (set_dev (scom_read P a (chip_dev d)).1 d, (scom_read P a (chip_dev d)).2);
  hw_write P a x d := (set_dev (scom_write P a x (chip_dev d)).1 d, (scom_write P a x (chip_dev d)).2)
|}.

#[export] Instance core_hardware : Hardware (chips dev9) | 1 := {|
  hw_probe t d := (run_hook (probe_thread (Hw := bus_hardware) core_tree 10 p9_regs t) d, 0);
  hw_release t d := run_hook (release_thread core_tree 10 t) d;
  hw_read := hw_read (Hardware := bus_hardware);
  hw_write := hw_write (Hardware := bus_hardware)
|}.

#[export] Instance core_on_bus : OnBus dev9.
Proof. split; done. Defined.

#[export] Instance core_ram : RamCore 1 core_addr 0 no_undef dv_unit (fun e => quiet e = true).
Proof.
  split.
  - intros a x e u Hq Hu. exists (Dev9 u (dv_stopped e) (dv_delay e)). split_and!; [|done|done]. cbn. f_equal. unfold dev9_write.
    assert (a ∈ [P9_SCR0_REG; P9_RAM_CTRL; P9_THREAD_INFO; P9_RAM_MODEREG; P9_SPR_MODE; P9_SCOMC]) as Ha.
    { unfold unit_write in Hu. destruct (Z.eqb_spec a P9_SCR0_REG); [subst; by left|]. destruct (Z.eqb_spec a P9_RAM_CTRL); [subst; by right; left|].
      case_bool_decide as Hm; [by do 2 right|done]. }
    rewrite !elem_of_cons, elem_of_nil in Ha. destruct_or! Ha; try done; subst a;
      (match goal with |- context [core_addr ?r =? _] => change (core_addr r =? core_addr P9_DIRECT_CONTROL) with false;
         change (core_addr r - 0x20000000) with r end); cbv iota; by rewrite Hu.
  - intros e Hq. exists e, (if u_ok (dv_unit e) then PPC_BIT 1 else PPC_BIT 2). split_and!; try done. by destruct (u_ok (dv_unit e)).
  - intros e Hq. by exists e.
  - intros e Hq. destruct e as [u s k]. unfold quiet in Hq. cbn in Hq. apply andb_true_iff in Hq as [-> Hk]. apply Nat.eqb_eq in Hk as ->.
    exists (Dev9 u true 0), 0xf8f8f8f800000000. by split_and!.
  - intros e Hq. exists e, 0xf0c0000000000000. by split_and!.
  - intros e Hq. by exists e, 0.
Defined.

(** ** Stopping it *)

Definition fresh_unit : ram_unit := RamUnit some_cpu 0 (fun _ => 0) true.
Definition running_state : thread_state := ThreadState true false true false PDBG_THREAD_STATE_RUN PDBG_SMT_4.
Definition quiesced_state : thread_state := ThreadState true true true false PDBG_THREAD_STATE_RUN PDBG_SMT_4.

Definition vars9 (s : thread_state) (t : nat) : thread_vars := ThreadVars (Z.of_nat t - 3) s false false.
Definition all_enabled (_ : nat) : pdbg_target_status := PDBG_TARGET_ENABLED.

(** A running core that will be quiesced after [k] looks. *)
Definition running9 (k : nat) : chips dev9 := Chips (vars9 running_state) (fun _ => true) (Dev9 fresh_unit false k).

Abbreviation at9 d := (World (∅ : gmap nat (list mval)) 0%nat (Tgt all_enabled d [])).

Lemma core_tree_in {E} t : (3 <= t)%nat -> in_core (E := E) core_tree 10 t 2.
Proof. intros Ht w. by destruct t as [|[|[|t]]]; [lia..|]. Qed.

Lemma sees_running u k : sees 1 core_addr p9_regs 0 (Dev9 u true (S k)) running_state (Dev9 u true k).
Proof. change running_state with (decode_state p9_regs 0 0x0808080800000000 0xf0c0000000000000 0). by econstructor. Qed.

Lemma sees_quiesced u : sees 1 core_addr p9_regs 0 (Dev9 u true 0) quiesced_state (Dev9 u true 0).
Proof. change quiesced_state with (decode_state p9_regs 0 0xf8f8f8f800000000 0xf0c0000000000000 0). by econstructor. Qed.

Lemma shows_running k m u : shows 1 core_addr p9_regs 0 (Dev9 u true (k + m)) (replicate k running_state) (Dev9 u true m).
Proof. induction k as [|k IH]; [constructor|]. econstructor; [apply sees_running|exact IH]. Qed.

Lemma running_states k : Forall (fun s => quiesced s = false) (replicate k running_state).
Proof. by apply Forall_replicate. Qed.

Definition stop_event : tevent := EvWrite 1 (core_addr P9_DIRECT_CONTROL) (PPC_BIT 7).

Lemma thread_stops_witness :
  wp (p9_thread_stop core_tree 10 3) (at9 (running9 2))
    (does 3 (inr tt) (vars9 quiesced_state 3) (Dev9 fresh_unit true 0) (stop_event :: concat (replicate 3 (looks 1 core_addr p9_regs)))
       ∅ 0 all_enabled (running9 2) []) /\
  wp (p9_thread_stop core_tree 10 3) (at9 (running9 200))
    (does 3 (inl 1) (vars9 running_state 3) (Dev9 fresh_unit true 99) (stop_event :: concat (replicate 101 (looks 1 core_addr p9_regs)))
       ∅ 0 all_enabled (running9 200) []).
Proof.
  split.
  - pose proof (thread_stops core_on_bus core_tree 10 2 1 core_addr 3 ∅ 0 all_enabled (running9 2) [] core_tree_at (core_tree_in 3 ltac:(lia)) eq_refl) as H.
    apply Forall_cons in H as [(_ & H & _) _].
    exact (H (replicate 2 running_state) quiesced_state _ _ (shows_running 2 0 fresh_unit) (sees_quiesced fresh_unit) (running_states 2) eq_refl ltac:(cbn; lia)).
  - pose proof (thread_stops core_on_bus core_tree 10 2 1 core_addr 3 ∅ 0 all_enabled (running9 200) [] core_tree_at (core_tree_in 3 ltac:(lia)) eq_refl) as H.
    apply Forall_cons in H as [(_ & _ & H) _].
    exact (H (replicate 101 running_state) _ (shows_running 101 99 fresh_unit) (running_states 101) eq_refl).
Defined.

(** ** Starting and stepping it *)

(** A core that is quiesced. *)
Definition quiet9 : chips dev9 := Chips (vars9 quiesced_state) (fun _ => true) (Dev9 fresh_unit true 0).

Lemma steps_done u k : stepped 10 1 core_addr 0 k (Dev9 u true 0) (Dev9 u true 0)
  (concat (replicate k [EvWrite 1 (core_addr P9_DIRECT_CONTROL) (PPC_BIT 5); EvRead 1 (core_addr P9_RAS_STATUS)])).
Proof.
  induction k as [|k IH]; [constructor|]. apply (stepped_one 10 1 core_addr 0 k _ (Dev9 u true 0) 0 0xf8f8f8f800000000 (Dev9 u true 0)); [done| |lia|exact IH].
  by constructor.
Qed.

Lemma thread_control_witness :
  (p9_thread_start core_tree 10 3 (at9 (running9 2))).1 = Fail 1 /\
  wp (p9_thread_start core_tree 10 3) (at9 quiet9)
    (does 3 (inr tt) (vars9 quiesced_state 3) (Dev9 fresh_unit true 0)
       (EvWrite 1 (core_addr P9_DIRECT_CONTROL) (PPC_BIT 6) :: looks 1 core_addr p9_regs) ∅ 0 all_enabled quiet9 []) /\
  wp (p9_thread_step core_tree 10 3 2) (at9 quiet9)
    (does 3 (inr tt) (vars9 quiesced_state 3) (Dev9 fresh_unit true 0)
       (fence 1 core_addr (PPC_BIT 57) ::
        [EvWrite 1 (core_addr P9_DIRECT_CONTROL) (PPC_BIT 5); EvRead 1 (core_addr P9_RAS_STATUS);
         EvWrite 1 (core_addr P9_DIRECT_CONTROL) (PPC_BIT 5); EvRead 1 (core_addr P9_RAS_STATUS)] ++ [fence 1 core_addr 0])
       ∅ 0 all_enabled quiet9 []).
Proof.
  pose proof (thread_control core_on_bus core_tree 10 2 1 core_addr 3 ∅ 0 all_enabled quiet9 [] core_tree_at (core_tree_in 3 ltac:(lia)) eq_refl) as (H & _ & Hstep).
  apply Forall_cons in H as [(_ & Hstart & _) _]. split_and!.
  - pose proof (thread_control core_on_bus core_tree 10 2 1 core_addr 3 ∅ 0 all_enabled (running9 2) [] core_tree_at (core_tree_in 3 ltac:(lia)) eq_refl) as (H & _).
    apply Forall_cons in H as [(Hr & _) _]. by rewrite (proj1 (Hr eq_refl)).
  - exact (Hstart quiesced_state _ eq_refl (sees_quiesced fresh_unit)).
  - exact (Hstep 2 _ _ _ eq_refl eq_refl (steps_done fresh_unit 2)).
Defined.

(** ** Its registers *)

Lemma place9 : ram_place (E := dev9) core_tree 10 2 1 core_addr 3 0 [3; 4]%nat.
Proof. split; [apply core_tree_at|apply core_tree_in; lia|apply core_tree_threads|lia|lia]. Qed.

Definition state9 : tgt (chips dev9) := Tgt all_enabled quiet9 [].

Lemma state9_ready : ready9 1 3 0 dv_unit (fun e => quiet e = true) [3; 4]%nat state9.
Proof. by split_and!. Qed.

Abbreviation leaves9 := (leaves (Th := p9_thread core_tree 10 3) (view_of dv_unit) (ready9 1 3 0 dv_unit (fun e => quiet e = true) [3; 4]%nat) state9 ∅ 0).

Lemma p9_registers_witness :
  wp (ram_getgpr (Th := p9_thread core_tree 10 3) 5) (at9 quiet9) (leaves9 some_cpu (inr 105)) /\
  wp (p9_ram_getxer core_tree 10 3) (at9 quiet9) (leaves9 some_cpu (inr 0x20000000)) /\
  wp (ram_putnia (Th := p9_thread core_tree 10 3) 0x4000) (at9 quiet9) (leaves9 (set_nia 0x4000 some_cpu) (inr tt)) /\
  wp (ram_getmem (Th := p9_thread core_tree 10 3) 0x1000) (at9 quiet9) (leaves9 some_cpu (inl 1)).
Proof.
  assert (in_range 32 (cr (view_of dv_unit state9))) as Hc by done.
  destruct (p9_registers core_on_bus core_tree 10 2 1 core_addr 3 0 no_undef dv_unit (fun e => quiet e = true) [3; 4]%nat state9 ∅ 0
    place9 core_ram state9_ready eq_refl Hc) as (Hgpr & _ & _ & _ & _ & Hxer & _ & _ & Hnia & _ & _ & _ & Hmem).
  split; [exact (Hgpr 5 105 ltac:(lia) eq_refl)|]. split; [exact Hxer|].
  assert (is_Some (sprs (view_of dv_unit state9) !! SPR_LR)) as Hlr by (eexists; vm_compute; reflexivity).
  split; [exact (Hnia 0x4000 Hlr)|]. exact (Hmem 0x1000 ltac:(unfold in_range; lia)).
Defined.

(** ** Releasing it *)

Lemma dev9_answers : answering (E := dev9) 1.
Proof. intros a e. by exists (dev9_read a e).1, (dev9_read a e).2. Qed.

Definition core_idx (t : nat) : Z := u32 (Z.of_nat t - 3).

Lemma core_tree_index {E} t (w : world (tgt (chips E))) : (3 <= t)%nat -> pdbg_target_index core_tree 10 (Some t) w = (Ret (core_idx t), w).
Proof.
  intros Ht. destruct t as [|[|[|t]]]; [lia..|]. cbn [pdbg_target_index core_tree node core_node index].
  destruct (Z.eqb_spec (Z.of_nat (S (S (S t))) - 3) (-1)); [lia|done].
Qed.

Lemma core_place9 : core_place (E := dev9) core_tree 10 2 1 core_addr p9_regs [3; 4]%nat core_idx.
Proof.
  split; [apply core_tree_at|apply core_tree_threads| | | |lia|apply p9_regs_ok].
  - intros u Hu. assert (3 <= u)%nat as H3 by (rewrite !elem_of_cons, elem_of_nil in Hu; lia).
    split; [by apply core_tree_in| | | | | | | |by intros w; apply core_tree_index]; by destruct u as [|[|[|u]]]; [lia..|].
  - apply (bool_decide_eq_true_1 _). reflexivity.
  - split; apply (bool_decide_eq_true_1 _); reflexivity.
Qed.

#[export] Instance core_hooks : ThreadHooks core_tree 10 1 p9_regs [3; 4]%nat.
Proof.
  split.
  - intros u h n st d tr d' tr' Hu HP Hp. assert (3 <= u)%nat as H3 by (rewrite !elem_of_cons, elem_of_nil in Hu; lia).
    destruct (answering_sees 1 core_addr p9_regs dev9_answers (s32 (core_idx u)) (chip_dev d)) as (s & e & Hs).
    assert (OnBus dev9 (Hw := bus_hardware)) as Hob by (by split).
    pose proof (fun Hw Ob h n st tr H => probe_thread_eq (Hw := Hw) (Ob := Ob) core_tree 10 2 1 core_addr core_tree_at u (core_tree_in u H3)
      p9_regs p9_regs_ok (core_idx u) s e h n st d tr H (fun w => core_tree_index u w H3) Hs) as Eq.
    rewrite (Eq core_hardware _ h n st tr HP) in Hp. injection Hp as <- _.
    cbn [hw_probe core_hardware]. unfold run_hook. by rewrite (Eq bus_hardware Hob ∅ 0%nat (fun _ => PDBG_TARGET_ENABLED) [] eq_refl).
  - intros u h n st d tr d' Hu Hp. assert (3 <= u)%nat as H3 by (rewrite !elem_of_cons, elem_of_nil in Hu; lia).
    cbn [hw_release core_hardware]. unfold run_hook, release_thread, get_thread, set_release_spwkup, get_st, put_st, mbind, M_bind, mret, M_ret in *.
    rewrite core_tree_in in * by done. cbn in *. destruct (quiesced (status (thread_of d u))); by injection Hp as <-.
Defined.

(** Thread 3 is known, thread 4 is not. *)
Definition half_probed (t : nat) : pdbg_target_status := if Nat.eqb t 4 then PDBG_TARGET_UNKNOWN else PDBG_TARGET_ENABLED.
Definition run_away : chips dev9 := Chips (vars9 running_state) (fun _ => true) (Dev9 fresh_unit false 5).

(** Of the threads of a running core none keeps the wakeup; those of a quiesced core do. *)
Lemma wakeup_kept_witness :
  wp (p9_core_release core_tree 10 2) (World (∅ : gmap nat (list mval)) 0%nat (Tgt half_probed run_away []))
    (fun r w => r = inr tt /\ t_status (w_st w) 4%nat = PDBG_TARGET_RELEASED) /\
  wp (p9_core_release core_tree 10 2) (at9 quiet9) (fun r w => r = inr tt /\ no_write (t_trace (w_st w))) /\
  wp (p9_core_probe core_tree 10 2) (at9 quiet9) (fun r w => r = inr tt).
Proof.
  split_and!.
  - pose proof (wakeup_kept core_on_bus core_tree 10 2 1 core_addr [3; 4]%nat core_idx ∅ 0 half_probed run_away [] dev9_answers eq_refl eq_refl) as [H _].
    apply Forall_cons in H as [H _]. destruct (H core_place9) as [_ Hr].
    eapply wp_mono; [exact (Hr core_hooks)|]. intros r w (-> & st' & d' & d'' & evs & _ & Hs & Hw). split; [done|].
    assert (st' 4%nat = PDBG_TARGET_RELEASED) as E4 by (rewrite (as_status _ _ _ _ _ _ _ Hs); reflexivity).
    by destruct (_ && _), Hw as [-> _].
  - pose proof (wakeup_kept core_on_bus core_tree 10 2 1 core_addr [3; 4]%nat core_idx ∅ 0 all_enabled quiet9 [] dev9_answers eq_refl eq_refl) as [H _].
    apply Forall_cons in H as [H _]. destruct (H core_place9) as [_ Hr].
    eapply wp_mono; [exact (Hr core_hooks)|]. intros r w (-> & st' & d' & d'' & evs & Hnw & Hs & Hw). split; [done|].
    assert (thread_of d' 3%nat = vars9 quiesced_state 3) as E3 by (apply (as_others _ _ _ _ _ _ _ Hs); right; by left).
    cbn [forallb] in Hw. rewrite E3 in Hw. by destruct Hw as [-> _].
  - pose proof (wakeup_kept core_on_bus core_tree 10 2 1 core_addr [3; 4]%nat core_idx ∅ 0 all_enabled quiet9 [] dev9_answers eq_refl eq_refl) as [H _].
    apply Forall_cons in H as [H _]. destruct (H core_place9) as [Hp _].
    eapply wp_mono; [exact (Hp _ eq_refl)|]. by intros r w [-> _].
Defined.

(** ** What goes wrong *)

(** When the status register of a thread cannot be read, the variable that should hold it is
    used all the same. *)
Definition deaf_scom : Scom unit := {| scom_read _ _ e := (e, inl (-1)); scom_write _ _ _ e := (e, 0) |}.

Lemma state_indeterminate : (p9_thread_state (Hw := bus_hardware (Sc := deaf_scom)) core_tree 10 3
  (World ∅ 0%nat (Tgt all_enabled (Chips (vars9 running_state) (fun _ => true) tt) []))).1 = Crash Uninit.
Proof. reflexivity. Qed.

(** This core never answers the request for a special wakeup; probing it succeeds. *)
Lemma wakeup_timeout_ignored : (p9_core_probe core_tree 10 2 (at9 quiet9)).1 = Ret tt.
Proof. vm_compute. reflexivity. Qed.
