(* ===== verification/P8Chip.v ===== *)
(** * libpdbg: the threads and cores of POWER8

    Models libpdbg/p8chip.c: the state of a thread, starting, stopping, stepping and resetting
    it, quiescing its siblings, feeding it instructions, the fields of the XER register, and the
    special wakeup of a core. *)

From S2P Require Import Prelude CMem Target Pib Adu Ram Thread Device Walk Chip.

Definition DIRECT_CONTROLS_REG : Z := 0x0.
Definition DIRECT_CONTROL_SP_SRESET : Z := PPC_BIT 60.
Definition DIRECT_CONTROL_SP_STEP : Z := PPC_BIT 61.
Definition DIRECT_CONTROL_SP_START : Z := PPC_BIT 62.
Definition DIRECT_CONTROL_SP_STOP : Z := PPC_BIT 63.
Definition RAS_MODE_REG : Z := 0x1.
Definition MR_THREAD_IN_DEBUG : Z := PPC_BIT 43.
Definition MR_DO_SINGLE_MODE : Z := PPC_BIT 50.
Definition RAS_STATUS_REG : Z := 0x2.
Definition RAS_STATUS_INST_COMPLETE : Z := PPC_BIT 12.
Definition RAS_STATUS_THREAD_ACTIVE : Z := PPC_BIT 48.
Definition RAS_STATUS_TS_QUIESCE : Z := PPC_BIT 49.
Definition POW_STATUS_REG : Z := 0x4.
Definition PMC_POW_STATE : Z := PPC_BITMASK 4 5.
Definition PMC_POW_SMT : Z := PPC_BITMASK 6 8.
Definition THREAD_ACTIVE_REG : Z := 0x1310e.
Definition SPR_MODE_REG : Z := 0x13281.
Definition SPR_MODE_SPRC_WR_EN : Z := PPC_BIT 3.
Definition SPR_MODE_SPRC_SEL : Z := PPC_BITMASK 16 19.
Definition SPR_MODE_SPRC_T_SEL : Z := PPC_BITMASK 20 27.
Definition L0_SCOM_SPRC_REG : Z := 0x13280.
Definition SCOM_SPRC_SCRATCH_SPR : Z := 0x40.
Definition SCR0_REG : Z := 0x13283.
Definition RAM_MODE_REG : Z := 0x13c00.
Definition RAM_MODE_ENABLE : Z := PPC_BIT 0.
Definition RAM_CTRL_REG : Z := 0x13c01.
Definition RAM_THREAD_SELECT : Z := PPC_BITMASK 0 2.
Definition RAM_INSTR : Z := PPC_BITMASK 3 34.
Definition RAM_STATUS_REG : Z := 0x13c02.
Definition SCOM_EX_GP3 : Z := 0xf0012.
Definition PMSPCWKUPFSP_REG : Z := 0xf010d.
Definition FSP_SPECIAL_WAKEUP : Z := PPC_BIT 0.
Definition EX_PM_GP0_REG : Z := 0xf0100.
Definition SPECIAL_WKUP_DONE : Z := PPC_BIT 31.
Definition HID0_REG : Z := 0x1329c.
Definition RAS_STATUS_TIMEOUT : Z := 100.
Definition SPECIAL_WKUP_TIMEOUT : Z := 10.

(** ** Fields of the XER register *)

Definition MTXERF0_OPCODE : Z := 0x00000008.
Definition MTXERF1_OPCODE : Z := 0x00000108.
Definition MTXERF2_OPCODE : Z := 0x00000208.
Definition MTXERF3_OPCODE : Z := 0x00000308.
Definition MFXERF0_OPCODE : Z := 0x00000010.
Definition MFXERF1_OPCODE : Z := 0x00000110.
Definition MFXERF2_OPCODE : Z := 0x00000210.
Definition MFXERF3_OPCODE : Z := 0x00000310.

(** A register or field that does not exist is only reported. *)
Definition mfxerf (reg field : Z) : Z :=
  if field =? 0 then Z.lor MFXERF0_OPCODE (u64 (Z.shiftl reg 21))
  else if field =? 1 then Z.lor MFXERF1_OPCODE (u64 (Z.shiftl reg 21))
  else if field =? 2 then Z.lor MFXERF2_OPCODE (u64 (Z.shiftl reg 21))
  else if field =? 3 then Z.lor MFXERF3_OPCODE (u64 (Z.shiftl reg 21))
  else 0.

Definition mtxerf (reg field : Z) : Z :=
  if field =? 0 then Z.lor MTXERF0_OPCODE (u64 (Z.shiftl reg 21))
  else if field =? 1 then Z.lor MTXERF1_OPCODE (u64 (Z.shiftl reg 21))
  else if field =? 2 then Z.lor MTXERF2_OPCODE (u64 (Z.shiftl reg 21))
  else if field =? 3 then Z.lor MTXERF3_OPCODE (u64 (Z.shiftl reg 21))
  else 0.

Section P8.
Context {E : Type} {Hw : Hardware (chips E)} (T : dtree) (fuel : nat) (has_offset : nat -> bool) (ps : props).
Abbreviation m := (M (tgt (chips E))).

(** ** The state of a thread *)

(** [switch (GETFIELD(PMC_POW_STATE, val))]; no other value fits into the field. *)
Definition sleep_of (v : Z) : m pdbg_sleep_state :=
  if v =? 0 then mret PDBG_THREAD_STATE_RUN
  else if v =? 1 then mret PDBG_THREAD_STATE_DOZE
  else if v =? 2 then mret PDBG_THREAD_STATE_NAP
  else if v =? 3 then mret PDBG_THREAD_STATE_SLEEP
  else crash AssertFailed.

Definition p8_smt_of (v : Z) : m pdbg_smt_state :=
  if v =? 0 then mret PDBG_SMT_UNKNOWN
  else if v =? 1 then mret PDBG_SMT_1
  else if (v =? 2) || (v =? 3) then mret PDBG_SMT_2
  else if (v =? 4) || (v =? 6) then mret PDBG_SMT_4
  else if (v =? 5) || (v =? 7) then mret PDBG_SMT_8
  else crash AssertFailed.

(** The registers of a thread are at the thread. The values read keep what they were when a
    read fails. *)
Definition p8_thread_state (t : nat) : m thread_state :=
  mode_reg ← read_into None (pib_read T fuel t RAS_MODE_REG);
  mode_reg ← value_of mode_reg;
  unchecked (pib_write T fuel t RAS_MODE_REG (Z.lor mode_reg MR_THREAD_IN_DEBUG));;
  value ← read_into None (pib_read T fuel t RAS_STATUS_REG);
  ras ← value_of value;
  value ← read_into value (pib_read T fuel t POW_STATUS_REG);
  pow ← value_of value;
  sleep ← sleep_of (GETFIELD PMC_POW_STATE pow);
  smt ← p8_smt_of (GETFIELD PMC_POW_SMT pow);
  unchecked (pib_write T fuel t RAS_MODE_REG mode_reg);;
  mret (ThreadState (truthy (Z.land ras RAS_STATUS_THREAD_ACTIVE)) (truthy (Z.land ras RAS_STATUS_TS_QUIESCE)) false false sleep smt).

Definition p8_update_status (t : nat) : m unit := st ← p8_thread_state t; put_status t st.

(** ** Control *)

(** [do { ... } while (!(ras_status & RAS_STATUS_INST_COMPLETE));] *)
Fixpoint p8_step_wait (n : nat) (t : nat) : m unit :=
  match n with
  | O => crash NoFuel
  | S n' =>
      ras_status ← pib_read T fuel t RAS_STATUS_REG;
      if negb (truthy (Z.land ras_status RAS_STATUS_INST_COMPLETE)) then p8_step_wait n' t else mret tt
  end.

Fixpoint p8_step_loop (n : nat) (t : nat) : m unit :=
  match n with
  | O => mret tt
  | S n' =>
      pib_write T fuel t DIRECT_CONTROLS_REG DIRECT_CONTROL_SP_STEP;;
      p8_step_wait fuel t;;
      p8_step_loop n' t
  end.

Definition p8_thread_step (t : nat) (count : Z) : m unit :=
  ras_mode ← pib_read T fuel t RAS_MODE_REG;
  let ras_mode := Z.lor ras_mode MR_DO_SINGLE_MODE in
  pib_write T fuel t RAS_MODE_REG ras_mode;;
  p8_step_loop (Z.to_nat count) t;;
  pib_write T fuel t RAS_MODE_REG (Z.land ras_mode (u64 (Z.lnot MR_DO_SINGLE_MODE))).

(** A timeout leaves the loop. *)
Fixpoint p8_stop_loop (n : nat) (t : nat) (i : Z) : m unit :=
  match n with
  | O => crash NoFuel
  | S n' =>
      val ← pib_read T fuel t RAS_STATUS_REG;
      if RAS_STATUS_TIMEOUT <? i then mret tt else
      if negb (truthy (Z.land val RAS_STATUS_INST_COMPLETE)) && negb (truthy (Z.land val RAS_STATUS_TS_QUIESCE))
      then p8_stop_loop n' t (i + 1) else mret tt
  end.

Definition p8_thread_stop (t : nat) : m unit :=
  pib_write T fuel t DIRECT_CONTROLS_REG DIRECT_CONTROL_SP_STOP;;
  p8_stop_loop 102 t 0;;
  p8_update_status t.

Definition p8_thread_start (t : nat) : m unit :=
  pib_write T fuel t DIRECT_CONTROLS_REG DIRECT_CONTROL_SP_START;;
  p8_update_status t.

(** ** The siblings *)

Definition each_sibling (t : nat) (body : nat -> m unit) : m unit :=
  chip ← require_target_parent T fuel (Some "core"%string) t true;
  for_each_compatible T has_offset ps fuel chip "ibm,power8-thread" body.

(** The return code of starting the sibling is not looked at. *)
Definition unquiesce_one (target : nat) : m unit :=
  st ← pdbg_target_probe T fuel target;
  if negb (bool_decide (st = PDBG_TARGET_ENABLED)) then mret tt else
  tmp ← get_thread target;
  if negb (quiesced (status tmp)) then mret tt else
  if negb (ram_did_quiesce tmp) then mret tt else
  unchecked (p8_thread_start target);;
  put_ram_did_quiesce target false.

Definition p8_ram_unquiesce_siblings (t : nat) : m unit := each_sibling t unquiesce_one.

Definition quiesce_one (target : nat) : m unit :=
  st ← pdbg_target_probe T fuel target;
  if negb (bool_decide (st = PDBG_TARGET_ENABLED)) then mret tt else
  tmp ← get_thread target;
  if quiesced (status tmp) then mret tt else
  p8_thread_stop target;;
  put_ram_did_quiesce target true.

(** The first thread that cannot be stopped ends the loop, and those stopped are started again. *)
Definition p8_ram_quiesce_siblings (t : nat) : m unit :=
  r ← attempt (each_sibling t quiesce_one);
  match r with
  | inr _ => mret tt
  | inl rc => p8_ram_unquiesce_siblings t;; fail rc
  end.

(** ** Feeding instructions *)

Definition p8_require_quiesced (target : nat) : m unit :=
  st ← pdbg_target_probe T fuel target;
  if negb (bool_decide (st = PDBG_TARGET_ENABLED)) then fail 1 else
  tmp ← get_thread target;
  if negb (quiesced (status tmp)) then fail 1 else mret tt.

Definition p8_spr_mode (id : Z) : Z :=
  let val := SPR_MODE_SPRC_WR_EN in
  let val := SETFIELD SPR_MODE_SPRC_SEL val (Z.shiftl 1 (3 - 0)) in
  SETFIELD SPR_MODE_SPRC_T_SEL val (Z.shiftl 1 (7 - id)).

Definition p8_ram_setup (t : nat) : m unit :=
  chip ← require_target_parent T fuel (Some "core"%string) t true;
  th ← get_thread t;
  if ram_set_up th then fail 1 else
  for_each_compatible T has_offset ps fuel chip "ibm,power8-thread" p8_require_quiesced;;
  th ← get_thread t;
  if negb (active (status th)) then fail 2 else
  ram_mode ← pib_read T fuel chip RAM_MODE_REG;
  pib_write T fuel chip RAM_MODE_REG (Z.lor ram_mode RAM_MODE_ENABLE);;
  pib_write T fuel chip SPR_MODE_REG (p8_spr_mode (id th));;
  pib_write T fuel chip L0_SCOM_SPRC_REG SCOM_SPRC_SCRATCH_SPR;;
  put_ram_is_setup t true.

(** [do { ... } while (!((val & PPC_BIT(1)) || ((val & PPC_BIT(2)) && (val & PPC_BIT(3)))));] *)
Definition ram_done (val : Z) : bool :=
  truthy (Z.land val (PPC_BIT 1)) || truthy (Z.land val (PPC_BIT 2)) && truthy (Z.land val (PPC_BIT 3)).

Fixpoint p8_ram_wait (n : nat) (chip : nat) : m Z :=
  match n with
  | O => crash NoFuel
  | S n' =>
      val ← pib_read T fuel chip RAM_STATUS_REG;
      if negb (ram_done val) then p8_ram_wait n' chip else mret val
  end.

Definition p8_ram_ctrl (id opcode : Z) : Z := SETFIELD RAM_INSTR (SETFIELD RAM_THREAD_SELECT 0 id) opcode.

(** The return code and the scratch variable of the caller. *)
Definition p8_ram_instruction (t : nat) (opcode scratch : Z) : m (Z * Z) :=
  chip ← require_target_parent T fuel (Some "core"%string) t true;
  th ← get_thread t;
  if negb (ram_set_up th) then mret (1, scratch) else
  r ← attempt (
    pib_write T fuel chip SCR0_REG scratch;;
    pib_write T fuel chip RAM_CTRL_REG (p8_ram_ctrl (id th) opcode);;
    val ← p8_ram_wait fuel chip;
    if negb (truthy (Z.land val (PPC_BIT 1)))
    then if GETFIELD (PPC_BITMASK 2 3) val =? 0x3 then fail 1 else fail 2
    else pib_read T fuel chip SCR0_REG);
  mret (match r with inl rc => (rc, scratch) | inr v => (0, v) end).

Definition p8_ram_destroy (t : nat) : m unit :=
  chip ← require_target_parent T fuel (Some "core"%string) t true;
  st ← p8_thread_state t;
  th ← get_thread t;
  (if negb (active st) then
     val ← pib_read T fuel chip THREAD_ACTIVE_REG;
     pib_write T fuel chip THREAD_ACTIVE_REG (Z.lor val (Z.shiftr (PPC_BIT 8) (id th)))
   else mret tt);;
  ram_mode ← pib_read T fuel chip RAM_MODE_REG;
  pib_write T fuel chip RAM_MODE_REG (Z.land ram_mode (u64 (Z.lnot RAM_MODE_ENABLE)));;
  put_ram_is_setup t false.

(** The members of [p8_thread] that ramming uses, for one thread. *)
#[local] Instance p8_thread (t : nat) : RamThread (tgt (chips E)) := {|
  ram_is_setup s := ram_set_up (thread_of (t_dev s) t);
  ram_setup := p8_ram_setup t;
  ram_destroy := p8_ram_destroy t;
  ram_instruction := p8_ram_instruction t
|}.

Definition p8_ram_getxer (t : nat) : m Z :=
  results ← ram_instructions (Th := p8_thread t)
    [mfxerf 0 0; mtspr 277 0; mfxerf 0 1; mtspr 277 0; mfxerf 0 2; mtspr 277 0; mfxerf 0 3; mtspr 277 0]
    [0; 0; 0; 0; 0; 0; 0; 0];
  r1 ← array_get results 1;
  r3 ← array_get results 3;
  r5 ← array_get results 5;
  r7 ← array_get results 7;
  mret (Z.lor (Z.lor (Z.lor r1 r3) r5) r7).

Definition p8_ram_putxer (t : nat) (value : Z) : m unit :=
  ram_instructions (Th := p8_thread t) [mfspr 0 277; mtxerf 0 0; mtxerf 0 1; mtxerf 0 2; mtxerf 0 3]
    [value; value; value; value; 0];;
  mret tt.

(** ** Reset *)

Definition HID0_HILE : Z := PPC_BIT 19.
Definition MSR_HV : Z := PPC_BIT 3.
Definition MSR_EE : Z := PPC_BIT 48.
Definition MSR_PR : Z := PPC_BIT 49.
Definition MSR_FE0 : Z := PPC_BIT 52.
Definition MSR_FE1 : Z := PPC_BIT 55.
Definition MSR_IR : Z := PPC_BIT 58.
Definition MSR_DR : Z := PPC_BIT 59.
Definition MSR_RI : Z := PPC_BIT 62.
Definition MSR_LE : Z := PPC_BIT 63.
Definition SPR_SRR0 : Z := 26.
Definition SPR_SRR1 : Z := 27.

Definition p8_get_hid0 (chip : nat) : m Z := pib_read T fuel chip HID0_REG.

Definition sreset_msr (hid0 old_msr : Z) : Z :=
  let mask := Z.lor (Z.lor (Z.lor (Z.lor (Z.lor (Z.lor MSR_PR MSR_IR) MSR_DR) MSR_FE0) MSR_FE1) MSR_EE) MSR_RI in
  let new_msr := Z.lor (Z.land old_msr (u64 (Z.lnot mask))) MSR_HV in
  if truthy (Z.land hid0 HID0_HILE) then Z.lor new_msr MSR_LE else Z.land new_msr (u64 (Z.lnot MSR_LE)).

(** The members of [p8_thread], as the functions of thread.c use them; [sreset] is the one that is
    defined below with the others. *)
Definition p8_members (sreset : option (m unit)) (t : nat) : @thread (chips E) :=
  let th := p8_thread t in
  Thread.Thread (Some (p8_thread_step t)) (Some (p8_thread_start t)) (Some (p8_thread_stop t)) sreset
    (Some (ram_getmem (Th := th))) (Some (ram_getregs (Th := th) (p8_ram_getxer t) ∅))
    (Some (ram_getgpr (Th := th))) (Some (ram_putgpr (Th := th))) (Some (ram_getspr (Th := th))) (Some (ram_putspr (Th := th)))
    None None (Some (ram_getmsr (Th := th))) (Some (ram_putmsr (Th := th))) (Some (ram_getnia (Th := th))) (Some (ram_putnia (Th := th)))
    (Some (p8_ram_getxer t)) (Some (p8_ram_putxer t)) (Some (ram_getcr (Th := th))) (Some (ram_putcr (Th := th))).

(** Only the access to registers is used here. *)
Definition emulate_sreset (t : nat) : m unit :=
  chip ← pdbg_target_parent T fuel (Some "core"%string) t;
  match chip with
  | None => crash OutOfBounds
  | Some chip =>
      hid0 ← p8_get_hid0 chip;
      old_nia ← thread_getnia T (p8_members None) t;
      old_msr ← thread_getmsr T (p8_members None) t;
      thread_putspr T (p8_members None) t SPR_SRR0 old_nia;;
      thread_putspr T (p8_members None) t SPR_SRR1 old_msr;;
      thread_putnia T (p8_members None) t 0x100;;
      thread_putmsr T (p8_members None) t (sreset_msr hid0 old_msr)
  end.

Definition p8_thread_sreset (t : nat) : m unit :=
  th ← get_thread t;
  if negb (active (status th)) then
    pib_write T fuel t DIRECT_CONTROLS_REG DIRECT_CONTROL_SP_SRESET;;
    p8_update_status t
  else
    p8_ram_quiesce_siblings t;;
    r ← attempt (p8_ram_setup t);
    match r with
    | inl rc => p8_ram_unquiesce_siblings t;; fail rc
    | inr _ =>
        r ← attempt (emulate_sreset t);
        unchecked (p8_ram_destroy t);;
        p8_ram_unquiesce_siblings t;;
        match r with inl rc => fail rc | inr _ => p8_thread_start t end
    end.

Definition p8_thread_ops (t : nat) : @thread (chips E) := p8_members (Some (p8_thread_sreset t)) t.

(** ** Probing and releasing *)

Definition p8_thread_probe (t : nat) : m unit :=
  r ← target_address T t;
  put_id t (Z.land (Z.shiftr r 4) 0xf);;
  p8_update_status t.

Definition p8_thread_release : nat -> m unit := release_thread T fuel.

Fixpoint p8_wakeup_loop (n : nat) (chip : nat) (i : Z) : m unit :=
  match n with
  | O => crash NoFuel
  | S n' =>
      gp0 ← pib_read T fuel chip EX_PM_GP0_REG;
      if SPECIAL_WKUP_TIMEOUT <? i then fail (-1) else
      if negb (truthy (Z.land gp0 SPECIAL_WKUP_DONE)) then p8_wakeup_loop n' chip (i + 1) else mret tt
  end.

Definition assert_special_wakeup (chip : nat) : m unit :=
  pib_write T fuel chip PMSPCWKUPFSP_REG FSP_SPECIAL_WAKEUP;;
  p8_wakeup_loop 12 chip 0.

Definition deassert_special_wakeup (chip : nat) : m unit := unchecked (pib_write T fuel chip PMSPCWKUPFSP_REG 0).

(** [if (f(...)) return -1;] *)
Definition or_minus_1 {A} (op : m A) : m A := r ← attempt op; match r with inl _ => fail (-1) | inr a => mret a end.

Definition p8_core_probe (core : nat) : m unit :=
  value ← or_minus_1 (pib_read T fuel core SCOM_EX_GP3);
  if negb (truthy (GETFIELD (PPC_BIT 0) value)) then fail (-1) else
  or_minus_1 (assert_special_wakeup core);;
  set_release_spwkup core true.

Definition p8_core_release (core : nat) : m unit :=
  for_each_target T fuel "thread" core (settle_thread T fuel);;
  s ← get_st;
  if negb (release_spwkup (t_dev s) core) then mret tt else deassert_special_wakeup core.
End P8.
