(* ===== verification/P8Ram.v ===== *)
(** * libpdbg: ramming a POWER8 thread through the registers of its core

    What the ram unit of a POWER8 core does with the registers p8chip.c uses, and the proof that
    the ramming operations of p8chip.c on top of it are a thread that runs instructions. *)

From S2P Require Import Prelude CMem Target Pib TargetFacts Adu Ram RamFacts Device Walk WalkTheorems Chip ChipFacts ChipRam P8Chip.

(** ** The fields of the power management register *)

Lemma getfield_shift w lo v : 0 <= lo -> 0 <= w -> MASK_TO_LSH (Z.shiftl (Z.ones w) lo) = lo ->
  GETFIELD (Z.shiftl (Z.ones w) lo) v = (v / 2 ^ lo) mod 2 ^ w.
Proof.
  intros Hl Hw Em. unfold GETFIELD. rewrite Em, land_ones_shift, Z.shiftr_div_pow2, Z.div_mul by (lia || (apply Z.pow_nonzero; lia)). done.
Qed.

Section State.
Context {E : Type}.

(** The assertions that no other value occurs are never reached. *)
Lemma sleep_of_ok v : exists s, sleep_of (E := E) (GETFIELD PMC_POW_STATE v) = mret s.
Proof.
  change PMC_POW_STATE with (Z.shiftl (Z.ones 2) 58). rewrite getfield_shift by (lia || reflexivity).
  pose proof (Z.mod_pos_bound (v / 2 ^ 58) (2 ^ 2)) as H. set (x := _ mod _) in *. unfold sleep_of.
  destruct (Z.eqb_spec x 0), (Z.eqb_spec x 1), (Z.eqb_spec x 2), (Z.eqb_spec x 3); eauto. lia.
Qed.

Lemma p8_smt_of_ok v : exists s, p8_smt_of (E := E) (GETFIELD PMC_POW_SMT v) = mret s.
Proof.
  change PMC_POW_SMT with (Z.shiftl (Z.ones 3) 55). rewrite getfield_shift by (lia || reflexivity).
  pose proof (Z.mod_pos_bound (v / 2 ^ 55) (2 ^ 3)) as H. set (x := _ mod _) in *. unfold p8_smt_of.
  destruct (Z.eqb_spec x 0); [eauto|]. destruct (Z.eqb_spec x 1); [eauto|].
  destruct (Z.eqb_spec x 2), (Z.eqb_spec x 3); cbn; eauto. destruct (Z.eqb_spec x 4), (Z.eqb_spec x 6); cbn; eauto.
  destruct (Z.eqb_spec x 5), (Z.eqb_spec x 7); cbn; eauto. lia.
Qed.
End State.

(** ** The ram unit *)

Definition mode_regs8 : list Z := [RAM_MODE_REG; SPR_MODE_REG; L0_SCOM_SPRC_REG; THREAD_ACTIVE_REG].

Definition armed8 (i : Z) (u : ram_unit) : bool :=
  Z.testbit (u_mode u RAM_MODE_REG) 63 && (u_mode u SPR_MODE_REG =? p8_spr_mode i) && (u_mode u L0_SCOM_SPRC_REG =? SCOM_SPRC_SCRATCH_SPR).

Section Exec.
Context (load : Z -> option Z) (nia_from_lr : bool) (undef : cpu -> Z).

Definition run_unit8 (op : Z) (u : ram_unit) : ram_unit :=
  match run_word load nia_from_lr undef op (u_cpu u) (u_scratch u) with
  | Some (c, x) => RamUnit c x (u_mode u) true
  | None => RamUnit (u_cpu u) (u_scratch u) (u_mode u) false
  end.

(** The effect of a write to the unit of thread [i]; the word of an instruction is its own
    encoding. *)
Definition unit_write8 (i a x : Z) (u : ram_unit) : option ram_unit :=
  if a =? SCR0_REG then Some (RamUnit (u_cpu u) x (u_mode u) (u_ok u))
  else if a =? RAM_CTRL_REG then
    if armed8 i u && (bits 61 3 x =? i) then Some (run_unit8 (bits 29 32 x) u) else None
  else if bool_decide (a ∈ mode_regs8)
  then Some (RamUnit (u_cpu u) (u_scratch u) (fun r => if r =? a then x else u_mode u r) (u_ok u))
  else None.
End Exec.

Lemma ram_ctrl_fields8 id op : 0 <= id < 8 -> 0 <= op < 2 ^ 32 ->
  bits 61 3 (p8_ram_ctrl id op) = id /\ bits 29 32 (p8_ram_ctrl id op) = op.
Proof.
  intros Hi Ho. assert (p8_ram_ctrl id op = id * 2 ^ 61 + op * 2 ^ 29) as ->.
  { unfold p8_ram_ctrl, RAM_INSTR, RAM_THREAD_SELECT. change (PPC_BITMASK 0 2) with (Z.shiftl (Z.ones 3) 61).
    change (PPC_BITMASK 3 34) with (Z.shiftl (Z.ones 32) 29). change 0 with (Z.shiftl 0 (61 + 3)) at 1.
    rewrite setfield_shift by (lia || reflexivity). rewrite Z.mul_0_l, Z.add_0_l.
    replace (id * 2 ^ 61) with (Z.shiftl id (29 + 32)) at 1 by (apply Z.shiftl_mul_pow2; lia).
    rewrite setfield_shift by (lia || reflexivity). lia. }
  unfold bits. rewrite !Z.shiftr_div_pow2, !Z.land_ones by lia. split; Z.to_euclidean_division_equations; lia.
Qed.

(** Every instruction that is rammed is one word of 32 bits. *)
Definition word32 (op : Z) : bool := (0 <=? op) && (op <? 2 ^ 32).

Lemma rammed_word op : rammed op -> word32 op = true.
Proof.
  intros (ins & Hu & ->). destruct ins; cbn [used encode] in *.
  - destruct Hu as [Hr Hs]. revert spr Hs. apply (all_below (fun s => word32 (mfspr rt s)) 1024). revert rt Hr.
    apply (all_below (fun r => forallb (fun s => word32 (mfspr r s)) (seqZ 0 1024)) 32). vm_compute. reflexivity.
  - destruct Hu as [Hr Hs]. revert spr Hs. apply (all_below (fun s => word32 (mtspr s rs)) 1024). revert rs Hr.
    apply (all_below (fun r => forallb (fun s => word32 (mtspr s r)) (seqZ 0 1024)) 32). vm_compute. reflexivity.
  - destruct Hu as [-> (k & Hk & ->)]. rewrite Z.log2_pow2 by lia. revert k Hk. apply (all_below (fun k => word32 (mfocrf 0 k)) 8). vm_compute. reflexivity.
  - destruct Hu as [-> (k & Hk & ->)]. rewrite Z.log2_pow2 by lia. revert k Hk. apply (all_below (fun k => word32 (mtocrf k 0)) 8). vm_compute. reflexivity.
  - by subst.
  - by subst.
  - by subst.
  - by subst.
  - by destruct Hu as (-> & -> & ->).
Qed.

(** ** A core with such a unit behind the bus *)

Section Ready.
Context {E : Type} {Sc : Scom E} {Hw : Hardware (chips E)} {Ob : OnBus E} (T : dtree) (fuel : nat) (has_offset : nat -> bool) (ps : props).
Context (core P : nat) (f g : Z -> Z) (t : nat) (i : Z) (load : Z -> option Z) (nia_from_lr : bool) (undef : cpu -> Z).
Context (unit_of : E -> ram_unit) (steady : E -> Prop) (ts : list nat).
Implicit Types (d : chips E) (h : gmap nat (list mval)) (n : nat) (st : nat -> pdbg_target_status) (tr : list tevent).

Abbreviation waiting := (fun v => negb (ram_done v)).

(** The registers of the core are at [f], those of the thread at [g]. While the core is steady,
    its accesses succeed; an instruction is done after fewer looks than there is fuel. *)
Class RamCore8 : Prop := {
  r8_write a x e u : steady e -> unit_write8 load nia_from_lr undef i a x (unit_of e) = Some u ->
    exists e', scom_write P (f a) x e = (e', 0) /\ steady e' /\ unit_of e' = u;
  r8_mode a e : a ∈ [RAM_MODE_REG; THREAD_ACTIVE_REG] -> steady e ->
    exists e', scom_read P (f a) e = (e', inr (u_mode (unit_of e) a)) /\ steady e' /\ unit_of e' = unit_of e;
  r8_status e : steady e -> exists k v e', settles P f RAM_STATUS_REG waiting e k v e' /\ (k < fuel)%nat /\ steady e' /\
    unit_of e' = unit_of e /\ truthy (Z.land v (PPC_BIT 1)) = u_ok (unit_of e);
  r8_scratch e : steady e -> exists e', scom_read P (f SCR0_REG) e = (e', inr (u_scratch (unit_of e))) /\ steady e' /\ unit_of e' = unit_of e;
  r8_thread_read a e : a ∈ [RAS_MODE_REG; RAS_STATUS_REG; POW_STATUS_REG] -> steady e ->
    exists e' v, scom_read P (g a) e = (e', inr v) /\ steady e' /\ unit_of e' = unit_of e;
  r8_thread_write x e : steady e -> steady (scom_write P (g RAS_MODE_REG) x e).1 /\
    unit_of (scom_write P (g RAS_MODE_REG) x e).1 = unit_of e
}.

Record ram_place8 : Prop := {
  p8_at : core_at (E := E) T fuel core P f;
  p8_thread_at : core_at (E := E) T fuel t P g;
  p8_in : in_core (E := E) T fuel t core;
  p8_threads (body : nat -> M (tgt (chips E)) unit) w :
    for_each_compatible T has_offset ps fuel core "ibm,power8-thread" body w = run_list body ts w;
  p8_id : 0 <= i < 8;
  p8_fuel : (0 < fuel)%nat
}.

Context (Hpl : ram_place8) {RC : RamCore8}.

(** All threads of the core are enabled and known to be quiesced, this one is active, the core is
    steady, and prepared when the thread is marked as set up. *)
Definition ready8 (s : tgt (chips E)) : Prop :=
  t_status s P = PDBG_TARGET_ENABLED /\ steady (chip_dev (t_dev s)) /\ id (thread_of (t_dev s) t) = i /\
  active (status (thread_of (t_dev s) t)) = true /\
  (forall u, u ∈ ts -> t_status s u = PDBG_TARGET_ENABLED /\ quiesced (status (thread_of (t_dev s) u)) = true) /\
  (ram_set_up (thread_of (t_dev s) t) = true -> armed8 i (unit_of (chip_dev (t_dev s))) = true).

Lemma wp_write8 a x u h n st d tr (Q : Z + unit -> world (tgt (chips E)) -> Prop) :
  st P = PDBG_TARGET_ENABLED -> steady (chip_dev d) -> 0 <= a < 2 ^ 20 ->
  unit_write8 load nia_from_lr undef i a x (unit_of (chip_dev d)) = Some u ->
  (forall e, steady e -> unit_of e = u -> Q (inr tt) (World h n (Tgt st (set_dev e d) (tr ++ [EvWrite P (f a) x])))) ->
  wp (pib_write T fuel core a x) (World h n (Tgt st d tr)) Q.
Proof.
  intros HP Hs Ha Hu HQ. destruct (r8_write _ _ _ _ Hs Hu) as (e & Ee & Hs' & Hu'). unfold wp.
  rewrite (pib_write_at T fuel core P f (p8_at Hpl)) by done. rewrite Ee. cbn. by apply HQ.
Qed.

Lemma wp_read8 k c a v e h n st d tr (Q : Z + Z -> world (tgt (chips E)) -> Prop) : core_at (E := E) T fuel c P k ->
  st P = PDBG_TARGET_ENABLED -> 0 <= a < 2 ^ 20 -> scom_read P (k a) (chip_dev d) = (e, inr v) ->
  Q (inr v) (World h n (Tgt st (set_dev e d) (tr ++ [EvRead P (k a)]))) ->
  wp (pib_read T fuel c a) (World h n (Tgt st d tr)) Q.
Proof. intros Hc HP Ha Ee HQ. unfold wp. rewrite (pib_read_at T fuel c P k Hc) by done. by rewrite Ee. Qed.

Lemma wp_ram_wait e k v e' : settles P f RAM_STATUS_REG waiting e k v e' -> forall j h n st d tr (Q : Z + Z -> world (tgt (chips E)) -> Prop),
  st P = PDBG_TARGET_ENABLED -> chip_dev d = e -> (k < j)%nat ->
  (forall tr', Q (inr v) (World h n (Tgt st (set_dev e' d) tr'))) ->
  wp (p8_ram_wait T fuel j core) (World h n (Tgt st d tr)) Q.
Proof.
  induction 1 as [e v e' E1 Hg|e x e1 k v e' E1 Hg H IH]; intros j h n st d tr Q HP Hd Hj HQ; (destruct j as [|j]; [lia|]); cbn [p8_ram_wait];
    apply wp_bind; (eapply wp_read8; [apply (p8_at Hpl)|done|done|by rewrite Hd|]); cbn beta iota; rewrite Hg.
  - apply wp_ret, HQ.
  - eapply IH; [done|done|lia|]. intros tr'. apply HQ.
Qed.

Lemma wp_ram_one8 op x h n s : ready8 s -> ram_set_up (thread_of (t_dev s) t) = true -> word32 op = true ->
  wp (p8_ram_instruction T fuel t op x) (World h n s) (fun r w => exists s', w = World h n s' /\
    ready8 s' /\ ram_set_up (thread_of (t_dev s') t) = true /\
    match run_word load nia_from_lr undef op (view_of unit_of s) x with
    | Some (c', x') => r = inr (0, x') /\ view_of unit_of s' = c'
    | None => (exists rc x', rc <> 0 /\ r = inr (rc, x')) /\ view_of unit_of s' = view_of unit_of s
    end).
Proof.
  destruct s as [st d tr]. intros (HP & Hs & Hi & Hac & Hq & Har) Hset Hw32. cbn in HP, Hs, Hi, Hac, Hq, Har, Hset.
  apply andb_true_iff in Hw32 as [Hw0%Z.leb_le Hw1%Z.ltb_lt]. specialize (Har Hset).
  unfold p8_ram_instruction. apply wp_bind. unfold wp at 1. rewrite (p8_in Hpl). apply wp_bind, wp_bind, wp_get_st, wp_ret. cbn [t_dev].
  rewrite Hset, Hi. cbn [negb]. apply wp_bind, wp_attempt, wp_bind.
  eapply wp_write8; [done|done|done|reflexivity|]. intros e1 Hs1 Hu1. apply wp_bind.
  destruct (ram_ctrl_fields8 i op (p8_id Hpl) (conj Hw0 Hw1)) as [F1 F2].
  assert (unit_write8 load nia_from_lr undef i RAM_CTRL_REG (p8_ram_ctrl i op) (unit_of e1) = Some (run_unit8 load nia_from_lr undef op (unit_of e1))) as Hctrl.
  { unfold unit_write8. cbn [Z.eqb RAM_CTRL_REG SCR0_REG Pos.eqb]. rewrite F1, F2, Z.eqb_refl, Hu1.
    by replace (armed8 i _) with true by (symmetry; exact Har). }
  eapply (wp_write8 _ _ _ _ _ _ (set_dev e1 d)); [done|done|done|exact Hctrl|]. intros e2 Hs2 Hu2. apply wp_bind.
  destruct (r8_status e2 Hs2) as (k & v & e3 & Hset3 & Hk & Hs3 & Hu3 & Hv).
  eapply wp_ram_wait; [exact Hset3|done|done|done|]. intros tr'. rewrite Hu1 in Hu2. unfold run_unit8 in Hu2. cbn [u_cpu u_scratch u_mode] in Hu2.
  unfold view_of. cbn [t_dev]. rewrite Hv, Hu2. destruct (run_word load nia_from_lr undef op (u_cpu (unit_of (chip_dev d))) x) as [[c x']|]; cbn [u_ok negb].
  - destruct (r8_scratch e3 Hs3) as (e4 & E4 & Hs4 & Hu4).
    eapply wp_read8; [apply (p8_at Hpl)|done|done|exact E4|]. apply wp_ret. eexists. split; [reflexivity|]. unfold ready8. cbn.
    rewrite Hu4, Hu3, Hu2. by split_and!.
  - assert (exists rc, rc <> 0 /\ (if GETFIELD (PPC_BITMASK 2 3) v =? 3 then fail 1 else fail 2) = fail (S := tgt (chips E)) (A := Z) rc) as (rc & Hrc & ->).
    { destruct (_ =? 3); [by exists 1|by exists 2]. }
    apply wp_fail, wp_ret. eexists. split; [reflexivity|]. unfold ready8. cbn. rewrite Hu3, Hu2. split_and!; try done. by exists rc, x.
Qed.

(** ** Preparing the core *)

Lemma wp_all_quiesced8 us h n st d tr (Q : Z + unit -> world (tgt (chips E)) -> Prop) :
  (forall u, u ∈ us -> st u = PDBG_TARGET_ENABLED /\ quiesced (status (thread_of d u)) = true) ->
  Q (inr tt) (World h n (Tgt st d tr)) ->
  wp (run_list (p8_require_quiesced T fuel) us) (World h n (Tgt st d tr)) Q.
Proof.
  intros Hq HQ. induction us as [|u us IH]; [by apply wp_ret|]. cbn [run_list]. apply wp_bind. unfold p8_require_quiesced.
  destruct (Hq u ltac:(left)) as [Hu1 Hu2]. pose proof (p8_fuel Hpl) as Hfu. destruct fuel as [|fuel'] eqn:Ef; [lia|].
  apply wp_bind. cbn [pdbg_target_probe]. apply wp_bind, wp_bind, wp_get_st, wp_ret. cbn [t_status]. rewrite Hu1.
  apply wp_bind, wp_assert; [done|]. rewrite bool_decide_eq_true_2 by (do 2 right; left). apply wp_ret.
  apply wp_bind, wp_bind, wp_get_st, wp_ret. cbn [t_dev]. rewrite Hu2. apply wp_ret. apply IH. intros u' Hu'. apply Hq. by right.
Qed.

Lemma wp_setup8 h n s : ready8 s -> ram_set_up (thread_of (t_dev s) t) = false ->
  wp (p8_ram_setup T fuel has_offset ps t) (World h n s) (fun r w => exists s', w = World h n s' /\ r = inr tt /\
    ready8 s' /\ ram_set_up (thread_of (t_dev s') t) = true /\ view_of unit_of s' = view_of unit_of s).
Proof.
  destruct s as [st d tr]. intros (HP & Hs & Hi & Hac & Hq & _) Hset. cbn in HP, Hs, Hi, Hac, Hq, Hset.
  unfold p8_ram_setup. apply wp_bind. unfold wp at 1. rewrite (p8_in Hpl). apply wp_bind, wp_bind, wp_get_st, wp_ret.
  cbn [t_dev]. rewrite Hset. apply wp_bind. eapply wp_eq; [apply (p8_threads Hpl)|]. apply wp_all_quiesced8; [done|].
  apply wp_bind, wp_bind, wp_get_st, wp_ret. cbn [t_dev]. rewrite Hac, Hi. cbn [negb].
  apply wp_bind. destruct (r8_mode RAM_MODE_REG (chip_dev d)) as (e1 & E1 & Hs1 & U1); [by left|done|].
  eapply wp_read8; [apply (p8_at Hpl)|done|done|exact E1|].
  apply wp_bind. eapply wp_write8; [done|exact Hs1|done|reflexivity|]. intros e2 Hs2 U2.
  apply wp_bind. eapply wp_write8; [done|exact Hs2|done|reflexivity|]. intros e3 Hs3 U3.
  apply wp_bind. eapply wp_write8; [done|exact Hs3|done|reflexivity|]. intros e4 Hs4 U4.
  apply wp_bind, wp_bind, wp_get_st, wp_ret. apply wp_put_thread. intros d'' (Hf1 & Hf2 & Hf3 & _).
  eexists. split; [reflexivity|]. split; [done|]. unfold ready8, view_of. cbn in *. rewrite Hf1, Hf2. cbn. rewrite U4, U3, U2, U1. cbn.
  split_and!; try done.
  - intros u Hu. split; [by apply Hq|]. destruct (decide (u = t)) as [->|Hne]; [rewrite Hf2; by apply (Hq t)|]. rewrite Hf3 by done. by apply Hq.
  - intros _. unfold armed8. cbn [u_mode].
    change (RAM_MODE_REG =? L0_SCOM_SPRC_REG) with false. change (RAM_MODE_REG =? SPR_MODE_REG) with false.
    change (SPR_MODE_REG =? L0_SCOM_SPRC_REG) with false. rewrite !Z.eqb_refl, Z.lor_spec.
    change (Z.testbit RAM_MODE_ENABLE 63) with true. by rewrite orb_true_r.
Qed.

(** Looking at the thread puts the mode register back. *)
Lemma wp_state8 h n st d tr (Q : Z + thread_state -> world (tgt (chips E)) -> Prop) :
  st P = PDBG_TARGET_ENABLED -> steady (chip_dev d) ->
  (forall s e tr', steady e -> unit_of e = unit_of (chip_dev d) -> Q (inr s) (World h n (Tgt st (set_dev e d) tr'))) ->
  wp (p8_thread_state T fuel t) (World h n (Tgt st d tr)) Q.
Proof.
  intros HP Hs HQ. unfold p8_thread_state.
  assert (forall a d tr (Q : Z + mval -> world (tgt (chips E)) -> Prop) old, a ∈ [RAS_MODE_REG; RAS_STATUS_REG; POW_STATUS_REG] -> steady (chip_dev d) ->
    (forall v e, steady e -> unit_of e = unit_of (chip_dev d) -> Q (inr (Some v)) (World h n (Tgt st (set_dev e d) (tr ++ [EvRead P (g a)])))) ->
    wp (read_into old (pib_read T fuel t a)) (World h n (Tgt st d tr)) Q) as Hread.
  { intros a d0 tr0 Q0 old Ha Hs0 H0. destruct (r8_thread_read a _ Ha Hs0) as (e' & v & E1 & Hs1 & U1). unfold read_into. apply wp_bind, wp_attempt.
    eapply wp_read8; [apply (p8_thread_at Hpl)|done| |exact E1|by apply wp_ret, H0].
    rewrite !elem_of_cons, elem_of_nil in Ha. unfold RAS_MODE_REG, RAS_STATUS_REG, POW_STATUS_REG in Ha. lia. }
  assert (forall x d tr (Q : Z + unit -> world (tgt (chips E)) -> Prop), steady (chip_dev d) ->
    (forall e tr', steady e -> unit_of e = unit_of (chip_dev d) -> Q (inr tt) (World h n (Tgt st (set_dev e d) tr'))) ->
    wp (unchecked (pib_write T fuel t RAS_MODE_REG x)) (World h n (Tgt st d tr)) Q) as Hwrite.
  { intros x d0 tr0 Q0 Hs0 H0. unfold unchecked. apply wp_bind, wp_attempt. unfold wp at 1.
    rewrite (pib_write_at T fuel t P g (p8_thread_at Hpl)) by done. destruct (r8_thread_write x _ Hs0) as [Hs1 U1].
    destruct (truthy _); apply wp_ret, H0; done. }
  apply wp_bind, Hread; [by left|done|]. intros v1 e1 Hs1 U1. apply wp_bind, wp_ret. apply wp_bind, Hwrite; [done|]. intros e2 tr2 Hs2 U2.
  apply wp_bind, Hread; [by right; left|done|]. intros v3 e3 Hs3 U3. apply wp_bind, wp_ret.
  apply wp_bind, Hread; [by do 2 right; left|done|]. intros v4 e4 Hs4 U4. apply wp_bind, wp_ret.
  destruct (sleep_of_ok (E := E) v4) as [sl ->]. apply wp_bind, wp_ret. destruct (p8_smt_of_ok (E := E) v4) as [sm ->]. apply wp_bind, wp_ret.
  apply wp_bind, Hwrite; [done|]. intros e5 tr5 Hs5 U5. apply wp_ret, HQ; [done|]. cbn in *. congruence.
Qed.

Lemma wp_destroy8 h n s : ready8 s -> ram_set_up (thread_of (t_dev s) t) = true ->
  wp (p8_ram_destroy T fuel t) (World h n s) (fun r w => exists s', w = World h n s' /\ r = inr tt /\
    ready8 s' /\ ram_set_up (thread_of (t_dev s') t) = false /\ view_of unit_of s' = view_of unit_of s).
Proof.
  destruct s as [st d tr]. intros (HP & Hs & Hi & Hac & Hq & _) Hset. cbn in HP, Hs, Hi, Hac, Hq, Hset.
  unfold p8_ram_destroy. apply wp_bind. unfold wp at 1. rewrite (p8_in Hpl). apply wp_bind, wp_state8; [done|done|]. intros s e tr1 Hs1 U1.
  apply wp_bind, wp_bind, wp_get_st, wp_ret. apply wp_bind. cbn [t_dev set_dev thread_of].
  assert (forall Q : Z + unit -> world (tgt (chips E)) -> Prop,
    (forall e' tr', steady e' -> u_cpu (unit_of e') = u_cpu (unit_of (chip_dev d)) -> Q (inr tt) (World h n (Tgt st (set_dev e' d) tr'))) ->
    wp (if negb (active s) then val ← pib_read T fuel core THREAD_ACTIVE_REG;
          pib_write T fuel core THREAD_ACTIVE_REG (Z.lor val (Z.shiftr (PPC_BIT 8) (id (thread_of d t)))) else mret tt)
       (World h n (Tgt st (set_dev e d) tr1)) Q) as Hact.
  { intros Q HQ. destruct (negb (active s)); [|apply wp_ret, HQ; congruence].
    apply wp_bind. destruct (r8_mode THREAD_ACTIVE_REG e) as (e2 & E2 & Hs2 & U2); [by right; left|done|].
    eapply wp_read8; [apply (p8_at Hpl)|done|done|exact E2|].
    eapply wp_write8; [done|exact Hs2|done|reflexivity|]. intros e3 Hs3 U3. apply HQ; [done|]. rewrite U3. cbn. congruence. }
  apply Hact. intros e2 tr2 Hs2 U2. apply wp_bind.
  destruct (r8_mode RAM_MODE_REG e2) as (e3 & E3 & Hs3 & U3); [by left|done|]. eapply wp_read8; [apply (p8_at Hpl)|done|done|exact E3|].
  apply wp_bind. eapply wp_write8; [done|exact Hs3|done|reflexivity|]. intros e4 Hs4 U4.
  apply wp_bind, wp_bind, wp_get_st, wp_ret. apply wp_put_thread. intros d'' (Hf1 & Hf2 & Hf3 & _).
  eexists. split; [reflexivity|]. split; [done|]. unfold ready8, view_of. cbn in *. rewrite Hf1, Hf2. cbn. rewrite U4. cbn. rewrite U3, U2.
  split_and!; try done.
  intros u Hu. split; [by apply Hq|]. destruct (decide (u = t)) as [->|Hne]; [rewrite Hf2; by apply (Hq t)|]. rewrite Hf3 by done. by apply Hq.
Qed.

(** The members of a POWER8 thread are a thread that runs instructions. *)
#[export] Instance p8_runs : RunsInstructions (Th := p8_thread T fuel has_offset ps t) (view_of unit_of) ready8 load nia_from_lr undef.
Proof.
  split.
  - intros op x h n s Hr Hset Hop. cbn [ram_instruction p8_thread ram_is_setup] in *. apply wp_ram_one8; [done|done|by apply rammed_word].
  - intros h n s Hr Hset. by apply wp_setup8.
  - intros h n s Hr Hset. by apply wp_destroy8.
Qed.
End Ready.
