(* ===== verification/Sprs.v ===== *)
(** * libpdbg: names of special registers

    Models libpdbg/sprs.c: the table of the registers with the numbers of libpdbg/sprs.h, and
    the searches in it. *)

From Stdlib Require Import Ascii String.
From S2P Require Import Prelude.

Definition spr_map : list (string * Z) :=
  [("XER", 1); ("DSCR_RU", 3); ("LR", 8); ("CTR", 9); ("UAMR", 13); ("DSCR", 17); ("DSISR", 18); ("DAR", 19);
   ("DEC", 22); ("SDR1", 25); ("SRR0", 26); ("SRR1", 27); ("CFAR", 28); ("AMR", 29); ("PIDR", 48); ("IAMR", 61);
   ("TFHAR", 128); ("TFIAR", 129); ("TEXASR", 130); ("TEXASRU", 131); ("CTRL_RU", 136); ("TIDR", 144); ("CTRL", 152);
   ("FSCR", 153); ("UAMOR", 157); ("GSR", 158); ("PSPB", 159); ("DPDES", 176); ("DAWR0", 180); ("RPR", 186);
   ("CIABR", 187); ("DAWRX0", 188); ("HFSCR", 190); ("VRSAVE", 256); ("SPRG3_RU", 259); ("TB", 268); ("TBU_RU", 269);
   ("SPRG0", 272); ("SPRG1", 273); ("SPRG2", 274); ("SPRG3", 275); ("SPRC", 276); ("SPRD", 277); ("CIR", 283);
   ("TBL", 284); ("TBU", 285); ("TBU40", 286); ("PVR", 287); ("HSPRG0", 304); ("HSPRG1", 305); ("HDSISR", 306);
   ("HDAR", 307); ("SPURR", 308); ("PURR", 309); ("HDEC", 310); ("HRMOR", 313); ("HSRR0", 314); ("HSRR1", 315);
   ("TFMR", 317); ("LPCR", 318); ("LPIDR", 319); ("HMER", 336); ("HMEER", 337); ("PCR", 338); ("HEIR", 339);
   ("AMOR", 349); ("TIR", 446); ("PTCR", 464); ("USPRG0", 496); ("USPRG1", 497); ("UDAR", 499); ("SEIDR", 504);
   ("URMOR", 505); ("USRR0", 506); ("USRR1", 507); ("UEIR", 509); ("ACMCR", 510); ("SMFCTRL", 511); ("SIER_RU", 768);
   ("MMCR2_RU", 769); ("MMCRA_RU", 770); ("PMC1_RU", 771); ("PMC2_RU", 772); ("PMC3_RU", 773); ("PMC4_RU", 774);
   ("PMC5_RU", 775); ("PMC6_RU", 776); ("MMCR0_RU", 779); ("SIAR_RU", 780); ("SDAR_RU", 781); ("MMCR1_RU", 782);
   ("SIER", 784); ("MMCR2", 785); ("MMCRA", 786); ("PMC1", 787); ("PMC2", 788); ("PMC3", 789); ("PMC4", 790);
   ("PMC5", 791); ("PMC6", 792); ("MMCR0", 795); ("SIAR", 796); ("SDAR", 797); ("MMCR1", 798); ("IMC", 799);
   ("BESCRS", 800); ("BESCRSU", 801); ("BESCRR", 802); ("BESCRRU", 803); ("EBBHR", 804); ("EBBRR", 805);
   ("BESCR", 806); ("LMRR", 813); ("LMSER", 814); ("TAR", 815); ("ASDR", 816); ("PSSCR_SU", 823); ("IC", 848);
   ("VTB", 849); ("LDBAR", 850); ("MMCRC", 851); ("PMSR", 853); ("PMMAR", 854); ("PSSCR", 855); ("L2QOSR", 861);
   ("WORC", 863); ("TRIG0", 880); ("TRIG1", 881); ("TRIG2", 882); ("PMCR", 884); ("RWMR", 885); ("WORT", 895);
   ("PPR", 896); ("PPR32", 898); ("TSCR", 921); ("TTR", 922); ("TRACE", 1006); ("HID", 1008); ("PIR", 1023);
   ("NIA", 2000); ("MSR", 2001); ("CR", 2002); ("FPSCR", 2003); ("VSCR", 2004); ("SLBE", 2005); ("SLBV", 2006)].

(** [strcasecmp] compares without regard to the case of letters. *)
Definition lower_char (c : ascii) : ascii :=
  let n := Ascii.nat_of_ascii c in
  if (65 <=? n)%nat && (n <=? 90)%nat then Ascii.ascii_of_nat (n + 32) else c.
Fixpoint lower (s : string) : string :=
  match s with
  | EmptyString => EmptyString
  | String c s' => String (lower_char c) (lower s')
  end.
Definition strcasecmp (a b : string) : bool := negb (String.eqb (lower a) (lower b)).

Fixpoint spr_by_name_from (l : list (string * Z)) (name : string) : Z :=
  match l with
  | [] => -1
  | (n, id) :: l' => if negb (strcasecmp n name) then id else spr_by_name_from l' name
  end.
Definition pdbg_spr_by_name (name : string) : Z := spr_by_name_from spr_map name.

Fixpoint spr_by_id_from (l : list (string * Z)) (spr : Z) : option string :=
  match l with
  | [] => None
  | (n, id) :: l' => if id =? spr then Some n else spr_by_id_from l' spr
  end.
Definition pdbg_spr_by_id (spr : Z) : option string := spr_by_id_from spr_map spr.

(** ** Names and numbers belong together *)

Lemma by_id_in l spr n : spr_by_id_from l spr = Some n -> (n, spr) ∈ l.
Proof.
  induction l as [|[m id] l IH]; cbn; [done|]. destruct (Z.eqb_spec id spr) as [->|]; [intros [= ->]; by left|right; by apply IH].
Qed.

Lemma by_name_in l name : spr_by_name_from l name <> -1 -> exists m, lower m = lower name /\ (m, spr_by_name_from l name) ∈ l.
Proof.
  induction l as [|[m id] l IH]; cbn; [done|]. unfold strcasecmp. destruct (String.eqb_spec (lower m) (lower name)) as [E|]; cbn.
  - intros _. exists m. split; [done|by left].
  - intros H. destruct (IH H) as (k & E & Hin). exists k. split; [done|by right].
Qed.

(** Every register of the table is found by its name and by its number. *)
Lemma map_searched : Forall (fun p => pdbg_spr_by_name p.1 = p.2 /\ pdbg_spr_by_id p.2 = Some p.1 /\ p.2 <> -1) spr_map.
Proof. apply (bool_decide_eq_true_1 _). vm_compute. reflexivity. Qed.

Lemma by_name_lower l a b : lower a = lower b -> spr_by_name_from l a = spr_by_name_from l b.
Proof. intros E. induction l as [|[m id] l IH]; cbn; [done|]. unfold strcasecmp. by rewrite E, IH. Qed.

(** The number of a name and the name of a number are inverse to each other, and the case of
    the letters of a name does not matter. *)
Theorem spr_names_roundtrip :
  (forall spr n, pdbg_spr_by_id spr = Some n -> pdbg_spr_by_name n = spr) /\
  (forall name, pdbg_spr_by_name name <> -1 ->
     exists n, lower n = lower name /\ pdbg_spr_by_id (pdbg_spr_by_name name) = Some n) /\
  (forall a b, lower a = lower b -> pdbg_spr_by_name a = pdbg_spr_by_name b).
Proof.
  pose proof map_searched as H. rewrite Forall_forall in H. split_and!.
  - intros spr n E. apply by_id_in in E. by destruct (H _ E).
  - intros name Hn. destruct (by_name_in spr_map name Hn) as (n & El & Hin). exists n. split; [done|]. by destruct (H _ Hin) as (_ & ? & _).
  - intros a b. apply by_name_lower.
Qed.
