(* ===== verification/Bits.v ===== *)
(** * Numbers as lists of bits, the highest first *)

From S2P Require Import Prelude.

(** The [n] bits of a number from bit [hi] down, and the number that bits stand for. *)
Fixpoint bits_down (n : nat) (hi v : Z) : list bool :=
  match n with
  | O => []
  | S n' => Z.testbit v hi :: bits_down n' (hi - 1) v
  end.
Definition bits_val (bits : list bool) : Z := foldl (fun v b => 2 * v + Z.b2z b) 0 bits.

Lemma length_bits_down n hi v : length (bits_down n hi v) = n.
Proof. revert hi. induction n as [|n IH]; intros hi; [done|]. cbn. by rewrite IH. Qed.

Lemma bits_down_app n m hi v : bits_down (n + m) hi v = bits_down n hi v ++ bits_down m (hi - Z.of_nat n) v.
Proof.
  revert hi. induction n as [|n IH]; intros hi; cbn [Nat.add bits_down app]; [f_equal; lia|].
  f_equal. rewrite IH. do 2 f_equal. lia.
Qed.

Lemma bits_down_ext n hi hi' v v' :
  (forall j, 0 <= j < Z.of_nat n -> Z.testbit v (hi - j) = Z.testbit v' (hi' - j)) -> bits_down n hi v = bits_down n hi' v'.
Proof.
  revert hi hi'. induction n as [|n IH]; intros hi hi' H; [done|]. cbn. f_equal.
  - specialize (H 0). rewrite !Z.sub_0_r in H. apply H. lia.
  - apply IH. intros j Hj. specialize (H (j + 1)). rewrite !Z.sub_add_distr in H.
    replace (hi - 1 - j) with (hi - j - 1) by lia. replace (hi' - 1 - j) with (hi' - j - 1) by lia. apply H. lia.
Qed.

Lemma bits_val_snoc bits b : bits_val (bits ++ [b]) = 2 * bits_val bits + Z.b2z b.
Proof. unfold bits_val. by rewrite foldl_app. Qed.

Lemma bits_val_down n v : bits_val (bits_down n (Z.of_nat n - 1) v) = v mod 2 ^ Z.of_nat n.
Proof.
  revert v. induction n as [|n IH]; intros v; [cbn; by rewrite Z.mod_1_r|].
  replace (bits_down (S n) (Z.of_nat (S n) - 1) v) with (bits_down n (Z.of_nat n - 1) (v / 2) ++ [Z.testbit v 0]).
  - rewrite bits_val_snoc, IH, Z.bit0_mod, Nat2Z.inj_succ, Z.pow_succ_r by lia.
    rewrite Z.rem_mul_r by lia. lia.
  - replace (S n) with (n + 1)%nat by lia. rewrite bits_down_app. f_equal; [|cbn [bits_down]; f_equal; f_equal; lia].
    apply bits_down_ext. intros j Hj. rewrite Z.div2_bits by lia. f_equal. lia.
Qed.

Lemma bits_val_fold v bits : foldl (fun v b => 2 * v + Z.b2z b) v bits = v * 2 ^ Z.of_nat (length bits) + bits_val bits.
Proof.
  unfold bits_val. revert v. induction bits as [|b bits IH]; intros v; [cbn; lia|]. cbn [foldl length].
  rewrite IH, (IH (2 * 0 + Z.b2z b)), Nat2Z.inj_succ, Z.pow_succ_r by lia. ring.
Qed.

Lemma bits_val_app l1 l2 : bits_val (l1 ++ l2) = bits_val l1 * 2 ^ Z.of_nat (length l2) + bits_val l2.
Proof. unfold bits_val at 1. rewrite foldl_app. apply bits_val_fold. Qed.

Lemma bits_val_range bits : 0 <= bits_val bits < 2 ^ Z.of_nat (length bits).
Proof.
  induction bits as [|b bits IH] using rev_ind; [done|]. rewrite bits_val_snoc, length_app, Nat2Z.inj_add, Z.pow_add_r by lia.
  destruct b; cbn [Z.b2z length] in *; lia.
Qed.
