(* ===== verification/Fsi.v ===== *)
(** * libpdbg: FSI by bit banging

    Models libpdbg/bmcfsi.c: a master for the FSI bus made of GPIO pins of the BMC. Messages are
    sent bit by bit, with a start bit and a checksum; answers are read the same way. The GPIO
    block is a parameter of the model, as reads and writes of its 32-bit registers; delays are
    left out. *)

From S2P Require Import Prelude CMem.

Definition GPIO_DATA : Z := 0x0.
Definition GPIO_DIR : Z := 0x4.
Definition CRC_LEN : Z := 4.
Definition PPC_BIT32 (b : Z) : Z := Z.shiftr 0x80000000 b.

Record gpio_pin := GpioPin { offset : Z; bit : Z }.

Inductive gpio := GPIO_FSI_CLK | GPIO_FSI_DAT | GPIO_FSI_DAT_EN | GPIO_FSI_ENABLE | GPIO_CRONUS_SEL.

#[export] Instance gpio_eq_dec : EqDecision gpio.
Proof. solve_decision. Defined.

Definition FSI_MERR_TIMEOUT : Z := -2.
Definition FSI_MERR_C : Z := -1.
Definition FSI_ACK : Z := 0.
Definition FSI_BUSY : Z := 1.
Definition FSI_ERR_A : Z := 2.
Definition FSI_ERR_C : Z := 3.

(** ** Messages *)

Definition crc4 (c b : Z) : Z :=
  let c := Z.land c 0xf in
  let m := u8 (Z.lxor b (Z.land (Z.shiftr c 3) 0x1)) in
  let m := u8 (Z.lor (Z.lor (Z.shiftl m 2) (Z.shiftl m 1)) m) in
  let c := u8 (Z.shiftl c 1) in
  let c := Z.lxor c m in
  Z.land c 0xf.

(** [read] is 1 for a read and 0 for a write. *)
Definition fsi_abs_ar (addr read : Z) : Z :=
  let slave_id := Z.land (Z.shiftr addr 21) 0x3 in
  let addr := u32 (Z.shiftl (Z.lor (Z.land addr 0x1ffc00) (u32 (Z.shiftl (Z.land addr 0x3ff) 2))) 1) in
  let addr := Z.lor addr 0x3 in
  let addr := Z.lor addr (u32 (Z.shiftl slave_id 26)) in
  u32 (Z.lor addr (Z.shiftl (Z.lor 0x8 read) 22)).

Definition fsi_d_poll (slave_id : Z) : Z := Z.lor (Z.shiftl slave_id 3) 0x2.

(** The registers of the GPIO block, by their offset from its base. *)
Class Gpio (D : Type) := {
  gpio_readl : Z -> D -> Z;
  gpio_writel : Z -> Z -> D -> D
}.

Section Fsi.
Context {D : Type} {G : Gpio D} (gpio_pins : gpio -> gpio_pin).

Definition readl (addr : Z) : M D Z := s ← get_st; mret (gpio_readl addr s).
Definition writel (val addr : Z) : M D unit := s ← get_st; put_st (gpio_writel val addr s).

(** ** Pins *)

Definition get_direction (p : gpio) : M D Z :=
  let pin := gpio_pins p in
  x ← readl (offset pin + GPIO_DIR);
  mret (if truthy (Z.land x (Z.shiftl 1 (bit pin))) then 1 else 0).

Definition set_direction_out (p : gpio) : M D unit :=
  let pin := gpio_pins p in
  x ← readl (offset pin + GPIO_DIR);
  writel (u32 (Z.lor x (Z.shiftl 1 (bit pin)))) (offset pin + GPIO_DIR).

Definition set_direction_in (p : gpio) : M D unit :=
  let pin := gpio_pins p in
  x ← readl (offset pin + GPIO_DIR);
  writel (u32 (Z.land x (Z.lnot (Z.shiftl 1 (bit pin))))) (offset pin + GPIO_DIR).

Definition read_gpio (p : gpio) : M D Z :=
  let pin := gpio_pins p in
  x ← readl (offset pin + GPIO_DATA);
  mret (Z.land (Z.shiftr x (bit pin)) 0x1).

Definition write_gpio (p : gpio) (val : Z) : M D unit :=
  let pin := gpio_pins p in
  x ← readl (offset pin + GPIO_DATA);
  writel (u32 (if truthy val then Z.lor x (Z.shiftl 1 (bit pin)) else Z.land x (Z.lnot (Z.shiftl 1 (bit pin)))))
         (offset pin + GPIO_DATA).

Fixpoint clock_cycle (p : gpio) (num_clks : nat) : M D unit :=
  match num_clks with
  | O => mret tt
  | Datatypes.S n => write_gpio p 0;; write_gpio p 1;; clock_cycle p n
  end.

Definition FSI_CLK := GPIO_FSI_CLK.
Definition FSI_DAT := GPIO_FSI_DAT.
Definition FSI_DAT_EN := GPIO_FSI_DAT_EN.
Definition FSI_ENABLE := GPIO_FSI_ENABLE.
Definition CRONUS_SEL := GPIO_CRONUS_SEL.

Definition fsi_read_bit : M D Z :=
  x ← read_gpio FSI_DAT;
  clock_cycle FSI_CLK 1;;
  mret (if truthy (Z.land x 1) then 0 else 1).

Definition fsi_send_bit (b : Z) : M D unit :=
  write_gpio FSI_DAT (if truthy b then 0 else 1);;
  clock_cycle FSI_CLK 1.

Definition fsi_break : M D unit :=
  set_direction_out FSI_CLK;;
  set_direction_out FSI_DAT;;
  write_gpio FSI_DAT_EN 1;;
  write_gpio FSI_CLK 1;;
  write_gpio FSI_DAT 1;;
  write_gpio FSI_DAT 0;;
  clock_cycle FSI_CLK 256.

(** ** Sending and receiving *)

(** [n] rounds of the loop over the bits of the message, from bit [i] down *)
Fixpoint send_bits (n : nat) (i seq crc : Z) : M D Z :=
  match n with
  | O => mret crc
  | Datatypes.S n' =>
      let b := Z.land seq (Z.shiftl 1 i) in
      let crc := crc4 crc (if truthy b then 1 else 0) in
      fsi_send_bit b;;
      send_bits n' (i - 1) seq crc
  end.

Fixpoint send_crc (n : nat) (i crc : Z) : M D unit :=
  match n with
  | O => mret tt
  | Datatypes.S n' => fsi_send_bit (Z.land crc (Z.shiftl 1 i));; send_crc n' (i - 1) crc
  end.

Definition fsi_send_seq (seq : Z) (len : nat) : M D unit :=
  set_direction_out FSI_CLK;;
  set_direction_out FSI_DAT;;
  write_gpio FSI_DAT_EN 1;;
  write_gpio FSI_DAT 1;;
  clock_cycle FSI_CLK 50;;
  write_gpio FSI_DAT 0;;
  clock_cycle FSI_CLK 1;;
  crc ← send_bits len 63 seq (crc4 0 1);
  send_crc 4 3 crc;;
  write_gpio FSI_CLK 0.

(** Whether the start bit came within [n] bits. *)
Fixpoint wait_start (n : nat) : M D bool :=
  match n with
  | O => mret false
  | Datatypes.S n' =>
      x ← fsi_read_bit;
      if truthy x then mret true else wait_start n'
  end.

Fixpoint read_ack (n : nat) (ack crc : Z) : M D (Z * Z) :=
  match n with
  | O => mret (ack, crc)
  | Datatypes.S n' =>
      let ack := u8 (Z.shiftl ack 1) in
      b ← fsi_read_bit;
      let ack := Z.lor ack b in
      read_ack n' ack (crc4 crc (Z.land ack 0x1))
  end.

Fixpoint read_bits (n : nat) (resp crc : Z) : M D (Z * Z) :=
  match n with
  | O => mret (resp, crc)
  | Datatypes.S n' =>
      let resp := u64 (Z.shiftl resp 1) in
      b ← fsi_read_bit;
      let resp := Z.lor resp b in
      read_bits n' resp (crc4 crc (Z.land resp 0x1))
  end.

(** The result code, and what [*result] is set to, if it is set. *)
Definition fsi_read_resp (len : Z) : M D (Z * option Z) :=
  write_gpio FSI_DAT_EN 0;;
  set_direction_in FSI_DAT;;
  started ← wait_start 512;
  if negb started then mret (FSI_MERR_TIMEOUT, None) else
  '(ack, crc) ← read_ack 4 0 (crc4 0 1);
  let len := if negb (ack =? FSI_ACK) then 7 else len in
  '(resp, crc) ← read_bits (Z.to_nat (len + CRC_LEN - 4)) 0 crc;
  if negb (crc =? 0) then mret (FSI_MERR_C, None) else
  write_gpio FSI_CLK 0;;
  mret (Z.land ack 0x3, Some (Z.shiftr resp 4)).

(** [n] rounds of the loop; [rc] and [resp] as they are left by the round before. *)
Fixpoint poll_loop (n : nat) (slave_id len rc : Z) (resp : mval) : M D (Z * mval) :=
  match n with
  | O => mret (rc, resp)
  | Datatypes.S n' =>
      let seq := u64 (Z.shiftl (fsi_d_poll slave_id) 59) in
      fsi_send_seq seq 5;;
      '(rc, r) ← fsi_read_resp len;
      let resp := match r with Some v => Some v | None => resp end in
      if negb (rc =? FSI_BUSY) then mret (rc, resp) else poll_loop n' slave_id len rc resp
  end.

Definition fsi_d_poll_wait (slave_id len : Z) (resp : mval) : M D (Z * mval) :=
  poll_loop 512 slave_id len FSI_BUSY resp.

(** ** Access to the CFAM *)

(** The return code, and the value, which is indeterminate when no answer came. *)
Definition fsi_getcfam (addr : Z) : M D (Z * mval) :=
  let seq := u64 (Z.shiftl (fsi_abs_ar addr 1) 36) in
  fsi_send_seq seq 28;;
  '(rc, resp) ← fsi_read_resp 36;
  '(rc, resp) ← (if rc =? FSI_BUSY then fsi_d_poll_wait 0 36 resp else mret (rc, resp));
  let rc := if negb (rc =? FSI_ACK) then -1 else rc in
  mret (rc, (fun r => Z.land r 0xffffffff) <$> resp).

Definition fsi_putcfam (addr data : Z) : M D Z :=
  let seq := u64 (Z.shiftl (fsi_abs_ar addr 0) 36) in
  let seq := Z.lor seq (Z.shiftl (Z.land data 0xffffffff) 4) in
  fsi_send_seq seq 60;;
  '(rc, resp) ← fsi_read_resp 4;
  '(rc, resp) ← (if rc =? FSI_BUSY then fsi_d_poll_wait 0 4 resp else mret (rc, resp));
  mret (if negb (rc =? FSI_ACK) then rc else 0).

Definition fsi_reset : M D unit :=
  fsi_break;;
  '(_, val) ← fsi_getcfam 0x800;
  match val with
  | Some val =>
      fsi_putcfam 0x800 (Z.land val (u32 (Z.lnot (Z.lor (PPC_BIT32 6) (PPC_BIT32 7)))));;
      mret tt
  | None => crash Uninit
  end.

Definition fsi_destroy : M D unit :=
  set_direction_out FSI_CLK;;
  set_direction_out FSI_DAT;;
  write_gpio FSI_DAT_EN 1;;
  write_gpio FSI_CLK 1;;
  write_gpio FSI_DAT 1;;
  clock_cycle FSI_CLK 5000;;
  write_gpio FSI_DAT_EN 0;;
  write_gpio FSI_CLK 0;;
  write_gpio FSI_ENABLE 0;;
  write_gpio CRONUS_SEL 0.

(** What the first probe does once the registers are mapped. *)
Definition bmcfsi_init : M D unit :=
  set_direction_out CRONUS_SEL;;
  set_direction_out FSI_ENABLE;;
  set_direction_out FSI_DAT_EN;;
  write_gpio FSI_ENABLE 1;;
  write_gpio CRONUS_SEL 1;;
  fsi_reset.
End Fsi.
