(* ===== verification/FsiFacts.v ===== *)
(** * FSI: frames are sent and read bit by bit *)

From S2P Require Import Prelude CMem Bits Fsi.

(** ** The FSI bus, as the master sees it

    What a GPIO block does with its registers, what a slave on the bus does at each clock, the
    frames that messages are sent in, and what a slave promises that answers them. *)

(** ** Frames *)

(** The checksum after some bits. *)
Definition crc_of (c : Z) (bits : list bool) : Z := foldl (fun c b => crc4 c (Z.b2z b)) c bits.

Definition nibble (c : Z) : list bool := [Z.testbit c 3; Z.testbit c 2; Z.testbit c 1; Z.testbit c 0].

(** A start bit, the message and its checksum. *)
Definition frame (msg : list bool) : list bool := true :: msg ++ nibble (crc_of 0 (true :: msg)).

(** The messages: slave, command, address of 19 bits and word size; for a write, the data. *)
Definition abs_ar_msg (slave read a : Z) : list bool :=
  bits_down 2 1 slave ++ [true; false; false] ++ bits_down 1 0 read ++ bits_down 19 18 a ++ [false; true; true].
Definition read_msg (a : Z) : list bool := abs_ar_msg 0 1 a.
Definition write_msg (a v : Z) : list bool := abs_ar_msg 0 0 a ++ bits_down 32 31 v.
Definition poll_msg : list bool := [false; false; false; true; false].

(** The answers of slave 0: an acknowledgement with its data, or busy. *)
Definition ack_answer (data : list bool) : list bool := frame ([false; false; false; false] ++ data).
Definition busy_answer : list bool := frame [false; false; false; true] ++ [false; false; false].

(** Where a word address of the CFAM is on the bus. *)
Definition bus_addr (addr : Z) : Z := Z.lor (Z.shiftr (Z.land addr 0x1ffc00) 2) (Z.land addr 0x3ff).

(** ** A slave *)

(** The level it puts on the data line, and its next state after a clock, given the level of
    the line while the master drives it. *)
Class Slave (X : Type) := {
  drives : X -> bool;
  clocked : option bool -> X -> X
}.

Section Bus.
Context {X : Type} {Sl : Slave X}.

(** The bus is active low. *)
Definition hear (bits : list bool) (x : X) : X := foldl (fun x b => clocked (Some (negb b)) x) x bits.

Fixpoint says (bits : list bool) (x : X) : option X :=
  match bits with
  | [] => Some x
  | b :: bits' => if bool_decide (drives x = negb b) then says bits' (clocked None x) else None
  end.

(** A master that sends [msg] and gets the bits [answer] after some bits of silence. *)
Definition exchange (x : X) (msg answer : list bool) (x' : X) : Prop :=
  exists k, (k < 512)%nat /\ says (replicate k false ++ answer) (hear (replicate 50 false ++ frame msg) x) = Some x'.

(** The slave with the number 0 has registers of 32 bits. It may answer busy at first, and
    keeps the acknowledgement for a later poll. *)
Class CfamSlave := {
  quiet : X -> Prop;                            (* it is between two exchanges *)
  cregs : X -> Z -> Z;
  pending : X -> option (nat * list bool);      (* an answer after so many more times busy *)
  delay : X -> nat;                             (* how often it is busy before its next answer *)
  cregs_range x a : in_range 32 (cregs x a);
  delay_bounded x : (delay x <= 512)%nat;

  (** A command is carried out, and acknowledged now or later. *)
  serves_read x a : quiet x -> pending x = None -> in_range 19 a ->
    exists x', exchange x (read_msg a) (match delay x with O => ack_answer (bits_down 32 31 (cregs x a)) | S _ => busy_answer end) x' /\
      quiet x' /\ (forall a', cregs x' a' = cregs x a') /\
      pending x' = match delay x with O => None | S n => Some (n, bits_down 32 31 (cregs x a)) end;
  serves_write x a v : quiet x -> pending x = None -> in_range 19 a -> in_range 32 v ->
    exists x', exchange x (write_msg a v) (match delay x with O => ack_answer [] | S _ => busy_answer end) x' /\
      quiet x' /\ (forall a', cregs x' a' = if a' =? a then v else cregs x a') /\
      pending x' = match delay x with O => None | S n => Some (n, []) end;
  serves_poll x n data : quiet x -> pending x = Some (n, data) ->
    exists x', exchange x poll_msg (match n with O => ack_answer data | S _ => busy_answer end) x' /\
      quiet x' /\ (forall a', cregs x' a' = cregs x a') /\
      pending x' = match n with O => None | S n' => Some (n', data) end
}.

(** The slave waits for a command. *)
Definition waiting `{CfamSlave} (x : X) : Prop := quiet x /\ pending x = None.
End Bus.

(** ** The GPIO block *)

Section Block.
Context {D X : Type} {G : Gpio D} {Sl : Slave X} (gpio_pins : gpio -> gpio_pin).

(** The value last written for each pin, which pins are outputs, and the slave. *)
Record wire := Wire { latch : gpio -> bool; out : gpio -> bool; slave : X }.

(** The level that is read: the data line is driven by the slave when it is an input; nothing
    is known of other inputs. *)
Definition level (w : wire) (p : gpio) (b : bool) : Prop :=
  if out w p then b = latch w p else p = FSI_DAT -> b = drives (slave w).

(** What the slave gets to see of the master: the data line is driven while it is an output
    and the driver is enabled. *)
Definition driven (w : wire) : option bool := if out w FSI_DAT && latch w FSI_DAT_EN then Some (latch w FSI_DAT) else None.

(** A clock is a write that raises the clock pin. *)
Definition rises (w w' : wire) : bool := out w FSI_CLK && negb (latch w FSI_CLK) && latch w' FSI_CLK.

Class GpioBlock := {
  view : D -> wire;
  pins_distinct p q : offset (gpio_pins p) = offset (gpio_pins q) -> bit (gpio_pins p) = bit (gpio_pins q) -> p = q;
  pins_bits p : 0 <= bit (gpio_pins p) < 32;
  read_range a d : in_range 32 (gpio_readl a d);
  read_data d p : level (view d) p (Z.testbit (gpio_readl (offset (gpio_pins p) + GPIO_DATA) d) (bit (gpio_pins p)));
  read_dir d p : Z.testbit (gpio_readl (offset (gpio_pins p) + GPIO_DIR) d) (bit (gpio_pins p)) = out (view d) p;
  (** A write of a data register sets the pins of that register. *)
  write_data_latch d p v q :
    latch (view (gpio_writel v (offset (gpio_pins p) + GPIO_DATA) d)) q =
    if offset (gpio_pins q) =? offset (gpio_pins p) then Z.testbit v (bit (gpio_pins q)) else latch (view d) q;
  write_data_out d p v q : out (view (gpio_writel v (offset (gpio_pins p) + GPIO_DATA) d)) q = out (view d) q;
  write_data_slave d p v :
    let d' := gpio_writel v (offset (gpio_pins p) + GPIO_DATA) d in
    slave (view d') = if rises (view d) (view d') then clocked (driven (view d')) (slave (view d)) else slave (view d);
  (** A write of a direction register does not touch the levels. *)
  write_dir_latch d p v q : latch (view (gpio_writel v (offset (gpio_pins p) + GPIO_DIR) d)) q = latch (view d) q;
  write_dir_out d p v q :
    out (view (gpio_writel v (offset (gpio_pins p) + GPIO_DIR) d)) q =
    if offset (gpio_pins q) =? offset (gpio_pins p) then Z.testbit v (bit (gpio_pins q)) else out (view d) q;
  write_dir_slave d p v : slave (view (gpio_writel v (offset (gpio_pins p) + GPIO_DIR) d)) = slave (view d)
}.
End Block.
Arguments wire : clear implicits.
Arguments view {D X G Sl gpio_pins GpioBlock}.
Arguments pins_distinct {D X G Sl gpio_pins GpioBlock}.
Arguments pins_bits {D X G Sl gpio_pins GpioBlock}.
Arguments read_range {D X G Sl gpio_pins GpioBlock}.
Arguments read_data {D X G Sl gpio_pins GpioBlock}.
Arguments read_dir {D X G Sl gpio_pins GpioBlock}.
Arguments write_data_latch {D X G Sl gpio_pins GpioBlock}.
Arguments write_data_out {D X G Sl gpio_pins GpioBlock}.
Arguments write_data_slave {D X G Sl gpio_pins GpioBlock}.
Arguments write_dir_latch {D X G Sl gpio_pins GpioBlock}.
Arguments write_dir_out {D X G Sl gpio_pins GpioBlock}.
Arguments write_dir_slave {D X G Sl gpio_pins GpioBlock}.

(** ** FSI: checksums and messages *)

(** ** The checksum *)

(** A statement on four bits holds when it holds for all sixteen values. *)
Lemma for_nibbles (P : Z -> bool) : forallb P (seqZ 0 16) = true -> forall c, 0 <= c < 16 -> P c = true.
Proof. intros H c Hc. rewrite forallb_forall in H. apply H, list_elem_of_In, elem_of_seqZ. lia. Qed.

Lemma crc4_range c b : 0 <= crc4 c b < 16.
Proof.
  unfold crc4. cbv zeta. match goal with |- 0 <= Z.land ?a 0xf < 16 => change 0xf with (Z.ones 4); rewrite (Z.land_ones a) by lia end.
  apply Z.mod_pos_bound. lia.
Qed.

Lemma crc_of_range c bits : 0 <= c < 16 -> 0 <= crc_of c bits < 16.
Proof. unfold crc_of. revert c. induction bits as [|b bits IH]; intros c Hc; [done|]. apply IH, crc4_range. Qed.

Lemma crc_of_app c l1 l2 : crc_of c (l1 ++ l2) = crc_of (crc_of c l1) l2.
Proof. apply foldl_app. Qed.

Lemma crc_nibble c : 0 <= c < 16 -> crc_of c (nibble c) = 0.
Proof. intros Hc. apply Z.eqb_eq. revert c Hc. apply for_nibbles. vm_compute. reflexivity. Qed.

(** A frame leaves the checksum 0, and so do zeros after it. *)
Lemma crc_frame msg : crc_of 0 (frame msg) = 0.
Proof.
  unfold frame. rewrite app_comm_cons, crc_of_app. apply crc_nibble, crc_of_range. lia.
Qed.

Lemma crc_silence n : crc_of 0 (replicate n false) = 0.
Proof. induction n as [|n IH]; [done|exact IH]. Qed.

Definition parity (bits : list bool) : bool := foldr xorb false bits.

Lemma parity_app l1 l2 : parity (l1 ++ l2) = xorb (parity l1) (parity l2).
Proof. unfold parity. induction l1 as [|b l1 IH]; cbn; [by destruct (foldr xorb false l2)|]. by rewrite IH, xorb_assoc. Qed.

Lemma parity_crc4 c b : 0 <= c < 16 -> parity (nibble (crc4 c (Z.b2z b))) = xorb (parity (nibble c)) b.
Proof.
  intros Hc. apply Bool.eqb_prop. revert c Hc. apply (for_nibbles (fun c => Bool.eqb (parity (nibble (crc4 c (Z.b2z b)))) (xorb (parity (nibble c)) b))).
  destruct b; vm_compute; reflexivity.
Qed.

(** The checksum has the parity of the bits it is of. *)
Lemma parity_crc_of c bits : 0 <= c < 16 -> parity (nibble (crc_of c bits)) = xorb (parity (nibble c)) (parity bits).
Proof.
  unfold crc_of. revert c. induction bits as [|b bits IH]; intros c Hc; [cbn [foldl parity foldr]; by rewrite xorb_false_r|].
  cbn [foldl]. rewrite IH, parity_crc4 by (apply crc4_range || done). unfold parity at 4. cbn [foldr]. apply xorb_assoc.
Qed.

(** Bits that leave the checksum 0 have an even number of ones. *)
Lemma crc_even bits : crc_of 0 bits = 0 -> parity bits = false.
Proof. intros H. pose proof (parity_crc_of 0 bits) as P. rewrite H in P. symmetry. apply P. lia. Qed.

(** ** Messages *)

Lemma testbit_wrap w v i : 0 <= w -> Z.testbit (wrap w v) i = (i <? w) && Z.testbit v i.
Proof.
  intros Hw. unfold wrap. destruct (Z.ltb_spec i w).
  - destruct (Z.leb_spec 0 i); [by rewrite Z.mod_pow2_bits_low by lia|by rewrite !Z.testbit_neg_r by lia].
  - by rewrite Z.mod_pow2_bits_high by lia.
Qed.

Lemma testbit_shiftl v n i : 0 <= n -> Z.testbit (Z.shiftl v n) i = Z.testbit v (i - n).
Proof. intros Hn. destruct (Z.leb_spec 0 i); [by rewrite Z.shiftl_spec by lia|by rewrite !Z.testbit_neg_r by lia]. Qed.

Lemma testbit_ones' n i : 0 <= n -> Z.testbit (Z.ones n) i = (0 <=? i) && (i <? n).
Proof. intros Hn. by rewrite Z.testbit_ones by lia. Qed.

(** [solve_bits]: an equality of bits that follows from where they are. *)
Ltac solve_bits :=
  repeat match goal with
  | |- context [?a <=? ?b] => destruct (Z.leb_spec a b); try lia
  | |- context [?a <? ?b] => destruct (Z.ltb_spec a b); try lia
  | |- context [?a =? ?b] => destruct (Z.eqb_spec a b); try lia
  end; rewrite ?andb_true_r, ?andb_false_r, ?orb_true_r, ?orb_false_r; cbn [andb orb negb]; try done.

Lemma bits_down_shift n hi v k : 0 <= k -> Z.of_nat n <= hi + 1 -> hi + k < 64 ->
  bits_down n (hi + k) (u64 (Z.shiftl v k)) = bits_down n hi v.
Proof.
  intros Hk Hn Hh. apply bits_down_ext. intros j Hj. rewrite testbit_wrap by lia.
  destruct (Z.ltb_spec (hi + k - j) 64); [|lia]. cbn [andb]. rewrite testbit_shiftl by lia. f_equal. lia.
Qed.

Section AbsAr.
Context (addr r : Z) (Ha : in_range 21 addr) (Hr : in_range 1 r).

Lemma abs_ar_form : fsi_abs_ar addr r =
  u32 (Z.lor (Z.lor (u32 (Z.shiftl (Z.lor (Z.land addr (Z.shiftl (Z.ones 11) 10)) (u32 (Z.shiftl (Z.land addr (Z.ones 10)) 2))) 1))
                    (Z.shiftl (Z.ones 2) 0))
             (Z.lor (Z.shiftl (Z.ones 1) 25) (Z.shiftl r 22))).
Proof.
  unfold fsi_abs_ar. replace (Z.shiftr addr 21) with 0 by (rewrite Z.shiftr_div_pow2, Z.div_small by (lia || exact Ha); done).
  change (Z.land 0 3) with 0. rewrite Z.shiftl_0_l. change (u32 0) with 0. rewrite Z.lor_0_r.
  rewrite (Z.shiftl_lor 8 r). reflexivity.
Qed.

Lemma r_bit i : Z.testbit r i = (i =? 0) && Z.testbit r 0.
Proof.
  destruct (Z.leb_spec 0 i); [|rewrite Z.testbit_neg_r by lia; solve_bits].
  assert (r = 0 \/ r = 1) as [-> | ->] by (unfold in_range in Hr; lia); [by rewrite !Z.testbit_0_l, andb_false_r|].
  change 1 with (2 ^ 0). rewrite !Z.pow2_bits_eqb by lia. rewrite Z.eqb_sym. by destruct (i =? 0).
Qed.

Lemma abs_ar_bit i : 0 <= i < 32 -> Z.testbit (fsi_abs_ar addr r) i =
  (i <? 2) || (i =? 25) || ((i =? 22) && Z.testbit r 0) ||
  (Z.testbit addr (i - 1) && (11 <=? i) && (i <? 22)) || (Z.testbit addr (i - 3) && (3 <=? i) && (i <? 13)).
Proof.
  intros Hi. rewrite abs_ar_form.
  rewrite testbit_wrap, !Z.lor_spec, testbit_wrap, !testbit_shiftl, !Z.lor_spec, !Z.land_spec, testbit_wrap, !testbit_shiftl,
    !Z.land_spec, !testbit_ones', (r_bit (i - 22)) by lia.
  replace (i - 1 - 2) with (i - 3) by lia. generalize (Z.testbit addr), (Z.testbit r). intros f g. solve_bits.
Qed.

Lemma abs_ar_bits : bits_down 28 63 (u64 (Z.shiftl (fsi_abs_ar addr r) 36)) = abs_ar_msg 0 r (bus_addr addr).
Proof.
  change 63 with (27 + 36). rewrite bits_down_shift by lia. unfold abs_ar_msg.
  rewrite (bits_down_app 2 26), (bits_down_app 3 23), (bits_down_app 1 22), (bits_down_app 19 3).
  f_equal; [|f_equal; [|f_equal; [|f_equal]]].
  - apply bits_down_ext. intros j Hj. rewrite abs_ar_bit, Z.testbit_0_l by lia. solve_bits.
  - cbn [bits_down]. rewrite !abs_ar_bit by lia. solve_bits.
  - cbn [bits_down]. rewrite !abs_ar_bit by lia. f_equal. solve_bits.
  - apply bits_down_ext. intros j Hj. rewrite abs_ar_bit by lia. unfold bus_addr.
    change 0x1ffc00 with (Z.shiftl (Z.ones 11) 10). change 0x3ff with (Z.ones 10).
    rewrite Z.lor_spec, Z.shiftr_spec, !Z.land_spec, testbit_shiftl, !testbit_ones' by lia.
    cbn [Z.of_nat]. change (Z.of_nat 2) with 2. change (Z.of_nat 3) with 3. change (Z.of_nat 1) with 1.
    replace (27 - 2 - 3 - 1 - j - 1) with (18 - j + 2) by lia. replace (27 - 2 - 3 - 1 - j - 3) with (18 - j) by lia.
    generalize (Z.testbit addr). intros f. solve_bits.
  - cbn [bits_down]. rewrite !abs_ar_bit by lia. solve_bits.
Qed.
End AbsAr.

Lemma bus_addr_range addr : in_range 21 addr -> in_range 19 (bus_addr addr).
Proof.
  intros Ha. enough (wrap 19 (bus_addr addr) = bus_addr addr) as <- by (apply wrap_range; lia).
  apply Z.bits_inj'. intros i Hi. unfold bus_addr. change 0x1ffc00 with (Z.shiftl (Z.ones 11) 10). change 0x3ff with (Z.ones 10).
  rewrite testbit_wrap, Z.lor_spec, Z.shiftr_spec, !Z.land_spec, testbit_shiftl, !testbit_ones' by lia.
  generalize (Z.testbit addr). intros f. solve_bits.
Qed.

(** ** FSI: pins, clocks and single bits

    On a GPIO block that works as described, the operations of bmcfsi.c on its registers change
    the pins they name and no others, and the slave is clocked once for each cycle. *)

Lemma testbit_set x b i : 0 <= b < 32 -> 0 <= i < 32 ->
  Z.testbit (u32 (Z.lor x (Z.shiftl 1 b))) i = (i =? b) || Z.testbit x i.
Proof.
  intros Hb Hi. rewrite testbit_wrap, Z.lor_spec, testbit_shiftl by lia. change 1 with (Z.ones 1) at 1.
  rewrite testbit_ones' by lia. generalize (Z.testbit x). intros f. solve_bits.
Qed.

Lemma testbit_clear x b i : 0 <= b < 32 -> 0 <= i < 32 ->
  Z.testbit (u32 (Z.land x (Z.lnot (Z.shiftl 1 b)))) i = negb (i =? b) && Z.testbit x i.
Proof.
  intros Hb Hi. rewrite testbit_wrap, Z.land_spec, Z.lnot_spec, testbit_shiftl by lia. change 1 with (Z.ones 1) at 1.
  rewrite testbit_ones' by lia. generalize (Z.testbit x). intros f. solve_bits.
Qed.

Section Pins.
Context {D X : Type} {G : Gpio D} {Sl : Slave X} (gpio_pins : gpio -> gpio_pin) {GB : GpioBlock (X := X) gpio_pins}.
Context (h : gmap nat (list mval)) (n : nat).
Implicit Types (d : D) (x : X) (Q : Z + unit -> world D -> Prop).
Abbreviation at_ d := (World h n d).

Lemma wp_readl a d (Q : Z + Z -> world D -> Prop) : Q (inr (gpio_readl a d)) (at_ d) -> wp (readl a) (at_ d) Q.
Proof. intros H. apply wp_bind, wp_get_st, wp_ret, H. Qed.

Lemma wp_writel v a d Q : Q (inr tt) (at_ (gpio_writel v a d)) -> wp (writel v a) (at_ d) Q.
Proof. intros H. apply wp_bind, wp_get_st, wp_put_st, H. Qed.

(** The pins of the same register are told apart by their bits. *)
Lemma same_register p q : offset (gpio_pins q) = offset (gpio_pins p) ->
  (bit (gpio_pins q) =? bit (gpio_pins p)) = bool_decide (q = p).
Proof.
  intros E. destruct (Z.eqb_spec (bit (gpio_pins q)) (bit (gpio_pins p))) as [Eb|Eb]; case_bool_decide as Eq; try done.
  - by destruct Eq; eapply pins_distinct.
  - by subst.
Qed.

Lemma wp_write_gpio p v d Q :
  (forall d', (forall q, out (view d') q = out (view d) q) -> latch (view d') p = truthy v ->
     (forall q, q <> p -> out (view d) q = true -> latch (view d') q = latch (view d) q) ->
     slave (view d') = (if rises (view d) (view d') then clocked (driven (view d')) (slave (view d)) else slave (view d)) ->
     Q (inr tt) (at_ d')) ->
  wp (write_gpio gpio_pins p v) (at_ d) Q.
Proof.
  intros HQ. unfold write_gpio. apply wp_bind, wp_readl, wp_writel.
  set (x := gpio_readl (offset (gpio_pins p) + GPIO_DATA) d).
  assert (forall q, offset (gpio_pins q) = offset (gpio_pins p) ->
    Z.testbit (u32 (if truthy v then Z.lor x (Z.shiftl 1 (bit (gpio_pins p))) else Z.land x (Z.lnot (Z.shiftl 1 (bit (gpio_pins p))))))
      (bit (gpio_pins q)) = if bool_decide (q = p) then truthy v else Z.testbit x (bit (gpio_pins q))) as Hx.
  { intros q Eq. pose proof (pins_bits p). pose proof (pins_bits q).
    destruct (truthy v); rewrite ?testbit_set, ?testbit_clear, same_register by done; by case_bool_decide. }
  apply HQ; [intros q; apply write_data_out| | |apply write_data_slave].
  - rewrite write_data_latch, Z.eqb_refl, Hx by done. by rewrite bool_decide_eq_true_2.
  - intros q Hne Ho. rewrite write_data_latch. destruct (Z.eqb_spec (offset (gpio_pins q)) (offset (gpio_pins p))) as [E|]; [|done].
    rewrite Hx, bool_decide_eq_false_2 by done. unfold x. rewrite <- E. pose proof (read_data d q) as R. unfold level in R. by rewrite Ho in R.
Qed.

Lemma wp_set_direction (o : bool) p d Q :
  (forall d', out (view d') p = o -> (forall q, q <> p -> out (view d') q = out (view d) q) ->
     (forall q, latch (view d') q = latch (view d) q) -> slave (view d') = slave (view d) -> Q (inr tt) (at_ d')) ->
  wp (if o then set_direction_out gpio_pins p else set_direction_in gpio_pins p) (at_ d) Q.
Proof.
  intros HQ. pose proof (pins_bits p) as Hp.
  assert (forall x : Z, x = gpio_readl (offset (gpio_pins p) + GPIO_DIR) d ->
    wp (writel (u32 (if o then Z.lor x (Z.shiftl 1 (bit (gpio_pins p))) else Z.land x (Z.lnot (Z.shiftl 1 (bit (gpio_pins p))))))
               (offset (gpio_pins p) + GPIO_DIR)) (at_ d) Q) as Hw.
  { intros x Ex. apply wp_writel.
    assert (forall q, offset (gpio_pins q) = offset (gpio_pins p) ->
      Z.testbit (u32 (if o then Z.lor x (Z.shiftl 1 (bit (gpio_pins p))) else Z.land x (Z.lnot (Z.shiftl 1 (bit (gpio_pins p))))))
        (bit (gpio_pins q)) = if bool_decide (q = p) then o else Z.testbit x (bit (gpio_pins q))) as Hx.
    { intros q Eq. pose proof (pins_bits q). destruct o; rewrite ?testbit_set, ?testbit_clear, same_register by done; by case_bool_decide. }
    apply HQ; [| |intros q; apply write_dir_latch|apply write_dir_slave].
    - rewrite write_dir_out, Z.eqb_refl, Hx by done. by rewrite bool_decide_eq_true_2.
    - intros q Hne. rewrite write_dir_out. destruct (Z.eqb_spec (offset (gpio_pins q)) (offset (gpio_pins p))) as [E|]; [|done].
      rewrite Hx, bool_decide_eq_false_2, Ex, <- E by done. apply read_dir. }
  destruct o; apply wp_bind, wp_readl; by apply Hw.
Qed.

(** The master drives the bus: the data line is at [dat], the slave in the state [x]. *)
Record driving d (dat : bool) x : Prop := {
  dr_clk : out (view d) FSI_CLK = true;
  dr_dat : out (view d) FSI_DAT = true;
  dr_en : out (view d) FSI_DAT_EN = true;
  dr_on : latch (view d) FSI_DAT_EN = true;
  dr_level : latch (view d) FSI_DAT = dat;
  dr_slave : slave (view d) = x
}.

(** The master listens. *)
Record listening d x : Prop := {
  ls_clk : out (view d) FSI_CLK = true;
  ls_dat : out (view d) FSI_DAT = false;
  ls_en : out (view d) FSI_DAT_EN = true;
  ls_off : latch (view d) FSI_DAT_EN = false;
  ls_slave : slave (view d) = x
}.

Lemma wp_write_dat (b : Z) d dat x Q : driving d dat x ->
  (forall d', driving d' (truthy b) x -> Q (inr tt) (at_ d')) -> wp (write_gpio gpio_pins FSI_DAT b) (at_ d) Q.
Proof.
  intros [H1 H2 H3 H4 H5 H6] HQ. apply wp_write_gpio. intros d' Ho Hl Hk Hs. apply HQ. split; rewrite ?Ho; try done.
  - by rewrite Hk.
  - rewrite Hs. unfold rises. rewrite (Hk FSI_CLK) by done. by destruct (latch (view d) FSI_CLK); rewrite ?andb_false_r.
Qed.

(** Nothing but the clock pin has changed. *)
Definition steady d d' : Prop :=
  (forall q, out (view d') q = out (view d) q) /\
  (forall q, q <> FSI_CLK -> out (view d) q = true -> latch (view d') q = latch (view d) q).

Lemma steady_trans d1 d2 d3 : steady d1 d2 -> steady d2 d3 -> steady d1 d3.
Proof. intros [A1 B1] [A2 B2]. split; intros q; [by rewrite A2|intros H1 H2; rewrite B2, B1; try done; by rewrite A1]. Qed.

Lemma driven_steady d d' : out (view d) FSI_DAT_EN = true -> steady d d' -> driven (view d') = driven (view d).
Proof.
  intros He [A B]. unfold driven. rewrite A, (B FSI_DAT_EN) by done. destruct (out (view d) FSI_DAT) eqn:E; [|done]. by rewrite (B FSI_DAT).
Qed.

Lemma wp_clock_low d Q : out (view d) FSI_CLK = true ->
  (forall d', steady d d' -> latch (view d') FSI_CLK = false -> slave (view d') = slave (view d) -> Q (inr tt) (at_ d')) ->
  wp (write_gpio gpio_pins FSI_CLK 0) (at_ d) Q.
Proof.
  intros Hc HQ. apply wp_write_gpio. intros d' Ho Hl Hk Hs. apply HQ; try done.
  rewrite Hs. unfold rises. rewrite Hl. by rewrite andb_false_r.
Qed.

Lemma wp_clock_cycle k d Q : out (view d) FSI_CLK = true -> out (view d) FSI_DAT_EN = true ->
  (forall d', steady d d' -> slave (view d') = Nat.iter k (clocked (driven (view d))) (slave (view d)) -> Q (inr tt) (at_ d')) ->
  wp (clock_cycle gpio_pins FSI_CLK k) (at_ d) Q.
Proof.
  revert d Q. induction k as [|k IH]; intros d Q Hc He HQ; cbn [clock_cycle]; [apply wp_ret, HQ; done|].
  apply wp_bind, wp_clock_low; [done|]. intros d1 S1 L1 X1. apply wp_bind, wp_write_gpio. intros d2 Ho2 Hl2 Hk2 X2.
  assert (steady d d2) as S2 by (by apply (steady_trans _ d1)). destruct (S1) as [A1 _]. destruct (S2) as [A2 _].
  apply IH; [by rewrite A2..|]. intros d3 S3 X3. apply HQ; [by apply (steady_trans _ d2)|].
  rewrite X3, (driven_steady d d2), X2 by done. unfold rises. rewrite L1, Hl2, A1, Hc. cbn [andb negb truthy Z.eqb].
  rewrite (driven_steady d d2), X1 by done. by rewrite Nat.iter_succ_r.
Qed.

Lemma wp_clock_driving k d dat x Q : driving d dat x ->
  (forall d', driving d' dat (Nat.iter k (clocked (Some dat)) x) -> Q (inr tt) (at_ d')) ->
  wp (clock_cycle gpio_pins FSI_CLK k) (at_ d) Q.
Proof.
  intros [H1 H2 H3 H4 H5 H6] HQ. apply wp_clock_cycle; [done..|]. intros d' [A B] E. apply HQ. split; rewrite ?A, ?B; try done.
  rewrite E. unfold driven. by rewrite H2, H4, H5, H6.
Qed.

(** A bit is read before the clock that brings the next. *)
Lemma wp_read_bit b d x (Q : Z + Z -> world D -> Prop) : listening d x -> drives x = negb b ->
  (forall d', listening d' (clocked None x) -> Q (inr (Z.b2z b)) (at_ d')) -> wp (fsi_read_bit gpio_pins) (at_ d) Q.
Proof.
  intros [H1 H2 H3 H4 H5] Hb HQ. unfold fsi_read_bit, read_gpio. apply wp_bind, wp_bind, wp_readl, wp_ret.
  apply wp_bind, wp_clock_cycle; [done..|]. intros d' [A B] E. apply wp_ret.
  pose proof (read_data d FSI_DAT) as R. unfold level in R. rewrite H2, H5, Hb in R. specialize (R eq_refl).
  pose proof (pins_bits FSI_DAT) as Hp. set (v := gpio_readl (offset (gpio_pins FSI_DAT) + GPIO_DATA) d) in *.
  assert (Z.land (Z.shiftr v (bit (gpio_pins FSI_DAT))) 1 = Z.b2z (negb b)) as Ev.
  { change 1 with (Z.ones 1). rewrite Z.land_ones, <- Z.bit0_mod, Z.shiftr_spec, Z.add_0_l, R by lia. done. }
  rewrite Ev. assert ((if truthy (Z.land (Z.b2z (negb b)) 1) then 0 else 1) = Z.b2z b) as -> by (by destruct b).
  apply HQ. split; rewrite ?A, ?B; try done. rewrite E. unfold driven. by rewrite H2, H5.
Qed.

Lemma wp_send_bit v (b : bool) d dat x Q : driving d dat x -> truthy v = b ->
  (forall d', driving d' (negb b) (clocked (Some (negb b)) x) -> Q (inr tt) (at_ d')) ->
  wp (fsi_send_bit gpio_pins v) (at_ d) Q.
Proof.
  intros Hd Hb HQ. unfold fsi_send_bit. apply wp_bind. eapply wp_write_dat; [done|]. intros d1 H1.
  eapply wp_clock_driving; [done|]. intros d2 H2. apply HQ. rewrite Hb in H2. by destruct b.
Qed.

(** From any state in which the enable pin is an output, the master takes the bus or leaves it. *)
Lemma wp_take_bus {A} (k : M D A) d x (Q : Z + A -> world D -> Prop) : out (view d) FSI_DAT_EN = true -> slave (view d) = x ->
  (forall d' dat, driving d' dat x -> wp k (at_ d') Q) ->
  wp (set_direction_out gpio_pins FSI_CLK;; set_direction_out gpio_pins FSI_DAT;; write_gpio gpio_pins FSI_DAT_EN 1;; k) (at_ d) Q.
Proof.
  intros He Hx HQ. apply wp_bind, (wp_set_direction true). intros d1 O1 K1 L1 X1.
  apply wp_bind, (wp_set_direction true). intros d2 O2 K2 L2 X2. apply wp_bind, wp_write_gpio. intros d3 O3 L3 K3 X3.
  assert (out (view d2) FSI_CLK = true) as C2 by (by rewrite K2).
  apply (HQ d3 (latch (view d3) FSI_DAT)). split; rewrite ?O3; try done; [by rewrite K2, K1|].
  rewrite X3. unfold rises. rewrite (K3 FSI_CLK) by done. rewrite C2, X2, X1. by destruct (latch (view d2) FSI_CLK).
Qed.

Lemma wp_leave_bus {A} (k : M D A) d dat x (Q : Z + A -> world D -> Prop) : driving d dat x ->
  (forall d', listening d' x -> wp k (at_ d') Q) ->
  wp (write_gpio gpio_pins FSI_DAT_EN 0;; set_direction_in gpio_pins FSI_DAT;; k) (at_ d) Q.
Proof.
  intros [H1 H2 H3 H4 H5 H6] HQ. apply wp_bind, wp_write_gpio. intros d1 O1 L1 K1 X1.
  apply wp_bind, (wp_set_direction false). intros d2 O2 K2 L2 X2. apply HQ. split; try done; [by rewrite K2, O1..|by rewrite L2|].
  rewrite X2, X1. unfold rises. rewrite (K1 FSI_CLK) by done. by destruct (latch (view d) FSI_CLK); rewrite ?andb_false_r.
Qed.
End Pins.
Arguments driving {D X G Sl gpio_pins GB} d dat x.
Arguments listening {D X G Sl gpio_pins GB} d x.
Arguments steady {D X G Sl gpio_pins GB} d d'.

Lemma truthy_bit v i : 0 <= i -> truthy (Z.land v (Z.shiftl 1 i)) = Z.testbit v i.
Proof.
  intros Hi. rewrite Z.shiftl_1_l. unfold truthy. destruct (Z.testbit v i) eqn:E.
  - destruct (Z.eqb_spec (Z.land v (2 ^ i)) 0) as [H|]; [|done].
    assert (Z.testbit (Z.land v (2 ^ i)) i = true) as C by (rewrite Z.land_spec, E, Z.pow2_bits_true by lia; done).
    rewrite H, Z.testbit_0_l in C. done.
  - replace (Z.land v (2 ^ i)) with 0; [done|]. symmetry. apply Z.bits_inj'. intros j Hj.
    rewrite Z.land_spec, Z.pow2_bits_eqb, Z.testbit_0_l by lia. destruct (Z.eqb_spec i j) as [<-|]; [by rewrite E|by rewrite andb_false_r].
Qed.

Lemma b2z_truthy (b : bool) : (if b then 1 else 0) = Z.b2z b.
Proof. by destruct b. Qed.

(** ** Numbers from bits *)

Definition shift_in (w : Z) (v : Z) (b : bool) : Z := Z.lor (wrap w (Z.shiftl v 1)) (Z.b2z b).

Lemma shift_in_low w v b : 1 <= w -> Z.land (shift_in w v b) 1 = Z.b2z b.
Proof.
  intros Hw. unfold shift_in. match goal with |- Z.land ?a 1 = _ => change (Z.land a 1) with (Z.land a (Z.ones 1)) end. rewrite Z.land_ones, <- Z.bit0_mod by lia.
  rewrite Z.lor_spec, testbit_wrap, testbit_shiftl, (Z.testbit_neg_r _ (0 - 1)), andb_false_r by lia. by destruct b.
Qed.

Lemma shift_in_small w v b : 0 <= v -> 2 * v + 1 < 2 ^ w -> shift_in w v b = 2 * v + Z.b2z b.
Proof.
  intros Hv Hw. unfold shift_in. rewrite Z.shiftl_mul_pow2 by lia. change (2 ^ 1) with 2.
  rewrite wrap_small by (unfold in_range; lia). pose proof (Z.add_lor_land (v * 2) (Z.b2z b)) as E.
  enough (Z.land (v * 2) (Z.b2z b) = 0) by lia.
  apply Z.bits_inj'. intros i Hi. rewrite Z.land_spec, Z.testbit_0_l.
  destruct (Z.eqb_spec i 0) as [->|Hne]; [by rewrite Z.mul_comm, Z.testbit_even_0|].
  replace (Z.testbit (Z.b2z b) i) with false; [apply andb_false_r|]. destruct b; [|by rewrite Z.testbit_0_l].
  change (Z.b2z true) with (2 ^ 0). by rewrite Z.pow2_bits_false by lia.
Qed.

Lemma foldl_shift_in w v bits : 0 <= v -> (v + 1) * 2 ^ Z.of_nat (length bits) <= 2 ^ w ->
  foldl (shift_in w) v bits = foldl (fun v b => 2 * v + Z.b2z b) v bits.
Proof.
  revert v. induction bits as [|b bits IH]; intros v Hv Hw; [done|]. cbn [foldl length] in *.
  rewrite Nat2Z.inj_succ, Z.pow_succ_r in Hw by lia. pose proof (Z.pow_pos_nonneg 2 (Z.of_nat (length bits))) as Hp.
  rewrite shift_in_small by nia. destruct b; cbn [Z.b2z]; apply IH; nia.
Qed.

Lemma shift_out bits c : Z.shiftr (bits_val (bits ++ nibble c)) 4 = bits_val bits.
Proof.
  rewrite bits_val_app, Z.shiftr_div_pow2 by lia. pose proof (bits_val_range (nibble c)) as R. change (Z.of_nat (length (nibble c))) with 4 in *.
  rewrite Z.div_add_l, Z.div_small by lia. lia.
Qed.

Section Frames.
Context {D X : Type} {G : Gpio D} {Sl : Slave X} (gpio_pins : gpio -> gpio_pin) {GB : GpioBlock (X := X) gpio_pins}.
Context (h : gmap nat (list mval)) (n : nat).
Implicit Types (d : D) (x : X) (Q : Z + unit -> world D -> Prop).
Abbreviation at_ d := (World h n d).

(** ** Sending *)

Lemma hear_app l1 l2 x : hear (l1 ++ l2) x = hear l2 (hear l1 x).
Proof. apply foldl_app. Qed.

Lemma hear_replicate k dat x : Nat.iter k (clocked (Some dat)) x = hear (replicate k (negb dat)) x.
Proof.
  revert x. induction k as [|k IH]; intros x; [done|]. rewrite Nat.iter_succ_r, IH. cbn. by rewrite negb_involutive.
Qed.

Lemma wp_send_bits len i seq crc d dat x (Q : Z + Z -> world D -> Prop) : driving d dat x -> Z.of_nat len <= i + 1 ->
  (forall d' dat', driving d' dat' (hear (bits_down len i seq) x) -> Q (inr (crc_of crc (bits_down len i seq))) (at_ d')) ->
  wp (send_bits gpio_pins len i seq crc) (at_ d) Q.
Proof.
  revert i crc d dat x. induction len as [|len IH]; intros i crc d dat x Hd Hi HQ; cbn [send_bits]; [apply wp_ret; eauto|].
  rewrite truthy_bit, b2z_truthy by lia. apply wp_bind. eapply wp_send_bit; [done|by apply truthy_bit; lia|]. intros d1 H1.
  eapply IH; [done|lia|]. intros d2 dat2 H2. by eapply HQ.
Qed.

Lemma wp_send_crc len i crc d dat x Q : driving d dat x -> Z.of_nat len <= i + 1 ->
  (forall d' dat', driving d' dat' (hear (bits_down len i crc) x) -> Q (inr tt) (at_ d')) ->
  wp (send_crc gpio_pins len i crc) (at_ d) Q.
Proof.
  revert i d dat x. induction len as [|len IH]; intros i d dat x Hd Hi HQ; cbn [send_crc]; [apply wp_ret; eauto|].
  apply wp_bind. eapply wp_send_bit; [done|by apply truthy_bit; lia|]. intros d1 H1.
  eapply IH; [done|lia|]. intros d2 dat2 H2. by eapply HQ.
Qed.

Definition idle_then (msg : list bool) : list bool := replicate 50 false ++ frame msg.

Lemma wp_send_seq seq len d x Q : out (view d) FSI_DAT_EN = true -> slave (view d) = x -> (len <= 64)%nat ->
  (forall d' dat, driving d' dat (hear (idle_then (bits_down len 63 seq)) x) -> Q (inr tt) (at_ d')) ->
  wp (fsi_send_seq gpio_pins seq len) (at_ d) Q.
Proof.
  intros He Hx Hl HQ. unfold fsi_send_seq. eapply wp_take_bus; [done..|]. intros d1 dat1 H1.
  apply wp_bind. eapply wp_write_dat; [done|]. intros d2 H2. apply wp_bind. eapply wp_clock_driving; [done|]. intros d3 H3.
  apply wp_bind. eapply wp_write_dat; [done|]. intros d4 H4. apply wp_bind. eapply wp_clock_driving; [done|]. intros d5 H5.
  apply wp_bind. eapply wp_send_bits; [done|lia|]. intros d6 dat6 H6. apply wp_bind. eapply wp_send_crc; [done|done|]. intros d7 dat7 H7.
  destruct H7 as [A1 A2 A3 A4 A5 A6]. eapply (wp_clock_low gpio_pins); [done|]. intros d8 [O8 K8] _ X8. apply (HQ d8 dat7).
  split; rewrite ?O8, ?K8; try done. rewrite X8, A6. unfold idle_then. rewrite hear_app. unfold frame.
  rewrite !hear_replicate. change (negb (truthy 1)) with false. change (negb (truthy 0)) with true. change (replicate 1 true) with [true].
  change (true :: bits_down len 63 seq ++ nibble (crc_of 0 (true :: bits_down len 63 seq)))
    with ([true] ++ bits_down len 63 seq ++ nibble (crc_of 0 (true :: bits_down len 63 seq))).
  rewrite !hear_app. reflexivity.
Qed.

(** ** Listening *)

Lemma says_app l1 l2 x x' : says (l1 ++ l2) x = Some x' -> exists x1, says l1 x = Some x1 /\ says l2 x1 = Some x'.
Proof.
  revert x. induction l1 as [|b l1 IH]; intros x H; [by exists x|]. cbn in *. case_bool_decide; [by apply IH|done].
Qed.

Lemma says_cons b l x x' : says (b :: l) x = Some x' -> drives x = negb b /\ says l (clocked None x) = Some x'.
Proof. cbn. by case_bool_decide. Qed.

Lemma wp_wait_start k m d x x' (Q : Z + bool -> world D -> Prop) : listening d x -> (k < m)%nat ->
  says (replicate k false ++ [true]) x = Some x' -> (forall d', listening d' x' -> Q (inr true) (at_ d')) ->
  wp (wait_start gpio_pins m) (at_ d) Q.
Proof.
  revert m d x. induction k as [|k IH]; intros [|m] d x Hd Hk Hs HQ; try lia; cbn [wait_start replicate app] in *;
    apply says_cons in Hs as [Hb Hs]; apply wp_bind; (eapply wp_read_bit; [done..|]); intros d1 H1; cbn [Z.b2z truthy Z.eqb negb].
  - apply wp_ret, HQ. by injection Hs as <-.
  - eapply IH; [done|lia|done..].
Qed.

Lemma wp_wait_start_silence m d x x' (Q : Z + bool -> world D -> Prop) : listening d x ->
  says (replicate m false) x = Some x' -> (forall d', listening d' x' -> Q (inr false) (at_ d')) ->
  wp (wait_start gpio_pins m) (at_ d) Q.
Proof.
  revert d x. induction m as [|m IH]; intros d x Hd Hs HQ; cbn [wait_start replicate] in *; [apply wp_ret, HQ; by injection Hs as <-|].
  apply says_cons in Hs as [Hb Hs]. apply wp_bind. eapply wp_read_bit; [done..|]. intros d1 H1. by eapply IH.
Qed.

Lemma wp_read_ack bits ack crc d x x' (Q : Z + (Z * Z) -> world D -> Prop) : listening d x -> says bits x = Some x' ->
  (forall d', listening d' x' -> Q (inr (foldl (shift_in 8) ack bits, crc_of crc bits)) (at_ d')) ->
  wp (read_ack gpio_pins (length bits) ack crc) (at_ d) Q.
Proof.
  revert ack crc d x. induction bits as [|b bits IH]; intros ack crc d x Hd Hs HQ; cbn [read_ack length].
  - apply wp_ret, HQ. by injection Hs as <-.
  - apply says_cons in Hs as [Hb Hs]. apply wp_bind. eapply wp_read_bit; [done..|]. intros d1 H1. eapply IH; [done..|].
    intros d2 H2. fold (shift_in 8 ack b). rewrite shift_in_low by lia. by apply HQ.
Qed.

Lemma wp_read_bits bits resp crc d x x' (Q : Z + (Z * Z) -> world D -> Prop) : listening d x -> says bits x = Some x' ->
  (forall d', listening d' x' -> Q (inr (foldl (shift_in 64) resp bits, crc_of crc bits)) (at_ d')) ->
  wp (read_bits gpio_pins (length bits) resp crc) (at_ d) Q.
Proof.
  revert resp crc d x. induction bits as [|b bits IH]; intros resp crc d x Hd Hs HQ; cbn [read_bits length].
  - apply wp_ret, HQ. by injection Hs as <-.
  - apply says_cons in Hs as [Hb Hs]. apply wp_bind. eapply wp_read_bit; [done..|]. intros d1 H1. eapply IH; [done..|].
    intros d2 H2. fold (shift_in 64 resp b). rewrite shift_in_low by lia. by apply HQ.
Qed.

(** The bus is free again, with the slave in the state [x]. *)
Definition free_bus d x : Prop := out (view d) FSI_DAT_EN = true /\ slave (view d) = x.

(** What is read when the slave sends a start bit, a code of four bits and the rest. *)
Definition decoded (code rest : list bool) : Z * option Z :=
  if crc_of 0 (true :: code ++ rest) =? 0 then (Z.land (bits_val code) 0x3, Some (Z.shiftr (bits_val rest) 4)) else (FSI_MERR_C, None).

Definition rest_len (code : list bool) (len : Z) : Z := if bits_val code =? FSI_ACK then len else 7.

Lemma wp_read_resp len k code rest d dat x x' (Q : Z + (Z * option Z) -> world D -> Prop) : driving d dat x -> (k < 512)%nat ->
  says (replicate k false ++ true :: code ++ rest) x = Some x' -> length code = 4%nat ->
  Z.of_nat (length rest) = rest_len code len -> (length rest <= 64)%nat ->
  (forall d', free_bus d' x' -> Q (inr (decoded code rest)) (at_ d')) ->
  wp (fsi_read_resp gpio_pins len) (at_ d) Q.
Proof.
  intros Hd Hk Hs Hc Hr Hl HQ. unfold fsi_read_resp. eapply wp_leave_bus; [done|]. intros d1 H1.
  replace (replicate k false ++ true :: code ++ rest) with ((replicate k false ++ [true]) ++ code ++ rest) in Hs
    by (by rewrite <- app_assoc).
  apply says_app in Hs as (x1 & Hs1 & Hs). apply says_app in Hs as (x2 & Hs2 & Hs3).
  apply wp_bind. eapply wp_wait_start; [done..|]. intros d2 H2. cbn [negb].
  apply wp_bind. rewrite <- Hc. eapply wp_read_ack; [done..|]. intros d3 H3. cbn beta iota.
  rewrite (foldl_shift_in 8) by (rewrite ?Hc; cbn; lia). fold (bits_val code).
  assert ((if negb (bits_val code =? FSI_ACK) then 7 else len) = rest_len code len) as -> by (unfold rest_len; by destruct (_ =? _)).
  rewrite <- Hr. unfold CRC_LEN. rewrite Z.add_simpl_r, Nat2Z.id. apply wp_bind. eapply wp_read_bits; [done..|].
  intros d4 H4. cbn beta iota. rewrite (foldl_shift_in 64) by (try lia; rewrite Z.mul_1_l; apply Z.pow_le_mono_r; lia). fold (bits_val rest).
  change (crc4 0 1) with (crc_of 0 [true]). rewrite <- !crc_of_app. 
  change ([true] ++ code ++ rest) with (true :: code ++ rest). unfold decoded in HQ.
  destruct H4 as [A1 A2 A3 A4 A5]. destruct (crc_of 0 (true :: code ++ rest) =? 0) eqn:E; cbn [negb].
  - apply wp_bind. eapply (wp_clock_low gpio_pins); [done|]. intros d5 [O5 K5] _ X5. apply wp_ret, HQ. split; congruence.
  - apply wp_ret, HQ. by split.
Qed.

Lemma wp_read_silence len d dat x x' (Q : Z + (Z * option Z) -> world D -> Prop) : driving d dat x ->
  says (replicate 512 false) x = Some x' -> (forall d', free_bus d' x' -> Q (inr (FSI_MERR_TIMEOUT, None)) (at_ d')) ->
  wp (fsi_read_resp gpio_pins len) (at_ d) Q.
Proof.
  intros Hd Hs HQ. unfold fsi_read_resp. eapply wp_leave_bus; [done|]. intros d1 H1. apply wp_bind.
  eapply wp_wait_start_silence; [done..|]. intros d2 [A1 A2 A3 A4 A5]. cbn [negb]. apply wp_ret, HQ. by split.
Qed.

(** ** Exchanges *)

Lemma decoded_ack data : decoded [false; false; false; false] (data ++ nibble (crc_of 0 (true :: [false; false; false; false] ++ data))) =
  (FSI_ACK, Some (bits_val data)).
Proof.
  unfold decoded. rewrite shift_out. pose proof (crc_frame ([false; false; false; false] ++ data)) as E. unfold frame in E.
  rewrite <- app_assoc in E. by rewrite E.
Qed.

Lemma wp_exchange_ack seq slen data d x x' len (Q : Z + (Z * option Z) -> world D -> Prop) :
  free_bus d x -> (slen <= 64)%nat -> exchange x (bits_down slen 63 seq) (ack_answer data) x' ->
  len = Z.of_nat (length data) + 4 -> len <= 64 ->
  (forall d', free_bus d' x' -> Q (inr (FSI_ACK, Some (bits_val data))) (at_ d')) ->
  wp (fsi_send_seq gpio_pins seq slen;; fsi_read_resp gpio_pins len) (at_ d) Q.
Proof.
  intros [He Hx] Hl (k & Hk & Hs) -> Hlen HQ. apply wp_bind. eapply wp_send_seq; [done..|]. intros d1 dat1 H1.
  unfold ack_answer, frame in Hs. rewrite <- app_assoc in Hs.
  eapply (wp_read_resp _ k [false; false; false; false]); [done..| | |].
  - rewrite length_app, Nat2Z.inj_add. done.
  - rewrite length_app. change (length (nibble _)) with 4%nat. lia.
  - rewrite decoded_ack. exact HQ.
Qed.

Lemma wp_exchange_busy seq slen d x x' len (Q : Z + (Z * option Z) -> world D -> Prop) :
  free_bus d x -> (slen <= 64)%nat -> exchange x (bits_down slen 63 seq) busy_answer x' ->
  (forall d', free_bus d' x' -> Q (inr (FSI_BUSY, Some 2)) (at_ d')) ->
  wp (fsi_send_seq gpio_pins seq slen;; fsi_read_resp gpio_pins len) (at_ d) Q.
Proof.
  intros [He Hx] Hl (k & Hk & Hs) HQ. apply wp_bind. eapply wp_send_seq; [done..|]. intros d1 dat1 H1.
  set (code := [false; false; false; true]). set (rest := nibble (crc_of 0 (true :: code)) ++ [false; false; false]).
  assert (decoded code rest = (FSI_BUSY, Some 2)) as E by (vm_compute; reflexivity).
  eapply (wp_read_resp _ k code rest); [done|exact Hk|exact Hs|done|done|unfold rest; cbn; lia|].
  intros d2 H2. rewrite E. by apply HQ.
Qed.
End Frames.
Arguments free_bus {D X G Sl gpio_pins GB} d x.
