(* ===== verification/FsiTheorems.v ===== *)
(** * FSI: access to the registers of a CFAM over the bit-banged bus *)

From S2P Require Import Prelude CMem Bits Fsi FsiFacts.

Lemma write_seq_bits addr v : in_range 21 addr -> in_range 32 v ->
  bits_down 60 63 (Z.lor (u64 (Z.shiftl (fsi_abs_ar addr 0) 36)) (Z.shiftl (Z.land v 0xffffffff) 4)) = write_msg (bus_addr addr) v.
Proof.
  intros Ha Hv. rewrite (bits_down_app 28 32). unfold write_msg. rewrite <- (abs_ar_bits addr 0) by (done || (unfold in_range; lia)).
  change 0xffffffff with (Z.ones 32). f_equal; apply bits_down_ext; intros j Hj; rewrite Z.lor_spec, !testbit_shiftl, Z.land_spec, testbit_ones' by lia.
  - cbn in Hj. solve_bits.
  - rewrite testbit_wrap, testbit_shiftl by lia. change (Z.of_nat 28) with 28 in *. change (Z.of_nat 32) with 32 in *.
    rewrite (Z.testbit_neg_r _ (63 - 28 - j - 36)), andb_false_r by lia. replace (63 - 28 - j - 4) with (31 - j) by lia.
    generalize (Z.testbit v). intros f. solve_bits.
Qed.

Lemma read_seq_bits addr : in_range 21 addr ->
  bits_down 28 63 (u64 (Z.shiftl (fsi_abs_ar addr 1) 36)) = read_msg (bus_addr addr).
Proof. intros Ha. apply abs_ar_bits; [done|unfold in_range; lia]. Qed.

Lemma poll_seq_bits : bits_down 5 63 (u64 (Z.shiftl (fsi_d_poll 0) 59)) = poll_msg.
Proof. vm_compute. reflexivity. Qed.

Lemma low_word v : in_range 32 v -> Z.land (bits_val (bits_down 32 31 v)) 0xffffffff = v.
Proof.
  intros Hv. pose proof (bits_val_down 32 v) as E. change (Z.of_nat 32) with 32 in E. change (32 - 1) with 31 in E. rewrite E.
  change 0xffffffff with (Z.ones 32). rewrite Z.land_ones by lia. rewrite Z.mod_mod by lia. by apply Z.mod_small.
Qed.

(** Sending and receiving as one computation. *)
Lemma wp_bind_assoc {S A B C} (m : M S A) (f : A -> M S B) (g : B -> M S C) w Q :
  wp (x ← (y ← m; f y); g x) w Q -> wp (y ← m; x ← f y; g x) w Q.
Proof. unfold wp, mbind, M_bind. by destruct (m w) as [[a|rc|c] w']. Qed.

Section Cfam.
Context {D X : Type} {G : Gpio D} {Sl : Slave X} (gpio_pins : gpio -> gpio_pin) {GB : GpioBlock (X := X) gpio_pins}.
Context {CS : CfamSlave (X := X)}.
Context (h : gmap nat (list mval)) (n : nat).
Implicit Types (d : D) (x : X).
Abbreviation at_ d := (World h n d).

(** Polling a slave that has an answer to give gets the answer. *)
Lemma wp_poll_loop m fuel data len rc resp d x (Q : Z + (Z * mval) -> world D -> Prop) :
  free_bus d x -> quiet x -> pending x = Some (m, data) -> (m < fuel)%nat -> len = Z.of_nat (length data) + 4 -> len <= 64 ->
  (forall d' x', free_bus d' x' -> waiting x' -> (forall a, cregs x' a = cregs x a) ->
     Q (inr (FSI_ACK, Some (bits_val data))) (at_ d')) ->
  wp (poll_loop gpio_pins fuel 0 len rc resp) (at_ d) Q.
Proof.
  revert fuel rc resp d x. induction m as [|m IH]; intros [|fuel] rc resp d x Hf Hq Hp Hm Hl Hl' HQ; try lia; cbn [poll_loop];
    apply wp_bind_assoc, wp_bind; destruct (serves_poll x _ data Hq Hp) as (x' & He & Hq' & Hc & Hp').
  - eapply wp_exchange_ack; [done| |by rewrite poll_seq_bits|done..|]; [lia|]. intros d1 H1. apply wp_ret. by eapply HQ.
  - eapply wp_exchange_busy; [done| |by rewrite poll_seq_bits|]; [lia|]. intros d1 H1. cbn [negb Z.eqb FSI_BUSY].
    eapply IH; [done|done|done|lia|done..|]. intros d2 x2 H2 Hp2 Hc2. eapply HQ; [done..|]. intros a. by rewrite Hc2, Hc.
Qed.

(** What a register access gives: the bus is free, no answer is outstanding, and the registers
    are [regs]. *)
Definition leaves_regs {A} (regs : Z -> Z) (a : A) (r : Z + A) (w : world D) : Prop :=
  exists d' x', w = at_ d' /\ r = inr a /\ free_bus d' x' /\ waiting x' /\ forall a, cregs x' a = regs a.

Lemma wp_getcfam addr d x : free_bus d x -> waiting x -> in_range 21 addr ->
  wp (fsi_getcfam gpio_pins addr) (at_ d) (leaves_regs (cregs x) (0, Some (cregs x (bus_addr addr)))).
Proof.
  intros Hf [Hq Hp] Ha. pose proof (bus_addr_range addr Ha) as Hb. pose proof (cregs_range x (bus_addr addr)) as Hr.
  destruct (serves_read x (bus_addr addr) Hq Hp Hb) as (x' & He & Hq' & Hc & Hp').
  unfold fsi_getcfam. apply wp_bind_assoc, wp_bind. destruct (delay x) as [|m] eqn:Ed.
  - eapply wp_exchange_ack; [done| |by rewrite read_seq_bits|done..|]; [lia|]. intros d1 H1. apply wp_bind, wp_ret, wp_ret.
    exists d1, x'. split_and!; try done. by rewrite <- (low_word _ Hr) at 2.
  - eapply wp_exchange_busy; [done| |by rewrite read_seq_bits|]; [lia|]. intros d1 H1. cbn [Z.eqb FSI_BUSY]. apply wp_bind.
    eapply (wp_poll_loop m); [done|done|done| |done..|]; [pose proof (delay_bounded x); lia|]. intros d2 x2 H2 Hp2 Hc2. apply wp_ret.
    exists d2, x2. split_and!; try done; [by rewrite <- (low_word _ Hr) at 2|]. intros a. by rewrite Hc2, Hc.
Qed.

Lemma wp_putcfam addr v d x : free_bus d x -> waiting x -> in_range 21 addr -> in_range 32 v ->
  wp (fsi_putcfam gpio_pins addr v) (at_ d) (leaves_regs (fun a => if a =? bus_addr addr then v else cregs x a) 0).
Proof.
  intros Hf [Hq Hp] Ha Hv. pose proof (bus_addr_range addr Ha) as Hb.
  destruct (serves_write x (bus_addr addr) v Hq Hp Hb Hv) as (x' & He & Hq' & Hc & Hp').
  unfold fsi_putcfam. apply wp_bind_assoc, wp_bind. destruct (delay x) as [|m] eqn:Ed.
  - eapply wp_exchange_ack; [done| |by rewrite write_seq_bits|done..|]; [lia|]. intros d1 H1. apply wp_bind, wp_ret, wp_ret.
    exists d1, x'. by split_and!.
  - eapply wp_exchange_busy; [done| |by rewrite write_seq_bits|]; [lia|]. intros d1 H1. cbn [Z.eqb FSI_BUSY]. apply wp_bind.
    eapply (wp_poll_loop m); [done|done|done| |done..|]; [pose proof (delay_bounded x); lia|]. intros d2 x2 H2 Hp2 Hc2. apply wp_ret.
    exists d2, x2. split_and!; try done. intros a. by rewrite Hc2, Hc.
Qed.
End Cfam.
Arguments leaves_regs {D X G Sl gpio_pins GB CS} h n {A} regs a r w.

(** C40: access to the registers of a CFAM by bit banging. On a GPIO block that sets and reads
    its pins, and with a slave that answers well-formed messages, possibly after being busy for
    a while, a read of a register of slave 0 sends a message the slave understands, waits for
    the answer and gives the value of the register, and a write changes exactly that register.
    What was written is read back. The bus is free afterwards, and no answer is outstanding.
    Neither call depends on the registers in which the pins are, nor on the other pins there. *)
Theorem cfam_access {D X : Type} {G : Gpio D} {Sl : Slave X} (gpio_pins : gpio -> gpio_pin) {GB : GpioBlock (X := X) gpio_pins}
    {CS : CfamSlave (X := X)} (d : D) (x : X) (addr : Z) (h : gmap nat (list mval)) (n : nat) :
  free_bus d x -> waiting x -> in_range 21 addr ->
  wp (fsi_getcfam gpio_pins addr) (World h n d) (leaves_regs h n (cregs x) (0, Some (cregs x (bus_addr addr)))) /\
  forall v, in_range 32 v ->
  let regs a := if a =? bus_addr addr then v else cregs x a in
  wp (fsi_putcfam gpio_pins addr v) (World h n d) (leaves_regs h n regs 0) /\
  wp (fsi_putcfam gpio_pins addr v;; fsi_getcfam gpio_pins addr) (World h n d) (leaves_regs h n regs (0, Some v)).
Proof.
  intros Hf Hp Ha. split; [by apply wp_getcfam|]. intros v Hv regs. split; [by apply wp_putcfam|].
  apply wp_bind. eapply wp_mono; [by apply wp_putcfam|]. intros r w (d1 & x1 & -> & -> & Hf1 & Hp1 & Hc1). cbn beta iota.
  eapply wp_mono; [by apply (wp_getcfam gpio_pins h n addr d1 x1)|]. intros r w (d2 & x2 & -> & -> & Hf2 & Hp2 & Hc2).
  exists d2, x2. rewrite Hc1, Z.eqb_refl. split_and!; try done. intros a. by rewrite Hc2, Hc1.
Qed.

(** ** Damaged answers *)








Section Damaged.
Context {D X : Type} {G : Gpio D} {Sl : Slave X} (gpio_pins : gpio -> gpio_pin) {GB : GpioBlock (X := X) gpio_pins}.
Context (h : gmap nat (list mval)) (n : nat).




End Damaged.


(** ** FSI: a slave and a GPIO block

    A slave that parses what it hears and answers busy once, behind a GPIO block whose pins
    share registers, for the theorems on the bit-banged bus. *)

(** ** The slave *)

(** What it has heard since it last spoke, what it still has to say, if it speaks, its
    registers and an acknowledgement that is outstanding. *)
Record plain_slave := PlainSlave {
  heard : list bool;
  talking : option (list bool);
  store : gmap Z Z;
  held : option (nat * list bool)
}.

Fixpoint skip_silence (bits : list bool) : list bool :=
  match bits with
  | false :: bits' => skip_silence bits'
  | _ => bits
  end.

Definition plain_reg (s : gmap Z Z) (a : Z) : Z := u32 (default 0 (s !! a)).

(** The answer to a message, and the registers and the outstanding answer after it. *)
Definition plain_answer (s : gmap Z Z) (p : option (nat * list bool)) (bits : list bool)
  : list bool * gmap Z Z * option (nat * list bool) :=
  let bits := skip_silence bits in
  let a := bits_val (take 19 (drop 7 bits)) in
  let v := bits_val (take 32 (drop 29 bits)) in
  if bool_decide (bits = frame poll_msg) then
    match p with
    | Some (O, data) => (ack_answer data, s, None)
    | Some (S m, data) => (busy_answer, s, Some (m, data))
    | None => ([], s, p)
    end
  else if bool_decide (bits = frame (read_msg a)) then (busy_answer, s, Some (0%nat, bits_down 32 31 (plain_reg s a)))
  else if bool_decide (bits = frame (write_msg a v)) then (busy_answer, <[a := v]> s, Some (0%nat, []))
  else ([], s, p).

Definition line (bits : list bool) : bool := match bits with b :: _ => negb b | [] => true end.

#[export] Instance plain_bus : Slave plain_slave := {|
  drives x :=
    match talking x with
    | Some bits => line bits
    | None => line (plain_answer (store x) (held x) (heard x)).1.1
    end;
  clocked dat x :=
    match dat, talking x with
    | Some l, Some _ => PlainSlave [negb l] None (store x) (held x)
    | Some l, None => PlainSlave (heard x ++ [negb l]) None (store x) (held x)
    | None, Some bits => PlainSlave [] (Some (tail bits)) (store x) (held x)
    | None, None =>
        let '(bits, s, p) := plain_answer (store x) (held x) (heard x) in PlainSlave [] (Some (tail bits)) s p
    end
|}.

Lemma hear_more bits l s p : hear bits (PlainSlave l None s p) = PlainSlave (l ++ bits) None s p.
Proof.
  revert l. induction bits as [|b bits IH]; intros l; [by rewrite app_nil_r|]. unfold hear in *. cbn. rewrite negb_involutive, IH.
  by rewrite <- app_assoc.
Qed.

Lemma hear_first b bits l t s p : hear (b :: bits) (PlainSlave l (Some t) s p) = PlainSlave (b :: bits) None s p.
Proof. change (hear bits (clocked (Some (negb b)) (PlainSlave l (Some t) s p)) = PlainSlave ([b] ++ bits) None s p). cbn. rewrite negb_involutive. apply hear_more. Qed.

Lemma says_rest bits s p : says bits (PlainSlave [] (Some bits) s p) = Some (PlainSlave [] (Some []) s p).
Proof. induction bits as [|b bits IH]; [done|]. cbn. by rewrite bool_decide_eq_true_2. Qed.

Lemma exchange_answers msg b bits s p s' p' l t :
  plain_answer s p (replicate 50 false ++ frame msg) = (b :: bits, s', p') ->
  exchange (PlainSlave l (Some t) s p) msg (b :: bits) (PlainSlave [] (Some []) s' p').
Proof.
  intros E. exists 0%nat. split; [lia|]. change (replicate 0 false ++ b :: bits) with (b :: bits).
  change (replicate 50 false ++ frame msg) with (false :: (replicate 49 false ++ frame msg)) in *. rewrite hear_first.
  cbn [says]. rewrite bool_decide_eq_true_2; [|cbn [drives plain_bus talking store held heard]; by rewrite E].
  cbn [clocked plain_bus talking store held heard]. rewrite E. apply says_rest.
Qed.

Lemma low_bits n v : in_range (Z.of_nat n) v -> bits_val (bits_down n (Z.of_nat n - 1) v) = v.
Proof. intros Hv. rewrite bits_val_down. by apply Z.mod_small. Qed.

Lemma decode_read a : in_range 19 a -> bits_val (take 19 (drop 7 (frame (read_msg a)))) = a.
Proof. exact (low_bits 19 a). Qed.
Lemma decode_write_addr a v : in_range 19 a -> bits_val (take 19 (drop 7 (frame (write_msg a v)))) = a.
Proof. exact (low_bits 19 a). Qed.
Lemma decode_write a v : in_range 32 v -> bits_val (take 32 (drop 29 (frame (write_msg a v)))) = v.
Proof. exact (low_bits 32 v). Qed.

Lemma answers_read s p a : in_range 19 a ->
  plain_answer s p (replicate 50 false ++ frame (read_msg a)) = (busy_answer, s, Some (0%nat, bits_down 32 31 (plain_reg s a))).
Proof.
  intros Ha. unfold plain_answer. change (skip_silence (replicate 50 false ++ frame (read_msg a))) with (frame (read_msg a)).
  cbv zeta. rewrite bool_decide_eq_false_2 by (intros E; apply (f_equal length) in E; vm_compute in E; discriminate).
  rewrite decode_read by done. by rewrite bool_decide_eq_true_2.
Qed.

Lemma answers_write s p a v : in_range 19 a -> in_range 32 v ->
  plain_answer s p (replicate 50 false ++ frame (write_msg a v)) = (busy_answer, <[a := v]> s, Some (0%nat, [])).
Proof.
  intros Ha Hv. unfold plain_answer. change (skip_silence (replicate 50 false ++ frame (write_msg a v))) with (frame (write_msg a v)).
  cbv zeta. rewrite decode_write, decode_write_addr by done.
  rewrite bool_decide_eq_false_2 by (intros E; apply (f_equal length) in E; vm_compute in E; discriminate).
  rewrite bool_decide_eq_false_2 by (intros E; apply (f_equal length) in E; vm_compute in E; discriminate).
  by rewrite bool_decide_eq_true_2.
Qed.

Lemma answers_poll s m data :
  plain_answer s (Some (m, data)) (replicate 50 false ++ frame poll_msg) =
  match m with O => (ack_answer data, s, None) | S m' => (busy_answer, s, Some (m', data)) end.
Proof.
  unfold plain_answer. change (skip_silence (replicate 50 false ++ frame poll_msg)) with (frame poll_msg).
  cbv zeta. rewrite bool_decide_eq_true_2 by done. by destruct m.
Qed.

#[export] Instance plain_cfam : CfamSlave (X := plain_slave).
Proof.
  refine {|
    quiet x := talking x = Some [];
    cregs x := plain_reg (store x);
    pending := held;
    delay _ := 1%nat
  |}.
  - intros x a. apply wrap_range. lia.
  - intros _. lia.
  - intros [l t s p] a Hq Hp Ha. cbn in Hq, Hp. subst t p. exists (PlainSlave [] (Some []) s (Some (0%nat, bits_down 32 31 (plain_reg s a)))).
    split; [by apply exchange_answers, answers_read|by split_and!].
  - intros [l t s p] a v Hq Hp Ha Hv. cbn in Hq, Hp. subst t p. exists (PlainSlave [] (Some []) (<[a := v]> s) (Some (0%nat, []))).
    split; [by apply exchange_answers, answers_write|]. split_and!; [done| |done]. intros a'. cbn. unfold plain_reg.
    destruct (Z.eqb_spec a' a) as [->|Hne]; [rewrite lookup_insert_eq; by apply wrap_small|by rewrite lookup_insert_ne].
  - intros [l t s p] m data Hq Hp. cbn in Hq, Hp. subst t p.
    exists (PlainSlave [] (Some []) s (match m with O => None | S m' => Some (m', data) end)).
    pose proof (answers_poll s m data) as E. split; [destruct m; by apply exchange_answers|by split_and!].
Defined.

(** ** The GPIO block *)

(** Three pins share the register at 0, the others are in the register at 0x20. *)
Definition plain_pins (p : gpio) : gpio_pin :=
  match p with
  | GPIO_FSI_CLK => GpioPin 0 4
  | GPIO_FSI_DAT => GpioPin 0 5
  | GPIO_FSI_DAT_EN => GpioPin 0 17
  | GPIO_FSI_ENABLE => GpioPin 0x20 24
  | GPIO_CRONUS_SEL => GpioPin 0x20 6
  end.

(** The registers for data and direction, and the slave. *)
Record plain_block (X : Type) := PlainBlock { data0 : Z; dir0 : Z; data20 : Z; dir20 : Z; attached : X }.
Arguments PlainBlock {X}.
Arguments data0 {X}.
Arguments dir0 {X}.
Arguments data20 {X}.
Arguments dir20 {X}.
Arguments attached {X}.

Section Block.
Context {X : Type} {Sl : Slave X}.
Implicit Types (d : plain_block X).

Definition plain_view (d : plain_block X) : wire X := {|
  latch p := Z.testbit (if offset (plain_pins p) =? 0 then data0 d else data20 d) (bit (plain_pins p));
  out p := Z.testbit (if offset (plain_pins p) =? 0 then dir0 d else dir20 d) (bit (plain_pins p));
  slave := attached d
|}.

#[export] Instance plain_gpio : Gpio (plain_block X) := {|
  gpio_readl a d :=
    if a =? 0 then
      u32 (if Z.testbit (dir0 d) 5 then data0 d
           else if drives (attached d) then Z.lor (data0 d) (Z.shiftl 1 5) else Z.land (data0 d) (Z.lnot (Z.shiftl 1 5)))
    else if a =? 4 then u32 (dir0 d) else if a =? 0x20 then u32 (data20 d) else if a =? 0x24 then u32 (dir20 d) else 0;
  gpio_writel v a d :=
    if a =? 0 then
      let d' := PlainBlock v (dir0 d) (data20 d) (dir20 d) (attached d) in
      if rises (plain_view d) (plain_view d')
      then PlainBlock v (dir0 d) (data20 d) (dir20 d) (clocked (driven (plain_view d')) (attached d)) else d'
    else if a =? 4 then PlainBlock (data0 d) v (data20 d) (dir20 d) (attached d)
    else if a =? 0x20 then PlainBlock (data0 d) (dir0 d) v (dir20 d) (attached d)
    else if a =? 0x24 then PlainBlock (data0 d) (dir0 d) (data20 d) v (attached d) else d
|}.

Lemma plain_write_0 v d : exists x, gpio_writel v 0 d = PlainBlock v (dir0 d) (data20 d) (dir20 d) x.
Proof. cbn. case_match; by eexists. Qed.

Lemma not_rising (w w' : wire X) : latch w' FSI_CLK = latch w FSI_CLK -> rises w w' = false.
Proof. intros E. unfold rises. rewrite E. by destruct (latch w FSI_CLK); rewrite ?andb_false_r. Qed.

Definition data0_read (d : plain_block X) : Z :=
  if Z.testbit (dir0 d) 5 then data0 d
  else if drives (attached d) then Z.lor (data0 d) (Z.shiftl 1 5) else Z.land (data0 d) (Z.lnot (Z.shiftl 1 5)).

Lemma testbit_data0 d i : 0 <= i < 32 -> Z.testbit (u32 (data0_read d)) i =
  if (i =? 5) && negb (Z.testbit (dir0 d) 5) then drives (attached d) else Z.testbit (data0 d) i.
Proof.
  intros Hi. unfold data0_read. destruct (Z.testbit (dir0 d) 5); [|destruct (drives (attached d))]; cbn [negb].
  - rewrite testbit_wrap, andb_false_r by lia. destruct (Z.ltb_spec i 32); [done|lia].
  - rewrite testbit_set, andb_true_r by lia. by destruct (i =? 5).
  - rewrite testbit_clear, andb_true_r by lia. by destruct (i =? 5).
Qed.

Lemma testbit_u32 v i : 0 <= i < 32 -> Z.testbit (u32 v) i = Z.testbit v i.
Proof. intros Hi. rewrite testbit_wrap by lia. destruct (Z.ltb_spec i 32); [done|lia]. Qed.

Lemma read_0 d : gpio_readl 0 d = u32 (data0_read d).
Proof. reflexivity. Qed.
Lemma read_20 d : gpio_readl 0x20 d = u32 (data20 d).
Proof. reflexivity. Qed.
Lemma read_4 d : gpio_readl 4 d = u32 (dir0 d).
Proof. reflexivity. Qed.
Lemma read_24 d : gpio_readl 0x24 d = u32 (dir20 d).
Proof. reflexivity. Qed.

Ltac at_register :=
  cbn [plain_view out latch slave plain_pins offset bit Z.eqb];
  change (0 + GPIO_DATA) with 0; change (0x20 + GPIO_DATA) with 0x20; change (0 + GPIO_DIR) with 4; change (0x20 + GPIO_DIR) with 0x24.

(** The slave moves on exactly when the clock rises. *)
Lemma plain_write_slave v d : let d' := gpio_writel v 0 d in
  slave (plain_view d') = if rises (plain_view d) (plain_view d') then clocked (driven (plain_view d')) (attached d) else attached d.
Proof.
  intros d'. unfold d'. cbn [gpio_writel plain_gpio Z.eqb]. set (d1 := PlainBlock v _ _ _ (attached d)).
  destruct (rises (plain_view d) (plain_view d1)) eqn:E; [|by rewrite E].
  change (rises (plain_view d) (plain_view (PlainBlock v (dir0 d) (data20 d) (dir20 d) (clocked (driven (plain_view d1)) (attached d)))))
    with (rises (plain_view d) (plain_view d1)). by rewrite E.
Qed.

#[export] Instance plain_works : GpioBlock (X := X) plain_pins.
Proof.
  refine {| view := plain_view |}.
  - intros [] []; by cbn.
  - intros []; cbn; lia.
  - intros a d. cbn. repeat case_match; try (apply wrap_range; lia). split; lia.
  - intros d p. unfold level. destruct p; at_register;
      rewrite ?read_0, ?read_20, ?testbit_data0, ?testbit_u32 by lia; cbn [Z.eqb Pos.eqb andb];
      case_match; cbn [negb]; done.
  - intros d p. destruct p; at_register; rewrite ?read_4, ?read_24; by apply testbit_u32.
  - intros d p v q. destruct (plain_write_0 v d) as [x E].
    destruct p; at_register; rewrite ?E; by destruct q.
  - intros d p v q. destruct (plain_write_0 v d) as [x E].
    destruct p; at_register; rewrite ?E; by destruct q.
  - intros d p v d'. unfold d'. destruct p; [exact (plain_write_slave v d)..| |]; by rewrite not_rising.
  - intros d p v q. by destruct p, q.
  - intros d p v q. by destruct p, q.
  - intros d p v. by destruct p.
Defined.
End Block.

(** ** The theorems at work *)

Definition cfam_block : plain_block plain_slave :=
  PlainBlock 0 (2 ^ 17) 0 0 (PlainSlave [] (Some []) {[0x402 := 0xdeadbeef]} None).

Lemma cfam_access_witness :
  wp (fsi_getcfam plain_pins 0x1002) (World ∅ 0%nat cfam_block)
     (leaves_regs ∅ 0 (cregs (attached cfam_block)) (0, Some 0xdeadbeef)) /\
  wp (fsi_putcfam plain_pins 0x1002 0x1234;; fsi_getcfam plain_pins 0x1002) (World ∅ 0%nat cfam_block)
     (leaves_regs ∅ 0 (fun a => if a =? 0x402 then 0x1234 else cregs (attached cfam_block) a) (0, Some 0x1234)).
Proof.
  assert (free_bus cfam_block (attached cfam_block)) as Hf by (split; reflexivity).
  assert (waiting (attached cfam_block)) as Hw by (split; reflexivity).
  assert (in_range 21 0x1002) as Ha by done. assert (in_range 32 0x1234) as Hv by done.
  destruct (cfam_access plain_pins cfam_block (attached cfam_block) 0x1002 ∅ 0 Hf Hw Ha) as [Hget Hput].
  split; [exact Hget|]. exact (proj2 (Hput 0x1234 Hv)).
Defined.

(** A slave that says what it was told to, whatever it hears. *)
#[export] Instance script_bus : Slave (list bool) := {|
  drives x := line x;
  clocked dat x := match dat with Some _ => x | None => tail x end
|}.

Definition script_block (x : list bool) : plain_block (list bool) := PlainBlock 0 (2 ^ 17) 0 0 x.





(** ** What the protocol leaves open *)

(** Addresses are not kept apart: the lower ten bits are shifted into the bits above them. *)
Lemma bus_addr_alias : fsi_abs_ar 0x100 1 = fsi_abs_ar 0x400 1.
Proof. reflexivity. Qed.

(** The acknowledgement of slave 1 is taken for a short answer: its data are cut off, and
    the call succeeds with another value. *)
Definition slave_1_ack (v : Z) : list bool := frame ([false; true; false; false] ++ bits_down 32 31 v).

Lemma slave_1_misread :
  let v := 0x74000000 in
  (fsi_getcfam plain_pins 0x200c09 (World ∅ 0%nat (script_block (slave_1_ack v)))).1 = Ret (0, Some 3).
Proof. vm_compute. reflexivity. Qed.
