(* ===== verification/P10Scom.v ===== *)
(** * libpdbg: SCOM addresses of the POWER10 units

    Models libpdbg/p10_scom_addr.h and the [translate] operations of
    libpdbg/p10_fapi_targets.c. An address is a 64-bit [Z], the index of a
    target an [int]; a failed [assert] is [None]. *)

From S2P Require Import Prelude.

Definition N0_CHIPLET_ID : Z := 0x02.
Definition N1_CHIPLET_ID : Z := 0x03.
Definition PCI0_CHIPLET_ID : Z := 0x08.
Definition MC0_CHIPLET_ID : Z := 0x0C.
Definition PAU0_CHIPLET_ID : Z := 0x10.
Definition PAU1_CHIPLET_ID : Z := 0x11.
Definition PAU2_CHIPLET_ID : Z := 0x12.
Definition PAU3_CHIPLET_ID : Z := 0x13.
Definition AXON0_CHIPLET_ID : Z := 0x18.
Definition AXON7_CHIPLET_ID : Z := 0x1F.
Definition EQ0_CHIPLET_ID : Z := 0x20.

(** ** p10_scom_addr.h *)

Definition get_chiplet_id (addr : Z) : Z := Z.land (Z.shiftr addr 24) 0x3F.

Definition set_chiplet_id (addr chiplet_id : Z) : Z :=
  let addr := Z.land addr 0xFFFFFFFFC0FFFFFF in
  Z.lor addr (Z.shiftl (Z.land (u8 chiplet_id) 0x3F) 24).

Definition get_ring_id (addr : Z) : Z := Z.land (Z.shiftr addr 10) 0xF.

Definition set_ring_id (addr ring : Z) : Z :=
  let addr := Z.land addr 0xFFFFFFFFFFFF03FF in
  Z.lor addr (Z.shiftl (Z.land ring 0x3F) 10).

Definition get_io_lane (addr : Z) : Z := Z.land (Z.shiftr addr 32) 0x1F.

Definition set_io_lane (addr lane : Z) : Z :=
  let addr := Z.land addr 0xFFFFFFE0FFFFFFFF in
  Z.lor addr (Z.shiftl (Z.land lane 0x1F) 32).

Definition set_ody_ring_id (addr ring : Z) : Z :=
  let addr := Z.land addr 0xFFFFFFFFFFFFC3FF in
  Z.lor addr (Z.shiftl (Z.land (u8 ring) 0xF) 10).

Definition get_sat_id (addr : Z) : Z := Z.land (Z.shiftr addr 6) 0xF.

Definition set_sat_id (addr sat_id : Z) : Z :=
  let addr := Z.land addr 0xFFFFFFFFFFFFFC3F in
  Z.lor addr (Z.shiftl (Z.land (u8 sat_id) 0xF) 6).

Definition get_sat_offset (addr : Z) : Z := Z.land addr 0x3F.

Definition set_sat_offset (addr sat_offset : Z) : Z :=
  let addr := Z.land addr 0xFFFFFFFFFFFFFFC0 in
  Z.lor addr (Z.land (u8 sat_offset) 0x3F).

Definition set_io_group_addr (addr group_addr : Z) : Z :=
  let addr := Z.land addr 0xFFFFFC1FFFFFFFFF in
  Z.lor addr (Z.shiftl (Z.land group_addr 0x1F) 37).

(** ** p10_fapi_targets.c *)

(** [lo <= x && x <= hi] *)
Definition between (lo x hi : Z) : bool := (lo <=? x) && (x <=? hi).

Definition p10_eq_translate (index addr : Z) : Z := set_chiplet_id addr (EQ0_CHIPLET_ID + index).

Definition p10_pec_translate (index addr : Z) : Z :=
  let chip_unitnum := index in
  if between N0_CHIPLET_ID (get_chiplet_id addr) N1_CHIPLET_ID
  then set_chiplet_id addr (if truthy chip_unitnum then N0_CHIPLET_ID else N1_CHIPLET_ID)
  else set_chiplet_id addr (PCI0_CHIPLET_ID + index).

Definition p10_phb_translate (index addr : Z) : Z :=
  let chip_unitnum := index in
  if between N0_CHIPLET_ID (get_chiplet_id addr) N1_CHIPLET_ID then
    let addr := set_chiplet_id addr
                  (if truthy (Z.quot chip_unitnum 3) then N0_CHIPLET_ID else N1_CHIPLET_ID) in
    set_sat_id addr (1 + Z.rem chip_unitnum 3)
  else
    let addr := set_chiplet_id addr (Z.quot chip_unitnum 3 + PCI0_CHIPLET_ID) in
    if get_ring_id addr =? 2 then
      if between 1 (get_sat_id addr) 3
      then set_sat_id addr (1 + Z.rem chip_unitnum 3)
      else set_sat_id addr (4 + Z.rem chip_unitnum 3)
    else addr.

Definition p10_nmmu_translate (index addr : Z) : Z := set_chiplet_id addr (index + N0_CHIPLET_ID).

Definition p10_iohs_translate (index addr : Z) : Z :=
  let chip_unitnum := index in
  let addr :=
    if between AXON0_CHIPLET_ID (get_chiplet_id addr) AXON7_CHIPLET_ID
    then set_chiplet_id addr (AXON0_CHIPLET_ID + chip_unitnum)
    else if between PAU0_CHIPLET_ID (get_chiplet_id addr) PAU3_CHIPLET_ID
    then set_chiplet_id addr (Z.quot chip_unitnum 2 + PAU0_CHIPLET_ID)
    else addr in
  if between PAU0_CHIPLET_ID (get_chiplet_id addr) PAU3_CHIPLET_ID then
    if truthy (Z.rem chip_unitnum 2) then set_io_group_addr addr 0x1 else set_io_group_addr addr 0x0
  else addr.

Definition p10_mimc_translate (index addr : Z) : Z := set_chiplet_id addr (index + MC0_CHIPLET_ID).

Definition p10_mcc_translate (index addr : Z) : Z :=
  let chip_unitnum := index in
  let offset := get_sat_offset addr in
  let addr := set_chiplet_id addr (Z.quot chip_unitnum 2 + MC0_CHIPLET_ID) in
  let sat := get_sat_id addr in
  if truthy (Z.rem chip_unitnum 2) then
    if sat =? 0x4 then set_sat_id addr 0x5
    else if sat =? 0x8 then set_sat_id addr 0x9
    else if sat =? 0x0 then
      if between 0x22 offset 0x2b then set_sat_offset addr (offset + 0x10) else addr
    else if sat =? 0xd then
      if between 0x00 offset 0x1f then set_sat_offset addr (offset + 0x20) else addr
    else addr
  else
    if sat =? 0x5 then set_sat_id addr 0x4
    else if sat =? 0x9 then set_sat_id addr 0x8
    else if sat =? 0x0 then
      if between 0x32 offset 0x3b then set_sat_offset addr (offset - 0x10) else addr
    else if sat =? 0xd then
      if between 0x20 offset 0x3f then set_sat_offset addr (offset - 0x20) else addr
    else addr.

Definition p10_omic_translate (index addr : Z) : option Z :=
  let chip_unitnum := index in
  let chiplet_id := get_chiplet_id addr in
  if between PAU0_CHIPLET_ID chiplet_id PAU3_CHIPLET_ID then
    addr ← (if (chip_unitnum =? 0) || (chip_unitnum =? 1)
            then Some (set_chiplet_id addr PAU0_CHIPLET_ID)
            else if (chip_unitnum =? 2) || (chip_unitnum =? 3)
            then Some (set_chiplet_id addr PAU2_CHIPLET_ID)
            else if (chip_unitnum =? 4) || (chip_unitnum =? 5)
            then Some (set_chiplet_id addr PAU1_CHIPLET_ID)
            else if (chip_unitnum =? 6) || (chip_unitnum =? 7)
            then Some (set_chiplet_id addr PAU3_CHIPLET_ID)
            else None);
    Some (if truthy (Z.rem chip_unitnum 2) then set_io_group_addr addr 0x3
          else set_io_group_addr addr 0x2)
  else
    let addr := set_chiplet_id addr (Z.quot chip_unitnum 2 + MC0_CHIPLET_ID) in
    Some (if truthy (Z.rem chip_unitnum 2) then set_ring_id addr 0x6 else set_ring_id addr 0x5).

Definition p10_omi_translate (index addr : Z) : option Z :=
  let chip_unitnum := index in
  let chiplet_id := get_chiplet_id addr in
  if between PAU0_CHIPLET_ID chiplet_id PAU3_CHIPLET_ID then
    addr ← (if between 0 chip_unitnum 3 then Some (set_chiplet_id addr PAU0_CHIPLET_ID)
            else if between 4 chip_unitnum 7 then Some (set_chiplet_id addr PAU2_CHIPLET_ID)
            else if between 8 chip_unitnum 11 then Some (set_chiplet_id addr PAU1_CHIPLET_ID)
            else if between 12 chip_unitnum 15 then Some (set_chiplet_id addr PAU3_CHIPLET_ID)
            else None);
    let addr := if truthy (Z.rem chip_unitnum 2)
                then set_io_lane addr (8 + get_io_lane addr mod 8)
                else set_io_lane addr (get_io_lane addr mod 8) in
    Some (if truthy (Z.rem (Z.quot chip_unitnum 2) 2) then set_io_group_addr addr 0x3
          else set_io_group_addr addr 0x2)
  else
    let addr := set_chiplet_id addr (Z.quot chip_unitnum 4 + MC0_CHIPLET_ID) in
    let addr :=
      if between 16 (get_sat_offset addr) 47 then
        if truthy (Z.rem chip_unitnum 2)
        then set_sat_offset addr (32 + get_sat_offset addr mod 16)
        else set_sat_offset addr (16 + get_sat_offset addr mod 16)
      else
        if truthy (Z.rem chip_unitnum 2)
        then set_sat_offset addr (56 + get_sat_offset addr mod 4)
        else set_sat_offset addr (48 + get_sat_offset addr mod 4) in
    Some (if truthy (Z.rem (Z.quot chip_unitnum 2) 2) then set_ring_id addr 0x6
          else set_ring_id addr 0x5).

Definition p10_pauc_translate (index addr : Z) : Z := set_chiplet_id addr (index + PAU0_CHIPLET_ID).

Definition p10_pau_translate (index addr : Z) : Z :=
  let chip_unitnum := index in
  let addr := set_chiplet_id addr (Z.quot chip_unitnum 2 + PAU0_CHIPLET_ID) in
  if bool_decide (chip_unitnum ∈ [0; 3; 4; 6]) then
    if get_ring_id addr =? 0x4 then set_ring_id addr 0x2
    else if get_ring_id addr =? 0x5 then set_ring_id addr 0x3
    else addr
  else if bool_decide (chip_unitnum ∈ [1; 2; 5; 7]) then
    if get_ring_id addr =? 0x2 then set_ring_id addr 0x4
    else if get_ring_id addr =? 0x3 then set_ring_id addr 0x5
    else addr
  else addr.

Definition p10_chiplet_translate (index addr : Z) : Z := set_chiplet_id addr index.

Definition no_translate (index addr : Z) : Z := 0.

(** What is known of the parent of a memory port. *)
Inductive port_parent := OdysseyOcmb | OtherOcmb | NotOcmb.

(** The values of the [set_ody_ring_id] calls are not used. *)
Definition p10_memport_translate (parent : port_parent) (index addr : Z) : Z :=
  match parent with
  | OtherOcmb | NotOcmb => 0
  | OdysseyOcmb =>
      let l_ring := get_ring_id addr in
      let unused :=
        if (l_ring =? 0x6) || (l_ring =? 0xA)
        then if index =? 0 then set_ody_ring_id addr 0x6 else set_ody_ring_id addr 0xA
        else addr in
      let unused :=
        if (l_ring =? 0xC) || (l_ring =? 0xD)
        then if index =? 0 then set_ody_ring_id addr 0xC else set_ody_ring_id addr 0xD
        else unused in
      addr
  end.
