(* ===== verification/P10Place.v ===== *)
(** * libpdbg: where the POWER10 units keep their registers

    A table-driven description of the address map: for each unit and instance, the
    address fields the instance decides. The [translate] operations of
    p10_fapi_targets.c set exactly these fields ([translate_placed]). *)

From S2P Require Import Prelude P10Scom.

(** ** libpdbg: the fields of a POWER10 SCOM address

    The accessors of p10_scom_addr.h are instances of one field accessor, whose
    laws are proved bit by bit. *)

(** ** Bit fields *)

Definition get_field (lo w a : Z) : Z := Z.land (Z.shiftr a lo) (Z.ones w).
Definition set_field (lo w a v : Z) : Z :=
  Z.lor (Z.ldiff a (Z.shiftl (Z.ones w) lo)) (Z.shiftl (Z.land v (Z.ones w)) lo).

Lemma testbit_get_field lo w a i :
  0 <= lo -> 0 <= w -> 0 <= i ->
  Z.testbit (get_field lo w a) i = (i <? w) && Z.testbit a (i + lo).
Proof.
  intros Hlo Hw Hi. unfold get_field. rewrite Z.land_spec, Z.shiftr_spec, Z.testbit_ones_nonneg by lia.
  apply andb_comm.
Qed.

Lemma testbit_set_field lo w a v i :
  0 <= lo -> 0 <= w -> 0 <= i ->
  Z.testbit (set_field lo w a v) i =
  if (lo <=? i) && (i <? lo + w) then Z.testbit v (i - lo) else Z.testbit a i.
Proof.
  intros Hlo Hw Hi. unfold set_field. rewrite Z.lor_spec, Z.ldiff_spec, !Z.shiftl_spec by lia.
  destruct (Z.leb_spec lo i).
  - rewrite Z.land_spec, !Z.testbit_ones_nonneg by lia. replace (i - lo <? w) with (i <? lo + w)
      by (destruct (Z.ltb_spec i (lo + w)), (Z.ltb_spec (i - lo) w); lia).
    destruct (i <? lo + w); simpl; [by rewrite andb_false_r, andb_true_r|by rewrite andb_false_r, orb_false_r, andb_true_r].
  - rewrite !(Z.testbit_neg_r _ (i - lo)) by lia. by rewrite orb_false_r, andb_true_r.
Qed.

(** [solve_bits]: equality of two expressions made of fields, bit by bit. *)
Ltac solve_bits :=
  apply Z.bits_inj'; let i := fresh "i" in intros i ?;
  rewrite ?testbit_set_field, ?testbit_get_field by lia;
  repeat match goal with
  | |- context [?x <=? ?y] => destruct (Z.leb_spec x y)
  | |- context [?x <? ?y] => destruct (Z.ltb_spec x y)
  end; simpl; try lia; try reflexivity.

Definition disjoint (lo1 w1 lo2 w2 : Z) : Prop := lo1 + w1 <= lo2 \/ lo2 + w2 <= lo1.

Section Laws.
Context (lo w : Z) (Hlo : 0 <= lo) (Hw : 0 <= w).

Lemma get_set_same w' a v : 0 <= w' <= w -> get_field lo w' (set_field lo w a v) = Z.land v (Z.ones w').
Proof.
  intros Hw'. apply Z.bits_inj'. intros i Hi. rewrite testbit_get_field, testbit_set_field by lia.
  rewrite Z.land_spec, Z.testbit_ones_nonneg by lia.
  destruct (Z.ltb_spec i w'); simpl; [|by rewrite andb_false_r].
  destruct (Z.leb_spec lo (i + lo)); [|lia]. destruct (Z.ltb_spec (i + lo) (lo + w)); [|lia].
  simpl. rewrite andb_true_r. f_equal. lia.
Qed.

Lemma get_set_other lo' w' a v :
  0 <= lo' -> 0 <= w' -> disjoint lo w lo' w' ->
  get_field lo' w' (set_field lo w a v) = get_field lo' w' a.
Proof.
  intros Hlo' Hw' Hd. unfold disjoint in Hd. apply Z.bits_inj'. intros i Hi.
  rewrite !testbit_get_field, testbit_set_field by lia.
  destruct (Z.ltb_spec i w'); simpl; [|done].
  destruct (Z.leb_spec lo (i + lo')), (Z.ltb_spec (i + lo') (lo + w)); simpl; try lia; reflexivity.
Qed.

Lemma set_set_same a v u : set_field lo w (set_field lo w a v) u = set_field lo w a u.
Proof. solve_bits. Qed.

Lemma set_set_comm lo' w' a v u :
  0 <= lo' -> 0 <= w' -> disjoint lo w lo' w' ->
  set_field lo' w' (set_field lo w a v) u = set_field lo w (set_field lo' w' a u) v.
Proof. intros Hlo' Hw' Hd. unfold disjoint in Hd. solve_bits. Qed.

Lemma set_get a v : get_field lo w a = v -> set_field lo w a v = a.
Proof.
  intros <-. apply Z.bits_inj'. intros i Hi. rewrite testbit_set_field by lia.
  destruct (Z.leb_spec lo i), (Z.ltb_spec i (lo + w)); simpl; try done.
  rewrite testbit_get_field by lia. destruct (Z.ltb_spec (i - lo) w); [|lia]. simpl. f_equal. lia.
Qed.

(** Values that agree on the bits of the field are interchangeable. *)
Lemma set_field_ext a v u : Z.land v (Z.ones w) = Z.land u (Z.ones w) -> set_field lo w a v = set_field lo w a u.
Proof. intros E. unfold set_field. by rewrite E. Qed.
End Laws.

Lemma in_range_bits w a : 0 <= w -> (in_range w a <-> 0 <= a /\ forall i, w <= i -> Z.testbit a i = false).
Proof.
  intros Hw. unfold in_range. split.
  - intros [H0 H1]. split; [done|]. intros i Hi. rewrite <- (Z.mod_small a (2 ^ w)) by lia.
    apply Z.mod_pow2_bits_high. lia.
  - intros [H0 H]. split; [done|].
    assert (E : a = a mod 2 ^ w).
    { apply Z.bits_inj'. intros i Hi. destruct (Z.ltb_spec i w).
      - by rewrite Z.mod_pow2_bits_low.
      - rewrite Z.mod_pow2_bits_high by lia. auto. }
    rewrite E. apply Z.mod_pos_bound. lia.
Qed.

Lemma set_field_range lo w n a v :
  0 <= lo -> 0 <= w -> lo + w <= n -> in_range n a -> in_range n (set_field lo w a v).
Proof.
  intros Hlo Hw Hn Ha. apply in_range_bits in Ha as [H0 Ha]; [|lia]. apply in_range_bits; [lia|]. split.
  - unfold set_field. apply Z.lor_nonneg. split; [apply Z.ldiff_nonneg; by left|].
    apply Z.shiftl_nonneg, Z.land_nonneg. right. rewrite Z.ones_equiv. pose proof (Z.pow_pos_nonneg 2 w). lia.
  - intros i Hi. rewrite testbit_set_field by lia.
    destruct (Z.ltb_spec i (lo + w)); [lia|]. rewrite andb_false_r. apply Ha. lia.
Qed.

(** ** The accessors as fields *)

(** A setter written with the mask [m] of the other bits. *)
Lemma masked_set_field lo w a v m :
  in_range 64 a -> 0 <= lo -> 0 <= w -> m = Z.ldiff (Z.ones 64) (Z.shiftl (Z.ones w) lo) ->
  Z.lor (Z.land a m) (Z.shiftl (Z.land v (Z.ones w)) lo) = set_field lo w a v.
Proof.
  intros Ha Hlo Hw ->. unfold set_field. f_equal. apply in_range_bits in Ha as [_ Ha]; [|lia].
  apply Z.bits_inj'. intros i Hi. rewrite Z.land_spec, !Z.ldiff_spec, Z.testbit_ones_nonneg by lia.
  destruct (Z.ltb_spec i 64); simpl; [done|]. rewrite Ha by lia. done.
Qed.

Lemma land_u8 v w : 0 <= w <= 8 -> Z.land (u8 v) (Z.ones w) = Z.land v (Z.ones w).
Proof.
  intros Hw. unfold wrap. rewrite <- Z.land_ones by lia. rewrite <- Z.land_assoc. f_equal.
  apply Z.bits_inj'. intros i Hi. rewrite Z.land_spec, !Z.testbit_ones_nonneg by lia.
  destruct (Z.ltb_spec i 8), (Z.ltb_spec i w); try done; lia.
Qed.

Section Accessors.
Context (a v : Z) (Ha : in_range 64 a).

Lemma set_chiplet_id_field : set_chiplet_id a v = set_field 24 6 a v.
Proof.
  unfold set_chiplet_id. change 0x3F with (Z.ones 6). rewrite land_u8 by lia. by apply masked_set_field.
Qed.
Lemma set_ring_id_field : set_ring_id a v = set_field 10 6 a v.
Proof. unfold set_ring_id. change 0x3F with (Z.ones 6). by apply masked_set_field. Qed.
Lemma set_io_lane_field : set_io_lane a v = set_field 32 5 a v.
Proof. unfold set_io_lane. change 0x1F with (Z.ones 5). by apply masked_set_field. Qed.
Lemma set_sat_id_field : set_sat_id a v = set_field 6 4 a v.
Proof.
  unfold set_sat_id. change 0xF with (Z.ones 4). rewrite land_u8 by lia. by apply masked_set_field.
Qed.
Lemma set_ody_ring_id_field : set_ody_ring_id a v = set_field 10 4 a v.
Proof.
  unfold set_ody_ring_id. change 0xF with (Z.ones 4). rewrite land_u8 by lia. by apply masked_set_field.
Qed.
Lemma set_sat_offset_field : set_sat_offset a v = set_field 0 6 a v.
Proof.
  unfold set_sat_offset. change 0x3F with (Z.ones 6). rewrite land_u8 by lia.
  rewrite <- (masked_set_field 0 6 a v 0xFFFFFFFFFFFFFFC0) by done. by rewrite Z.shiftl_0_r.
Qed.
Lemma set_io_group_addr_field : set_io_group_addr a v = set_field 37 5 a v.
Proof. unfold set_io_group_addr. change 0x1F with (Z.ones 5). by apply masked_set_field. Qed.
End Accessors.

(** ** The units and their instances *)

Inductive p10_unit := Eq | Pec | Phb | Nmmu | Iohs | Mi | Mc | Mcc | Omic | Omi | Pauc | Pau.

#[export] Instance p10_unit_eq_dec : EqDecision p10_unit.
Proof. solve_decision. Defined.

(** The [translate] member of the unit's target. *)
Definition p10_translate (u : p10_unit) (index addr : Z) : option Z :=
  match u with
  | Eq => Some (p10_eq_translate index addr)
  | Pec => Some (p10_pec_translate index addr)
  | Phb => Some (p10_phb_translate index addr)
  | Nmmu => Some (p10_nmmu_translate index addr)
  | Iohs => Some (p10_iohs_translate index addr)
  | Mi | Mc => Some (p10_mimc_translate index addr)
  | Mcc => Some (p10_mcc_translate index addr)
  | Omic => p10_omic_translate index addr
  | Omi => p10_omi_translate index addr
  | Pauc => Some (p10_pauc_translate index addr)
  | Pau => Some (p10_pau_translate index addr)
  end.

(** The number of instances in the device tree. *)
Definition p10_instances (u : p10_unit) : Z :=
  match u with
  | Eq | Iohs | Mcc | Omic | Pau => 8
  | Pec | Nmmu => 2
  | Phb => 6
  | Mi | Mc | Pauc => 4
  | Omi => 16
  end.

(** The address of a PAU register has a ring of four bits. *)
Definition ring_fits (u : p10_unit) (addr : Z) : Prop := u = Pau -> get_field 14 2 addr = 0.

(** ** Automation *)

#[local] Arguments get_field : simpl never.
#[local] Arguments set_field : simpl never.
#[local] Arguments get_chiplet_id : simpl never.
#[local] Arguments get_ring_id : simpl never.
#[local] Arguments get_io_lane : simpl never.
#[local] Arguments get_sat_id : simpl never.
#[local] Arguments get_sat_offset : simpl never.
#[local] Arguments set_chiplet_id : simpl never.
#[local] Arguments set_ring_id : simpl never.
#[local] Arguments set_io_lane : simpl never.
#[local] Arguments set_sat_id : simpl never.
#[local] Arguments set_sat_offset : simpl never.
#[local] Arguments set_io_group_addr : simpl never.

Lemma get_set_small lo w a v : 0 <= lo -> 0 <= w -> 0 <= v < 2 ^ w -> get_field lo w (set_field lo w a v) = v.
Proof. intros ? ? ?. rewrite get_set_same by lia. rewrite Z.land_ones by lia. by apply Z.mod_small. Qed.

Lemma get_field_bounds lo w a : 0 <= w -> 0 <= get_field lo w a < 2 ^ w.
Proof. intros ?. unfold get_field. rewrite Z.land_ones by lia. apply Z.mod_pos_bound. lia. Qed.

Lemma get_chiplet_id_field a : get_chiplet_id a = get_field 24 6 a. Proof. reflexivity. Qed.
Lemma get_ring_id_field a : get_ring_id a = get_field 10 4 a. Proof. reflexivity. Qed.
Lemma get_io_lane_field a : get_io_lane a = get_field 32 5 a. Proof. reflexivity. Qed.
Lemma get_sat_id_field a : get_sat_id a = get_field 6 4 a. Proof. reflexivity. Qed.
Lemma get_sat_offset_field a : get_sat_offset a = get_field 0 6 a.
Proof. unfold get_field. by rewrite Z.shiftr_0_r. Qed.

Lemma lt_cases i n : 0 <= i < n -> i ∈ seqZ 0 n.
Proof. intros Hi. apply elem_of_seqZ. lia. Qed.

(** [each i H]: one goal for each value of [i], where [H : 0 <= i < n]. *)
Ltac each i H :=
  apply lt_cases in H; vm_compute in H;
  repeat (apply elem_of_cons in H as [->|H]); [..|by apply elem_of_nil in H].

(** [fields]: accessors become fields, and what was just set is read back. *)
Ltac r64 := repeat (apply set_field_range; [lia|lia|lia|]); assumption.
Ltac fields :=
  rewrite ?get_chiplet_id_field, ?get_ring_id_field, ?get_io_lane_field, ?get_sat_id_field,
    ?get_sat_offset_field;
  rewrite ?set_chiplet_id_field, ?set_ring_id_field, ?set_io_lane_field, ?set_sat_id_field,
    ?set_sat_offset_field, ?set_io_group_addr_field by r64;
  rewrite ?get_set_small by (first [lia | split; vm_compute; [discriminate|reflexivity]]);
  rewrite ?get_set_other by (first [lia | unfold disjoint; lia]).

(** [pick] decides the comparisons in the goal, [settled] compares two settings of
    one field, or a setting with the value that is there. *)
Ltac eucl := Z.to_euclidean_division_equations; lia.
Ltac apart := first [lia | unfold disjoint; lia].
Ltac pick :=
  repeat (cbn; match goal with
  | |- context [?x =? ?y] => destruct (Z.eqb_spec x y); try lia
  | |- context [?x <=? ?y] => destruct (Z.leb_spec x y); try lia
  end); cbn.
Ltac settled :=
  first [ reflexivity | f_equal; eucl
        | symmetry; apply set_get; [lia|lia|]; rewrite ?get_set_other by apart; eucl ].

(** ** Placements

    Where an instance keeps a register: the value of each address field the
    instance decides, [None] for a field it leaves alone. *)

Record placement := Place
  { pl_chiplet : Z;
    pl_ring : option Z;
    pl_sat : option Z;
    pl_offset : option Z;
    pl_lane : option Z;
    pl_group : option Z }.

Definition put_field (lo w : Z) (o : option Z) (a : Z) : Z :=
  match o with Some v => set_field lo w a v | None => a end.

Definition put (p : placement) (a : Z) : Z :=
  put_field 37 5 (pl_group p) (put_field 32 5 (pl_lane p) (put_field 10 6 (pl_ring p)
    (put_field 0 6 (pl_offset p) (put_field 6 4 (pl_sat p) (set_field 24 6 a (pl_chiplet p)))))).

(** The chiplet of the PAU that drives a pair of memory channels. *)
Definition omi_pau (mc : Z) : Z := if mc =? 1 then 0x12 else if mc =? 2 then 0x11 else 0x10 + mc.

Definition in_nest (a : Z) : bool := between 2 (get_field 24 6 a) 3.
Definition in_pau (a : Z) : bool := between 0x10 (get_field 24 6 a) 0x13.
Definition in_axon (a : Z) : bool := between 0x18 (get_field 24 6 a) 0x1F.

(** The halves of a memory channel: two satellites, or two register windows
    of one satellite. *)
Definition mcc_sat (i a : Z) : option Z :=
  let sat := get_field 6 4 a in
  if between 4 sat 5 then Some (4 + i mod 2) else if between 8 sat 9 then Some (8 + i mod 2) else None.

Definition mcc_offset (i a : Z) : option Z :=
  let sat := get_field 6 4 a in
  let off := get_field 0 6 a in
  if (sat =? 0) && between 0x22 off 0x2b then Some (off + 0x10 * (i mod 2))
  else if (sat =? 0) && between 0x32 off 0x3b then Some (off - 0x10 + 0x10 * (i mod 2))
  else if sat =? 0xd then Some (off mod 0x20 + 0x20 * (i mod 2))
  else None.

Definition place_pau (i a : Z) : placement :=
  let ring := get_field 10 6 a in
  let bank := if bool_decide (i ∈ [0; 3; 4; 6]) then 2 else 4 in
  Place (0x10 + i / 2) (if between 2 ring 5 then Some (bank + ring mod 2) else None) None None None None.

Definition place_phb (i a : Z) : placement :=
  if in_nest a then Place (3 - i / 3) None (Some (1 + i mod 3)) None None None
  else Place (8 + i / 3) None
         (if get_field 10 4 a =? 2 then
            Some ((if between 1 (get_field 6 4 a) 3 then 1 else 4) + i mod 3)
          else None) None None None.

Definition place_iohs (i a : Z) : placement :=
  if in_axon a then Place (0x18 + i) None None None None None
  else if in_pau a then Place (0x10 + i / 2) None None None None (Some (i mod 2))
  else Place (get_field 24 6 a) None None None None None.

Definition place_omic (i a : Z) : placement :=
  if in_pau a then Place (omi_pau (i / 2)) None None None None (Some (2 + i mod 2))
  else Place (0xC + i / 2) (Some (5 + i mod 2)) None None None None.

Definition place_omi (i a : Z) : placement :=
  if in_pau a then
    Place (omi_pau (i / 4)) None None None (Some (8 * (i mod 2) + get_field 32 5 a mod 8))
      (Some (2 + i / 2 mod 2))
  else
    let off := get_field 0 6 a in
    Place (0xC + i / 4) (Some (5 + i / 2 mod 2)) None
      (Some (if between 16 off 47 then 16 + 16 * (i mod 2) + off mod 16
             else 48 + 8 * (i mod 2) + off mod 4)) None None.

Definition place (u : p10_unit) (i a : Z) : placement :=
  match u with
  | Eq => Place (0x20 + i) None None None None None
  | Pec => Place (if in_nest a then 3 - i else 8 + i) None None None None None
  | Nmmu => Place (2 + i) None None None None None
  | Mi | Mc => Place (0xC + i) None None None None None
  | Pauc => Place (0x10 + i) None None None None None
  | Phb => place_phb i a
  | Iohs => place_iohs i a
  | Mcc => Place (0xC + i / 2) None (mcc_sat i a) (mcc_offset i a) None None
  | Omic => place_omic i a
  | Omi => place_omi i a
  | Pau => place_pau i a
  end.

(** ** Every translation is its placement *)

Section Refine.
Context (i a : Z) (Ha : in_range 64 a).

Lemma omi_placed : 0 <= i < 16 -> p10_omi_translate i a = Some (put (place Omi i a) a).
Proof.
  intros Hi. unfold p10_omi_translate, place, place_omi, put.
  change (between PAU0_CHIPLET_ID (get_chiplet_id a) PAU3_CHIPLET_ID) with (in_pau a).
  destruct (in_pau a).
 - each i Hi; cbn; fields; reflexivity.
 - each i Hi; cbn; fields; destruct (between 16 _ 47); cbn; fields; reflexivity.
Qed.
Lemma omic_placed : 0 <= i < 8 -> p10_omic_translate i a = Some (put (place Omic i a) a).
Proof.
  intros Hi. unfold p10_omic_translate, place, place_omic, put.
  change (between PAU0_CHIPLET_ID (get_chiplet_id a) PAU3_CHIPLET_ID) with (in_pau a).
  destruct (in_pau a); each i Hi; cbn; fields; reflexivity.
Qed.
Lemma phb_placed : 0 <= i < 6 -> p10_phb_translate i a = put (place Phb i a) a.
Proof.
  intros Hi. unfold p10_phb_translate, place, place_phb, put.
  change (between N0_CHIPLET_ID (get_chiplet_id a) N1_CHIPLET_ID) with (in_nest a).
  destruct (in_nest a); each i Hi; cbn; fields; try reflexivity.
  all: destruct (_ =? 2); [destruct (between 1 _ 3)|]; reflexivity.
Qed.
Lemma pec_placed : 0 <= i < 2 -> p10_pec_translate i a = put (place Pec i a) a.
Proof.
  intros Hi. unfold p10_pec_translate, place, put.
  change (between N0_CHIPLET_ID (get_chiplet_id a) N1_CHIPLET_ID) with (in_nest a).
  destruct (in_nest a); each i Hi; cbn; fields; reflexivity.
Qed.
Lemma iohs_placed : 0 <= i < 8 -> p10_iohs_translate i a = put (place Iohs i a) a.
Proof.
  intros Hi. unfold p10_iohs_translate, place, place_iohs, put.
  change (between AXON0_CHIPLET_ID (get_chiplet_id a) AXON7_CHIPLET_ID) with (in_axon a).
  change (between PAU0_CHIPLET_ID (get_chiplet_id a) PAU3_CHIPLET_ID) with (in_pau a).
  destruct (in_axon a); [|destruct (in_pau a) eqn:E]; unfold AXON0_CHIPLET_ID, PAU0_CHIPLET_ID.
  - each i Hi; cbn; fields; reflexivity.
  - each i Hi; cbn; fields; reflexivity.
  - change (between 0x10 (get_chiplet_id a) PAU3_CHIPLET_ID) with (in_pau a).
    rewrite E. symmetry. by apply set_get.
Qed.
Lemma mcc_placed : 0 <= i < 8 -> p10_mcc_translate i a = put (place Mcc i a) a.
Proof.
  intros Hi. unfold p10_mcc_translate, place, put, mcc_sat, mcc_offset, between, MC0_CHIPLET_ID. cbn.
  pose proof (get_field_bounds 6 4 a ltac:(lia)). pose proof (get_field_bounds 0 6 a ltac:(lia)).
  rewrite Z.quot_div_nonneg, Z.rem_mod_nonneg, (Z.add_comm (i / 2)) by lia. fields.
  assert (i mod 2 = 0 \/ i mod 2 = 1) as E by eucl.
  destruct E as [->| ->]; cbn; pick; settled.
Qed.
Lemma ring_4_bits : get_field 14 2 a = 0 -> get_field 10 6 a = get_field 10 4 a.
Proof.
  intros E. apply Z.bits_inj'. intros k Hk. rewrite !testbit_get_field by lia.
  destruct (Z.ltb_spec k 6), (Z.ltb_spec k 4); cbn; try lia; try reflexivity.
  assert (Z.testbit (get_field 14 2 a) (k - 4) = false) as B by (by rewrite E, Z.testbit_0_l).
  rewrite testbit_get_field in B by lia. destruct (Z.ltb_spec (k - 4) 2); [|lia].
  cbn in B. rewrite <- B. f_equal. lia.
Qed.
Lemma pau_banks : 0 <= i < 8 -> bool_decide (i ∈ [1; 2; 5; 7]) = negb (bool_decide (i ∈ [0; 3; 4; 6])).
Proof. intros Hi. each i Hi; reflexivity. Qed.

Lemma pau_placed : 0 <= i < 8 -> get_field 14 2 a = 0 -> p10_pau_translate i a = put (place Pau i a) a.
Proof.
  intros Hi R. unfold p10_pau_translate, place, place_pau, put, between, PAU0_CHIPLET_ID.
  pose proof (ring_4_bits R) as E. pose proof (get_field_bounds 10 4 a ltac:(lia)) as B. cbn.
  rewrite (pau_banks Hi), Z.quot_div_nonneg, (Z.add_comm (i / 2)) by lia. fields. rewrite E.
  destruct (bool_decide (i ∈ [0; 3; 4; 6])); cbn; pick; settled.
Qed.
End Refine.

Lemma translate_placed u i a :
  in_range 64 a -> 0 <= i < p10_instances u -> ring_fits u a ->
  p10_translate u i a = Some (put (place u i a) a).
Proof.
  intros Ha Hi R. destruct u; cbn in Hi |- *;
    rewrite ?pec_placed, ?phb_placed, ?iohs_placed, ?mcc_placed, ?omic_placed, ?omi_placed, ?pau_placed
      by auto; try reflexivity.
  all: unfold p10_eq_translate, p10_nmmu_translate, p10_mimc_translate, p10_pauc_translate, put; cbn.
  all: rewrite set_chiplet_id_field by done; do 2 f_equal; unfold N0_CHIPLET_ID, MC0_CHIPLET_ID,
    PAU0_CHIPLET_ID; lia.
Qed.

(** ** Laws of placements *)

Definition field_set (o : option Z) : bool := match o with Some _ => true | None => false end.
Definition shape (p : placement) : list bool :=
  map field_set [pl_ring p; pl_sat p; pl_offset p; pl_lane p; pl_group p].

Lemma testbit_put_field lo w o a k :
  0 <= lo -> 0 <= w -> 0 <= k ->
  Z.testbit (put_field lo w o a) k =
  if (lo <=? k) && (k <? lo + w) then
    match o with Some v => Z.testbit v (k - lo) | None => Z.testbit a k end
  else Z.testbit a k.
Proof.
  intros ? ? ?. destruct o; cbn; [by apply testbit_set_field|]. by destruct ((_ <=? _) && _).
Qed.

Lemma put_put p q a : shape p = shape q -> put p (put q a) = put p a.
Proof.
  destruct p as [pc pr ps po pl pg], q as [qc qr qs qo ql qg]. intros E. unfold shape in E. cbn in E.
  injection E as Er Es Eo El Eg. apply Z.bits_inj'. intros k Hk. unfold put. cbn.
  rewrite !testbit_put_field, !testbit_set_field, !testbit_put_field, testbit_set_field by lia.
  repeat match goal with |- context [(?x <=? k) && ?y] => destruct ((x <=? k) && y) end;
    repeat match goal with |- context [match ?o with Some _ => _ | None => _ end] => destruct o; cbn in *; try congruence end;
    reflexivity.
Qed.

Definition fits (n : Z) (o : option Z) : Prop := match o with Some v => 0 <= v < n | None => True end.
Record place_ok (p : placement) : Prop := PlaceOk
  { ok_chiplet : 0 <= pl_chiplet p < 64;
    ok_ring : fits 16 (pl_ring p);
    ok_sat : fits 16 (pl_sat p);
    ok_offset : fits 64 (pl_offset p);
    ok_lane : fits 32 (pl_lane p);
    ok_group : fits 32 (pl_group p) }.

Lemma get_put_same lo w w' o a :
  0 <= lo -> 0 <= w' <= w -> fits (2 ^ w') o ->
  get_field lo w' (put_field lo w o a) = default (get_field lo w' a) o.
Proof.
  intros ? ? F. destruct o as [v|]; cbn in *; [|done].
  rewrite get_set_same by lia. rewrite Z.land_ones by lia. by apply Z.mod_small.
Qed.

Lemma get_put_other lo w lo' w' o a :
  0 <= lo -> 0 <= w -> 0 <= lo' -> 0 <= w' -> disjoint lo w lo' w' ->
  get_field lo' w' (put_field lo w o a) = get_field lo' w' a.
Proof. intros. destruct o; cbn; [by apply get_set_other|done]. Qed.

Section GetPut.
Context (p : placement) (a : Z) (W : place_ok p).

Ltac get_put := unfold put; rewrite ?get_put_other, ?get_put_same, ?get_put_other by (apart || apply W);
  rewrite ?get_set_other by apart.
Lemma get_put_chiplet : get_field 24 6 (put p a) = pl_chiplet p.
Proof. get_put. apply get_set_small; [lia|lia|apply W]. Qed.
Lemma get_put_ring w : 4 <= w <= 6 -> get_field 10 w (put p a) = default (get_field 10 w a) (pl_ring p).
Proof.
  intros Hw. unfold put. rewrite !get_put_other by apart.
  rewrite get_put_same by (lia || (destruct W as [_ F _ _ _ _]; destruct (pl_ring p); cbn in *; [|done];
    pose proof (Z.pow_le_mono_r 2 4 w); lia)).
  by rewrite !get_put_other, get_set_other by apart.
Qed.
Lemma get_put_sat : get_field 6 4 (put p a) = default (get_field 6 4 a) (pl_sat p).
Proof. by get_put. Qed.
Lemma get_put_offset : get_field 0 6 (put p a) = default (get_field 0 6 a) (pl_offset p).
Proof. by get_put. Qed.
Lemma get_put_lane : get_field 32 5 (put p a) = default (get_field 32 5 a) (pl_lane p).
Proof. by get_put. Qed.
Lemma get_put_group : get_field 37 5 (put p a) = default (get_field 37 5 a) (pl_group p).
Proof. by get_put. Qed.
Lemma get_put_high_ring : get_field 14 2 a = 0 -> get_field 14 2 (put p a) = 0.
Proof.
  intros E. unfold put. rewrite !get_put_other by apart. destruct W as [_ F _ _ _ _].
  destruct (pl_ring p) as [v|]; cbn in *; rewrite ?get_put_other, ?get_set_other by apart; [|done].
  apply Z.bits_inj'. intros k Hk. rewrite testbit_get_field, testbit_set_field, Z.testbit_0_l by lia.
  destruct (Z.ltb_spec k 2); cbn; [|done].
  destruct (Z.leb_spec 10 (k + 14)), (Z.ltb_spec (k + 14) (10 + 6)); cbn; try lia.
  assert (in_range 4 v) as R by (unfold in_range; lia). apply in_range_bits in R; [|lia]. apply R. lia.
Qed.
End GetPut.

Lemma place_wf u i a : 0 <= i < p10_instances u -> place_ok (place u i a).
Proof.
  intros Hi. pose proof (get_field_bounds 24 6 a ltac:(lia)). pose proof (get_field_bounds 0 6 a ltac:(lia)).
  destruct u; cbn in Hi; unfold place, place_phb, place_iohs, place_omic, place_omi, place_pau, mcc_sat,
    mcc_offset, omi_pau, between in *.
  all: repeat match goal with |- context [if ?b then _ else _] => destruct b eqn:? end.
  all: split; cbn; try exact I; eucl.
Qed.

(** [pick_on a] decides the comparisons on the fields of [a], [decide_rest] those that
    follow from the bounds of an index. *)
Ltac pick_on a :=
  repeat (cbn; match goal with
  | |- context [get_field ?lo ?w a =? ?y] => destruct (Z.eqb_spec (get_field lo w a) y)
  | |- context [?x <=? get_field ?lo ?w a] => destruct (Z.leb_spec x (get_field lo w a))
  | |- context [get_field ?lo ?w a <=? ?x] => destruct (Z.leb_spec (get_field lo w a) x)
  end; try lia); cbn.
Ltac decide_rest :=
  repeat (cbn; match goal with
  | |- context [?x =? ?y] => destruct (Z.eqb_spec x y); try (exfalso; eucl)
  | |- context [?x <=? ?y] => destruct (Z.leb_spec x y); try (exfalso; eucl)
  end); cbn.

(** The instance an address belongs to does not matter. *)
Lemma place_stable u i j a :
  0 <= i < p10_instances u -> 0 <= j < p10_instances u -> place u i (put (place u j a) a) = place u i a.
Proof.
  intros Hi Hj. pose proof (place_wf u j a Hj) as W. remember (place u j a) as p eqn:Ep.
  pose proof (get_field_bounds 6 4 a ltac:(lia)). pose proof (get_field_bounds 0 6 a ltac:(lia)).
  pose proof (get_field_bounds 10 6 a ltac:(lia)). pose proof (get_field_bounds 32 5 a ltac:(lia)).
  destruct u; try reflexivity; cbn in Hi, Hj; unfold place, place_phb, place_iohs, place_omic, place_omi, place_pau,
    mcc_sat, mcc_offset, in_nest, in_pau, in_axon, between, omi_pau in *;
  rewrite ?get_put_chiplet, ?get_put_ring, ?get_put_sat, ?get_put_offset, ?get_put_lane by (done || lia);
  subst p; clear W.
  all: pick_on a; try case_bool_decide; try case_bool_decide; decide_rest.
  all: try reflexivity; f_equal; try f_equal; eucl.
Qed.

Lemma place_shape u i j a : shape (place u i a) = shape (place u j a).
Proof.
  destruct u; try reflexivity; unfold place, place_phb, place_iohs, place_omic, place_omi, place_pau, mcc_sat,
    mcc_offset, shape; cbn;
    repeat match goal with |- context [if ?b then _ else _] => destruct b end; reflexivity.
Qed.

Lemma put_range p a : in_range 64 a -> in_range 64 (put p a).
Proof.
  intros Ha. unfold put, put_field. repeat case_match; repeat (apply set_field_range; [lia|lia|lia|]); done.
Qed.

Lemma ring_fits_put u i a : 0 <= i < p10_instances u -> ring_fits u a -> ring_fits u (put (place u i a) a).
Proof. intros Hi R Eu. apply get_put_high_ring; [by apply place_wf|by apply R]. Qed.
