(* ===== verification/P10Theorems.v ===== *)
(** * libpdbg: what the POWER10 address translations guarantee *)

From S2P Require Import Prelude P10Scom P10Place.

(** ** The bits a unit decides *)

Definition within (lo w k : Z) : bool := (lo <=? k) && (k <? lo + w).

Definition owned (u : p10_unit) (k : Z) : bool :=
  within 24 6 k ||
  match u with
  | Phb => within 6 4 k
  | Iohs => within 37 5 k
  | Mcc => within 6 4 k || within 0 6 k
  | Omic => within 37 5 k || within 10 6 k
  | Omi => within 37 5 k || within 32 5 k || within 0 6 k || within 10 6 k
  | Pau => within 10 6 k
  | _ => false
  end.

Lemma place_frame u i a k : 0 <= k -> owned u k = false -> Z.testbit (put (place u i a) a) k = Z.testbit a k.
Proof.
  intros Hk F. unfold put. rewrite !testbit_put_field, testbit_set_field by lia.
  fold (within 37 5 k) (within 32 5 k) (within 10 6 k) (within 0 6 k) (within 6 4 k) (within 24 6 k).
  unfold owned in F. destruct u; repeat match goal with
  | H : _ || _ = false |- _ => apply orb_false_iff in H as [? ?]
  | H : within _ _ k = false |- _ => rewrite H; clear H
  end; unfold place, place_phb, place_iohs, place_omic, place_omi, place_pau;
    repeat match goal with |- context [if ?b then Place _ _ _ _ _ _ else _] => destruct b end; cbn;
    repeat case_match; done.
Qed.

(** ** The addresses of a unit's own registers *)

Definition own_register (u : p10_unit) (a : Z) : bool :=
  match u with
  | Phb => in_nest a || (get_field 10 4 a =? 2)
  | Iohs => in_axon a || in_pau a
  | Mcc => field_set (mcc_sat 0 a) || field_set (mcc_offset 0 a)
  | Pau => between 2 (get_field 10 6 a) 5
  | _ => true
  end.

Lemma put_inj u i j a :
  0 <= i < p10_instances u -> 0 <= j < p10_instances u -> put (place u i a) a = put (place u j a) a ->
  place u i a = place u j a.
Proof.
  intros Hi Hj E. pose proof (place_wf u i a Hi) as Wi. pose proof (place_wf u j a Hj) as Wj.
  pose proof (place_shape u i j a) as S. unfold shape in S.
  pose proof (f_equal (get_field 24 6) E) as Ec. pose proof (f_equal (get_field 10 6) E) as Er.
  pose proof (f_equal (get_field 6 4) E) as Es. pose proof (f_equal (get_field 0 6) E) as Eo.
  pose proof (f_equal (get_field 32 5) E) as El. pose proof (f_equal (get_field 37 5) E) as Eg.
  rewrite !get_put_chiplet in Ec by done. rewrite !get_put_ring in Er by (done || lia).
  rewrite !get_put_sat in Es by done. rewrite !get_put_offset in Eo by done.
  rewrite !get_put_lane in El by done. rewrite !get_put_group in Eg by done. clear E Wi Wj.
  destruct (place u i a) as [c [r|] [s|] [o|] [l|] [g|]], (place u j a) as [c' [r'|] [s'|] [o'|] [l'|] [g'|]];
    cbn in *; congruence.
Qed.

Lemma place_distinct u i j a :
  0 <= i < p10_instances u -> 0 <= j < p10_instances u -> own_register u a = true ->
  place u i a = place u j a -> i = j.
Proof.
  intros Hi Hj R E. destruct u; cbn in Hi, Hj, R;
    unfold place, place_phb, place_iohs, place_omic, place_omi, place_pau, mcc_sat, mcc_offset, omi_pau in *.
  all: repeat match type of E with context [if ?b then _ else _] => destruct b eqn:? end; cbn in *; try done.
  all: injection E; intros; try eucl.
  all: each i Hi; each j Hj; first [reflexivity | discriminate | done].
Qed.

(** ** The claims *)

Section Claims.
Context (u : p10_unit) (i a : Z) (Ha : in_range 64 a) (Hi : 0 <= i < p10_instances u) (R : ring_fits u a).

(** C18: for every unit and instance the translation of a 64-bit address succeeds (no
    [assert] fires) and writes exactly the address fields of the table [place], which gives
    the chiplet and, where instances share a chiplet, the ring, satellite, offset, lane or
    I/O group. For a PAU the two bits above its four-bit ring must be zero. *)
Theorem p10_translate_places : p10_translate u i a = Some (put (place u i a) a).
Proof. by apply translate_placed. Qed.

(** Translation is independent of the instance the address was written for:
    translating to instance [j] first changes nothing, so an address of one instance (or an
    already translated one) reaches the same register of any other. *)
Theorem p10_retarget j :
  0 <= j < p10_instances u -> p10_translate u j a ≫= p10_translate u i = p10_translate u i a.
Proof.
  intros Hj. rewrite !translate_placed by done. cbn.
  rewrite translate_placed by (done || by apply put_range || by apply ring_fits_put).
  rewrite place_stable by done. f_equal. apply put_put, place_shape.
Qed.

(** A translated address is still a 64-bit value, its chiplet field is the one of the
    table, and every bit outside the fields the unit owns is the one of the original
    address. *)
Theorem p10_translate_frame :
  exists b, p10_translate u i a = Some b /\ in_range 64 b /\
    get_chiplet_id b = pl_chiplet (place u i a) /\
    forall k, 0 <= k -> owned u k = false -> Z.testbit b k = Z.testbit a k.
Proof.
  exists (put (place u i a) a). split; [by apply translate_placed|].
  split; [by apply put_range|]. split; [apply get_put_chiplet; by apply place_wf|].
  intros k. apply place_frame.
Qed.

(** Distinct instances of a unit have distinct registers: where an address names a
    register the unit has one of per instance, no two instances translate it alike. *)
Theorem p10_instances_disjoint j :
  0 <= j < p10_instances u -> own_register u a = true -> p10_translate u i a = p10_translate u j a -> i = j.
Proof.
  intros Hj O E. rewrite !translate_placed in E by done. injection E as E.
  eapply place_distinct; [done..|]. by apply put_inj.
Qed.
End Claims.

(** ** Witnesses: a register of the memory and the PAU units *)

Ltac addr_ok := split; vm_compute; [discriminate|reflexivity].

Lemma p10_translate_places_witness : p10_translate Omi 5 0x800000010012C3F = Some 0x800004812012C3F.
Proof. rewrite (p10_translate_places Omi 5 0x800000010012C3F); [reflexivity|addr_ok|cbn; lia|done]. Defined.

Lemma p10_retarget_witness : p10_translate Pau 6 0x11011000 ≫= p10_translate Pau 3 = Some 0x11010800.
Proof. rewrite (p10_retarget Pau 3 0x11011000); [reflexivity|addr_ok|cbn; lia|done|cbn; lia]. Defined.

Lemma p10_translate_frame_witness :
  exists b, p10_translate Phb 4 0x03011845 = Some b /\ in_range 64 b /\ get_chiplet_id b = 2 /\
    forall k, 0 <= k -> owned Phb k = false -> Z.testbit b k = Z.testbit 0x03011845 k.
Proof. apply (p10_translate_frame Phb 4 0x03011845); [addr_ok|cbn; lia|done]. Defined.

Lemma p10_instances_disjoint_witness : p10_translate Mcc 2 0x0C010D62 <> p10_translate Mcc 3 0x0C010D62.
Proof.
  intros E. enough (2 = 3) by lia.
  apply (p10_instances_disjoint Mcc 2 0x0C010D62); [addr_ok|cbn; lia|done|cbn; lia|reflexivity|exact E].
Defined.

(** ** What the odd translations do *)

(** The memory port of an Odyssey keeps the address it was given: the results of the ring
    selection are dropped. Every other memory port translates to address 0. *)
Theorem memport_keeps_address index addr : p10_memport_translate OdysseyOcmb index addr = addr.
Proof. reflexivity. Qed.

(** With a ring above 15, two ways to one PAU register differ: [get_ring_id] reads four
    of the six bits [set_ring_id] writes. *)
Theorem pau_ring_truncated :
  p10_translate Pau 0 0x10015000 ≫= p10_translate Pau 1 <> p10_translate Pau 1 0x10015000.
Proof. by vm_compute. Qed.
