(* ===== verification/P9Scom.v ===== *)
(** * libpdbg: SCOM addresses of the POWER9 units

    Models libpdbg/p9_scom_addr.h and the [translate] operations of
    libpdbg/p9_fapi_targets.c. An address is a 64-bit [Z], the index of a target an [int];
    an argument of type [uint8_t] is reduced to eight bits. *)

From S2P Require Import Prelude.

Definition PIB_CHIPLET_ID : Z := 0x00.
Definition N1_CHIPLET_ID : Z := 0x03.
Definition N2_CHIPLET_ID : Z := 0x04.
Definition N3_CHIPLET_ID : Z := 0x05.
Definition XB_CHIPLET_ID : Z := 0x06.
Definition MC01_CHIPLET_ID : Z := 0x07.
Definition MC23_CHIPLET_ID : Z := 0x08.
Definition PCI0_CHIPLET_ID : Z := 0x0D.
Definition EP00_CHIPLET_ID : Z := 0x10.
Definition EP05_CHIPLET_ID : Z := 0x15.
Definition EC00_CHIPLET_ID : Z := 0x20.
Definition EC23_CHIPLET_ID : Z := 0x37.

Definition N2_PCIS0_0_RING_ID : Z := 0x3.
Definition N3_PB_3_RING_ID : Z := 0x9.
Definition MC_MC01_0_RING_ID : Z := 0x2.
Definition MC_IOM01_0_RING_ID : Z := 0x4.
Definition MC_IOM01_1_RING_ID : Z := 0x5.
Definition P9C_MC_CHAN_RING_ID : Z := 0x2.
Definition P9C_MC_IO_RING_ID : Z := 0x4.
Definition P9C_MC_BIST_RING_ID : Z := 0x8.
Definition PPE_SBE_RING_ID : Z := 0x00.
Definition XB_IOPPE_0_RING_ID : Z := 0x2.
Definition XB_IOX_0_RING_ID : Z := 0x3.
Definition XB_IOX_2_RING_ID : Z := 0x5.
Definition XB_PBIOX_0_RING_ID : Z := 0x6.
Definition XB_PBIOX_2_RING_ID : Z := 0x8.
Definition OB_PPE_RING_ID : Z := 0x4.

Definition PPE_SBE_CHIPUNIT_NUM : Z := 0.
Definition PPE_GPE0_CHIPUNIT_NUM : Z := 10.
Definition PPE_GPE3_CHIPUNIT_NUM : Z := 13.
Definition PPE_EQ0_CME0_CHIPUNIT_NUM : Z := 20.
Definition PPE_EQ0_CME1_CHIPUNIT_NUM : Z := 30.
Definition PPE_EQ5_CME1_CHIPUNIT_NUM : Z := 35.
Definition PPE_IO_XBUS_CHIPUNIT_NUM : Z := 40.
Definition PPE_IO_OB0_CHIPUNIT_NUM : Z := 41.
Definition PPE_IO_OB3_CHIPUNIT_NUM : Z := 44.
Definition PPE_IO_DMI0_CHIPUNIT_NUM : Z := 45.
Definition PPE_IO_DMI1_CHIPUNIT_NUM : Z := 46.
Definition PPE_PB0_CHIPUNIT_NUM : Z := 50.
Definition PPE_PB2_CHIPUNIT_NUM : Z := 52.

Definition UNIT_PORT_ID : Z := 0x1.
Definition GPE_PORT_ID : Z := 0x6.
Definition SBE_PORT_ID : Z := 0xE.
Definition PPE_SBE_SAT_ID : Z := 0x0.
Definition PPE_GPE_SAT_ID : Z := 0x0.
Definition PPE_CME_SAT_ID : Z := 0x0.
Definition PPE_PB_SAT_ID : Z := 0x0.
Definition P9C_MC_PPE_SAT_ID : Z := 0x1.
Definition OB_PPE_SAT_ID : Z := 0x1.

(** ** p9_scom_addr.h *)

Definition get_chiplet_id (addr : Z) : Z := Z.land (Z.shiftr addr 24) 0x3F.

Definition set_chiplet_id (addr chiplet_id : Z) : Z :=
  let addr := Z.land addr 0xFFFFFFFFC0FFFFFF in
  Z.lor addr (Z.shiftl (Z.land (u8 chiplet_id) 0x3F) 24).

Definition get_ring (addr : Z) : Z := Z.land (Z.shiftr addr 10) 0x3f.

Definition set_ring (addr ring : Z) : Z :=
  let addr := Z.land addr 0xFFFFFFFFFFFF03FF in
  Z.lor addr (Z.shiftl (Z.land (u8 ring) 0x3F) 10).

Definition get_sat_id (addr : Z) : Z := Z.land (Z.shiftr addr 6) 0xF.

Definition set_sat_id (addr sat_id : Z) : Z :=
  let addr := Z.land addr 0xFFFFFFFFFFFFFC3F in
  Z.lor addr (Z.shiftl (Z.land (u8 sat_id) 0xF) 6).

Definition get_rxtx_group_id (addr : Z) : Z := Z.land (Z.shiftr addr 37) 0x3F.

Definition set_rxtx_group_id (addr grp_id : Z) : Z :=
  let addr := Z.land addr 0xFFFFF81FFFFFFFFF in
  Z.lor addr (Z.shiftl (Z.land (u8 grp_id) 0x3F) 37).

Definition get_port (addr : Z) : Z := Z.land (Z.shiftr addr 16) 0xF.

Definition set_port (addr port : Z) : Z :=
  let addr := Z.land addr 0xFFFFFFFFFFF0FFFF in
  Z.lor addr (Z.shiftl (Z.land (u8 port) 0xF) 16).

Definition get_sat_offset (addr : Z) : Z := Z.land addr 0x3f.

Definition set_sat_offset (addr sat_offset : Z) : Z :=
  let addr := Z.land addr 0xFFFFFFFFFFFFFFC0 in
  Z.lor addr (Z.land (u8 sat_offset) 0x3F).

(** ** p9_fapi_targets.c *)

(** [lo <= x && x <= hi] *)
Definition between (lo x hi : Z) : bool := (lo <=? x) && (x <=? hi).

Definition p9_unknown_translation (addr : Z) : Z := u64 (-1).

Definition p9_ex_translate (index addr : Z) : Z :=
  if between EP00_CHIPLET_ID (get_chiplet_id addr) EP05_CHIPLET_ID then
    let ring_id := Z.land (get_ring addr) 0xf in
    let addr := set_chiplet_id addr (EP00_CHIPLET_ID + Z.quot index 2) in
    let ring_id := u8 (ring_id - Z.rem ring_id 2 + Z.rem index 2) in
    set_ring addr (Z.land ring_id 0xf)
  else if between EC00_CHIPLET_ID (get_chiplet_id addr) EC23_CHIPLET_ID then
    set_chiplet_id addr (EC00_CHIPLET_ID + Z.rem (get_chiplet_id addr) 2 + index * 2)
  else addr.

Definition p9_mcs_translate (index addr : Z) : Z :=
  let chiplet := u32 (N3_CHIPLET_ID - 2 * Z.quot index 2) in
  let sat := 2 * Z.rem index 2 in
  let addr := set_chiplet_id addr chiplet in
  set_sat_id addr sat.

Definition p9_xbus_translate (index addr : Z) : Z :=
  let chip_unitnum := index in
  let ring := Z.land (get_ring addr) 0xf in
  if between XB_IOX_0_RING_ID ring XB_IOX_2_RING_ID
  then set_ring addr (Z.land (XB_IOX_0_RING_ID + chip_unitnum) 0xf)
  else if between XB_PBIOX_0_RING_ID ring XB_PBIOX_2_RING_ID
  then set_ring addr (Z.land (XB_PBIOX_0_RING_ID + chip_unitnum) 0xf)
  else addr.

Definition p9_mca_translate (index addr : Z) : Z :=
  let chiplet_unitnum := index in
  if (get_chiplet_id addr =? MC01_CHIPLET_ID) || (get_chiplet_id addr =? MC23_CHIPLET_ID) then
    let addr := set_chiplet_id addr (MC01_CHIPLET_ID + Z.quot chiplet_unitnum 4) in
    if Z.land (get_ring addr) 0xf =? MC_MC01_0_RING_ID
    then set_sat_id addr (get_sat_id addr - Z.rem (get_sat_id addr) 4 + Z.rem chiplet_unitnum 4)
    else set_ring addr (Z.land (MC_IOM01_0_RING_ID + Z.rem chiplet_unitnum 4) 0xf)
  else
    let mcs_unitnum := u8 (Z.quot chiplet_unitnum 2) in
    let mcs_sat_offset := Z.land (get_sat_offset addr) 0x2f in
    let addr := set_chiplet_id addr (N3_CHIPLET_ID - 2 * Z.quot mcs_unitnum 2) in
    let addr := set_sat_id addr (2 * Z.rem mcs_unitnum 2) in
    let mcs_sat_offset := u8 (Z.lor mcs_sat_offset (Z.shiftl (Z.rem chiplet_unitnum 2) 4)) in
    set_sat_offset addr mcs_sat_offset.

Definition p9_mi_translate (index addr : Z) : Z :=
  let chip_unitnum := index in
  let addr := set_chiplet_id addr (N3_CHIPLET_ID - 2 * Z.quot chip_unitnum 2) in
  set_sat_id addr (2 * Z.rem chip_unitnum 2).

(** The [switch] on [chip_unitnum % 4]. *)
Definition dmi_group (chip_unitnum rxtx_grp : Z) : Z :=
  let k := Z.rem chip_unitnum 4 in
  if k =? 0 then u8 (rxtx_grp + 3)
  else if k =? 1 then u8 (rxtx_grp + 2)
  else if k =? 2 then u8 (rxtx_grp + 0)
  else if k =? 3 then u8 (rxtx_grp + 1)
  else rxtx_grp.

Definition p9_dmi_translate (index addr : Z) : Z :=
  let ring := get_ring addr in
  let chiplet_id := get_chiplet_id addr in
  let sat_offset := get_sat_offset addr in
  let chip_unitnum := index in
  if (chiplet_id =? N3_CHIPLET_ID) || (chiplet_id =? N1_CHIPLET_ID) then
    let addr := set_chiplet_id addr (N3_CHIPLET_ID - 2 * Z.quot chip_unitnum 4) in
    let addr := set_sat_id addr (2 * Z.rem (Z.quot chip_unitnum 2) 2) in
    let sat_offset := u8 (Z.land sat_offset 0xf + Z.shiftl (2 + Z.rem chip_unitnum 2) 4) in
    set_sat_offset addr sat_offset
  else if (chiplet_id =? MC01_CHIPLET_ID) || (chiplet_id =? MC23_CHIPLET_ID) then
    if ring =? P9C_MC_CHAN_RING_ID then
      let msat := Z.land (get_sat_id addr) 0xc in
      let addr := set_chiplet_id addr (MC01_CHIPLET_ID + Z.quot chip_unitnum 4) in
      set_sat_id addr (msat + Z.rem chip_unitnum 4)
    else if ring =? P9C_MC_BIST_RING_ID then
      let addr := set_chiplet_id addr (MC01_CHIPLET_ID + Z.quot chip_unitnum 4) in
      let sat_offset := u8 (Z.land sat_offset 0xf + Z.shiftl (Z.rem chip_unitnum 4) 4) in
      set_sat_offset addr sat_offset
    else if ring =? P9C_MC_IO_RING_ID then
      let rxtx_grp := get_rxtx_group_id addr in
      let addr := set_chiplet_id addr (MC01_CHIPLET_ID + Z.quot chip_unitnum 4) in
      let rxtx_grp := Z.land rxtx_grp 0xF0 in
      set_rxtx_group_id addr (dmi_group chip_unitnum rxtx_grp)
    else addr
  else addr.

Definition p9_ppe_translate (index addr : Z) : Z :=
  let chip_unitnum := index in
  if chip_unitnum =? PPE_SBE_CHIPUNIT_NUM then
    let addr := set_chiplet_id addr PIB_CHIPLET_ID in
    let addr := set_port addr SBE_PORT_ID in
    let addr := set_ring addr PPE_SBE_RING_ID in
    let addr := set_sat_id addr PPE_SBE_SAT_ID in
    set_sat_offset addr (Z.land (get_sat_offset addr) 0xf)
  else
    let addr := if get_port addr =? SBE_PORT_ID then set_sat_offset addr (Z.lor (get_sat_offset addr) 0x10) else addr in
    if between PPE_GPE0_CHIPUNIT_NUM chip_unitnum PPE_GPE3_CHIPUNIT_NUM then
      let addr := set_chiplet_id addr PIB_CHIPLET_ID in
      let addr := set_port addr GPE_PORT_ID in
      let addr := set_ring addr ((chip_unitnum - PPE_GPE0_CHIPUNIT_NUM) * 8) in
      set_sat_id addr PPE_GPE_SAT_ID
    else if between PPE_EQ0_CME0_CHIPUNIT_NUM chip_unitnum PPE_EQ5_CME1_CHIPUNIT_NUM then
      let addr :=
        if PPE_EQ0_CME1_CHIPUNIT_NUM <=? chip_unitnum
        then set_chiplet_id addr (EP00_CHIPLET_ID + Z.rem chip_unitnum PPE_EQ0_CME1_CHIPUNIT_NUM)
        else set_chiplet_id addr (EP00_CHIPLET_ID + Z.rem chip_unitnum PPE_EQ0_CME0_CHIPUNIT_NUM) in
      let addr := set_port addr UNIT_PORT_ID in
      let addr := set_ring addr (Z.land (Z.quot chip_unitnum PPE_EQ0_CME1_CHIPUNIT_NUM + 8) 0xF) in
      set_sat_id addr PPE_CME_SAT_ID
    else if between PPE_IO_XBUS_CHIPUNIT_NUM chip_unitnum PPE_IO_OB3_CHIPUNIT_NUM then
      let addr := set_chiplet_id addr (XB_CHIPLET_ID + Z.rem chip_unitnum PPE_IO_XBUS_CHIPUNIT_NUM
                                       + Z.quot chip_unitnum PPE_IO_OB0_CHIPUNIT_NUM * 2) in
      let addr := set_port addr UNIT_PORT_ID in
      let addr :=
        if chip_unitnum =? PPE_IO_XBUS_CHIPUNIT_NUM
        then set_ring addr (Z.land XB_IOPPE_0_RING_ID 0xF)
        else set_ring addr (Z.land OB_PPE_RING_ID 0xF) in
      set_sat_id addr OB_PPE_SAT_ID
    else if between PPE_IO_DMI0_CHIPUNIT_NUM chip_unitnum PPE_IO_DMI1_CHIPUNIT_NUM then
      let addr := set_chiplet_id addr (MC01_CHIPLET_ID + (chip_unitnum - PPE_IO_DMI0_CHIPUNIT_NUM)) in
      let addr := set_ring addr MC_IOM01_1_RING_ID in
      let addr := set_port addr UNIT_PORT_ID in
      set_sat_id addr P9C_MC_PPE_SAT_ID
    else if between PPE_PB0_CHIPUNIT_NUM chip_unitnum PPE_PB2_CHIPUNIT_NUM then
      let addr := set_chiplet_id addr N3_CHIPLET_ID in
      let addr := set_port addr UNIT_PORT_ID in
      let addr := set_ring addr (Z.land N3_PB_3_RING_ID 0xF) in
      set_sat_id addr PPE_PB_SAT_ID
    else 0xfffffffffffffff1.

Definition p9_pec_translate (index addr : Z) : Z :=
  if get_chiplet_id addr =? N2_CHIPLET_ID
  then set_ring addr (Z.land (N2_PCIS0_0_RING_ID + index) 0xF)
  else set_chiplet_id addr (PCI0_CHIPLET_ID + index).

Definition p9_phb_translate (index addr : Z) : Z :=
  let chip_unitnum := index in
  if get_chiplet_id addr =? N2_CHIPLET_ID then
    if chip_unitnum =? 0 then
      let addr := set_ring addr (Z.land N2_PCIS0_0_RING_ID 0xF) in
      set_sat_id addr (if get_sat_id addr <? 4 then 1 else 4)
    else
      let addr := set_ring addr (Z.land (N2_PCIS0_0_RING_ID + Z.quot chip_unitnum 3 + 1) 0xF) in
      set_sat_id addr ((if get_sat_id addr <? 4 then 1 else 4) + (if truthy (Z.rem chip_unitnum 2) then 0 else 1)
                       + 2 * Z.quot chip_unitnum 5)
  else
    if chip_unitnum =? 0 then
      let addr := set_chiplet_id addr PCI0_CHIPLET_ID in
      set_sat_id addr (if get_sat_id addr <? 4 then 1 else 4)
    else
      let addr := set_chiplet_id addr (PCI0_CHIPLET_ID + Z.quot chip_unitnum 3 + 1) in
      set_sat_id addr ((if get_sat_id addr <? 4 then 1 else 4) + (if truthy (Z.rem chip_unitnum 2) then 0 else 1)
                       + 2 * Z.quot chip_unitnum 5).

Definition p9_chiplet_translate (index addr : Z) : Z := set_chiplet_id addr index.
