(* ===== verification/P9Place.v ===== *)
(** * libpdbg: where the POWER9 units keep their registers

    An address has six fields that the translations look at. [move] is the address map of
    the chip: where the register of a unit at given coordinates is for an instance. The
    [translate] operations of p9_fapi_targets.c do exactly this ([translate_moves]). *)

From S2P Require Import Prelude P10Place P9Scom.

#[local] Arguments get_field : simpl never.
#[local] Arguments set_field : simpl never.

(** ** Coordinates *)

Record coords := Coords { c_chiplet : Z; c_port : Z; c_ring : Z; c_sat : Z; c_offset : Z; c_group : Z }.

Definition coords_of (a : Z) : coords :=
  Coords (get_field 24 6 a) (get_field 16 4 a) (get_field 10 6 a) (get_field 6 4 a) (get_field 0 6 a) (get_field 37 6 a).

Definition put_coords (c : coords) (a : Z) : Z :=
  set_field 24 6 (set_field 16 4 (set_field 10 6 (set_field 6 4 (set_field 0 6 (set_field 37 6 a
    (c_group c)) (c_offset c)) (c_sat c)) (c_ring c)) (c_port c)) (c_chiplet c).

Record coords_ok (c : coords) : Prop := CoordsOk {
  c_chiplet_ok : 0 <= c_chiplet c < 64;
  c_port_ok : 0 <= c_port c < 16;
  c_ring_ok : 0 <= c_ring c < 64;
  c_sat_ok : 0 <= c_sat c < 16;
  c_offset_ok : 0 <= c_offset c < 64;
  c_group_ok : 0 <= c_group c < 64
}.

Lemma coords_of_ok a : coords_ok (coords_of a).
Proof. split; apply get_field_bounds; lia. Qed.

Lemma coords_of_put c a : coords_ok c -> coords_of (put_coords c a) = c.
Proof.
  intros []. destruct c as [ch po ri sa o g]. unfold coords_of, put_coords. cbn in *.
  f_equal; rewrite ?get_set_other by apart; rewrite get_set_small by apart; done.
Qed.

Lemma put_coords_of a : put_coords (coords_of a) a = a.
Proof.
  unfold put_coords, coords_of. cbn.
  do 6 (rewrite set_get; [|lia|lia|by rewrite ?get_set_other by apart]). done.
Qed.

(** [push]: a field that is set moves inwards to where it was set before. *)
Ltac push := unfold put_coords; cbn [c_chiplet c_port c_ring c_sat c_offset c_group];
  repeat first
  [ rewrite set_set_same by lia
  | rewrite (set_set_comm 24 6 ltac:(lia) ltac:(lia) 16 4) by apart
  | rewrite (set_set_comm 24 6 ltac:(lia) ltac:(lia) 10 6) by apart
  | rewrite (set_set_comm 24 6 ltac:(lia) ltac:(lia) 6 4) by apart
  | rewrite (set_set_comm 24 6 ltac:(lia) ltac:(lia) 0 6) by apart
  | rewrite (set_set_comm 24 6 ltac:(lia) ltac:(lia) 37 6) by apart
  | rewrite (set_set_comm 16 4 ltac:(lia) ltac:(lia) 10 6) by apart
  | rewrite (set_set_comm 16 4 ltac:(lia) ltac:(lia) 6 4) by apart
  | rewrite (set_set_comm 16 4 ltac:(lia) ltac:(lia) 0 6) by apart
  | rewrite (set_set_comm 16 4 ltac:(lia) ltac:(lia) 37 6) by apart
  | rewrite (set_set_comm 10 6 ltac:(lia) ltac:(lia) 6 4) by apart
  | rewrite (set_set_comm 10 6 ltac:(lia) ltac:(lia) 0 6) by apart
  | rewrite (set_set_comm 10 6 ltac:(lia) ltac:(lia) 37 6) by apart
  | rewrite (set_set_comm 6 4 ltac:(lia) ltac:(lia) 0 6) by apart
  | rewrite (set_set_comm 6 4 ltac:(lia) ltac:(lia) 37 6) by apart
  | rewrite (set_set_comm 0 6 ltac:(lia) ltac:(lia) 37 6) by apart ].

Lemma put_coords_put c d a : put_coords c (put_coords d a) = put_coords c a.
Proof. push. done. Qed.

Lemma put_coords_range c a : in_range 64 a -> in_range 64 (put_coords c a).
Proof. intros. unfold put_coords. r64. Qed.

(** ** The accessors on coordinates *)

Lemma get_chiplet_field a : get_chiplet_id a = get_field 24 6 a. Proof. reflexivity. Qed.
Lemma get_port_field a : get_port a = get_field 16 4 a. Proof. reflexivity. Qed.
Lemma get_ring_field a : get_ring a = get_field 10 6 a. Proof. reflexivity. Qed.
Lemma get_sat_field a : get_sat_id a = get_field 6 4 a. Proof. reflexivity. Qed.
Lemma get_group_field a : get_rxtx_group_id a = get_field 37 6 a. Proof. reflexivity. Qed.
Lemma get_offset_field a : get_sat_offset a = get_field 0 6 a.
Proof. unfold get_field. by rewrite Z.shiftr_0_r. Qed.

(** [getter]: reading a field of coordinates that fit. *)
Ltac getter := unfold put_coords; rewrite ?get_set_other by apart; apply get_set_small; apart.

Section Accessors.
Context (ch po ri sa o g a v : Z) (Ha : in_range 64 a).
Abbreviation here := (put_coords (Coords ch po ri sa o g) a).

(** [setter w]: a setter with its masks is the setting of a field of [w] bits. *)
Ltac setter lo w := rewrite (land_u8 v w) by lia; etransitivity; [apply (masked_set_field lo w); [by apply put_coords_range|lia|lia|reflexivity]|by push].

Lemma set_chiplet_put : set_chiplet_id here v = put_coords (Coords v po ri sa o g) a.
Proof. unfold set_chiplet_id. change 0x3F with (Z.ones 6). setter 24 6. Qed.
Lemma set_port_put : set_port here v = put_coords (Coords ch v ri sa o g) a.
Proof. unfold set_port. change 0xF with (Z.ones 4). setter 16 4. Qed.
Lemma set_ring_put : set_ring here v = put_coords (Coords ch po v sa o g) a.
Proof. unfold set_ring. change 0x3F with (Z.ones 6). setter 10 6. Qed.
Lemma set_sat_put : set_sat_id here v = put_coords (Coords ch po ri v o g) a.
Proof. unfold set_sat_id. change 0xF with (Z.ones 4). setter 6 4. Qed.
Lemma set_offset_put : set_sat_offset here v = put_coords (Coords ch po ri sa v g) a.
Proof.
  unfold set_sat_offset. change 0x3F with (Z.ones 6). rewrite <- (Z.shiftl_0_r (Z.land (u8 v) (Z.ones 6))). setter 0 6.
Qed.
Lemma set_group_put : set_rxtx_group_id here v = put_coords (Coords ch po ri sa o v) a.
Proof. unfold set_rxtx_group_id. change 0x3F with (Z.ones 6). setter 37 6. Qed.

Lemma get_chiplet_put : 0 <= ch < 64 -> get_chiplet_id here = ch.
Proof. intros H. rewrite get_chiplet_field. getter. Qed.
Lemma get_port_put : 0 <= po < 16 -> get_port here = po.
Proof. intros H. rewrite get_port_field. getter. Qed.
Lemma get_ring_put : 0 <= ri < 64 -> get_ring here = ri.
Proof. intros H. rewrite get_ring_field. getter. Qed.
Lemma get_sat_put : 0 <= sa < 16 -> get_sat_id here = sa.
Proof. intros H. rewrite get_sat_field. getter. Qed.
Lemma get_offset_put : 0 <= o < 64 -> get_sat_offset here = o.
Proof. intros H. rewrite get_offset_field. getter. Qed.
Lemma get_group_put : 0 <= g < 64 -> get_rxtx_group_id here = g.
Proof. intros H. rewrite get_group_field. getter. Qed.
End Accessors.

(** ** The address map *)

Inductive p9_unit := Ex9 | Mcs9 | Xbus9 | Mca9 | Mi9 | Dmi9 | Ppe9 | Pec9 | Phb9.

#[export] Instance p9_unit_eq_dec : EqDecision p9_unit.
Proof. solve_decision. Defined.

(** The [translate] member of the unit's target. *)
Definition p9_translate (u : p9_unit) (index addr : Z) : Z :=
  match u with
  | Ex9 => p9_ex_translate index addr
  | Mcs9 => p9_mcs_translate index addr
  | Xbus9 => p9_xbus_translate index addr
  | Mca9 => p9_mca_translate index addr
  | Mi9 => p9_mi_translate index addr
  | Dmi9 => p9_dmi_translate index addr
  | Ppe9 => p9_ppe_translate index addr
  | Pec9 => p9_pec_translate index addr
  | Phb9 => p9_phb_translate index addr
  end.

(** The instances that there are; the code also takes the numbers 26 to 29, of engines that there are not. *)
Definition p9_instances (u : p9_unit) : list Z :=
  match u with
  | Ex9 => seqZ 0 12
  | Mcs9 | Mi9 => seqZ 0 4
  | Xbus9 | Pec9 => seqZ 0 3
  | Mca9 | Dmi9 => seqZ 0 8
  | Phb9 => seqZ 0 6
  | Ppe9 => 0 :: seqZ 10 4 ++ seqZ 20 6 ++ seqZ 30 6 ++ seqZ 40 7 ++ seqZ 50 3
  end.

(** Four instances share a chiplet of memory channels. *)
Definition dmi_wrap (i : Z) : Z := match i mod 4 with 0 => 3 | 1 => 2 | 2 => 0 | _ => 1 end.

(** Where a PHB is: its stack, and its place in the stack. *)
Definition phb_stack (i : Z) : Z := if i =? 0 then 0 else if i <? 3 then 1 else 2.
Definition phb_place (i : Z) : Z := if i <? 1 then 0 else if i <? 3 then i - 1 else i - 3.

(** Chiplet, port, ring and satellite of a PPE. *)
Definition ppe_home (i : Z) : Z * Z * Z * Z :=
  if i <? 10 then (0, 0xE, 0, 0)
  else if i <? 20 then (0, 6, 8 * (i - 10), 0)
  else if i <? 30 then (0x10 + (i - 20), 1, 8, 0)
  else if i <? 40 then (0x10 + (i - 30), 1, 9, 0)
  else if i =? 40 then (6, 1, 2, 1)
  else if i <? 45 then (9 + (i - 41), 1, 4, 1)
  else if i <? 50 then (7 + (i - 45), 1, 5, 1)
  else (5, 1, 9, 0).

Definition move (u : p9_unit) (i : Z) (c : coords) : coords :=
  let 'Coords ch po ri sa o g := c in
  match u with
  | Ex9 =>
      if between 0x10 ch 0x15 then Coords (0x10 + i / 2) po (2 * (ri mod 16 / 2) + i mod 2) sa o g
      else if between 0x20 ch 0x37 then Coords (0x20 + 2 * i + ch mod 2) po ri sa o g
      else c
  | Mcs9 | Mi9 => Coords (5 - 2 * (i / 2)) po ri (2 * (i mod 2)) o g
  | Xbus9 =>
      if between 3 (ri mod 16) 5 then Coords ch po (3 + i) sa o g
      else if between 6 (ri mod 16) 8 then Coords ch po (6 + i) sa o g
      else c
  | Mca9 =>
      if between 7 ch 8 then
        if ri mod 16 =? 2 then Coords (7 + i / 4) po ri (4 * (sa / 4) + i mod 4) o g
        else Coords (7 + i / 4) po (4 + i mod 4) sa o g
      else Coords (5 - 2 * (i / 4)) po ri (2 * (i / 2 mod 2)) (32 * (o / 32) + 16 * (i mod 2) + o mod 16) g
  | Dmi9 =>
      if (ch =? 5) || (ch =? 3) then Coords (5 - 2 * (i / 4)) po ri (2 * (i / 2 mod 2)) (32 + 16 * (i mod 2) + o mod 16) g
      else if between 7 ch 8 then
        if ri =? 2 then Coords (7 + i / 4) po ri (4 * (sa / 4) + i mod 4) o g
        else if ri =? 8 then Coords (7 + i / 4) po ri sa (16 * (i mod 4) + o mod 16) g
        else if ri =? 4 then Coords (7 + i / 4) po ri sa o (16 * (g / 16) + dmi_wrap i)
        else c
      else c
  | Ppe9 =>
      let '(ch', po', ri', sa') := ppe_home i in
      let o' := if i =? 0 then o mod 16 else if po =? 0xE then 32 * (o / 32) + 16 + o mod 16 else o in
      Coords ch' po' ri' sa' o' g
  | Pec9 => if ch =? 4 then Coords ch po (3 + i) sa o g else Coords (0xD + i) po ri sa o g
  | Phb9 =>
      let sat := (if sa <? 4 then 1 else 4) + phb_place i in
      if ch =? 4 then Coords ch po (3 + phb_stack i) sat o g else Coords (0xD + phb_stack i) po ri sat o g
  end.

(** ** The translations follow the map *)

Lemma land_15 x : Z.land x 0xf = x mod 16.
Proof. apply (Z.land_ones x 4). lia. Qed.

(** Masks of small numbers, checked one by one. *)
Lemma small_masks x : 0 <= x < 64 ->
  Z.land x 0xF0 = 16 * (x / 16) /\ Z.lor x 0x10 = 32 * (x / 32) + 16 + x mod 16 /\
  Z.lor (Z.land x 0x2f) 0 = 32 * (x / 32) + x mod 16 /\ Z.lor (Z.land x 0x2f) 16 = 32 * (x / 32) + 16 + x mod 16.
Proof. intros H. each x H; vm_compute; auto. Qed.

Lemma land_12 x : 0 <= x < 16 -> Z.land x 0xc = 4 * (x / 4).
Proof. intros H. each x H; reflexivity. Qed.

Lemma u8_small x : 0 <= x < 256 -> u8 x = x.
Proof. apply Z.mod_small. Qed.

(** [run]: evaluates the accessors on coordinates. *)
Ltac run :=
  rewrite ?get_chiplet_put, ?get_port_put, ?get_ring_put, ?get_sat_put, ?get_offset_put, ?get_group_put by lia;
  rewrite ?set_chiplet_put, ?set_port_put, ?set_ring_put, ?set_sat_put, ?set_offset_put, ?set_group_put by done.

(** [coord]: two settings of the same coordinates. *)
Ltac coord := rewrite ?Z.shiftl_mul_pow2 by lia; f_equal; f_equal; unfold wrap; eucl.

(** [start]: the bounds of the instance and of the coordinates. *)
Ltac start c Hi :=
  intros [] Hi; destruct c as [ch po ri sa o g]; cbn [c_chiplet c_port c_ring c_sat c_offset c_group] in *;
  cbn [p9_instances] in Hi; try apply elem_of_seqZ in Hi; cbn [move].

Lemma dmi_group_wrap i x : 0 <= i -> 0 <= x <= 48 -> dmi_group i x = x + dmi_wrap i.
Proof.
  intros Hi Hx. unfold dmi_group, dmi_wrap. rewrite Z.rem_mod_nonneg by lia.
  assert (0 <= i mod 4 < 4) as H by eucl. generalize dependent (i mod 4). intros k H.
  each k H; apply u8_small; lia.
Qed.

Section Moves.
Context (a : Z) (Ha : in_range 64 a).
Definition moves (u : p9_unit) : Prop := forall i c,
  coords_ok c -> i ∈ p9_instances u -> p9_translate u i (put_coords c a) = put_coords (move u i c) a.

Lemma mcs_moves : moves Mcs9.
Proof. intros i c. start c Hi. cbn [p9_translate]. unfold p9_mcs_translate, N3_CHIPLET_ID. run. coord. Qed.

Lemma mi_moves : moves Mi9.
Proof. intros i c. start c Hi. cbn [p9_translate]. unfold p9_mi_translate, N3_CHIPLET_ID. run. coord. Qed.

Lemma ex_moves : moves Ex9.
Proof.
  intros i c. start c Hi. cbn [p9_translate]. unfold p9_ex_translate, EP00_CHIPLET_ID, EP05_CHIPLET_ID, EC00_CHIPLET_ID, EC23_CHIPLET_ID.
  run. rewrite !land_15. destruct (between 0x10 ch 0x15); [|destruct (between 0x20 ch 0x37); [|done]]; run; coord.
Qed.

Lemma xbus_moves : moves Xbus9.
Proof.
  intros i c. start c Hi. cbn [p9_translate].
  unfold p9_xbus_translate, XB_IOX_0_RING_ID, XB_IOX_2_RING_ID, XB_PBIOX_0_RING_ID, XB_PBIOX_2_RING_ID.
  run. rewrite !land_15. destruct (between 3 _ 5); [|destruct (between 6 _ 8); [|done]]; run; coord.
Qed.

Lemma pec_moves : moves Pec9.
Proof.
  intros i c. start c Hi. cbn [p9_translate]. unfold p9_pec_translate, N2_CHIPLET_ID, N2_PCIS0_0_RING_ID, PCI0_CHIPLET_ID.
  run. rewrite !land_15. destruct (ch =? 4); run; coord.
Qed.

Lemma phb_moves : moves Phb9.
Proof.
  intros i c. start c Hi. cbn [p9_translate]. unfold p9_phb_translate, N2_CHIPLET_ID, N2_PCIS0_0_RING_ID, PCI0_CHIPLET_ID, phb_stack, phb_place.
  run. rewrite !land_15. destruct (ch =? 4); each i Hi; cbn; run; destruct (sa <? 4); reflexivity.
Qed.

Lemma mca_moves : moves Mca9.
Proof.
  intros i c. start c Hi. cbn [p9_translate]. unfold p9_mca_translate, MC01_CHIPLET_ID, MC23_CHIPLET_ID, MC_MC01_0_RING_ID, MC_IOM01_0_RING_ID, N3_CHIPLET_ID.
  destruct (small_masks o) as (_ & _ & M0 & M1); [done|].
  run. replace (between 7 ch 8) with ((ch =? 7) || (ch =? 8)) by (unfold between; lia).
  destruct ((ch =? 7) || (ch =? 8)); [run; rewrite !land_15; destruct (_ =? 2); run; coord|].
  run. assert (Z.rem i 2 = 0 \/ Z.rem i 2 = 1) as E by eucl.
  destruct E as [E|E]; rewrite E; [change (Z.shiftl 0 4) with 0; rewrite M0|change (Z.shiftl 1 4) with 16; rewrite M1];
    f_equal; f_equal; unfold wrap; rewrite ?(Z.rem_mod_nonneg i 2), ?(Z.quot_div_nonneg i 2) in * by lia; eucl.
Qed.

Lemma dmi_moves : moves Dmi9.
Proof.
  intros i c. start c Hi. cbn [p9_translate]. unfold p9_dmi_translate, MC01_CHIPLET_ID, MC23_CHIPLET_ID, N3_CHIPLET_ID, N1_CHIPLET_ID,
    P9C_MC_CHAN_RING_ID, P9C_MC_BIST_RING_ID, P9C_MC_IO_RING_ID.
  destruct (small_masks g) as (M & _); [done|].
  run. replace (between 7 ch 8) with ((ch =? 7) || (ch =? 8)) by (unfold between; lia). rewrite !land_15, land_12, M by lia.
  destruct (_ || _); [run; coord|]. destruct (_ || _); [|done].
  destruct (ri =? 2); [run; coord|]. destruct (ri =? 8); [run; coord|]. destruct (ri =? 4); [|done].
  run. rewrite dmi_group_wrap by eucl. by rewrite Z.quot_div_nonneg by lia.
Qed.

Lemma ppe_moves : moves Ppe9.
Proof.
  intros i c. start c Hi. cbn [p9_translate]. destruct (small_masks o) as (_ & M & _); [done|].
  vm_compute in Hi. unfold p9_ppe_translate, SBE_PORT_ID. run. rewrite M.
  repeat (apply elem_of_cons in Hi as [->|Hi]); [..|by apply elem_of_nil in Hi].
  { cbn [Z.eqb PPE_SBE_CHIPUNIT_NUM]. run. rewrite land_15. reflexivity. }
  all: destruct (po =? 14).
  all: cbn -[put_coords set_chiplet_id set_port set_ring set_sat_id Z.mul Z.add Z.div Z.modulo]; run; run; reflexivity.
Qed.
End Moves.

(** Every translation follows the address map. *)
Lemma translate_moves u i a : in_range 64 a -> i ∈ p9_instances u -> p9_translate u i a = put_coords (move u i (coords_of a)) a.
Proof.
  intros Ha Hi. rewrite <- (put_coords_of a) at 1. pose proof (coords_of_ok a).
  destruct u; [apply ex_moves|apply mcs_moves|apply xbus_moves|apply mca_moves|apply mi_moves|apply dmi_moves|apply ppe_moves
    |apply pec_moves|apply phb_moves]; done.
Qed.
