(* ===== verification/P9Theorems.v ===== *)
(** * libpdbg: what the POWER9 address translations guarantee

    On the coordinates of an address: moving to an instance does not depend on where the
    register was before, and no two instances are at the same place. *)

From S2P Require Import Prelude P10Scom P10Place P10Theorems P9Scom P9Place.

(** ** Registers of a unit *)

(** The registers that a unit has one of per instance. The engines share a window of 16
    registers, which is at offset 0x10, and at 0 for the one of the SBE. *)
Definition own_coords (u : p9_unit) (c : coords) : bool :=
  let 'Coords ch po ri sa o g := c in
  match u with
  | Ex9 => between 0x10 ch 0x15 || between 0x20 ch 0x37
  | Xbus9 => between 3 (ri mod 16) 8
  | Dmi9 => (ch =? 5) || (ch =? 3) || (between 7 ch 8 && ((ri =? 2) || (ri =? 8) || (ri =? 4)))
  | Ppe9 => if po =? 0xE then o <? 32 else between 0x10 o 0x1f
  | _ => true
  end.
Definition p9_own_register (u : p9_unit) (a : Z) : bool := own_coords u (coords_of a).

(** [decide_by tac]: the comparisons in the goal, the impossible cases being refuted by [tac]. *)
Ltac decide_by tac := unfold between in *;
  repeat match goal with
  | |- context [?x =? ?y] => destruct (Z.eqb_spec x y); try (exfalso; tac); cbn [andb orb] in *
  | |- context [?x <=? ?y] => destruct (Z.leb_spec x y); try (exfalso; tac); cbn [andb orb] in *
  | |- context [?x <? ?y] => destruct (Z.ltb_spec x y); try (exfalso; tac); cbn [andb orb] in *
  end.
Ltac decide_all := decide_by lia.

Lemma dmi_wrap_range i : 0 <= dmi_wrap i < 4.
Proof. unfold dmi_wrap. assert (0 <= i mod 4 < 4) as H by eucl. generalize dependent (i mod 4). intros k H. each k H; lia. Qed.

Lemma phb_range i : 0 <= phb_stack i < 3.
Proof. unfold phb_stack. decide_all; lia. Qed.

Lemma phb_place_range i : 0 <= i < 6 -> 0 <= phb_place i < 3.
Proof. intros. unfold phb_place. decide_all; lia. Qed.

(** A place decides the instance. *)
Lemma dmi_wrap_inj i j : 0 <= i -> 0 <= j -> i / 4 = j / 4 -> dmi_wrap i = dmi_wrap j -> i = j.
Proof.
  intros Hi Hj Hq E. enough (i mod 4 = j mod 4) by eucl. clear Hq. unfold dmi_wrap in E.
  assert (0 <= i mod 4 < 4) as Hk by eucl. assert (0 <= j mod 4 < 4) as Hl by eucl.
  generalize dependent (i mod 4). generalize dependent (j mod 4). intros l Hl k E Hk. each k Hk; each l Hl; done.
Qed.

Lemma phb_inj i j : 0 <= i < 6 -> 0 <= j < 6 -> phb_stack i = phb_stack j -> phb_place i = phb_place j -> i = j.
Proof. unfold phb_stack, phb_place. intros ? ?. decide_all; lia. Qed.

Ltac instance Hi := vm_compute in Hi; repeat (apply elem_of_cons in Hi as [->|Hi]); [..|by apply elem_of_nil in Hi].

Lemma ppe_home_ok i : i ∈ p9_instances Ppe9 -> let '(ch, po, ri, sa) := ppe_home i in 0 <= ch < 64 /\ 0 <= po < 16 /\ 0 <= ri < 64 /\ 0 <= sa < 16.
Proof. intros Hi. instance Hi; cbn; lia. Qed.

Lemma move_ok u i c : i ∈ p9_instances u -> coords_ok c -> coords_ok (move u i c).
Proof.
  intros Hi W. pose proof W as []. destruct c as [ch po ri sa o g]. cbn in * |-.
  destruct u; cbn [move]; try (cbn [p9_instances] in Hi; apply elem_of_seqZ in Hi).
  all: try (pose proof (dmi_wrap_range i); unfold phb_stack, phb_place; decide_all; first [exact W | split; cbn; eucl]).
  pose proof (ppe_home_ok i Hi) as H. destruct (ppe_home i) as [[[ch' po'] ri'] sa'].
  destruct (i =? 0); [|destruct (po =? 14)]; split; cbn; eucl.
Qed.

Lemma ppe_home_port i : i ∈ p9_instances Ppe9 -> let '(_, po, _, _) := ppe_home i in (po =? 0xE) = (i =? 0).
Proof. intros Hi. instance Hi; reflexivity. Qed.

(** The three engines of the power bus are at one place. *)
Definition power_bus (i j : Z) : Prop := 50 <= i <= 52 /\ 50 <= j <= 52.

Lemma ppe_home_inj i j : i ∈ p9_instances Ppe9 -> j ∈ p9_instances Ppe9 -> ppe_home i = ppe_home j -> i = j \/ power_bus i j.
Proof.
  intros Hi Hj E. unfold power_bus.
  assert (Forall (fun i => Forall (fun j => ppe_home i = ppe_home j -> i = j \/ (50 <= i <= 52 /\ 50 <= j <= 52)) (p9_instances Ppe9)) (p9_instances Ppe9)) as H
    by (apply (bool_decide_unpack _); vm_compute; reflexivity).
  rewrite Forall_forall in H. specialize (H i Hi). rewrite Forall_forall in H. by apply H.
Qed.

(** Moving to an instance gives the same, whichever instance the register was of. *)
Lemma move_stable u i j c :
  i ∈ p9_instances u -> j ∈ p9_instances u -> coords_ok c -> own_coords u c = true -> move u i (move u j c) = move u i c.
Proof.
  intros Hi Hj [] Ho. destruct c as [ch po ri sa o g]. cbn in * |-.
  destruct u; cbn [move own_coords] in *; try (cbn [p9_instances] in Hi, Hj; apply elem_of_seqZ in Hi, Hj).
  7: { pose proof (ppe_home_port j Hj) as P. destruct (ppe_home j) as [[[ch' po'] ri'] sa']. cbn [move].
       destruct (ppe_home i) as [[[ch2 po2] ri2] sa2]. rewrite P. f_equal. revert Ho. decide_all; intros; try discriminate; eucl. }
  all: pose proof (dmi_wrap_range j); pose proof (phb_place_range j); pose proof (phb_range j); decide_all; cbn [move]; decide_by eucl; try done; f_equal; eucl.
Qed.

(** Two instances are never at the same place, but for the engines of the power bus. *)
Lemma move_distinct u i j c :
  i ∈ p9_instances u -> j ∈ p9_instances u -> coords_ok c -> own_coords u c = true -> move u i c = move u j c -> i = j \/ u = Ppe9 /\ power_bus i j.
Proof.
  intros Hi Hj [] Ho E. destruct c as [ch po ri sa o g]. cbn in * |-.
  destruct u; cbn [move own_coords] in *; try (cbn [p9_instances] in Hi, Hj; apply elem_of_seqZ in Hi, Hj).
  7: { clear - Hi Hj E. destruct (ppe_home i) as [[[? ?] ?] ?] eqn:Ei, (ppe_home j) as [[[? ?] ?] ?] eqn:Ej. injection E as -> -> -> -> _.
       rewrite <- Ej in Ei. destruct (ppe_home_inj i j Hi Hj Ei); [by left|by right]. }
  all: left; revert Ho E; decide_all; intros Ho E; try discriminate; injection E; intros; try (apply dmi_wrap_inj; lia);
    try (apply phb_inj; lia); eucl.
Qed.

(** ** The guarantees *)

Ltac placed := first [done | by apply put_coords_range | apply coords_of_ok | apply move_ok; [done|apply coords_of_ok]].

Section Guarantees.
Context (u : p9_unit) (i : Z) (a : Z) (Ha : in_range 64 a) (Hi : i ∈ p9_instances u).

(** An address keeps every bit outside the fields that the map moves. *)
Theorem p9_translate_moves :
  p9_translate u i a = put_coords (move u i (coords_of a)) a /\ in_range 64 (p9_translate u i a) /\
  coords_of (p9_translate u i a) = move u i (coords_of a).
Proof.
  rewrite translate_moves by done. split; [done|]. split; [by apply put_coords_range|].
  apply coords_of_put, move_ok; [done|apply coords_of_ok].
Qed.

Lemma p9_retarget j :
  j ∈ p9_instances u -> p9_own_register u a = true -> p9_translate u i (p9_translate u j a) = p9_translate u i a.
Proof.
  intros Hj Ho. rewrite (translate_moves u j a), translate_moves, coords_of_put, put_coords_put, move_stable by placed.
  by rewrite translate_moves.
Qed.

Lemma p9_apart j :
  j ∈ p9_instances u -> p9_own_register u a = true -> p9_translate u i a = p9_translate u j a -> i = j \/ u = Ppe9 /\ power_bus i j.
Proof.
  intros Hj Ho E. apply (f_equal coords_of) in E. rewrite !translate_moves, !coords_of_put in E by placed.
  eapply move_distinct; [done|done|apply coords_of_ok|done|exact E].
Qed.
End Guarantees.

Lemma power_bus_alias i a : 50 <= i <= 52 -> p9_ppe_translate i a = p9_ppe_translate 50 a.
Proof. intros Hi. assert (i = 50 \/ i = 51 \/ i = 52) as [->|[->| ->]] by lia; reflexivity. Qed.

(** C21: distinct instances of a unit have distinct registers: where an address names a
    register the unit has one of per instance, no two instances of a POWER10 or POWER9 unit
    translate it alike, with one exception: the three engines of the POWER9 power bus (50 to 52) always do. The
    address of one POWER9 instance reaches the same register of any other. *)
Theorem instances_kept_apart :
  (forall u i j a, in_range 64 a -> ring_fits u a -> own_register u a = true ->
     0 <= i < p10_instances u -> 0 <= j < p10_instances u ->
     p10_translate u i a = p10_translate u j a -> i = j) /\
  (forall u i j a, in_range 64 a -> p9_own_register u a = true ->
     i ∈ p9_instances u -> j ∈ p9_instances u ->
     (p9_translate u i a = p9_translate u j a <-> i = j \/ u = Ppe9 /\ 50 <= i <= 52 /\ 50 <= j <= 52) /\
     p9_translate u i (p9_translate u j a) = p9_translate u i a).
Proof.
  split; intros u i j a Ha.
  - intros R O Hi Hj. by apply p10_instances_disjoint.
  - intros O Hi Hj. split; [|by apply p9_retarget]. split; [by apply p9_apart|]. intros [->|(-> & Hi' & Hj')]; [done|].
    cbn [p9_translate]. rewrite (power_bus_alias i) by done. by rewrite (power_bus_alias j).

Qed.

Lemma instances_kept_apart_witness :
  p10_translate Mcc 2 0x0C010D62 <> p10_translate Mcc 3 0x0C010D62 /\
  p9_translate Mca9 5 0x07010800 <> p9_translate Mca9 6 0x07010800 /\
  p9_translate Mca9 5 (p9_translate Mca9 6 0x07010800) = 0x08010840.
Proof.
  destruct instances_kept_apart as [H10 H9]. split; [|split].
  - intros E. enough (2 = 3) by lia. apply (H10 Mcc 2 3 0x0C010D62); [done|done|reflexivity|cbn; lia|cbn; lia|exact E].
  - intros E. enough (5 = 6 \/ Mca9 = Ppe9 /\ 50 <= 5 <= 52 /\ 50 <= 6 <= 52) as [?|[? _]] by (lia || done).
    apply (H9 Mca9 5 6 0x07010800); [done|reflexivity| | |exact E]; apply elem_of_seqZ; lia.
  - destruct (H9 Mca9 5 6 0x07010800) as [_ ->]; [done|reflexivity|apply elem_of_seqZ; lia|apply elem_of_seqZ; lia|]. reflexivity.
Defined.

(** Engines that do not exist get the address of a chiplet that does not either. *)
Lemma ppe_missing_accepted : get_chiplet_id (p9_ppe_translate 26 0) = EP05_CHIPLET_ID + 1.
Proof. reflexivity. Qed.
