(* ===== verification/SbeBack.v ===== *)
(** * libpdbg: access through the SBE

    Models libpdbg/sbefifo.c: memory, SCOM registers, threads and chip-ops through the SBE of a
    processor. It joins the target tree, the state of the threads and the commands of
    libsbefifo: an [sbefifo] target keeps a context, and an operation on a target runs a command
    on the context of the [sbefifo] target that belongs to it. *)

From S2P Require Import Prelude CMem SbeCore SbeCmds SbeDataCmds.
From S2P Require Import Target Pib Adu Ram Thread Chip.

Definition SBE_MSG_REG : Z := 0x2809.
Definition SBE_MSG_ASYNC_FFDC : Z := Z.shiftr 0x80000000 1.

Definition SBEFIFO_INSN_OP_START : Z := 0x0.
Definition SBEFIFO_INSN_OP_STOP : Z := 0x1.
Definition SBEFIFO_INSN_OP_STEP : Z := 0x2.
Definition SBEFIFO_INSN_OP_SRESET : Z := 0x3.
Definition SBEFIFO_REGISTER_TYPE_GPR : Z := 0x0.
Definition SBEFIFO_REGISTER_TYPE_SPR : Z := 0x1.
Definition SBEFIFO_REGISTER_TYPE_FPR : Z := 0x2.
Definition SBEFIFO_MEMORY_FLAG_CI : Z := 0x0080.

Inductive pdbg_proc := PDBG_PROC_UNKNOWN | PDBG_PROC_P8 | PDBG_PROC_P9 | PDBG_PROC_P10.

(** What the SBE targets add to the state: [sf_ctx] of each [struct sbefifo] where it is not
    NULL, the driver and the trace of its calls. The other hardware is [other]. *)
Record sbes (D E : Type) := Sbes {
  sf_ctx : gmap nat sbefifo_context;
  sb_dev : D;
  sb_trace : list event;
  other : E
}.
Arguments Sbes {D E} _ _ _ _.
Arguments sf_ctx {D E} _.
Arguments sb_dev {D E} _.
Arguments sb_trace {D E} _.
Arguments other {D E} _.

(** The members of [struct thread_regs] that are read as special registers, with the numbers of
    the registers; the condition register and three others have 32 bits. *)
Definition regs_sprs : list (string * Z) :=
  [("nia", 2000); ("msr", 2001); ("cfar", 28); ("lr", 8); ("ctr", 9); ("tar", 815); ("cr", 2002); ("xer", 1);
   ("lpcr", 318); ("ptcr", 464); ("lpidr", 319); ("pidr", 48); ("hfscr", 190); ("hdsisr", 306); ("hdar", 307);
   ("hsrr0", 314); ("hsrr1", 315); ("hdec", 310); ("heir", 339); ("hid", 1008); ("hsprg0", 304); ("hsprg1", 305);
   ("fscr", 153); ("dsisr", 18); ("dar", 19); ("srr0", 26); ("srr1", 27); ("dec", 22); ("tb", 268); ("sprg0", 272);
   ("sprg1", 273); ("sprg2", 274); ("sprg3", 275); ("ppr", 896)]%string.

Definition regs_32 : list string := ["cr"; "hdsisr"; "heir"; "dsisr"]%string.

Section SbeBack.
Context {D E : Type} {K : Kernel D} {Al : Allocator} {Hw : Hardware (chips (sbes D E))}.
Context (T : dtree) (fuel : nat).
Abbreviation m := (M (tgt (chips (sbes D E)))).

(** ** Contexts *)

Definition get_sbes : m (sbes D E) := s ← get_st; mret (chip_dev (t_dev s)).
Definition put_sbes (e : sbes D E) : m unit :=
  s ← get_st;
  put_st (Tgt (t_status s) (Chips (thread_of (t_dev s)) (release_spwkup (t_dev s)) e) (t_trace s)).

(** A function of libsbefifo runs on the heap of the caller and on one context. *)
Definition run_sbe {A} (op : M (sbe D) A) (c : sbefifo_context) (keep : sbefifo_context -> gmap nat sbefifo_context) : m A :=
  fun w =>
    let s := w_st w in
    let e := chip_dev (t_dev s) in
    let '(r, w') := op (World (w_heap w) (w_next w) (Sbe c (sb_dev e) (sb_trace e))) in
    (r, World (w_heap w') (w_next w')
          (Tgt (t_status s)
             (Chips (thread_of (t_dev s)) (release_spwkup (t_dev s))
                (Sbes (keep (sctx (w_st w'))) (dev (w_st w')) (trace (w_st w')) (other e))) (t_trace s))).

(** [f(sbefifo->sf_ctx, ...)]; the functions of libsbefifo look at the context. *)
Definition on_sbe {A} (sf : nat) (op : M (sbe D) A) : m A :=
  e ← get_sbes;
  match sf_ctx e !! sf with
  | None => crash OutOfBounds
  | Some c => run_sbe op c (fun c' => <[sf := c']> (sf_ctx e))
  end.

(** [target_to_sbefifo(target->parent)] *)
Definition parent_sbefifo (t : nat) : m nat :=
  match parent (node T t) with Some p => mret p | None => crash OutOfBounds end.

(** [sbefifo->get_sbefifo_context(sbefifo)] is [sf_ctx] of the target, for this and for the Cronus
    back end ([sbefifo_op_get_context], [cronus_sbefifo_context]): the context a command runs on
    is that of the target named in [on_sbe]. *)

(** ** Memory *)

Definition op_flags (flag : Z) (ci : bool) : Z := if ci then Z.lor flag SBEFIFO_MEMORY_FLAG_CI else flag.

Definition getmem_flags (flag : Z) (t : nat) (addr : Z) (data : ptr) (size : Z) (ci : bool) : m unit :=
  sbefifo ← parent_sbefifo t;
  if 0xffffffff <? size then fail EINVAL else
  let len := Z.land size 0xffffffff in
  out ← on_sbe sbefifo (sbefifo_mem_get addr len (op_flags flag ci));
  memcpy data out len;;
  free out.

Definition putmem_flags (flag : Z) (t : nat) (addr : Z) (data : list mval) (size : Z) (ci : bool) : m unit :=
  sbefifo ← parent_sbefifo t;
  if 0xffffffff <? size then fail EINVAL else
  let len := Z.land size 0xffffffff in
  on_sbe sbefifo (sbefifo_mem_put addr data len (op_flags flag ci)).

Definition sbefifo_op_getmem : nat -> Z -> ptr -> Z -> bool -> m unit := getmem_flags SBEFIFO_MEMORY_FLAG_PROC.
Definition sbefifo_op_putmem : nat -> Z -> list mval -> Z -> bool -> m unit := putmem_flags SBEFIFO_MEMORY_FLAG_PROC.
Definition sbefifo_op_getmem_pba : nat -> Z -> ptr -> Z -> bool -> m unit := getmem_flags SBEFIFO_MEMORY_FLAG_PBA.
Definition sbefifo_op_putmem_pba : nat -> Z -> list mval -> Z -> bool -> m unit := putmem_flags SBEFIFO_MEMORY_FLAG_PBA.

(** ** Chip-ops

    [*ffdc] and [*ffdc_len] are in- and output; [sbefifo_ffdc_get] assigns the pointer only when
    there is data. *)

Definition ffdc_get_into (sbefifo : nat) (data : ptr) : m (Z * ptr * Z) :=
  '(status, p, len) ← on_sbe sbefifo sbefifo_ffdc_get;
  mret (status, default data p, len).

Definition ffdc_get_of (read : m Z) (sbefifo : nat) (data : ptr) : m (Z * ptr * Z) :=
  '(status, data, len) ← ffdc_get_into sbefifo data;
  if truthy status then mret (status, data, len) else
  if 0 <? len then mret (status, data, len) else
  r ← attempt read;
  match r with
  | inl _ => mret (0, Null, 0)
  | inr value =>
      if Z.land value SBE_MSG_ASYNC_FFDC =? SBE_MSG_ASYNC_FFDC then
        attempt (on_sbe sbefifo sbefifo_get_ffdc);;
        ffdc_get_into sbefifo data
      else mret (0, Null, 0)
  end.

Definition sbefifo_op_ffdc_get (t : nat) (data : ptr) : m (Z * ptr * Z) :=
  fsi ← require_target_parent T fuel (Some "fsi"%string) t true;
  sbefifo ← parent_sbefifo t;
  ffdc_get_of (fsi_read T fuel fsi SBE_MSG_REG) sbefifo data.

Definition sbefifo_op_ody_ffdc_get (t fsi : nat) (data : ptr) : m (Z * ptr * Z) :=
  sbefifo ← parent_sbefifo t;
  ffdc_get_of (fsi_ody_read T fsi SBE_MSG_REG) sbefifo data.

Definition sbefifo_op_istep (t : nat) (major minor : Z) : m unit :=
  sbefifo ← parent_sbefifo t;
  on_sbe sbefifo (sbefifo_istep_execute (Z.land major 0xff) (Z.land minor 0xff)).

Definition sbefifo_op_mpipl_continue (t : nat) : m unit :=
  sbefifo ← parent_sbefifo t; on_sbe sbefifo sbefifo_mpipl_continue.
Definition sbefifo_op_mpipl_enter (t : nat) : m unit :=
  sbefifo ← parent_sbefifo t; on_sbe sbefifo sbefifo_mpipl_enter.
Definition sbefifo_op_mpipl_get_ti_info (t : nat) : m (ptr * Z) :=
  sbefifo ← parent_sbefifo t; on_sbe sbefifo sbefifo_mpipl_get_ti_info.
Definition sbefifo_op_dump (t : nat) (type clock fa_collect : Z) : m (ptr * Z) :=
  sbefifo ← parent_sbefifo t; on_sbe sbefifo (sbefifo_get_dump type clock fa_collect).
Definition sbefifo_op_ody_dump (t : nat) (type clock fa_collect : Z) : m (ptr * Z) :=
  sbefifo ← parent_sbefifo t; on_sbe sbefifo (sbefifo_get_dump type clock fa_collect).
Definition sbefifo_op_lpc_timeout (t : nat) : m Z :=
  sbefifo ← parent_sbefifo t; on_sbe sbefifo sbefifo_lpc_timeout.

(** ** The SBE of a processor *)

(** [pdbg_for_each_class_target(klass, target) if (f(target)) { ...; break; }], from [cur] on *)
Fixpoint find_target (n : nat) (klass : string) (cur : option nat) (f : nat -> m bool) : m (option nat) :=
  match n with
  | O => crash NoFuel
  | S n' =>
      match cur with
      | None => mret None
      | Some t =>
          found ← f t;
          if found : bool then mret (Some t) else
          next ← pdbg_next_target T fuel klass None (Some t) true;
          find_target n' klass next f
      end
  end.

Definition find_class_target (klass : string) (f : nat -> m bool) : m (option nat) :=
  first ← pdbg_next_target T fuel klass None None true;
  find_target fuel klass first f.

Definition same_index (pib t : nat) : m bool :=
  i ← pdbg_target_index T fuel (Some t);
  j ← pdbg_target_index T fuel (Some pib);
  mret (i =? j).

Definition pib_to_sbefifo (pib : nat) : m nat :=
  sf ← find_class_target "sbefifo" (same_index pib);
  match sf with Some sf => mret sf | None => crash AssertFailed end.

(** ** SCOM registers and all threads of a processor *)

Definition sbefifo_pib_read (pib : nat) (addr : Z) : m Z :=
  sbefifo ← pib_to_sbefifo pib; on_sbe sbefifo (sbefifo_scom_get addr).
Definition sbefifo_pib_write (pib : nat) (addr val : Z) : m unit :=
  sbefifo ← pib_to_sbefifo pib; on_sbe sbefifo (sbefifo_scom_put addr val).

(** Special wakeup is enforced for stop and sreset on POWER9. *)
Definition op_mode (proc oper : Z) : Z :=
  if proc =? SBEFIFO_PROC_P9 then
    if (Z.land oper 0xf =? SBEFIFO_INSN_OP_STOP) || (Z.land oper 0xf =? SBEFIFO_INSN_OP_SRESET) then 0x2 else 0
  else 0.

Definition sbefifo_pib_thread_op (pib : nat) (oper : Z) : m unit :=
  sbefifo ← parent_sbefifo pib;
  let core_id := 0xff in
  let thread_id := 0xf in
  proc ← on_sbe sbefifo sbefifo_proc;
  on_sbe sbefifo (sbefifo_control_insn core_id thread_id (u8 oper) (op_mode proc oper)).

(** [thread->state] is a member of the thread. *)
Definition sbefifo_pib_update_threads (state : nat -> m thread_state) (pib : nat) : m unit :=
  for_each_target T fuel "thread" pib (fun t => st ← state t; put_status t st).

(** [rc = op; if (!rc) update; return rc;] *)
Definition sbefifo_pib_thread_start (state : nat -> m thread_state) (pib : nat) : m unit :=
  sbefifo_pib_thread_op pib SBEFIFO_INSN_OP_START;; sbefifo_pib_update_threads state pib.
Definition sbefifo_pib_thread_stop (state : nat -> m thread_state) (pib : nat) : m unit :=
  sbefifo_pib_thread_op pib SBEFIFO_INSN_OP_STOP;; sbefifo_pib_update_threads state pib.
Definition sbefifo_pib_thread_sreset (state : nat -> m thread_state) (pib : nat) : m unit :=
  sbefifo_pib_thread_op pib SBEFIFO_INSN_OP_SRESET;; sbefifo_pib_update_threads state pib.

(** [for (i = 0; i < count; i++) rc |= op;], [n] rounds *)
Fixpoint or_loop (n : nat) (op : m unit) (rc : Z) : m Z :=
  match n with
  | O => mret rc
  | S n' => r ← code op; or_loop n' op (Z.lor rc r)
  end.

Definition steps (count : Z) (op : m unit) : m unit :=
  rc ← or_loop (Z.to_nat count) op 0;
  if truthy rc then fail rc else mret tt.

Definition sbefifo_pib_thread_step (pib : nat) (count : Z) : m unit :=
  steps count (sbefifo_pib_thread_op pib SBEFIFO_INSN_OP_STEP).

(** ** One thread *)

(** The pervasive number of the chiplet on POWER9, the number of the core on POWER10 *)
Definition sbefifo_core_id (sbefifo t : nat) : m Z :=
  proc ← on_sbe sbefifo sbefifo_proc;
  parent ← require_target_parent T fuel
             (Some (if proc =? SBEFIFO_PROC_P9 then "chiplet"%string else "core"%string)) t true;
  i ← pdbg_target_index T fuel (Some parent);
  mret (Z.land i 0xff).

Definition thread_sbefifo (t : nat) : m nat :=
  pib ← require_target_parent T fuel (Some "pib"%string) t true;
  pib_to_sbefifo pib.

Definition sbefifo_thread_state (t : nat) : m thread_state :=
  sbefifo ← thread_sbefifo t;
  proc ← on_sbe sbefifo sbefifo_proc;
  if proc =? SBEFIFO_PROC_P9 then p9_thread_state T fuel t else
  if proc =? SBEFIFO_PROC_P10 then p10_thread_state T fuel t else
  crash AssertFailed.

(** [thread->status = thread->state(thread);] *)
Definition sbefifo_update_status (t : nat) : m unit :=
  st ← sbefifo_thread_state t; put_status t st.

Definition sbefifo_thread_probe (t : nat) : m unit :=
  i ← pdbg_target_index T fuel (Some t);
  put_id t (s32 i);;
  sbefifo_update_status t.

Definition sbefifo_thread_release (t : nat) : m unit := mret tt.

Definition sbefifo_thread_op (t : nat) (oper : Z) : m unit :=
  sbefifo ← thread_sbefifo t;
  proc ← on_sbe sbefifo sbefifo_proc;
  let mode := op_mode proc oper in
  core_id ← sbefifo_core_id sbefifo t;
  th ← get_thread t;
  on_sbe sbefifo (sbefifo_control_insn core_id (u8 (id th)) (u8 oper) mode).

Definition sbefifo_thread_start (t : nat) : m unit :=
  th ← get_thread t;
  if negb (quiesced (Chip.status th)) then fail 1 else
  sbefifo_thread_op t SBEFIFO_INSN_OP_START;; sbefifo_update_status t.

Definition sbefifo_thread_stop (t : nat) : m unit :=
  sbefifo_thread_op t SBEFIFO_INSN_OP_STOP;; sbefifo_update_status t.

Definition sbefifo_thread_step (t : nat) (count : Z) : m unit :=
  th ← get_thread t;
  if negb (quiesced (Chip.status th)) then fail 1 else
  if negb (active (Chip.status th)) then fail 1 else
  steps count (sbefifo_thread_op t SBEFIFO_INSN_OP_STEP).

Definition sbefifo_thread_sreset (t : nat) : m unit :=
  th ← get_thread t;
  if negb (quiesced (Chip.status th)) then fail 1 else
  sbefifo_thread_op t SBEFIFO_INSN_OP_SRESET;; sbefifo_update_status t.

(** ** Registers of a thread *)

(** [value[i]] of an array of 64-bit words, in the byte order of the host *)
Definition load_u64 (value : ptr) (i : nat) : m Z :=
  bs ← load_bytes (ptr_add value (8 * Z.of_nat i)) 8;
  l ← defined bs;
  mret (be_val (rev l)).

(** [for (i=0; i<n; i++) regs->gprs[i] = value[i];], from [i] on *)
Fixpoint load_gprs (n i : nat) (value : ptr) (regs : gmap (string * nat) Z) : m (gmap (string * nat) Z) :=
  match n with
  | O => mret regs
  | S n' => v ← load_u64 value i; load_gprs n' (S i) value (<[("gprs"%string, i) := v]> regs)
  end.

(** [regs->name = value[i];] for the members in order *)
Fixpoint load_sprs (l : list (string * Z)) (i : nat) (value : ptr) (regs : gmap (string * nat) Z) : m (gmap (string * nat) Z) :=
  match l with
  | [] => mret regs
  | (name, _) :: l' =>
      v ← load_u64 value i;
      load_sprs l' (S i) value (<[(name, O) := if bool_decide (name ∈ regs_32) then Z.land v 0xffffffff else v]> regs)
  end.

(** [regs] is the structure of the caller as it is before; what is left in it comes with the return code. *)
Definition sbefifo_thread_getregs (t : nat) (regs : gmap (string * nat) Z) : m (gmap (string * nat) Z * (Z + unit)) :=
  sbefifo ← thread_sbefifo t;
  core_id ← sbefifo_core_id sbefifo t;
  th ← get_thread t;
  r ← attempt (on_sbe sbefifo (sbefifo_register_get core_id (u8 (id th)) SBEFIFO_REGISTER_TYPE_GPR
                                  (Z.of_nat <$> seq 0 32) 32));
  match r with
  | inl ret => mret (regs, inl ret)
  | inr value =>
      regs ← load_gprs 32 0 value regs;
      free value;;
      r ← attempt (on_sbe sbefifo (sbefifo_register_get core_id (u8 (id th)) SBEFIFO_REGISTER_TYPE_SPR
                                      (snd <$> regs_sprs) 34));
      match r with
      | inl ret => mret (regs, inl ret)
      | inr value =>
          regs ← load_sprs regs_sprs 0 value regs;
          free value;;
          mret (regs, inr tt)
      end
  end.
(** The member of the thread, for a caller that looks at the structure after a success only *)
Definition getregs_member (t : nat) : m (gmap (string * nat) Z) :=
  '(regs, r) ← sbefifo_thread_getregs t ∅; check r;; mret regs.

Definition sbefifo_thread_get_reg (t : nat) (reg_type reg_id : Z) : m Z :=
  sbefifo ← thread_sbefifo t;
  core_id ← sbefifo_core_id sbefifo t;
  th ← get_thread t;
  v ← on_sbe sbefifo (sbefifo_register_get core_id (u8 (id th)) reg_type [reg_id] 1);
  value ← load_u64 v 0;
  free v;;
  mret value.

Definition sbefifo_thread_put_reg (t : nat) (reg_type reg_id value : Z) : m unit :=
  sbefifo ← thread_sbefifo t;
  core_id ← sbefifo_core_id sbefifo t;
  th ← get_thread t;
  on_sbe sbefifo (sbefifo_register_put core_id (u8 (id th)) reg_type [reg_id] 1 [value]).

(** The number of a register is an [int] that becomes a [uint32_t]. *)
Definition sbefifo_thread_getgpr (t : nat) (gpr : Z) : m Z := sbefifo_thread_get_reg t SBEFIFO_REGISTER_TYPE_GPR (u32 gpr).
Definition sbefifo_thread_putgpr (t : nat) (gpr value : Z) : m unit :=
  sbefifo_thread_put_reg t SBEFIFO_REGISTER_TYPE_GPR (u32 gpr) value.
Definition sbefifo_thread_getspr (t : nat) (spr : Z) : m Z := sbefifo_thread_get_reg t SBEFIFO_REGISTER_TYPE_SPR (u32 spr).
Definition sbefifo_thread_putspr (t : nat) (spr value : Z) : m unit :=
  sbefifo_thread_put_reg t SBEFIFO_REGISTER_TYPE_SPR (u32 spr) value.
Definition sbefifo_thread_getfpr (t : nat) (fpr : Z) : m Z := sbefifo_thread_get_reg t SBEFIFO_REGISTER_TYPE_FPR (u32 fpr).
Definition sbefifo_thread_putfpr (t : nat) (fpr value : Z) : m unit :=
  sbefifo_thread_put_reg t SBEFIFO_REGISTER_TYPE_FPR (u32 fpr) value.
Definition sbefifo_thread_getmsr (t : nat) : m Z := sbefifo_thread_get_reg t SBEFIFO_REGISTER_TYPE_SPR SPR_MSR.
Definition sbefifo_thread_putmsr (t : nat) (value : Z) : m unit :=
  sbefifo_thread_put_reg t SBEFIFO_REGISTER_TYPE_SPR SPR_MSR value.
Definition sbefifo_thread_getnia (t : nat) : m Z := sbefifo_thread_get_reg t SBEFIFO_REGISTER_TYPE_SPR SPR_NIA.
Definition sbefifo_thread_putnia (t : nat) (value : Z) : m unit :=
  sbefifo_thread_put_reg t SBEFIFO_REGISTER_TYPE_SPR SPR_NIA value.
Definition sbefifo_thread_getxer (t : nat) : m Z := sbefifo_thread_get_reg t SBEFIFO_REGISTER_TYPE_SPR SPR_XER.
Definition sbefifo_thread_putxer (t : nat) (value : Z) : m unit :=
  sbefifo_thread_put_reg t SBEFIFO_REGISTER_TYPE_SPR SPR_XER value.
Definition sbefifo_thread_getcr (t : nat) : m Z :=
  val ← sbefifo_thread_get_reg t SBEFIFO_REGISTER_TYPE_SPR SPR_CR;
  mret (Z.land val 0xffffffff).
Definition sbefifo_thread_putcr (t : nat) (value : Z) : m unit :=
  sbefifo_thread_put_reg t SBEFIFO_REGISTER_TYPE_SPR SPR_CR value.

(** [sbefifo_thread]: there is no ramming and no [getmem]. *)
Definition sbefifo_thread_ops (t : nat) : thread :=
  Thread (Some (sbefifo_thread_step t)) (Some (sbefifo_thread_start t)) (Some (sbefifo_thread_stop t))
    (Some (sbefifo_thread_sreset t)) None (Some (getregs_member t))
    (Some (sbefifo_thread_getgpr t)) (Some (sbefifo_thread_putgpr t))
    (Some (sbefifo_thread_getspr t)) (Some (sbefifo_thread_putspr t))
    (Some (sbefifo_thread_getfpr t)) (Some (sbefifo_thread_putfpr t))
    (Some (sbefifo_thread_getmsr t)) (Some (sbefifo_thread_putmsr t))
    (Some (sbefifo_thread_getnia t)) (Some (sbefifo_thread_putnia t))
    (Some (sbefifo_thread_getxer t)) (Some (sbefifo_thread_putxer t))
    (Some (sbefifo_thread_getcr t)) (Some (sbefifo_thread_putcr t)).

(** [sbefifo_pib] *)
Definition sbefifo_pib_ops (state : nat -> m thread_state) (pib : nat) : Thread.pib :=
  Thread.Pib (Some (sbefifo_pib_thread_step pib)) (Some (sbefifo_pib_thread_start state pib))
    (Some (sbefifo_pib_thread_stop state pib)) (Some (sbefifo_pib_thread_sreset state pib)).

(** ** The driver *)

Context (device_path : nat -> option string) (pdbg_get_proc : pdbg_proc).

Definition sbefifo_proc_of (p : pdbg_proc) : option Z :=
  match p with
  | PDBG_PROC_P9 => Some SBEFIFO_PROC_P9
  | PDBG_PROC_P10 => Some SBEFIFO_PROC_P10
  | _ => None
  end.

(** [sf->sf_ctx] is assigned when the connection succeeds. *)
Definition connect_context (sf : nat) (op : M (sbe D) ptr) : m unit :=
  e ← get_sbes;
  c ← run_sbe (op;; get_sctx) (Sctx (-1) 0 false 0 Null 0) (fun _ => sf_ctx e);
  e ← get_sbes;
  put_sbes (Sbes (<[sf := c]> (sf_ctx e)) (sb_dev e) (sb_trace e) (other e)).

Definition sbefifo_probe (sf : nat) : m unit :=
  match device_path sf with
  | None => crash AssertFailed
  | Some sbefifo_path =>
      match sbefifo_proc_of pdbg_get_proc with
      | None => fail (-1)
      | Some proc => connect_context sf (sbefifo_connect sbefifo_path proc)
      end
  end.

Definition sbefifo_release (sf : nat) : m unit := mret tt.
End SbeBack.
