(* ===== verification/SbeBackFacts.v ===== *)
(** * libpdbg: a command on the SBE of a target

    What a function of libsbefifo promises of its context carries over to the state of
    libpdbg: the context of one [sbefifo] target, the driver and the heap change as the command
    says, and everything else stays. *)

From S2P Require Import Prelude CMem SbeCore SbeCoreFacts SbeCmds SbeDataCmds SbeCmdFacts SbeSpec SbeDataSpec.
From S2P Require Import SbeMemory Target TargetFacts TargetRelease Pib Adu Ram Thread Chip SbeBack.

Abbreviation heap := (gmap nat (list mval)).

Section Lift.
Context {D E : Type} {K : Kernel D} {Al : Allocator}.
Abbreviation state := (tgt (chips (sbes D E))).
Abbreviation m := (M state).
Implicit Types (h : heap) (s : state) (c : sbefifo_context) (d : D).

Definition sbe_part s : sbes D E := chip_dev (t_dev s).

(** The state after a command on the SBE [sf]. *)
Definition moved s (sf : nat) c d (tr : list event) : state :=
  Tgt (t_status s)
    (Chips (thread_of (t_dev s)) (release_spwkup (t_dev s)) (Sbes (<[sf := c]> (sf_ctx (sbe_part s))) d tr (other (sbe_part s))))
    (t_trace s).

Lemma moved_ctx s sf c d tr : sf_ctx (sbe_part (moved s sf c d tr)) !! sf = Some c.
Proof. apply lookup_insert_eq. Qed.

(** What a sequence of commands on [sf] does, the last word being [abs], the description without
    memory. [fin] relates the result, the result of [abs], and the heap outside the context
    before and after. A timeout can leave FFDC of the context behind. *)
Definition done_on {A B} (sf : nat) (fin : A -> B -> heap -> heap -> Prop) (abs : aview D -> (Z + B) * aview D)
    c h h0 s (r : Z + A) (w' : world state) : Prop :=
  exists h' n' c' d' tr' ares, w' = World h' n' (moved s sf c' d' tr') /\ heap_ok h' n' /\ same_ctx c c' /\
    match r, ares with
    | inl rc, inl rc' => rc = rc' /\ rc <> 0 /\ exists c1 hf, own c' h' hf /\ after_rc rc c1 h0 hf
    | inr a, inr b => exists h1, fin a b h0 h1 /\ own c' h' h1
    | _, _ => False
    end /\
    (oom \/ forall f, ffdc_view c h f -> exists f', ffdc_view c' h' f' /\
       abs (AView (sb_dev (sbe_part s)) (sb_trace (sbe_part s)) (SbeCore.status c) f) = (ares, AView d' tr' (SbeCore.status c') f')).

(** In a state that satisfies [pre], [op] is [abs] on the context of [sf]. *)
Definition does_on {A B} (sf : nat) (pre : state -> sbefifo_context -> heap -> Prop) (fin : A -> B -> heap -> heap -> Prop) (op : m A)
    (abs : sbefifo_context -> aview D -> (Z + B) * aview D) : Prop :=
  forall h h0 n s c, heap_ok h n -> sf_ctx (sbe_part s) !! sf = Some c -> own c h h0 -> pre s c h0 ->
    wp op (World h n s) (done_on sf fin (abs c) c h h0 s).

Definition any s c h0 : Prop := True.
(** The result is a value, and no memory changes. *)
Definition same {A} (a b : A) h0 h1 : Prop := a = b /\ h1 = h0.
(** The result comes with memory of its own. *)
Definition extra {A B} (rep : A -> B -> heap -> Prop) (a : A) (b : B) h0 h1 : Prop :=
  exists x, rep a b x /\ x ##ₘ h0 /\ h1 = x ∪ h0.

Lemma wp_run_sbe {A} (op : M (sbe D) A) c keep h n s Q :
  wp op (World h n (Sbe c (sb_dev (sbe_part s)) (sb_trace (sbe_part s)))) (fun r w' =>
    Q r (World (w_heap w') (w_next w')
           (Tgt (t_status s) (Chips (thread_of (t_dev s)) (release_spwkup (t_dev s))
              (Sbes (keep (sctx (w_st w'))) (dev (w_st w')) (trace (w_st w')) (other (sbe_part s)))) (t_trace s)))) ->
  wp (run_sbe op c keep) (World h n s) Q.
Proof.
  unfold wp, run_sbe, sbe_part. cbn. intros H. by destruct (op _) as [[] [h' n' [c' d' tr']]].
Qed.

Lemma on_sbe_does {A B} sf rep (op : M (sbe D) A) (abs : sbefifo_context -> aview D -> (Z + B) * aview D) :
  refines rep op abs -> does_on sf any (extra rep) (on_sbe sf op) abs.
Proof.
  intros H h h0 n s c Hok Hc Ho _. unfold on_sbe. apply wp_bind, wp_bind, wp_get_st, wp_ret.
  change (chip_dev (t_dev s)) with (sbe_part s). rewrite Hc. apply wp_run_sbe.
  eapply wp_mono; [by apply (H c h h0 n)|]. intros r w (h' & n' & c' & d' & tr' & ares & -> & Hok' & Hs & Hr & Ha).
  exists h', n', c', d', tr', ares. split_and!; try done.
  destruct r as [rc|a], ares as [rc'|b]; cbn in Hr; try done.
  - destruct Hr as (-> & ? & hf & ? & ?). eauto 10.
  - destruct Hr as (x & ? & ? & ?). exists (x ∪ h0). unfold extra. eauto.
Qed.

Lemma does_on_mono {A B} sf pre fin fin' (op : m A) (abs : sbefifo_context -> aview D -> (Z + B) * aview D) :
  (forall a b h0 h1, fin a b h0 h1 -> fin' a b h0 h1) -> does_on sf pre fin op abs -> does_on sf pre fin' op abs.
Proof.
  intros Hf H h h0 n s c Hok Hc Ho Hp. eapply wp_mono; [by apply (H h h0)|].
  intros r w (h' & n' & c' & d' & tr' & ares & -> & Hok' & Hs & Hr & Ha). exists h', n', c', d', tr', ares.
  split_and!; try done. destruct r, ares; try done. destruct Hr as (h1 & ? & ?). eauto.
Qed.

(** A command whose result has no memory. *)
Lemma on_sbe_pure {A} sf (op : M (sbe D) A) (abs : sbefifo_context -> aview D -> (Z + A) * aview D) :
  refines rep_pure op abs -> does_on sf any same (on_sbe sf op) abs.
Proof.
  intros H. eapply does_on_mono; [|by apply on_sbe_does]. intros a b h0 h1 (x & [-> ->] & _ & ->).
  split; [done|apply left_id_L, _].
Qed.

Lemma moved_id s sf c : sf_ctx (sbe_part s) !! sf = Some c -> moved s sf c (sb_dev (sbe_part s)) (sb_trace (sbe_part s)) = s.
Proof.
  intros Hc. unfold moved. rewrite insert_id by done. unfold sbe_part. by destruct s as [? [? ? []] ?].
Qed.

Lemma moved_moved s sf c d tr c' d' tr' : moved (moved s sf c d tr) sf c' d' tr' = moved s sf c' d' tr'.
Proof. unfold moved. cbn. by rewrite insert_insert_eq. Qed.

(** The processor of the context *)
Lemma on_sbe_proc sf h n s c : sf_ctx (sbe_part s) !! sf = Some c ->
  on_sbe sf sbefifo_proc (World h n s) = (Ret (proc c), World h n s).
Proof.
  intros Hc. pose proof (moved_id s sf c Hc) as Hm. unfold sbe_part in Hc.
  unfold on_sbe, get_sbes, get_st, mbind, M_bind, mret, M_ret. cbn. rewrite Hc.
  transitivity (@Ret Z (proc c), World h n (moved s sf c (sb_dev (sbe_part s)) (sb_trace (sbe_part s)))); [done|by rewrite Hm].
Qed.

(** ** Composition *)

Lemma does_on_pre {A B} sf (pre pre' : state -> sbefifo_context -> heap -> Prop) fin (op : m A)
    (abs : sbefifo_context -> aview D -> (Z + B) * aview D) :
  (forall s c h0, pre' s c h0 -> pre s c h0) -> does_on sf pre fin op abs -> does_on sf pre' fin op abs.
Proof. intros Hp H h h0 n s c Hok Hc Ho Hs. eauto. Qed.

(** A first step that only looks at the state. *)
Lemma does_after {A B C} sf pre fin (look : m C) (k : C -> m A) (x : C) (abs : sbefifo_context -> aview D -> (Z + B) * aview D) :
  (forall h n s c h0, sf_ctx (sbe_part s) !! sf = Some c -> pre s c h0 -> look (World h n s) = (Ret x, World h n s)) ->
  does_on sf pre fin (k x) abs -> does_on sf pre fin (look ≫= k) abs.
Proof.
  intros Hl H h h0 n s c Hok Hc Ho Hs. apply wp_bind. unfold wp at 1. rewrite (Hl h n s c h0 Hc Hs). by apply (H h h0).
Qed.

(** The result of a command is taken out of the memory it came in. *)
Definition abs_map {B B'} (g : B -> B') (abs : aview D -> (Z + B) * aview D) (a : aview D) : (Z + B') * aview D :=
  match abs a with (inl rc, a') => (inl rc, a') | (inr b, a') => (inr (g b), a') end.

Definition takes {A A' B B'} pre (fin : A -> B -> heap -> heap -> Prop) (fin' : A' -> B' -> heap -> heap -> Prop)
    (k : A -> m A') (g : B -> B') : Prop :=
  forall a b h0 h1 c h n s s0 c0, pre s0 c0 h0 -> fin a b h0 h1 -> own c h h1 -> heap_ok h n ->
    wp (k a) (World h n s) (fun r w => exists a' h' h1', r = inr a' /\ w = World h' n s /\ heap_ok h' n /\
      fin' a' (g b) h0 h1' /\ own c h' h1' /\ forall f, ffdc_view c h f -> ffdc_view c h' f).

Lemma does_then {A A' B B'} sf pre fin fin' (op : m A) (k : A -> m A') (g : B -> B') abs :
  does_on sf pre fin op abs -> takes pre fin fin' k g -> does_on sf pre fin' (op ≫= k) (fun c => abs_map g (abs c)).
Proof.
  intros H Hk h h0 n s c Hok Hc Ho Hs. apply wp_bind. eapply wp_mono; [by apply (H h h0)|].
  intros r w (h' & n' & c' & d' & tr' & ares & -> & Hok' & Hsc & Hr & Ha). destruct r as [rc|a], ares as [rc'|b]; try done.
  - exists h', n', c', d', tr', (inl rc'). refine (conj eq_refl (conj Hok' (conj Hsc (conj Hr _)))).
    destruct Ha as [?|Ha]; [by left|right]. intros f Hf. destruct (Ha f Hf) as (f' & ? & Ea). exists f'. unfold abs_map. by rewrite Ea.
  - destruct Hr as (h1 & Hfin & Ho'). eapply wp_mono; [by eapply (Hk a b h0 h1)|].
    intros r w (a' & h2 & h1' & -> & -> & Hok2 & Hfin' & Ho2 & Hv). exists h2, n', c', d', tr', (inr (g b)). split_and!; [done|done|done|eauto|].
    destruct Ha as [?|Ha]; [by left|right]. intros f Hf. destruct (Ha f Hf) as (f' & ? & Ea). exists f'. unfold abs_map. rewrite Ea. auto.
Qed.

(** One command after the other. *)
Definition abs_seq {B B'} (abs : aview D -> (Z + B) * aview D) (abs' : B -> aview D -> (Z + B') * aview D) (a : aview D) : (Z + B') * aview D :=
  match abs a with (inl rc, a') => (inl rc, a') | (inr b, a') => abs' b a' end.

(** The description looks at what does not change in a context. *)
Definition ctx_free {B} (abs : sbefifo_context -> aview D -> (Z + B) * aview D) : Prop :=
  forall c c' a, same_ctx c c' -> abs c' a = abs c a.

Lemma same_ctx_trans c1 c2 c3 : same_ctx c1 c2 -> same_ctx c2 c3 -> same_ctx c1 c3.
Proof. unfold same_ctx. intuition congruence. Qed.

Lemma does_seq {A B} sf (pre : state -> sbefifo_context -> heap -> Prop) (op : m A) (k : A -> m B)
    (abs : sbefifo_context -> aview D -> (Z + A) * aview D) (abs' : A -> sbefifo_context -> aview D -> (Z + B) * aview D) :
  (forall s c h0 c' d tr, same_ctx c c' -> pre s c h0 -> pre (moved s sf c' d tr) c' h0) ->
  does_on sf pre same op abs -> (forall a, does_on sf pre same (k a) (abs' a)) -> (forall a, ctx_free (abs' a)) ->
  does_on sf pre same (op ≫= k) (fun c => abs_seq (abs c) (fun a => abs' a c)).
Proof.
  intros Hst H Hk Hfree h h0 n s c Hok Hc Ho Hs. apply wp_bind. eapply wp_mono; [by apply (H h h0)|].
  intros r w (h' & n' & c' & d' & tr' & ares & -> & Hok' & Hsc & Hr & Ha). destruct r as [rc|a], ares as [rc'|b]; try done.
  - exists h', n', c', d', tr', (inl rc'). refine (conj eq_refl (conj Hok' (conj Hsc (conj Hr _)))).
    destruct Ha as [?|Ha]; [by left|right]. intros f Hf. destruct (Ha f Hf) as (f' & ? & Ea). exists f'. unfold abs_seq. by rewrite Ea.
  - destruct Hr as (h1 & [<- ->] & Ho'). eapply wp_mono; [apply (Hk a h' h0); [done|apply moved_ctx|done|by apply (Hst s c)]|].
    intros r w (h2 & n2 & c2 & d2 & tr2 & ares & -> & Hok2 & Hsc2 & Hr & Ha'). exists h2, n2, c2, d2, tr2, ares.
    split; [by rewrite moved_moved|]. refine (conj Hok2 (conj (same_ctx_trans _ _ _ Hsc Hsc2) (conj Hr _))).
    destruct Ha as [?|Ha]; [by left|]. destruct Ha' as [?|Ha']; [by left|right].
    intros f Hf. destruct (Ha f Hf) as (f' & Hf' & Ea). destruct (Ha' f' Hf') as (f2 & Hf2 & Ea2). exists f2. split; [done|].
    unfold abs_seq. rewrite Ea. by rewrite (Hfree a c c') in Ea2.
Qed.

(** A command whose failure the caller goes on from, with [v]. *)
Definition abs_try {B B'} (abs : aview D -> (Z + B) * aview D) (v : Z -> B') (abs' : B -> aview D -> (Z + B') * aview D) (a : aview D) : (Z + B') * aview D :=
  match abs a with (inl rc, a') => (inr (v rc), a') | (inr b, a') => abs' b a' end.

Lemma does_try {A B} sf (pre : state -> sbefifo_context -> heap -> Prop) (fin : B -> B -> heap -> heap -> Prop) (op : m A) (k : Z + A -> m B) (v : Z -> B)
    (abs : sbefifo_context -> aview D -> (Z + A) * aview D) (abs' : A -> sbefifo_context -> aview D -> (Z + B) * aview D) :
  (forall s c h0 c' d tr, same_ctx c c' -> pre s c h0 -> pre (moved s sf c' d tr) c' h0) ->
  does_on sf pre same op abs -> (forall rc, k (inl rc) = mret (v rc)) -> (forall rc c1 h0 hf, after_rc rc c1 h0 hf -> fin (v rc) (v rc) h0 hf) ->
  (forall a, does_on sf pre fin (k (inr a)) (abs' a)) -> (forall a, ctx_free (abs' a)) ->
  does_on sf pre fin (attempt op ≫= k) (fun c => abs_try (abs c) v (fun a => abs' a c)).
Proof.
  intros Hst H Hkl Hfin Hk Hfree h h0 n s c Hok Hc Ho Hs. apply wp_bind, wp_attempt. eapply wp_mono; [by apply (H h h0)|].
  intros r w (h' & n' & c' & d' & tr' & ares & -> & Hok' & Hsc & Hr & Ha). destruct r as [rc|a], ares as [rc'|b]; try done.
  - destruct Hr as (<- & _ & c1 & hf & Hown & Hrc). rewrite Hkl. apply wp_ret. exists h', n', c', d', tr', (inr (v rc)).
    refine (conj eq_refl (conj Hok' (conj Hsc (conj _ _)))); [exists hf; split; [by eapply Hfin|done]|].
    destruct Ha as [?|Ha]; [by left|right]. intros f Hf. destruct (Ha f Hf) as (f' & ? & Ea). exists f'. unfold abs_try. by rewrite Ea.
  - destruct Hr as (h1 & [<- ->] & Ho'). eapply wp_mono; [apply (Hk a h' h0); [done|apply moved_ctx|done|by apply (Hst s c)]|].
    intros r w (h2 & n2 & c2 & d2 & tr2 & ares & -> & Hok2 & Hsc2 & Hr & Ha'). exists h2, n2, c2, d2, tr2, ares.
    split; [by rewrite moved_moved|]. refine (conj Hok2 (conj (same_ctx_trans _ _ _ Hsc Hsc2) (conj Hr _))).
    destruct Ha as [?|Ha]; [by left|]. destruct Ha' as [?|Ha']; [by left|right].
    intros f Hf. destruct (Ha f Hf) as (f' & Hf' & Ea). destruct (Ha' f' Hf') as (f2 & Hf2 & Ea2). exists f2. split; [done|].
    unfold abs_try. rewrite Ea. by rewrite (Hfree a c c') in Ea2.
Qed.

Lemma does_ext {A B} sf pre fin (op op' : m A) (abs : sbefifo_context -> aview D -> (Z + B) * aview D) :
  (forall w, op w = op' w) -> does_on sf pre fin op' abs -> does_on sf pre fin op abs.
Proof. intros Hw H h h0 n s c Hok Hc Ho Hs. unfold wp. rewrite Hw. by apply H. Qed.

Lemma does_abs {A B} sf pre fin (op : m A) (abs abs' : sbefifo_context -> aview D -> (Z + B) * aview D) :
  (forall c a, abs c a = abs' c a) -> does_on sf pre fin op abs -> does_on sf pre fin op abs'.
Proof.
  intros He H h h0 n s c Hok Hc Ho Hs. eapply wp_mono; [by apply (H h h0)|].
  intros r w (h' & n' & c' & d' & tr' & ares & -> & Hok' & Hsc & Hr & Ha). exists h', n', c', d', tr', ares.
  refine (conj eq_refl (conj Hok' (conj Hsc (conj Hr _)))). by setoid_rewrite <- He.
Qed.

Lemma abs_reg_free {B} req cmd hint (dec : list Z -> Z + B) : ctx_free (fun c => abs_reg (D := D) c req cmd hint dec).
Proof.
  intros c c' a Hs. unfold abs_reg. rewrite (abs_ioctl_same c c') by done. destruct (abs_ioctl c 30 a) as [rc a1].
  destruct (truthy rc); [done|]. assert (abs_operation c' a1 req cmd hint = abs_operation c a1 req cmd hint) as ->.
  { destruct Hs as (Hf & Hp & Ht). unfold abs_operation, abs_transport. by rewrite Hf, Ht. }
  destruct (abs_operation c a1 req cmd hint) as [[|data] a2]; [done|]. by rewrite (abs_ioctl_same c c').
Qed.
End Lift.

(** ** libpdbg: which SBE belongs to a target

    The searches in the tree that lead from a PIB or a thread to its SBE and to the number the
    SBE knows the core by, and the values that come in a block of memory. *)

Section Place.
Context {D E : Type} (T : dtree) (fuel : nat).
Abbreviation state := (tgt (chips (sbes D E))).
Abbreviation m := (M state).

(** ** The first target of a class *)

Section Find.
Context (klass : string) (line : nat -> list nat) (cs : list nat) (Hcs : target_classes T klass = Some cs).
Context (Hnd : NoDup cs) (Hl : lined T fuel line cs) (f : nat -> m bool) (p : nat -> bool).
Context (Hf : forall t w, t ∈ cs -> f t w = (Ret (p t), w)).

Lemma below_none (ts : list nat) : filter (under line None) ts = ts.
Proof. induction ts as [|t ts IH]; [done|]. rewrite filter_cons_True by done. by f_equal. Qed.

Lemma find_target_ok k pre suf w : cs = pre ++ suf -> (length suf < k)%nat ->
  find_target T fuel k klass (head suf) f w = (Ret (snd <$> list_find (fun t => p t = true) suf), w).
Proof.
  revert pre suf. induction k as [|k IH]; intros pre suf Ec Hk; [lia|]. destruct suf as [|t suf]; [done|].
  cbn [head find_target list_find]. cbn [length] in Hk. unfold mbind, M_bind.
  rewrite Hf by (rewrite Ec; apply elem_of_app; right; left).
  destruct (p t) eqn:Ep; [by rewrite decide_True|]. rewrite decide_False by done.
  rewrite (next_target_ok T fuel line klass None cs Hcs Hnd Hl pre t suf w Ec), below_none.
  rewrite (IH (pre ++ [t]) suf) by (rewrite <- ?app_assoc; done || lia). by destruct (list_find _ suf) as [[]|].
Qed.

Lemma find_class_ok w : (length cs < fuel)%nat ->
  find_class_target T fuel klass f w = (Ret (snd <$> list_find (fun t => p t = true) cs), w).
Proof.
  intros Hk. unfold find_class_target, mbind, M_bind. rewrite (first_target_ok T fuel line klass None cs) by done.
  unfold targets. rewrite Hcs, below_none. by apply (find_target_ok fuel []).
Qed.
End Find.

(** [sf] is the first SBE with the index of [pib]; where a target has no index, that of its
    nearest ancestor with one counts. *)
Inductive sbe_of (pib sf : nat) : Prop :=
| sbe_of_intro lp line cs :
    ancestry T true pib lp -> (length lp < fuel)%nat ->
    target_classes T "sbefifo" = Some cs -> NoDup cs -> lined T fuel line cs -> (length cs < fuel)%nat ->
    snd <$> list_find (fun s => first_index T (line s) = first_index T lp) cs = Some sf -> sbe_of pib sf.

Lemma list_find_ext_dec {A} (P Q : A -> Prop) `{forall x, Decision (P x), forall x, Decision (Q x)} (l : list A) :
  (forall x, P x <-> Q x) -> list_find P l = list_find Q l.
Proof.
  intros HPQ. induction l as [|x l IH]; [done|]. cbn. rewrite IH.
  destruct (decide (P x)), (decide (Q x)); [done|by destruct (HPQ x); exfalso; auto..|done].
Qed.

Lemma pib_to_sbefifo_ok pib sf (w : world state) : sbe_of pib sf -> pib_to_sbefifo T fuel pib w = (Ret sf, w).
Proof.
  intros [lp line cs Ha Hlp Hcs Hnd Hl Hk Hf]. unfold pib_to_sbefifo, mbind at 1, M_bind at 1.
  rewrite (find_class_ok "sbefifo" line cs Hcs Hnd Hl _ (fun s => first_index T (line s) =? first_index T lp)); [|intros t w' Ht|done].
  - erewrite list_find_ext_dec; [by rewrite Hf|]. intros s. apply Z.eqb_eq.
  - unfold lined in Hl. rewrite Forall_forall in Hl. destruct (Hl t Ht) as [Hat Hlt].
    unfold same_index, mbind, M_bind. by rewrite (index_ok T fuel t (line t)), (index_ok T fuel pib lp).
Qed.

(** The class of the target whose index is the number of the core for the SBE *)
Definition core_class (proc : Z) : string := if proc =? SBEFIFO_PROC_P9 then "chiplet"%string else "core"%string.

(** The thread [t] is below the PIB of the SBE [sf], which knows its core as [core_id]. *)
Inductive placed (proc : Z) (t sf : nat) (core_id : Z) : Prop :=
| placed_intro l pib p lp :
    ancestry T true t (t :: l) -> (length l < fuel)%nat -> nearest T "pib" l = Some pib -> sbe_of pib sf ->
    nearest T (core_class proc) l = Some p -> ancestry T true p lp -> (length lp < fuel)%nat ->
    core_id = Z.land (first_index T lp) 0xff -> placed proc t sf core_id.

Lemma require_ok klass t l p (w : world state) : ancestry T true t (t :: l) -> (length l < fuel)%nat -> nearest T klass l = Some p ->
  require_target_parent T fuel (Some klass) t true w = (Ret p, w).
Proof. intros Ha Hl Hn. unfold require_target_parent, mbind, M_bind. rewrite (target_parent_ok T fuel klass t l) by done. by rewrite Hn. Qed.

Lemma thread_sbefifo_ok proc t sf core_id (w : world state) : placed proc t sf core_id -> thread_sbefifo T fuel t w = (Ret sf, w).
Proof.
  intros [l pib p lp Ha Hl Hn Hs _ _ _ _]. unfold thread_sbefifo, mbind, M_bind. rewrite (require_ok "pib" t l pib) by done.
  by apply pib_to_sbefifo_ok.
Qed.

Context {K : Kernel D} {Al : Allocator}.

Lemma core_id_ok t sf core_id h n (s : state) c : placed (proc c) t sf core_id -> sf_ctx (sbe_part s) !! sf = Some c ->
  sbefifo_core_id T fuel sf t (World h n s) = (Ret core_id, World h n s).
Proof.
  intros [l pib p lp Ha Hl _ _ Hn Hp Hlp ->] Hc. unfold sbefifo_core_id, mbind, M_bind. rewrite (on_sbe_proc sf h n s c Hc).
  fold (core_class (proc c)). rewrite (require_ok (core_class (proc c)) t l p) by done. by rewrite (index_ok T fuel p lp).
Qed.

Lemma parent_sbefifo_ok t sf (w : world state) : parent (node T t) = Some sf -> parent_sbefifo T t w = (Ret sf, w).
Proof. unfold parent_sbefifo. by intros ->. Qed.
End Place.

(** ** Values in a block *)

Section Values.
Context {D E : Type} {Al : Allocator}.
Abbreviation state := (tgt (chips (sbes D E))).
Abbreviation m := (M state).

Lemma slice_le64s vals i v : vals !! i = Some v -> slice (8 * i) 8 (le64s vals) = rev (be_bytes 8 v).
Proof.
  intros Hi. unfold le64s. rewrite <- (app_nil_r (concat _)).
  rewrite (slice_concat 8 8 _ [] i (rev (be_bytes 8 v))); [|by apply Forall_fmap, Forall_true|
    by rewrite list_lookup_fmap, Hi|lia].
  by apply take_ge.
Qed.

Lemma wp_load_u64 b i vals v h n (s : state) Q : h !! b = Some (Some <$> le64s vals) -> vals !! i = Some v ->
  Q (inr (u64 v)) (World h n s) -> wp (load_u64 (Ptr b 0) i) (World h n s) Q.
Proof.
  intros Hb Hi HQ. assert (i < length vals)%nat as Hlt by (by eapply lookup_lt_Some).
  unfold load_u64. apply wp_bind. eapply (wp_load_bytes b); [done|lia|lia| |].
  { rewrite length_fmap, length_le64s. lia. }
  replace (Z.to_nat (0 + 8 * Z.of_nat i)) with (8 * i)%nat by lia. change (Z.to_nat 8) with 8%nat.
  rewrite slice_map, (slice_le64s vals i v Hi). apply wp_bind. unfold defined. rewrite mapM_id_Some. apply wp_ret, wp_ret.
  rewrite rev_involutive, be_val_be_bytes. exact HQ.
Qed.
End Values.
