(* ===== verification/SbeBackOps.v ===== *)
(** * libpdbg: the operations on threads and memory through the SBE

    Each operation is a command on the SBE the target belongs to, or two. *)

From S2P Require Import Prelude CMem SbeCore SbeCoreFacts SbeCmds SbeDataCmds SbeCmdFacts SbeSpec SbeDataSpec.
From S2P Require Import SbeMemory Target TargetFacts TargetRelease Pib Adu Ram Thread Chip SbeBack SbeBackFacts.
From S2P Require Import ChipFacts.

(** ** libpdbg: registers that come through the SBE

    The commands of libsbefifo that access registers and threads, and the values that come in a
    block of memory. *)

(** ** The commands *)

Section Commands.
Context {D : Type} {K : Kernel D} {DO : DataOk} {KO : KernelOk D} {Al : Allocator}.

Lemma reg_vals_ok k data vals : data_wf data -> dec_regs k data = inr vals -> length vals = k /\ Forall (in_range 64) vals.
Proof.
  intros [Hb _]. unfold dec_regs. destruct (Z.eqb_spec (Z.of_nat (length data)) (Z.of_nat k * 8)) as [Hl|]; [|done].
  intros [= <-]. unfold reg_vals. rewrite length_fmap, length_seq. split; [done|].
  apply Forall_forall. intros v (i & -> & Hi%elem_of_seq)%list_elem_of_fmap.
  assert (length (slice (8 * i) 8 data) = 8%nat) as E by (apply length_slice; lia).
  pose proof (be_val_range (slice (8 * i) 8 data) (Forall_slice _ _ _ _ Hb)) as H. rewrite E in H. exact H.
Qed.

(** The request that reads the registers [ids] of a thread *)
Definition regs_req (core thread type : Z) (ids : list Z) : list mval :=
  msg_bytes ([3 + Z.of_nat (length ids); 0xA501; register_word core thread type (Z.of_nat (length ids))] ++ ids).

Definition abs_regs (core thread type : Z) (ids : list Z) (c : sbefifo_context) : aview D -> (Z + list Z) * aview D :=
  abs_reg c (regs_req core thread type ids) 0xA501 (Z.of_nat (length ids) * 8) (dec_regs (length ids)).

Definition rep_vals (k : nat) (p : ptr) (vals : list Z) (x : heap) : Prop :=
  rep_regs p vals x /\ length vals = k /\ Forall (in_range 64) vals.

Context (Htw : timeout_works (D := D)).

Lemma register_get_refines core thread type (ids : list Z) k : (1 <= length ids <= 64)%nat -> k = Z.of_nat (length ids) ->
  refines (D := D) (rep_vals (length ids)) (sbefifo_register_get core thread type ids k) (abs_regs core thread type ids).
Proof.
  intros Hn ->. eapply (reg_req_refines _ _ _ _ _ _ (register_get_push_ok core thread type ids Hn));
    [|by apply slice_cmd|done|apply pulls_when; [apply reg_vals_ok|apply pulls_register_get]|done|solve_hint].
  unfold regs_req. rewrite length_msg_bytes. simpl. lia.
Qed.

Definition abs_put_reg (core thread type id value : Z) (c : sbefifo_context) : aview D -> (Z + unit) * aview D :=
  abs_reg c (msg_bytes ([6; 0xA502; register_word core thread type 1] ++ reg_entries [id] [value])) 0xA502 0 dec_unit.

Lemma register_put_refines core thread type id value :
  refines (D := D) rep_pure (sbefifo_register_put core thread type [id] 1 [value]) (abs_put_reg core thread type id value).
Proof.
  eapply (reg_req_refines _ _ _ _ _ _ (register_put_push_ok core thread type [id] [value] ltac:(cbn; lia) eq_refl));
    [|by apply slice_cmd|done|apply pulls_check|done|solve_hint].
  rewrite length_msg_bytes. simpl. lia.
Qed.

Definition abs_scom_get (addr : Z) (c : sbefifo_context) : aview D -> (Z + Z) * aview D :=
  abs_short c (msg_bytes ([4; 0xA201] ++ u64_words addr)) 0xA201 8 (dec_len 8 be_val).
Definition abs_scom_put (addr value : Z) (c : sbefifo_context) : aview D -> (Z + unit) * aview D :=
  abs_short c (msg_bytes ([6; 0xA202] ++ u64_words addr ++ u64_words value)) 0xA202 0 dec_unit.
Definition abs_control (core thread op mode : Z) (c : sbefifo_context) : aview D -> (Z + unit) * aview D :=
  abs_short c (msg_bytes [3; 0xA701; insn_word core thread op mode]) 0xA701 0 dec_unit.

Lemma scom_get_refines addr : refines (D := D) rep_pure (sbefifo_scom_get addr) (abs_scom_get addr).
Proof. refine_cmd short_refines scom_get_push_ok pulls_u64. Qed.
Lemma scom_put_refines addr value : refines (D := D) rep_pure (sbefifo_scom_put addr value) (abs_scom_put addr value).
Proof. refine_cmd short_refines scom_put_push_ok pulls_check. Qed.
Lemma control_refines core thread op mode :
  refines (D := D) rep_pure (sbefifo_control_insn core thread op mode) (abs_control core thread op mode).
Proof. refine_cmd short_refines control_insn_push_ok pulls_check. Qed.
End Commands.

(** ** Values out of memory *)

Section Take.
Context {D E : Type} {Al : Allocator}.
Abbreviation state := (tgt (chips (sbes D E))).
Abbreviation m := (M state).

(** [read] looks at the values in the block; then the block is given back. *)
Lemma takes_values {A} pre k (read : ptr -> m A) (g : list Z -> A) :
  (forall b vals h n s, h !! b = Some (Some <$> le64s vals) -> length vals = k -> Forall (in_range 64) vals ->
     read (Ptr b 0) (World h n s) = (Ret (g vals), World h n s)) ->
  takes (D := D) (E := E) pre (extra (rep_vals k)) same (fun v => x ← read v; free v;; mret x) g.
Proof.
  intros Hr a vals h0 h1 c h n s s0 c0 _ (x & ((b & -> & ->) & Hk & Hf) & Hx & ->) Ho Hok.
  apply map_disjoint_singleton_l in Hx. rewrite <- insert_union_singleton_l in Ho.
  destruct (own_drop_view _ _ _ _ _ Ho Hx) as (Hb & Ho' & Hv).
  apply wp_bind. unfold wp at 1. rewrite (Hr b vals) by done. apply wp_bind.
  eapply wp_free; [done|]. apply wp_ret. exists (g vals), (delete b h), h0. split_and!; try done. by apply heap_ok_delete.
Qed.

Lemma load_u64_ok b i vals v h n (s : state) : h !! b = Some (Some <$> le64s vals) -> Forall (in_range 64) vals -> vals !! i = Some v ->
  load_u64 (Ptr b 0) i (World h n s) = (Ret v, World h n s).
Proof.
  intros Hb Hf Hi. assert (wp (load_u64 (Ptr b 0) i) (World h n s) (fun r w => r = inr v /\ w = World h n s)) as H.
  { eapply wp_load_u64; [done|done|]. rewrite Forall_forall in Hf. by rewrite wrap_small by (apply Hf; by eapply list_elem_of_lookup_2). }
  unfold wp in H. destruct (load_u64 _ _ _) as [[] ?]; destruct H; by simplify_eq.
Qed.

(** [regs] with the members [l] assigned in order *)
Definition store_all (l : list ((string * nat) * Z)) (regs : gmap (string * nat) Z) : gmap (string * nat) Z :=
  foldl (fun regs kv => <[kv.1 := kv.2]> regs) regs l.

Lemma lookup_store_other l k regs : k ∉ l.*1 -> store_all l regs !! k = regs !! k.
Proof.
  revert regs. induction l as [|[k' v] l IH]; intros regs Hk; [done|]. cbn in *. apply not_elem_of_cons in Hk as [Hne Hk].
  unfold store_all in *. cbn. rewrite IH by done. by rewrite lookup_insert_ne.
Qed.

Lemma lookup_store_all l i k v regs : NoDup l.*1 -> l !! i = Some (k, v) -> store_all l regs !! k = Some v.
Proof.
  revert i regs. induction l as [|[k' v'] l IH]; intros i regs Hn Hi; [done|].
  cbn in Hn. apply NoDup_cons in Hn as [Hk Hn]. unfold store_all. cbn. destruct i as [|i]; cbn in Hi.
  - simplify_eq. change (store_all l (<[k:=v]> regs) !! k = Some v). rewrite lookup_store_other by done. apply lookup_insert_eq.
  - by apply (IH i).
Qed.

Definition gpr_members (i : nat) (vals : list Z) : list ((string * nat) * Z) :=
  imap (fun j v => (("gprs"%string, (i + j)%nat), v)) vals.

Definition narrow (name : string) (v : Z) : Z := if bool_decide (name ∈ regs_32) then Z.land v 0xffffffff else v.
Definition spr_members (l : list (string * Z)) (vals : list Z) : list ((string * nat) * Z) :=
  zip_with (fun nr v => ((nr.1, O), narrow nr.1 v)) l vals.

Lemma load_gprs_ok b vals i h n (s : state) regs : h !! b = Some (Some <$> le64s vals) -> Forall (in_range 64) vals -> (i <= length vals)%nat ->
  load_gprs (length vals - i) i (Ptr b 0) regs (World h n s) = (Ret (store_all (gpr_members i (drop i vals)) regs), World h n s).
Proof.
  intros Hb Hf. remember (length vals - i)%nat as k eqn:Ek. revert i Ek regs. induction k as [|k IH]; intros i Ek regs Hi.
  - by rewrite drop_ge by lia.
  - destruct (lookup_lt_is_Some_2 vals i) as [v Hv]; [lia|]. rewrite (drop_S vals v i Hv).
    cbn [load_gprs]. unfold mbind, M_bind. rewrite (load_u64_ok b i vals v) by done. rewrite IH by lia. unfold gpr_members, store_all. cbn.
    rewrite Nat.add_0_r. do 3 f_equal. apply imap_ext. intros j x _. cbn. by rewrite Nat.add_succ_r.
Qed.

Lemma load_sprs_ok b vals i l h n (s : state) regs : h !! b = Some (Some <$> le64s vals) -> Forall (in_range 64) vals ->
  (length l + i = length vals)%nat ->
  load_sprs l i (Ptr b 0) regs (World h n s) = (Ret (store_all (spr_members l (drop i vals)) regs), World h n s).
Proof.
  intros Hb Hf. revert i regs. induction l as [|[name r] l IH]; intros i regs Hi; [done|]. cbn [length] in Hi.
  destruct (lookup_lt_is_Some_2 vals i) as [v Hv]; [lia|]. rewrite (drop_S vals v i Hv).
  cbn [load_sprs]. unfold mbind, M_bind. rewrite (load_u64_ok b i vals v) by done. by rewrite IH by lia.
Qed.
End Take.

Section Thread.
Context {D E : Type} {K : Kernel D} {DO : DataOk} {KO : KernelOk D} {Al : Allocator} (Htw : timeout_works (D := D)).
Context (T : dtree) (fuel : nat).
Abbreviation state := (tgt (chips (sbes D E))).

(** The number of the thread and the processor *)
Definition on_thread (t : nat) (i p : Z) (s : state) (c : sbefifo_context) (h0 : heap) : Prop :=
  id (thread_of (t_dev s) t) = i /\ proc c = p.

Context (p : Z) (t sf : nat) (core i : Z) (Hpl : placed T fuel p t sf core).

Lemma on_thread_stable s c h0 c' d tr : same_ctx c c' -> on_thread t i p s c h0 -> on_thread t i p (moved s sf c' d tr) c' h0.
Proof. intros (_ & Hp & _) [Hi <-]. split; [exact Hi|exact Hp]. Qed.

(** The searches that every operation on a thread starts with *)
Lemma after_sbefifo {A B} fin (k : nat -> M state A) (abs : sbefifo_context -> aview D -> (Z + B) * aview D) :
  does_on sf (on_thread t i p) fin (k sf) abs -> does_on sf (on_thread t i p) fin (thread_sbefifo T fuel t ≫= k) abs.
Proof. apply does_after. intros h n s c h0 _ _. by eapply thread_sbefifo_ok. Qed.

Lemma after_core_id {A B} fin (k : Z -> M state A) (abs : sbefifo_context -> aview D -> (Z + B) * aview D) :
  does_on sf (on_thread t i p) fin (k core) abs -> does_on sf (on_thread t i p) fin (sbefifo_core_id T fuel sf t ≫= k) abs.
Proof. apply does_after. intros h n s c h0 Hc [_ Hp]. eapply core_id_ok; [by rewrite Hp|done]. Qed.

Lemma after_proc {A B} fin (k : Z -> M state A) (abs : sbefifo_context -> aview D -> (Z + B) * aview D) :
  does_on sf (on_thread t i p) fin (k p) abs -> does_on sf (on_thread t i p) fin (on_sbe sf sbefifo_proc ≫= k) abs.
Proof. apply does_after. intros h n s c h0 Hc [_ <-]. by apply on_sbe_proc. Qed.

Lemma after_thread {A B} fin (k : thread_vars -> M state A) (abs : sbefifo_context -> aview D -> (Z + B) * aview D) :
  (forall v, id v = i -> does_on sf (on_thread t i p) fin (k v) abs) -> does_on sf (on_thread t i p) fin (get_thread t ≫= k) abs.
Proof. intros H h h0 n s c Hok Hc Ho Hs. apply wp_bind, wp_bind, wp_get_st, wp_ret. by apply (H _ (proj1 Hs) h h0). Qed.

Lemma thread_op_does oper : 0 <= oper < 256 ->
  does_on sf (on_thread t i p) same (sbefifo_thread_op T fuel t oper) (abs_control core (u8 i) oper (op_mode p oper)).
Proof.
  intros Ho. apply after_sbefifo, after_proc, after_core_id, after_thread. intros v ->. rewrite (wrap_small 8 oper) by done.
  eapply does_on_pre; [|apply on_sbe_pure, control_refines]. done.
Qed.

(** Reading registers into memory and taking them out of it *)
Lemma get_values_does {A} core' thread type ids k (read : ptr -> M state A) (g : list Z -> A) :
  (1 <= length ids <= 64)%nat -> k = Z.of_nat (length ids) ->
  (forall b vals h n s, h !! b = Some (Some <$> le64s vals) -> length vals = length ids -> Forall (in_range 64) vals ->
     read (Ptr b 0) (World h n s) = (Ret (g vals), World h n s)) ->
  does_on sf (on_thread t i p) same
    (v ← on_sbe sf (sbefifo_register_get core' thread type ids k); x ← read v; free v;; mret x)
    (fun c => abs_map g (abs_regs core' thread type ids c)).
Proof.
  intros Hn Hk Hr. eapply does_then; [|by apply (takes_values _ (length ids))].
  eapply does_on_pre; [|apply on_sbe_does, register_get_refines; done]. done.
Qed.

Lemma get_reg_does type r :
  does_on sf (on_thread t i p) same (sbefifo_thread_get_reg T fuel t type r)
    (fun c => abs_map (fun vals => default 0 (head vals)) (abs_regs core (u8 i) type [r] c)).
Proof.
  apply after_sbefifo, after_core_id, after_thread. intros v ->.
  apply (get_values_does core (u8 i) type [r] 1 (fun v => load_u64 v 0)); [cbn; lia|done|].
  intros b vals h n s Hb Hl Hf. destruct vals as [|x [|]]; try done. by apply (load_u64_ok b 0 [x]).
Qed.

Lemma put_reg_does type r value :
  does_on sf (on_thread t i p) same (sbefifo_thread_put_reg T fuel t type r value) (abs_put_reg core (u8 i) type r value).
Proof.
  apply after_sbefifo, after_core_id, after_thread. intros v ->.
  eapply does_on_pre; [|by apply on_sbe_pure, register_put_refines]. done.
Qed.

(** The structure after the answer of the first command, and of the second *)
Definition with_gprs (gprs : list Z) (regs : gmap (string * nat) Z) : gmap (string * nat) Z := store_all (gpr_members 0 gprs) regs.
Definition snapshot (regs : gmap (string * nat) Z) (gprs sprs : list Z) : gmap (string * nat) Z :=
  store_all (spr_members regs_sprs sprs) (with_gprs gprs regs).

(** The structure as it is left and the return code: a command that fails leaves what was stored before. *)
Definition abs_getregs (core thread : Z) (regs : gmap (string * nat) Z) (c : sbefifo_context) : aview D -> (Z + (gmap (string * nat) Z * (Z + unit))) * aview D :=
  abs_try (abs_map (fun gprs => with_gprs gprs regs) (abs_regs core thread SBEFIFO_REGISTER_TYPE_GPR (Z.of_nat <$> seq 0 32) c)) (fun rc => (regs, inl rc))
    (fun regs => abs_try (abs_map (fun sprs => store_all (spr_members regs_sprs sprs) regs)
                   (abs_regs core thread SBEFIFO_REGISTER_TYPE_SPR (snd <$> regs_sprs) c)) (fun rc => (regs, inl rc)) (fun regs a => (inr (regs, inr tt), a))).
(** The result is a value; a failure inside, a timeout, can leave FFDC of the context behind. *)
Definition kept {A} (a b : A * (Z + unit)) (h0 h1 : heap) : Prop :=
  a = b /\ match a.2 with inl rc => exists c1, after_rc rc c1 h0 h1 | inr _ => h1 = h0 end.

Lemma load_gprs_all b vals regs h n (s : state) : h !! b = Some (Some <$> le64s vals) -> length vals = 32%nat -> Forall (in_range 64) vals ->
  load_gprs 32 0 (Ptr b 0) regs (World h n s) = (Ret (with_gprs vals regs), World h n s).
Proof. intros Hb Hl Hf. pose proof (load_gprs_ok b vals 0 h n s regs Hb Hf ltac:(lia)) as H. by rewrite Hl in H. Qed.

(** Taking values out of memory does not fail. *)
Lemma load_u64_returns value j (w : world state) rc w' : load_u64 value j w <> (Fail rc, w').
Proof.
  unfold load_u64, load_bytes, defined, crash, mret, M_ret, mbind, M_bind. destruct (ptr_add _ _) as [|blk off]; [done|].
  destruct (w_heap w !! blk); [|done]. destruct (_ && _); [|done]. by destruct (mapM _ _).
Qed.
Lemma load_gprs_returns k j value regs (w : world state) rc w' : load_gprs k j value regs w <> (Fail rc, w').
Proof.
  revert j regs w. induction k as [|k IH]; intros j regs w; [done|]. cbn [load_gprs]. unfold mbind, M_bind.
  pose proof (load_u64_returns value j w) as H. destruct (load_u64 value j w) as [[] ?]; [apply IH|by edestruct H|done].
Qed.
Lemma load_sprs_returns l j value regs (w : world state) rc w' : load_sprs l j value regs w <> (Fail rc, w').
Proof.
  revert j regs w. induction l as [|[name r] l IH]; intros j regs w; [done|]. cbn [load_sprs]. unfold mbind, M_bind.
  pose proof (load_u64_returns value j w) as H. destruct (load_u64 value j w) as [[] ?]; [apply IH|by edestruct H|done].
Qed.
Lemma free_returns p' (w : world state) rc w' : free p' w <> (Fail rc, w').
Proof. unfold free. destruct p'; [done|]. by destruct (_ && _). Qed.

(** Going on after a failure of the command is going on after a failure of the command with the values taken out. *)
Lemma attempt_values {A B} (op : M state ptr) (read : ptr -> M state A) (k : A -> M state B) (v : Z -> M state B) w : (forall p' w rc w', read p' w <> (Fail rc, w')) ->
  (r ← attempt op; match r with inl rc => v rc | inr value => x ← read value; free value;; k x end) w =
  (r ← attempt (value ← op; x ← read value; free value;; mret x); match r with inl rc => v rc | inr x => k x end) w.
Proof.
  intros Hr. unfold attempt, mbind, M_bind. destruct (op w) as [[p'|rc|f] w1]; [|done..].
  pose proof (Hr p' w1) as H. destruct (read p' w1) as [[x|rc|f] w2]; [|by edestruct H|done].
  pose proof (free_returns p' w2) as Hf. by destruct (free p' w2) as [[u|rc|f] w3]; [|edestruct Hf|].
Qed.

Lemma getregs_does regs :
  does_on sf (on_thread t i p) kept (sbefifo_thread_getregs T fuel t regs) (abs_getregs core (u8 i) regs).
Proof.
  apply after_sbefifo, after_core_id, after_thread. intros v ->.
  assert (forall rc c1 h0 hf (regs : gmap (string * nat) Z), after_rc rc c1 h0 hf -> kept (regs, inl rc) (regs, inl rc) h0 hf) as Hkept by (intros rc c1 h0 hf r Ha; split; [done|]; by exists c1).
  eapply (does_ext _ _ _ _ _ _ (fun w => attempt_values _ (fun value => load_gprs 32 0 value regs) _ (fun rc => mret (regs, inl rc)) w (fun p' w rc w' => load_gprs_returns _ _ _ _ w rc w'))).
  apply (does_try _ _ kept _ _ (fun rc => (regs, inl rc))); [apply on_thread_stable| |done|by intros; eapply Hkept| |].
  - apply (get_values_does core (u8 i) _ (Z.of_nat <$> seq 0 32) 32 (fun v => load_gprs 32 0 v regs)); [cbn; lia|done|].
    intros b vals h n s Hb Hl. by apply load_gprs_all.
  - intros regs1.
    eapply (does_ext _ _ _ _ _ _ (fun w => attempt_values _ (fun value => load_sprs regs_sprs 0 value regs1) (fun regs => mret (regs, inr tt)) (fun rc => mret (regs1, inl rc)) w
      (fun p' w rc w' => load_sprs_returns _ _ _ _ w rc w'))).
    apply (does_try _ _ kept _ _ (fun rc => (regs1, inl rc)) _ (fun regs _ a => (inr (regs, inr tt), a))); [apply on_thread_stable| |done|by intros; eapply Hkept| |].
    + apply (get_values_does core (u8 i) _ (snd <$> regs_sprs) 34 (fun v => load_sprs regs_sprs 0 v regs1)); [cbn; lia|done|].
      intros b vals h n s Hb Hl Hf. rewrite <- (drop_0 vals). apply load_sprs_ok; [done|done|]. rewrite Hl. done.
    + intros regs2 h h0 n s c Hok Hc Ho Hs. apply wp_ret.
      exists h, n, c, (sb_dev (sbe_part s)), (sb_trace (sbe_part s)), (inr (regs2, inr tt)). rewrite moved_id by done.
      refine (conj eq_refl (conj Hok (conj (conj eq_refl (conj eq_refl eq_refl)) (conj _ _)))); [by exists h0|].
      right. intros f Hf. by exists f.
    + done.
  - intros regs1 c c' a Hs. unfold abs_try, abs_map, abs_regs. by rewrite (abs_reg_free _ _ _ _ c c' a Hs).
Qed.

(** What the snapshot holds *)
Lemma snapshot_gpr regs gprs sprs j v : gprs !! j = Some v -> snapshot regs gprs sprs !! ("gprs"%string, j) = Some v.
Proof.
  intros Hj. unfold snapshot, with_gprs. rewrite lookup_store_other.
  - apply (lookup_store_all _ j); [|by unfold gpr_members; rewrite list_lookup_imap, Hj].
    unfold gpr_members. apply NoDup_alt. intros a b x. rewrite !list_lookup_fmap, !list_lookup_imap.
    destruct (gprs !! a), (gprs !! b); cbn; try done. intros. by simplify_eq.
  - intros ([k x] & Hk & Hin)%list_elem_of_fmap. apply list_elem_of_lookup_1 in Hin as [a Ha].
    apply lookup_zip_with_Some in Ha as ([name r] & y & [= -> ->] & Hr & _). cbn in Hk. injection Hk as Hk _.
    assert (Forall (fun nr => nr.1 <> "gprs"%string) regs_sprs) as Hf by (repeat constructor; done).
    rewrite Forall_lookup in Hf. by apply (Hf a (name, r)).
Qed.

Lemma spr_keys sprs : length sprs = length regs_sprs -> (spr_members regs_sprs sprs).*1 = (fun nr => (nr.1, O)) <$> regs_sprs.
Proof.
  unfold spr_members. generalize regs_sprs as l. intros l. revert sprs.
  induction l as [|[n r] l IH]; intros [|x sprs] Hl; try done. cbn in *. f_equal. apply IH. lia.
Qed.

Lemma snapshot_spr regs gprs sprs j name r v : length sprs = length regs_sprs -> regs_sprs !! j = Some (name, r) -> sprs !! j = Some v ->
  snapshot regs gprs sprs !! (name, O) = Some (narrow name v).
Proof.
  intros Hl Hr Hv. apply (lookup_store_all _ j).
  - rewrite spr_keys by done. apply (bool_decide_unpack _). by vm_compute.
  - unfold spr_members. rewrite lookup_zip_with, Hr, Hv. done.
Qed.
End Thread.

(** ** Memory *)

Section Memory.
Context {D E : Type} {K : Kernel D} {DO : DataOk} {KO : KernelOk D} {Al : Allocator} (T : dtree).
Abbreviation state := (tgt (chips (sbes D E))).

(** The buffer of the caller, and what is in it at the end *)
Definition buffer (b : nat) (l : list mval) (s : state) (c : sbefifo_context) (h0 : heap) : Prop := h0 !! b = Some l.
Definition filled (b : nat) (o : Z) (l : list mval) (_ : unit) (bytes : list Z) (h0 h1 : heap) : Prop :=
  h1 = <[b := patch (Z.to_nat o) (Some <$> bytes) l]> h0.

Lemma own_replace c h h0 b l l' : own c h h0 -> h0 !! b = Some l ->
  own c (<[b := l']> h) (<[b := l']> h0) /\ forall f, ffdc_view c h f -> ffdc_view c (<[b := l']> h) f.
Proof.
  unfold own, ffdc_view. destruct (ffdc c) as [|bf o]; [intros -> _; by split|].
  intros (-> & Hbf & lf & ->) Hb. assert (b <> bf) by congruence. split.
  - split_and!; [done|by rewrite lookup_insert_ne|]. exists lf. by rewrite insert_insert_ne.
  - intros f [Hl Hf]. split; [done|]. by rewrite lookup_insert_ne.
Qed.

Lemma takes_bytes b o l size : 0 <= o -> 0 <= size -> o + size <= Z.of_nat (length l) ->
  takes (D := D) (E := E) (buffer b l) (extra (rep_mem size)) (filled b o l) (fun out => memcpy (Ptr b o) out size;; free out) (fun bytes => bytes).
Proof.
  intros Ho Hs Hr a bytes h0 h1 c h n s s0 c0 Hb (x & (b' & l' & -> & -> & Ht & Hk) & Hx & ->) Hown Hok. unfold buffer in Hb.
  apply map_disjoint_singleton_l in Hx. assert (b <> b') by congruence. rewrite <- insert_union_singleton_l in Hown.
  destruct (own_drop_view _ _ _ _ _ Hown Hx) as (Hl' & Hown' & Hv). pose proof (own_lookup _ _ _ _ _ Hown' Hb) as Hl.
  rewrite lookup_delete_ne in Hl by done.
  assert (Z.to_nat size <= length l')%nat as Hle by (apply (f_equal length) in Ht; rewrite length_take, length_fmap in Ht; lia).
  apply wp_bind. eapply wp_memcpy; [done|done|done|done|done|done|lia|].
  replace (slice (Z.to_nat 0) (Z.to_nat size) l') with (Some <$> bytes : list mval) by (unfold slice; by rewrite drop_0, Ht).
  eapply (wp_free b' l'); [by rewrite lookup_insert_ne|].
  destruct (own_replace c (delete b' h) h0 b l (patch (Z.to_nat o) (Some <$> bytes) l) Hown' Hb) as [Hown2 Hv2].
  eexists tt, _, _. rewrite delete_insert_ne by done. split_and!; [done|done| |done|done|auto].
  apply heap_ok_insert; [by apply heap_ok_delete|by eapply heap_ok_lt].
Qed.

Context (t sf : nat) (Hsf : parent (node T t) = Some sf).

Lemma after_parent {A B} pre fin (k : nat -> M state A) (abs : sbefifo_context -> aview D -> (Z + B) * aview D) :
  does_on sf pre fin (k sf) abs -> does_on sf pre fin (parent_sbefifo T t ≫= k) abs.
Proof. apply does_after. intros. by apply parent_sbefifo_ok. Qed.

Lemma low32 size : 0 <= size < 2 ^ 32 -> (0xffffffff <? size) = false /\ Z.land size 0xffffffff = size.
Proof. intros Hs. split; [lia|]. change 0xffffffff with (Z.ones 32). rewrite Z.land_ones by lia. by apply Z.mod_small. Qed.

Lemma getmem_does (m : Z -> Z) flag al addr size ci b o l :
  mem_align (op_flags flag ci) = Some al -> 0 <= addr -> 0 <= size < 2 ^ 31 -> addr + size + (al - 1) < 2 ^ 64 ->
  (forall data, data_ok data -> serves m (op_flags flag ci) (win_start al addr) (win_len al addr size) data) ->
  0 <= o -> o + size <= Z.of_nat (length l) ->
  does_on sf (buffer b l) (filled b o l) (getmem_flags T flag t addr (Ptr b o) size ci)
    (fun c => abs_long c 30 (mem_get_req al addr size (op_flags flag ci)) 0xA401
                (mem_get_hint (op_flags flag ci) al addr size) (fun _ => inr (region m addr size))).
Proof.
  intros Hal Ha Hs Htop Hsv Ho Hl. apply after_parent. destruct (low32 size ltac:(lia)) as [-> ->].
  eapply does_abs; [|eapply does_then; [|by apply takes_bytes; lia]; eapply does_on_pre; [|by apply on_sbe_does, mem_get_refines]; done].
  intros c a. unfold abs_map. by destruct (abs_long _ _ _ _ _ _ _) as [[] ?].
Qed.

Lemma putmem_does flag addr (data : list Z) ci : 0 <= addr -> Z.of_nat (length data) + 24 < 2 ^ 32 ->
  does_on (E := E) sf any same (putmem_flags T flag t addr (Some <$> data) (Z.of_nat (length data)) ci) (abs_mem_put addr (op_flags flag ci) data).
Proof.
  intros Ha Hl. apply after_parent. destruct (low32 (Z.of_nat (length data)) ltac:(lia)) as [-> ->]. by apply on_sbe_pure, mem_put_refines.
Qed.

(** A size that does not fit is refused before anything happens. *)
Lemma memory_size_refused flag addr p data size ci (w : world state) : 2 ^ 32 <= size ->
  getmem_flags T flag t addr p size ci w = (Fail EINVAL, w) /\ putmem_flags T flag t addr data size ci w = (Fail EINVAL, w).
Proof.
  intros Hs. unfold getmem_flags, putmem_flags, mbind, M_bind. rewrite (parent_sbefifo_ok T t sf w Hsf).
  by replace (0xffffffff <? size) with true by lia.
Qed.
End Memory.
