(* ===== verification/SbeBackTheorems.v ===== *)
(** * libpdbg: what an access through the SBE does

    Registers, threads and memory reached through the SBE of the processor they belong to. *)

From S2P Require Import Prelude CMem SbeCore SbeCoreFacts SbeCmds SbeDataCmds SbeCmdFacts SbeSpec SbeDataSpec.
From S2P Require Import SbeMemory SbeWitness Target TargetFacts TargetRelease Pib Adu Ram Thread Chip ChipFacts.
From S2P Require Import ChipCore SbeBack SbeBackFacts SbeBackOps ChipWitness.

(** ** Control of a thread *)

Section Control.
Context {D E : Type} {K : Kernel D} {DO : DataOk} {KO : KernelOk D} {Al : Allocator}.
Context {Sc : Scom (sbes D E)} {Hw : Hardware (chips (sbes D E))} {Ob : OnBus (sbes D E)} (T : dtree) (fuel : nat).
Abbreviation state := (tgt (chips (sbes D E))).

Definition regs_of (p : Z) : chip_regs := if p =? SBEFIFO_PROC_P9 then p9_regs else p10_regs.

Context (p : Z) (Hp : proc_valid p = true) (t sf : nat) (core i : Z) (Hpl : placed T fuel p t sf core).
Context (ct P : nat) (f : Z -> Z) (Hat : core_at (E := sbes D E) T fuel ct P f) (Hin : in_core (E := sbes D E) T fuel t ct).
Context (Hans : answering (E := sbes D E) P).
Context (h h0 : heap) (n : nat) (s : state) (c : sbefifo_context).
Context (Hok : heap_ok h n) (Hc : sf_ctx (sbe_part s) !! sf = Some c) (Ho : own c h h0) (Hth : on_thread t i p s c h0).
Context (HP : t_status s P = PDBG_TARGET_ENABLED).

(** The command is sent, and when the SBE reports success the thread is looked at. *)
Definition controlled (oper : Z) (r : Z + unit) (w : world state) : Prop :=
  exists r1 h1 n1 s1, done_on sf same (abs_control core (u8 i) oper (op_mode p oper) c) c h h0 s r1 (World h1 n1 s1) /\
    match r1 with
    | inl rc => r = inl rc /\ w = World h1 n1 s1
    | inr _ => exists st e, sees P f (regs_of p) i (sbe_part s1) st e /\
        does t (inr tt) (set_vars_status (thread_of (t_dev s) t) st) e (looks P f (regs_of p)) h1 n1 (t_status s) (t_dev s1) (t_trace s) r w
    end.

Lemma state_is_chip (w : world state) s1 h1 n1 c1 : w = World h1 n1 s1 -> sf_ctx (sbe_part s1) !! sf = Some c1 -> proc c1 = p ->
  sbefifo_update_status T fuel t w = update_status T fuel (regs_of p) t w.
Proof.
  intros -> Hc1 Hp1. unfold sbefifo_update_status, update_status, sbefifo_thread_state, mbind, M_bind.
  rewrite (thread_sbefifo_ok T fuel p t sf core _ Hpl), (on_sbe_proc sf h1 n1 s1 c1 Hc1), Hp1. unfold regs_of.
  unfold proc_valid in Hp. destruct (p =? SBEFIFO_PROC_P9); [done|]. cbn in Hp. by rewrite Hp.
Qed.

Lemma wp_control_op oper : 0 <= oper < 256 ->
  wp (sbefifo_thread_op T fuel t oper;; sbefifo_update_status T fuel t) (World h n s) (controlled oper).
Proof.
  intros Hop. apply wp_bind. eapply wp_mono; [by eapply (thread_op_does T fuel p t sf core i Hpl oper Hop h h0)|].
  intros r w Hd. pose proof Hd as (h' & n' & c' & d' & tr' & ares & -> & Hok' & Hsc & Hr & _). destruct r as [rc|[]].
  - by exists (inl rc), h', n', (moved s sf c' d' tr').
  - destruct ares as [|u]; [done|]. destruct Hth as [Hi Hpc].
    eapply (wp_eq _ (update_status T fuel (regs_of p) t)).
    { eapply state_is_chip; [done|apply moved_ctx|]. destruct Hsc as (_ & -> & _). done. }
    set (s1 := moved s sf c' d' tr') in *. destruct (answering_sees P f (regs_of p) Hans i (sbe_part s1)) as (st & e & Hs).
    eapply (wp_update T fuel ct P f Hat t Hin (regs_of p)); [unfold regs_of; destruct (_ =? _); [apply p9_regs_ok|apply p10_regs_ok]|done| |].
    { rewrite <- Hi in Hs. exact Hs. }
    intros d2 Hd2. exists (inr tt), h', n', s1. split; [done|]. exists st, e. split; [done|]. split; [done|]. by exists d2.
Qed.
End Control.

(** ** The theorems *)

Section Theorems.
Context {D E : Type} {K : Kernel D} {DO : DataOk} {KO : KernelOk D} {Al : Allocator}.
Context (T : dtree) (fuel : nat).

(** C4. Registers through the SBE. A SCOM register of a processor and a register of a thread are
    accessed by one command to the SBE with the index of the processor: the request that
    libsbefifo describes, with the number of the core (of the chiplet on POWER9) and of the
    thread; its result is the result of the access. All registers at once are two commands, and
    the structure of the caller then holds each of the 32 general registers and each of the 34 special
    ones (four of them cut to 32 bits) as the SBE gave them; when a command fails its error is the result,
    and the structure keeps what was stored in it before. No memory is left behind but what
    the context keeps, and, by a command that times out, the error data of an earlier command; no other
    context, thread or target changes. *)
Theorem sbe_register_access : timeout_works (D := D) ->
  (forall pib sf, sbe_of T fuel pib sf ->
     (forall addr, does_on (D := D) (E := E) sf any same (sbefifo_pib_read T fuel pib addr) (abs_scom_get addr)) /\
     (forall addr value, does_on (D := D) (E := E) sf any same (sbefifo_pib_write T fuel pib addr value) (abs_scom_put addr value))) /\
  (forall p t sf core i, placed T fuel p t sf core ->
     (forall type r, does_on (D := D) (E := E) sf (on_thread t i p) same (sbefifo_thread_get_reg T fuel t type r)
        (fun c => abs_map (fun vals => default 0 (head vals)) (abs_regs core (u8 i) type [r] c))) /\
     (forall type r value, does_on (D := D) (E := E) sf (on_thread t i p) same (sbefifo_thread_put_reg T fuel t type r value)
        (abs_put_reg core (u8 i) type r value)) /\
     (forall regs, does_on (D := D) (E := E) sf (on_thread t i p) kept (sbefifo_thread_getregs T fuel t regs) (abs_getregs core (u8 i) regs))) /\
  (forall regs gprs sprs, length sprs = length regs_sprs ->
     (forall j v, gprs !! j = Some v -> snapshot regs gprs sprs !! ("gprs"%string, j) = Some v) /\
     (forall j name r v, regs_sprs !! j = Some (name, r) -> sprs !! j = Some v -> snapshot regs gprs sprs !! (name, O) = Some (narrow name v))).
Proof.
  intros Htw. split_and!.
  - intros pib sf Hs. split; intros; (eapply does_after; [intros; by apply pib_to_sbefifo_ok|]);
      [apply on_sbe_pure, scom_get_refines|apply on_sbe_pure, scom_put_refines].
  - intros p t sf core i Hpl. split_and!; intros; [by apply get_reg_does|by apply put_reg_does|by apply getregs_does].
  - intros gprs sprs Hl. split; [apply snapshot_gpr|]. intros j name r v Hr Hv. by eapply snapshot_spr.
Qed.

(** Memory through the SBE. For an SBE that serves the memory [m], reading puts exactly the
    bytes asked for into the buffer of the caller, whatever the alignment, and nothing else in
    memory changes but what the context keeps; this holds for access through the processor and
    through the PBA, cache-inhibited or not. Writing sends the bytes unchanged and refuses an
    address or length that is not a multiple of the unit. A size of 4 GiB or more is refused
    before anything happens. *)
Theorem sbe_memory_access t sf : parent (node T t) = Some sf ->
  (forall (m : Z -> Z) flag al addr size ci b o l,
     mem_align (op_flags flag ci) = Some al -> 0 <= addr -> 0 <= size < 2 ^ 31 -> addr + size + (al - 1) < 2 ^ 64 ->
     (forall data, data_ok data -> serves m (op_flags flag ci) (win_start al addr) (win_len al addr size) data) ->
     0 <= o -> o + size <= Z.of_nat (length l) ->
     does_on (D := D) (E := E) sf (buffer b l) (filled b o l) (getmem_flags T flag t addr (Ptr b o) size ci)
       (fun c => abs_long c 30 (mem_get_req al addr size (op_flags flag ci)) 0xA401
                   (mem_get_hint (op_flags flag ci) al addr size) (fun _ => inr (region m addr size)))) /\
  (forall flag addr (data : list Z) ci, 0 <= addr -> Z.of_nat (length data) + 24 < 2 ^ 32 ->
     does_on (D := D) (E := E) sf any same (putmem_flags T flag t addr (Some <$> data) (Z.of_nat (length data)) ci)
       (abs_mem_put addr (op_flags flag ci) data)) /\
  (forall flag addr p data size ci (w : world (tgt (chips (sbes D E)))), 2 ^ 32 <= size ->
     getmem_flags T flag t addr p size ci w = (Fail EINVAL, w) /\ putmem_flags T flag t addr data size ci w = (Fail EINVAL, w)).
Proof.
  intros Hsf. split_and!; intros; [by apply getmem_does|by apply putmem_does|by eapply memory_size_refused].
Qed.

(** C3. Control of a thread through the SBE, on POWER9 and POWER10. Starting and resetting are
    refused unless the thread was quiesced when it was looked at last, without any effect.
    Otherwise these and stopping send one command with the numbers of the core and the thread,
    and with the special wakeup for stop and reset on POWER9. When the SBE reports an error the
    call returns it and the state known of the thread stays. When it reports success the thread
    is looked at through its registers, and the state seen is kept. *)
Theorem sbe_thread_control {Sc : Scom (sbes D E)} {Hw : Hardware (chips (sbes D E))} {Ob : OnBus (sbes D E)}
    p t sf core i ct P f h h0 n s c :
  proc_valid p = true -> placed T fuel p t sf core -> core_at (E := sbes D E) T fuel ct P f -> in_core (E := sbes D E) T fuel t ct ->
  answering (E := sbes D E) P -> heap_ok h n -> sf_ctx (sbe_part s) !! sf = Some c -> own c h h0 -> on_thread t i p s c h0 ->
  t_status s P = PDBG_TARGET_ENABLED ->
  wp (sbefifo_thread_stop T fuel t) (World h n s) (controlled p t sf core i P f h h0 s c SBEFIFO_INSN_OP_STOP) /\
  (if quiesced (Chip.status (thread_of (t_dev s) t))
   then wp (sbefifo_thread_start T fuel t) (World h n s) (controlled p t sf core i P f h h0 s c SBEFIFO_INSN_OP_START) /\
        wp (sbefifo_thread_sreset T fuel t) (World h n s) (controlled p t sf core i P f h h0 s c SBEFIFO_INSN_OP_SRESET)
   else sbefifo_thread_start T fuel t (World h n s) = (Fail 1, World h n s) /\
        sbefifo_thread_sreset T fuel t (World h n s) = (Fail 1, World h n s)) /\
  op_mode SBEFIFO_PROC_P9 SBEFIFO_INSN_OP_STOP = 2 /\ op_mode SBEFIFO_PROC_P9 SBEFIFO_INSN_OP_SRESET = 2 /\
  op_mode SBEFIFO_PROC_P9 SBEFIFO_INSN_OP_START = 0 /\ forall oper, op_mode SBEFIFO_PROC_P10 oper = 0.
Proof.
  intros Hp Hpl Hat Hin Hans Hok Hc Ho Hth HP.
  assert (forall oper, 0 <= oper < 256 -> wp (sbefifo_thread_op T fuel t oper;; sbefifo_update_status T fuel t) (World h n s)
    (controlled p t sf core i P f h h0 s c oper)) as Hop by (intros; by eapply wp_control_op).
  split; [by apply Hop|]. split; [|done].
  unfold sbefifo_thread_start, sbefifo_thread_sreset. destruct (quiesced _) eqn:Hq.
  - split; apply wp_bind, wp_bind, wp_get_st, wp_ret; rewrite Hq; by apply Hop.
  - unfold get_thread, get_st, mbind, M_bind, mret, M_ret. cbn. by rewrite Hq.
Qed.
End Theorems.

(** ** libpdbg: two processors with their SBEs

    A tree with two SBEs, the second of which belongs to a PIB with a core and a thread, and
    drivers that answer one command. *)

#[local] Existing Instance always_alloc.

(** ** The tree *)

Definition sbe_node (t : nat) : pdbg_target :=
  match t with
  | 0 => Node true (Some "root") None false NoRelease (-1) None [1; 2] None (Some 0%Z) 0 0 0 None false false
  | 1 => Node true (Some "sbefifo") None true ReleaseHw 0 (Some 0) [] None (Some 0%Z) 0 0 0 None false false
  | 2 => Node true (Some "sbefifo") None true ReleaseHw 1 (Some 0) [3; 6] None (Some 0%Z) 0 0 0 None false false
  | 3 => Node true (Some "pib") None false NoRelease (-1) (Some 2) [4] None (Some 0%Z) 0 0 0 None true true
  | 4 => Node true (Some "core") None true ReleaseCore 7 (Some 3) [5] None (Some 0x20000000%Z) 0 0 0 None false false
  | 5 => Node true (Some "thread") None true ReleaseHw 1 (Some 4) [] None (Some 0%Z) 0 0 0 None false false
  | _ => Node true (Some "mem") None false NoRelease (-1) (Some 2) [] None (Some 0%Z) 0 0 0 None false false
  end%nat.

Definition sbe_tree : dtree :=
  Dtree sbe_node 0 (fun k => if String.eqb k "sbefifo" then Some [1; 2]%nat else None) false.

Definition sbe_line (t : nat) : list nat := match t with 1 => [1; 0] | _ => [2; 0] end%nat.

Lemma sbe_tree_pib : sbe_of sbe_tree 10 3 2.
Proof.
  apply (sbe_of_intro _ _ _ _ [3; 2; 0]%nat sbe_line [1; 2]%nat); [|cbn; lia|done| | |cbn; lia|reflexivity].
  - do 2 (eapply anc_up; [reflexivity|]). by apply anc_top.
  - apply (bool_decide_eq_true_1 _). reflexivity.
  - repeat constructor; try (cbn; lia); (eapply anc_up; [reflexivity|]; by apply anc_top).
Defined.

Lemma sbe_tree_thread : placed sbe_tree 10 SBEFIFO_PROC_P10 5 2 7.
Proof.
  apply (placed_intro _ _ _ _ _ _ [4; 3; 2; 0]%nat 3 4 [4; 3; 2; 0]%nat); [|cbn; lia|reflexivity|apply sbe_tree_pib|reflexivity| |cbn; lia|reflexivity].
  - do 4 (eapply anc_up; [reflexivity|]). by apply anc_top.
  - do 3 (eapply anc_up; [reflexivity|]). by apply anc_top.
Defined.

Definition sbe_vars (t : nat) : thread_vars := ThreadVars 1 quiesced_state false false.
Definition sbe_state : tgt (chips (sbes unit unit)) :=
  Tgt all_enabled (Chips sbe_vars (fun _ => true) (Sbes {[1%nat := ctx0 2; 2%nat := ctx0 2]} tt [] tt)) [].

(** ** Registers *)

(** One register with the value 0x102 *)
Definition reg_reply : list Z := frame_reply 0xA501 [0; 0; 0; 0; 0; 0; 1; 2] 0 [].
Lemma reg_kernel_ok : KernelOk unit (K := fixed_kernel reg_reply) (DO := any_data).
Proof. solve_kernel. Qed.

Section RegWitness.
#[local] Instance reg_kernel : Kernel unit := fixed_kernel reg_reply.

Lemma sbe_register_access_witness :
  does_on (E := unit) 2 (on_thread 5 1 SBEFIFO_PROC_P10) same (sbefifo_thread_get_reg sbe_tree 10 5 SBEFIFO_REGISTER_TYPE_SPR 8)
    (fun c => abs_map (fun vals => default 0 (head vals)) (abs_regs 7 1 SBEFIFO_REGISTER_TYPE_SPR [8] c)) /\
  (sbefifo_thread_get_reg sbe_tree 10 5 SBEFIFO_REGISTER_TYPE_SPR 8 (World ∅ 0 sbe_state)).1 = Ret 0x102.
Proof.
  split; [|vm_compute; reflexivity].
  exact (proj1 (proj1 (proj2 (sbe_register_access (KO := reg_kernel_ok) sbe_tree 10 (fun _ _ => eq_refl)))
          SBEFIFO_PROC_P10 5%nat 2%nat 7 1 sbe_tree_thread) SBEFIFO_REGISTER_TYPE_SPR 8).
Defined.
End RegWitness.

(** ** Memory *)

(** The byte at [a] is [a mod 256]; bytes 0x1003 .. 0x1008 lie in the window 0x1000 .. 0x100f. *)
Definition byte_at (a : Z) : Z := a mod 256.
Definition served_data : DataOk := serves byte_at SBEFIFO_MEMORY_FLAG_PROC 0x1000 16.
Definition served_reply : list Z :=
  frame_reply 0xA401 [0; 1; 2; 3; 4; 5; 6; 7; 8; 9; 10; 11; 12; 13; 14; 15; 0; 0; 0; 16] 0 [].
Lemma served_kernel_ok : KernelOk unit (K := fixed_kernel served_reply) (DO := served_data).
Proof. solve_kernel. by exists (fun _ => []). Qed.

Section MemWitness.
#[local] Instance served_kernel : Kernel unit := fixed_kernel served_reply.

(** A buffer of eight bytes, of which the six from the second on are filled *)
Definition user_buffer : list mval := replicate 8 None.
Definition filled_buffer : list mval := [None; Some 3; Some 4; Some 5; Some 6; Some 7; Some 8; None].

Lemma sbe_memory_access_witness :
  does_on (E := unit) 2 (buffer 0 user_buffer) (filled 0 1 user_buffer)
    (getmem_flags sbe_tree SBEFIFO_MEMORY_FLAG_PROC 6 0x1003 (Ptr 0 1) 6 false)
    (fun c => abs_long c 30 (mem_get_req 8 0x1003 6 1) 0xA401 (mem_get_hint 1 8 0x1003 6) (fun _ => inr (region byte_at 0x1003 6))) /\
  w_heap (getmem_flags sbe_tree SBEFIFO_MEMORY_FLAG_PROC 6 0x1003 (Ptr 0 1) 6 false (World {[0%nat := user_buffer]} 1 sbe_state)).2 =
    {[0%nat := filled_buffer]}.
Proof.
  split; [|vm_compute; reflexivity].
  refine (proj1 (sbe_memory_access (KO := served_kernel_ok) sbe_tree 6 2 eq_refl) byte_at SBEFIFO_MEMORY_FLAG_PROC 8 0x1003 6 false 0%nat 1 user_buffer
           eq_refl _ _ _ _ _ _); try (cbn; lia). exact (fun data H => H).
Defined.
End MemWitness.

(** ** Control *)

Definition insn_reply : list Z := frame_reply 0xA701 [] 0 [].
Lemma insn_kernel_ok : KernelOk unit (K := fixed_kernel insn_reply) (DO := any_data).
Proof. solve_kernel. Qed.

(** Every register of the bus shows a quiesced thread. *)
Definition quiet_scom : Scom (sbes unit unit) := {|
  scom_read _ a e := (e, inr (if a =? core_addr P10_RAS_STATUS then 0xe0e0e0e000000000 else 0));
  scom_write _ a x e := (e, 0)
|}.
Definition stopped_state : thread_state := ThreadState false true true false PDBG_THREAD_STATE_RUN PDBG_SMT_1.

Section ControlWitness.
#[local] Instance insn_kernel : Kernel unit := fixed_kernel insn_reply.
#[local] Existing Instance quiet_scom.
#[local] Instance quiet_on_bus : OnBus (sbes unit unit).
Proof. split; done. Defined.

Lemma sbe_tree_at : core_at (E := sbes unit unit) sbe_tree 10 4 3 core_addr.
Proof. split; [done|intros; by apply (at_direct _ _ _ _ _ (core_tree_at (E := sbes unit unit)))|done..]. Defined.

Lemma sbe_thread_control_witness :
  wp (sbefifo_thread_stop sbe_tree 10 5) (World ∅ 0 sbe_state)
    (controlled SBEFIFO_PROC_P10 5 2 7 1 3 core_addr ∅ ∅ sbe_state (ctx0 2) SBEFIFO_INSN_OP_STOP) /\
  (exists h n s, sbefifo_thread_stop sbe_tree 10 5 (World ∅ 0 sbe_state) = (Ret tt, World h n s) /\
     Chip.status (thread_of (t_dev s) 5%nat) = stopped_state /\
     sb_trace (sbe_part s) = [SbeCore.EvWrite (msg_bytes [3; 0xA701; 0x711]); SbeCore.EvRead 0x8000]).
Proof.
  split; [|eexists _, _, _; split; [vm_compute; reflexivity|split; vm_compute; reflexivity]].
  refine (proj1 (sbe_thread_control (KO := insn_kernel_ok) sbe_tree 10 SBEFIFO_PROC_P10 5 2 7 1 4 3 core_addr ∅ ∅ 0%nat sbe_state (ctx0 2)
    eq_refl sbe_tree_thread sbe_tree_at _ _ (heap_ok_empty 0) eq_refl eq_refl _ eq_refl)).
  - intros w. reflexivity.
  - intros a e. eexists _, _. reflexivity.
  - split; reflexivity.
Defined.
End ControlWitness.
