(* ===== verification/SbeApi.v ===== *)
(** * libpdbg: chip-ops and the state of the SBE

    Models libpdbg/sbe_api.c: the entry points for chip-ops, which find the chip-op target of a
    processor and call its members, and the two registers through which the state of the SBE is
    known. *)

From S2P Require Import Prelude CMem Target TargetFacts TargetRelease Pib Adu Chip SbeBack SbeBackFacts.

Definition SBE_STATE_REG : Z := 0x2986.
Definition SBE_MSG_STATE_UNKNOWN : Z := 0x0.
Definition SBE_MSG_STATE_RUNTIME : Z := 0x4.

(** [enum sbe_state] *)
Definition SBE_STATE_NOT_USABLE : Z := 0.
Definition SBE_STATE_BOOTED : Z := 1.
Definition SBE_STATE_CHECK_CFAM : Z := 2.
Definition SBE_STATE_DEBUG_MODE : Z := 3.
Definition SBE_STATE_FAILED : Z := 4.

(** [union sbe_msg_register], with bit fields from the low bits up *)
Definition curr_state (reg : Z) : Z := Z.land (Z.shiftr reg 20) 0xf.
Definition prev_state (reg : Z) : Z := Z.land (Z.shiftr reg 24) 0xf.
Definition sbe_booted (reg : Z) : bool := Z.testbit reg 31.

Section SbeApi.
Context {D : Type} {Hw : Hardware D} {Al : Allocator} (T : dtree) (fuel : nat).
Abbreviation m := (M (tgt D)).

(** The members of [struct chipop] and [struct chipop_ody]; [None] for NULL. [ffdc_get] is given the
    pointer that it may leave as it is. *)
Record chipop := Chipop {
  ffdc_get : option (ptr -> m (Z * ptr * Z));
  istep : option (Z -> Z -> m unit);
  mpipl_enter : option (m unit);
  mpipl_continue : option (m unit);
  mpipl_get_ti_info : option (m (ptr * Z));
  dump : option (Z -> Z -> Z -> m (ptr * Z));
  lpc_timeout : option (m Z)
}.
Record chipop_ody := ChipopOdy {
  ody_ffdc_get : option (nat -> ptr -> m (Z * ptr * Z));
  ody_dump : option (Z -> Z -> Z -> m (ptr * Z))
}.

Context (target_to_chipop : nat -> chipop) (target_to_chipop_ody : nat -> chipop_ody).

(** [pdbg_for_each_class_target(klass, t) if (f(t)) return t;], over targets of any state *)
Fixpoint search_target (n : nat) (klass : string) (cur : option nat) (f : nat -> m bool) : m (option nat) :=
  match n with
  | O => crash NoFuel
  | S n' =>
      match cur with
      | None => mret None
      | Some t =>
          found ← f t;
          if found : bool then mret (Some t) else
          next ← pdbg_next_target T fuel klass None (Some t) true;
          search_target n' klass next f
      end
  end.

Definition chipop_there (index : Z) (chipop : nat) : m bool :=
  i ← pdbg_target_index T fuel (Some chipop);
  if negb (i =? index) then mret false else
  status ← pdbg_target_probe T fuel chipop;
  mret (bool_decide (status = PDBG_TARGET_ENABLED)).

Definition pib_to_chipop (pib : nat) : m (option nat) :=
  c_assert (pdbg_target_is_class T pib "pib");;
  status ← pdbg_target_status_of pib;
  if negb (bool_decide (status = PDBG_TARGET_ENABLED)) then mret None else
  index ← pdbg_target_index T fuel (Some pib);
  first ← pdbg_next_target T fuel "chipop" None None true;
  search_target fuel "chipop" first (chipop_there index).

(** [if (!chipop) return -1; if (!chipop->op) return -1; rc = ...; if (rc) return -1;] *)
Definition any_failure {A} (op : m A) : m A :=
  r ← attempt op; match r with inl _ => fail (-1) | inr a => mret a end.
Definition with_chipop {A Op} (target : nat) (member : chipop -> option Op) (call : Op -> m A) : m A :=
  chipop ← pib_to_chipop target;
  match chipop with
  | None => fail (-1)
  | Some t => match member (target_to_chipop t) with None => fail (-1) | Some op => call op end
  end.

Definition sbe_istep (target : nat) (major minor : Z) : m unit :=
  with_chipop target istep (fun op => any_failure (op major minor)).
Definition sbe_mpipl_enter (target : nat) : m unit := with_chipop target mpipl_enter any_failure.
Definition sbe_mpipl_continue (target : nat) : m unit := with_chipop target mpipl_continue any_failure.
Definition sbe_mpipl_get_ti_info (target : nat) : m (ptr * Z) := with_chipop target mpipl_get_ti_info any_failure.
Definition sbe_lpc_timeout (target : nat) : m Z := with_chipop target lpc_timeout any_failure.

Definition sbe_dump (target : nat) (type clock fa_collect : Z) : m (ptr * Z) :=
  if negb (is_ody_ocmb_chip T target) then with_chipop target dump (fun op => any_failure (op type clock fa_collect))
  else
    co_target ← get_backend_target T fuel "chipop-ody" target;
    match ody_dump (target_to_chipop_ody co_target) with
    | None => fail (-1)
    | Some op => any_failure (op type clock fa_collect)
    end.

(** A copy of the data for the caller: status, pointer and length *)
Definition copy_ffdc (r : Z * ptr * Z) : m (Z * ptr * Z) :=
  let '(status, data, len) := r in
  if negb (is_null data) && (0 <? len) then
    ffdc ← malloc len;
    c_assert (negb (is_null ffdc));;
    memcpy ffdc data len;;
    mret (status, ffdc, len)
  else mret (status, Null, 0).

Definition sbe_ffdc_get (target : nat) : m (Z * ptr * Z) :=
  if negb (is_ody_ocmb_chip T target) then
    with_chipop target ffdc_get (fun op => r ← op Null; copy_ffdc r)
  else
    co_target ← get_backend_target T fuel "chipop-ody" target;
    match ody_ffdc_get (target_to_chipop_ody co_target) with
    | None => fail (-1)
    | Some op => fsi ← get_backend_target T fuel "fsi-ody" target; r ← op fsi Null; copy_ffdc r
    end.

(** ** The registers of the SBE *)

Definition pib_fsi (pib : nat) : m nat :=
  fsi ← target_parent T fuel (Some "fsi"%string) pib false;
  c_assert (pdbg_target_is_class T pib "pib");;
  match fsi with None => crash AssertFailed | Some fsi => require_enabled pib;; mret fsi end.

Definition ody_fsi (fsi : nat) : m unit :=
  c_assert (pdbg_target_is_class T fsi "fsi-ody");; require_enabled fsi.

Definition sbe_read_msg_register (pib : nat) : m Z := fsi ← pib_fsi pib; fsi_read T fuel fsi SBE_MSG_REG.
Definition sbe_read_state_register (pib : nat) : m Z := fsi ← pib_fsi pib; fsi_read T fuel fsi SBE_STATE_REG.
Definition sbe_write_state_register (pib value : _) : m unit := fsi ← pib_fsi pib; fsi_write T fuel fsi SBE_STATE_REG value.
Definition sbe_ody_read_msg_register (fsi : nat) : m Z := ody_fsi fsi;; fsi_ody_read T fsi SBE_MSG_REG.
Definition sbe_ody_read_state_register (fsi : nat) : m Z := ody_fsi fsi;; fsi_ody_read T fsi SBE_STATE_REG.
Definition sbe_ody_write_state_register (fsi : nat) (value : Z) : m unit := ody_fsi fsi;; fsi_ody_write T fsi SBE_STATE_REG value.

Definition sbe_get_state (pib : nat) : m Z :=
  value ← any_failure (sbe_read_state_register pib);
  if value =? SBE_STATE_CHECK_CFAM then
    msg ← any_failure (sbe_read_msg_register pib);
    mret (if sbe_booted msg then SBE_STATE_BOOTED else SBE_STATE_CHECK_CFAM)
  else mret value.

Definition sbe_ody_get_state (fsi : nat) : m Z :=
  value ← any_failure (sbe_ody_read_state_register fsi);
  if (value =? SBE_STATE_CHECK_CFAM) || (value =? SBE_MSG_STATE_UNKNOWN) then
    msg ← any_failure (sbe_ody_read_msg_register fsi);
    mret (if sbe_booted msg then SBE_STATE_BOOTED else SBE_STATE_CHECK_CFAM)
  else mret value.

Definition sbe_set_state (pib : nat) (state : Z) : m unit := any_failure (sbe_write_state_register pib (u32 state)).
Definition sbe_ody_set_state (fsi : nat) (state : Z) : m unit := any_failure (sbe_ody_write_state_register fsi (u32 state)).

Definition sbe_is_ipl_done (pib : nat) : m bool :=
  msg ← any_failure (sbe_read_msg_register pib);
  mret ((curr_state msg =? SBE_MSG_STATE_RUNTIME) || (prev_state msg =? SBE_MSG_STATE_RUNTIME)).
End SbeApi.
Arguments Chipop {D} _ _ _ _ _ _ _.
Arguments ChipopOdy {D} _ _.

(** ** The chip-ops of the SBE

    [sbefifo_chipop] and [sbefifo_chipop_ody] of sbefifo.c *)
Section SbeChipops.
Context {D E : Type} {K : SbeCore.Kernel D} {Al : Allocator} {Hw : Hardware (chips (sbes D E))} (T : dtree) (fuel : nat).

Definition sbefifo_chipop (t : nat) : chipop (D := chips (sbes D E)) :=
  Chipop (Some (sbefifo_op_ffdc_get T fuel t)) (Some (sbefifo_op_istep T t)) (Some (sbefifo_op_mpipl_enter T t))
    (Some (sbefifo_op_mpipl_continue T t)) (Some (sbefifo_op_mpipl_get_ti_info T t)) (Some (sbefifo_op_dump T t))
    (Some (sbefifo_op_lpc_timeout T t)).
Definition sbefifo_chipop_ody (t : nat) : chipop_ody (D := chips (sbes D E)) :=
  ChipopOdy (Some (sbefifo_op_ody_ffdc_get T t)) (Some (sbefifo_op_ody_dump T t)).
End SbeChipops.
