(* ===== verification/SbeApiTheorems.v ===== *)
(** * libpdbg: the state of an SBE

    What is read back of the state that was set, for the SBE of a processor and of an Odyssey
    chip. *)

From S2P Require Import Prelude CMem Target TargetFacts TargetRelease Pib Adu Chip SbeBack SbeApi.

(** The two registers of the SBE behind an FSI target: a state that is stored, and a message word
    that the SBE writes. *)
Class Mailbox (D : Type) {Hw : Hardware D} (F : nat) (state_addr msg_addr : Z) (state msg : D -> Z) : Prop := {
  mail_state d : exists d', hw_read F state_addr d = (d', inr (state d)) /\ state d' = state d /\ msg d' = msg d;
  mail_msg d : exists d', hw_read F msg_addr d = (d', inr (msg d)) /\ state d' = state d /\ msg d' = msg d;
  mail_store x d : in_range 32 x -> exists d', hw_write F state_addr x d = (d', 0) /\ state d' = x /\ msg d' = msg d
}.

(** What a caller is told of a state: the states [asks] are decided by the message word. *)
Definition told (asks : Z -> bool) (state msg : Z) : Z :=
  if asks state then if sbe_booted msg then SBE_STATE_BOOTED else SBE_STATE_CHECK_CFAM else state.
Definition proc_asks (s : Z) : bool := s =? SBE_STATE_CHECK_CFAM.
Definition ody_asks (s : Z) : bool := (s =? SBE_STATE_CHECK_CFAM) || (s =? SBE_STATE_NOT_USABLE).

Section State.
Context {D : Type} {Hw : Hardware D} (T : dtree) (fuel : nat).
Implicit Types (s : tgt D) (h : gmap nat (list mval)).

Lemma wp_any_failure {A} (op : M (tgt D) A) w (Q : Z + A -> world (tgt D) -> Prop) :
  wp op w (fun r w' => Q (match r with inl _ => inl (-1) | inr a => inr a end) w') -> wp (any_failure op) w Q.
Proof. intros H. apply wp_bind, wp_attempt. eapply wp_mono; [exact H|]. intros [] w' HQ; exact HQ. Qed.

(** Access to the two registers *)
Section Registers.
Context (read_state read_msg : M (tgt D) Z) (write_state : Z -> M (tgt D) unit) (state msg : D -> Z) (up : tgt D -> Prop).

Record works : Prop := {
  works_state h n s : up s -> wp read_state (World h n s) (fun r w => exists s', w = World h n s' /\ r = inr (state (t_dev s)) /\
    up s' /\ state (t_dev s') = state (t_dev s) /\ msg (t_dev s') = msg (t_dev s));
  works_msg h n s : up s -> wp read_msg (World h n s) (fun r w => exists s', w = World h n s' /\ r = inr (msg (t_dev s)) /\
    up s' /\ state (t_dev s') = state (t_dev s) /\ msg (t_dev s') = msg (t_dev s));
  works_store x h n s : up s -> in_range 32 x -> wp (write_state x) (World h n s) (fun r w => exists s', w = World h n s' /\ r = inr tt /\
    up s' /\ state (t_dev s') = x /\ msg (t_dev s') = msg (t_dev s))
}.

Context (Hworks : works) (asks : Z -> bool).

Definition get_with : M (tgt D) Z :=
  value ← any_failure read_state;
  if asks value then
    msg ← any_failure read_msg;
    mret (if sbe_booted msg then SBE_STATE_BOOTED else SBE_STATE_CHECK_CFAM)
  else mret value.

Lemma wp_get_with h n s : up s -> wp get_with (World h n s) (fun r w => exists s', w = World h n s' /\
  r = inr (told asks (state (t_dev s)) (msg (t_dev s))) /\ up s' /\ state (t_dev s') = state (t_dev s) /\ msg (t_dev s') = msg (t_dev s)).
Proof.
  intros Hs. unfold get_with, told. apply wp_bind, wp_any_failure. eapply wp_mono; [by apply (works_state Hworks)|].
  intros r w (s1 & -> & -> & H1 & E1 & E1'). destruct (asks _); [|by apply wp_ret; exists s1].
  apply wp_bind, wp_any_failure. eapply wp_mono; [by apply (works_msg Hworks)|].
  intros r w (s2 & -> & -> & H2 & E2 & E2'). apply wp_ret. exists s2. rewrite E2, E2', E1, E1'. by split_and!.
Qed.

Lemma wp_set_get x h n s : up s -> in_range 32 x ->
  wp (any_failure (write_state (u32 x));; get_with) (World h n s) (fun r w => exists s', w = World h n s' /\
    r = inr (told asks x (msg (t_dev s))) /\ up s' /\ state (t_dev s') = x).
Proof.
  intros Hs Hx. rewrite (wrap_small 32 x Hx). apply wp_bind, wp_any_failure. eapply wp_mono; [by apply (works_store Hworks)|].
  intros r w (s1 & -> & -> & H1 & E1 & E1'). eapply wp_mono; [by apply wp_get_with|].
  intros r w (s2 & -> & -> & H2 & E2 & E2'). exists s2. rewrite E2, E1, E1'. by split_and!.
Qed.
End Registers.

(** The registers of the SBE of the processor [pib] are at the FSI target [F]. *)
Record mail_at (pib F : nat) (fa : Z -> Z) : Prop := {
  ma_class : class (node T pib) = Some "pib"%string;
  ma_parent : exists fsi, (forall w, target_parent (D := D) T fuel (Some "fsi"%string) pib false w = (Ret (Some fsi), w)) /\
    forall a w, get_class_target_addr (D := D) T fuel fsi "fsi" a w = (Ret (F, fa a), w);
  ma_read : can_read (node T F) = true;
  ma_write : can_write (node T F) = true
}.

Lemma pib_fsi_ok pib F fa h n s : mail_at pib F fa -> t_status s pib = PDBG_TARGET_ENABLED ->
  exists fsi, pib_fsi T fuel pib (World h n s) = (Ret fsi, World h n s) /\
    forall a w, get_class_target_addr (D := D) T fuel fsi "fsi" a w = (Ret (F, fa a), w).
Proof.
  intros [Hc (fsi & Hp & Ha) _ _] Hs. exists fsi. split; [|done].
  unfold pib_fsi, pdbg_target_is_class, require_enabled, pdbg_target_status_of, get_st, mbind, M_bind. rewrite Hp, Hc, bool_decide_eq_true_2 by done. cbn. by rewrite Hs, bool_decide_eq_true_2.
Qed.

Lemma wp_hw_read F a h n s v d : hw_read F a (t_dev s) = (d, inr v) ->
  bus_read F a (World h n s) = (Ret v, World h n (Tgt (t_status s) d (t_trace s ++ [EvRead F a]))).
Proof. intros E. unfold bus_read, hw_call, get_st, put_st, mbind, M_bind. cbn. by rewrite E. Qed.
Lemma wp_hw_write F a x h n s d : hw_write F a x (t_dev s) = (d, 0) ->
  bus_write F a x (World h n s) = (Ret tt, World h n (Tgt (t_status s) d (t_trace s ++ [EvWrite F a x]))).
Proof. intros E. unfold bus_write, hw_call, get_st, put_st, mbind, M_bind. cbn. by rewrite E. Qed.

Definition enabled (t : nat) s : Prop := t_status s t = PDBG_TARGET_ENABLED.

Lemma proc_works pib F fa state msg : mail_at pib F fa -> Mailbox D F (u32 (fa SBE_STATE_REG)) (u32 (fa SBE_MSG_REG)) state msg ->
  works (sbe_read_state_register T fuel pib) (sbe_read_msg_register T fuel pib) (sbe_write_state_register T fuel pib) state msg (enabled pib).
Proof.
  intros Hm Hb. split; intros; unfold sbe_read_state_register, sbe_read_msg_register, sbe_write_state_register, fsi_read, fsi_write, require_op;
    destruct (pib_fsi_ok pib F fa h n s Hm H) as (fsi & Ef & Ea); apply wp_bind; unfold wp at 1; rewrite Ef;
    apply wp_bind; unfold wp at 1; rewrite Ea; rewrite ?(ma_read _ _ _ Hm), ?(ma_write _ _ _ Hm); apply wp_bind, wp_ret; unfold wp.
  - destruct (mail_state (t_dev s)) as (d & E & ?). rewrite (wp_hw_read _ _ _ _ _ _ _ E). by eexists.
  - destruct (mail_msg (t_dev s)) as (d & E & ?). rewrite (wp_hw_read _ _ _ _ _ _ _ E). by eexists.
  - destruct (mail_store x (t_dev s) H0) as (d & E & ?). rewrite (wp_hw_write _ _ _ _ _ _ _ E). by eexists.
Qed.

Lemma ody_works F state msg : class (node T F) = Some "fsi-ody"%string -> can_read (node T F) = true -> can_write (node T F) = true ->
  Mailbox D F SBE_STATE_REG SBE_MSG_REG state msg ->
  works (sbe_ody_read_state_register T F) (sbe_ody_read_msg_register T F) (sbe_ody_write_state_register T F) state msg (enabled F).
Proof.
  intros Hc Hr Hw' Hb. assert (forall h n s, enabled F s -> ody_fsi (D := D) T F (World h n s) = (Ret tt, World h n s)) as Ho.
  { intros h n s Hs. unfold ody_fsi, pdbg_target_is_class, require_enabled, pdbg_target_status_of, get_st, mbind, M_bind. rewrite Hc, bool_decide_eq_true_2 by done. cbn. by rewrite Hs, bool_decide_eq_true_2. }
  split; intros; unfold sbe_ody_read_state_register, sbe_ody_read_msg_register, sbe_ody_write_state_register, fsi_ody_read, fsi_ody_write, require_op;
    apply wp_bind; unfold wp at 1; rewrite Ho by done; rewrite ?Hr, ?Hw'; apply wp_bind, wp_ret; unfold wp.
  - destruct (mail_state (t_dev s)) as (d & E & ?). rewrite (wp_hw_read _ _ _ _ _ _ _ E). by eexists.
  - destruct (mail_msg (t_dev s)) as (d & E & ?). rewrite (wp_hw_read _ _ _ _ _ _ _ E). by eexists.
  - destruct (mail_store x (t_dev s) H0) as (d & E & ?). rewrite (wp_hw_write _ _ _ _ _ _ _ E). by eexists.
Qed.

(** The state that was set is what a caller is told, but for the states that the message word
    decides: for a processor [CHECK_CFAM], for an Odyssey chip also [NOT_USABLE]. *)
Theorem sbe_state_roundtrip pib F fa state msg x h n s :
  mail_at pib F fa -> Mailbox D F (u32 (fa SBE_STATE_REG)) (u32 (fa SBE_MSG_REG)) state msg -> enabled pib s -> in_range 32 x ->
  wp (sbe_set_state T fuel pib x;; sbe_get_state T fuel pib) (World h n s) (fun r w => exists s', w = World h n s' /\
    r = inr (told proc_asks x (msg (t_dev s))) /\ state (t_dev s') = x).
Proof.
  intros Hm Hb Hs Hx. eapply wp_mono; [by apply (wp_set_get _ _ _ _ _ _ (proc_works pib F fa state msg Hm Hb) proc_asks)|].
  intros r w (s' & -> & -> & _ & E). by exists s'.
Qed.

Theorem sbe_ody_state_roundtrip F state msg x h n s :
  class (node T F) = Some "fsi-ody"%string -> can_read (node T F) = true -> can_write (node T F) = true ->
  Mailbox D F SBE_STATE_REG SBE_MSG_REG state msg -> enabled F s -> in_range 32 x ->
  wp (sbe_ody_set_state T F x;; sbe_ody_get_state T F) (World h n s) (fun r w => exists s', w = World h n s' /\
    r = inr (told ody_asks x (msg (t_dev s))) /\ state (t_dev s') = x).
Proof.
  intros Hc Hr Hw' Hb Hs Hx. eapply wp_mono; [by apply (wp_set_get _ _ _ _ _ _ (ody_works F state msg Hc Hr Hw' Hb) ody_asks)|].
  intros r w (s' & -> & -> & _ & E). by exists s'.
Qed.
End State.

(** A processor whose SBE is set to be not usable is reported as such; an Odyssey chip set to the
    same state is reported as booted or to be checked, never as not usable: the state register is
    compared with a constant of the message register. *)
Theorem ody_not_usable_lost msg :
  told proc_asks SBE_STATE_NOT_USABLE msg = SBE_STATE_NOT_USABLE /\ told ody_asks SBE_STATE_NOT_USABLE msg <> SBE_STATE_NOT_USABLE.
Proof. split; [done|]. unfold told. change (ody_asks SBE_STATE_NOT_USABLE) with true. by destruct (sbe_booted msg). Qed.
