(* ===== verification/Access.v ===== *)
(** * libpdbg: entry points for memory, memory buffers and I2C, and traversal

    Models the rest of the access functions of target.c ([mem_read] and [mem_write],
    [ocmb_getscom] and [ocmb_putscom], [i2c_read] and [i2c_write]), [pdbg_target_traverse] of
    libpdbg.c, and the memory buffers behind an SBE in ocmb.c. What they call is a member of a
    structure, given as a function of the target. *)

From S2P Require Import Prelude CMem SbeCore SbeCoreFacts SbeCmds SbeDataCmds SbeCmdFacts SbeSpec SbeDataSpec SbeMemory SbeTheorems.
From S2P Require Import Target TargetFacts TargetRelease Pib Adu Ram Thread Chip SbeBack SbeBackFacts.

Definition SBEFIFO_TARGET_TYPE_OCMB : Z := 0x4.

Section Access.
Context {D : Type} {Hw : Hardware D} (T : dtree) (fuel : nat).
Abbreviation m := (M (tgt D)).

(** The members of [struct mem], [struct ocmb] and [struct i2cbus]; [None] is NULL. *)
Record mem := Mem {
  mem_reads : option (Z -> ptr -> Z -> Z -> bool -> m unit);
  mem_writes : option (Z -> list mval -> Z -> Z -> bool -> m unit)
}.
Record ocmb := Ocmb {
  getscom : option (Z -> m Z);
  putscom : option (Z -> Z -> m unit)
}.
Record i2cbus := I2cbus {
  i2c_reads : Z -> Z -> Z -> ptr -> m unit;
  i2c_writes : Z -> Z -> Z -> list mval -> m unit
}.

Context (target_to_mem : nat -> mem) (target_to_ocmb : nat -> ocmb) (target_to_i2cbus : nat -> i2cbus).

(** [if (!mem->read) return -1;] *)
Definition member {A} (op : option A) : m A := match op with Some op => mret op | None => fail (-1) end.

Definition mem_read (t : nat) (addr : Z) (output : ptr) (size block_size : Z) (ci : bool) : m unit :=
  c_assert (pdbg_target_is_class T t "mem");;
  require_enabled t;;
  op ← member (mem_reads (target_to_mem t));
  op addr output size block_size ci.

Definition mem_write (t : nat) (addr : Z) (input : list mval) (size block_size : Z) (ci : bool) : m unit :=
  c_assert (pdbg_target_is_class T t "mem");;
  require_enabled t;;
  op ← member (mem_writes (target_to_mem t));
  op addr input size block_size ci.

(** The target that is accessed and its address: a target below an Odyssey chip is accessed
    through the chip. *)
Definition ocmb_target (t : nat) (addr : Z) : m (nat * Z) :=
  child ← is_child_of_ody_chip T fuel t;
  c_assert (pdbg_target_is_class T t "ocmb" || child);;
  if child : bool then get_class_target_addr T fuel t "ocmb" addr else mret (t, addr).

Definition ocmb_getscom (t : nat) (addr : Z) : m Z :=
  '(t, addr) ← ocmb_target t addr;
  require_enabled t;;
  op ← member (getscom (target_to_ocmb t));
  op addr.

Definition ocmb_putscom (t : nat) (addr val : Z) : m unit :=
  '(t, addr) ← ocmb_target t addr;
  require_enabled t;;
  op ← member (putscom (target_to_ocmb t));
  op addr val.

(** The bus and the address on it, which has to fit into a byte *)
Definition i2c_target (t : nat) (addr : Z) : m (nat * Z) :=
  '(i2c_dt, target_addr) ← get_class_target_addr T fuel t "i2c_bus" addr;
  require_enabled i2c_dt;;
  if 0xff <? target_addr then fail (-1) else mret (i2c_dt, Z.land target_addr 0xff).

Definition i2c_read (t : nat) (addr reg size : Z) (data : ptr) : m unit :=
  '(bus, addr) ← i2c_target t addr;
  i2c_reads (target_to_i2cbus bus) addr reg size data.
Definition i2c_write (t : nat) (addr reg size : Z) (data : list mval) : m unit :=
  '(bus, addr) ← i2c_target t addr;
  i2c_writes (target_to_i2cbus bus) addr reg size data.

(** ** Traversal

    [func] fails where the callback returns something else than 0, which ends the traversal. *)
Fixpoint _pdbg_target_traverse (depth : nat) (func : nat -> m unit) (parent : nat) : m unit :=
  match depth with
  | O => crash NoFuel
  | S depth' =>
      func parent;;
      for_each_child T fuel parent (_pdbg_target_traverse depth' func)
  end.
Definition pdbg_target_traverse (func : nat -> m unit) (parent : option nat) : m unit :=
  _pdbg_target_traverse fuel func (default (pdbg_target_root T) parent).
End Access.
Arguments Mem {D} _ _.
Arguments Ocmb {D} _ _.

(** ** Memory buffers behind an SBE *)

Section Ocmbs.
Context {D E : Type} {K : Kernel D} {Al : Allocator} {Hw : Hardware (chips (sbes D E))} (T : dtree) (fuel : nat).
Abbreviation m := (M (tgt (chips (sbes D E)))).

Definition ocmb_to_sbefifo (t : nat) : m nat :=
  pib ← require_target_parent T fuel (Some "pib"%string) t true;
  pib_to_sbefifo T fuel pib.

Definition ody_ocmb_to_sbefifo (t : nat) : m nat := get_backend_target T fuel "sbefifo-ody" t.

Definition sbefifo_ocmb_getscom (t : nat) (addr : Z) : m Z :=
  if is_ody_ocmb_chip T t then
    sbefifo ← ody_ocmb_to_sbefifo t;
    on_sbe sbefifo (sbefifo_scom_get addr)
  else
    sbefifo ← ocmb_to_sbefifo t;
    let instance_id := Z.land (fapi_pos (node T t)) 0x0f in
    on_sbe sbefifo (sbefifo_hw_register_get SBEFIFO_TARGET_TYPE_OCMB instance_id addr).

Definition sbefifo_ocmb_putscom (t : nat) (addr value : Z) : m unit :=
  if is_ody_ocmb_chip T t then
    sbefifo ← ody_ocmb_to_sbefifo t;
    on_sbe sbefifo (sbefifo_scom_put addr value)
  else
    sbefifo ← ocmb_to_sbefifo t;
    index ← pdbg_target_index T fuel (Some t);
    let instance_id := Z.land index 0xff in
    on_sbe sbefifo (sbefifo_hw_register_put SBEFIFO_TARGET_TYPE_OCMB instance_id addr value).

Definition sbefifo_ocmb (t : nat) : ocmb (D := chips (sbes D E)) :=
  Ocmb (Some (sbefifo_ocmb_getscom t)) (Some (sbefifo_ocmb_putscom t)).

(** The members of [sbefifo_mem] and [sbefifo_pba]; the size of a block is not looked at. *)
Definition sbefifo_mem (t : nat) : mem (D := chips (sbes D E)) :=
  Mem (Some (fun addr data size _ ci => sbefifo_op_getmem T t addr data size ci))
      (Some (fun addr data size _ ci => sbefifo_op_putmem T t addr data size ci)).
Definition sbefifo_pba (t : nat) : mem (D := chips (sbes D E)) :=
  Mem (Some (fun addr data size _ ci => sbefifo_op_getmem_pba T t addr data size ci))
      (Some (fun addr data size _ ci => sbefifo_op_putmem_pba T t addr data size ci)).
End Ocmbs.
