(* ===== verification/AccessTheorems.v ===== *)
(** * libpdbg: what the entry points reach

    The entry points for memory and memory buffers, down to the command that the SBE is sent, and
    the order in which a traversal visits the tree. *)

From S2P Require Import Prelude CMem SbeCore SbeCoreFacts SbeCmds SbeDataCmds SbeCmdFacts SbeSpec SbeDataSpec SbeMemory SbeWitness SbeTheorems.
From S2P Require Import Target TargetFacts TargetRelease Pib Adu Ram Thread Chip ChipFacts ChipCore ChipWitness SbeBack SbeBackFacts SbeBackOps SbeBackTheorems Access.

(** ** Traversal *)

Section Traverse.
Context {D : Type} {Hw : Hardware D} (T : dtree) (HL : linked T) (fuel : nat).
Context (height : nat -> nat) (Hheight : forall t c, c ∈ child_targets T t -> (height c < height t)%nat).
Context (Hwidth : forall t, (length (child_targets T t) < fuel)%nat).

(** A target, then everything below its children in order *)
Fixpoint preorder (depth : nat) (t : nat) : list nat :=
  match depth with O => [] | S depth' => t :: flat_map (preorder depth') (child_targets T t) end.

Lemma run_all_app (body : nat -> M (tgt D) unit) l l' w : TargetRelease.run_all body (l ++ l') w = (TargetRelease.run_all body l;; TargetRelease.run_all body l') w.
Proof.
  revert w. induction l as [|x l IH]; intros w; [done|]. cbn [app TargetRelease.run_all]. unfold mbind, M_bind.
  destruct (body x w) as [[[]| |] w1]; [|done..]. rewrite IH. unfold mbind, M_bind. done.
Qed.

Lemma run_all_flat (body body' : nat -> M (tgt D) unit) (f : nat -> list nat) cs w :
  (forall c w, c ∈ cs -> body c w = TargetRelease.run_all body' (f c) w) -> TargetRelease.run_all body cs w = TargetRelease.run_all body' (flat_map f cs) w.
Proof.
  revert w. induction cs as [|c cs IH]; intros w Hb; [done|]. cbn [TargetRelease.run_all flat_map]. rewrite run_all_app. unfold mbind, M_bind.
  rewrite Hb by (left). destruct (TargetRelease.run_all body' (f c) w) as [[[]| |] w1]; [|done..]. apply IH. intros. apply Hb. by right.
Qed.

Lemma traverse_ok depth (func : nat -> M (tgt D) unit) t w : (height t < depth)%nat ->
  _pdbg_target_traverse T fuel depth func t w = TargetRelease.run_all func (preorder depth t) w.
Proof.
  revert t w. induction depth as [|depth IH]; intros t w Hd; [lia|]. cbn [_pdbg_target_traverse preorder TargetRelease.run_all]. unfold mbind, M_bind.
  destruct (func t w) as [[[]| |] w1]; [|done..]. rewrite (for_each_child_ok T HL fuel t) by auto. apply run_all_flat.
  intros c w' Hc. apply IH. specialize (Hheight t c Hc). lia.
Qed.

(** A traversal calls the function for a target and everything below it, parents before children
    and children in order, and stops at the first error. *)
Theorem traverse_preorder (func : nat -> M (tgt D) unit) t w : (height t < fuel)%nat ->
  pdbg_target_traverse T fuel func (Some t) w = TargetRelease.run_all func (preorder fuel t) w.
Proof. apply traverse_ok. Qed.
End Traverse.

(** ** Memory and memory buffers *)

Section Entry.
Context {D E : Type} {K : Kernel D} {DO : DataOk} {KO : KernelOk D} {Al : Allocator} {Hw : Hardware (chips (sbes D E))}.
Context (T : dtree) (fuel : nat).
Abbreviation state := (tgt (chips (sbes D E))).

Definition enabled_and (t : nat) (pre : state -> sbefifo_context -> heap -> Prop) (s : state) (c : sbefifo_context) (h0 : heap) : Prop :=
  t_status s t = PDBG_TARGET_ENABLED /\ pre s c h0.

Lemma after_enabled {A B} sf t pre fin (k : unit -> M state A) (abs : sbefifo_context -> aview D -> (Z + B) * aview D) :
  does_on sf (enabled_and t pre) fin (k tt) abs -> does_on sf (enabled_and t pre) fin (require_enabled t ≫= k) abs.
Proof.
  apply does_after. intros h n s c h0 _ [Hs _]. unfold require_enabled, pdbg_target_status_of, get_st, mbind, M_bind. cbn. by rewrite Hs, bool_decide_eq_true_2.
Qed.

Lemma after_assert {A B} sf b pre fin (k : unit -> M state A) (abs : sbefifo_context -> aview D -> (Z + B) * aview D) :
  b = true -> does_on sf pre fin (k tt) abs -> does_on sf pre fin (c_assert b ≫= k) abs.
Proof. intros ->. apply does_after. done. Qed.

Lemma after_member {A B C} sf (op : C) pre fin (k : C -> M state A) (abs : sbefifo_context -> aview D -> (Z + B) * aview D) :
  does_on sf pre fin (k op) abs -> does_on sf pre fin (member (Some op) ≫= k) abs.
Proof. apply does_after. done. Qed.

(** Looking twice *)
Lemma bind_looks {A B} (look : M state A) (k : A -> M state B) a b w : look w = (Ret a, w) -> k a w = (Ret b, w) -> (look ≫= k) w = (Ret b, w).
Proof. intros H1 H2. unfold mbind, M_bind. by rewrite H1. Qed.

(** The memory of a processor, through the processor or through the PBA *)
Definition mem_of (pba : bool) (t : nat) : mem (D := chips (sbes D E)) := if pba then sbefifo_pba T t else sbefifo_mem T t.
Definition mem_flag (pba : bool) : Z := if pba then SBEFIFO_MEMORY_FLAG_PBA else SBEFIFO_MEMORY_FLAG_PROC.

(** C6. Memory through the SBE, from the entry point to the command. For a memory target that is
    enabled and an SBE that serves the memory [mem], [mem_read] puts exactly the bytes asked for
    into the buffer of the caller, whatever the alignment and the size of a block, and nothing
    else in memory changes but what the context keeps; this holds through the processor and
    through the PBA, cache-inhibited or not. [mem_write] sends the bytes unchanged and refuses
    an address or length that is not a multiple of the unit. A target that is not enabled, and
    a size of 4 GiB or more, are refused before anything happens. *)
Theorem memory_through_sbe pba t sf : class (node T t) = Some "mem"%string -> parent (node T t) = Some sf ->
  (forall (mem : Z -> Z) al addr size bs ci b o l,
     mem_align (op_flags (mem_flag pba) ci) = Some al -> 0 <= addr -> 0 <= size < 2 ^ 31 -> addr + size + (al - 1) < 2 ^ 64 ->
     (forall data, data_ok data -> serves mem (op_flags (mem_flag pba) ci) (win_start al addr) (win_len al addr size) data) ->
     0 <= o -> o + size <= Z.of_nat (length l) ->
     does_on (D := D) (E := E) sf (enabled_and t (buffer b l)) (filled b o l) (mem_read T (mem_of pba) t addr (Ptr b o) size bs ci)
       (fun c => abs_long c 30 (mem_get_req al addr size (op_flags (mem_flag pba) ci)) 0xA401
                   (mem_get_hint (op_flags (mem_flag pba) ci) al addr size) (fun _ => inr (region mem addr size)))) /\
  (forall addr (data : list Z) bs ci, 0 <= addr -> Z.of_nat (length data) + 24 < 2 ^ 32 ->
     does_on (D := D) (E := E) sf (enabled_and t any) same (mem_write T (mem_of pba) t addr (Some <$> data) (Z.of_nat (length data)) bs ci)
       (abs_mem_put addr (op_flags (mem_flag pba) ci) data)) /\
  (forall addr p data size bs ci h n (s : state), t_status s t <> PDBG_TARGET_ENABLED ->
     mem_read T (mem_of pba) t addr p size bs ci (World h n s) = (Fail (-1), World h n s) /\
     mem_write T (mem_of pba) t addr data size bs ci (World h n s) = (Fail (-1), World h n s)) /\
  (forall addr p data size bs ci h n (s : state), t_status s t = PDBG_TARGET_ENABLED -> 2 ^ 32 <= size ->
     mem_read T (mem_of pba) t addr p size bs ci (World h n s) = (Fail EINVAL, World h n s) /\
     mem_write T (mem_of pba) t addr data size bs ci (World h n s) = (Fail EINVAL, World h n s)).
Proof.
  intros Hc Hsf. assert (pdbg_target_is_class T t "mem" = true) as Hm by (unfold pdbg_target_is_class; by rewrite Hc, bool_decide_eq_true_2).
  split_and!; unfold mem_read, mem_write.
  - intros. apply after_assert, after_enabled; [done|]. destruct pba; apply after_member; (eapply does_on_pre; [intros ? ? ? [_ Hp]; exact Hp|]); by apply getmem_does.
  - intros. apply after_assert, after_enabled; [done|]. destruct pba; apply after_member; (eapply does_on_pre; [intros ? ? ? [_ Hp]; exact Hp|]); by apply putmem_does.
  - intros. rewrite Hm. unfold c_assert, require_enabled, pdbg_target_status_of, get_st, mbind, M_bind. cbn. by rewrite bool_decide_eq_false_2.
  - intros addr p data size bs ci h n s Hs Hz. rewrite Hm. unfold c_assert, require_enabled, pdbg_target_status_of, get_st, mbind, M_bind. cbn. rewrite Hs, bool_decide_eq_true_2 by done. cbn.
    destruct pba; cbn; by eapply memory_size_refused.
Qed.

(** ** Memory buffers *)

(** The descriptions of the two register commands, which POWER9 does not have *)
Definition abs_ocmb_get (inst addr : Z) (c : sbefifo_context) (a : aview D) : (Z + Z) * aview D :=
  if proc c =? SBEFIFO_PROC_P9 then (inl ENOSYS, a) else
  abs_short c (msg_bytes ([5; 0xA503; hw_target_word SBEFIFO_TARGET_TYPE_OCMB inst] ++ u64_words addr)) 0xA503 8 (dec_len 8 be_val) a.
Definition abs_ocmb_put (inst addr value : Z) (c : sbefifo_context) (a : aview D) : (Z + unit) * aview D :=
  if proc c =? SBEFIFO_PROC_P9 then (inl ENOSYS, a) else
  abs_short c (msg_bytes ([7; 0xA504; hw_target_word SBEFIFO_TARGET_TYPE_OCMB inst] ++ u64_words addr ++ u64_words value)) 0xA504 0 dec_unit a.

(** An access to [t] at [addr] is one to the memory buffer [o] at [addr']. *)
Definition goes_to (t : nat) (addr : Z) (o : nat) (addr' : Z) : Prop :=
  forall w : world state, ocmb_target T fuel t addr w = (Ret (o, addr'), w).

(** The memory buffer itself, and a target below an Odyssey chip *)
Lemma goes_to_self t addr : class (node T t) = Some "ocmb"%string -> (forall w : world state, is_child_of_ody_chip T fuel t w = (Ret false, w)) ->
  goes_to t addr t addr.
Proof.
  intros Hc Hn w. unfold ocmb_target, mbind, M_bind. rewrite Hn. unfold pdbg_target_is_class. by rewrite Hc, bool_decide_eq_true_2.
Qed.
Lemma goes_to_chip t addr o addr' : (forall w : world state, is_child_of_ody_chip T fuel t w = (Ret true, w)) ->
  (forall w : world state, get_class_target_addr T fuel t "ocmb" addr w = (Ret (o, addr'), w)) -> goes_to t addr o addr'.
Proof. intros Hy Hg w. unfold ocmb_target, mbind, M_bind. rewrite Hy, orb_true_r. cbn. apply Hg. Qed.

Lemma after_ocmb {A B} sf t o addr addr' pre fin (k : nat * Z -> M state A) (abs : sbefifo_context -> aview D -> (Z + B) * aview D) :
  goes_to t addr o addr' -> does_on sf pre fin (k (o, addr')) abs -> does_on sf pre fin (ocmb_target T fuel t addr ≫= k) abs.
Proof. intros H. apply does_after. intros. apply H. Qed.

(** The memory buffer [o] is behind the SBE [sf]. *)
Inductive buffer_of (o sf : nat) (index : Z) : Prop :=
| buffer_of_intro l pib : ancestry T true o (o :: l) -> (length (o :: l) < fuel)%nat -> nearest T "pib" l = Some pib -> sbe_of T fuel pib sf ->
    index = first_index T (o :: l) -> buffer_of o sf index.

(** Registers of memory buffers. A register of an Explorer chip is accessed by the register
    command of the SBE of its processor, with the number of the chip; a register of an Odyssey
    chip by the SCOM command of the SBE of the chip; and one of a target on an Odyssey chip
    through the chip, at the address that the target is found at. *)
Theorem ocmb_registers t addr o addr' sf : goes_to t addr o addr' ->
  (is_ody_ocmb_chip T o = false -> forall index, buffer_of o sf index ->
     does_on (D := D) (E := E) sf (enabled_and o any) same (ocmb_getscom T fuel (sbefifo_ocmb T fuel) t addr)
       (abs_ocmb_get (Z.land (fapi_pos (node T o)) 0xf) addr') /\
     forall value, does_on (D := D) (E := E) sf (enabled_and o any) same (ocmb_putscom T fuel (sbefifo_ocmb T fuel) t addr value)
       (abs_ocmb_put (Z.land index 0xff) addr' value)) /\
  (is_ody_ocmb_chip T o = true -> (forall w : world state, get_backend_target T fuel "sbefifo-ody" o w = (Ret sf, w)) ->
     does_on (D := D) (E := E) sf (enabled_and o any) same (ocmb_getscom T fuel (sbefifo_ocmb T fuel) t addr) (abs_scom_get addr') /\
     forall value, does_on (D := D) (E := E) sf (enabled_and o any) same (ocmb_putscom T fuel (sbefifo_ocmb T fuel) t addr value)
       (abs_scom_put addr' value)).
Proof.
  intros Hg. pose proof (data_commands_refine (D := D)) as (_ & _ & _ & Hget & Hput). split.
  - intros Ho index [l pib Ha Hl Hn Hs ->]. cbn [length] in Hl.
    split; intros; unfold ocmb_getscom, ocmb_putscom; apply (after_ocmb sf t o addr addr'); try done; apply after_enabled, after_member;
      unfold sbefifo_ocmb_getscom, sbefifo_ocmb_putscom, ocmb_to_sbefifo; rewrite Ho.
    + eapply does_after; [intros; apply (bind_looks _ _ pib); [by apply (require_ok T fuel "pib" o l pib); [|lia|]|by apply pib_to_sbefifo_ok]|].
      eapply does_on_pre; [|apply on_sbe_pure, Hget]. done.
    + eapply does_after; [intros; apply (bind_looks _ _ pib); [by apply (require_ok T fuel "pib" o l pib); [|lia|]|by apply pib_to_sbefifo_ok]|].
      eapply does_after; [intros; by apply (index_ok T fuel o (o :: l))|]. eapply does_on_pre; [|apply on_sbe_pure, Hput]. done.
  - intros Ho Hb. split; intros; unfold ocmb_getscom, ocmb_putscom; apply (after_ocmb sf t o addr addr'); try done; apply after_enabled, after_member;
      unfold sbefifo_ocmb_getscom, sbefifo_ocmb_putscom, ody_ocmb_to_sbefifo; rewrite Ho; (eapply does_after; [intros; apply Hb|]);
      (eapply does_on_pre; [|apply on_sbe_pure; [apply scom_get_refines || apply scom_put_refines]]); done.
Qed.
End Entry.

(** ** The two processors again *)

#[local] Existing Instance always_alloc.
#[local] Instance still_hw : Hardware (chips (sbes unit unit)) := {
  hw_probe t d := (d, 0);
  hw_release t d := d;
  hw_read t a d := (d, inr 0);
  hw_write t a v d := (d, 0)
}.

Section MemWitness.
#[local] Instance mem_kernel : Kernel unit := fixed_kernel served_reply.

Lemma memory_through_sbe_witness :
  does_on (E := unit) 2 (enabled_and 6 (buffer 0 user_buffer)) (filled 0 1 user_buffer)
    (mem_read sbe_tree (mem_of sbe_tree false) 6 0x1003 (Ptr 0 1) 6 0 false)
    (fun c => abs_long c 30 (mem_get_req 8 0x1003 6 1) 0xA401 (mem_get_hint 1 8 0x1003 6) (fun _ => inr (region byte_at 0x1003 6))) /\
  w_heap (mem_read sbe_tree (mem_of (E := unit) sbe_tree false) 6 0x1003 (Ptr 0 1) 6 0 false (World {[0%nat := user_buffer]} 1 sbe_state)).2 =
    {[0%nat := filled_buffer]}.
Proof.
  split; [|vm_compute; reflexivity].
  refine (proj1 (memory_through_sbe (KO := served_kernel_ok) sbe_tree false 6 2 eq_refl eq_refl) byte_at 8 0x1003 6 0 false 0%nat 1 user_buffer
           eq_refl _ _ _ _ _ _); try (cbn; lia). exact (fun data H => H).
Defined.
End MemWitness.

(** An Explorer chip with the position 19 behind the second processor, where it is number 3 *)
Definition ocmb_node (t : nat) : pdbg_target :=
  match t with
  | 7%nat => Node true (Some "ocmb"%string) None true ReleaseHw 3 (Some 3%nat) [] None (Some 0%Z) ATTR_TYPE_OCMB_CHIP 0x60d2 19 None false false
  | _ => sbe_node t
  end.
Definition ocmb_tree : dtree := Dtree ocmb_node 0 (target_classes sbe_tree) false.

Lemma ocmb_tree_buffer : buffer_of ocmb_tree 10 7 2 3.
Proof.
  apply (buffer_of_intro _ _ _ _ _ [3; 2; 0]%nat 3); [|cbn; lia|reflexivity| |reflexivity].
  - do 3 (eapply anc_up; [reflexivity|]). by apply anc_top.
  - apply (sbe_of_intro _ _ _ _ [3; 2; 0]%nat sbe_line [1; 2]%nat); [|cbn; lia|done| | |cbn; lia|reflexivity].
    + do 2 (eapply anc_up; [reflexivity|]). by apply anc_top.
    + apply (bool_decide_eq_true_1 _). reflexivity.
    + repeat constructor; try (cbn; lia); (eapply anc_up; [reflexivity|]; by apply anc_top).
Defined.

Definition ocmb_reply : list Z := frame_reply 0xA503 [0; 0; 0; 0; 0; 0; 1; 2] 0 [].
Lemma ocmb_kernel_ok : KernelOk unit (K := fixed_kernel ocmb_reply) (DO := any_data).
Proof. solve_kernel. Qed.

Section OcmbWitness.
#[local] Instance ocmb_kernel : Kernel unit := fixed_kernel ocmb_reply.

Lemma ocmb_registers_witness :
  does_on (E := unit) 2 (enabled_and 7 any) same (ocmb_getscom ocmb_tree 10 (sbefifo_ocmb ocmb_tree 10) 7 0x8011) (abs_ocmb_get 3 0x8011) /\
  (ocmb_getscom ocmb_tree 10 (sbefifo_ocmb (E := unit) ocmb_tree 10) 7 0x8011 (World ∅ 0 sbe_state)).1 = Ret 0x102.
Proof.
  split; [|vm_compute; reflexivity].
  exact (proj1 (proj1 (ocmb_registers (KO := ocmb_kernel_ok) ocmb_tree 10 7 0x8011 7 0x8011 2
    (goes_to_self ocmb_tree 10 7 0x8011 eq_refl (fun w => eq_refl))) eq_refl 3 ocmb_tree_buffer)).
Defined.
End OcmbWitness.
