(* ===== verification/Dtb.v ===== *)
(** * libpdbg: the choice of the device trees

    Models libpdbg/dtb.c: which back end is used, which processor is assumed, and which flattened
    trees describe the system and the back end. The files, the environment variables and the
    mapping of files are the record [surroundings]. *)

From Stdlib Require Import Ascii String.
From S2P Require Import Prelude CMem SbeBack Sprs.

Inductive pdbg_backend :=
| PDBG_DEFAULT_BACKEND
| PDBG_BACKEND_FSI
| PDBG_BACKEND_I2C
| PDBG_BACKEND_KERNEL
| PDBG_BACKEND_FAKE
| PDBG_BACKEND_HOST
| PDBG_BACKEND_CRONUS
| PDBG_BACKEND_SBEFIFO.

#[export] Instance pdbg_backend_eq_dec : EqDecision pdbg_backend.
Proof. solve_decision. Defined.
#[export] Instance pdbg_proc_eq_dec : EqDecision pdbg_proc.
Proof. solve_decision. Defined.

Definition CHIP_ID_P8 : Z := 0xea.
Definition CHIP_ID_P8P : Z := 0xd3.
Definition CHIP_ID_P9 : Z := 0xd1.
Definition CHIP_ID_P9P : Z := 0xd9.
Definition CHIP_ID_P10 : Z := 0xda.

(** A flattened tree: one that is linked into the library, one of a file, or one of the caller *)
Inductive fdt :=
| Linked (name : string)
| Mapped (file : string)
| Given.

#[export] Instance fdt_eq_dec : EqDecision fdt.
Proof. solve_decision. Defined.

(** [struct pdbg_mfile]; [None] is NULL. *)
Record pdbg_mfile := Mfile {
  mf_fd : Z;
  mf_len : Z;
  mf_fdt : option fdt;
  mf_readonly : bool
}.

(** The variables of the file *)
Record dtb := Dtb {
  d_proc : pdbg_proc;
  d_backend : pdbg_backend;
  d_option : option string;               (* [pdbg_backend_option] *)
  d_backend_tree : pdbg_mfile;
  d_system_tree : pdbg_mfile
}.

(** What the code asks of its surroundings *)
Record surroundings := Surroundings {
  getenv : string -> option string;
  file_there : string -> bool;            (* [access(path, F_OK) == 0] *)
  fsi_path : bool;                        (* [kernel_get_fsi_path() != NULL] *)
  cfam_id : option Z;                     (* the number in the CFAM ID file *)
  model_text : option string;             (* the contents of /proc/device-tree/model *)
  cpuinfo : option (list string);         (* /proc/cpuinfo, as [fgets] gives it *)
  map_file : string -> option (Z * Z)     (* descriptor and length of a file that can be mapped *)
}.

Definition XSCOM_BASE_PATH : string := "/sys/kernel/debug/powerpc/scom".
Definition AMI_BMC : string := "/proc/ractrends/Helper/FwInfo".

(** ** Strings *)

(** The rest of [buffer] from [i] on starts with [substring]; [tolower] is applied to both. *)
Fixpoint same_start (buffer substring : string) : bool :=
  match substring, buffer with
  | EmptyString, _ => true
  | String c s', String b b' => if Ascii.eqb (lower_char b) (lower_char c) then same_start b' s' else false
  | String _ _, EmptyString => false
  end.

(** [for (i = 0; i <= bufferLen - substringLen; ++i)], [n] rounds *)
Fixpoint substring_from (n : nat) (buffer substring : string) : bool :=
  match n with
  | O => false
  | S n' =>
      if same_start buffer substring then true
      else match buffer with EmptyString => false | String _ b' => substring_from n' b' substring end
  end.

Definition contains_substring_ignoring_case (buffer substring : string) : bool :=
  if (String.length buffer <? String.length substring)%nat then false
  else substring_from (String.length buffer - String.length substring + 1) buffer substring.

(** [strncmp(s, p, strlen(p)) == 0] *)
Definition starts_with (p s : string) : bool := String.prefix p s.

(** The text after the first [c], [strchr(s, c)] without [c] itself; [None] is NULL *)
Fixpoint after_char (c : ascii) (s : string) : option string :=
  match s with
  | EmptyString => None
  | String a s' => if Ascii.eqb a c then Some s' else after_char c s'
  end.

Section Choice.
Context (env : surroundings).
Abbreviation m := (M dtb).

(** ** Finding out *)

Definition get_chipid : option Z := id ← cfam_id env; Some (Z.land (Z.shiftr id 4) 0xff).

(** The text and whether it is in a block of its own; a failure gives a string literal. *)
Definition get_p10_system_type : bool * string :=
  match model_text env with Some text => (true, text) | None => (false, ""%string) end.

(** [free(system_type)] *)
Definition free_system_type (t : bool * string) : m unit := if t.1 then mret tt else crash BadFree.

Definition default_backend : pdbg_backend :=
  let known :=
    match getenv env "PDBG_BACKEND_DRIVER" with
    | None => None
    | Some tmp =>
        if String.eqb tmp "fsi" then Some PDBG_BACKEND_FSI
        else if String.eqb tmp "i2c" then Some PDBG_BACKEND_I2C
        else if String.eqb tmp "kernel" then Some PDBG_BACKEND_KERNEL
        else if String.eqb tmp "fake" then Some PDBG_BACKEND_FAKE
        else if String.eqb tmp "host" then Some PDBG_BACKEND_HOST
        else if String.eqb tmp "cronus" then Some PDBG_BACKEND_CRONUS
        else if String.eqb tmp "sbefifo" then Some PDBG_BACKEND_SBEFIFO
        else None
    end in
  match known with
  | Some b => b
  | None =>
      if file_there env XSCOM_BASE_PATH then PDBG_BACKEND_HOST
      else if file_there env AMI_BMC then PDBG_BACKEND_I2C
      else if fsi_path env then
        match get_chipid with
        | Some chip_id => if chip_id =? CHIP_ID_P10 then PDBG_BACKEND_SBEFIFO else PDBG_BACKEND_KERNEL
        | None => PDBG_BACKEND_KERNEL
        end
      else PDBG_BACKEND_FAKE
  end.

(** ** Setting the variables *)

Definition set_proc (p : pdbg_proc) : m unit :=
  d ← get_st; put_st (Dtb p (d_backend d) (d_option d) (d_backend_tree d) (d_system_tree d)).
Definition set_backend (b : pdbg_backend) : m unit :=
  d ← get_st; put_st (Dtb (d_proc d) b (d_option d) (d_backend_tree d) (d_system_tree d)).
Definition set_backend_tree (f : pdbg_mfile) : m unit :=
  d ← get_st; put_st (Dtb (d_proc d) (d_backend d) (d_option d) f (d_system_tree d)).
Definition set_system_tree (f : pdbg_mfile) : m unit :=
  d ← get_st; put_st (Dtb (d_proc d) (d_backend d) (d_option d) (d_backend_tree d) f).

Definition with_fdt (f : pdbg_mfile) (t : option fdt) : pdbg_mfile := Mfile (mf_fd f) (mf_len f) t (mf_readonly f).

(** [if (!dtb->backend.fdt) dtb->backend.fdt = t;], and the same for the system *)
Definition default_backend_tree (t : fdt) : m unit :=
  d ← get_st;
  match mf_fdt (d_backend_tree d) with
  | Some _ => mret tt
  | None => set_backend_tree (with_fdt (d_backend_tree d) (Some t))
  end.
Definition default_system_tree (t : fdt) : m unit :=
  d ← get_st;
  match mf_fdt (d_system_tree d) with
  | Some _ => mret tt
  | None => set_system_tree (with_fdt (d_system_tree d) (Some t))
  end.

Definition choose (p : pdbg_proc) (backend system : string) : m unit :=
  set_proc p;; default_backend_tree (Linked backend);; default_system_tree (Linked system).

(** ** The host *)

(** The processor that a line of /proc/cpuinfo names, from the text after the colon *)
Definition cpu_choice (pos : string) : m unit :=
  if starts_with "POWER8" pos then choose PDBG_PROC_P8 "p8-host" "p8"
  else if starts_with "POWER9" pos then choose PDBG_PROC_P9 "p9-host" "p9"
  else if starts_with "POWER10" pos then choose PDBG_PROC_P10 "p10-host" "p10"
  else mret tt.

(** The text after the colon and the character that follows it *)
Definition cpu_text (line : string) : option string :=
  match after_char ":" line with
  | None => None
  | Some EmptyString => None
  | Some (String _ pos) => Some pos
  end.

Fixpoint cpu_line (lines : list string) : option string :=
  match lines with
  | [] => None
  | line :: lines' => if starts_with "cpu" line then Some line else cpu_line lines'
  end.

Definition ppc_target : m unit :=
  d ← get_st;
  match d_option d with
  | Some o =>
      if String.eqb o "p8" then choose PDBG_PROC_P8 "p8-host" "p8"
      else if String.eqb o "p9" then choose PDBG_PROC_P9 "p9-host" "p9"
      else if String.eqb o "p10" then choose PDBG_PROC_P10 "p10-host" "p10"
      else mret tt
  | None =>
      match cpuinfo env with
      | None => mret tt
      | Some lines =>
          match cpu_line lines with
          | None => mret tt
          | Some line => match cpu_text line with None => mret tt | Some pos => cpu_choice pos end
          end
      end
  end.

(** ** The BMC *)

(** The tree of a POWER10 back end depends on the model. [base] is "bmc-kernel" or "bmc-sbefifo". *)
Definition model_tree (base system_type : string) : string :=
  if contains_substring_ignoring_case system_type "everest" || contains_substring_ignoring_case system_type "fuji"
  then base ++ "-everest"
  else if contains_substring_ignoring_case system_type "rainier" || contains_substring_ignoring_case system_type "blueridge"
  then base ++ "-rainier"
  else if contains_substring_ignoring_case system_type "balcones" then base ++ "-balcones"
  else base.

Definition choose_p10 (base : string) : m unit :=
  set_proc PDBG_PROC_P10;;
  d ← get_st;
  (match mf_fdt (d_backend_tree d) with
   | Some _ => mret tt
   | None =>
       let system_type := get_p10_system_type in
       set_backend_tree (with_fdt (d_backend_tree d) (Some (Linked (model_tree base system_type.2))));;
       free_system_type system_type
   end);;
  default_system_tree (Linked "p10").

Definition bmc_target : m unit :=
  d ← get_st;
  match d_option d with
  | Some o =>
      if String.eqb o "p8" then choose PDBG_PROC_P8 "p8-kernel" "p8"
      else if String.eqb o "p9" then choose PDBG_PROC_P9 "bmc-kernel" "p9"
      else if String.eqb o "p10" then choose_p10 "bmc-kernel"
      else mret tt
  | None =>
      match get_chipid with
      | None => mret tt
      | Some chip_id =>
          if chip_id =? CHIP_ID_P10 then choose_p10 "bmc-kernel"
          else if (chip_id =? CHIP_ID_P9) || (chip_id =? CHIP_ID_P9P) then choose PDBG_PROC_P9 "bmc-kernel" "p9"
          else if (chip_id =? CHIP_ID_P8) || (chip_id =? CHIP_ID_P8P) then choose PDBG_PROC_P8 "p8-kernel" "p8"
          else mret tt
      end
  end.

Definition sbefifo_target : m unit :=
  d ← get_st;
  match d_option d with
  | Some o =>
      if String.eqb o "p9" then choose PDBG_PROC_P9 "bmc-sbefifo" "p9"
      else if String.eqb o "p10" then choose_p10 "bmc-sbefifo"
      else mret tt
  | None =>
      match get_chipid with
      | None => mret tt
      | Some chip_id =>
          if chip_id =? CHIP_ID_P10 then choose_p10 "bmc-sbefifo"
          else if (chip_id =? CHIP_ID_P9) || (chip_id =? CHIP_ID_P9P) then choose PDBG_PROC_P9 "bmc-sbefifo" "p9"
          else if (chip_id =? CHIP_ID_P8) || (chip_id =? CHIP_ID_P8P) then set_proc PDBG_PROC_P8
          else mret tt
      end
  end.

(** ** The choice *)

Definition mmap_dtb (file : string) (readonly : bool) : pdbg_mfile :=
  match map_file env file with
  | Some (fd, len) => Mfile fd len (Some (Mapped file)) readonly
  | None => Mfile (-1) (-1) None false
  end.

(** [root] tells whether there is a tree already. *)
Definition pdbg_set_backend (root : bool) (backend : pdbg_backend) (option : option string) : m bool :=
  if root then mret false else
  d ← get_st;
  put_st (Dtb (d_proc d) backend option (d_backend_tree d) (d_system_tree d));; mret true.
Definition pdbg_get_backend : m pdbg_backend := d ← get_st; mret (d_backend d).
Definition pdbg_get_backend_option : m (option string) := d ← get_st; mret (d_option d).
Definition pdbg_get_proc : m pdbg_proc := d ← get_st; mret (d_proc d).

Definition set_pdbg_proc : m unit :=
  match getenv env "PDBG_PROC" with
  | None => mret tt
  | Some proc =>
      if String.eqb proc "p8" then set_proc PDBG_PROC_P8
      else if String.eqb proc "p9" then set_proc PDBG_PROC_P9
      else mret tt
  end.

Definition fake_trees : m unit :=
  default_system_tree (Linked "fake");; default_backend_tree (Linked "fake-backend").

(** The arms of the switch: NULL is returned ([false]) when an option is missing. *)
Definition switch_backend : m bool :=
  d ← get_st;
  match d_backend d with
  | PDBG_BACKEND_HOST => ppc_target;; mret true
  | PDBG_BACKEND_I2C => choose PDBG_PROC_P8 "p8-i2c" "p8";; mret true
  | PDBG_BACKEND_KERNEL => bmc_target;; mret true
  | PDBG_BACKEND_FSI =>
      match d_option d with
      | None => mret false
      | Some o =>
          (if String.eqb o "p8" then choose PDBG_PROC_P8 "p8-fsi" "p8"
           else if String.eqb o "p9w" then choose PDBG_PROC_P9 "p9w-fsi" "p9"
           else if String.eqb o "p9r" then choose PDBG_PROC_P9 "p9r-fsi" "p9"
           else if String.eqb o "p9z" then choose PDBG_PROC_P9 "p9z-fsi" "p9"
           else mret tt);; mret true
      end
  | PDBG_BACKEND_CRONUS =>
      match d_option d with
      | None => mret false
      | Some o =>
          (if starts_with "p8" o then choose PDBG_PROC_P8 "p8-cronus" "p8"
           else if starts_with "p9" o then choose PDBG_PROC_P9 "cronus" "p9"
           else if starts_with "p10" o then choose PDBG_PROC_P10 "cronus" "p10"
           else mret tt);; mret true
      end
  | PDBG_BACKEND_SBEFIFO => sbefifo_target;; mret true
  | PDBG_DEFAULT_BACKEND | PDBG_BACKEND_FAKE => fake_trees;; mret true
  end.

(** [fdt = getenv(var); if (fdt) mmap_dtb(fdt, false, ...);] *)
Definition override_backend : m unit :=
  match getenv env "PDBG_BACKEND_DTB" with None => mret tt | Some file => set_backend_tree (mmap_dtb file false) end.
Definition override_system : m unit :=
  match getenv env "PDBG_DTB" with None => mret tt | Some file => set_system_tree (mmap_dtb file false) end.

Definition pdbg_default_dtb (system_fdt : option fdt) : m bool :=
  d ← get_st;
  set_backend_tree (with_fdt (d_backend_tree d) None);;
  set_system_tree (with_fdt (d_system_tree d) system_fdt);;
  (if bool_decide (d_backend d = PDBG_DEFAULT_BACKEND) then set_backend default_backend else mret tt);;
  override_backend;;
  override_system;;
  d ← get_st;
  if bool_decide (is_Some (mf_fdt (d_backend_tree d))) && bool_decide (is_Some (mf_fdt (d_system_tree d)))
  then set_pdbg_proc;; mret true
  else switch_backend.

Definition pdbg_fdt_is_readonly (f : fdt) : m bool :=
  d ← get_st;
  mret (if bool_decide (mf_fdt (d_system_tree d) = Some f) then mf_readonly (d_system_tree d)
        else if bool_decide (mf_fdt (d_backend_tree d) = Some f) then mf_readonly (d_backend_tree d)
        else true).

(** The tree that is unmapped, its length, and the descriptor that is closed *)
Definition close_dtb (mfile : pdbg_mfile) : list (fdt * Z * Z) :=
  match mf_fdt mfile with
  | Some t => if negb (mf_fd mfile =? -1) && negb (mf_len mfile =? -1) then [(t, mf_len mfile, mf_fd mfile)] else []
  | None => []
  end.

Definition pdbg_close_targets : m (list (fdt * Z * Z)) :=
  d ← get_st; mret (close_dtb (d_backend_tree d) ++ close_dtb (d_system_tree d)).
End Choice.

(** The variables as the program starts *)
Definition initial_dtb : dtb :=
  Dtb PDBG_PROC_UNKNOWN PDBG_DEFAULT_BACKEND None (Mfile (-1) (-1) None true) (Mfile (-1) (-1) None true).
