(* ===== verification/DtbTheorems.v ===== *)
(** * libpdbg: the trees that are chosen fit the processor and the back end *)

From Stdlib Require Import Ascii String.
From S2P Require Import Prelude CMem SbeBack Sprs Dtb.

#[local] Arguments String.append : simpl nomatch.

(** ** Searching a string *)

Lemma same_start_spec b s : same_start b s = true <-> exists suf, lower b = (lower s ++ suf)%string.
Proof.
  revert b. induction s as [|c s IH]; intros b; [split; [by exists (lower b)|by destruct b]|].
  destruct b as [|a b]; cbn; [split; [done|by intros [suf [=]]]|].
  destruct (Ascii.eqb_spec (lower_char a) (lower_char c)) as [->|Hne].
  - rewrite IH. split; intros [suf H]; exists suf; [by rewrite H|by injection H].
  - split; [done|]. intros [suf [= H _]]. by contradict Hne.
Qed.

Lemma length_lower s : String.length (lower s) = String.length s.
Proof. induction s; cbn; auto. Qed.

Lemma length_app_string a b : String.length (a ++ b) = (String.length a + String.length b)%nat.
Proof. induction a; cbn; congruence. Qed.

Lemma short_not_found n b s : (String.length b < String.length s)%nat -> substring_from n b s = false.
Proof.
  revert b. induction n as [|n IH]; intros b Hl; [done|]. cbn [substring_from].
  assert (same_start b s = false) as ->.
  { apply not_true_iff_false. rewrite same_start_spec. intros [suf H]. apply (f_equal String.length) in H.
    rewrite length_app_string, !length_lower in H. lia. }
  destruct b; [done|]. apply IH. cbn in Hl. lia.
Qed.

Lemma substring_from_spec n b s : (String.length b - String.length s < n)%nat -> (String.length s <= String.length b)%nat ->
  substring_from n b s = true <-> exists pre suf, lower b = (pre ++ lower s ++ suf)%string.
Proof.
  revert b. induction n as [|n IH]; intros b Hn Hl; [lia|]. cbn [substring_from]. destruct (same_start b s) eqn:E.
  - split; [|done]. intros _. apply same_start_spec in E as [suf E]. by exists ""%string, suf.
  - assert (~ exists suf, lower b = (lower s ++ suf)%string) as Hno by (rewrite <- same_start_spec; by rewrite E).
    destruct b as [|a b].
    + split; [done|]. intros ([|x pre] & suf & H); [|done]. contradict Hno. by exists suf.
    + cbn [String.length] in *. destruct (decide (String.length s <= String.length b)%nat) as [Hle|Hgt].
      * rewrite IH by lia. split.
        -- intros (pre & suf & H). exists (String (lower_char a) pre), suf. cbn. by rewrite H.
        -- intros ([|x pre] & suf & H); [contradict Hno; by exists suf|]. exists pre, suf. cbn in H. by injection H.
      * rewrite short_not_found by lia. split; [done|].
        intros ([|x pre] & suf & H); [contradict Hno; by exists suf|]. exfalso. apply (f_equal String.length) in H. cbn in H.
        rewrite !length_app_string, !length_lower in H. lia.
Qed.

(** A text is found exactly when it occurs somewhere, whatever the case of the letters. *)
Theorem substring_found b s :
  contains_substring_ignoring_case b s = true <-> exists pre suf, lower b = (pre ++ lower s ++ suf)%string.
Proof.
  unfold contains_substring_ignoring_case. destruct (Nat.ltb_spec (String.length b) (String.length s)) as [Hlt|Hge].
  - split; [done|]. intros (pre & suf & H). apply (f_equal String.length) in H. rewrite !length_app_string, !length_lower in H. lia.
  - apply substring_from_spec; lia.
Qed.

(** ** The trees *)

(** The tree of a system of each processor *)
Definition system_tree (p : pdbg_proc) : option string :=
  match p with
  | PDBG_PROC_P8 => Some "p8"%string
  | PDBG_PROC_P9 => Some "p9"%string
  | PDBG_PROC_P10 => Some "p10"%string
  | PDBG_PROC_UNKNOWN => None
  end.

(** The trees of the models of a POWER10 system *)
Definition model_trees (base : string) : list string := [base; (base ++ "-everest")%string; (base ++ "-rainier")%string; (base ++ "-balcones")%string].

(** The trees of a back end on a processor *)
Definition backend_trees (b : pdbg_backend) (p : pdbg_proc) : list string :=
  match b, p with
  | PDBG_BACKEND_HOST, PDBG_PROC_P8 => ["p8-host"]
  | PDBG_BACKEND_HOST, PDBG_PROC_P9 => ["p9-host"]
  | PDBG_BACKEND_HOST, PDBG_PROC_P10 => ["p10-host"]
  | PDBG_BACKEND_I2C, PDBG_PROC_P8 => ["p8-i2c"]
  | PDBG_BACKEND_KERNEL, PDBG_PROC_P8 => ["p8-kernel"]
  | PDBG_BACKEND_KERNEL, PDBG_PROC_P9 => ["bmc-kernel"]
  | PDBG_BACKEND_KERNEL, PDBG_PROC_P10 => model_trees "bmc-kernel"
  | PDBG_BACKEND_FSI, PDBG_PROC_P8 => ["p8-fsi"]
  | PDBG_BACKEND_FSI, PDBG_PROC_P9 => ["p9w-fsi"; "p9r-fsi"; "p9z-fsi"]
  | PDBG_BACKEND_CRONUS, PDBG_PROC_P8 => ["p8-cronus"]
  | PDBG_BACKEND_CRONUS, (PDBG_PROC_P9 | PDBG_PROC_P10) => ["cronus"]
  | PDBG_BACKEND_SBEFIFO, PDBG_PROC_P9 => ["bmc-sbefifo"]
  | PDBG_BACKEND_SBEFIFO, PDBG_PROC_P10 => model_trees "bmc-sbefifo"
  | PDBG_BACKEND_FAKE, _ => ["fake-backend"]
  | _, _ => []
  end%string.

Definition system_fits (b : pdbg_backend) (p : pdbg_proc) (n : string) : Prop :=
  if bool_decide (b = PDBG_BACKEND_FAKE) then n = "fake"%string else system_tree p = Some n.

(** The trees that are linked into the library fit the processor and the back end. *)
Definition fits (d : dtb) : Prop :=
  (forall n, mf_fdt (d_system_tree d) = Some (Linked n) -> system_fits (d_backend d) (d_proc d) n) /\
  (forall n, mf_fdt (d_backend_tree d) = Some (Linked n) -> n ∈ backend_trees (d_backend d) (d_proc d)).

(** No tree of the library has been chosen yet. *)
Definition unlinked (d : dtb) : Prop :=
  (forall n, mf_fdt (d_system_tree d) <> Some (Linked n)) /\ (forall n, mf_fdt (d_backend_tree d) <> Some (Linked n)).

(** [d'] has the tree of [d] where there was one, and [t] otherwise. *)
Definition keeps (f f' : pdbg_mfile) : Prop := is_Some (mf_fdt f) -> mf_fdt f' = mf_fdt f.

Definition settles (d : dtb) {A} (r : Z + A) (h : gmap nat (list mval)) (n : nat) (w : world dtb) : Prop :=
  (exists a, r = inr a) /\ exists d', w = World h n d' /\ fits d' /\ d_backend d' = d_backend d /\ d_option d' = d_option d /\
    keeps (d_system_tree d) (d_system_tree d') /\ keeps (d_backend_tree d) (d_backend_tree d').

Section Settle.
Context (env : surroundings) (h : gmap nat (list mval)) (n : nat).

Lemma fits_unlinked d : unlinked d -> fits d.
Proof. intros [Hs Hb]. split; intros m Hm; [by destruct (Hs m)|by destruct (Hb m)]. Qed.

Lemma unlinked_settles {A} (a : A) d : unlinked d -> settles d (inr a : Z + A) h n (World h n d).
Proof. intros Hd. split; [by eexists|]. exists d. split_and!; try done. by apply fits_unlinked. Qed.

Lemma nothing_settles d : unlinked d -> wp (mret tt) (World h n d) (fun r w => settles d r h n w).
Proof. apply unlinked_settles. Qed.

Lemma choose_settles d p b s : unlinked d -> system_fits (d_backend d) p s -> b ∈ backend_trees (d_backend d) p ->
  wp (choose p b s) (World h n d) (fun r w => settles d r h n w).
Proof.
  intros [Us Ub] Hs Hb. unfold wp, choose, set_proc, default_backend_tree, default_system_tree, set_backend_tree, set_system_tree,
    get_st, put_st, mbind, M_bind, mret, M_ret. cbn.
  destruct d as [p0 bk o [bfd bl bt br] [sfd sl stt sr]]. cbn in *.
  destruct bt as [bt|], stt as [stt|]; cbn; (split; [by eexists|]); eexists; (split; [done|]); (split; [split; cbn|]); unfold keeps; cbn;
    try (intros m Hm; simplify_eq; try done; first [by destruct (Us m) | by destruct (Ub m)]); split_and!; try done; by intros [].
Qed.

Lemma model_tree_in base t : model_tree base t ∈ model_trees base.
Proof.
  unfold model_tree, model_trees. destruct (_ || _); [set_solver|]. destruct (_ || _); [set_solver|].
  destruct (contains_substring_ignoring_case t "balcones"); set_solver.
Qed.

Lemma choose_p10_settles d base : unlinked d -> is_Some (model_text env) -> d_backend d <> PDBG_BACKEND_FAKE ->
  model_trees base ⊆ backend_trees (d_backend d) PDBG_PROC_P10 ->
  wp (choose_p10 env base) (World h n d) (fun r w => settles d r h n w).
Proof.
  intros [Us Ub] [text Ht] Hf Hb. pose proof (model_tree_in base text) as Hm.
  unfold wp, choose_p10, set_proc, default_system_tree, set_backend_tree, set_system_tree, get_p10_system_type, free_system_type,
    get_st, put_st, mbind, M_bind, mret, M_ret. rewrite Ht. cbn.
  destruct d as [p0 bk o [bfd bl bt br] [sfd sl stt sr]]. cbn in *.
  assert (system_fits bk PDBG_PROC_P10 "p10") as Hs by (unfold system_fits; by rewrite bool_decide_eq_false_2).
  destruct bt as [bt|], stt as [stt|]; cbn; (split; [by eexists|]); eexists; (split; [done|]); (split; [split; cbn|]); unfold keeps; cbn;
    try (intros m Hm'; simplify_eq; try done; first [by destruct (Us m) | by destruct (Ub m) | by apply Hb]); split_and!; try done; by intros [].
Qed.

Lemma fake_settles d : unlinked d -> d_backend d = PDBG_BACKEND_FAKE -> wp fake_trees (World h n d) (fun r w => settles d r h n w).
Proof.
  intros [Us Ub] Hf. unfold wp, fake_trees, default_backend_tree, default_system_tree, set_backend_tree, set_system_tree,
    get_st, put_st, mbind, M_bind, mret, M_ret. cbn.
  destruct d as [p0 bk o [bfd bl bt br] [sfd sl stt sr]]. cbn in *. subst bk.
  destruct bt as [bt|], stt as [stt|]; cbn; (split; [by eexists|]); eexists; (split; [done|]); (split; [split; cbn|]); unfold keeps; cbn;
    try (intros m Hm; simplify_eq; first [done | by left | by destruct (Us m) | by destruct (Ub m)]); split_and!; try done; by intros [].
Qed.

Lemma settles_true d (op : M dtb unit) : wp op (World h n d) (fun r w => settles d r h n w) ->
  wp (op;; mret true) (World h n d) (fun r w => r = inr true /\ settles d r h n w).
Proof. intros H. apply wp_bind. eapply wp_mono; [exact H|]. intros r w ((a & ->) & Hd). split; [done|]. split; [by eexists|done]. Qed.

(** The trees of the library that a choice of the code names are of the back end. *)
Ltac settle Hd Hb := first
  [ by apply nothing_settles
  | apply choose_settles; [exact Hd|rewrite Hb; reflexivity|rewrite Hb; cbn; set_solver]
  | apply choose_p10_settles; [exact Hd|assumption|by rewrite Hb|rewrite Hb; done] ].

Lemma ppc_settles d : unlinked d -> d_backend d = PDBG_BACKEND_HOST -> wp (ppc_target env) (World h n d) (fun r w => settles d r h n w).
Proof.
  intros Hd Hb. unfold ppc_target. apply wp_bind, wp_get_st. destruct (d_option d) as [o|].
  - repeat (case_match; [settle Hd Hb|]). settle Hd Hb.
  - repeat (case_match; try settle Hd Hb). unfold cpu_choice. repeat (case_match; [settle Hd Hb|]). settle Hd Hb.
Qed.

Lemma bmc_settles d : unlinked d -> is_Some (model_text env) -> d_backend d = PDBG_BACKEND_KERNEL ->
  wp (bmc_target env) (World h n d) (fun r w => settles d r h n w).
Proof.
  intros Hd Hm Hb. unfold bmc_target. apply wp_bind, wp_get_st. destruct (d_option d) as [o|]; [|destruct (get_chipid env); [|settle Hd Hb]];
    repeat (case_match; [settle Hd Hb|]); settle Hd Hb.
Qed.

Lemma set_proc_settles d p : unlinked d -> wp (set_proc p) (World h n d) (fun r w => settles d r h n w).
Proof.
  intros [Us Ub]. split; [by eexists|]. eexists. split; [done|]. split; [|done]. apply fits_unlinked. by split.
Qed.

Lemma sbefifo_settles d : unlinked d -> is_Some (model_text env) -> d_backend d = PDBG_BACKEND_SBEFIFO ->
  wp (sbefifo_target env) (World h n d) (fun r w => settles d r h n w).
Proof.
  intros Hd Hm Hb. unfold sbefifo_target. apply wp_bind, wp_get_st. destruct (d_option d) as [o|].
  - repeat (case_match; [settle Hd Hb|]). settle Hd Hb.
  - destruct (get_chipid env); [|settle Hd Hb]. do 2 (case_match; [settle Hd Hb|]). case_match; [by apply set_proc_settles|settle Hd Hb].
Qed.

Lemma default_backend_known : default_backend env <> PDBG_DEFAULT_BACKEND.
Proof. unfold default_backend. repeat case_match; congruence. Qed.

(** The switch: it fails only when an option is missing. *)
Lemma switch_settles d : unlinked d -> is_Some (model_text env) -> d_backend d <> PDBG_DEFAULT_BACKEND ->
  wp (switch_backend env) (World h n d) (fun r w =>
    (r = inr true \/ r = inr false /\ d_option d = None /\ (d_backend d = PDBG_BACKEND_FSI \/ d_backend d = PDBG_BACKEND_CRONUS)) /\
    settles d r h n w).
Proof.
  intros Hd Hm Hk. unfold switch_backend. apply wp_bind, wp_get_st.
  assert (forall op : M dtb unit, wp op (World h n d) (fun r w => settles d r h n w) ->
    wp (op;; mret true) (World h n d) (fun r w => (r = inr true \/ r = inr false /\ d_option d = None /\
      (d_backend d = PDBG_BACKEND_FSI \/ d_backend d = PDBG_BACKEND_CRONUS)) /\ settles d r h n w)) as Ht.
  { intros op H. eapply wp_mono; [by apply settles_true|]. intros r w [-> ?]. by split; [left|]. }
  assert (settles d (inr false : Z + bool) h n (World h n d)) as Hn by by apply unlinked_settles.
  destruct (d_backend d) eqn:Hb; [done|..].
  - destruct (d_option d) as [o|] eqn:Ho; [apply Ht|apply wp_ret; auto 10]. repeat (case_match; [settle Hd Hb|]). settle Hd Hb.
  - apply Ht. settle Hd Hb.
  - by apply Ht, bmc_settles.
  - by apply Ht, fake_settles.
  - by apply Ht, ppc_settles.
  - destruct (d_option d) as [o|] eqn:Ho; [apply Ht|apply wp_ret; auto 10]. repeat (case_match; [settle Hd Hb|]). settle Hd Hb.
  - by apply Ht, sbefifo_settles.
Qed.
End Settle.

(** ** The theorem *)

Section Choice.
Context (env : surroundings).

Lemma wp_from {A} (m m' : M dtb A) w w' Q : m w = m' w' -> wp m' w' Q -> wp m w Q.
Proof. unfold wp. by intros ->. Qed.

(** The variables before a choice is made *)
Definition prepared (system_fdt : option fdt) (d : dtb) : dtb :=
  Dtb (d_proc d) (if bool_decide (d_backend d = PDBG_DEFAULT_BACKEND) then default_backend env else d_backend d) (d_option d)
    (match getenv env "PDBG_BACKEND_DTB" with None => with_fdt (d_backend_tree d) None | Some file => mmap_dtb env file false end)
    (match getenv env "PDBG_DTB" with None => with_fdt (d_system_tree d) system_fdt | Some file => mmap_dtb env file false end).

Lemma default_dtb_prepared system_fdt h n d :
  pdbg_default_dtb env system_fdt (World h n d) =
  (d1 ← get_st;
   if bool_decide (is_Some (mf_fdt (d_backend_tree d1))) && bool_decide (is_Some (mf_fdt (d_system_tree d1)))
   then set_pdbg_proc env;; mret true else switch_backend env) (World h n (prepared system_fdt d)).
Proof.
  unfold pdbg_default_dtb, prepared, set_backend_tree, set_system_tree, set_backend, override_backend, override_system.
  unfold get_st, put_st, mbind, M_bind, mret, M_ret. cbn.
  destruct (bool_decide _), (getenv env "PDBG_BACKEND_DTB"), (getenv env "PDBG_DTB"); reflexivity.
Qed.

Lemma mapped_unlinked file name : mf_fdt (mmap_dtb env file false) <> Some (Linked name).
Proof. unfold mmap_dtb. by destruct (map_file env file) as [[]|]. Qed.

Lemma prepared_unlinked system_fdt d : (forall name, system_fdt <> Some (Linked name)) -> unlinked (prepared system_fdt d).
Proof. intros H. unfold prepared. split; intros name; cbn; case_match; try apply mapped_unlinked; cbn; auto. Qed.

Lemma prepared_backend system_fdt d : d_backend (prepared system_fdt d) <> PDBG_DEFAULT_BACKEND /\
  (d_backend d <> PDBG_DEFAULT_BACKEND -> d_backend (prepared system_fdt d) = d_backend d).
Proof. cbn. case_bool_decide; [|done]. split; [apply default_backend_known|done]. Qed.

(** With both trees given, the processor can be set by a variable. *)
Lemma set_pdbg_proc_settles h n d : unlinked d -> wp (set_pdbg_proc env) (World h n d) (fun r w => settles d r h n w).
Proof.
  intros Hd. unfold set_pdbg_proc. case_match; [|by apply nothing_settles].
  do 2 (case_match; [by apply set_proc_settles|]). by apply nothing_settles.
Qed.

(** C16. The device trees that are chosen fit. Whatever the environment, the options and the
    earlier choices are, as long as the model of a system can be read, choosing the trees ends
    without a crash; it fails only when the FSI or Cronus back end has no option. Then a back end
    is known, a tree of the library is only used for a part that neither the caller nor an
    environment variable named, and it is the tree of the processor, or of the back end on that
    processor, that is used from then on. *)
Theorem chosen_trees_fit system_fdt h n d : is_Some (model_text env) -> (forall name, system_fdt <> Some (Linked name)) ->
  wp (pdbg_default_dtb env system_fdt) (World h n d) (fun r w => exists d', w = World h n d' /\
    (r = inr true \/ r = inr false /\ d_option d' = None /\ (d_backend d' = PDBG_BACKEND_FSI \/ d_backend d' = PDBG_BACKEND_CRONUS)) /\
    d_backend d' <> PDBG_DEFAULT_BACKEND /\ (d_backend d <> PDBG_DEFAULT_BACKEND -> d_backend d' = d_backend d) /\ d_option d' = d_option d /\
    fits d' /\
    (forall file, getenv env "PDBG_DTB" = Some file -> is_Some (map_file env file) -> mf_fdt (d_system_tree d') = Some (Mapped file)) /\
    (forall file, getenv env "PDBG_BACKEND_DTB" = Some file -> is_Some (map_file env file) -> mf_fdt (d_backend_tree d') = Some (Mapped file)) /\
    (getenv env "PDBG_DTB" = None -> is_Some system_fdt -> mf_fdt (d_system_tree d') = system_fdt)).
Proof.
  intros Hm Hsys. pose proof (prepared_unlinked system_fdt d Hsys) as Hu. destruct (prepared_backend system_fdt d) as [Hk Hb].
  eapply wp_from; [apply default_dtb_prepared|]. set (d1 := prepared system_fdt d) in *.
  assert (wp (d1 ← get_st; if bool_decide (is_Some (mf_fdt (d_backend_tree d1))) && bool_decide (is_Some (mf_fdt (d_system_tree d1)))
      then set_pdbg_proc env;; mret true else switch_backend env) (World h n d1) (fun r w =>
      (r = inr true \/ r = inr false /\ d_option d1 = None /\ (d_backend d1 = PDBG_BACKEND_FSI \/ d_backend d1 = PDBG_BACKEND_CRONUS)) /\
      settles d1 r h n w)) as H.
  { apply wp_bind, wp_get_st. destruct (_ && _); [|by apply switch_settles].
    eapply wp_mono; [by apply settles_true, set_pdbg_proc_settles|]. intros r w [-> ?]. by split; [left|]. }
  eapply wp_mono; [exact H|]. clear H. intros r w (Hr & _ & d' & -> & Hf & Eb & Eo & Ks & Kb). exists d'. rewrite Eb, Eo.
  split_and!; try done.
  - intros file Hg [[fd len] Hmap]. rewrite Ks; subst d1; unfold prepared; cbn; rewrite Hg; unfold mmap_dtb; by rewrite Hmap.
  - intros file Hg [[fd len] Hmap]. rewrite Kb; subst d1; unfold prepared; cbn; rewrite Hg; unfold mmap_dtb; by rewrite Hmap.
  - intros Hg Hs. rewrite Ks; subst d1; unfold prepared; cbn; by rewrite Hg.
Qed.
End Choice.

(** ** A BMC, and what goes wrong *)

Definition variables (l : list (string * string)) (name : string) : option string :=
  snd <$> (list_find (fun v => v.1 = name) l ≫= fun r => Some r.2).

(** The BMC of a POWER10 Rainier system whose files can be mapped *)
Definition p10_bmc (model : option string) (vars : list (string * string)) : surroundings :=
  Surroundings (variables vars) (fun _ => false) true (Some 0xc0020da5) model None (fun _ => Some (7, 4096)).

Definition rainier : surroundings := p10_bmc (Some "IBM,Rainier-4U"%string) [].

Lemma chosen_trees_fit_witness :
  wp (pdbg_default_dtb rainier None) (World ∅ 0 initial_dtb) (fun r w => exists d', w = World ∅ 0%nat d' /\
    d_backend d' <> PDBG_DEFAULT_BACKEND /\ fits d') /\
  (exists d', pdbg_default_dtb rainier None (World ∅ 0 initial_dtb) = (Ret true, World ∅ 0%nat d') /\
     d_proc d' = PDBG_PROC_P10 /\ d_backend d' = PDBG_BACKEND_SBEFIFO /\
     mf_fdt (d_backend_tree d') = Some (Linked "bmc-sbefifo-rainier") /\ mf_fdt (d_system_tree d') = Some (Linked "p10")).
Proof.
  split; [|eexists; split_and!; vm_compute; reflexivity].
  eapply wp_mono.
  - refine (chosen_trees_fit rainier None ∅ 0%nat initial_dtb _ _); [by eexists|done].
  - intros r w (d' & -> & _ & Hb & _ & _ & Hf & _). by exists d'.
Defined.

(** When the model of a POWER10 system cannot be read, the string literal that stands for it is
    freed. *)
Example unreadable_model_crashes :
  (pdbg_default_dtb (p10_bmc None []) None (World ∅ 0 initial_dtb)).1 = Crash BadFree.
Proof. vm_compute. reflexivity. Qed.

Definition both_overridden (proc : string) : surroundings :=
  p10_bmc None [("PDBG_DTB", "s.dtb"); ("PDBG_BACKEND_DTB", "b.dtb"); ("PDBG_PROC", proc)]%string.

(** The processor can be set for overridden trees, but POWER10 is not among the names. *)
Example p10_cannot_be_set :
  d_proc (w_st (pdbg_default_dtb (both_overridden "p9") None (World ∅ 0 initial_dtb)).2) = PDBG_PROC_P9 /\
  d_proc (w_st (pdbg_default_dtb (both_overridden "p10") None (World ∅ 0 initial_dtb)).2) = PDBG_PROC_UNKNOWN.
Proof. split; vm_compute; reflexivity. Qed.

(** A choice after one that mapped a file: the tree of the library that is chosen now, which lies in
    read-only memory, is reported as writable, and is unmapped at the end with the length of the
    file that was mapped before. *)
Example linked_tree_writable :
  let chosen := pdbg_default_dtb (p10_bmc None [("PDBG_DTB", "s.dtb"); ("PDBG_BACKEND_DTB", "b.dtb")]%string) None;; pdbg_default_dtb rainier None in
  ((chosen;; pdbg_fdt_is_readonly (Linked "p10")) (World ∅ 0 initial_dtb)).1 = Ret false /\
  exists len fd rest, ((chosen;; pdbg_close_targets) (World ∅ 0 initial_dtb)).1 = Ret ((Linked "bmc-sbefifo-rainier", len, fd) :: rest).
Proof. split; [vm_compute; reflexivity|]. do 3 eexists. vm_compute. reflexivity. Qed.
