(* ===== verification/Cfam.v ===== *)
(** * libpdbg: bridges between the buses

    Models libpdbg/cfam.c: SCOM access through the FSI2PIB engine of a CFAM, FSI access through
    the OPB bridge of a POWER8 processor, and the ports of a hub master. Next to the hardware the
    state keeps [chip_type] of each [struct fsi]. *)

From S2P Require Import Prelude CMem Target Pib Adu Fsi Dtb.

Definition FSI_DATA0_REG : Z := 0x0.
Definition FSI_DATA1_REG : Z := 0x1.
Definition FSI_CMD_REG : Z := 0x2.
Definition FSI_CMD_REG_WRITE : Z := PPC_BIT32 0.
Definition FSI_SET_PIB_RESET_REG : Z := 0x7.
Definition FSI_SET_PIB_RESET : Z := PPC_BIT32 0.

Definition PIB2OPB_REG_CMD : Z := 0x0.
Definition OPB_CMD_WRITE : Z := 0x80000000.
Definition OPB_CMD_READ : Z := 0x00000000.
Definition OPB_CMD_32BIT : Z := 0x60000000.
Definition PIB2OPB_REG_STAT : Z := 0x1.
Definition OPB_STAT_ANY_ERR : Z := 0x80000000.
Definition OPB_STAT_BUSY : Z := 0x00010000.
Definition OPB_STAT_READ_VALID : Z := 0x00020000.
Definition PIB2OPB_REG_RESET : Z := 0x4.
Definition OPB_ERR_XSCOM_ERR : Z := -1.
Definition OPB_ERR_BAD_OPB_ADDR : Z := -1.
Definition MFSI_OPB_MAX_TRIES : Z := 1200.

Inductive chip_type := CHIP_UNKNOWN | CHIP_P8 | CHIP_P8NV | CHIP_P9 | CHIP_P10.
#[export] Instance chip_type_eq_dec : EqDecision chip_type.
Proof. solve_decision. Defined.

Definition PPC_BITMASK32 (bs be : Z) : Z := Z.lor (PPC_BIT32 bs - PPC_BIT32 be) (PPC_BIT32 bs).

Definition get_chip_type (chip_id : Z) : chip_type :=
  let id := GETFIELD (PPC_BITMASK32 12 19) chip_id in
  if id =? CHIP_ID_P8 then CHIP_P8
  else if id =? CHIP_ID_P8P then CHIP_P8NV
  else if id =? CHIP_ID_P9 then CHIP_P9
  else if id =? CHIP_ID_P10 then CHIP_P10
  else CHIP_UNKNOWN.

Record fsis (D : Type) := Fsis { type_of : nat -> chip_type; fsi_dev : D }.
Arguments Fsis {D} _ _.
Arguments type_of {D} _ _.
Arguments fsi_dev {D} _.

Section Cfam.
Context {D : Type} {Hw : Hardware (fsis D)} (T : dtree) (fuel : nat).
Abbreviation m := (M (tgt (fsis D))).

(** ** SCOM through the FSI2PIB engine *)

Definition fsi2pib_getscom (pib : nat) (addr : Z) : m Z :=
  fsi_write T fuel pib FSI_CMD_REG (u32 addr);;
  result ← fsi_read T fuel pib FSI_DATA0_REG;
  let value := Z.shiftl result 32 in
  result ← fsi_read T fuel pib FSI_DATA1_REG;
  mret (Z.lor value result).

Definition fsi2pib_putscom (pib : nat) (addr value : Z) : m unit :=
  fsi_write T fuel pib FSI_DATA0_REG (Z.land (Z.shiftr value 32) 0xffffffff);;
  fsi_write T fuel pib FSI_DATA1_REG (Z.land value 0xffffffff);;
  fsi_write T fuel pib FSI_CMD_REG (u32 (Z.lor FSI_CMD_REG_WRITE addr)).

Definition fsi2pib_reset (t : nat) : m unit := fsi_write T fuel t FSI_SET_PIB_RESET_REG FSI_SET_PIB_RESET.

(** ** FSI through the OPB bridge *)

(** The loop of [opb_poll]: the status, which is read at most [retries + 1] times *)
Fixpoint opb_wait (n : nat) (opb : nat) (retries : Z) : m Z :=
  match n with
  | O => crash NoFuel
  | S n' =>
      r ← attempt (pib_read T fuel opb PIB2OPB_REG_STAT);
      match r with
      | inl _ => fail (-1)
      | inr sval =>
          let stat := u32 (Z.shiftr sval 32) in
          if negb (truthy (Z.land stat OPB_STAT_BUSY)) then mret sval else
          if retries =? 0 then fail (-1) else opb_wait n' opb (retries - 1)
      end
  end.

Definition opb_fuel : nat := Z.to_nat (MFSI_OPB_MAX_TRIES + 1).

(** [read_data] tells whether there is somewhere to put the word read. *)
Definition opb_poll (opb : nat) (read_data : bool) : m (option Z) :=
  sval ← opb_wait opb_fuel opb MFSI_OPB_MAX_TRIES;
  let stat := u32 (Z.shiftr sval 32) in
  if truthy (Z.land stat OPB_STAT_ANY_ERR) then
    attempt (pib_write T fuel opb PIB2OPB_REG_RESET (PPC_BIT 0));;
    attempt (pib_write T fuel opb PIB2OPB_REG_STAT (PPC_BIT 0));;
    fail (-1)
  else if read_data then
    if negb (truthy (Z.land stat OPB_STAT_READ_VALID)) then fail (-1) else mret (Some (Z.land sval 0xffffffff))
  else mret None.

(** The address of a word as the address of a byte *)
Definition opb_byte_addr (addr : Z) : Z := Z.lor (Z.land addr 0xffff00) (Z.shiftl (Z.land addr 0xff) 2).

(** [rc = pib_write(...); if (rc) return OPB_ERR_XSCOM_ERR;] *)
Definition opb_command (opb : nat) (opb_cmd : Z) : m unit :=
  r ← attempt (pib_write T fuel opb PIB2OPB_REG_CMD opb_cmd);
  match r with inl _ => fail OPB_ERR_XSCOM_ERR | inr _ => mret tt end.

Definition p8_opb_read (opb : nat) (addr : Z) : m Z :=
  if 0x00ffffff <? addr then fail OPB_ERR_BAD_OPB_ADDR else
  opb_command opb (Z.shiftl (Z.lor (Z.lor OPB_CMD_READ OPB_CMD_32BIT) (opb_byte_addr addr)) 32);;
  data ← opb_poll opb true;
  match data with Some data => mret data | None => crash Uninit end.

Definition p8_opb_write (opb : nat) (addr data : Z) : m unit :=
  if 0x00ffffff <? addr then fail OPB_ERR_BAD_OPB_ADDR else
  opb_command opb (Z.lor (Z.shiftl (Z.lor (Z.lor OPB_CMD_WRITE OPB_CMD_32BIT) (opb_byte_addr addr)) 32) data);;
  opb_poll opb false;;
  mret tt.

(** ** Hub masters *)

Definition set_chip_type (t : nat) (c : chip_type) : m unit :=
  s ← get_st;
  put_st (Tgt (t_status s) (Fsis (fun x => if Nat.eqb x t then c else type_of (t_dev s) x) (fsi_dev (t_dev s))) (t_trace s)).

(** [fsi->chip_type = get_chip_type(value); if (fsi->chip_type == CHIP_UNKNOWN) return -1;] *)
Definition keep_chip_type (t : nat) (value : Z) : m unit :=
  set_chip_type t (get_chip_type value);;
  if bool_decide (get_chip_type value = CHIP_UNKNOWN) then fail (-1) else mret tt.

Definition p8_hmfsi_read (fsi : nat) (addr : Z) : m Z := opb_read T fuel fsi addr.
Definition p8_hmfsi_write (fsi : nat) (addr data : Z) : m unit := opb_write T fuel fsi addr data.
Definition p8_hmfsi_probe (t : nat) : m unit :=
  value ← opb_read T fuel t 0xc09;
  keep_chip_type t value.

Definition cfam_hmfsi_read (fsi : nat) (addr : Z) : m Z :=
  parent_fsi ← require_target_parent T fuel (Some "fsi"%string) fsi false;
  r ← target_address T fsi;
  fsi_read T fuel parent_fsi (u32 (addr + r)).
Definition cfam_hmfsi_write (fsi : nat) (addr data : Z) : m unit :=
  parent_fsi ← require_target_parent T fuel (Some "fsi"%string) fsi false;
  r ← target_address T fsi;
  fsi_write T fuel parent_fsi (u32 (addr + r)) data.

(** [port_of] is the property "port"; a read of the control register that fails leaves the value
    as it is, which is indeterminate, and so is a shift by a negative number. *)
Context (port_of : nat -> option Z).

Definition cfam_hmfsi_probe (t : nat) : m unit :=
  match port_of t, parent (node T t) with
  | None, _ => crash AssertFailed
  | Some _, None => crash OutOfBounds
  | Some port, Some fsi_parent =>
      r ← attempt (fsi_read T fuel fsi_parent 0x3404);
      match r with
      | inl _ => crash Uninit
      | inr value =>
          if 31 <? port then crash Uninit else
          fsi_write T fuel fsi_parent 0x3404 (Z.lor value (Z.shiftl 1 (31 - port)));;
          value ← fsi_read T fuel t 0xc09;
          keep_chip_type t value
      end
  end.
End Cfam.
