(* ===== verification/CfamTheorems.v ===== *)
(** * libpdbg: access through the bridges

    What the FSI2PIB engine and the OPB bridge promise, and what access through them does. *)

From S2P Require Import Prelude CMem Target Pib TargetFacts Adu Fsi Dtb Cfam.

(** The FSI2PIB engine with its registers [at_] on the FSI bus [F]: two words of data, and a command
    register that moves them to a SCOM register or takes them from it. *)
Class Fsi2Pib (D : Type) {Hw : Hardware D} (F : nat) (at_ : Z -> Z) (scom : D -> Z -> Z) (latch : D -> Z) : Prop := {
  engine_range d : in_range 64 (latch d);
  engine_hi v d : in_range 32 v -> exists d', hw_write F (at_ FSI_DATA0_REG) v d = (d', 0) /\
    latch d' = v * 2 ^ 32 + latch d mod 2 ^ 32 /\ scom d' = scom d;
  engine_lo v d : in_range 32 v -> exists d', hw_write F (at_ FSI_DATA1_REG) v d = (d', 0) /\
    latch d' = latch d / 2 ^ 32 * 2 ^ 32 + v /\ scom d' = scom d;
  engine_read_hi d : exists d', hw_read F (at_ FSI_DATA0_REG) d = (d', inr (latch d / 2 ^ 32)) /\ latch d' = latch d /\ scom d' = scom d;
  engine_read_lo d : exists d', hw_read F (at_ FSI_DATA1_REG) d = (d', inr (latch d mod 2 ^ 32)) /\ latch d' = latch d /\ scom d' = scom d;
  engine_get a d : 0 <= a < 2 ^ 31 -> exists d', hw_write F (at_ FSI_CMD_REG) a d = (d', 0) /\ latch d' = scom d a /\ scom d' = scom d;
  engine_put a d : 0 <= a < 2 ^ 31 -> exists d', hw_write F (at_ FSI_CMD_REG) (2 ^ 31 + a) d = (d', 0) /\
    forall x, scom d' x = if x =? a then latch d else scom d x
}.

Lemma lor_below k a b : 0 <= k -> 0 <= a < 2 ^ k -> 0 <= b < 2 ^ k -> Z.lor a b < 2 ^ k.
Proof.
  intros Hk Ha Hb. assert (Z.lor a b = Z.lor a b mod 2 ^ k) as ->; [|apply Z.mod_pos_bound; lia].
  rewrite <- Z.land_ones, Z.land_lor_distr_l, !Z.land_ones by lia. by rewrite !Z.mod_small by lia.
Qed.

Lemma halves v : in_range 64 v -> Z.lor (Z.shiftl (v / 2 ^ 32) 32) (v mod 2 ^ 32) = v.
Proof.
  intros Hv. pose proof (Z.mod_pos_bound v (2 ^ 32)). rewrite lor_shiftl_add; [|lia|unfold in_range; lia].
  pose proof (Z.div_mod v (2 ^ 32)). lia.
Qed.

Lemma upper_half v : in_range 64 v -> Z.land (Z.shiftr v 32) 0xffffffff = v / 2 ^ 32.
Proof.
  intros Hv. change 0xffffffff with (Z.ones 32). rewrite Z.land_ones, Z.shiftr_div_pow2 by lia. apply Z.mod_small.
  unfold in_range in Hv. split; [apply Z.div_pos; lia|]. apply Z.div_lt_upper_bound; lia.
Qed.

Lemma lower_half v : Z.land v 0xffffffff = v mod 2 ^ 32.
Proof. change 0xffffffff with (Z.ones 32). by apply Z.land_ones. Qed.

Lemma write_command_word a : 0 <= a < 2 ^ 31 -> u32 (Z.lor FSI_CMD_REG_WRITE a) = 2 ^ 31 + a.
Proof.
  intros Ha. change FSI_CMD_REG_WRITE with (Z.shiftl 1 31). rewrite lor_shiftl_add by (lia || unfold in_range; lia).
  rewrite Z.mul_1_l. apply wrap_small. unfold in_range. lia.
Qed.

Lemma answers_app {D} {Hw : Hardware D} P a xs ys d d' : answers P a d (xs ++ ys) d' ->
  exists d1, answers P a d xs d1 /\ answers P a d1 ys d'.
Proof.
  revert d. induction xs as [|x xs IH]; intros d H; [exists d; split; [constructor|done]|].
  inversion H as [|? d1 ? ? ? E H1]; subst. destruct (IH d1 H1) as (d2 & ? & ?). exists d2. split; [by econstructor|done].
Qed.

Section Bridges.
Context {D : Type} {Hw : Hardware (fsis D)} (T : dtree) (fuel : nat).
Implicit Types (h : gmap nat (list mval)) (n : nat) (st : nat -> pdbg_target_status) (d : fsis D) (tr : list tevent).

(** The registers of [t] are on the bus [B] of the class [bus], register [a] at [f a]. *)
Record bus_at (bus : string) (t B : nat) (f : Z -> Z) : Prop := {
  at_bus a (w : world (tgt (fsis D))) : get_class_target_addr T fuel t bus a w = (Ret (B, f a), w);
  at_reads : can_read (node T B) = true;
  at_writes : can_write (node T B) = true
}.

Section Engine.
Context (pib F : nat) (f : Z -> Z) (Hat : bus_at "fsi" pib F f).

Lemma fsi_read_at a v h n st d d' tr : hw_read F (u32 (f a)) d = (d', inr v) ->
  fsi_read T fuel pib a (World h n (Tgt st d tr)) = (Ret v, World h n (Tgt st d' (tr ++ [EvRead F (u32 (f a))]))).
Proof.
  intros E. unfold fsi_read, require_op, mbind, M_bind. rewrite (at_bus _ _ _ _ Hat), (at_reads _ _ _ _ Hat). by apply read_step.
Qed.

Lemma fsi_write_at a v h n st d d' tr : hw_write F (u32 (f a)) v d = (d', 0) ->
  fsi_write T fuel pib a v (World h n (Tgt st d tr)) = (Ret tt, World h n (Tgt st d' (tr ++ [EvWrite F (u32 (f a)) v]))).
Proof.
  intros E. unfold fsi_write, require_op, mbind, M_bind. rewrite (at_bus _ _ _ _ Hat), (at_writes _ _ _ _ Hat). by apply write_step.
Qed.

(** C33. SCOM registers through a CFAM. Behind an FSI2PIB engine that moves its two data words to and
    from SCOM registers, a read gives the register at the address and changes none, and a write
    changes exactly that register to the value. *)
Theorem scom_through_fsi scom latch a h n st d tr : Fsi2Pib (fsis D) F (fun r => u32 (f r)) scom latch -> 0 <= a < 2 ^ 31 ->
  (exists d' tr', fsi2pib_getscom T fuel pib a (World h n (Tgt st d tr)) = (Ret (scom d a), World h n (Tgt st d' tr')) /\ scom d' = scom d) /\
  (forall v, in_range 64 v -> exists d' tr', fsi2pib_putscom T fuel pib a v (World h n (Tgt st d tr)) = (Ret tt, World h n (Tgt st d' tr')) /\
     forall x, scom d' x = if x =? a then v else scom d x).
Proof.
  intros He Ha. split.
  - destruct (engine_get a d Ha) as (d1 & E1 & L1 & S1). destruct (engine_read_hi d1) as (d2 & E2 & L2 & S2).
    destruct (engine_read_lo d2) as (d3 & E3 & L3 & S3). exists d3. eexists. split; [|congruence].
    unfold fsi2pib_getscom, mbind, M_bind. rewrite (wrap_small 32 a) by (unfold in_range; lia).
    rewrite (fsi_write_at _ _ _ _ _ _ _ _ E1), (fsi_read_at _ _ _ _ _ _ _ _ E2), (fsi_read_at _ _ _ _ _ _ _ _ E3).
    rewrite L2, L1. by rewrite halves by (rewrite <- L1; apply engine_range).
  - intros v Hv. assert (in_range 32 (v / 2 ^ 32)) as Hhi.
    { unfold in_range in *. split; [apply Z.div_pos; lia|apply Z.div_lt_upper_bound; lia]. }
    assert (in_range 32 (v mod 2 ^ 32)) as Hlo by (apply Z.mod_pos_bound; lia).
    destruct (engine_hi (v / 2 ^ 32) d Hhi) as (d1 & E1 & L1 & S1). destruct (engine_lo (v mod 2 ^ 32) d1 Hlo) as (d2 & E2 & L2 & S2).
    destruct (engine_put a d2 Ha) as (d3 & E3 & S3). exists d3. eexists. split.
    + unfold fsi2pib_putscom, mbind, M_bind. rewrite upper_half, lower_half, write_command_word by done.
      by rewrite (fsi_write_at _ _ _ _ _ _ _ _ E1), (fsi_write_at _ _ _ _ _ _ _ _ E2), (fsi_write_at _ _ _ _ _ _ _ _ E3).
    + intros x. rewrite S3, S2, S1. destruct (x =? a); [|done]. rewrite L2, L1.
      rewrite Z.div_add_l by lia. rewrite (Z.div_small (_ mod _)) by (apply Z.mod_pos_bound; lia). pose proof (Z.div_mod v (2 ^ 32)). lia.
Qed.
End Engine.

(** ** The OPB bridge *)

Definition opb_busy (sval : Z) : bool := Z.testbit sval 48.
Definition opb_error (sval : Z) : bool := Z.testbit sval 63.
Definition opb_valid (sval : Z) : bool := Z.testbit sval 49.

Lemma status_bit sval k : 0 <= k < 32 -> truthy (Z.land (u32 (Z.shiftr sval 32)) (2 ^ k)) = Z.testbit sval (32 + k).
Proof.
  intros Hk. rewrite truthy_land_bit by lia. unfold wrap. rewrite Z.mod_pow2_bits_low, Z.shiftr_spec by lia. f_equal. lia.
Qed.

Section Opb.
Context (opb P : nat) (f : Z -> Z) (Hat : bus_at "pib" opb P f).
Context (Hdirect : forall a, 0 <= a < 8 -> truthy (Z.land (f a) (PPC_BIT 0)) = false).

Lemma opb_pib_read a h n st d tr : 0 <= a < 8 -> st P = PDBG_TARGET_ENABLED ->
  pib_read T fuel opb a (World h n (Tgt st d tr)) = bus_read P (f a) (World h n (Tgt st d tr)).
Proof.
  intros Ha HP. unfold pib_read, mbind at 1, M_bind at 1. rewrite (at_bus _ _ _ _ Hat).
  unfold require_enabled, pdbg_target_status_of, get_st, require_op, pib_any_read. rewrite Hdirect by done. rewrite (at_reads _ _ _ _ Hat).
  unfold mbind, M_bind. cbn. by rewrite HP, bool_decide_eq_true_2.
Qed.

Lemma opb_pib_write a x h n st d tr : 0 <= a < 8 -> st P = PDBG_TARGET_ENABLED ->
  pib_write T fuel opb a x (World h n (Tgt st d tr)) = bus_write P (f a) x (World h n (Tgt st d tr)).
Proof.
  intros Ha HP. unfold pib_write, mbind at 1, M_bind at 1. rewrite (at_bus _ _ _ _ Hat).
  unfold require_enabled, pdbg_target_status_of, get_st, require_op, pib_any_write. rewrite Hdirect by done. rewrite (at_writes _ _ _ _ Hat).
  unfold mbind, M_bind. cbn. by rewrite HP, bool_decide_eq_true_2.
Qed.

Abbreviation polls k := (replicate k (EvRead P (f PIB2OPB_REG_STAT))).

(** Busy words are skipped, as long as there are retries. *)
Lemma opb_wait_skip xs k retries d d' h n st tr : answers P (f PIB2OPB_REG_STAT) d xs d' -> Forall (fun x => opb_busy x = true) xs ->
  st P = PDBG_TARGET_ENABLED -> Z.of_nat (length xs) <= retries ->
  opb_wait T fuel (length xs + k) opb retries (World h n (Tgt st d tr)) =
  opb_wait T fuel k opb (retries - Z.of_nat (length xs)) (World h n (Tgt st d' (tr ++ polls (length xs)))).
Proof.
  intros H. revert retries tr. induction H as [d|d d1 d2 x xs E H IH]; intros retries tr HF HP Hr.
  - cbn. by rewrite app_nil_r, Z.sub_0_r.
  - apply Forall_cons in HF as [Hx HF]. cbn [length Nat.add opb_wait] in *. unfold mbind at 1, M_bind, attempt.
    rewrite opb_pib_read by (done || unfold PIB2OPB_REG_STAT; lia). rewrite (read_step _ _ _ _ _ _ _ _ _ E).
    change OPB_STAT_BUSY with (2 ^ 16). rewrite status_bit by lia. change (32 + 16) with 48. unfold opb_busy in Hx. rewrite Hx. cbn [negb].
    rewrite (proj2 (Z.eqb_neq retries 0)) by lia. rewrite IH by (done || lia). rewrite <- app_assoc.
    by replace (retries - 1 - Z.of_nat (length xs)) with (retries - Z.of_nat (S (length xs))) by lia.
Qed.

Lemma opb_wait_done k retries y d d' h n st tr : hw_read P (f PIB2OPB_REG_STAT) d = (d', inr y) -> opb_busy y = false ->
  st P = PDBG_TARGET_ENABLED ->
  opb_wait T fuel (S k) opb retries (World h n (Tgt st d tr)) = (Ret y, World h n (Tgt st d' (tr ++ polls 1))).
Proof.
  intros E Hy HP. cbn [opb_wait]. unfold mbind at 1, M_bind, attempt. rewrite opb_pib_read by (done || unfold PIB2OPB_REG_STAT; lia).
  rewrite (read_step _ _ _ _ _ _ _ _ _ E). change OPB_STAT_BUSY with (2 ^ 16). rewrite status_bit by lia. change (32 + 16) with 48.
  unfold opb_busy in Hy. by rewrite Hy.
Qed.

(** The bridge answers the busy words [xs] and then [y]. *)
Definition bridge_answers d xs y d' : Prop :=
  exists d1, answers P (f PIB2OPB_REG_STAT) d xs d1 /\ Forall (fun x => opb_busy x = true) xs /\
    hw_read P (f PIB2OPB_REG_STAT) d1 = (d', inr y) /\ opb_busy y = false.

Lemma opb_wait_ok xs y d d' h n st tr : bridge_answers d xs y d' -> Z.of_nat (length xs) <= MFSI_OPB_MAX_TRIES -> st P = PDBG_TARGET_ENABLED ->
  opb_wait T fuel opb_fuel opb MFSI_OPB_MAX_TRIES (World h n (Tgt st d tr)) = (Ret y, World h n (Tgt st d' (tr ++ polls (S (length xs))))).
Proof.
  intros (d1 & H & HF & E & Hy) Hl HP.
  assert (exists k, opb_fuel = (length xs + S k)%nat) as [k ->] by (exists (opb_fuel - S (length xs))%nat; unfold opb_fuel, MFSI_OPB_MAX_TRIES in *; lia).
  rewrite (opb_wait_skip xs (S k) _ d d1) by done. rewrite (opb_wait_done k _ y d1 d') by done.
  by rewrite <- app_assoc, <- replicate_add, Nat.add_comm.
Qed.

Lemma opb_wait_timeout xs d d' h n st tr : answers P (f PIB2OPB_REG_STAT) d xs d' -> Forall (fun x => opb_busy x = true) xs ->
  Z.of_nat (length xs) = MFSI_OPB_MAX_TRIES + 1 -> st P = PDBG_TARGET_ENABLED ->
  opb_wait T fuel opb_fuel opb MFSI_OPB_MAX_TRIES (World h n (Tgt st d tr)) = (Fail (-1), World h n (Tgt st d' (tr ++ polls (length xs)))).
Proof.
  intros H HF Hl HP. destruct (exists_last (l := xs)) as (xs' & x & ->); [intros ->; done|]. rewrite length_app in Hl. cbn in Hl.
  apply Forall_app in HF as [HF [Hx _]%Forall_cons].
  assert (exists d1, answers P (f PIB2OPB_REG_STAT) d xs' d1 /\ hw_read P (f PIB2OPB_REG_STAT) d1 = (d', inr x)) as (d1 & H1 & E).
  { destruct (answers_app _ _ _ _ _ _ H) as (d1 & H1 & H2). exists d1. split; [done|]. inversion H2 as [|? ? ? ? ? E H3]; subst. by inversion H3; subst. }
  assert (opb_fuel = (length xs' + 1)%nat) as -> by (unfold opb_fuel, MFSI_OPB_MAX_TRIES in *; lia).
  rewrite (opb_wait_skip xs' 1 _ d d1) by (done || lia). replace (MFSI_OPB_MAX_TRIES - Z.of_nat (length xs')) with 0 by lia.
  cbn [opb_wait]. unfold mbind at 1, M_bind, attempt. rewrite opb_pib_read by (done || unfold PIB2OPB_REG_STAT; lia).
  rewrite (read_step _ _ _ _ _ _ _ _ _ E). change OPB_STAT_BUSY with (2 ^ 16). rewrite status_bit by lia. change (32 + 16) with 48.
  unfold opb_busy in Hx. rewrite Hx. cbn [negb]. rewrite Z.eqb_refl. by rewrite <- app_assoc, length_app, replicate_add.
Qed.

(** ** The words of the bridge *)

Definition read_word (addr : Z) : Z := (0x60000000 + opb_byte_addr addr) * 2 ^ 32.
Definition write_word (addr data : Z) : Z := (0xe0000000 + opb_byte_addr addr) * 2 ^ 32 + data.

Lemma byte_addr_range addr : 0 <= opb_byte_addr addr < 2 ^ 24.
Proof.
  unfold opb_byte_addr. change 0xffff00 with (Z.shiftl (Z.ones 16) 8). change 0xff with (Z.ones 8). rewrite land_ones_shift, Z.land_ones by lia.
  pose proof (Z.mod_pos_bound (addr / 2 ^ 8) (2 ^ 16) ltac:(lia)). pose proof (Z.mod_pos_bound addr (2 ^ 8) ltac:(lia)).
  rewrite Z.shiftl_mul_pow2 by lia.
  split; [apply Z.lor_nonneg; lia|]. apply lor_below; lia.
Qed.

(** Address [w] of the page [e] is word [w], byte 4 * [w] of the page. *)
Lemma byte_addr_page e w : 0 <= e < 2 ^ 14 -> 0 <= w < 2 ^ 8 -> opb_byte_addr (1024 * e + w) = 1024 * e + 4 * w.
Proof.
  intros He Hr. unfold opb_byte_addr. change 0xffff00 with (Z.shiftl (Z.ones 16) 8). change 0xff with (Z.ones 8). rewrite land_ones_shift, Z.land_ones by lia.
  replace ((1024 * e + w) / 2 ^ 8) with (4 * e) by (apply Z.div_unique with w; lia).
  rewrite (Z.mod_small (4 * e)) by lia. replace ((1024 * e + w) mod 2 ^ 8) with w by (apply Z.mod_unique with (4 * e); lia).
  replace (4 * e * 2 ^ 8) with (Z.shiftl e 10) by (rewrite Z.shiftl_mul_pow2; lia). rewrite (Z.shiftl_mul_pow2 w) by lia.
  rewrite lor_shiftl_add by (lia || unfold in_range; lia). lia.
Qed.

Lemma read_word_ok addr : Z.shiftl (Z.lor (Z.lor OPB_CMD_READ OPB_CMD_32BIT) (opb_byte_addr addr)) 32 = read_word addr.
Proof.
  pose proof (byte_addr_range addr). change (Z.lor OPB_CMD_READ OPB_CMD_32BIT) with (Z.shiftl 3 29).
  rewrite lor_shiftl_add by (lia || unfold in_range; lia). by rewrite Z.shiftl_mul_pow2 by lia.
Qed.

Lemma write_word_ok addr data : in_range 32 data ->
  Z.lor (Z.shiftl (Z.lor (Z.lor OPB_CMD_WRITE OPB_CMD_32BIT) (opb_byte_addr addr)) 32) data = write_word addr data.
Proof.
  intros Hd. pose proof (byte_addr_range addr). change (Z.lor OPB_CMD_WRITE OPB_CMD_32BIT) with (Z.shiftl 7 29).
  rewrite (lor_shiftl_add 7) by (lia || unfold in_range; lia). by rewrite lor_shiftl_add by (lia || done).
Qed.

Lemma command_ok x d d' h n st tr : hw_write P (f PIB2OPB_REG_CMD) x d = (d', 0) -> st P = PDBG_TARGET_ENABLED ->
  opb_command T fuel opb x (World h n (Tgt st d tr)) = (Ret tt, World h n (Tgt st d' (tr ++ [EvWrite P (f PIB2OPB_REG_CMD) x]))).
Proof.
  intros E HP. unfold opb_command, mbind, M_bind, attempt. rewrite opb_pib_write by (done || unfold PIB2OPB_REG_CMD; lia). by rewrite (write_step _ _ _ _ _ _ _ _ _ E).
Qed.

(** The state after the bridge was cleared: two writes whose results are not looked at *)
Definition cleared d : fsis D := (hw_write P (f PIB2OPB_REG_STAT) (PPC_BIT 0) (hw_write P (f PIB2OPB_REG_RESET) (PPC_BIT 0) d).1).1.
Definition clearing : list tevent := [EvWrite P (f PIB2OPB_REG_RESET) (PPC_BIT 0); EvWrite P (f PIB2OPB_REG_STAT) (PPC_BIT 0)].

Lemma ignored_write a x h n st d tr : 0 <= a < 8 -> st P = PDBG_TARGET_ENABLED ->
  exists r, attempt (pib_write T fuel opb a x) (World h n (Tgt st d tr)) =
    (Ret r, World h n (Tgt st (hw_write P (f a) x d).1 (tr ++ [EvWrite P (f a) x]))).
Proof.
  intros Ha HP. unfold attempt. rewrite opb_pib_write by done. unfold bus_write, hw_call, mbind, M_bind. cbn.
  destruct (hw_write P (f a) x d) as [d' rc]. cbn. destruct (truthy rc); by eexists.
Qed.

Lemma poll_ok read xs y d d' h n st tr : bridge_answers d xs y d' -> Z.of_nat (length xs) <= MFSI_OPB_MAX_TRIES -> st P = PDBG_TARGET_ENABLED ->
  opb_poll T fuel opb read (World h n (Tgt st d tr)) =
  if opb_error y then (Fail (-1), World h n (Tgt st (cleared d') (tr ++ polls (S (length xs)) ++ clearing)))
  else (if read then if opb_valid y then Ret (Some (y mod 2 ^ 32)) else Fail (-1) else Ret None,
        World h n (Tgt st d' (tr ++ polls (S (length xs))))).
Proof.
  intros Hb Hl HP. unfold opb_poll, mbind at 1, M_bind at 1. rewrite (opb_wait_ok xs y d d' h n st tr Hb Hl HP).
  change OPB_STAT_ANY_ERR with (2 ^ 31). change OPB_STAT_READ_VALID with (2 ^ 17). rewrite !status_bit by lia.
  change (32 + 31) with 63. change (32 + 17) with 49. fold (opb_error y) (opb_valid y). destruct (opb_error y).
  - unfold mbind, M_bind.
    destruct (ignored_write PIB2OPB_REG_RESET (PPC_BIT 0) h n st d' (tr ++ polls (S (length xs))) ltac:(unfold PIB2OPB_REG_RESET; lia) HP) as [r1 ->].
    match goal with |- context [attempt _ (World h n (Tgt st ?d1 ?t1))] =>
      destruct (ignored_write PIB2OPB_REG_STAT (PPC_BIT 0) h n st d1 t1 ltac:(unfold PIB2OPB_REG_STAT; lia) HP) as [r2 ->] end.
    unfold cleared, clearing. by rewrite <- !app_assoc.
  - destruct read; [|done]. destruct (opb_valid y); [|done]. cbn [negb]. by rewrite lower_half.
Qed.

(** C39. Access to FSI through the bridge of a POWER8 processor. An address above 24 bits is refused
    without any effect. Otherwise one command word is written; while the bridge is busy its
    status is read again, at most 1201 times, after which the access fails. An error of the
    bridge is cleared and the access fails; a read without valid data fails; otherwise the word
    of the status register is the result. *)
Theorem opb_access addr h n st d tr : st P = PDBG_TARGET_ENABLED -> 0 <= addr ->
  (forall data w, 0xffffff < addr -> p8_opb_read T fuel opb addr w = (Fail (-1), w) /\ p8_opb_write T fuel opb addr data w = (Fail (-1), w)) /\
  (addr <= 0xffffff -> forall d1, hw_write P (f PIB2OPB_REG_CMD) (read_word addr) d = (d1, 0) ->
     let tr1 := tr ++ [EvWrite P (f PIB2OPB_REG_CMD) (read_word addr)] in
     (forall xs y d', bridge_answers d1 xs y d' -> Z.of_nat (length xs) <= MFSI_OPB_MAX_TRIES ->
        p8_opb_read T fuel opb addr (World h n (Tgt st d tr)) =
        if opb_error y then (Fail (-1), World h n (Tgt st (cleared d') (tr1 ++ polls (S (length xs)) ++ clearing)))
        else (if opb_valid y then Ret (y mod 2 ^ 32) else Fail (-1), World h n (Tgt st d' (tr1 ++ polls (S (length xs)))))) /\
     (forall xs d', answers P (f PIB2OPB_REG_STAT) d1 xs d' -> Forall (fun x => opb_busy x = true) xs -> Z.of_nat (length xs) = MFSI_OPB_MAX_TRIES + 1 ->
        p8_opb_read T fuel opb addr (World h n (Tgt st d tr)) = (Fail (-1), World h n (Tgt st d' (tr1 ++ polls (length xs)))))) /\
  (addr <= 0xffffff -> forall data d1, in_range 32 data -> hw_write P (f PIB2OPB_REG_CMD) (write_word addr data) d = (d1, 0) ->
     let tr1 := tr ++ [EvWrite P (f PIB2OPB_REG_CMD) (write_word addr data)] in
     forall xs y d', bridge_answers d1 xs y d' -> Z.of_nat (length xs) <= MFSI_OPB_MAX_TRIES ->
        p8_opb_write T fuel opb addr data (World h n (Tgt st d tr)) =
        if opb_error y then (Fail (-1), World h n (Tgt st (cleared d') (tr1 ++ polls (S (length xs)) ++ clearing)))
        else (Ret tt, World h n (Tgt st d' (tr1 ++ polls (S (length xs)))))).
Proof.
  intros HP Ha. split_and!.
  - intros data w Hb. unfold p8_opb_read, p8_opb_write. by rewrite (proj2 (Z.ltb_lt _ _) Hb).
  - intros Hb d1 E tr1. unfold p8_opb_read. rewrite (proj2 (Z.ltb_ge _ _) Hb), read_word_ok. unfold mbind, M_bind. rewrite (command_ok _ _ _ h n st tr E HP). split.
    + intros xs y d' Hx Hl. rewrite (poll_ok true xs y d1 d') by done. destruct (opb_error y); [done|]. by destruct (opb_valid y).
    + intros xs d' Hx HF Hl. unfold opb_poll, mbind, M_bind. by rewrite (opb_wait_timeout xs d1 d').
  - intros Hb data d1 Hd E tr1 xs y d' Hx Hl. unfold p8_opb_write. rewrite (proj2 (Z.ltb_ge _ _) Hb), write_word_ok by done. unfold mbind, M_bind.
    rewrite (command_ok _ _ _ h n st tr E HP), (poll_ok false xs y d1 d') by done. by destruct (opb_error y).
Qed.
End Opb.
End Bridges.

(** ** A processor behind FSI, with a bridge to another FSI bus *)

Definition bridge_node (t : nat) : pdbg_target :=
  match t with
  | 0 => Node true None None false NoRelease (-1) None [1] None None 0 0 0 None false false
  | 1 => Node true (Some "fsi") None true NoRelease 0 (Some 0) [2] None (Some 0%Z) 0 0 0 None true true
  | 2 => Node true (Some "pib") None true NoRelease 0 (Some 1) [3] None (Some 0x1000%Z) 0 0 0 None true true
  | 3 => Node true (Some "opb") None false NoRelease 0 (Some 2) [] None (Some 0x20010%Z) 0 0 0 None true true
  | _ => Node true None None false NoRelease (-1) None [] None None 0 0 0 None false false
  end%nat%string.
Definition bridge_tree : dtree := Dtree bridge_node 0 (fun _ => None) false.

Definition engine_addr (a : Z) : Z := u64 (a + 0x1000).
Definition opb_addr (a : Z) : Z := u64 (a + 0x20010).

Lemma engine_at {D} : bus_at (D := D) bridge_tree 8 "fsi" 2 1 engine_addr.
Proof. by split. Qed.
Lemma opb_at {D} : bus_at (D := D) bridge_tree 8 "pib" 3 2 opb_addr.
Proof. by split. Qed.

Lemma opb_addr_direct a : 0 <= a < 8 -> truthy (Z.land (opb_addr a) (PPC_BIT 0)) = false.
Proof.
  intros Ha. change (PPC_BIT 0) with (2 ^ 63). rewrite truthy_land_bit by lia. unfold opb_addr.
  rewrite wrap_small by (unfold in_range; lia). apply Z.bits_above_log2; [lia|]. apply Z.log2_lt_pow2; lia.
Qed.

(** An engine in front of a set of registers *)
Record engine := Engine { e_regs : Z -> Z; e_latch : Z }.
Definition engine_state (d : fsis engine) (e : engine) : fsis engine := Fsis (type_of d) e.
Definition engine_scom (d : fsis engine) (a : Z) : Z := u64 (e_regs (fsi_dev d) a).
Definition engine_latch (d : fsis engine) : Z := u64 (e_latch (fsi_dev d)).

#[local] Instance engine_hw : Hardware (fsis engine) := {
  hw_probe t d := (d, 0);
  hw_release t d := d;
  hw_read t a d := (d, inr (if a =? 0x1000 then engine_latch d / 2 ^ 32 else engine_latch d mod 2 ^ 32));
  hw_write t a v d :=
    (engine_state d (let e := fsi_dev d in
       if a =? 0x1000 then Engine (e_regs e) (v * 2 ^ 32 + engine_latch d mod 2 ^ 32)
       else if a =? 0x1001 then Engine (e_regs e) (engine_latch d / 2 ^ 32 * 2 ^ 32 + v)
       else if v <? 2 ^ 31 then Engine (e_regs e) (engine_scom d v)
       else Engine (fun x => if x =? v - 2 ^ 31 then engine_latch d else e_regs e x) (engine_latch d)), 0)
}.

#[local] Instance engine_ok : Fsi2Pib (fsis engine) 1 (fun r => u32 (engine_addr r)) engine_scom engine_latch.
Proof.
  assert (forall d, in_range 64 (engine_latch d)) as Hr by (intros d; apply wrap_range; lia). unfold in_range in *.
  split; try (intros; eexists; split; [reflexivity|]; done).
  - done.
  - intros v d Hv. eexists. split; [reflexivity|]. split; [|done]. apply wrap_small.
    change (in_range 64 (v * 2 ^ 32 + engine_latch d mod 2 ^ 32)). pose proof (Z.mod_pos_bound (engine_latch d) (2 ^ 32)). unfold in_range in *. lia.
  - intros v d Hv. eexists. split; [reflexivity|]. split; [|done]. apply wrap_small. pose proof (Hr d).
    change (in_range 64 (engine_latch d / 2 ^ 32 * 2 ^ 32 + v)). unfold in_range in *.
    pose proof (Z.div_pos (engine_latch d) (2 ^ 32)). pose proof (Z.div_lt_upper_bound (engine_latch d) (2 ^ 32) (2 ^ 32)). lia.
  - intros a d Ha. eexists. split; [reflexivity|]. cbn. rewrite (proj2 (Z.ltb_lt a (2 ^ 31))) by lia. split; [|done]. apply wrap_small, wrap_range. lia.
  - intros a d Ha. eexists. split; [reflexivity|]. intros x. unfold engine_state, engine_scom.
    change (u32 (engine_addr FSI_CMD_REG) =? 0x1000) with false. change (u32 (engine_addr FSI_CMD_REG) =? 0x1001) with false. cbn [fsi_dev].
    rewrite (proj2 (Z.ltb_ge (2 ^ 31 + a) (2 ^ 31))) by lia. cbn [e_regs]. replace (2 ^ 31 + a - 2 ^ 31) with a by lia.
    destruct (x =? a); [apply wrap_small; apply Hr|done].
Qed.

Definition engine_start : fsis engine := Fsis (fun _ => CHIP_UNKNOWN) (Engine (fun a => a * 2 ^ 32 + 7) 0).

Lemma scom_through_fsi_witness : exists d tr,
  fsi2pib_getscom bridge_tree 8 2 0xf000f (World ∅ 0 (Tgt (fun _ => PDBG_TARGET_ENABLED) engine_start [])) =
  (Ret 0xf000f00000007, World ∅ 0 (Tgt (fun _ => PDBG_TARGET_ENABLED) d tr)).
Proof.
  destruct (proj1 (scom_through_fsi bridge_tree 8 2 1 engine_addr engine_at engine_scom engine_latch 0xf000f ∅ 0 (fun _ => PDBG_TARGET_ENABLED)
    engine_start [] engine_ok ltac:(lia))) as (d & tr & E & _). exists d, tr. exact E.
Defined.

(** A bridge that is busy twice for every command *)
#[local] Instance bridge_hw : Hardware (fsis nat) := {
  hw_probe t d := (d, 0);
  hw_release t d := d;
  hw_read t a d :=
    match fsi_dev d with
    | O => (d, inr (2 ^ 49 + 0xc0ffee))
    | S k => (Fsis (type_of d) k, inr (2 ^ 48))
    end;
  hw_write t a v d := (Fsis (type_of d) 2%nat, 0)
}.

Definition bridge_start : fsis nat := Fsis (fun _ => CHIP_UNKNOWN) 0%nat.

Lemma opb_access_witness : exists w,
  p8_opb_read bridge_tree 8 3 0xc09 (World ∅ 0 (Tgt (fun _ => PDBG_TARGET_ENABLED) bridge_start [])) = (Ret 0xc0ffee, w) /\
  read_word 0xc09 = 0x60000c2400000000.
Proof.
  destruct (opb_access bridge_tree 8 3 2 opb_addr opb_at opb_addr_direct 0xc09 ∅ 0 (fun _ => PDBG_TARGET_ENABLED) bridge_start [])
    as (_ & H & _); [done|lia|]. destruct (H ltac:(lia) _ eq_refl) as [H1 _]. eexists. split; [|reflexivity].
  rewrite (H1 [2 ^ 48; 2 ^ 48] (2 ^ 49 + 0xc0ffee) (Fsis (fun _ => CHIP_UNKNOWN) 0%nat)); [reflexivity| |unfold MFSI_OPB_MAX_TRIES; cbn; lia].
  exists (Fsis (fun _ => CHIP_UNKNOWN) 0%nat). split_and!; [|by repeat constructor|done|done].
  do 2 (eapply ans_cons; [reflexivity|]). apply ans_nil.
Defined.

(** The chip id of a POWER9' is taken for POWER9 when the device tree is chosen, but is unknown to
    the ports, so that probing a port to one fails. *)
Example p9p_unknown : get_chip_type (Z.shiftl CHIP_ID_P9P 12) = CHIP_UNKNOWN /\ get_chip_type (Z.shiftl CHIP_ID_P9 12) = CHIP_P9.
Proof. split; reflexivity. Qed.

(** The control register of the hub is read without looking at the result; when the read fails,
    an indeterminate value is written back. *)
#[local] Instance deaf_hw : Hardware (fsis bool) := {
  hw_probe t d := (d, 0);
  hw_release t d := d;
  hw_read t a d := (d, inl 1);
  hw_write t a v d := (d, 0)
}.
Example hub_control_indeterminate :
  (cfam_hmfsi_probe bridge_tree 8 (fun _ => Some 3) 2 (World ∅ 0 (Tgt (fun _ => PDBG_TARGET_ENABLED) (Fsis (fun _ => CHIP_UNKNOWN) true) []))).1 =
  Crash Uninit.
Proof. reflexivity. Qed.
