(* ===== verification/CronusBack.v ===== *)
(** * libpdbg: the Cronus back end

    Models libpdbg/cronus.c: SCOM and CFAM registers and the SBE through a Cronus server, with one
    connection that all targets share and that is counted. The connection is the part [other] of
    the state of [SbeBack], next to the contexts of the SBEs. *)

From Stdlib Require Import Ascii String.
From S2P Require Import Prelude CMem SbeCore SbeCoreFacts SbeCmds SbeDataCmds Cronus CronusFacts SbeWitness.
From S2P Require Import Target TargetFacts TargetRelease Pib Adu Ram Thread Chip SbeBack SbeBackFacts Sprs Dtb.

(** [cctx] with its block and [cctx_refcount]; the blocks of the contexts of the SBEs *)
Record cros (C : Type) := Cros {
  cr_blk : option ptr;
  cr_refs : Z;
  cr_sf : gmap nat ptr;
  cr_cro : cro C
}.
Arguments Cros {C} _ _ _ _.
Arguments cr_blk {C} _.
Arguments cr_refs {C} _.
Arguments cr_sf {C} _.
Arguments cr_cro {C} _.

Section CronusBack.
Context {D C : Type} {K : Kernel D} {Sv : Server C} {Al : Allocator} (T : dtree) (fuel : nat).
Abbreviation m := (M (tgt (chips (sbes D (cros C))))).

Definition get_cros : m (cros C) := e ← get_sbes; mret (other e).
Definition put_cros (c : cros C) : m unit := e ← get_sbes; put_sbes (Sbes (sf_ctx e) (sb_dev e) (sb_trace e) c).

(** A function of libcronus runs on the heap of the caller and on the connection. *)
Definition run_cro {A} (op : M (cro C) A) : m A :=
  fun w =>
    let s := w_st w in
    let e := chip_dev (t_dev s) in
    let '(r, w') := op (World (w_heap w) (w_next w) (cr_cro (other e))) in
    (r, World (w_heap w') (w_next w')
          (Tgt (t_status s)
             (Chips (thread_of (t_dev s)) (release_spwkup (t_dev s))
                (Sbes (sf_ctx e) (sb_dev e) (sb_trace e) (Cros (cr_blk (other e)) (cr_refs (other e)) (cr_sf (other e)) (w_st w'))))
             (t_trace s))).

(** ** The connection *)

Definition croserver_connect (server : string) : m unit :=
  c ← get_cros;
  (match cr_blk c with
   | Some _ => mret tt
   | None =>
       blk ← run_cro (cronus_connect (Some server) true);
       c ← get_cros;
       put_cros (Cros (Some blk) (cr_refs c) (cr_sf c) (cr_cro c))
   end);;
  c ← get_cros;
  put_cros (Cros (cr_blk c) (cr_refs c + 1) (cr_sf c) (cr_cro c)).

Definition croserver_disconnect : m unit :=
  c ← get_cros;
  match cr_blk c with
  | None => mret tt
  | Some blk =>
      let refs := cr_refs c - 1 in
      put_cros (Cros (cr_blk c) refs (cr_sf c) (cr_cro c));;
      if refs <=? 0 then
        run_cro (cronus_disconnect blk);;
        c ← get_cros;
        put_cros (Cros None (cr_refs c) (cr_sf c) (cr_cro c))
      else mret tt
  end.

(** ** Targets *)

Context (pdbg_get_backend_option : option string) (server_property : nat -> option string) (pdbg_get_proc : pdbg_proc).

(** The text after [@] in the option of the back end, and otherwise the property "server" *)
Definition server_of (t : nat) : option string :=
  let named := tmp ← pdbg_get_backend_option; server ← after_char "@" tmp; if (server : string) is EmptyString then None else Some server in
  match named with Some server => Some server | None => server_property t end.

Definition cronus_probe (t : nat) : m unit :=
  match server_of t with
  | None => fail (-1)
  | Some server => croserver_connect server
  end.
Definition cronus_release (t : nat) : m unit := croserver_disconnect.

(** [ret = f(cctx, ...); if (ret) return -1;]; the functions of libcronus look at the connection. *)
Definition on_cro {A} (op : M (cro C) A) : m A :=
  c ← get_cros;
  match cr_blk c with
  | None => crash OutOfBounds
  | Some _ => r ← attempt (run_cro op); match r with inl _ => fail (-1) | inr a => mret a end
  end.

Definition cronus_pib_read (pib : nat) (addr : Z) : m Z :=
  i ← pdbg_target_index T fuel (Some pib); on_cro (cronus_getscom i addr).
Definition cronus_pib_write (pib : nat) (addr value : Z) : m unit :=
  i ← pdbg_target_index T fuel (Some pib); on_cro (cronus_putscom i addr value).
Definition cronus_fsi_read (fsi : nat) (addr : Z) : m Z :=
  i ← pdbg_target_index T fuel (Some fsi); on_cro (cronus_getcfam i addr).
Definition cronus_fsi_write (fsi : nat) (addr value : Z) : m unit :=
  i ← pdbg_target_index T fuel (Some fsi); on_cro (cronus_putcfam i addr value).

(** The message to the SBE and the room for its answer, whose length is returned; the codes of
    libcronus are passed on. *)
Definition cronus_sbefifo_transport (sf : nat) (msg : list mval) (msg_len : Z) (out : ptr) (out_len : Z) : m Z :=
  i ← pdbg_target_index T fuel (Some sf);
  c ← get_cros;
  match cr_blk c with
  | None => crash OutOfBounds
  | Some _ => run_cro (cronus_submit i msg msg_len out out_len)
  end.

Definition cronus_sbefifo_probe (sf : nat) : m unit :=
  cronus_probe sf;;
  match sbefifo_proc_of pdbg_get_proc with
  | None => fail (-1)
  | Some proc =>
      e ← get_sbes;
      '(blk, c) ← run_sbe (blk ← sbefifo_connect_transport proc; c ← get_sctx; mret (blk, c))
                    (Sctx (-1) 0 false 0 Null 0) (fun _ => sf_ctx e);
      e ← get_sbes;
      put_sbes (Sbes (<[sf := c]> (sf_ctx e)) (sb_dev e) (sb_trace e)
                  (Cros (cr_blk (other e)) (cr_refs (other e)) (<[sf := blk]> (cr_sf (other e))) (cr_cro (other e))))
  end.

Definition cronus_sbefifo_release (sf : nat) : m unit :=
  c ← get_cros;
  match cr_sf c !! sf with
  | None => crash OutOfBounds
  | Some blk => on_sbe sf (sbefifo_disconnect blk);; cronus_release sf
  end.

(** ** Sharing the connection *)

Abbreviation state := (tgt (chips (sbes D (cros C)))).
Definition cros_of (s : state) : cros C := other (chip_dev (t_dev s)).

(** There is a connection exactly when it is in use, and then its block is alive. *)
Definition shared (h : gmap nat (list mval)) (s : state) : Prop :=
  match cr_blk (cros_of s) with
  | None => cr_refs (cros_of s) = 0
  | Some p => 0 < cr_refs (cros_of s) /\ exists b l, p = Ptr b 0 /\ h !! b = Some l
  end.

Definition with_cros (s : state) (c : cros C) : state :=
  Tgt (t_status s) (Chips (thread_of (t_dev s)) (release_spwkup (t_dev s))
    (Sbes (sf_ctx (sbe_part s)) (sb_dev (sbe_part s)) (sb_trace (sbe_part s)) c)) (t_trace s).

Lemma wp_get_cros h n s Q : Q (inr (cros_of s)) (World h n s) -> wp get_cros (World h n s) Q.
Proof. auto. Qed.
Lemma wp_put_cros c h n s Q : Q (inr tt) (World h n (with_cros s c)) -> wp (put_cros c) (World h n s) Q.
Proof. auto. Qed.
Lemma wp_run_cro {A} (op : M (cro C) A) h n s Q :
  wp op (World h n (cr_cro (cros_of s))) (fun r w' =>
    Q r (World (w_heap w') (w_next w') (with_cros s (Cros (cr_blk (cros_of s)) (cr_refs (cros_of s)) (cr_sf (cros_of s)) (w_st w'))))) ->
  wp (run_cro op) (World h n s) Q.
Proof. unfold wp, run_cro, cros_of, with_cros, sbe_part. cbn. intros H. by destruct (op _) as [[] [h' n' c']]. Qed.

Lemma wp_srv {A} es (f : C -> C * A) h n s (Q : Z + A -> world (cro C) -> Prop) :
  (forall d a, f (cdev s) = (d, a) -> Q (inr a) (World h n (Cro (cctx s) d (ctrace s ++ es)))) -> wp (srv_call es f) (World h n s) Q.
Proof. intros H. unfold srv_call. apply wp_bind, wp_get_st. destruct (f (cdev s)) as [d a] eqn:E. apply wp_bind, wp_put_st, wp_ret. by apply H. Qed.

(** Connecting gives a live block or fails; blocks that were there stay. *)
Lemma wp_connect server h n c : heap_ok h n ->
  wp (cronus_connect (Some server) true) (World h n c) (fun r w => exists h' n' c', w = World h' n' c' /\ heap_ok h' n' /\ (forall b l, h !! b = Some l -> h' !! b = Some l) /\
    match r with inl _ => True | inr p => exists b l, p = Ptr b 0 /\ h' !! b = Some l end).
Proof.
  intros Hok. assert (forall b l l', h !! b = Some l -> <[n := l']> h !! b = Some l) as Hins.
  { intros b l l' Hb. rewrite lookup_insert_ne; [done|]. intros ->. by rewrite heap_ok_fresh in Hb. }
  assert (forall l, heap_ok (<[n := l]> h) (S n)) as Hok'.
  { intros l b Hb. rewrite lookup_insert_ne by lia. apply Hok. lia. }
  unfold cronus_connect. cbn [negb]. apply wp_bind, wp_srv. intros d1 ok E1. destruct ok; [|by eexists _, _, _]. cbn [negb].
  apply wp_bind, wp_malloc; intros _; [|eexists _, _, _; split_and!; [done|intros b Hb; apply Hok; lia|done|done]]. cbn [is_null].
  apply wp_bind, wp_bind, wp_get_st, wp_put_st, wp_bind, wp_srv. intros d2 [errno|fd] E2; [eexists _, _, _; by split_and!; eauto|].
  apply wp_bind, wp_srv. intros d3 [errno|[]] E3; [apply wp_bind, wp_srv; intros; eexists _, _, _; by split_and!; eauto|].
  apply wp_bind, wp_bind, wp_get_st, wp_put_st, wp_bind, wp_attempt. unfold cronus_wait_for_feedbobo.
  apply wp_bind, wp_bind, wp_get_st, wp_ret, wp_bind, wp_srv. intros d4 [errno|bs] E4.
  { apply wp_bind, wp_srv. intros. eexists _, _, _. by split_and!; eauto. }
  destruct (negb _); [apply wp_bind, wp_srv; intros; eexists _, _, _; by split_and!; eauto|].
  destruct (negb _); [apply wp_bind, wp_srv; intros; eexists _, _, _; by split_and!; eauto|].
  apply wp_bind, wp_get_st, wp_put_st, wp_ret. eexists _, _, _. split_and!; [done|by eauto|by eauto|]. eexists _, _. split; [done|]. apply lookup_insert_eq.
Qed.

Lemma connect_shared server h n s : heap_ok h n -> shared h s ->
  wp (croserver_connect server) (World h n s) (fun r w => exists h' n' s', w = World h' n' s' /\ heap_ok h' n' /\ shared h' s' /\
    cr_refs (cros_of s') = cr_refs (cros_of s) + (if r is inr _ then 1 else 0) /\
    (is_Some (cr_blk (cros_of s)) -> r = inr tt /\ h' = h /\ cr_cro (cros_of s') = cr_cro (cros_of s))).
Proof.
  intros Hok Hs. unfold croserver_connect. apply wp_bind, wp_get_cros. unfold shared in Hs. destruct (cr_blk (cros_of s)) as [p|] eqn:Eb.
  - destruct Hs as [Hr Hp]. apply wp_bind, wp_ret, wp_bind, wp_get_cros, wp_put_cros. eexists _, _, _. split_and!; [done|done| |done|intros _; by split_and!].
    unfold shared, cros_of, with_cros. cbn. fold (cros_of s). rewrite Eb. split; [lia|done].
  - apply wp_bind, wp_bind, wp_run_cro. eapply wp_mono; [by apply wp_connect|]. intros r w (h' & n' & c' & -> & Hok' & _ & Hr).
    destruct r as [rc|p]; cbn [w_heap w_next w_st].
    + eexists _, _, _. split_and!; [done|done| |cbn; lia|by intros []]. unfold shared, with_cros, cros_of. cbn. fold (cros_of s). by rewrite Eb.
    + apply wp_bind, wp_get_cros, wp_put_cros, wp_bind, wp_get_cros, wp_put_cros. eexists _, _, _. split_and!; [done|done| |done|by intros []].
      unfold shared, with_cros, cros_of. cbn. fold (cros_of s). split; [lia|done].
Qed.

Lemma disconnect_shared h n s : heap_ok h n -> shared h s ->
  wp croserver_disconnect (World h n s) (fun r w => exists h' s', r = inr tt /\ w = World h' n s' /\ heap_ok h' n /\ shared h' s' /\
    cr_refs (cros_of s') = Z.max 0 (cr_refs (cros_of s) - 1)).
Proof.
  intros Hok Hs. unfold croserver_disconnect. apply wp_bind, wp_get_cros. pose proof Hs as Hs'. unfold shared in Hs. destruct (cr_blk (cros_of s)) as [p|] eqn:Eb.
  - destruct Hs as (Hr & b & l & -> & Hb). apply wp_bind, wp_put_cros. destruct (Z.leb_spec (cr_refs (cros_of s) - 1) 0).
    + apply wp_bind, wp_run_cro. unfold cronus_disconnect. cbn [is_null negb]. apply wp_bind, wp_ret, wp_bind, wp_bind, wp_get_st, wp_ret.
      assert (forall c' , wp (free (Ptr b 0)) (World h n c') (fun r w' => r = inr tt /\
        wp (c ← get_cros; put_cros (Cros None (cr_refs c) (cr_sf c) (cr_cro c)))
          (World (w_heap w') (w_next w') (with_cros s (Cros (Some (Ptr b 0)) (cr_refs (cros_of s) - 1) (cr_sf (cros_of s)) (w_st w'))))
          (fun r w => exists h' s', r = inr tt /\ w = World h' n s' /\ heap_ok h' n /\ shared h' s' /\ cr_refs (cros_of s') = Z.max 0 (cr_refs (cros_of s) - 1)))) as Hf.
      { intros c'. eapply wp_free; [exact Hb|]. split; [done|]. cbn [w_heap w_next w_st]. apply wp_bind, wp_get_cros, wp_put_cros. eexists _, _. split_and!; [done|done| | |].
        - intros x Hx. apply lookup_delete_None. right. by apply Hok.
        - unfold shared, with_cros, cros_of. cbn. fold (cros_of s). lia.
        - unfold with_cros, cros_of. cbn. fold (cros_of s). lia. }
      apply wp_bind. destruct (negb _).
      * apply wp_bind, wp_srv. intros d a _. apply wp_bind, wp_get_st, wp_put_st. eapply wp_mono; [apply Hf|]. intros r w [-> H']. exact H'.
      * apply wp_ret. eapply wp_mono; [apply Hf|]. intros r w [-> H']. exact H'.
    + apply wp_ret. eexists _, _. split_and!; [done|done|done| |unfold with_cros, cros_of; cbn; fold (cros_of s); lia].
      unfold shared, with_cros, cros_of. cbn. fold (cros_of s). rewrite ?Eb. split; [lia|eauto].
  - apply wp_ret. eexists _, _. split_and!; [done|done|done|done|lia].
Qed.

(** Any number of connects ([Some]) and disconnects ([None]), with the results of the connects *)
Fixpoint run_users (ops : list (option string)) : m (list bool) :=
  match ops with
  | [] => mret []
  | Some server :: ops' =>
      r ← attempt (croserver_connect server);
      rs ← run_users ops'; mret ((if r is inr _ then true else false) :: rs)
  | None :: ops' => croserver_disconnect;; rs ← run_users ops'; mret (true :: rs)
  end.

(** The number of users after that *)
Fixpoint users (k : Z) (ops : list (option string)) (oks : list bool) : Z :=
  match ops, oks with
  | Some _ :: ops', ok :: oks' => users (if ok : bool then k + 1 else k) ops' oks'
  | None :: ops', _ :: oks' => users (Z.max 0 (k - 1)) ops' oks'
  | _, _ => k
  end.

(** C7. The connection to a Cronus server is shared. Whatever the targets do, in any order and with any
    answers of the server: connecting and disconnecting ends without a crash, and the connection
    is there, with its memory, exactly when it has users, which are the connects that succeeded
    less the disconnects. *)
Theorem connection_shared ops h n s : heap_ok h n -> shared h s ->
  wp (run_users ops) (World h n s) (fun r w => exists h' n' s' oks, r = inr oks /\ w = World h' n' s' /\ heap_ok h' n' /\ shared h' s' /\
    cr_refs (cros_of s') = users (cr_refs (cros_of s)) ops oks /\
    (is_Some (cr_blk (cros_of s')) <-> 0 < users (cr_refs (cros_of s)) ops oks)).
Proof.
  assert (forall h s, shared h s -> is_Some (cr_blk (cros_of s)) <-> 0 < cr_refs (cros_of s)) as Hopen.
  { clear. intros h s Hs. unfold shared in Hs. destruct (cr_blk (cros_of s)).
    - destruct Hs as [Hr _]. by split; [|eexists].
    - rewrite Hs. split; [by intros []|lia]. }
  revert h n s. induction ops as [|[server|] ops IH]; intros h n s Hok Hs; cbn [run_users users].
  - apply wp_ret. eexists _, _, _, []. split_and!; [done|done|done|done|done|]. by eapply Hopen.
  - apply wp_bind, wp_attempt. eapply wp_mono; [by apply connect_shared|]. intros r w (h1 & n1 & s1 & -> & Hok1 & Hs1 & Hr & _).
    apply wp_bind. eapply wp_mono; [by apply IH|]. intros r2 w (h2 & n2 & s2 & oks & -> & -> & Hok2 & Hs2 & Hu & Ho). apply wp_ret.
    eexists _, _, _, _. split_and!; [done|done|done|done| |]; destruct r; cbn; rewrite Hr in *; rewrite ?Z.add_0_r in *; done.
  - apply wp_bind. eapply wp_mono; [by apply disconnect_shared|]. intros r w (h1 & s1 & -> & -> & Hok1 & Hs1 & Hr).
    apply wp_bind. eapply wp_mono; [by apply IH|]. intros r2 w (h2 & n2 & s2 & oks & -> & -> & Hok2 & Hs2 & Hu & Ho). apply wp_ret.
    rewrite Hr in *. by eexists _, _, _, _.
Qed.
End CronusBack.

(** ** A server *)

(** It greets every client. *)
Definition greeting : list Z := be_bytes 4 0 ++ be_bytes 4 0xFEEDB0B1.
Definition greeting_server : Server unit := {|
  srv_resolve _ _ := (tt, true);
  srv_socket _ := (tt, inr 3);
  srv_connect _ _ := (tt, inr tt);
  srv_close _ _ := tt;
  srv_write _ _ bs := (tt, inr (Z.of_nat (length bs)));
  srv_read _ _ _ := (tt, inr greeting)
|}.
Definition no_driver : Kernel unit := {|
  sys_open d _ := (d, inl 2);
  sys_close d _ := d;
  sys_ioctl d _ _ := (d, inl 25);
  sys_write d _ bs := (d, inr (Z.of_nat (length bs)));
  sys_read d _ _ := (d, inl 5);
  ext_transport d _ _ := (d, inl 5)
|}.

#[local] Existing Instance always_alloc.
#[local] Existing Instance greeting_server.
#[local] Existing Instance no_driver.

Definition cronus_start : tgt (chips (sbes unit (cros unit))) :=
  Tgt (fun _ => PDBG_TARGET_UNKNOWN)
    (Chips (fun _ => ThreadVars 0 (ThreadState false false false false PDBG_THREAD_STATE_RUN PDBG_SMT_1) false false) (fun _ => true)
      (Sbes ∅ tt [] (Cros None 0 ∅ (Cro (Cctx (-1) 0 0) tt [])))) [].

(** Two users come and one leaves: the connection stays, with one user. *)
Definition two_users : list (option string) := [Some "host"; Some "host"; None]%string.

Lemma connection_shared_witness :
  wp (run_users (D := unit) two_users) (World ∅ 0 cronus_start) (fun r w => exists h' n' s' oks, r = inr oks /\ w = World h' n' s' /\ heap_ok h' n' /\ shared h' s' /\
    cr_refs (cros_of s') = users 0 two_users oks /\ (is_Some (cr_blk (cros_of s')) <-> 0 < users 0 two_users oks)) /\
  (run_users (D := unit) two_users (World ∅ 0 cronus_start)).1 = Ret [true; true; true] /\
  cr_blk (cros_of (w_st (run_users (D := unit) two_users (World ∅ 0 cronus_start)).2)) = Some (Ptr 0 0).
Proof.
  split; [exact (connection_shared (D := unit) two_users ∅ 0 cronus_start (fun b _ => lookup_empty b) eq_refl)|].
  split; vm_compute; reflexivity.
Defined.

(** A target of the SBE that cannot be used, since the processor has none, still counts as a user
    of the connection, although it will not be released. *)
Example failed_probe_counts :
  let r := cronus_sbefifo_probe (D := unit) (Some "p8@host"%string) (fun _ => None) PDBG_PROC_P8 0 (World ∅ 0 cronus_start) in
  r.1 = Fail (-1) /\ cr_refs (cros_of (w_st r.2)) = 1.
Proof. split; vm_compute; reflexivity. Qed.
