(* ===== verification/Parse.v ===== *)
(** * The command line tool: numbers and lists of numbers

    Models src/parsers.c and [parse_list] of src/util.c, with the functions of the C library
    they use: [strtoul], [strtok_r] and [atoi]. A C string is the text before its NUL. *)

From Stdlib Require Import Ascii String.
From S2P Require Import Prelude CMem Sprs.

(** ** The C library *)

Definition char_code (c : ascii) : Z := Z.of_nat (nat_of_ascii c).

Definition isspace (c : ascii) : bool := (char_code c =? 32) || ((9 <=? char_code c) && (char_code c <=? 13)).
Definition isdigit (c : ascii) : bool := (48 <=? char_code c) && (char_code c <=? 57).

(** The value of a digit or letter in a number *)
Definition digit_value (c : ascii) : option Z :=
  let z := char_code c in
  if (48 <=? z) && (z <=? 57) then Some (z - 48)
  else if (97 <=? z) && (z <=? 122) then Some (z - 87)
  else if (65 <=? z) && (z <=? 90) then Some (z - 55)
  else None.

Definition digit_of (base : Z) (c : ascii) : option Z :=
  d ← digit_value c; if d <? base then Some d else None.

(** The digits at the start of [s] after the value [acc]: their value, whether there were any, and the rest *)
Fixpoint digits (base acc : Z) (any : bool) (s : string) : Z * bool * string :=
  match s with
  | EmptyString => (acc, any, s)
  | String c s' =>
      match digit_of base c with
      | Some d => digits base (acc * base + d) true s'
      | None => (acc, any, s)
      end
  end.

Fixpoint skip_spaces (s : string) : string :=
  match s with
  | EmptyString => s
  | String c s' => if isspace c then skip_spaces s' else s
  end.

(** The sign, and the text after it *)
Definition sign (s : string) : bool * string :=
  match s with
  | String "-" s' => (true, s')
  | String "+" s' => (false, s')
  | _ => (false, s)
  end.

(** With base 0 the base is in the text: a hexadecimal digit must follow the prefix 0x. *)
Definition prefix_base (s : string) : Z * string :=
  match s with
  | String "0" (String x (String c s')) =>
      if (Ascii.eqb x "x" || Ascii.eqb x "X") && bool_decide (is_Some (digit_of 16 c)) then (16, String c s') else (8, s)
  | String "0" _ => (8, s)
  | _ => (10, s)
  end.

(** [strtoul(s, &endptr, 0)]: the value, the text at [endptr], and whether [errno] is set. Without
    digits the value is 0 and [endptr] is the start of the string. [strtoull] is the same function,
    since [unsigned long] has 64 bits. *)
Definition strtoul (s : string) : Z * string * bool :=
  let '(neg, s1) := sign (skip_spaces s) in
  let '(base, s2) := prefix_base s1 in
  let '(v, any, rest) := digits base 0 false s2 in
  if negb any then (0, s, false)
  else if 2 ^ 64 <=? v then (2 ^ 64 - 1, rest, true)
  else ((if neg then u64 (- v) else v), rest, false).

Definition is_empty (s : string) : bool := match s with EmptyString => true | String _ _ => false end.

(** [strtok_r] with one delimiter: the next token and the text after it *)
Fixpoint until (d : ascii) (s : string) : string * string :=
  match s with
  | EmptyString => (EmptyString, EmptyString)
  | String c s' => if Ascii.eqb c d then (EmptyString, s') else let '(tok, rest) := until d s' in (String c tok, rest)
  end.
Fixpoint strtok (d : ascii) (s : string) : option (string * string) :=
  match s with
  | EmptyString => None
  | String c s' => if Ascii.eqb c d then strtok d s' else Some (until d s)
  end.

(** ** parsers.c

    [None] is NULL, for a missing argument ([None]) and for an error. The block that is returned
    holds the number. *)

Definition int32 (v : Z) : Z := if u32 v <? 2 ^ 31 then u32 v else u32 v - 2 ^ 32.

Definition parse_unsigned (max : Z) (argv : option string) : option Z :=
  argv ← argv;
  let '(v, rest, errno) := strtoul argv in
  if errno || negb (is_empty rest) || (max <? v) then None else Some v.

Definition parse_number64 : option string -> option Z := parse_unsigned (2 ^ 64 - 1).
Definition parse_number32 : option string -> option Z := parse_unsigned (2 ^ 32 - 1).
Definition parse_number16 : option string -> option Z := parse_unsigned (2 ^ 16 - 1).
Definition parse_number8 : option string -> option Z := parse_unsigned (2 ^ 8 - 1).

(** [for (i = tmp; i; i >>= 1) if ((i & 1) && (i >> 1)) return NULL;] for a number of at most [n] bits *)
Fixpoint one_bit (n : nat) (i : Z) : bool :=
  match n with
  | O => true
  | S n' => if i =? 0 then true else if Z.testbit i 0 && truthy (Z.shiftr i 1) then false else one_bit n' (Z.shiftr i 1)
  end.

Definition parse_number8_pow2 (argv : option string) : option Z :=
  argv ← argv;
  let '(tmp, _, _) := strtoul argv in
  if 256 <=? tmp then None else if one_bit 64 tmp then Some (u8 tmp) else None.

(** The number becomes an [int] before it is compared. *)
Definition parse_gpr (argv : option string) : option Z :=
  argv ← argv;
  let '(v, rest, errno) := strtoul argv in
  let gpr := int32 v in
  if errno || negb (is_empty rest) || (32 <? gpr) then None else Some gpr.

Definition parse_spr (argv : option string) : option Z :=
  argv ← argv;
  let spr := pdbg_spr_by_name argv in
  if spr =? -1 then None else Some spr.

Definition parse_flag_noarg (argv : option string) : option bool := Some true.

(** ** util.c

    [None] is an access outside the array [marks], which is called [list] in the code. *)

(** [for (i = from; i <= to; i++) list[i] = 1;], [k] rounds *)
Fixpoint mark (k : nat) (i : nat) (marks : list Z) : option (list Z) :=
  match k with
  | O => Some marks
  | S k' => if (i <? length marks)%nat then mark k' (S i) (<[i := 1]> marks) else None
  end.

(** The tokens of the argument: the array and whether all were good. The fuel is the length of
    the argument and one. *)
Fixpoint list_tokens (fuel : nat) (tmp : string) (max : Z) (marks : list Z) : option (list Z * bool) :=
  match fuel with
  | O => None
  | S fuel' =>
      match strtok "," tmp with
      | None => Some (marks, true)
      | Some (tok, saveptr) =>
          match strtok "-" tok with
          | None => Some (marks, false)
          | Some (a, saveptr2) =>
              let '(from, endptr, _) := strtoul a in
              if negb (is_empty endptr) then Some (marks, false) else
              if u64 max <=? from then Some (marks, false) else
              let range :=
                match strtok "-" saveptr2 with
                | None => Some from
                | Some (b, _) =>
                    let '(to, endptr, _) := strtoul b in
                    if negb (is_empty endptr) then None else
                    if u64 max <=? to then None else Some to
                end in
              match range with
              | None => Some (marks, false)
              | Some to =>
                  if to <? from then Some (marks, false) else
                  marks ← mark (Z.to_nat (to - from + 1)) (Z.to_nat from) marks;
                  list_tokens fuel' saveptr max marks
              end
          end
      end
  end.

(** [for (i = 0; i < max; i++) if (list[i] == 1) n++;] *)
Definition count_marks (max : Z) (marks : list Z) : option Z :=
  if (Z.to_nat max <=? length marks)%nat
  then Some (Z.of_nat (length (filter (fun v => v = 1) (take (Z.to_nat max) marks)))) else None.

(** The array, the result, and [*count] when it is asked for *)
Definition parse_list (arg : string) (max : Z) (marks : list Z) (count : bool) : option (list Z * bool * option Z) :=
  if negb (max <? 2 ^ 31 - 1) then None else
  '(marks, ok) ← list_tokens (S (String.length arg)) arg max marks;
  if (ok : bool) && count then n ← count_marks max marks; Some (marks, ok, Some n)
  else Some (marks, ok, None).
