(* ===== verification/ParseTheorems.v ===== *)
(** * The command line tool: numbers and lists are read as they are written *)

From Stdlib Require Import Ascii String.
From S2P Require Import Prelude CMem Sprs Parse.

#[local] Arguments String.append : simpl nomatch.

(** ** Writing numbers *)

Definition digit_char (d : Z) : ascii := ascii_of_nat (Z.to_nat (if d <? 10 then 48 + d else 87 + d)).

(** The digits of [v] in front of [s] *)
Fixpoint show (fuel : nat) (base v : Z) (s : string) : string :=
  match fuel with
  | O => s
  | S fuel' =>
      let s' := String (digit_char (v mod base)) s in
      if v / base =? 0 then s' else show fuel' base (v / base) s'
  end.

Definition dec (v : Z) : string := show 64 10 v "".
Definition hex (v : Z) : string := ("0x" ++ show 64 16 v "")%string.

(** The characters of a number *)
Definition is_digit16 (c : ascii) : Prop := exists d, 0 <= d < 16 /\ c = digit_char d.

Lemma digit_char_cases (P : Z -> Prop) : (forall d, d ∈ seqZ 0 16 -> P d) -> forall d, 0 <= d < 16 -> P d.
Proof. intros H d Hd. apply H. by apply elem_of_seqZ. Qed.

Lemma digit_of_char base d : 0 <= d < base -> base <= 16 -> digit_of base (digit_char d) = Some d.
Proof.
  intros Hd Hb. assert (digit_value (digit_char d) = Some d) as E.
  { revert d Hd. assert (forall d, 0 <= d < 16 -> digit_value (digit_char d) = Some d) as H; [|intros d Hd; apply H; lia].
    apply digit_char_cases. intros d Hd. revert d Hd. apply Forall_forall. repeat constructor. }
  unfold digit_of. rewrite E. cbn. by rewrite (proj2 (Z.ltb_lt d base)) by lia.
Qed.

Lemma digit16_not c x : is_digit16 c -> x ∈ [","; "-"; "+"; " "; "x"; "X"; "["; "]"; "/"; "*"; "@"]%char -> c <> x.
Proof.
  intros (d & Hd & ->). revert d Hd. apply (digit_char_cases (fun d => x ∈ _ -> digit_char d <> x)). intros d Hd Hx. revert d Hd.
  apply Forall_forall. rewrite !elem_of_cons, elem_of_nil in Hx. destruct_or! Hx; try done; subst x; repeat constructor; discriminate.
Qed.

Section Show.
Context (base : Z) (Hb : 2 <= base <= 16).

Lemma digits_show f v : 0 <= v < base ^ Z.of_nat f -> (0 < f)%nat ->
  exists k, 0 < k /\ forall a any s, digits base a any (show f base v s) = digits base (a * base ^ k + v) true s.
Proof.
  revert v. induction f as [|f IH]; intros v Hv Hf; [lia|]. cbn [show].
  pose proof (Z.mod_pos_bound v base ltac:(lia)) as Hm. pose proof (Z.div_mod v base ltac:(lia)) as Hd.
  destruct (Z.eqb_spec (v / base) 0) as [E|E].
  - exists 1. split; [lia|]. intros a any s. cbn [digits]. rewrite digit_of_char by lia. f_equal. rewrite Z.pow_1_r. lia.
  - assert (0 < v / base) by (pose proof (Z.div_pos v base ltac:(lia) ltac:(lia)); lia).
    assert (0 < f)%nat as Hf'. { destruct f; [|lia]. exfalso. rewrite Z.pow_1_r in Hv. rewrite Z.div_small in E; lia. }
    destruct (IH (v / base)) as (k & Hk & Hs); [|done|].
    { split; [lia|]. apply Z.div_lt_upper_bound; [lia|]. rewrite Nat2Z.inj_succ, Z.pow_succ_r in Hv by lia. lia. }
    exists (k + 1). split; [lia|]. intros a any s. rewrite Hs. cbn [digits]. rewrite digit_of_char by lia. f_equal.
    rewrite Z.pow_add_r, Z.pow_1_r by lia. nia.
Qed.

(** A number starts with a digit, which is zero only when the number is. *)
Lemma show_head f v s : 0 <= v -> (0 < f)%nat -> v < base ^ Z.of_nat f ->
  exists d s', show f base v s = String (digit_char d) s' /\ 0 <= d < base /\ (0 < v -> 0 < d).
Proof.
  revert v s. induction f as [|f IH]; intros v s Hv Hf Hl; [lia|]. cbn [show].
  pose proof (Z.mod_pos_bound v base ltac:(lia)) as Hm. pose proof (Z.div_mod v base ltac:(lia)) as Hd.
  destruct (Z.eqb_spec (v / base) 0) as [E|E]; [exists (v mod base), s; split_and!; try done; lia|].
  assert (0 < v / base) by (pose proof (Z.div_pos v base ltac:(lia) ltac:(lia)); lia).
  assert (0 < f)%nat as Hf'. { destruct f; [|lia]. exfalso. rewrite Z.pow_1_r in Hl. rewrite Z.div_small in E; lia. }
  destruct (IH (v / base) (String (digit_char (v mod base)) s)) as (d & s' & -> & Hd' & Hp); [lia|done| |].
  { apply Z.div_lt_upper_bound; [lia|]. rewrite Nat2Z.inj_succ, Z.pow_succ_r in Hl by lia. lia. }
  exists d, s'. split_and!; try done; lia.
Qed.
End Show.

(** ** Reading them back *)

Lemma strtoul_dec v : 0 <= v < 2 ^ 64 -> strtoul (dec v) = (v, ""%string, false).
Proof.
  intros Hv. assert (v < 10 ^ Z.of_nat 64) as Hl by (cbn; lia).
  destruct (show_head 10 ltac:(lia) 64 v "" ltac:(lia) ltac:(lia) Hl) as (d & s & E & Hd & Hp).
  destruct (digits_show 10 ltac:(lia) 64 v ltac:(lia) ltac:(lia)) as (k & Hk & Hs).
  destruct (decide (v = 0)) as [->|Hne]; [by vm_compute|].
  assert (1 <= d < 10) as Hd1 by lia. clear Hd Hp.
  assert (forall s, skip_spaces (String (digit_char d) s) = String (digit_char d) s /\ sign (String (digit_char d) s) = (false, String (digit_char d) s)
    /\ prefix_base (String (digit_char d) s) = (10, String (digit_char d) s)) as Hc.
  { assert (d ∈ seqZ 1 9) as Hin by (apply elem_of_seqZ; lia). clear -Hin. revert d Hin. refine (proj1 (Forall_forall _ _) _). repeat constructor. }
  unfold strtoul. pose proof (Hs 0 false ""%string) as Hv'. unfold dec in *. rewrite E in *.
  destruct (Hc s) as (-> & -> & ->). rewrite Hv'. cbn [digits negb]. rewrite Z.mul_0_l, Z.add_0_l.
  by rewrite (proj2 (Z.leb_gt (2 ^ 64) v)) by lia.
Qed.

Lemma strtoul_hex v : 0 <= v < 2 ^ 64 -> strtoul (hex v) = (v, ""%string, false).
Proof.
  intros Hv. assert (v < 16 ^ Z.of_nat 64) as Hl by (cbn; lia).
  destruct (show_head 16 ltac:(lia) 64 v "" ltac:(lia) ltac:(lia) Hl) as (d & s & E & Hd & _).
  destruct (digits_show 16 ltac:(lia) 64 v ltac:(lia) ltac:(lia)) as (k & Hk & Hs).
  unfold strtoul, hex. cbn [String.append]. rewrite E.
  change (skip_spaces (String "0" (String "x" (String (digit_char d) s)))) with (String "0" (String "x" (String (digit_char d) s))).
  change (sign (String "0" (String "x" (String (digit_char d) s)))) with (false, String "0" (String "x" (String (digit_char d) s))).
  unfold prefix_base. rewrite (digit_of_char 16 d) by lia. cbn [andb orb Ascii.eqb Bool.eqb bool_decide decide].
  rewrite bool_decide_eq_true_2 by (by eexists). cbn [andb].
  rewrite <- E, Hs. cbn [digits negb]. rewrite Z.mul_0_l, Z.add_0_l. by rewrite (proj2 (Z.leb_gt (2 ^ 64) v)) by lia.
Qed.

(** ** Tokens *)

Fixpoint chars (s : string) : list ascii := match s with EmptyString => [] | String c s' => c :: chars s' end.

Lemma until_end d t : d ∉ chars t -> until d t = (t, ""%string).
Proof.
  induction t as [|c t IH]; intros Hd; [done|]. cbn in *. apply not_elem_of_cons in Hd as [Hc Hd].
  destruct (Ascii.eqb_spec c d); [congruence|]. by rewrite IH.
Qed.

Lemma until_delim d t rest : d ∉ chars t -> until d (t ++ String d rest) = (t, rest).
Proof.
  induction t as [|c t IH]; intros Hd; cbn in *; [by rewrite Ascii.eqb_refl|]. apply not_elem_of_cons in Hd as [Hc Hd].
  destruct (Ascii.eqb_spec c d); [congruence|]. by rewrite IH.
Qed.

Lemma strtok_start d t rest : d ∉ chars t -> t <> ""%string -> strtok d (t ++ rest) = Some (until d (t ++ rest)).
Proof.
  destruct t as [|c t]; [done|]. intros Hd _. cbn in *. apply not_elem_of_cons in Hd as [Hc _].
  by destruct (Ascii.eqb_spec c d); [congruence|].
Qed.

Lemma append_nil s : (s ++ "")%string = s.
Proof. induction s as [|c s IH]; [done|]. cbn. by rewrite IH. Qed.

Lemma strtok_last d t : d ∉ chars t -> t <> ""%string -> strtok d t = Some (t, ""%string).
Proof. intros Hd Ht. rewrite <- (append_nil t) at 1. rewrite strtok_start by done. by rewrite append_nil, until_end. Qed.

Lemma strtok_delim d t rest : d ∉ chars t -> t <> ""%string -> strtok d (t ++ String d rest) = Some (t, rest).
Proof. intros Hd Ht. rewrite strtok_start by done. by rewrite until_delim. Qed.

Lemma chars_show f base v s : 2 <= base <= 16 -> Forall is_digit16 (chars s) -> Forall is_digit16 (chars (show f base v s)).
Proof.
  intros Hb. revert v s. induction f as [|f IH]; intros v s Hs; [done|]. cbn [show].
  assert (Forall is_digit16 (chars (String (digit_char (v mod base)) s))) as Hs'.
  { cbn. constructor; [|done]. exists (v mod base). pose proof (Z.mod_pos_bound v base ltac:(lia)). split; [lia|done]. }
  destruct (_ =? 0); [done|]. by apply IH.
Qed.

Lemma dec_free v x : x ∈ [","; "-"; "+"; " "; "x"; "X"; "["; "]"; "/"; "*"; "@"]%char -> x ∉ chars (dec v).
Proof.
  intros Hx Hin. pose proof (chars_show 64 10 v "" ltac:(lia) (Forall_nil_2 _)) as H. rewrite Forall_forall in H.
  by apply (digit16_not x x (H x Hin) Hx).
Qed.

Lemma dec_nonempty v : 0 <= v < 2 ^ 64 -> dec v <> ""%string.
Proof.
  intros Hv. destruct (show_head 10 ltac:(lia) 64 v "" ltac:(lia) ltac:(lia) ltac:(cbn; lia)) as (d & s & E & _). unfold dec. by rewrite E.
Qed.

(** ** Lists of ranges *)

#[local] Opaque dec.

(** 3 for a number and 3-5 for a range *)
Definition range_text (r : Z * Z) : string := if r.1 =? r.2 then dec r.1 else (dec r.1 ++ String "-" (dec r.2))%string.

Fixpoint list_text (rs : list (Z * Z)) : string :=
  match rs with
  | [] => ""
  | [r] => range_text r
  | r :: rs' => range_text r ++ String "," (list_text rs')
  end%string.

Definition range_ok (max : Z) (r : Z * Z) : Prop := 0 <= r.1 <= r.2 /\ r.2 < max.

Definition in_ranges (rs : list (Z * Z)) (i : nat) : Prop := Exists (fun r => r.1 <= Z.of_nat i <= r.2) rs.
#[export] Instance in_ranges_dec rs i : Decision (in_ranges rs i).
Proof. unfold in_ranges. apply _. Defined.

(** The array with the numbers of the ranges marked *)
Definition marked (rs : list (Z * Z)) (marks : list Z) : list Z :=
  imap (fun i v => if bool_decide (in_ranges rs i) then 1 else v) marks.

Lemma chars_app a b : chars (a ++ b) = chars a ++ chars b.
Proof. induction a as [|c a IH]; [done|]. cbn. by rewrite IH. Qed.

Lemma range_comma r : ","%char ∉ chars (range_text r).
Proof.
  assert ("," ∈ [","; "-"; "+"; " "; "x"; "X"; "["; "]"; "/"; "*"; "@"])%char as Hc by (by left).
  unfold range_text. destruct (_ =? _); [by apply dec_free|]. rewrite chars_app. cbn [chars]. rewrite elem_of_app, elem_of_cons.
  intros [H|[H|H]]; [by apply (dec_free _ _ Hc) in H|done|by apply (dec_free _ _ Hc) in H].
Qed.

Lemma range_nonempty max r : max < 2 ^ 31 -> range_ok max r -> range_text r <> ""%string.
Proof.
  intros Hm [Hr Hr']. assert (dec r.1 <> ""%string) as H by (apply dec_nonempty; lia).
  unfold range_text. destruct (_ =? _); [done|]. by destruct (dec r.1).
Qed.

Lemma mark_ok k i marks : (i + k <= length marks)%nat ->
  mark k i marks = Some (imap (fun j v => if bool_decide (i <= j < i + k)%nat then 1 else v) marks).
Proof.
  revert i marks. induction k as [|k IH]; intros i marks Hl.
  - cbn. f_equal. apply list_eq. intros j. rewrite list_lookup_imap. destruct (marks !! j); [|done]. cbn. by rewrite bool_decide_eq_false_2 by lia.
  - cbn [mark]. rewrite (proj2 (Nat.ltb_lt i (length marks))) by lia. rewrite IH by (rewrite length_insert; lia). f_equal.
    apply list_eq. intros j. rewrite !list_lookup_imap. destruct (decide (j = i)) as [->|Hne].
    + rewrite list_lookup_insert_eq by lia. destruct (lookup_lt_is_Some_2 marks i) as [v ->]; [lia|]. cbn.
      rewrite bool_decide_eq_false_2, bool_decide_eq_true_2 by lia. done.
    + rewrite list_lookup_insert_ne by done. destruct (marks !! j); [|done]. cbn. f_equal. apply (f_equal (fun b : bool => if b then _ else _)).
      apply bool_decide_ext. lia.
Qed.

Lemma strtoul_range max v : max < 2 ^ 31 -> 0 <= v < max ->
  exists b, strtoul (dec v) = (v, ""%string, b) /\ (u64 max <=? v) = false.
Proof.
  intros Hm Hv. exists false. split; [apply strtoul_dec; lia|]. apply Z.leb_gt. rewrite wrap_small by (unfold in_range; lia). lia.
Qed.

Definition marked_one (r : Z * Z) (marks : list Z) : list Z :=
  imap (fun i v => if bool_decide (r.1 <= Z.of_nat i <= r.2) then 1 else v) marks.

Lemma marked_cons r rs marks : marked (r :: rs) marks = marked rs (marked_one r marks).
Proof.
  apply list_eq. intros i. unfold marked, marked_one. rewrite !list_lookup_imap. destruct (marks !! i) as [v|]; [|done]. cbn.
  destruct (decide (in_ranges rs i)) as [Hi|Hi].
  - by rewrite !bool_decide_eq_true_2 by (by right || done).
  - rewrite (bool_decide_eq_false_2 (in_ranges rs i)) by done. f_equal.
    destruct (decide (r.1 <= Z.of_nat i <= r.2)) as [Hr|Hr].
    + by rewrite !bool_decide_eq_true_2 by (by left || done).
    + rewrite !bool_decide_eq_false_2; [done|done|]. unfold in_ranges in *. rewrite Exists_cons. tauto.
Qed.

Lemma mark_range max r marks : range_ok max r -> (Z.to_nat max <= length marks)%nat ->
  mark (Z.to_nat (r.2 - r.1 + 1)) (Z.to_nat r.1) marks = Some (marked_one r marks).
Proof.
  intros [Hr Hr'] Hl. rewrite mark_ok by lia. f_equal. apply imap_ext. intros j v _. cbn. f_equal.
  apply (f_equal (fun b : bool => if b then _ else _)), bool_decide_ext. lia.
Qed.

Lemma range_step f s rest max r marks : max < 2 ^ 31 -> range_ok max r -> (Z.to_nat max <= length marks)%nat ->
  strtok "," s = Some (range_text r, rest) -> list_tokens (S f) s max marks = list_tokens f rest max (marked_one r marks).
Proof.
  intros Hm Hr Hl Hs. pose proof (mark_range max r marks Hr Hl) as Hmark. destruct Hr as [Hr Hr'].
  assert (forall v, ("-"%char) ∉ chars (dec v)) as Hd by (intros v; apply dec_free; right; left).
  pose proof (dec_nonempty r.1 ltac:(lia)) as N1. pose proof (dec_nonempty r.2 ltac:(lia)) as N2.
  destruct (strtoul_range max r.1 Hm ltac:(lia)) as (b1 & E1 & G1). destruct (strtoul_range max r.2 Hm ltac:(lia)) as (b2 & E2 & G2).
  cbn [list_tokens]. rewrite Hs. unfold range_text. destruct (Z.eqb_spec r.1 r.2) as [Ee|Ene].
  - rewrite (strtok_last "-" (dec r.1) (Hd _) N1), E1. cbn [is_empty negb strtok]. rewrite G1, Z.ltb_irrefl.
    rewrite <- Ee in Hmark at 1. by rewrite Hmark.
  - rewrite (strtok_delim "-" (dec r.1) (dec r.2) (Hd _) N1), E1. cbn [is_empty negb]. rewrite G1.
    rewrite (strtok_last "-" (dec r.2) (Hd _) N2), E2. cbn [is_empty negb]. rewrite G2.
    rewrite (proj2 (Z.ltb_ge r.2 r.1)) by lia. by rewrite Hmark.
Qed.

Lemma list_tokens_ok fuel rs max marks : max < 2 ^ 31 -> Forall (range_ok max) rs -> (Z.to_nat max <= length marks)%nat ->
  (length rs < fuel)%nat -> list_tokens fuel (list_text rs) max marks = Some (marked rs marks, true).
Proof.
  intros Hm. revert fuel marks. induction rs as [|r rs IH]; intros fuel marks Hr Hl Hf; (destruct fuel as [|fuel]; [cbn in Hf; lia|]).
  - cbn. f_equal. f_equal. symmetry. apply list_eq. intros i. unfold marked. rewrite list_lookup_imap. by destruct (marks !! i).
  - apply Forall_cons in Hr as [Hr Hrs]. cbn [length] in Hf.
    assert (length (marked_one r marks) = length marks) as Hlen by apply length_imap.
    assert (exists rest, strtok "," (list_text (r :: rs)) = Some (range_text r, rest) /\ rest = list_text rs) as (rest & Hs & ->).
    { destruct rs as [|r' rs']; cbn [list_text]; eexists; (split; [|reflexivity]).
      - apply strtok_last; [apply range_comma|by eapply range_nonempty].
      - apply strtok_delim; [apply range_comma|by eapply range_nonempty]. }
    rewrite (range_step fuel _ _ max r marks Hm Hr Hl Hs), marked_cons. apply IH; [done|lia|lia].
Qed.

Lemma list_text_length rs max : max < 2 ^ 31 -> Forall (range_ok max) rs -> (length rs <= String.length (list_text rs))%nat.
Proof.
  intros Hm. induction rs as [|r rs IH]; intros Hr; [done|]. apply Forall_cons in Hr as [Hr Hrs]. specialize (IH Hrs).
  assert (0 < String.length (range_text r))%nat by (pose proof (range_nonempty max r Hm Hr); destruct (range_text r); cbn; [done|lia]).
  destruct rs as [|r' rs']; cbn [list_text length] in *; [lia|].
  assert (forall a b, String.length (a ++ b) = (String.length a + String.length b)%nat) as Hap by (intros a b; induction a; cbn; congruence).
  rewrite Hap. cbn [String.length]. lia.
Qed.

(** Every argument is read to its end without leaving the array. *)
Lemma mark_total k i marks : (i + k <= length marks)%nat -> exists marks', mark k i marks = Some marks' /\ length marks' = length marks.
Proof. intros H. eexists. split; [by apply mark_ok|]. apply length_imap. Qed.

Lemma until_length d s : (String.length (until d s).2 <= String.length s)%nat.
Proof.
  induction s as [|c s IH]; cbn; [done|]. destruct (Ascii.eqb c d); cbn; [lia|]. destruct (until d s) as [t r]. cbn in *. lia.
Qed.

Lemma strtok_length d s t r : strtok d s = Some (t, r) -> (String.length r < String.length s)%nat.
Proof.
  induction s as [|c s IH]; [done|]. cbn [strtok]. destruct (Ascii.eqb_spec c d) as [->|Hne]; [intros H; cbn; specialize (IH H); lia|].
  cbn [until]. destruct (Ascii.eqb_spec c d); [done|]. pose proof (until_length d s) as Hl. destruct (until d s) as [t' r']. cbn in *.
  intros [= <- <-]. lia.
Qed.

Lemma digit_nonneg base c d : digit_of base c = Some d -> 0 <= d.
Proof.
  unfold digit_of, digit_value. set (z := char_code c).
  destruct (_ && _) eqn:E1; [|destruct ((97 <=? z) && _) eqn:E2; [|destruct ((65 <=? z) && _) eqn:E3; [|done]]];
    cbn; destruct (_ <? base); try done; intros [= <-]; lia.
Qed.

Lemma digits_nonneg base acc any s : 0 <= base -> 0 <= acc -> 0 <= (digits base acc any s).1.1.
Proof.
  intros Hb. revert acc any. induction s as [|c s IH]; intros acc any Ha; [done|]. cbn [digits].
  destruct (digit_of base c) as [d|] eqn:E; [|done]. apply IH. apply digit_nonneg in E. nia.
Qed.

Lemma strtoul_range64 s : in_range 64 (strtoul s).1.1.
Proof.
  unfold strtoul. destruct (sign (skip_spaces s)) as [neg s1]. destruct (prefix_base s1) as [base s2] eqn:Ep.
  assert (0 <= base) as Hb by (unfold prefix_base in Ep; repeat case_match; simplify_eq; lia).
  pose proof (digits_nonneg base 0 false s2 Hb ltac:(lia)) as Hv. destruct (digits base 0 false s2) as [[v any] rest]. cbn in Hv.
  destruct any; cbn [negb]; [|unfold in_range; cbn; lia]. destruct (Z.leb_spec (2 ^ 64) v); [unfold in_range; cbn; lia|].
  destruct neg; [by apply wrap_range|]. unfold in_range. cbn [fst]. lia.
Qed.

Lemma list_tokens_total fuel s max marks : 0 <= max < 2 ^ 31 -> (Z.to_nat max <= length marks)%nat -> (String.length s < fuel)%nat ->
  exists marks' ok, list_tokens fuel s max marks = Some (marks', ok) /\ length marks' = length marks.
Proof.
  intros Hm. revert s marks. induction fuel as [|fuel IH]; intros s marks Hl Hf; [lia|]. cbn [list_tokens].
  rewrite (wrap_small 64 max) by (unfold in_range; lia).
  destruct (strtok "," s) as [[tok rest]|] eqn:Et; [|by eexists _, _]. apply strtok_length in Et.
  destruct (strtok "-" tok) as [[a save2]|]; [|by eexists _, _].
  pose proof (strtoul_range64 a) as Ha. destruct (strtoul a) as [[from e1] b1]. cbn in Ha.
  destruct (is_empty e1); [|by eexists _, _]. cbn [negb]. destruct (Z.leb_spec max from) as [|H1]; [by eexists _, _|].
  match goal with |- context [match ?r with Some to => _ | None => _ end] => destruct r as [to|] eqn:Er; [|by eexists _, _] end.
  assert (to < max) as H2. { destruct (strtok "-" save2) as [[b ?]|]; [|by simplify_eq]. destruct (strtoul b) as [[to' e2] b2].
    destruct (is_empty e2); [|done]. cbn in Er. destruct (Z.leb_spec max to'); by simplify_eq. }
  destruct (Z.ltb_spec to from) as [|H3]; [by eexists _, _|].
  destruct (mark_total (Z.to_nat (to - from + 1)) (Z.to_nat from) marks) as (marks' & -> & Hlen); [unfold in_range in Ha; lia|].
  cbn. destruct (IH rest marks') as (m2 & ok & -> & Hl2); [lia|lia|]. exists m2, ok. split; [done|lia].
Qed.

(** ** The theorems *)

Lemma parse_unsigned_text max v t : 0 <= v < 2 ^ 64 -> t = dec v \/ t = hex v ->
  parse_unsigned max (Some t) = if max <? v then None else Some v.
Proof.
  intros Hv Ht. assert (strtoul t = (v, ""%string, false)) as E by (destruct Ht as [->| ->]; [by apply strtoul_dec|by apply strtoul_hex]).
  unfold parse_unsigned. cbn [mbind option_bind]. by rewrite E.
Qed.

Lemma parse_unsigned_range max argv v : parse_unsigned max argv = Some v -> 0 <= v <= max.
Proof.
  destruct argv as [s|]; [|done]. unfold parse_unsigned. cbn [mbind option_bind]. pose proof (strtoul_range64 s) as Hr.
  destruct (strtoul s) as [[x rest] errno]. cbn in Hr. destruct (errno || negb (is_empty rest)); [done|]. cbn [orb].
  destruct (Z.ltb_spec max x); [done|]. intros [= <-]. unfold in_range in Hr. lia.
Qed.

(** A number written in decimal or with 0x in hexadecimal is read as that number when it fits the
    type, and refused when it does not; whatever is accepted fits the type. *)
Theorem numbers_read v t : 0 <= v < 2 ^ 64 -> t = dec v \/ t = hex v ->
  parse_number64 (Some t) = Some v /\
  parse_number32 (Some t) = (if v <? 2 ^ 32 then Some v else None) /\
  parse_number16 (Some t) = (if v <? 2 ^ 16 then Some v else None) /\
  parse_number8 (Some t) = (if v <? 2 ^ 8 then Some v else None) /\
  (forall argv x, parse_number64 argv = Some x -> in_range 64 x) /\ (forall argv x, parse_number32 argv = Some x -> in_range 32 x) /\
  (forall argv x, parse_number16 argv = Some x -> in_range 16 x) /\ (forall argv x, parse_number8 argv = Some x -> in_range 8 x).
Proof.
  intros Hv Ht. unfold parse_number64, parse_number32, parse_number16, parse_number8.
  rewrite !(parse_unsigned_text _ v t Hv Ht). split_and!;
    try (intros argv x H%parse_unsigned_range; unfold in_range; lia).
  - by rewrite (proj2 (Z.ltb_ge (2 ^ 64 - 1) v)) by lia.
  - destruct (Z.ltb_spec (2 ^ 32 - 1) v), (Z.ltb_spec v (2 ^ 32)); done || lia.
  - destruct (Z.ltb_spec (2 ^ 16 - 1) v), (Z.ltb_spec v (2 ^ 16)); done || lia.
  - destruct (Z.ltb_spec (2 ^ 8 - 1) v), (Z.ltb_spec v (2 ^ 8)); done || lia.
Qed.

(** C13. Lists of numbers. The text of a list of numbers and ranges below [max] is read as that
    list: exactly the entries of the array that the ranges name become 1, the others stay, and
    the count is the number of entries marked. Whatever the text is, reading it ends and stays
    inside an array of [max] entries, with a result or an error. *)
Theorem list_read max marks : 0 <= max < 2 ^ 31 - 1 -> (Z.to_nat max <= length marks)%nat ->
  (forall rs, Forall (range_ok max) rs ->
     parse_list (list_text rs) max marks false = Some (marked rs marks, true, None) /\
     parse_list (list_text rs) max marks true = Some (marked rs marks, true,
       Some (Z.of_nat (length (filter (fun v => v = 1) (take (Z.to_nat max) (marked rs marks))))))) /\
  (forall arg count, exists marks' ok n, parse_list arg max marks count = Some (marks', ok, n) /\ length marks' = length marks).
Proof.
  intros Hm Hl. assert ((max <? 2 ^ 31 - 1) = true) as Hb by (apply Z.ltb_lt; lia). split.
  - intros rs Hr. unfold parse_list. rewrite Hb. cbn [negb].
    pose proof (list_text_length rs max ltac:(lia) Hr). rewrite list_tokens_ok by (done || lia). cbn [mbind option_bind andb].
    assert (length (marked rs marks) = length marks) as Hlen by apply length_imap.
    unfold count_marks. by rewrite Hlen, (proj2 (Nat.leb_le _ _) Hl).
  - intros arg count. unfold parse_list. rewrite Hb. cbn [negb].
    destruct (list_tokens_total (S (String.length arg)) arg max marks ltac:(lia) Hl ltac:(lia)) as (marks' & ok & -> & Hlen).
    cbn [mbind option_bind]. destruct (ok && count); [|by eexists _, _, _].
    unfold count_marks. rewrite Hlen, (proj2 (Nat.leb_le _ _) Hl). cbn. by eexists _, _, _.
Qed.

(** The list 0-5,7 in an array of ten *)
Definition ten_zeros : list Z := replicate 10 0.

Lemma list_read_witness :
  parse_list (list_text [(0, 5); (7, 7)]) 10 ten_zeros true = Some ([1; 1; 1; 1; 1; 1; 0; 1; 0; 0], true, Some 7) /\
  list_text [(0, 5); (7, 7)] = "0-5,7"%string.
Proof.
  split; [|vm_compute; reflexivity].
  rewrite (proj2 (proj1 (list_read 10 ten_zeros ltac:(lia) ltac:(cbn; lia)) [(0, 5); (7, 7)] ltac:(repeat constructor; cbn; lia))).
  vm_compute. reflexivity.
Defined.

(** There are 32 general registers, but number 32 is accepted, and so is a number that wraps to a
    negative one. *)
Example gpr_out_of_range :
  parse_gpr (Some "32"%string) = Some 32 /\ parse_gpr (Some "4294967295"%string) = Some (-1) /\ parse_gpr (Some "-1"%string) = Some (-1).
Proof. split_and!; vm_compute; reflexivity. Qed.

(** What follows the number is not looked at when a power of two is read, and zero is accepted. *)
Example pow2_accepts_anything :
  parse_number8_pow2 (Some "4 bytes"%string) = Some 4 /\ parse_number8_pow2 (Some "none"%string) = Some 0.
Proof. split; vm_compute; reflexivity. Qed.

(** A third number of a range is ignored, and so is an open end. *)
Example range_rest_ignored :
  parse_list "1-2-9" 10 ten_zeros false = parse_list "1-2" 10 ten_zeros false /\
  parse_list "3-" 10 ten_zeros false = parse_list "3" 10 ten_zeros false.
Proof. split; vm_compute; reflexivity. Qed.
