(* ===== verification/PathSel.v ===== *)
(** * The command line tool: choosing targets by their path

    Models src/path.c: patterns such as [pib0/core[1-3,11-13]/thread*], and the targets of the
    tree that they name. The list of the chosen targets is kept next to the state of the tree. *)

From Stdlib Require Import Ascii String.
From S2P Require Import Prelude CMem Target TargetRelease Sprs Parse.

Definition MAX_PATH_COMP_LEN : Z := 32.
Definition MAX_PATH_COMPONENTS : Z := 16.
Definition MAX_PATH_LEN : Z := 512.
Definition MAX_PATH_INDEX : Z := 64.
Definition MAX_TARGETS : Z := 64 * 24 * 8.

Record path_pattern := PathPattern {
  prefix : string;
  pat_index : list Z;
  match_full : bool;
  match_index : bool
}.

(** [strchr(s, c) != NULL] *)
Fixpoint has_char (c : ascii) (s : string) : bool :=
  match s with EmptyString => false | String a s' => Ascii.eqb a c || has_char c s' end.

(** The text up to the trailing digits, and these; [None] when there are only digits: the loop then
    runs past the start of the text. *)
Fixpoint all_digits (s : string) : bool :=
  match s with EmptyString => true | String c s' => isdigit c && all_digits s' end.
Fixpoint split_digits (s : string) : string * string :=
  match s with
  | EmptyString => (EmptyString, EmptyString)
  | String c s' => if all_digits s then (EmptyString, s) else let '(p, d) := split_digits s' in (String c p, d)
  end.

(** [atoi] of digits: a [long] that is cut to an [int] *)
Definition atoi (s : string) : Z := int32 (Z.min (digits 10 0 false s).1.1 (2 ^ 63 - 1)).

Section Path.
Abbreviation paths := (list nat).
Abbreviation m := (M (tgt paths)).

Definition str_len (s : string) : Z := Z.of_nat (String.length s).

(** [assert(strlen(src) + 1 <= n); strcpy(dest, src);] *)
Definition safe_strcpy (n : Z) (src : string) : m string := c_assert (str_len src + 1 <=? n);; mret src.

(** ** Patterns *)

(** [pat->index] before it is filled *)
Definition no_index : list Z := replicate (Z.to_nat MAX_PATH_INDEX) 0.

Definition nonempty (pat : path_pattern) : m path_pattern := if is_empty (prefix pat) then fail (-1) else mret pat.

(** [fail] is [return false]. *)
Definition path_pattern_parse (arg : string) : m path_pattern :=
  if has_char "@" arg then
    prefix ← safe_strcpy MAX_PATH_COMP_LEN arg;
    nonempty (PathPattern prefix no_index true false)
  else if has_char "*" arg then
    prefix ← safe_strcpy MAX_PATH_COMP_LEN (match strtok "*" arg with None => "all"%string | Some (tok, _) => tok end);
    nonempty (PathPattern prefix no_index false false)
  else if has_char "[" arg then
    match strtok "[" arg with
    | None => fail (-1)
    | Some (tok, saveptr) =>
        prefix ← safe_strcpy MAX_PATH_COMP_LEN tok;
        match strtok "]" saveptr with
        | None => fail (-1)
        | Some (tok, _) =>
            match parse_list tok MAX_PATH_INDEX no_index false with
            | None => crash OutOfBounds
            | Some (index, ok, _) => if ok : bool then nonempty (PathPattern prefix index false true) else fail (-1)
            end
        end
    end
  else if all_digits arg then crash OutOfBounds
  else
    let '(tmp, num) := split_digits arg in
    if negb (is_empty num) then
      let index := atoi num in
      if (index <? 0) || (MAX_PATH_INDEX <=? index) then fail (-1) else
      prefix ← safe_strcpy MAX_PATH_COMP_LEN tmp;
      nonempty (PathPattern prefix (<[Z.to_nat index := 1]> no_index) false true)
    else
      prefix ← safe_strcpy MAX_PATH_COMP_LEN tmp;
      nonempty (PathPattern prefix no_index false false).

(** The loop over the components; [pats] are those read so far. The array has room for 16: the
    17th is written outside of it. The fuel is the length of the argument and one. *)
Fixpoint split_loop (fuel : nat) (tmp : string) (pats : list path_pattern) : m (list path_pattern) :=
  match fuel with
  | O => crash NoFuel
  | S fuel' =>
      match strtok "/" tmp with
      | None => mret pats
      | Some (tok, saveptr) =>
          if MAX_PATH_LEN <=? str_len tok then fail (-1) else
          if MAX_PATH_COMPONENTS <=? Z.of_nat (length pats) then crash OutOfBounds else
          pat ← path_pattern_parse tok;
          split_loop fuel' saveptr (pats ++ [pat])
      end
  end.

Definition path_pattern_split (arg : string) : m (list path_pattern) :=
  arg_copy ← safe_strcpy MAX_PATH_LEN arg;
  split_loop (S (String.length arg)) arg_copy [].

(** ** The targets chosen *)

Context (T : dtree) (fuel : nat) (pdbg_target_dn_name : nat -> string).

Definition get_paths : m paths := s ← get_st; mret (t_dev s).
Definition put_paths (ps : paths) : m unit := s ← get_st; put_st (Tgt (t_status s) ps (t_trace s)).

(** The position of a target in the list, [None] for -1 *)
Fixpoint position (t : nat) (ps : paths) : option nat :=
  match ps with
  | [] => None
  | p :: ps' => if Nat.eqb p t then Some O else S <$> position t ps'
  end.

Definition path_target_find (prev : option nat) : m (option nat) :=
  ps ← get_paths;
  mret (t ← prev; position t ps).

(** The first of the targets of the class, or of all; a target without a class cannot be compared. *)
Fixpoint first_of_class (klass : option string) (ps : paths) : m (option nat) :=
  match ps with
  | [] => mret None
  | t :: ps' =>
      match klass with
      | None => mret (Some t)
      | Some klass' =>
          match class (node T t) with
          | None => crash OutOfBounds
          | Some c => if String.eqb klass' c then mret (Some t) else first_of_class klass ps'
          end
      end
  end.

Definition path_target_find_next (klass : option string) (index : option nat) : m (option nat) :=
  ps ← get_paths;
  first_of_class klass (drop (match index with None => O | Some i => S i end) ps).

Definition path_target_next (prev : option nat) : m (option nat) :=
  index ← path_target_find prev; path_target_find_next None index.
Definition path_target_next_class (klass : string) (prev : option nat) : m (option nat) :=
  index ← path_target_find prev; path_target_find_next (Some klass) index.

Definition path_target_add (t : nat) : m bool :=
  index ← path_target_find (Some t);
  match index with
  | Some _ => mret true
  | None =>
      ps ← get_paths;
      if Z.of_nat (length ps) =? MAX_TARGETS then mret false else
      put_paths (ps ++ [t]);; mret true
  end.

Definition path_target_present : m bool := ps ← get_paths; mret (0 <? Z.of_nat (length ps)).
Definition path_target_selected (t : nat) : m bool :=
  index ← path_target_find (Some t); mret (bool_decide (is_Some index)).

Fixpoint all_selected (n : nat) (classname : string) (parent : nat) (cur : option nat) : m bool :=
  match n with
  | O => crash NoFuel
  | S n' =>
      match cur with
      | None => mret true
      | Some t =>
          selected ← path_target_selected t;
          if negb selected then mret false else
          next ← pdbg_next_target T fuel classname (Some parent) (Some t) true;
          all_selected n' classname parent next
      end
  end.

Definition path_target_all_selected (classname : string) (parent : option nat) : m bool :=
  let parent := default (pdbg_target_root T) parent in
  first ← pdbg_next_target T fuel classname (Some parent) None true;
  all_selected fuel classname parent first.

(** ** Matching *)

(** [pats[level]] *)
Definition pat_at (pats : list path_pattern) (level : nat) : m path_pattern :=
  match pats !! level with Some p => mret p | None => crash OutOfBounds end.

(** [pats[level].index[index] == 1], where the index of the target is an [int] *)
Definition index_chosen (pat : path_pattern) (t : nat) : m bool :=
  i ← pdbg_target_index T fuel (Some t);
  v ← array_get (pat_index pat) (int32 i);
  mret (v =? 1).

(** What the code does with one target at a level: [None] is to go no further, [Some next] to go on
    with the children at the level [next]. *)
Definition match_one (t : nat) (pats : list path_pattern) (level : nat) : m (option nat) :=
  if Nat.eqb t (pdbg_target_root T) then mret (Some level) else
  pat ← pat_at pats level;
  if String.eqb "all" (prefix pat) then
    added ← path_target_add t;
    mret (if added : bool then Some level else None)
  else
  match class (node T t) with
  | None => mret (Some level)
  | Some classname =>
      comp_name ← safe_strcpy MAX_PATH_COMP_LEN (if match_full pat then pdbg_target_dn_name t else classname);
      found ← (if String.eqb comp_name (prefix pat)
               then if match_index pat then index_chosen pat t else mret true
               else mret false);
      if (found : bool) && Nat.eqb level (length pats - 1) then path_target_add t;; mret None else
      let next := if found : bool then S level else level in
      match level with
      | O => mret (Some next)
      | S before =>
          pat' ← pat_at pats before;
          if String.eqb comp_name (prefix pat') && match_index pat' then
            chosen ← index_chosen pat' t;
            mret (if chosen : bool then Some next else None)
          else mret (Some next)
      end
  end.

Fixpoint path_pattern_match (depth : nat) (t : nat) (pats : list path_pattern) (level : nat) : m unit :=
  match depth with
  | O => crash NoFuel
  | S depth' =>
      next ← match_one t pats level;
      match next with
      | None => mret tt
      | Some next => for_each_child T fuel t (fun child => path_pattern_match depth' child pats next)
      end
  end.

Fixpoint path_target_parse (args : list string) : m unit :=
  match args with
  | [] => mret tt
  | arg :: args' =>
      pats ← path_pattern_split arg;
      if Nat.eqb (length pats) 0 then fail (-1) else
      path_pattern_match fuel (pdbg_target_root T) pats 0;;
      path_target_parse args'
  end.
End Path.
