(* ===== verification/PathTheorems.v ===== *)
(** * The command line tool: which targets a path names *)

From Stdlib Require Import Ascii String.
From S2P Require Import Prelude CMem Target Sprs Parse ParseTheorems PathSel TargetFacts TargetRelease.

(** ** The command line tool: paths are read as they are written *)

(** ** Writing a path *)

#[local] Arguments String.append : simpl nomatch.

(** The forms of a component: [core], [core*] or [*], [pib0], [core[1-3,11-13]] and [adu@123000] *)
Inductive component := Named (s : string) | Every (s : string) | Nth (s : string) (i : Z) | Among (s : string) (rs : list (Z * Z)) | Exact (s : string).

Definition comp_text (c : component) : string :=
  match c with
  | Named s | Exact s => s
  | Every s => s ++ "*"
  | Nth s i => s ++ dec i
  | Among s rs => s ++ String "[" (list_text rs ++ "]")
  end%string.

Definition pattern_of (c : component) : path_pattern :=
  match c with
  | Named s => PathPattern s no_index false false
  | Every s => PathPattern (if is_empty s then "all"%string else s) no_index false false
  | Nth s i => PathPattern s (<[Z.to_nat i := 1]> no_index) false true
  | Among s rs => PathPattern s (marked rs no_index) false true
  | Exact s => PathPattern s no_index true false
  end.

Fixpoint path_text (cs : list component) : string :=
  match cs with
  | [] => ""
  | [c] => comp_text c
  | c :: cs' => comp_text c ++ String "/" (path_text cs')
  end%string.

(** A name: none of the characters with a meaning, and it fits into the buffer *)
Definition special : list ascii := ["@"; "*"; "["; "]"; "/"]%char.
Definition word (s : string) : Prop := Forall (fun c => c ∉ special) (chars s) /\ str_len s < MAX_PATH_COMP_LEN.

(** It does not end in a digit. *)
Definition plain_name (s : string) : Prop := word s /\ exists s' c, s = (s' ++ String c "")%string /\ isdigit c = false.

Definition comp_ok (c : component) : Prop :=
  match c with
  | Named s => plain_name s
  | Every s => word s
  | Nth s i => plain_name s /\ 0 <= i < MAX_PATH_INDEX
  | Among s rs => word s /\ s <> ""%string /\ rs <> [] /\ Forall (range_ok MAX_PATH_INDEX) rs
  | Exact s => "@"%char ∈ chars s /\ ("/"%char ∉ chars s) /\ str_len s < MAX_PATH_COMP_LEN
  end.

(** ** Reading it *)

Lemma has_char_spec c s : has_char c s = bool_decide (c ∈ chars s).
Proof.
  induction s as [|a s IH]; cbn; [done|]. rewrite IH. destruct (Ascii.eqb_spec a c) as [->|Hne]; cbn.
  - by rewrite bool_decide_eq_true_2 by left.
  - apply bool_decide_ext. rewrite elem_of_cons. naive_solver.
Qed.

Lemma has_char_no c s : c ∉ chars s -> has_char c s = false.
Proof. intros H. rewrite has_char_spec. by apply bool_decide_eq_false. Qed.

Lemma has_char_yes c s : c ∈ chars s -> has_char c s = true.
Proof. intros H. rewrite has_char_spec. by apply bool_decide_eq_true. Qed.

Lemma word_free s c : word s -> c ∈ special -> c ∉ chars s.
Proof. intros [H _] Hc Hin. rewrite Forall_forall in H. by apply (H c Hin). Qed.

Lemma special_dec i c : c ∈ special -> c ∉ chars (dec i).
Proof. intros Hc. apply dec_free. unfold special in Hc. set_solver. Qed.

Lemma special_list rs c : c ∈ special -> c ∉ chars (list_text rs).
Proof.
  intros Hc. assert (forall r, c ∉ chars (range_text r)) as Hr.
  { intros r. unfold range_text. destruct (_ =? _); [by apply special_dec|]. rewrite chars_app. cbn [chars].
    rewrite elem_of_app, elem_of_cons. intros [H|[->|H]]; [by apply special_dec in H| |by apply special_dec in H].
    unfold special in Hc. set_solver. }
  induction rs as [|r [|r' rs] IH]; cbn [list_text]; [apply not_elem_of_nil|apply Hr|]. rewrite chars_app. cbn [chars].
  rewrite elem_of_app, elem_of_cons. intros [H|[->|H]]; [by apply Hr in H| |by apply IH]. unfold special in Hc. set_solver.
Qed.

Lemma all_digits_show f v s : all_digits s = true -> all_digits (show f 10 v s) = true.
Proof.
  revert v s. induction f as [|f IH]; intros v s Hs; [done|]. cbn [show].
  assert (all_digits (String (digit_char (v mod 10)) s) = true) as Hs'.
  { cbn. rewrite Hs, andb_true_r. pose proof (Z.mod_pos_bound v 10 ltac:(lia)) as Hm. assert (v mod 10 ∈ seqZ 0 10) as Hin by (apply elem_of_seqZ; lia).
    revert Hin. generalize (v mod 10). clear. intros d Hin. revert d Hin. refine (proj1 (Forall_forall _ _) _). repeat constructor. }
  destruct (_ =? 0); [done|]. by apply IH.
Qed.

Lemma all_digits_dec v : all_digits (dec v) = true.
Proof. by apply all_digits_show. Qed.

Lemma split_digits_all d : all_digits d = true -> split_digits d = (""%string, d).
Proof. destruct d; [done|]. intros H. cbn [split_digits]. by rewrite H. Qed.

Lemma all_digits_not s' c d : isdigit c = false -> all_digits (s' ++ String c d) = false.
Proof. intros Hc. induction s' as [|a s' IH]; cbn; [by rewrite Hc|]. rewrite IH. apply andb_false_r. Qed.

Lemma split_digits_at s' c d : isdigit c = false -> all_digits d = true ->
  split_digits (s' ++ String c d) = ((s' ++ String c "")%string, d).
Proof.
  intros Hc Hd. induction s' as [|a s' IH].
  - cbn [String.append split_digits all_digits]. rewrite Hc. cbn [andb]. by rewrite split_digits_all.
  - cbn [String.append split_digits all_digits]. rewrite (all_digits_not s' c d Hc), andb_false_r. by rewrite IH.
Qed.

Lemma append_assoc a b c : ((a ++ b) ++ c)%string = (a ++ (b ++ c))%string.
Proof. induction a as [|x a IH]; [done|]. cbn. by rewrite IH. Qed.

Lemma plain_split s d : plain_name s -> all_digits d = true -> split_digits (s ++ d) = (s, d) /\ all_digits (s ++ d) = false.
Proof.
  intros [_ (s' & c & -> & Hc)] Hd. rewrite append_assoc. cbn [String.append]. split; [by apply split_digits_at|by apply all_digits_not].
Qed.

Lemma plain_nonempty s : plain_name s -> is_empty s = false.
Proof. intros [_ (s' & c & -> & _)]. by destruct s'. Qed.

Lemma atoi_dec i : 0 <= i < 2 ^ 31 -> atoi (dec i) = i.
Proof.
  intros Hi. destruct (digits_show 10 ltac:(lia) 64 i ltac:(cbn; lia) ltac:(lia)) as (k & Hk & Hs).
  unfold atoi, dec. rewrite Hs. cbn [digits fst]. rewrite Z.mul_0_l, Z.add_0_l, Z.min_l by lia.
  unfold int32. rewrite wrap_small by (unfold in_range; lia). by rewrite (proj2 (Z.ltb_lt _ _)) by lia.
Qed.

#[local] Opaque dec.

Lemma strcpy_fits n s (w : world (tgt (list nat))) : str_len s < n -> safe_strcpy n s w = (Ret s, w).
Proof. intros H. unfold safe_strcpy, mbind, M_bind. by rewrite (proj2 (Z.leb_le (str_len s + 1) n)) by lia. Qed.

(** Copying a name and checking that it is not empty *)
Lemma name_ok s (mk : string -> path_pattern) (w : world (tgt (list nat))) : str_len s < MAX_PATH_COMP_LEN -> is_empty s = false ->
  (forall s, prefix (mk s) = s) -> (p ← safe_strcpy MAX_PATH_COMP_LEN s; nonempty (mk p)) w = (Ret (mk s), w).
Proof. intros Hs Hn Hp. unfold mbind, M_bind. rewrite (strcpy_fits _ s w Hs). unfold nonempty. by rewrite Hp, Hn. Qed.

Lemma named_read s (w : world (tgt (list nat))) : plain_name s -> path_pattern_parse s w = (Ret (pattern_of (Named s)), w).
Proof.
  intros Hs. pose proof (plain_nonempty s Hs) as Hn. pose proof (proj1 Hs) as Hw. unfold path_pattern_parse.
  rewrite !has_char_no by (apply word_free; [done|unfold special; set_solver]).
  destruct (plain_split s "" Hs eq_refl) as [E F]. rewrite append_nil in E, F. rewrite E, F. cbn [is_empty negb].
  by apply (name_ok s (fun p => PathPattern p no_index false false)); [apply Hw| |].
Qed.

Lemma nth_read s i (w : world (tgt (list nat))) : plain_name s -> 0 <= i < MAX_PATH_INDEX -> path_pattern_parse (s ++ dec i) w = (Ret (pattern_of (Nth s i)), w).
Proof.
  intros Hs Hi. pose proof (plain_nonempty s Hs) as Hn. pose proof (proj1 Hs) as Hw. unfold path_pattern_parse. unfold MAX_PATH_INDEX in *.
  assert (forall c, c ∈ special -> c ∉ chars (s ++ dec i)) as Hc.
  { intros c Hc. rewrite chars_app, elem_of_app. intros [H|H]; [by apply (word_free s c Hw)|by apply (special_dec i c)]. }
  rewrite !has_char_no by (apply Hc; unfold special; set_solver).
  destruct (plain_split s (dec i) Hs (all_digits_dec i)) as [E F]. rewrite E, F.
  assert (is_empty (dec i) = false) as -> by (pose proof (dec_nonempty i ltac:(lia)); by destruct (dec i)). cbn [negb].
  rewrite atoi_dec by lia. rewrite (proj2 (Z.ltb_ge i 0)), (proj2 (Z.leb_gt 64 i)) by lia. cbn [orb].
  by apply (name_ok s (fun p => PathPattern p (<[Z.to_nat i := 1]> no_index) false true)); [apply Hw| |].
Qed.

Lemma every_read s (w : world (tgt (list nat))) : word s -> path_pattern_parse (s ++ "*") w = (Ret (pattern_of (Every s)), w).
Proof.
  intros Hw. unfold path_pattern_parse.
  rewrite (has_char_no "@"); [|rewrite chars_app, elem_of_app; intros [H|H]; [apply (word_free s _ Hw) in H; [done|unfold special; set_solver]|cbn in H; set_solver]].
  rewrite (has_char_yes "*") by (rewrite chars_app, elem_of_app; right; by left).
  destruct (is_empty s) eqn:Es.
  - destruct s; [|done]. by apply (name_ok "all" (fun p => PathPattern p no_index false false)).
  - rewrite (strtok_delim "*" s ""); [|apply word_free; [done|unfold special; set_solver]|by destruct s].
    cbn [pattern_of]. rewrite Es. by apply (name_ok s (fun p => PathPattern p no_index false false)); [apply Hw| |].
Qed.

Lemma exact_read s (w : world (tgt (list nat))) : comp_ok (Exact s) -> path_pattern_parse s w = (Ret (pattern_of (Exact s)), w).
Proof.
  intros (Ha & _ & Hl). unfold path_pattern_parse. rewrite (has_char_yes "@") by done.
  apply (name_ok s (fun p => PathPattern p no_index true false)); [done| |done]. by destruct s; [apply elem_of_nil in Ha|].
Qed.

Lemma among_read s rs (w : world (tgt (list nat))) : comp_ok (Among s rs) -> path_pattern_parse (comp_text (Among s rs)) w = (Ret (pattern_of (Among s rs)), w).
Proof.
  intros (Hw & Hs & Hr & Hrs). unfold path_pattern_parse. cbn [comp_text].
  assert (forall c, c ∈ ["@"; "*"]%char -> c ∉ chars (s ++ String "[" (list_text rs ++ "]"))) as Hc.
  { intros c Hc. assert (c ∈ special) as Hc' by (unfold special; set_solver). rewrite chars_app. cbn [chars]. rewrite chars_app. cbn [chars].
    pose proof (word_free s c Hw Hc'). pose proof (special_list rs c Hc'). set_solver. }
  rewrite (has_char_no "@"), (has_char_no "*") by (apply Hc; set_solver).
  rewrite (has_char_yes "[") by (rewrite chars_app, elem_of_app; right; by left).
  rewrite (strtok_delim "[" s); [|apply word_free; [done|unfold special; set_solver]|done].
  unfold mbind, M_bind. rewrite (strcpy_fits _ s w) by apply Hw.
  assert (list_text rs <> ""%string) as Hne.
  { pose proof (list_text_length rs 64 ltac:(lia) Hrs). destruct rs; [done|]. destruct (list_text (p :: rs)); cbn in *; [lia|done]. }
  rewrite (strtok_delim "]" (list_text rs) ""); [|apply special_list; unfold special; set_solver|done].
  unfold parse_list. change (MAX_PATH_INDEX <? 2 ^ 31 - 1) with true. cbn [negb].
  rewrite (list_tokens_ok _ rs MAX_PATH_INDEX no_index); [|done|done|done|pose proof (list_text_length rs 64 ltac:(lia) Hrs); lia].
  cbn [mbind option_bind andb pattern_of]. unfold nonempty. by destruct s.
Qed.

Lemma comp_read c (w : world (tgt (list nat))) : comp_ok c -> path_pattern_parse (comp_text c) w = (Ret (pattern_of c), w).
Proof.
  destruct c; cbn [comp_ok]; [apply named_read|apply every_read|intros []; by apply nth_read|by apply among_read|by apply exact_read].
Qed.

Lemma comp_slash c : comp_ok c -> "/"%char ∉ chars (comp_text c).
Proof.
  assert ("/"%char ∈ special) as Hs by (unfold special; set_solver).
  destruct c as [s|s|s i|s rs|s]; cbn [comp_ok comp_text]; rewrite ?chars_app; cbn [chars]; rewrite ?chars_app, ?elem_of_app; cbn [chars].
  - intros [Hw _]. by apply word_free.
  - intros Hw [H|H]; [by apply (word_free s _ Hw Hs)|set_solver].
  - intros [[Hw _] _] [H|H]; [by apply (word_free s _ Hw Hs)|by apply (special_dec i _ Hs)].
  - intros (Hw & _). pose proof (word_free s _ Hw Hs). pose proof (special_list rs _ Hs). set_solver.
  - by intros (_ & ? & _).
Qed.

Lemma comp_nonempty c : comp_ok c -> comp_text c <> ""%string.
Proof.
  destruct c as [s|s|s i|s rs|s]; cbn [comp_ok comp_text]; try (by destruct s).
  - intros H%plain_nonempty. by destruct s.
  - intros [H%plain_nonempty _]. by destruct s.
  - intros [H _]. destruct s; [by apply elem_of_nil in H|done].
Qed.

Lemma append_length a b : str_len (a ++ b) = str_len a + str_len b.
Proof. unfold str_len. induction a as [|x a IH]; cbn [String.append String.length]; lia. Qed.

(** A path that the tool takes: at most 16 components, that fit into the buffer together *)
Record path_ok (cs : list component) : Prop := {
  path_comps : Forall comp_ok cs;
  path_some : cs <> [];
  path_count : Z.of_nat (length cs) <= MAX_PATH_COMPONENTS;
  path_room : str_len (path_text cs) < MAX_PATH_LEN
}.

Lemma split_loop_read cs : Forall comp_ok cs -> str_len (path_text cs) < MAX_PATH_LEN -> forall fuel pats (w : world (tgt (list nat))), (length cs < fuel)%nat ->
  Z.of_nat (length pats + length cs) <= MAX_PATH_COMPONENTS ->
  split_loop fuel (path_text cs) pats w = (Ret (pats ++ map pattern_of cs), w).
Proof.
  induction cs as [|c cs IH]; intros Hc Hl fuel pats w Hf Hp; (destruct fuel as [|fuel]; [cbn in Hf; lia|]).
  { cbn. by rewrite app_nil_r. }
  apply Forall_cons in Hc as [Hc Hcs]. cbn [length] in *.
  assert (exists rest, strtok "/" (path_text (c :: cs)) = Some (comp_text c, rest) /\ rest = path_text cs /\
    str_len (comp_text c) < MAX_PATH_LEN /\ str_len rest < MAX_PATH_LEN) as (rest & Hs & -> & H1 & H2).
  { destruct cs as [|c' cs]; cbn [path_text] in *; eexists; (split; [|split; [reflexivity|]]).
    - apply strtok_last; [by apply comp_slash|by apply comp_nonempty].
    - done.
    - apply strtok_delim; [by apply comp_slash|by apply comp_nonempty].
    - rewrite append_length in Hl. unfold str_len in *. cbn [String.length] in Hl. fold (path_text (c' :: cs)) in *. lia. }
  cbn [split_loop]. rewrite Hs, (proj2 (Z.leb_gt _ _) H1), (proj2 (Z.leb_gt MAX_PATH_COMPONENTS (Z.of_nat (length pats)))) by lia.
  unfold mbind, M_bind. rewrite (comp_read c w Hc), (IH Hcs H2) by (rewrite ?length_app; cbn; lia).
  by rewrite <- app_assoc.
Qed.

Lemma path_text_cons c c' cs : path_text (c :: c' :: cs) = (comp_text c ++ String "/" (path_text (c' :: cs)))%string.
Proof. done. Qed.

Lemma path_text_length cs : Forall comp_ok cs -> (length cs <= String.length (path_text cs))%nat.
Proof.
  induction cs as [|c cs IH]; intros Hc; [done|]. apply Forall_cons in Hc as [Hc Hcs]. specialize (IH Hcs).
  assert (0 < str_len (comp_text c)) by (pose proof (comp_nonempty c Hc); unfold str_len; destruct (comp_text c); cbn; [done|lia]).
  destruct cs as [|c' cs]; [cbn; unfold str_len in *; lia|]. 
  rewrite (path_text_cons c c' cs). cbn [length] in *.
  pose proof (append_length (comp_text c) (String "/" (path_text (c' :: cs)))) as E. unfold str_len in *. cbn [String.length] in E. lia.
Qed.

Lemma split_read cs (w : world (tgt (list nat))) : path_ok cs -> path_pattern_split (path_text cs) w = (Ret (map pattern_of cs), w).
Proof.
  intros [Hc Hn Hk Hl]. unfold path_pattern_split, mbind, M_bind. rewrite (strcpy_fits _ _ w Hl).
  pose proof (path_text_length cs Hc). by rewrite (split_loop_read cs Hc Hl) by (cbn; lia).
Qed.

Lemma pattern_indexes cs : Forall (fun p => Z.of_nat (length (pat_index p)) = MAX_PATH_INDEX) (map pattern_of cs).
Proof.
  apply Forall_map, Forall_true. intros [s|s|s i|s rs|s]; cbn [pattern_of pat_index]; unfold compose; cbn [pattern_of pat_index]; by rewrite ?length_insert, ?length_imap.
Qed.

(** ** What a path means *)

Section Meaning.
Context (T : dtree) (dn_name : nat -> string) (idx : nat -> Z) (pats : list path_pattern).

(** The name of a target that a pattern is compared with *)
Definition comp_name (pat : path_pattern) (t : nat) (classname : string) : string := if match_full pat then dn_name t else classname.

Definition chosen (pat : path_pattern) (t : nat) : bool :=
  match pat_index pat !! Z.to_nat (idx t) with Some v => v =? 1 | None => false end.

(** A target matches a component by its name and, where numbers are given, by its index. *)
Definition matches (pat : path_pattern) (t : nat) (classname : string) : bool :=
  String.eqb (comp_name pat t classname) (prefix pat) && (negb (match_index pat) || chosen pat t).

(** A target at a level of the path: it is passed, taken, both, or the search ends there. *)
Inductive verdict := Down (next : nat) | Take | TakeDown (next : nat) | Halt.

(** The numbers of the component before rule out the target. *)
Definition ruled_out (pat : path_pattern) (t : nat) (name : string) : bool :=
  String.eqb name (prefix pat) && match_index pat && negb (chosen pat t).

Definition judge_at (level t : nat) : verdict :=
  if Nat.eqb t (pdbg_target_root T) then Down level else
  match pats !! level with
  | None => Halt
  | Some pat =>
      if String.eqb "all" (prefix pat) then TakeDown level else
      match class (node T t) with
      | None => Down level
      | Some classname =>
          let found := matches pat t classname in
          if found && Nat.eqb level (length pats - 1) then Take else
          let next := if found then S level else level in
          match level with
          | O => Down next
          | S before =>
              match pats !! before with
              | None => Halt
              | Some pat' => if ruled_out pat' t (comp_name pat t classname) then Halt else Down next
              end
          end
      end
  end.

Definition goes (v : verdict) : option nat := match v with Down next | TakeDown next => Some next | _ => None end.
Definition takes (v : verdict) : bool := match v with Take | TakeDown _ => true | _ => false end.

(** [x] is named by the rest of the path from [level] on, seen from [t]. *)
Inductive selects : nat -> nat -> nat -> Prop :=
| select_here level t : takes (judge_at level t) = true -> selects level t t
| select_below level t next c x : goes (judge_at level t) = Some next -> c ∈ child_targets T t -> selects next c x -> selects level t x.
End Meaning.

(** ** Matching finds it *)

Section Match.
Context (T : dtree) (HL : linked T) (fuel : nat) (dn_name : nat -> string) (pats : list path_pattern).
Abbreviation m := (M (tgt (list nat))).

(** The targets of the tree, their ancestors and their heights *)
Context (targets : list nat) (Hroot : pdbg_target_root T ∈ targets).
Context (Hclosed : forall t c, t ∈ targets -> c ∈ child_targets T t -> c ∈ targets).
Context (line : nat -> list nat) (Hline : forall t, t ∈ targets -> ancestry T true t (line t) /\ (length (line t) < fuel)%nat).
Context (height : nat -> nat) (Hheight : forall t c, c ∈ child_targets T t -> (height c < height t)%nat).
Context (Hwidth : forall t, t ∈ targets -> (length (child_targets T t) < fuel)%nat).
Context (Hroom : Z.of_nat (length targets) <= MAX_TARGETS).

Definition idx (t : nat) : Z := int32 (first_index T (line t)).

(** The names fit into the buffer, and an index that is looked up is within the array. *)
Record named (t : nat) : Prop := {
  named_class c : class (node T t) = Some c -> str_len c + 1 <= MAX_PATH_COMP_LEN;
  named_full : str_len (dn_name t) + 1 <= MAX_PATH_COMP_LEN;
  named_index c : t <> pdbg_target_root T -> class (node T t) = Some c -> 0 <= idx t < MAX_PATH_INDEX
}.
Context (Hnamed : forall t, t ∈ targets -> named t).
Context (Hpats : Forall (fun p => Z.of_nat (length (pat_index p)) = MAX_PATH_INDEX) pats).

Abbreviation judge := (judge_at T dn_name idx pats).
Abbreviation selects := (selects T dn_name idx pats).

(** The list [ps] with the targets of [P] added, each once *)
Definition grown (P : nat -> Prop) (ps ps' : list nat) : Prop :=
  NoDup ps' /\ ps `prefix_of` ps' /\ ps' ⊆ targets /\ forall x, x ∈ ps' <-> x ∈ ps \/ P x.

Lemma grown_trans P Q ps ps1 ps2 : grown P ps ps1 -> grown Q ps1 ps2 -> grown (fun x => P x \/ Q x) ps ps2.
Proof.
  intros (_ & H1 & _ & E1) (H2 & H3 & H4 & E2). split_and!; [done|by etrans|done|]. intros x. rewrite E2, E1. tauto.
Qed.

Lemma grown_ext P Q ps ps' : (forall x, P x <-> Q x) -> grown P ps ps' -> grown Q ps ps'.
Proof. intros H (H1 & H2 & H3 & E). split_and!; [done..|]. intros x. by rewrite E, H. Qed.

Lemma grown_none (P : nat -> Prop) ps : NoDup ps -> ps ⊆ targets -> (forall x, ~ P x) -> grown P ps ps.
Proof. intros Hn Hs HP. split_and!; [done|done|done|]. intros x. specialize (HP x). tauto. Qed.

(** Running on the list only *)
Definition lists (op : m unit) (P : nat -> Prop) : Prop :=
  forall h n st ps tr, NoDup ps -> ps ⊆ targets ->
    exists ps', op (World h n (Tgt st ps tr)) = (Ret tt, World h n (Tgt st ps' tr)) /\ grown P ps ps'.

Lemma position_spec t ps : is_Some (position t ps) <-> t ∈ ps.
Proof.
  induction ps as [|p ps IH]; cbn; [split; [by intros []|by intros ?%elem_of_nil]|]. rewrite elem_of_cons, <- IH.
  destruct (Nat.eqb_spec p t) as [->|Hne]; [split; [by left|by eexists]|].
  destruct (position t ps); cbn; split; try (by intros []; congruence || eauto); intros [|[]]; try congruence; eauto.
Qed.

Lemma add_ok t h n st ps tr : t ∈ targets -> NoDup ps -> ps ⊆ targets ->
  exists ps', path_target_add t (World h n (Tgt st ps tr)) = (Ret true, World h n (Tgt st ps' tr)) /\ grown (fun x => x = t) ps ps'.
Proof.
  intros Ht Hn Hs. unfold path_target_add, path_target_find, get_paths, get_st, mbind, M_bind, mret, M_ret. cbn.
  pose proof (position_spec t ps) as Hp. destruct (position t ps) as [i|] eqn:E; cbn.
  - assert (t ∈ ps) as Hin by (apply Hp; by eexists). exists ps. split; [done|]. split_and!; try done. intros x. split; [by left|]. by intros [?| ->].
  - assert (t ∉ ps) as Hin by (rewrite <- Hp; by intros []). exists (ps ++ [t]).
    assert (NoDup (ps ++ [t])) as Hn'.
    { apply NoDup_app. split_and!; [done|intros x Hx ->%list_elem_of_singleton; done|apply NoDup_singleton]. }
    assert (ps ++ [t] ⊆ targets) as Hs' by (intros x [Hx| ->%list_elem_of_singleton]%elem_of_app; auto).
    pose proof (submseteq_length _ _ (NoDup_submseteq _ _ Hn' (fun x Hx => Hs' x Hx))) as Hlen. rewrite length_app in Hlen. cbn in Hlen.
    destruct (Z.eqb_spec (Z.of_nat (length ps)) MAX_TARGETS) as [Em|_]; [lia|]. split; [done|].
    split_and!; [done|by apply prefix_app_r|done|]. intros x. by rewrite elem_of_app, list_elem_of_singleton.
Qed.

Lemma index_chosen_ok pat t c (w : world (tgt (list nat))) : t ∈ targets -> t <> pdbg_target_root T -> class (node T t) = Some c -> Z.of_nat (length (pat_index pat)) = MAX_PATH_INDEX ->
  index_chosen T fuel pat t w = (Ret (chosen idx pat t), w).
Proof.
  intros Ht Hr Hc Hl. destruct (Hline t Ht) as [Ha Hf]. destruct (named_index t (Hnamed t Ht) c Hr Hc) as [H0 H1].
  unfold index_chosen, mbind, M_bind. rewrite (index_ok T fuel t (line t) w Ha Hf). fold (idx t).
  unfold array_get, chosen. rewrite (proj2 (Z.ltb_ge (idx t) 0) H0).
  destruct (lookup_lt_is_Some_2 (pat_index pat) (Z.to_nat (idx t))) as [v ->]; [lia|]. done.
Qed.

Lemma strcpy_ok pat t c (w : world (tgt (list nat))) : t ∈ targets -> class (node T t) = Some c ->
  safe_strcpy MAX_PATH_COMP_LEN (if match_full pat then dn_name t else c) w = (Ret (comp_name dn_name pat t c), w).
Proof.
  intros Ht Hc. destruct (Hnamed t Ht) as [Hn Hf _]. unfold safe_strcpy, comp_name, mbind, M_bind.
  assert ((str_len (if match_full pat then dn_name t else c) + 1 <=? MAX_PATH_COMP_LEN) = true) as -> by (apply Z.leb_le; destruct (match_full pat); auto).
  done.
Qed.

Lemma goes_level level t next : (level < length pats)%nat -> goes (judge level t) = Some next -> (next < length pats)%nat.
Proof.
  intros Hl. unfold judge_at. destruct (Nat.eqb t _); [cbn; intros; by simplify_eq|].
  destruct (lookup_lt_is_Some_2 pats level Hl) as [pat ->]. destruct (String.eqb "all" _); [cbn; intros; by simplify_eq|].
  destruct (class (node T t)) as [c|]; [|cbn; intros; by simplify_eq].
  destruct (matches _ _ pat t c); cbn [andb]; [destruct (Nat.eqb_spec level (length pats - 1)); [done|]|];
    (destruct level as [|level]; [|destruct (pats !! level); [destruct (ruled_out _ _ _ _); [done|]|done]]); cbn; intros; simplify_eq; lia.
Qed.

Lemma pat_at_ok level pat (w : world (tgt (list nat))) : pats !! level = Some pat -> pat_at pats level w = (Ret pat, w).
Proof. intros H. unfold pat_at. by rewrite H. Qed.

(** The code decides as [judge] does. *)
Lemma match_one_ok t level h n st ps tr : t ∈ targets -> (level < length pats)%nat -> NoDup ps -> ps ⊆ targets ->
  exists ps', match_one T fuel dn_name t pats level (World h n (Tgt st ps tr)) = (Ret (goes (judge level t)), World h n (Tgt st ps' tr)) /\
    grown (fun x => takes (judge level t) = true /\ x = t) ps ps'.
Proof.
  intros Ht Hl Hn Hs. unfold match_one, judge_at.
  destruct (Nat.eqb_spec t (pdbg_target_root T)) as [_|Hr]; [exists ps; split; [done|]; apply grown_none; naive_solver|].
  destruct (lookup_lt_is_Some_2 pats level Hl) as [pat Hpat]. rewrite Hpat.
  pose proof (proj1 (Forall_lookup _ _) Hpats level pat Hpat) as Hlen. cbn beta in Hlen.
  unfold mbind at 1, M_bind at 1. rewrite (pat_at_ok level pat _ Hpat).
  destruct (String.eqb "all" (prefix pat)).
  { destruct (add_ok t h n st ps tr Ht Hn Hs) as (ps' & E & Hg). exists ps'. unfold mbind, M_bind. rewrite E. split; [done|].
    eapply grown_ext; [|exact Hg]. intros x. cbn. tauto. }
  destruct (class (node T t)) as [c|] eqn:Hc; [|exists ps; split; [done|]; apply grown_none; naive_solver].
  unfold mbind at 1, M_bind at 1. rewrite (strcpy_ok pat t c _ Ht Hc).
  assert (forall w : world (tgt (list nat)), (if String.eqb (comp_name dn_name pat t c) (prefix pat) then
      (if match_index pat then index_chosen T fuel pat t else mret true) else mret false) w = (Ret (matches dn_name idx pat t c), w)) as Hf.
  { intros w. unfold matches. destruct (String.eqb _ _); [|done]. destruct (match_index pat); [|done]. cbn [andb negb orb]. by eapply index_chosen_ok. }
  unfold mbind at 1, M_bind at 1. rewrite Hf. destruct (matches dn_name idx pat t c && Nat.eqb level (length pats - 1)).
  { destruct (add_ok t h n st ps tr Ht Hn Hs) as (ps' & E & Hg). exists ps'. unfold mbind, M_bind. rewrite E. split; [done|].
    eapply grown_ext; [|exact Hg]. intros x. cbn. tauto. }
  destruct level as [|before]; [exists ps; split; [done|]; apply grown_none; naive_solver|].
  destruct (lookup_lt_is_Some_2 pats before ltac:(lia)) as [pat' Hpat'].
  rewrite Hpat'. unfold mbind at 1, M_bind at 1. rewrite (pat_at_ok before pat' _ Hpat').
  pose proof (proj1 (Forall_lookup _ _) Hpats before pat' Hpat') as Hlen'. unfold ruled_out.
  destruct (String.eqb _ (prefix pat') && match_index pat'); cbn [andb]; [|exists ps; split; [done|]; apply grown_none; naive_solver].
  unfold mbind, M_bind. rewrite (index_chosen_ok pat' t c _ Ht Hr Hc Hlen'). exists ps.
  destruct (chosen idx pat' t); (split; [done|]); apply grown_none; naive_solver.
Qed.

Lemma run_all_lists body cs (P : nat -> nat -> Prop) : (forall c, c ∈ cs -> lists (body c) (P c)) ->
  lists (run_all body cs) (fun x => exists c, c ∈ cs /\ P c x).
Proof.
  induction cs as [|c cs IH]; intros Hb h n st ps tr Hn Hs.
  { exists ps. split; [done|]. apply grown_none; [done|done|]. intros x (c & Hc & _). by apply elem_of_nil in Hc. }
  destruct (Hb c ltac:(left) h n st ps tr Hn Hs) as (ps1 & E1 & H1). pose proof H1 as (Hn1 & _ & Hs1 & _).
  destruct (IH ltac:(intros c' Hc'; apply Hb; by right) h n st ps1 tr Hn1 Hs1) as (ps2 & E2 & H2).
  exists ps2. cbn [run_all]. unfold mbind, M_bind. rewrite E1, E2. split; [done|].
  eapply grown_ext; [|by eapply grown_trans]. intros x. setoid_rewrite elem_of_cons. naive_solver.
Qed.

Lemma match_ok depth t level : t ∈ targets -> (level < length pats)%nat -> (height t < depth)%nat ->
  lists (path_pattern_match T fuel dn_name depth t pats level) (selects level t).
Proof.
  revert t level. induction depth as [|depth IH]; intros t level Ht Hl Hd h n st ps tr Hn Hs; [lia|]. cbn [path_pattern_match].
  destruct (match_one_ok t level h n st ps tr Ht Hl Hn Hs) as (ps1 & E1 & H1). pose proof H1 as (Hn1 & _ & Hs1 & _).
  unfold mbind, M_bind. rewrite E1. destruct (goes (judge level t)) as [next|] eqn:Eg.
  - rewrite (for_each_child_ok T HL fuel t) by auto.
    destruct (run_all_lists (fun c => path_pattern_match T fuel dn_name depth c pats next) (child_targets T t) (selects next)) with (h := h) (n := n) (st := st) (ps := ps1) (tr := tr)
      as (ps2 & E2 & H2); [|done|done|].
    { intros c Hc. apply IH; [by eapply Hclosed|by eapply goes_level|]. specialize (Hheight t c Hc). lia. }
    exists ps2. split; [exact E2|]. eapply grown_ext; [|by eapply grown_trans]. intros x. split.
    + intros [[Hj ->]|(c & Hc & Hx)]; [by apply select_here|by eapply select_below].
    + intros Hx. inversion Hx; subst; [by left|]. right. exists c. split; [done|]. by simplify_eq.
  - exists ps1. split; [done|]. eapply grown_ext; [|exact H1]. intros x. split; [intros [Hj ->]; by apply select_here|].
    intros Hx. inversion Hx; subst; [done|]. by simplify_eq.
Qed.
End Match.

(** ** The targets of a path *)

(** A tree that paths can be matched in: its targets are [targets], the targets above [t] are
    [line t], it is no deeper and no wider than [fuel], and the names and indexes fit. *)
Record path_tree (T : dtree) (fuel : nat) (dn_name : nat -> string) (targets : list nat) (line : nat -> list nat) (height : nat -> nat) : Prop := {
  tree_linked : linked T;
  tree_root : pdbg_target_root T ∈ targets;
  tree_closed t c : t ∈ targets -> c ∈ child_targets T t -> c ∈ targets;
  tree_line t : t ∈ targets -> ancestry T true t (line t) /\ (length (line t) < fuel)%nat;
  tree_height t c : c ∈ child_targets T t -> (height c < height t)%nat;
  tree_depth : (height (pdbg_target_root T) < fuel)%nat;
  tree_width t : t ∈ targets -> (length (child_targets T t) < fuel)%nat;
  tree_room : Z.of_nat (length targets) <= MAX_TARGETS;
  tree_named t : t ∈ targets -> named T dn_name line t
}.

(** What a path names *)
Definition names_target (T : dtree) (dn_name : nat -> string) (line : nat -> list nat) (path : list component) (x : nat) : Prop :=
  selects T dn_name (idx T line) (map pattern_of path) 0 (pdbg_target_root T) x.

Lemma parse_lists T fuel dn_name targets line height : path_tree T fuel dn_name targets line height ->
  forall paths, Forall path_ok paths ->
  lists targets (path_target_parse T fuel dn_name (map path_text paths)) (fun x => exists path, path ∈ paths /\ names_target T dn_name line path x).
Proof.
  intros [HL Hroot Hclosed Hline Hheight Hdepth Hwidth Hroom Hnamed] paths.
  induction paths as [|path paths IH]; intros Hp h n st ps tr Hn Hs.
  { exists ps. split; [done|]. apply grown_none; [done|done|]. intros x (p & Hin & _). by apply elem_of_nil in Hin. }
  apply Forall_cons in Hp as [Hp Hps]. cbn [map path_target_parse]. pose proof (path_some path Hp) as Hne.
  assert (0 < length (map pattern_of path))%nat as Hlen by (rewrite length_map; destruct path; [done|cbn; lia]).
  destruct (match_ok T HL fuel dn_name (map pattern_of path) targets Hclosed line Hline height Hheight Hwidth Hroom Hnamed (pattern_indexes path)
    fuel (pdbg_target_root T) 0 Hroot Hlen Hdepth h n st ps tr Hn Hs) as (ps1 & E1 & H1). pose proof H1 as (Hn1 & _ & Hs1 & _).
  destruct (IH Hps h n st ps1 tr Hn1 Hs1) as (ps2 & E2 & H2). exists ps2.
  unfold mbind, M_bind. rewrite (split_read path _ Hp). destruct (Nat.eqb_spec (length (map pattern_of path)) 0); [lia|].
  rewrite E1, E2. split; [done|]. eapply grown_ext; [|by eapply grown_trans]. intros x. setoid_rewrite elem_of_cons. unfold names_target. naive_solver.
Qed.

Lemma find_position t ps i : NoDup ps -> ps !! i = Some t -> position t ps = Some i.
Proof.
  revert i. induction ps as [|p ps IH]; intros i Hn Hi; [done|]. apply NoDup_cons in Hn as [Hp Hn]. cbn.
  destruct i as [|i]; cbn in Hi; [simplify_eq; by rewrite Nat.eqb_refl|].
  destruct (Nat.eqb_spec p t) as [->|_]; [by apply list_elem_of_lookup_2 in Hi|]. by rewrite (IH i Hn Hi).
Qed.

(** Asking for the next target goes through the list. *)
Lemma next_ok T h n st ps tr i : NoDup ps -> (i <= length ps)%nat ->
  path_target_next T (match i with O => None | S i' => ps !! i' end) (World h n (Tgt st ps tr)) = (Ret (ps !! i), World h n (Tgt st ps tr)).
Proof.
  intros Hn Hi. assert (forall k, first_of_class T None (drop k ps) (World h n (Tgt st ps tr)) = (Ret (ps !! k), World h n (Tgt st ps tr))) as Hd.
  { intros k. destruct (drop k ps) as [|t l] eqn:E; cbn.
    - rewrite lookup_ge_None_2; [done|]. apply (f_equal length) in E. rewrite length_drop in E. cbn in E. lia.
    - by rewrite <- (Nat.add_0_r k), <- lookup_drop, E. }
  unfold path_target_next, path_target_find, path_target_find_next, get_paths, get_st, mbind, M_bind. destruct i as [|i]; [apply Hd|].
  destruct (lookup_lt_is_Some_2 ps i ltac:(lia)) as [t Ht]. rewrite Ht. cbn. rewrite (find_position t ps i Hn Ht). apply Hd.
Qed.

Lemma selected_ok h n st ps tr x :
  path_target_selected x (World h n (Tgt st ps tr)) = (Ret (bool_decide (x ∈ ps)), World h n (Tgt st ps tr)).
Proof.
  unfold path_target_selected, path_target_find, get_paths, get_st, mbind, M_bind. cbn.
  by rewrite (bool_decide_ext _ _ (position_spec x ps)).
Qed.

(** C2. Targets by path. For every list of paths in the written forms, matching them in a tree
    ends and chooses exactly the targets that one of the paths names, each of them once and
    no other state is changed; a target counts as selected when one of the paths names it, and asking for the next
    target over and over goes through the chosen ones in order and then ends. *)
Theorem path_targets_found T fuel dn_name targets line height paths h n st tr :
  path_tree T fuel dn_name targets line height -> Forall path_ok paths ->
  exists ps, path_target_parse T fuel dn_name (map path_text paths) (World h n (Tgt st [] tr)) = (Ret tt, World h n (Tgt st ps tr)) /\
    NoDup ps /\ ps ⊆ targets /\
    (forall x, exists b, path_target_selected x (World h n (Tgt st ps tr)) = (Ret b, World h n (Tgt st ps tr)) /\
       (b = true <-> exists path, path ∈ paths /\ names_target T dn_name line path x)) /\
    (forall i, (i <= length ps)%nat ->
       path_target_next T (match i with O => None | S i' => ps !! i' end) (World h n (Tgt st ps tr)) = (Ret (ps !! i), World h n (Tgt st ps tr))).
Proof.
  intros HT Hp. destruct (parse_lists T fuel dn_name targets line height HT paths Hp h n st [] tr) as (ps & E & Hn & _ & Hs & Hx);
    [by apply NoDup_nil|by intros ? ?%elem_of_nil|].
  exists ps. split_and!; [done|done|done| |intros i Hi; by apply next_ok]. intros x. eexists. split; [apply selected_ok|].
  rewrite bool_decide_eq_true, Hx, elem_of_nil. naive_solver.
Qed.

(** ** Two cores *)

(** A PIB with an ADU and two cores, with two threads on the second *)
Definition cores_node (t : nat) : pdbg_target :=
  match t with
  | 0 => Node true None None false NoRelease (-1) None [1] None None 0 0 0 None false false
  | 1 => Node true (Some "pib") None true ReleaseHw 0 (Some 0) [2; 3; 4] None (Some 0%Z) 0 0 0 None true true
  | 2 => Node true (Some "adu") None true ReleaseHw (-1) (Some 1) [] None (Some 0%Z) 0 0 0 None false false
  | 3 => Node true (Some "core") None true ReleaseCore 1 (Some 1) [] None (Some 0%Z) 0 0 0 None false false
  | 4 => Node true (Some "core") None true ReleaseCore 12 (Some 1) [5; 6] None (Some 0%Z) 0 0 0 None false false
  | 5 => Node true (Some "thread") None true ReleaseHw 0 (Some 4) [] None (Some 0%Z) 0 0 0 None false false
  | 6 => Node true (Some "thread") None true ReleaseHw 1 (Some 4) [] None (Some 0%Z) 0 0 0 None false false
  | _ => Node true None None false NoRelease (-1) None [] None None 0 0 0 None false false
  end%nat%string.
Definition cores_tree : dtree := Dtree cores_node 0 (fun _ => None) false.
Definition cores_name (t : nat) : string := match t with 2 => "adu@90000" | _ => "node" end%nat%string.
Definition cores_line (t : nat) : list nat := match t with 0 => [0] | 1 => [1; 0] | 2 | 3 | 4 => [t; 1; 0] | _ => [t; 4; 1; 0] end%nat.
Definition cores_height (t : nat) : nat := match t with 0 => 3 | 1 => 2 | 4 => 1 | _ => 0 end%nat.

Ltac each_target := intros t Ht; repeat (apply elem_of_cons in Ht as [->|Ht]; [|]); [..|by apply elem_of_nil in Ht].

Lemma cores_path_tree : path_tree cores_tree 8 cores_name [0; 1; 2; 3; 4; 5; 6]%nat cores_line cores_height.
Proof.
  split; [split| | | | | | | |].
  - intros [|[|[|[|[|[|[|]]]]]]]; done.
  - intros [|[|[|[|[|[|[|]]]]]]]; apply (bool_decide_eq_true_1 _); reflexivity.
  - by left.
  - intros t c Ht Hc. revert t Ht Hc. each_target; intros Hc; revert c Hc; apply Forall_forall; apply (bool_decide_eq_true_1 _); reflexivity.
  - each_target; (split; [|cbn; lia]); repeat (eapply anc_up; [reflexivity|]); by apply anc_top.
  - intros [|[|[|[|[|[|[|]]]]]]] c Hc; cbn in Hc; repeat (apply elem_of_cons in Hc as [->|Hc]; [cbn; lia|]); by apply elem_of_nil in Hc.
  - cbn. lia.
  - each_target; cbn; lia.
  - done.
  - each_target; (split; [intros c; cbn; intros [= <-] || done|by cbn|intros c Hr; cbn; intros [= <-] || done]); done.
Defined.

Definition cores_path : list component := [Nth "pib" 0; Among "core" [(1, 3); (11, 13)]; Every "thread"].

Lemma path_targets_found_witness : exists ps,
  path_target_parse cores_tree 8 cores_name ["pib0/core[1-3,11-13]/thread*"; "adu@90000"]%string (World ∅ 0 (Tgt (fun _ => PDBG_TARGET_UNKNOWN) [] [])) =
    (Ret tt, World ∅ 0 (Tgt (fun _ => PDBG_TARGET_UNKNOWN) ps [])) /\ ps = [5; 6; 2]%nat /\ NoDup ps.
Proof.
  destruct (path_targets_found cores_tree 8 cores_name [0; 1; 2; 3; 4; 5; 6]%nat cores_line cores_height [cores_path; [Exact "adu@90000"]]
    ∅ 0 (fun _ => PDBG_TARGET_UNKNOWN) []) as (ps & E & Hn & _).
  - apply cores_path_tree.
  - repeat constructor; try done; try (apply (bool_decide_eq_true_1 _); reflexivity).
    exists "pi"%string, "b"%char. done.
  - exists ps. assert (map path_text [cores_path; [Exact "adu@90000"]] = ["pib0/core[1-3,11-13]/thread*"; "adu@90000"]%string) as Et by (vm_compute; reflexivity).
    rewrite Et in E. split; [exact E|]. split; [|done]. vm_compute in E. by injection E.
Defined.

(** ** What is not handled *)

Definition path_world : world (tgt (list nat)) := World ∅ 0 (Tgt (fun _ => PDBG_TARGET_UNKNOWN) [] []).

(** A component of digits only is read backwards past its start: [n >= 0] holds for every
    [size_t]. *)
Example digits_component_crashes : fst (path_pattern_parse "12" path_world) = Crash OutOfBounds.
Proof. vm_compute. reflexivity. Qed.

(** The number of components is checked after the 17th is stored. *)
Example seventeenth_component : fst (path_pattern_split "a/a/a/a/a/a/a/a/a/a/a/a/a/a/a/a/a" path_world) = Crash OutOfBounds.
Proof. vm_compute. reflexivity. Qed.

(** A number of 2 ^ 32 and more is cut to 32 bits and can name another target. *)
Example index_cut : path_pattern_parse "core4294967297" path_world = path_pattern_parse "core1" path_world.
Proof. vm_compute. reflexivity. Qed.

(** A target without a number, and none above it, makes the array be read at -1. *)
Definition bare_tree : dtree :=
  Dtree (fun t => match t with
    | O => Node true None None false NoRelease (-1) None [1]%nat None None 0 0 0 None false false
    | _ => Node true (Some "fsi"%string) None true ReleaseHw (-1) (Some O) [] None (Some 0%Z) 0 0 0 None false false end) 0 (fun _ => None) false.
Example no_index_crashes : fst (path_target_parse bare_tree 4 cores_name ["fsi0"%string] path_world) = Crash OutOfBounds.
Proof. vm_compute. reflexivity. Qed.

(** A name of 32 characters ends the tool by an assertion. *)
Example long_component_aborts : fst (path_pattern_parse "a_component_that_is_a_bit_too_long" path_world) = Crash AssertFailed.
Proof. vm_compute. reflexivity. Qed.
