(* ===== verification/TargetTheorems.v ===== *)
(** * libpdbg: what the target tree guarantees *)

From stdpp Require Import functions.
From S2P Require Import Prelude CMem Target Pib TargetFacts TargetProbe TargetRelease P10Scom P10Place.

(** ** Addresses *)

Section Address.
Context {D : Type} {Hw : Hardware D} (T : dtree).

(** A line of ancestors as the device tree builds it: it ends at the root, has no
    repetition, and every target on it below the root has a class. *)
Record line_ok (t : nat) (l : list nat) : Prop := LineOk {
  line_path : ancestry T false t l;
  line_long : (2 <= length l)%nat;
  line_root : last l = Some (pdbg_target_root T);
  line_nodup : NoDup l;
  line_class : Forall (fun p => is_Some (class (node T p))) (removelast l)
}.

Lemma resolves fuel t l name addr (w : world (tgt D)) :
  line_ok t l -> (length l <= fuel)%nat -> in_range 64 addr ->
  get_class_target_addr T fuel t name addr w =
  (match resolve T name l addr with Some r => Ret r | None => Crash AssertFailed end, w).
Proof.
  intros [H1 H2 H3 H4 H5] Hf Ha. destruct (ancestry_head _ _ _ _ H1) as [l' ->].
  destruct l' as [|q l]; [cbn in H2; lia|]. apply class_addr_ok; try done. cbn [length] in Hf. lia.
Qed.

(** C22: resolving an address always ends, within as many steps as the target has
    ancestors. The targets below the first one that has the class or a translation add
    their own address (modulo 2^64), and the program stops if one of them has none, or one that is
    too short, in its "reg" property; a translation is applied once, and then the nearest
    ancestor of the class is taken; without one the program stops on an assertion. Nothing
    else changes. *)
Theorem class_address_resolved fuel t l name addr (w : world (tgt D)) :
  line_ok t l -> (length l <= fuel)%nat -> in_range 64 addr ->
  get_class_target_addr T fuel t name addr w =
  (match resolve T name l addr with Some r => Ret r | None => Crash AssertFailed end, w).
Proof. apply resolves. Qed.

(** A bus target whose register [a] keeps what is written to it. *)
Record keeps_register (pib : nat) (a : Z) (get : D -> Z) : Prop := KeepsRegister {
  kr_read d : hw_read pib a d = (d, inr (get d));
  kr_write d v : exists d', hw_write pib a v d = (d', 0) /\ get d' = v
}.

Section Access.
Context (fuel t pib : nat) (l : list nat) (addr a : Z) (get : D -> Z).
Context (HL : line_ok t l) (Hf : (length l <= fuel)%nat) (Ha : in_range 64 addr).
Context (HR : resolve T "pib" l addr = Some (pib, a)) (Hdirect : Z.testbit a 63 = false).
Context (Hr : can_read (node T pib) = true) (Hw' : can_write (node T pib) = true).
Context (HK : keeps_register pib a get).






End Access.
End Address.

(** ** Indirect access *)

Section Indirect.
Context {D : Type} {Hw : Hardware D}.
Context (pib : nat) (addr : Z) (Hform : Z.testbit addr 60 = false).
Context (h : gmap nat (list mval)) (n : nat) (st : nat -> pdbg_target_status) (tr : list tevent).
Context (d d0 d1 : D) (xs : list Z).
Context (Hxs : answers pib (ind_register addr) d0 xs d1) (Hskip : Forall (fun x => word_complete x = false) xs).

Lemma form_bit : truthy (Z.land (Z.shiftr addr 60) 1) = false.
Proof.
  change 1 with (2 ^ 0). rewrite truthy_land_bit by lia. rewrite Z.shiftr_spec by lia. exact Hform.
Qed.

(** The indirect SCOM protocol, for an address of form 0 whose command word the
    hardware accepts. The command carries the 20-bit indirect address, for a write the low 16
    bits of the data too, and goes to the 31-bit register address. Words that are not
    complete are skipped, up to nine of them; the first complete word ends the access: with
    its low 16 bits (for a read) when it reports no error, with -1 otherwise. *)
Theorem indirect_access d2 x data :
  (length xs < 10)%nat -> hw_read pib (ind_register addr) d1 = (d2, inr x) -> word_complete x = true ->
  (hw_write pib (ind_register addr) (2 ^ 63 + ind_field addr * 2 ^ 32) d = (d0, 0) ->
   pib_indirect_read pib addr (World h n (Tgt st d tr)) =
   ((if word_error x =? 0 then Ret (word_data x) else Fail (-1)),
    World h n (Tgt st d2 (tr ++ [EvWrite pib (ind_register addr) (2 ^ 63 + ind_field addr * 2 ^ 32)]
                             ++ replicate (S (length xs)) (EvRead pib (ind_register addr)))))) /\
  (hw_write pib (ind_register addr) (ind_field addr * 2 ^ 32 + word_data data) d = (d0, 0) ->
   pib_indirect_write pib addr data (World h n (Tgt st d tr)) =
   ((if word_error x =? 0 then Ret tt else Fail (-1)),
    World h n (Tgt st d2 (tr ++ [EvWrite pib (ind_register addr) (ind_field addr * 2 ^ 32 + word_data data)]
                             ++ replicate (S (length xs)) (EvRead pib (ind_register addr)))))).
Proof.
  intros Hl E Hx. unfold pib_indirect_read, pib_indirect_write. rewrite form_bit, register_bits.
  rewrite read_command, write_command. unfold mbind, M_bind, PIB_IND_MAX_RETRIES.
  replace 10%nat with (length xs + S (9 - length xs))%nat by lia. rewrite replicate_S_end.
  split; intros Ew; rewrite (write_step _ _ _ _ _ _ _ _ _ Ew).
  - rewrite (read_loop_skip _ _ _ _ _ xs _ _ _ d1), (read_loop_last _ _ _ _ _ x _ _ _ d2) by done.
    by rewrite <- !app_assoc.
  - rewrite (write_loop_skip _ _ _ _ _ xs _ _ d1), (write_loop_last _ _ _ _ _ x _ _ d2) by done.
    by rewrite <- !app_assoc.
Qed.

(** When none of ten words is complete, the access is reported as a success all the
    same: a read returns the last word, busy bits and all, and a write that the hardware has
    not acknowledged returns 0. *)
Theorem indirect_timeout_unreported data :
  length xs = 10%nat ->
  (hw_write pib (ind_register addr) (2 ^ 63 + ind_field addr * 2 ^ 32) d = (d0, 0) ->
   exists x, last xs = Some x /\ (pib_indirect_read pib addr (World h n (Tgt st d tr))).1 = Ret x) /\
  (hw_write pib (ind_register addr) (ind_field addr * 2 ^ 32 + word_data data) d = (d0, 0) ->
   (pib_indirect_write pib addr data (World h n (Tgt st d tr))).1 = Ret tt).
Proof.
  intros Hl. unfold pib_indirect_read, pib_indirect_write. rewrite form_bit, register_bits.
  rewrite read_command, write_command. unfold mbind, M_bind, PIB_IND_MAX_RETRIES.
  replace 10%nat with (length xs + 0)%nat by lia.
  split; intros Ew; rewrite (write_step _ _ _ _ _ _ _ _ _ Ew).
  - rewrite (read_loop_skip _ _ _ _ _ xs _ _ _ d1) by done. cbn.
    destruct (last xs) as [x|] eqn:El; [by exists x|]. apply last_None in El. by subst.
  - by rewrite (write_loop_skip _ _ _ _ _ xs _ _ d1) by done.
Qed.
End Indirect.

(** ** Searching upwards *)

Section Search.
Context {D : Type} {Hw : Hardware D} (T : dtree).

(** The searches towards the root of the system tree end and find what they are for:
    the nearest proper ancestor of a class, the root excepted, or NULL; the first index other
    than -1 on the way up, the target included; and the index of the nearest ancestor of a
    class. *)
Theorem ancestor_search fuel klass t l (w : world (tgt D)) :
  ancestry T true t (t :: l) -> (length l + 1 < fuel)%nat ->
  pdbg_target_parent T fuel (Some klass) t w = (Ret (nearest T klass l), w) /\
  pdbg_target_index T fuel (Some t) w = (Ret (first_index T (t :: l)), w) /\
  (forall p l', nearest T klass l = Some p -> ancestry T true p l' -> (length l' < fuel)%nat ->
   pdbg_parent_index T fuel t (Some klass) w = (Ret (first_index T l'), w)).
Proof.
  intros H Hf. assert (pdbg_target_parent T fuel (Some klass) t w = (Ret (nearest T klass l), w)) as E
    by (apply target_parent_ok; [done|lia]).
  split; [done|]. split; [apply index_ok; [done|cbn; lia]|].
  intros p l' Hp Hl' Hf'. unfold pdbg_parent_index, mbind, M_bind. rewrite E, Hp. by apply index_ok.
Qed.
End Search.

(** ** Probing and releasing *)

Section Life.
Context {D : Type} {Hw : Hardware D} (T : dtree).

(** C27: probing a target of a tree without cycles and without Odyssey chips, whose hardware
    does not come and go. Where no target is disabled, must exist or was released, it ends without
    failing an assertion and tells whether the target is there: ENABLED when it and all its
    ancestors are found, NONEXISTENT when one of them is not; what was known before stays as it was, no target
    is probed twice in its life, and the state stays one in which this holds. A disabled target stays
    disabled; a target right below one stays unknown, or fails an assertion if it must exist; and
    two levels below a disabled target, where the parent stays unknown, an assertion fails. *)
Theorem probe_decides rank present fuel t h n (s : tgt D) :
  ranked T rank -> no_ody T -> (forall t (d : D), truthy (hw_probe t d).2 = negb (present t)) -> (rank t < fuel)%nat ->
  (probe_inv T present s ->
   wp (pdbg_target_probe T fuel t) (World h n s) (fun r w' => exists s', w' = World h n s' /\
     r = inr (t_status s' t) /\
     ((t_status s' t = PDBG_TARGET_ENABLED /\ on_hw T present t) \/
      (t_status s' t = PDBG_TARGET_NONEXISTENT /\ ~ on_hw T present t)) /\
     (forall x, t_status s x <> PDBG_TARGET_UNKNOWN -> t_status s' x = t_status s x) /\
     NoDup (probes (t_trace s')) /\ probe_inv T present s')) /\
  (t_status s t = PDBG_TARGET_DISABLED -> pdbg_target_probe T fuel t (World h n s) = (Ret PDBG_TARGET_DISABLED, World h n s)) /\
  (forall p, get_parent T t false = Some p -> t_status s p = PDBG_TARGET_DISABLED ->
     (t_status s t = PDBG_TARGET_UNKNOWN -> pdbg_target_probe T fuel t (World h n s) = (Ret PDBG_TARGET_UNKNOWN, World h n s)) /\
     (t_status s t = PDBG_TARGET_MUSTEXIST -> pdbg_target_probe T fuel t (World h n s) = (Crash AssertFailed, World h n s))) /\
  (forall p q, get_parent T t false = Some p -> get_parent T p false = Some q -> t_status s q = PDBG_TARGET_DISABLED ->
     t_status s p = PDBG_TARGET_UNKNOWN -> t_status s t = PDBG_TARGET_UNKNOWN ->
     pdbg_target_probe T fuel t (World h n s) = (Crash AssertFailed, World h n s)).
Proof.
  intros Hr Ho Hd Hf. assert (forall k t p q, (rank t < S (S k))%nat -> get_parent T t false = Some p -> get_parent T p false = Some q ->
    t_status s p = PDBG_TARGET_UNKNOWN -> t_status s q = PDBG_TARGET_DISABLED ->
    pdbg_target_probe T (S k) p (World h n s) = (Ret PDBG_TARGET_UNKNOWN, World h n s)) as Hskip.
  { intros k u p q Hk Hp Hq Up Uq. pose proof (rank_parent _ _ Hr _ _ Hp). pose proof (rank_parent _ _ Hr _ _ Hq). destruct k as [|k]; [lia|].
    rewrite (probe_below T rank Hr Ho (S k) p q PDBG_TARGET_DISABLED h n s) by first [lia | done | by left | by apply probe_unchanged]. by rewrite Uq, Up. }
  split; [|split; [|split]].
  - intros I. eapply wp_mono; [by apply (probe_ok T rank present)|].
    intros r w' (s' & -> & -> & Hdec & I' & S'). exists s'. do 3 (split; [done|]).
    split; [apply S'|]. split; [apply I'|done].
  - intros Ht. destruct fuel as [|fuel]; [lia|]. by apply probe_unchanged.
  - intros p Hp Up. pose proof (rank_parent _ _ Hr _ _ Hp). destruct fuel as [|[|fuel]]; [lia|lia|].
    split; intros Ut; rewrite (probe_below T rank Hr Ho (S fuel) t p PDBG_TARGET_DISABLED h n s) by first [done | by left | by right | by apply probe_unchanged];
      by rewrite Up, Ut.
  - intros p q Hp Hq Uq Up Ut. pose proof (rank_parent _ _ Hr _ _ Hp). destruct fuel as [|[|fuel]]; [lia|lia|].
    rewrite (probe_below T rank Hr Ho (S fuel) t p PDBG_TARGET_UNKNOWN h n s); [by rewrite Up|done|done|by left|].
    by apply (Hskip fuel t p q).
Qed.

(** The loop over the children of a target visits the children in the system tree,
    each once and in order: a node that is linked with a real target by that target, and no
    target at the place of the back end. Each call of the iterator ends inside the list. *)
Theorem children_visited fuel t body (w : world (tgt D)) :
  linked T -> (length (child_targets T t) < fuel)%nat ->
  for_each_child T fuel t body w = run_all body (child_targets T t) w.
Proof. intros HL. by apply for_each_child_ok. Qed.

(** Probing everything below a target decides the status of every target there, in
    the sense of [probe_decides], and ends. *)
Theorem probe_all_decides rank height present width top fuel t h n (s : tgt D) :
  linked T -> (forall t c, c ∈ child_targets T t -> (height c < height t)%nat) ->
  ranked T rank -> no_ody T -> (forall t (d : D), truthy (hw_probe t d).2 = negb (present t)) ->
  (forall t, (length (child_targets T t) <= width)%nat) -> (forall t, (rank t <= top)%nat) ->
  (height t + width + top < fuel)%nat -> probe_inv T present s ->
  wp (pdbg_target_probe_all T fuel (Some t)) (World h n s) (fun r w' => exists s',
    r = inr tt /\ w' = World h n s' /\ probe_inv T present s' /\
    forall x, below T t x -> decided T present x (t_status s' x)).
Proof.
  intros HL Hh Hr Ho Hd Hwd Ht Hf I. eapply wp_mono; [by eapply (probe_all_ok T HL height Hh rank present)|].
  intros r w' (s' & -> & -> & I' & _ & K). exists s'. do 3 (split; [done|]).
  intros x Hx. destruct (inv_status _ _ _ I' x); [|done]. by destruct (K x Hx).
Qed.

(** C30: releasing a target releases exactly what can be reached from it going down over
    enabled targets, itself included, and nothing else; each release operation is called once,
    and never after the one of the parent. The release operation of a core of POWER8, POWER9 or POWER10
    goes back to its threads: the statement is for cores whose threads are all known, each enabled and
    right below the core, or disabled, absent or released, so that it finds none to probe or to release. What
    it does to threads that were not probed yet is the matter of C31. *)
Theorem release_reaches height width depth fuel t h n (s : tgt D) :
  linked T -> (forall t c, c ∈ child_targets T t -> (height c < height t)%nat) ->
  (forall t, (length (child_targets T t) <= width)%nat) -> (height t + width + depth < fuel)%nat ->
  (forall c, reach T (t_status s) t c -> threads_known T (t_status s) depth c) ->
  wp (pdbg_target_release T fuel t) (World h n s) (fun r w' => exists s' rs,
    r = inr tt /\ w' = World h n s' /\ release_step T (reach T (t_status s) t) s s' rs).
Proof. intros HL Hh Hwd Hf Hk. by eapply (release_ok T HL height Hh). Qed.

(** Access through the target of a POWER10 unit does not depend on the instance the
    address was written for: the address of instance [j] and the address as written resolve
    to the same register of the PIB above the unit. *)
Theorem unit_access_retargets fuel t l u i j addr b (w : world (tgt D)) :
  line_ok T t l -> (length l <= fuel)%nat -> in_range 64 addr -> ring_fits u addr ->
  0 <= i < p10_instances u -> 0 <= j < p10_instances u ->
  class (node T t) <> Some "pib"%string -> translate (node T t) = Some (p10_translate u i) ->
  p10_translate u j addr = Some b ->
  get_class_target_addr T fuel t "pib" b w = get_class_target_addr T fuel t "pib" addr w.
Proof.
  intros HL Hf Ha R Hi Hj Hc Ht E. rewrite translate_placed in E by done. injection E as <-.
  rewrite !(resolves T fuel t l) by (done || by apply put_range).
  enough (resolve T "pib" l (put (place u j addr) addr) = resolve T "pib" l addr) as -> by done.
  destruct HL as [H1 H2 _ _ _]. destruct (ancestry_head _ _ _ _ H1) as [[|q l'] ->]; [cbn in H2; lia|].
  unfold resolve. change (removelast (t :: q :: l')) with (t :: removelast (q :: l')). cbn [split_while].
  unfold plain. rewrite Ht, andb_false_r. change (regs T []) with (Some 0). cbn [mbind option_bind]. rewrite !Z.add_0_r.
  rewrite !wrap_small by (done || by apply put_range). rewrite bool_decide_eq_false_2 by done.
  unfold mbind, option_bind. rewrite Ht. rewrite !translate_placed by (done || by apply put_range || by apply ring_fits_put).
  rewrite place_stable, put_put by (done || apply place_shape). done.
Qed.
End Life.

(** ** libpdbg: the guarantees of the target tree on a small tree

    A root with a PIB of the back end and a processor; the processor has a virtual
    node that stands for the PIB. Below the PIB a chiplet with a core, and an MCC with
    an address translation of its own, which is not in the machine. *)

Definition no_node : pdbg_target :=
  Node false None None false NoRelease (-1) None [] None None 0 0 0 None false false.

Definition small_node (t : nat) : pdbg_target :=
  match t with
  | 0 => Node true None None false NoRelease (-1) None [1; 6] None None 0 0 0 None false false
  | 1 => Node true (Some "pib") None true ReleaseHw 0 (Some 0) [2; 4] (Some 5) (Some 0%Z) 0 0 0 None true true
  | 2 => Node true (Some "chiplet") None true ReleaseHw 32 (Some 1) [3] None (Some 0x20000000%Z) 0 0 0 None false false
  | 3 => Node true (Some "core") None false ReleaseCore (-1) (Some 2) [] None (Some 0x10000%Z) 0 0 0 None false false
  | 4 => Node true (Some "mcc") (Some (p10_translate Mcc 3)) true NoRelease 3 (Some 1) [] None (Some 0%Z) 0 0 0 None false false
  | 5 => Node false None None false NoRelease (-1) (Some 6) [] (Some 1) None 0 0 0 None false false
  | 6 => Node true (Some "proc") None false NoRelease 1 (Some 0) [5] None (Some 0%Z) 0 0 0 None false false
  | _ => no_node
  end%nat%string.

Definition small_tree : dtree := Dtree small_node 0 (fun _ => None) false.

(** Registers that keep their value; the MCC is absent. *)
Definition small_present (t : nat) : bool := negb (Nat.eqb t 4).

#[local] Instance small_hw : Hardware Z := {
  hw_probe t d := (d, if small_present t then 0 else 1);
  hw_release t d := d;
  hw_read t a d := (d, inr d);
  hw_write t a v d := (v, 0)
}.

Definition small_rank (t : nat) : nat :=
  match t with 0 => 0 | 6 => 1 | 5 => 2 | 1 => 3 | 2 | 4 => 4 | 3 => 5 | _ => 0 end%nat.
Definition small_height (t : nat) : nat :=
  match t with 0 => 5 | 6 => 4 | 1 | 5 => 3 | 2 => 2 | _ => 0 end%nat.

(** [by_node]: a property of all targets, one target after the other. *)
Ltac by_node := intros [|[|[|[|[|[|[|?]]]]]]]; cbn; try done.

Lemma small_ranked : ranked small_tree small_rank.
Proof. split; by_node; intros x [= <-]; cbn; lia. Qed.

Lemma small_linked : linked small_tree.
Proof.
  split; [by_node; by intros v [= <-]|].
  by_node; repeat (constructor; [rewrite ?elem_of_cons, elem_of_nil; lia|]); constructor.
Qed.

Lemma small_no_ody : no_ody small_tree.
Proof. by_node. Qed.

Lemma small_height_ok t c : c ∈ child_targets small_tree t -> (small_height c < small_height t)%nat.
Proof. revert t. by_node; rewrite ?elem_of_cons, elem_of_nil; intros H; repeat destruct H as [->|H]; cbn; (lia || done). Qed.

Lemma small_width t : (length (child_targets small_tree t) <= 2)%nat.
Proof. revert t. by_node; lia. Qed.

Lemma small_top t : (small_rank t <= 5)%nat.
Proof. revert t. by_node; lia. Qed.

Lemma small_det t (d : Z) : truthy (hw_probe t d).2 = negb (small_present t).
Proof. cbn. by destruct (small_present t). Qed.

(** The state before anything was probed. *)
Definition fresh_state : tgt Z := Tgt (fun _ => PDBG_TARGET_UNKNOWN) 0x1234 [].
Lemma fresh_inv : probe_inv small_tree small_present fresh_state.
Proof. split; [by left|constructor|]. intros t H. by apply elem_of_nil in H. Qed.

(** The state in which the processor, the PIB, the chiplet and the core are enabled. *)
Definition live_state : tgt Z :=
  Tgt (fun t => if bool_decide (t ∈ [0; 1; 2; 3; 5; 6]%nat) then PDBG_TARGET_ENABLED
                else if Nat.eqb t 4 then PDBG_TARGET_NONEXISTENT else PDBG_TARGET_UNKNOWN) 0x1234 [].

Lemma core_line : line_ok small_tree 3 [3; 2; 1; 0]%nat.
Proof.
  split; [|cbn; lia|done|by apply (bool_decide_unpack _); vm_compute|].
  - do 3 (eapply anc_up; [reflexivity|]). by apply anc_top.
  - cbn. repeat (constructor; [by eexists|]). constructor.
Qed.

Lemma mcc_line : line_ok small_tree 4 [4; 1; 0]%nat.
Proof.
  split; [|cbn; lia|done|by apply (bool_decide_unpack _); vm_compute|].
  - do 2 (eapply anc_up; [reflexivity|]). by apply anc_top.
  - cbn. repeat (constructor; [by eexists|]). constructor.
Qed.

Definition w0 : world (tgt Z) := World ∅ 0 live_state.

(** ** Witnesses *)

Lemma class_address_resolved_witness :
  get_class_target_addr small_tree 4 3 "pib" 0x45 w0 = (Ret (1%nat, 0x20010045), w0).
Proof. rewrite (class_address_resolved small_tree 4 3 _ "pib" 0x45 w0 core_line); [reflexivity|cbn; lia|done]. Defined.


(** A register that is busy for two reads, then delivers 0x5678. *)
#[local] Instance slow_hw : Hardware nat := {
  hw_probe t d := (d, 0);
  hw_release t d := d;
  hw_read t a d := (S d, inr (if (d <? 2)%nat then 0 else 0x80005678));
  hw_write t a v d := (d, 0)
}.
#[local] Instance stuck_hw : Hardware unit := {
  hw_probe t d := (d, 0);
  hw_release t d := d;
  hw_read t a d := (d, inr 7);
  hw_write t a v d := (d, 0)
}.

Lemma indirect_access_witness :
  pib_indirect_read (D := nat) 1 0x8000080012345678 (World ∅ 0 (Tgt (fun _ => PDBG_TARGET_ENABLED) 0%nat [])) =
  (Ret 0x5678, World ∅ 0 (Tgt (fun _ => PDBG_TARGET_ENABLED) 3%nat
    [EvWrite 1 0x12345678 0x8000080000000000; EvRead 1 0x12345678; EvRead 1 0x12345678; EvRead 1 0x12345678])).
Proof.
  refine (proj1 (indirect_access (D := nat) 1 0x8000080012345678 eq_refl ∅ 0 _ [] 0%nat 0%nat 2%nat [0; 0]
                   _ _ 3%nat 0x80005678 0 _ _ _) _); try done.
  - do 2 (econstructor; [reflexivity|]). constructor.
  - repeat constructor.
  - cbn. lia.
Defined.

Lemma indirect_timeout_unreported_witness :
  (exists x, Some 7 = Some x /\
   (pib_indirect_read (D := unit) 1 0x8000080012345678 (World ∅ 0 (Tgt (fun _ => PDBG_TARGET_ENABLED) tt []))).1 = Ret x).
Proof.
  refine (proj1 (indirect_timeout_unreported (D := unit) 1 0x8000080012345678 eq_refl ∅ 0 _ [] tt tt tt
                   (replicate 10 7) _ _ 0 eq_refl) _); try done.
  - cbn. do 10 (econstructor; [reflexivity|]). constructor.
  - cbn. repeat constructor.
Defined.

Lemma ancestor_search_witness :
  pdbg_target_parent small_tree 5 (Some "proc"%string) 3 w0 = (Ret (Some 6%nat), w0) /\
  pdbg_target_index small_tree 5 (Some 3%nat) w0 = (Ret 32, w0).
Proof.
  destruct (ancestor_search small_tree 6 "proc" 3 [2; 1; 6; 0]%nat w0) as (E1 & E2 & _).
  - do 4 (eapply anc_up; [reflexivity|]). by apply anc_top.
  - cbn. lia.
  - split; [exact E1|exact E2].
Defined.

Lemma probe_decides_witness :
  wp (pdbg_target_probe small_tree 6 4) (World ∅ 0 fresh_state) (fun r w' => exists s', w' = World ∅ 0 s' /\
    r = inr (t_status s' 4%nat) /\
    ((t_status s' 4%nat = PDBG_TARGET_ENABLED /\ on_hw small_tree small_present 4) \/
     (t_status s' 4%nat = PDBG_TARGET_NONEXISTENT /\ ~ on_hw small_tree small_present 4)) /\
    (forall x, t_status fresh_state x <> PDBG_TARGET_UNKNOWN -> t_status s' x = t_status fresh_state x) /\
    NoDup (probes (t_trace s')) /\ probe_inv small_tree small_present s').
Proof.
  apply (probe_decides small_tree small_rank small_present 6 4 ∅ 0 fresh_state small_ranked small_no_ody small_det); [cbn; lia|].
  apply fresh_inv.
Defined.

Lemma children_visited_witness :
  for_each_child small_tree 2 6 (fun c => set_status c PDBG_TARGET_DISABLED) w0
  = set_status 1 PDBG_TARGET_DISABLED w0.
Proof. rewrite (children_visited small_tree 2 6 _ w0 small_linked); [reflexivity|cbn; lia]. Defined.

Lemma probe_all_decides_witness :
  wp (pdbg_target_probe_all small_tree 13 (Some 0%nat)) (World ∅ 0 fresh_state) (fun r w' => exists s',
    r = inr tt /\ w' = World ∅ 0 s' /\ probe_inv small_tree small_present s' /\
    forall x, below small_tree 0 x -> decided small_tree small_present x (t_status s' x)).
Proof.
  apply (probe_all_decides small_tree small_rank small_height small_present 2 5);
    [apply small_linked|apply small_height_ok|apply small_ranked|apply small_no_ody|apply small_det
    |apply small_width|apply small_top|cbn; lia|apply fresh_inv].
Defined.

(** A processor with a core that has three threads: one is there, one is not, and one is disabled. *)
Definition core_node (t : nat) : pdbg_target :=
  match t with
  | 0 => Node true (Some "proc") None true ReleaseHw 0 None [1] None None 0 0 0 None false false
  | 1 => Node true (Some "core") None true ReleaseCore 0 (Some 0) [2; 3; 4] None (Some 0%Z) 0 0 0 None false false
  | 2 | 3 | 4 => Node true (Some "thread") None true ReleaseHw 0 (Some 1) [] None (Some 0%Z) 0 0 0 None false false
  | _ => no_node
  end%nat%string.
Definition core_tree : dtree := Dtree core_node 0 (fun k => if String.eqb k "thread" then Some [2; 3; 4]%nat else None) false.
Definition core_height (t : nat) : nat := match t with 0 => 2 | 1 => 1 | _ => 0 end%nat.
Definition thread_line (t : nat) : list nat := [t; 1; 0]%nat.
Definition core_state : tgt Z := Tgt (fun t => match t with 3 => PDBG_TARGET_NONEXISTENT | 4 => PDBG_TARGET_DISABLED | _ => PDBG_TARGET_ENABLED end%nat) 0 [].

Ltac by_core_node := intros [|[|[|[|[|?]]]]]; cbn; try done.

Lemma core_linked : linked core_tree.
Proof. split; by_core_node; repeat (constructor; [rewrite ?elem_of_cons, elem_of_nil; lia|]); constructor. Qed.
Lemma core_height_ok t c : c ∈ child_targets core_tree t -> (core_height c < core_height t)%nat.
Proof. revert t. by_core_node; intros Hc; repeat (apply elem_of_cons in Hc as [->|Hc]; [cbn; lia|]); by apply elem_of_nil in Hc. Qed.
Lemma core_known c : threads_known core_tree (t_status core_state) 4 c.
Proof.
  intros Hc. assert (c = 1%nat) as -> by (revert Hc; revert c; by_core_node). exists [2; 3; 4]%nat. split.
  - apply (core_threads_intro core_tree 4 1 thread_line [2; 3; 4]%nat); [done| | |cbn; lia].
    + repeat (constructor; [rewrite ?elem_of_cons, elem_of_nil; lia|]). constructor.
    + repeat constructor; try (cbn; lia); (eapply anc_up; [reflexivity|]); (eapply anc_up; [reflexivity|]); by apply anc_top.
  - intros u Hu. repeat (apply elem_of_cons in Hu as [->|Hu]; [|]); [right|left|left|by apply elem_of_nil in Hu].
    + split; [done|]. left.
    + by right; left.
    + by left.
Qed.

Lemma release_reaches_witness :
  wp (pdbg_target_release core_tree 14 0) (World ∅ 0 core_state) (fun r w' => exists s' rs, r = inr tt /\ w' = World ∅ 0 s' /\
    release_step core_tree (reach core_tree (t_status core_state) 0) core_state s' rs) /\
  t_trace (w_st (pdbg_target_release core_tree 14 0 (World ∅ 0 core_state)).2) = [EvRelease 2; EvRelease 1; EvRelease 0].
Proof.
  split; [|reflexivity].
  exact (release_reaches core_tree core_height 3 4 14 0 ∅ 0 core_state core_linked core_height_ok
    ltac:(intros [|[|[|[|[|?]]]]]; cbn; lia) ltac:(cbn; lia) (fun c _ => core_known c)).
Defined.

Lemma unit_access_retargets_witness :
  get_class_target_addr small_tree 3 4 "pib" 0x0E010D22 w0 = get_class_target_addr small_tree 3 4 "pib" 0x0C010D62 w0.
Proof.
  apply (unit_access_retargets small_tree 3 4 _ Mcc 3 4 0x0C010D62 0x0E010D22 w0 mcc_line);
    [cbn; lia|split; vm_compute; [discriminate|reflexivity]|done|cbn; lia|cbn; lia|done|done|reflexivity].
Defined.

(** ** A disabled target stops the program *)

(** The core is two levels below a chiplet the caller has disabled: probing the chiplet's
    child leaves that child unknown, and an unknown parent fails an assertion. *)
Definition deep_node (t : nat) : pdbg_target :=
  match t with
  | 7 => Node true (Some "thread") None true NoRelease 0 (Some 3) [] None (Some 0%Z) 0 0 0 None false false
  | _ => small_node t
  end%nat%string.
Definition deep_tree : dtree := Dtree deep_node 0 (fun _ => None) false.

Theorem probe_below_disabled_aborts :
  ((pdbg_target_status_set 2 PDBG_TARGET_DISABLED;; pdbg_target_probe deep_tree 10 7)
     (World ∅ 0 fresh_state)).1 = Crash AssertFailed.
Proof. reflexivity. Qed.

(** A thread that was never probed is probed and released when its core is. *)
Example unknown_thread_settled :
  let s := Tgt (fun t => match t with 3 => PDBG_TARGET_UNKNOWN | _ => t_status core_state t end%nat) (t_dev core_state) [] in
  t_trace (w_st (pdbg_target_release core_tree 14 0 (World ∅ 0 s)).2) = [EvRelease 2; EvProbe 3; EvRelease 3; EvRelease 1; EvRelease 0].
Proof. vm_compute. reflexivity. Qed.

(** A target without a "reg" property on the way to the class stops the program. *)
Example no_reg_stops :
  let T := Dtree (fun t => match t with 2 => Node true (Some "core") None false ReleaseCore 0 (Some 1) [] None None 0 0 0 None false false | _ => small_node t end%nat%string)
             0 (fun _ => None) false in
  get_class_target_addr T 5 2 "pib" 0x45 w0 = (Crash AssertFailed, w0).
Proof. reflexivity. Qed.
