(* ===== verification/Ring.v ===== *)
(** * libpdbg: scanning a ring of a chiplet

    Models the [getring] operations of libpdbg/p9_fapi_targets.c and
    libpdbg/p10_fapi_targets.c, which are the same text, the dispatch in libpdbg/chip.c and the
    number of words that src/ring.c allocates. The caller's array is a list of words. *)

From S2P Require Import Prelude CMem Target Pib Adu Ram.

Definition HEADER_CHECK_DATA : Z := Z.shiftl 0xc0ffee03 32.
Definition NET_CTRL0 : Z := 0xf0040.
Definition NET_CTRL0_CHIPLET_ENABLE : Z := PPC_BIT 0.

Section Scan.
Context {S : Type}.

(** Register access to the chiplet. *)
Context (rd : Z -> M S Z) (wr : Z -> Z -> M S unit).

(** [pib_read(..., &data)] with its return code ignored: [data] keeps what it was. *)
Definition read_data_reg (addr : Z) (data : mval) : M S mval :=
  r ← attempt (rd addr);
  mret (match r with inr v => Some v | inl _ => data end).

(** The loop; [set_pulse] is set for the first read only. *)
Fixpoint ring_loop (fuel : nat) (ring_len i bits scan_data_addr : Z) (set_pulse : bool) (data : mval) (result : list mval)
  : M S (mval * list mval) :=
  match fuel with
  | O => crash NoFuel
  | Datatypes.S fuel' =>
      if negb (0 <? ring_len) then mret (data, result) else
      let ring_len := ring_len - bits in
      let scan_data_addr := if set_pulse then Z.lor scan_data_addr 0x4000 else Z.land scan_data_addr (u64 (Z.lnot 0x4000)) in
      let scan_data_addr := Z.land scan_data_addr (u64 (Z.lnot 0xff)) in
      let scan_data_addr := Z.lor scan_data_addr bits in
      data ← read_data_reg scan_data_addr data;
      let data := (fun d => u64 (Z.shiftl (Z.shiftr d 32) (32 - bits))) <$> data in
      result ← array_set result i ((fun d => u32 d) <$> data);
      let bits := if (0 <? ring_len) && (ring_len <? bits) then ring_len else bits in
      ring_loop fuel' ring_len (i + 1) bits scan_data_addr false data result
  end.

Definition scan_type_addr (ring_addr : Z) : Z := Z.lor (Z.land ring_addr 0x7fff0000) 0x7.
Definition scan_data_addr (ring_addr : Z) : Z := Z.lor (Z.land (scan_type_addr ring_addr) 0xffff0000) 0x8000.
Definition scan_header_addr (ring_addr : Z) : Z := Z.land (scan_data_addr ring_addr) 0xffffe000.
Definition scan_type_data (ring_addr : Z) : Z :=
  let scan_type_data := u64 (Z.shiftl (Z.land ring_addr 0xfff0) 13) in
  let scan_type_data := Z.lor scan_type_data (Z.shiftr 0x800 (Z.land ring_addr 0xf)) in
  u64 (Z.shiftl scan_type_data 32).

Definition chiplet_getring (ring_addr ring_len : Z) (result : list mval) : M S (list mval) :=
  attempt (wr (scan_type_addr ring_addr) (scan_type_data ring_addr));;
  attempt (wr (scan_header_addr ring_addr) HEADER_CHECK_DATA);;
  let ring_len := ring_len - 32 in
  '(data, result) ← ring_loop (Z.to_nat ring_len + 2) ring_len 1 32 (scan_data_addr ring_addr) true None result;
  data ← read_data_reg (Z.lor (scan_header_addr ring_addr) 0x20) data;
  let data := (fun d => Z.land d 0xffffffff00000000) <$> data in
  array_set result 0 ((fun d => u32 (Z.shiftr d 32)) <$> data).
End Scan.

Section Chiplet.
Context {D : Type} {Hw : Hardware D} (T : dtree) (fuel : nat).

Definition p9_chiplet_getring (chiplet : nat) (ring_addr ring_len : Z) (result : list mval) : M (tgt D) (list mval) :=
  chiplet_getring (pib_read T fuel chiplet) (pib_write T fuel chiplet) ring_addr ring_len result.

Definition p10_chiplet_getring (chiplet : nat) (ring_addr ring_len : Z) (result : list mval) : M (tgt D) (list mval) :=
  chiplet_getring (pib_read T fuel chiplet) (pib_write T fuel chiplet) ring_addr ring_len result.

(** The chiplet answers, and its enable bit is set. *)
Definition p9_chiplet_probe (target : nat) : M (tgt D) unit :=
  r ← attempt (pib_read T fuel target NET_CTRL0);
  match r with
  | inl _ => fail (-1)
  | inr value => if negb (truthy (Z.land value NET_CTRL0_CHIPLET_ENABLE)) then fail (-1) else mret tt
  end.

Definition p10_chiplet_probe (target : nat) : M (tgt D) unit :=
  r ← attempt (pib_read T fuel target NET_CTRL0);
  match r with
  | inl _ => fail (-1)
  | inr value => if negb (truthy (Z.land value NET_CTRL0_CHIPLET_ENABLE)) then fail (-1) else mret tt
  end.

(** The operation of the chiplet is a member of its [struct chiplet]. *)
Definition getring (op : nat -> Z -> Z -> list mval -> M (tgt D) (list mval)) (target : nat) (ring_addr ring_len : Z)
    (result : list mval) : M (tgt D) (list mval) :=
  c_assert (pdbg_target_is_class T target "chiplet");;
  op target ring_addr ring_len result.
End Chiplet.

(** The number of words as an [int], and the words that the tool allocates, all 0. *)
Definition ring_words (ring_len : Z) : Z :=
  let words := u32 (u64 (ring_len + 32 - 1) / 32) in
  if words <? 2 ^ 31 then words else words - 2 ^ 32.
Definition ring_buffer (ring_len : Z) : list mval := replicate (Z.to_nat (ring_words ring_len)) (Some 0).
