(* ===== verification/RingTheorems.v ===== *)
(** * Scanning a ring: what the caller gets *)

From S2P Require Import Prelude CMem Bits Target Pib Adu Ram Ring TargetFacts TargetProbe TargetRelease P10Scom.
From S2P Require Import P10Place TargetTheorems.

(** ** Scanning a ring: what the scan unit promises, and the loop

    A scan unit shifts the bits of the selected ring out in pieces of at most 32 bits. The
    caller gets the ring in words of 32 bits, the last one filled with zeros. *)

(** The data register: the low bits of its address say how many bits are shifted, another
    bit asks for a pulse before. *)
Definition scan_addr (ring_addr : Z) (pulse : bool) (k : Z) : Z :=
  Z.lor (Z.lor (scan_data_addr ring_addr) (if pulse then 0x4000 else 0)) k.

(** A word that starts with the given bits, and the words of a ring. *)
Definition ring_word (bits : list bool) : Z := bits_val (bits ++ replicate (32 - length bits) false).
Fixpoint pack (n : nat) (bits : list bool) : list Z :=
  match n with
  | O => []
  | S n' => ring_word (take 32 bits) :: pack n' (drop 32 bits)
  end.
Definition words_of (n : nat) : nat := (n + 31) / 32.

Section Scan.
Context {S : Type} (rd : Z -> M S Z) (wr : Z -> Z -> M S unit).

Class ScanUnit (ring_addr header : Z) (ring : list bool) := {
  ready : world S -> Prop;
  selected : world S -> Prop;
  (** The bits still to be shifted out, and whether a pulse is due. *)
  holds : bool -> list bool -> world S -> Prop;

  selects w : ready w ->
    exists w', wr (scan_type_addr ring_addr) (scan_type_data ring_addr) w = (Ret tt, w') /\ selected w';
  header_in w : selected w ->
    exists w', wr (scan_header_addr ring_addr) HEADER_CHECK_DATA w = (Ret tt, w') /\ holds true ring w';
  shifts b bits k w : holds b bits w -> (0 < k <= 32)%nat -> (k <= length bits)%nat ->
    exists v w', rd (scan_addr ring_addr b (Z.of_nat k)) w = (Ret v, w') /\ in_range 64 v /\
      Z.shiftr v 32 = bits_val (take k bits) /\ holds false (drop k bits) w';
  header_out b w : holds b [] w ->
    exists v w', rd (Z.lor (scan_header_addr ring_addr) 0x20) w = (Ret v, w') /\ in_range 64 v /\ Z.shiftr v 32 = header;
  (** Reading the header before the ring is out answers something or fails. *)
  header_early b bits w : holds b bits w ->
    exists r w', attempt (rd (Z.lor (scan_header_addr ring_addr) 0x20)) w = (Ret r, w')
}.
End Scan.
Arguments ready {S rd wr ring_addr header ring ScanUnit}.
Arguments selected {S rd wr ring_addr header ring ScanUnit}.
Arguments holds {S rd wr ring_addr header ring ScanUnit}.
Arguments selects {S rd wr ring_addr header ring ScanUnit}.
Arguments header_in {S rd wr ring_addr header ring ScanUnit}.
Arguments shifts {S rd wr ring_addr header ring ScanUnit}.
Arguments header_out {S rd wr ring_addr header ring ScanUnit}.
Arguments header_early {S rd wr ring_addr header ring ScanUnit}.

(** ** Addresses *)

Definition data_mask : Z := Z.land (u64 (Z.lnot 0x4000)) (u64 (Z.lnot 0xff)).

Lemma data_addr_masked ring_addr :
  Z.land (scan_data_addr ring_addr) (u64 (Z.lnot 0xff)) = scan_data_addr ring_addr /\
  Z.land (scan_data_addr ring_addr) data_mask = scan_data_addr ring_addr.
Proof.
  split; unfold scan_data_addr; rewrite Z.land_lor_distr_l, <- Z.land_assoc; reflexivity.
Qed.

(** The address that the loop forms from the one before. *)
Definition next_addr (a : Z) (pulse : bool) (k : Z) : Z :=
  Z.lor (Z.land (if pulse then Z.lor a 0x4000 else Z.land a (u64 (Z.lnot 0x4000))) (u64 (Z.lnot 0xff))) k.

Definition on_unit (ring_addr a : Z) : Prop := Z.land a data_mask = scan_data_addr ring_addr.

Lemma next_addr_first ring_addr k : next_addr (scan_data_addr ring_addr) true k = scan_addr ring_addr true k.
Proof.
  unfold next_addr, scan_addr. rewrite Z.land_lor_distr_l, (proj1 (data_addr_masked _)). reflexivity.
Qed.

Lemma next_addr_later ring_addr a k : on_unit ring_addr a -> next_addr a false k = scan_addr ring_addr false k.
Proof. intros H. unfold next_addr, scan_addr. rewrite <- Z.land_assoc. fold data_mask. by rewrite H, Z.lor_0_r. Qed.

Lemma small_masked k : (k <= 32)%nat -> Z.land (Z.of_nat k) data_mask = 0.
Proof. intros H. do 33 (destruct k as [|k]; [reflexivity|]). lia. Qed.

Lemma scan_addr_on_unit ring_addr b k : (k <= 32)%nat -> on_unit ring_addr (scan_addr ring_addr b (Z.of_nat k)).
Proof.
  intros H. unfold on_unit, scan_addr. rewrite !Z.land_lor_distr_l, small_masked, (proj2 (data_addr_masked _)) by done.
  destruct b; apply Z.lor_0_r || (cbn [Z.land]; by rewrite !Z.lor_0_r).
Qed.

(** ** Words *)

Lemma bits_val_zeros n : bits_val (replicate n false) = 0.
Proof. induction n as [|n IH]; [done|]. rewrite replicate_S_end, bits_val_snoc, IH. done. Qed.

(** Left-aligning what was shifted out. *)
Lemma aligned_word bits k v : length bits = k -> (k <= 32)%nat -> Z.shiftr v 32 = bits_val bits ->
  u32 (u64 (Z.shiftl (Z.shiftr v 32) (32 - Z.of_nat k))) = ring_word bits.
Proof.
  intros <- Hl ->. unfold ring_word. rewrite bits_val_app, bits_val_zeros, length_replicate, Z.add_0_r.
  pose proof (bits_val_range bits) as Hr. rewrite Z.shiftl_mul_pow2 by lia.
  replace (Z.of_nat (32 - length bits)) with (32 - Z.of_nat (length bits)) by lia.
  assert (0 <= bits_val bits * 2 ^ (32 - Z.of_nat (length bits)) < 2 ^ 32) as Hb.
  { replace (2 ^ 32) with (2 ^ Z.of_nat (length bits) * 2 ^ (32 - Z.of_nat (length bits))) by (rewrite <- Z.pow_add_r by lia; f_equal; lia).
    assert (0 < 2 ^ (32 - Z.of_nat (length bits))) by (apply Z.pow_pos_nonneg; lia). nia. }
  unfold wrap. rewrite (Z.mod_small _ (2 ^ 64)), Z.mod_small; lia.
Qed.

Lemma header_word v : in_range 64 v -> u32 (Z.shiftr (Z.land v 0xffffffff00000000) 32) = Z.shiftr v 32.
Proof.
  intros H. rewrite Z.shiftr_land. change (Z.shiftr 0xffffffff00000000 32) with (Z.ones 32).
  rewrite Z.land_ones, Z.shiftr_div_pow2 by lia. unfold in_range in H.
  assert (0 <= v / 2 ^ 32 < 2 ^ 32) by (split; [apply Z.div_pos|apply Z.div_lt_upper_bound]; lia).
  unfold wrap. rewrite !Z.mod_small by (rewrite ?Z.mod_small by done; done). done.
Qed.

Lemma words_of_step n : (0 < n)%nat -> words_of n = S (words_of (n - 32)).
Proof.
  intros H. unfold words_of. destruct (decide (n <= 32)%nat).
  - replace (n - 32)%nat with 0%nat by lia. replace (n + 31)%nat with (n - 1 + 1 * 32)%nat by lia.
    rewrite Nat.div_add, Nat.div_small by lia. done.
  - replace (n + 31)%nat with (n - 32 + 31 + 1 * 32)%nat by lia. rewrite Nat.div_add by lia. lia.
Qed.

Lemma take_min {A} n (l : list A) : take (n `min` length l) l = take n l.
Proof. destruct (decide (n <= length l)%nat); [by rewrite Nat.min_l|]. rewrite Nat.min_r, !take_ge by lia. done. Qed.

Lemma drop_min {A} n (l : list A) : drop (n `min` length l) l = drop n l.
Proof. destruct (decide (n <= length l)%nat); [by rewrite Nat.min_l|]. rewrite Nat.min_r, !drop_ge by lia. done. Qed.

(** The number of bits of the next round. *)
Lemma next_bits n : (0 < n - 32)%nat ->
  (if (0 <? Z.of_nat (n - 32)) && (Z.of_nat (n - 32) <? Z.of_nat (32 `min` n)) then Z.of_nat (n - 32) else Z.of_nat (32 `min` n)) =
  Z.min 32 (Z.of_nat (n - 32)).
Proof.
  intros H. destruct (Z.ltb_spec 0 (Z.of_nat (n - 32))); [|lia]. cbn [andb].
  destruct (Z.ltb_spec (Z.of_nat (n - 32)) (Z.of_nat (32 `min` n))); lia.
Qed.

Lemma array_set_middle {S A} (pre : list A) x rest y (w : world S) :
  array_set (pre ++ x :: rest) (Z.of_nat (length pre)) y w = (Ret (pre ++ y :: rest), w).
Proof.
  unfold array_set. rewrite length_app. cbn [length].
  destruct (Z.leb_spec 0 (Z.of_nat (length pre))); [|lia].
  destruct (Z.ltb_spec (Z.of_nat (length pre)) (Z.of_nat (length pre + Datatypes.S (length rest)))); [|lia].
  cbn [andb]. rewrite Nat2Z.id, insert_app_r_alt by lia. by rewrite Nat.sub_diag.
Qed.

Lemma array_set_head {S A} (x : A) rest y (w : world S) : array_set (x :: rest) 0 y w = (Ret (y :: rest), w).
Proof. exact (array_set_middle [] x rest y w). Qed.

(** ** The loop *)

Section Loop.
Context {S : Type} {rd : Z -> M S Z} {wr : Z -> Z -> M S unit} {ring_addr header : Z} {ring : list bool}.
Context {U : ScanUnit rd wr ring_addr header ring}.

Lemma ring_loop_runs fuel bits b kk a data pre rest out w :
  (length bits < fuel)%nat -> holds b bits w -> (0 < length bits -> kk = Z.min 32 (Z.of_nat (length bits)))%nat ->
  (if b then a = scan_data_addr ring_addr else on_unit ring_addr a) ->
  (words_of (length bits) <= length rest)%nat ->
  out = pre ++ (Some <$> pack (words_of (length bits)) bits) ++ drop (words_of (length bits)) rest ->
  exists b' data' w', holds b' [] w' /\
    ring_loop rd fuel (Z.of_nat (length bits)) (Z.of_nat (length pre)) kk a b data (pre ++ rest) w = (Ret (data', out), w').
Proof.
  revert bits b kk a data pre rest out w. induction fuel as [|fuel IH]; intros bits b kk a data pre rest out w Hf Hh Hk Ha Hr ->; [lia|].
  cbn [ring_loop]. destruct (Z.ltb_spec 0 (Z.of_nat (length bits))) as [Hl|Hl]; cbn [negb].
  2: { destruct bits; [|cbn in Hl; lia]. by exists b, data, w. }
  set (k := Nat.min 32 (length bits)). assert (kk = Z.of_nat k) as -> by lia. clear Hk.
  rewrite words_of_step in Hr |- * by lia. destruct rest as [|x rest]; [cbn in Hr; lia|].
  change (Z.lor (Z.land (if b then Z.lor a 0x4000 else Z.land a (u64 (Z.lnot 0x4000))) (u64 (Z.lnot 0xff))) (Z.of_nat k)) with (next_addr a b (Z.of_nat k)).
  assert (next_addr a b (Z.of_nat k) = scan_addr ring_addr b (Z.of_nat k)) as ->
    by (destruct b; [subst a; apply next_addr_first|by apply next_addr_later]).
  destruct (shifts b bits k w Hh) as (v & w1 & Erd & Hv & Hs & Hh'); [lia..|].
  unfold read_data_reg, attempt, mbind, M_bind at 1 2 3. rewrite Erd. cbn [mret M_ret fmap option_fmap option_map].
  rewrite array_set_middle. subst k. rewrite take_min in Hs. rewrite drop_min in Hh'.
  replace (Z.of_nat (length bits) - Z.of_nat (32 `min` length bits)) with (Z.of_nat (length (drop 32 bits))) by (rewrite length_drop; lia).
  rewrite (aligned_word (take 32 bits)) by (done || rewrite ?length_take; lia). cbn [pack fmap list_fmap app drop].
  rewrite length_drop, cons_middle, app_assoc.
  replace (Z.of_nat (length pre) + 1) with (Z.of_nat (length (pre ++ [Some (ring_word (take 32 bits))]))) by (rewrite length_app; cbn; lia).
  rewrite <- !(length_drop bits 32). eapply IH; [rewrite length_drop; lia|done| | | |].
  - rewrite length_drop. apply next_bits.
  - apply scan_addr_on_unit. lia.
  - rewrite length_drop. cbn [length] in Hr. lia.
  - by rewrite <- app_assoc.
Qed.

(** The whole scan: the header comes first, then the ring in words. *)
Lemma chiplet_getring_runs x rest w :
  ready w -> (length ring = 0 \/ 32 <= length ring)%nat -> (words_of (length ring) <= length rest)%nat -> in_range 32 header ->
  exists w', chiplet_getring rd wr ring_addr (32 + Z.of_nat (length ring)) (x :: rest) w =
    (Ret (Some header :: (Some <$> pack (words_of (length ring)) ring) ++ drop (words_of (length ring)) rest), w').
Proof.
  intros Hready Hlen Hrest Hhd. destruct (selects w Hready) as (w1 & E1 & H1). destruct (header_in w1 H1) as (w2 & E2 & H2).
  unfold chiplet_getring, attempt, mbind, M_bind at 1 2 3. rewrite E1, E2. rewrite Z.add_simpl_l.
  destruct (ring_loop_runs (Z.to_nat (Z.of_nat (length ring)) + 2) ring true 32 _ None [x] rest _ w2 ltac:(lia) H2 ltac:(lia) eq_refl Hrest eq_refl)
    as (b & data & w3 & H3 & E3).
  cbn [length app] in E3. change (Z.of_nat 1) with 1 in E3. rewrite E3.
  destruct (header_out b w3 H3) as (v & w4 & E4 & Hv & Hs). exists w4.
  unfold read_data_reg, attempt, mbind, M_bind. rewrite E4. cbn [mret M_ret fmap option_fmap option_map app].
  rewrite array_set_head, header_word, Hs by done. done.
Qed.

End Loop.

Lemma ring_words_exact n : Z.of_nat n < 2 ^ 30 -> ring_words (32 + Z.of_nat n) = 1 + Z.of_nat (words_of n).
Proof.
  intros H. unfold ring_words, words_of. rewrite Nat2Z.inj_div, Nat2Z.inj_add.
  replace (32 + Z.of_nat n + 32 - 1) with (Z.of_nat n + 31 + 1 * 32) by lia.
  assert (0 <= (Z.of_nat n + 31) / 32 < 2 ^ 26) by (split; [apply Z.div_pos|apply Z.div_lt_upper_bound]; lia).
  unfold wrap. rewrite (Z.mod_small _ (2 ^ 64)), Z.div_add by lia.
  change (Z.of_nat 31) with 31. change (Z.of_nat 32) with 32.
  rewrite Z.mod_small by lia. destruct (Z.ltb_spec ((Z.of_nat n + 31) / 32 + 1) (2 ^ 31)); lia.
Qed.

(** ** Boundaries *)

Section Bounds.
Context {S : Type} (rd : Z -> M S Z) (wr : Z -> Z -> M S unit).

(** A ring with fewer than 32 bits behind its header is scanned like one with 32: the number
    of bits is only adjusted after the first read. *)
Theorem short_ring_overrun ring_addr r result w :
  0 < r < 32 -> chiplet_getring rd wr ring_addr (32 + r) result w = chiplet_getring rd wr ring_addr 64 result w.
Proof.
  intros Hr. unfold chiplet_getring. rewrite Z.add_simpl_l. change (64 - 32) with 32.
  assert (forall f f' i data res a w, ring_loop rd (Datatypes.S (Datatypes.S f)) r i 32 a true data res w =
    ring_loop rd (Datatypes.S (Datatypes.S f')) 32 i 32 a true data res w) as E.
  { intros f f' i data res a w'. cbn [ring_loop]. destruct (Z.ltb_spec 0 r); [|lia]. cbn [negb Z.ltb Z.compare].
    destruct (Z.ltb_spec 0 (r - 32)); [lia|]. cbn [negb andb]. reflexivity. }
  unfold mbind, M_bind, attempt. destruct (wr (scan_type_addr ring_addr) _ w) as [[] w1]; try done;
    destruct (wr (scan_header_addr ring_addr) _ w1) as [[] w2]; try done;
    rewrite !(Nat.add_comm _ 2); cbn [Nat.add]; by rewrite (E _ (Z.to_nat 32)).
Qed.

(** For a length of 0 the tool allocates no word, but the header is stored all the same. *)
Theorem empty_ring_overrun ring_addr w :
  (forall a w, exists r w', attempt (rd a) w = (Ret r, w')) -> (forall a v w, exists r w', attempt (wr a v) w = (Ret r, w')) ->
  exists w', chiplet_getring rd wr ring_addr 0 (ring_buffer 0) w = (Crash OutOfBounds, w').
Proof.
  intros Hrd Hwr. unfold chiplet_getring, mbind, M_bind.
  destruct (Hwr (scan_type_addr ring_addr) (scan_type_data ring_addr) w) as (r1 & w1 & ->).
  destruct (Hwr (scan_header_addr ring_addr) HEADER_CHECK_DATA w1) as (r2 & w2 & ->).
  unfold read_data_reg, mbind, M_bind.
  destruct (Hrd (Z.lor (scan_header_addr ring_addr) 0x20) w2) as (r3 & w3 & E). exists w3.
  change (ring_loop rd _ _ _ _ _ _ _ _ w2) with (@Ret (mval * list mval) (None, ring_buffer 0), w2). cbn beta iota. by rewrite E.
Qed.

(** A length below that of the header is scanned like a ring of no bits. *)
Lemma header_only ring_addr r result w :
  0 < r <= 32 -> chiplet_getring rd wr ring_addr r result w = chiplet_getring rd wr ring_addr 32 result w.
Proof.
  intros Hr. unfold chiplet_getring. change (32 - 32) with 0. replace (Z.to_nat (r - 32)) with 0%nat by lia.
  cbn [Z.to_nat Nat.add ring_loop]. destruct (Z.ltb_spec 0 (r - 32)); [lia|]. reflexivity.
Qed.

(** The same for a scan unit. *)
Lemma empty_ring_stored {ring_addr header ring} {U : ScanUnit rd wr ring_addr header ring} w :
  ready w -> (chiplet_getring rd wr ring_addr 0 (ring_buffer 0) w).1 = Crash OutOfBounds.
Proof.
  intros Hr. destruct (selects w Hr) as (w1 & E1 & H1). destruct (header_in w1 H1) as (w2 & E2 & H2).
  destruct (header_early _ _ _ H2) as (r & w3 & E3).
  unfold chiplet_getring, mbind, M_bind. unfold attempt at 1 2. rewrite E1, E2.
  unfold read_data_reg, mbind, M_bind.
  change (ring_loop rd _ _ _ _ _ _ _ _ w2) with (@Ret (mval * list mval) (None, ring_buffer 0), w2). cbn beta iota.
  rewrite E3. reflexivity.
Qed.
End Bounds.

Lemma drop_exact {A} n (x : A) : drop n (replicate n x) = [].
Proof. rewrite drop_replicate, Nat.sub_diag. done. Qed.

(** Lengths with the same number of words. *)
Lemma same_buffer k a b :
  0 <= k < 2 ^ 26 -> 32 * k < a <= 32 * k + 32 -> 32 * k < b <= 32 * k + 32 -> ring_buffer a = ring_buffer b.
Proof.
  intros Hk Ha Hb. unfold ring_buffer, ring_words, wrap.
  rewrite (Z.mod_small (a + _ - _)), (Z.mod_small (b + _ - _)) by lia.
  replace ((a + 32 - 1) / 32) with (k + 1) by (Z.div_mod_to_equations; lia).
  replace ((b + 32 - 1) / 32) with (k + 1) by (Z.div_mod_to_equations; lia). done.
Qed.

Section Scanned.
Context {D : Type} {Hw : Hardware D} (T : dtree) (fuel chiplet : nat) (ring_addr header : Z) (ring : list bool).
Context {U : ScanUnit (pib_read T fuel chiplet) (pib_write T fuel chiplet) ring_addr header ring}.

(** What the operation does with the array of the tool. *)
Lemma getring_fills (w : world (tgt D)) :
  length ring = 0%nat \/ 32 <= Z.of_nat (length ring) < 2 ^ 30 -> in_range 32 header ->
  pdbg_target_is_class T chiplet "chiplet" = true -> ready w ->
  exists w', getring T (p9_chiplet_getring T fuel) chiplet ring_addr (32 + Z.of_nat (length ring)) (ring_buffer (32 + Z.of_nat (length ring))) w =
    (Ret (Some header :: (Some <$> pack (words_of (length ring)) ring)), w').
Proof.
  intros Hl Hh Hc Hr. unfold getring, p9_chiplet_getring, ring_buffer. rewrite Hc, ring_words_exact by lia.
  rewrite Z2Nat.inj_add, Nat2Z.id by lia. change (Z.to_nat 1 + words_of (length ring))%nat with (S (words_of (length ring))).
  destruct (chiplet_getring_runs (Some 0) (replicate (words_of (length ring)) (Some 0)) w Hr) as [w' E]; [lia|by rewrite length_replicate|done|].
  exists w'. rewrite drop_exact, app_nil_r in E. exact E.
Qed.

(** C20: scanning a ring of a POWER9 or POWER10 chiplet into the array that the tool
    allocates. The length counts the 32 bits of the header. For a header alone, and for a
    header with 32 bits or more behind it (fewer than 2^30), the scan stays inside the array
    and fills it exactly: the header first, then the ring in words of 32 bits, the bits of
    the last word left-aligned. A header with 1 to 31 bits behind it is scanned as if there
    were 32, a length from 1 to 31 as if it were the header's 32. For a length of 0 the tool
    allocates no word, and the header is stored outside the array. A target of another class
    stops the program. *)
Theorem ring_scanned (w : world (tgt D)) :
  length ring = 0%nat \/ 32 <= Z.of_nat (length ring) < 2 ^ 30 -> in_range 32 header ->
  Forall (fun op =>
    let ring_len := 32 + Z.of_nat (length ring) in
    (pdbg_target_is_class T chiplet "chiplet" = true -> ready w ->
     exists w', getring T op chiplet ring_addr ring_len (ring_buffer ring_len) w =
       (Ret (Some header :: (Some <$> pack (words_of (length ring)) ring)), w')) /\
    (forall r, 0 < r < 32 ->
     getring T op chiplet ring_addr (32 + r) (ring_buffer (32 + r)) w = getring T op chiplet ring_addr 64 (ring_buffer 64) w) /\
    (forall r, 0 < r < 32 ->
     getring T op chiplet ring_addr r (ring_buffer r) w = getring T op chiplet ring_addr 32 (ring_buffer 32) w) /\
    (pdbg_target_is_class T chiplet "chiplet" = true -> ready w ->
     (getring T op chiplet ring_addr 0 (ring_buffer 0) w).1 = Crash OutOfBounds) /\
    (pdbg_target_is_class T chiplet "chiplet" = false ->
     forall len, getring T op chiplet ring_addr len (ring_buffer len) w = (Crash AssertFailed, w)))
    [p9_chiplet_getring T fuel; p10_chiplet_getring T fuel].
Proof.
  intros Hl Hh. repeat constructor; cbn zeta; try (intros Hc; unfold getring; by rewrite Hc).
  all: try (intros Hc Hr; exact (getring_fills w Hl Hh Hc Hr)).
  all: try (intros Hc Hr; unfold getring; rewrite Hc; exact (empty_ring_stored _ _ w Hr)).
  all: intros r Hr; unfold getring; destruct (pdbg_target_is_class T chiplet "chiplet"); [|done].
  all: try (rewrite (same_buffer 1 (32 + r) 64) by lia; by apply short_ring_overrun).
  all: rewrite (same_buffer 0 r 32) by lia; apply header_only; lia.
Qed.
End Scanned.

(** ** A scan unit *)

(** The chiplet of the small tree with a ring of 40 bits; the device is what is left of it. *)
Definition some_ring : list bool := bits_down 40 39 0x123456789a.
Definition some_ring_addr : Z := 0x30088.

#[local] Instance scan_hw : Hardware (list bool) := {
  hw_probe t d := (d, 0);
  hw_release t d := d;
  hw_read t a d :=
    let k := Z.to_nat (Z.land a 0xff) in
    match d with
    | [] => (d, inr HEADER_CHECK_DATA)
    | _ => (drop k d, inr (Z.shiftl (bits_val (take k d)) 32))
    end;
  hw_write t a v d := (some_ring, 0)
}.

Definition at_scan (bits : list bool) (w : world (tgt (list bool))) : Prop :=
  exists tr, w = World ∅ 0 (Tgt (t_status live_state) bits tr).

#[local] Instance some_unit :
  ScanUnit (pib_read small_tree 3 2) (pib_write small_tree 3 2) some_ring_addr 0xc0ffee03 some_ring.
Proof.
  refine {| ready w := exists bits, at_scan bits w; selected w := exists bits, at_scan bits w; holds _ bits w := at_scan bits w |}.
  - intros w (bits & tr & ->). eexists. split; [reflexivity|]. eexists _, _. reflexivity.
  - intros w (bits & tr & ->). eexists. split; [reflexivity|]. eexists. reflexivity.
  - intros b bits k w (tr & ->) Hk Hl. exists (Z.shiftl (bits_val (take k bits)) 32), (World ∅ 0 (Tgt (t_status live_state) (drop k bits) (tr ++ [EvRead 1 (0x20000000 + scan_addr some_ring_addr b (Z.of_nat k))]))).
    split; [|split; [|split]].
    + destruct bits as [|x bits]; [cbn in Hl; lia|]. destruct b; do 33 (destruct k as [|k]; [lia || reflexivity|]); lia.
    + pose proof (bits_val_range (take k bits)) as H. rewrite length_take, Nat.min_l in H by done. rewrite Z.shiftl_mul_pow2 by lia.
      assert (2 ^ Z.of_nat k <= 2 ^ 32) by (apply Z.pow_le_mono_r; lia). unfold in_range. lia.
    + by rewrite Z.shiftr_shiftl_l, Z.shiftl_0_r by lia.
    + by eexists.
  - intros b w (tr & ->). eexists _, _. split; [reflexivity|]. done.
  - intros b bits w (tr & ->). destruct bits; eexists _, _; reflexivity.
Defined.

Lemma ring_scanned_witness :
  exists w', getring small_tree (p10_chiplet_getring small_tree 3) 2 some_ring_addr 72 (ring_buffer 72)
    (World ∅ 0 (Tgt (t_status live_state) [] [])) =
    (Ret [Some 0xc0ffee03; Some 0x12345678; Some 0x9a000000], w').
Proof.
  destruct (proj1 (Forall_forall _ _) (ring_scanned small_tree 3 2 some_ring_addr 0xc0ffee03 some_ring (World ∅ 0 (Tgt (t_status live_state) [] []))
    ltac:(right; cbn; lia) ltac:(done)) (p10_chiplet_getring small_tree 3) ltac:(cbn; set_solver)) as [H _].
  destruct (H eq_refl ltac:(exists [], []; reflexivity)) as [w' E]. exists w'. exact E.
Defined.
