(* ===== verification/GdbParser.v ===== *)
(** * The gdb server: parsing packets

    Models src/gdb_parser_precompile.c: the tables of the automaton and the loop that runs it over
    the bytes of a client, with the actions that take a packet apart, check its sum and call the
    handler of its command. The state of the automaton, the command, the stack of its arguments and
    the buffer for bytes of memory are kept between calls. What the handlers do, and how an answer
    is sent, are parameters. The characters of the tables are below 128, so that it makes no
    difference whether [char] is signed. *)

From Stdlib Require Import Ascii String.
From S2P Require Import Prelude CMem.

Inductive gdb_command :=
| NONE | GET_GPRS | GET_SPR
| STOP_REASON | GET_THREAD | SET_THREAD
| V_CONTC | V_CONTS
| QF_THREADINFO | QS_THREADINFO
| GET_MEM | PUT_MEM
| SET_BREAK | CLEAR_BREAK
| INTERRUPT | DETACH | LAST_CMD.

(** The number of an enumerator *)
Definition command_no (c : gdb_command) : nat :=
  match c with
  | NONE => 0 | GET_GPRS => 1 | GET_SPR => 2
  | STOP_REASON => 3 | GET_THREAD => 4 | SET_THREAD => 5
  | V_CONTC => 6 | V_CONTS => 7
  | QF_THREADINFO => 8 | QS_THREADINFO => 9
  | GET_MEM => 10 | PUT_MEM => 11
  | SET_BREAK => 12 | CLEAR_BREAK => 13
  | INTERRUPT => 14 | DETACH => 15 | LAST_CMD => 16
  end.

(** A word of the stack: a number, or a pointer to a text or to bytes of memory *)
Inductive word :=
| Num (v : Z)
| Text (s : string)
| Bytes (p : ptr).

(** The static variables of the parser; [data] is the index of the word it points to. *)
Record parser := Parser {
  cs : Z;
  cmd : gdb_command;
  stack : list word;
  data : Z;
  mem_data : ptr;
  mem_data_length : Z;
  mem_data_i : Z;
  rsp : option string;
  crc : Z;
  ack_mode : bool
}.

Definition set_cs (v : Z) (s : parser) : parser :=
  Parser v (cmd s) (stack s) (data s) (mem_data s) (mem_data_length s) (mem_data_i s) (rsp s) (crc s) (ack_mode s).
Definition set_cmd (c : gdb_command) (s : parser) : parser :=
  Parser (cs s) c (stack s) (data s) (mem_data s) (mem_data_length s) (mem_data_i s) (rsp s) (crc s) (ack_mode s).
Definition set_stack (l : list word) (s : parser) : parser :=
  Parser (cs s) (cmd s) l (data s) (mem_data s) (mem_data_length s) (mem_data_i s) (rsp s) (crc s) (ack_mode s).
Definition set_data (i : Z) (s : parser) : parser :=
  Parser (cs s) (cmd s) (stack s) i (mem_data s) (mem_data_length s) (mem_data_i s) (rsp s) (crc s) (ack_mode s).
Definition set_mem (p : ptr) (n i : Z) (s : parser) : parser :=
  Parser (cs s) (cmd s) (stack s) (data s) p n i (rsp s) (crc s) (ack_mode s).
Definition set_rsp (r : option string) (s : parser) : parser :=
  Parser (cs s) (cmd s) (stack s) (data s) (mem_data s) (mem_data_length s) (mem_data_i s) r (crc s) (ack_mode s).
Definition set_crc (c : Z) (s : parser) : parser :=
  Parser (cs s) (cmd s) (stack s) (data s) (mem_data s) (mem_data_length s) (mem_data_i s) (rsp s) c (ack_mode s).
Definition set_ack_mode (b : bool) (s : parser) : parser :=
  Parser (cs s) (cmd s) (stack s) (data s) (mem_data s) (mem_data_length s) (mem_data_i s) (rsp s) (crc s) b.

(** ** The automaton *)

Definition _gdb_actions : list Z :=
  [0; 1; 0; 1; 1; 1; 2; 1; 3; 1; 14; 1; 26; 1; 27; 1; 28; 1; 29; 2; 0; 1; 2; 2; 1; 2; 3; 1; 2; 3; 5;
   2; 4; 1; 2; 13; 1; 2; 14; 1; 2; 15; 1; 2; 16; 1; 2; 17; 1; 2; 19; 1; 2; 20; 1; 2; 21; 1; 2; 22; 1;
   2; 23; 1; 2; 24; 1; 2; 25; 1; 3; 0; 6; 1; 3; 0; 7; 1; 3; 0; 9; 1; 3; 0; 10; 1; 3; 0; 11; 1; 3; 0;
   12; 1; 3; 2; 8; 1; 3; 3; 18; 1].
Definition _gdb_key_offsets : list Z :=
  [0; 0; 14; 15; 21; 27; 34; 41; 43; 45; 52; 60; 68; 75; 82; 90; 97; 105; 112; 114; 116; 118; 120;
   122; 124; 126; 128; 130; 132; 134; 136; 138; 140; 142; 149; 157; 165; 172; 174; 176; 183; 191;
   193; 200; 208; 214; 216; 218; 220; 222; 224; 226; 228; 230; 237; 239; 241; 243; 245; 247; 249;
   251; 253; 255; 256; 258; 260; 262; 264; 266; 268; 270; 272; 274; 276; 278; 280; 282; 284; 286;
   288; 290; 292; 294; 296; 298; 300; 302; 304; 307; 310; 311; 312; 314; 316; 323; 331; 333].
Definition _gdb_trans_keys : list Z :=
  [35; 63; 68; 72; 77; 81; 84; 90; 103; 109; 112; 113; 118; 122; 35; 48; 57; 65; 70; 97; 102; 48; 57;
   65; 70; 97; 102; 35; 48; 57; 65; 70; 97; 102; 35; 48; 57; 65; 70; 97; 102; 35; 103; 35; 112; 35;
   48; 57; 65; 70; 97; 102; 35; 46; 48; 57; 65; 70; 97; 102; 35; 112; 48; 57; 65; 70; 97; 102; 35;
   48; 57; 65; 70; 97; 102; 35; 48; 57; 65; 70; 97; 102; 35; 44; 48; 57; 65; 70; 97; 102; 35; 48; 57;
   65; 70; 97; 102; 35; 58; 48; 57; 65; 70; 97; 102; 35; 48; 57; 65; 70; 97; 102; 35; 83; 35; 116;
   35; 97; 35; 114; 35; 116; 35; 78; 35; 111; 35; 65; 35; 99; 35; 107; 35; 77; 35; 111; 35; 100; 35;
   101; 35; 112; 35; 48; 57; 65; 70; 97; 102; 35; 46; 48; 57; 65; 70; 97; 102; 35; 112; 48; 57; 65;
   70; 97; 102; 35; 48; 57; 65; 70; 97; 102; 35; 48; 35; 44; 35; 48; 57; 65; 70; 97; 102; 35; 44; 48;
   57; 65; 70; 97; 102; 35; 52; 35; 48; 57; 65; 70; 97; 102; 35; 44; 48; 57; 65; 70; 97; 102; 35; 65;
   67; 83; 102; 115; 35; 116; 35; 116; 35; 97; 35; 99; 35; 104; 35; 101; 35; 100; 35; 58; 35; 48; 57;
   65; 70; 97; 102; 35; 117; 35; 112; 35; 112; 35; 111; 35; 114; 35; 116; 35; 101; 35; 100; 35; 58;
   35; 35; 84; 35; 104; 35; 114; 35; 101; 35; 97; 35; 100; 35; 73; 35; 110; 35; 102; 35; 111; 35; 84;
   35; 104; 35; 114; 35; 101; 35; 97; 35; 100; 35; 73; 35; 110; 35; 102; 35; 111; 35; 67; 35; 111;
   35; 110; 35; 116; 35; 59; 63; 35; 99; 115; 35; 35; 35; 48; 35; 44; 35; 48; 57; 65; 70; 97; 102;
   35; 44; 48; 57; 65; 70; 97; 102; 35; 52; 3; 36; 43; 45; 0].
Definition _gdb_single_lengths : list Z :=
  [0; 14; 1; 0; 0; 1; 1; 2; 2; 1; 2; 2; 1; 1; 2; 1; 2; 1; 2; 2; 2; 2; 2; 2; 2; 2; 2; 2; 2; 2; 2; 2;
   2; 1; 2; 2; 1; 2; 2; 1; 2; 2; 1; 2; 6; 2; 2; 2; 2; 2; 2; 2; 2; 1; 2; 2; 2; 2; 2; 2; 2; 2; 2; 1; 2;
   2; 2; 2; 2; 2; 2; 2; 2; 2; 2; 2; 2; 2; 2; 2; 2; 2; 2; 2; 2; 2; 2; 2; 3; 3; 1; 1; 2; 2; 1; 2; 2; 4].
Definition _gdb_range_lengths : list Z :=
  [0; 0; 0; 3; 3; 3; 3; 0; 0; 3; 3; 3; 3; 3; 3; 3; 3; 3; 0; 0; 0; 0; 0; 0; 0; 0; 0; 0; 0; 0; 0; 0; 0;
   3; 3; 3; 3; 0; 0; 3; 3; 0; 3; 3; 0; 0; 0; 0; 0; 0; 0; 0; 0; 3; 0; 0; 0; 0; 0; 0; 0; 0; 0; 0; 0; 0;
   0; 0; 0; 0; 0; 0; 0; 0; 0; 0; 0; 0; 0; 0; 0; 0; 0; 0; 0; 0; 0; 0; 0; 0; 0; 0; 0; 0; 3; 3; 0; 0].
Definition _gdb_index_offsets : list Z :=
  [0; 0; 15; 17; 21; 25; 30; 35; 38; 41; 46; 52; 58; 63; 68; 74; 79; 85; 90; 93; 96; 99; 102; 105;
   108; 111; 114; 117; 120; 123; 126; 129; 132; 135; 140; 146; 152; 157; 160; 163; 168; 174; 177;
   182; 188; 195; 198; 201; 204; 207; 210; 213; 216; 219; 224; 227; 230; 233; 236; 239; 242; 245;
   248; 251; 253; 256; 259; 262; 265; 268; 271; 274; 277; 280; 283; 286; 289; 292; 295; 298; 301;
   304; 307; 310; 313; 316; 319; 322; 325; 329; 333; 335; 337; 340; 343; 348; 354; 357].
Definition _gdb_indicies : list Z :=
  [1; 2; 3; 4; 5; 6; 7; 8; 9; 10; 11; 12; 13; 14; 0; 16; 15; 17; 17; 17; 18; 19; 19; 19; 18; 16; 20;
   20; 20; 15; 21; 20; 20; 20; 15; 16; 22; 15; 16; 23; 15; 16; 24; 24; 24; 15; 16; 25; 24; 24; 24;
   15; 16; 23; 26; 26; 26; 15; 21; 26; 26; 26; 15; 16; 27; 27; 27; 15; 16; 28; 27; 27; 27; 15; 16;
   29; 29; 29; 15; 16; 30; 29; 29; 29; 15; 16; 31; 31; 31; 15; 16; 32; 15; 16; 33; 15; 16; 34; 15;
   16; 35; 15; 16; 36; 15; 16; 37; 15; 16; 38; 15; 16; 39; 15; 16; 40; 15; 16; 41; 15; 16; 42; 15;
   16; 43; 15; 16; 44; 15; 16; 45; 15; 16; 46; 15; 16; 47; 47; 47; 15; 16; 48; 47; 47; 47; 15; 16;
   46; 49; 49; 49; 15; 16; 49; 49; 49; 15; 16; 50; 15; 16; 51; 15; 16; 52; 52; 52; 15; 16; 53; 52;
   52; 52; 15; 16; 54; 15; 16; 55; 55; 55; 15; 16; 56; 55; 55; 55; 15; 16; 57; 58; 59; 60; 61; 15;
   16; 62; 15; 16; 63; 15; 16; 64; 15; 16; 65; 15; 16; 66; 15; 16; 67; 15; 16; 68; 15; 16; 69; 15;
   16; 70; 70; 70; 15; 16; 71; 15; 16; 72; 15; 16; 73; 15; 16; 74; 15; 16; 75; 15; 16; 76; 15; 16;
   77; 15; 16; 78; 15; 16; 79; 15; 81; 80; 16; 82; 15; 16; 83; 15; 16; 84; 15; 16; 85; 15; 16; 86;
   15; 16; 87; 15; 16; 88; 15; 16; 89; 15; 16; 90; 15; 16; 91; 15; 16; 92; 15; 16; 93; 15; 16; 94;
   15; 16; 95; 15; 16; 96; 15; 16; 97; 15; 16; 98; 15; 16; 99; 15; 16; 100; 15; 16; 101; 15; 16; 102;
   15; 16; 103; 15; 16; 104; 15; 16; 105; 15; 16; 106; 107; 15; 16; 108; 109; 15; 16; 110; 16; 111;
   16; 112; 15; 16; 113; 15; 16; 114; 114; 114; 15; 16; 115; 114; 114; 114; 15; 16; 116; 15; 117;
   118; 119; 120; 18; 0].
Definition _gdb_trans_targs : list Z :=
  [2; 3; 2; 5; 7; 13; 18; 32; 37; 2; 42; 5; 44; 84; 92; 2; 3; 4; 0; 97; 6; 3; 8; 9; 10; 11; 12; 14;
   15; 16; 17; 17; 19; 20; 21; 22; 23; 24; 25; 26; 27; 28; 29; 30; 31; 2; 33; 34; 35; 36; 38; 39; 40;
   41; 2; 43; 5; 45; 2; 54; 64; 74; 46; 47; 48; 49; 50; 51; 52; 53; 53; 55; 56; 57; 58; 59; 60; 61;
   62; 63; 2; 3; 65; 66; 67; 68; 69; 70; 71; 72; 73; 2; 75; 76; 77; 78; 79; 80; 81; 82; 83; 2; 85;
   86; 87; 88; 89; 2; 90; 91; 90; 91; 93; 94; 95; 96; 2; 97; 1; 97; 97].
Definition _gdb_trans_actions : list Z :=
  [19; 1; 86; 90; 19; 74; 19; 19; 19; 78; 70; 82; 19; 19; 19; 3; 0; 7; 0; 28; 25; 5; 3; 3; 3; 3; 98;
   25; 22; 25; 94; 31; 3; 3; 3; 3; 3; 3; 3; 3; 3; 3; 3; 3; 3; 40; 3; 3; 3; 43; 3; 3; 25; 22; 55; 25;
   22; 3; 46; 3; 3; 3; 3; 3; 3; 3; 3; 3; 3; 3; 34; 3; 3; 3; 3; 3; 3; 3; 3; 3; 37; 9; 3; 3; 3; 3; 3;
   3; 3; 3; 3; 49; 3; 3; 3; 3; 3; 3; 3; 3; 3; 52; 3; 3; 3; 3; 3; 61; 3; 3; 64; 67; 3; 3; 25; 22; 58;
   11; 13; 15; 17].
Definition gdb_start : Z := 97.
Definition gdb_error : Z := 0.

(** [a[i]], [None] outside of the table *)
Definition entry (a : list Z) (i : Z) : option Z := if i <? 0 then None else a !! Z.to_nat i.

(** The search among single keys, from [lower] to [upper]: the index of the key; the inner [None] when
    there is none. The search halves, so that more rounds than keys are never needed. *)
Fixpoint single_search (fuel : nat) (lower upper p : Z) : option (option Z) :=
  match fuel with
  | O => None
  | S fuel' =>
      if upper <? lower then Some None else
      let mid := lower + Z.shiftr (upper - lower) 1 in
      key ← entry _gdb_trans_keys mid;
      if p <? key then single_search fuel' lower (mid - 1) p
      else if key <? p then single_search fuel' (mid + 1) upper p
      else Some (Some mid)
  end.

(** The search among pairs of keys, a range each *)
Fixpoint range_search (fuel : nat) (lower upper p : Z) : option (option Z) :=
  match fuel with
  | O => None
  | S fuel' =>
      if upper <? lower then Some None else
      let mid := lower + Z.land (Z.shiftr (upper - lower) 1) (Z.lnot 1) in
      low ← entry _gdb_trans_keys mid;
      high ← entry _gdb_trans_keys (mid + 1);
      if p <? low then range_search fuel' lower (mid - 2) p
      else if high <? p then range_search fuel' (mid + 2) upper p
      else Some (Some mid)
  end.

(** The number of the transition for the character [p], up to the label [_match] *)
Definition find_trans (cs p : Z) : option Z :=
  keys ← entry _gdb_key_offsets cs;
  trans ← entry _gdb_index_offsets cs;
  klen ← entry _gdb_single_lengths cs;
  found ← (if 0 <? klen then single_search (S (Z.to_nat klen)) keys (keys + klen - 1) p else Some None);
  match found with
  | Some mid => Some (trans + (mid - keys))
  | None =>
      let keys := if 0 <? klen then keys + klen else keys in
      let trans := if 0 <? klen then trans + klen else trans in
      klen ← entry _gdb_range_lengths cs;
      if 0 <? klen then
        found ← range_search (S (Z.to_nat klen)) keys (keys + Z.shiftl klen 1 - 2) p;
        match found with
        | Some mid => Some (trans + Z.shiftr (mid - keys) 1)
        | None => Some (trans + klen)
        end
      else Some trans
  end.

(** The actions from [acts] on *)
Fixpoint action_list (nacts : nat) (acts : Z) : option (list Z) :=
  match nacts with
  | O => Some []
  | S n' => a ← entry _gdb_actions acts; l ← action_list n' (acts + 1); Some (a :: l)
  end.

(** The next state and the actions on the way *)
Definition transition (cs p : Z) : option (Z * list Z) :=
  trans ← find_trans cs p;
  trans ← entry _gdb_indicies trans;
  targ ← entry _gdb_trans_targs trans;
  acts ← entry _gdb_trans_actions trans;
  if acts =? 0 then Some (targ, []) else
  nacts ← entry _gdb_actions acts;
  l ← action_list (Z.to_nat nacts) (acts + 1);
  Some (targ, l).

(** ** The actions *)

(** The number that is added for a hexadecimal digit *)
Definition digit_of (p : Z) : Z :=
  if (48 <=? p) && (p <=? 57) then p - 48
  else if (97 <=? p) && (p <=? 102) then p - 97 + 10
  else if (65 <=? p) && (p <=? 70) then p - 65 + 10
  else 0.

Section Parser.
Context {E : Type} {Al : Allocator}.
Abbreviation m := (M (parser * E)).

(** What the program does beside the parser *)
Definition on_env {A} (op : M E A) : m A := fun w =>
  let '(s, e) := w_st w in
  let '(r, w') := op (World (w_heap w) (w_next w) e) in
  (r, World (w_heap w') (w_next w') (s, w_st w')).

(** Sending changes what the client has been sent; the code does not look at whether it could. *)
Context (send_ack send_nack : E -> E) (command_callbacks : option (list (list word -> M E unit))).
Definition sends (f : E -> E) : m unit := s ← get_st; put_st (s.1, f s.2).

Definition get_parser : m parser := s ← get_st; mret s.1.
Definition modify (f : parser -> parser) : m unit := s ← get_st; put_st (f s.1, s.2).

(** [*data], which holds a number, and [*data = v] *)
Definition get_num (i : Z) : m Z :=
  s ← get_parser;
  v ← array_get (stack s) i;
  match v with Num v => mret v | _ => crash Uninit end.
Definition put_word (v : word) : m unit :=
  s ← get_parser;
  array_get (stack s) (data s);;
  modify (set_stack (<[Z.to_nat (data s) := v]> (stack s))).

(** [data++; assert(data < &stack[10]);] *)
Definition push : m unit :=
  s ← get_parser;
  modify (set_data (data s + 1));;
  c_assert (data s + 1 <? 10).

Definition reset : m unit :=
  modify (fun s => set_crc 0 (set_stack (replicate 10 (Num 0)) (set_data 0 (set_rsp None (set_cmd NONE s))))).

Definition hex_digit (p : Z) : m unit :=
  s ← get_parser;
  v ← get_num (data s);
  put_word (Num (u64 (u64 (v * 16) + digit_of p))).

Definition mem_hex_digit (p : Z) : m unit :=
  s ← get_parser;
  let idx := mem_data_i s / 2 in
  c_assert (idx <? mem_data_length s);;
  bs ← load_bytes (ptr_add (mem_data s) idx) 1;
  d ← defined bs;
  let d := u8 (u8 (hd 0 d * 16) + digit_of p) in
  store_bytes (ptr_add (mem_data s) idx) [Some d];;
  modify (set_mem (mem_data s) (mem_data_length s) (u64 (mem_data_i s + 1))).

(** [calloc(1, n)] *)
Definition calloc (n : Z) : m ptr :=
  p ← malloc n;
  (if is_null p then mret tt else store_bytes p (replicate (Z.to_nat n) (Some 0)));;
  mret p.

Definition start_data : m unit :=
  s ← get_parser;
  len ← get_num (data s - 1);
  p ← calloc len;
  put_word (Bytes p);;
  push;;
  modify (set_mem p len 0).

(** [if (command_callbacks) command_callbacks[cmd](stack, priv);] *)
Definition call (c : gdb_command) : m unit :=
  match command_callbacks with
  | None => mret tt
  | Some cbs =>
      s ← get_parser;
      match cbs !! command_no c with
      | Some cb => on_env (cb (stack s))
      | None => crash OutOfBounds
      end
  end.

Definition end_packet : m unit :=
  s ← get_parser;
  v ← get_num (data s);
  if negb (crc s =? v) then
    (if ack_mode s then sends send_nack else mret tt)
  else
    (if ack_mode s then sends send_ack else mret tt);;
    put_word (match rsp s with Some r => Text r | None => Num 0 end);;
    call (cmd s).

Definition supported : string :=
  "multiprocess+;swbreak+;hwbreak-;qRelocInsn-;vContSupported+;QThreadEvents-;no-resumed-;QStartNoAckMode+".

Definition action (a p : Z) : m unit :=
  match a with
  | 0 => reset
  | 1 => modify (fun s => set_crc (u8 (crc s + p)) s)
  | 2 => push
  | 3 => hex_digit p
  | 4 => mem_hex_digit p
  | 5 => end_packet
  | 6 => modify (set_cmd GET_MEM)
  | 7 => modify (set_cmd PUT_MEM)
  | 8 => start_data
  | 9 => modify (set_cmd GET_GPRS)
  | 10 => modify (set_cmd GET_SPR)
  | 11 => modify (set_cmd STOP_REASON)
  | 12 => modify (set_cmd DETACH)
  | 13 => modify (set_rsp (Some "1"%string))
  | 14 => modify (fun s => set_ack_mode true (set_rsp (Some supported) s))
  | 15 => modify (set_rsp (Some "OK"%string));; sends send_ack;; modify (set_ack_mode false)
  | 16 => modify (set_rsp (Some "OK"%string))
  | 17 => modify (set_cmd GET_THREAD)
  | 18 => modify (set_cmd SET_THREAD)
  | 19 => modify (set_cmd QF_THREADINFO)
  | 20 => modify (set_cmd QS_THREADINFO)
  | 21 => modify (set_cmd SET_BREAK)
  | 22 => modify (set_cmd CLEAR_BREAK)
  | 23 => modify (set_rsp (Some "vCont;c;C;s;S"%string))
  | 24 => modify (set_cmd V_CONTC)
  | 25 => modify (set_cmd V_CONTS)
  | 26 => call INTERRUPT
  | _ => mret tt                          (* 27, 28 and 29 write to the log *)
  end.

Fixpoint actions (l : list Z) (p : Z) : m unit :=
  match l with
  | [] => mret tt
  | a :: l' => action a p;; actions l' p
  end.

(** From [_resume] to [_again] *)
Definition step (p : Z) : m unit :=
  s ← get_parser;
  match transition (cs s) p with
  | None => crash OutOfBounds
  | Some (targ, l) => modify (set_cs targ);; actions l p
  end.

Fixpoint exec (buf : list Z) : m unit :=
  match buf with
  | [] => mret tt
  | p :: buf' =>
      step p;;
      s ← get_parser;
      if cs s =? 0 then mret tt else exec buf'
  end.

Definition parser_init (s : parser) : parser := set_cs gdb_start s.

Definition parse_buffer (buf : list Z) : m unit :=
  s ← get_parser;
  (if cs s =? 0 then mret tt else exec buf);;
  s ← get_parser;
  if cs s =? gdb_error then fail (-1) else mret tt.

(** The buffers of a connection, one after the other, as [read_from_client] hands them over: the
    return code is not looked at. *)
Fixpoint feed (bufs : list (list Z)) : m unit :=
  match bufs with
  | [] => mret tt
  | buf :: bufs' => attempt (parse_buffer buf);; feed bufs'
  end.
End Parser.

(** The static variables at the start *)
Definition parser0 : parser := Parser 0 NONE (replicate 10 (Num 0)) 0 Null 0 0 None 0 true.

(** ** Packets

    The text of a packet and what a handler is given for it. Numbers are texts of hexadecimal
    digits, in either case and with any number of zeros in front. *)

Definition chars (s : string) : list Z := (fun c => Z.of_N (N_of_ascii c)) <$> list_ascii_of_string s.

Inductive packet :=
| ReadGprs
| ReadSpr (n : list Z)
| StopReason
| Detach (pid : list Z)
| CurrentThread
| SelectThread (pid tid : list Z)
| Continue (what : list Z)
| StepOver (what : list Z)
| FirstThreads
| NextThreads
| ReadMem (addr len : list Z)
| WriteMem (addr len : list Z) (bytes : list (Z * Z))
| SetBreak (addr : list Z)
| ClearBreak (addr : list Z)
| Attached (pid : list Z)
| Supported (what : list Z)
| NoAckMode
| ContinueQuery
| Alive (pid tid : list Z).

Definition body (p : packet) : list Z :=
  match p with
  | ReadGprs => chars "g"
  | ReadSpr n => chars "p" ++ n
  | StopReason => chars "?"
  | Detach pid => chars "D" ++ pid
  | CurrentThread => chars "qC"
  | SelectThread pid tid => chars "Hgp" ++ pid ++ chars "." ++ tid
  | Continue what => chars "vCont;c" ++ what
  | StepOver what => chars "vCont;s" ++ what
  | FirstThreads => chars "qfThreadInfo"
  | NextThreads => chars "qsThreadInfo"
  | ReadMem addr len => chars "m" ++ addr ++ chars "," ++ len
  | WriteMem addr len bytes => chars "M" ++ addr ++ chars "," ++ len ++ chars ":" ++ concat ((fun '(x, y) => [x; y]) <$> bytes)
  | SetBreak addr => chars "Z0," ++ addr ++ chars ",4"
  | ClearBreak addr => chars "z0," ++ addr ++ chars ",4"
  | Attached pid => chars "qAttached:" ++ pid
  | Supported what => chars "qSupported:" ++ what
  | NoAckMode => chars "QStartNoAckMode"
  | ContinueQuery => chars "vCont?"
  | Alive pid tid => chars "Tp" ++ pid ++ chars "." ++ tid
  end.

Definition xdigit (p : Z) : bool :=
  ((48 <=? p) && (p <=? 57)) || ((97 <=? p) && (p <=? 102)) || ((65 <=? p) && (p <=? 70)).

(** The number a text of digits stands for, modulo 2^64 *)
Definition number (l : list Z) : Z := u64 (foldl (fun v d => v * 16 + digit_of d) 0 l).

Definition is_number (l : list Z) : Prop := l <> [] /\ Forall (fun c => xdigit c = true) l.
(** A text inside a packet *)
Definition is_text (l : list Z) : Prop := l <> [] /\ Forall (fun c => -128 <= c < 256 /\ c <> 35) l.

Definition packet_ok (p : packet) : Prop :=
  match p with
  | ReadSpr n | Detach n | SetBreak n | ClearBreak n | Attached n => is_number n
  | SelectThread a b | ReadMem a b | Alive a b => is_number a /\ is_number b
  | Continue w | StepOver w | Supported w => is_text w
  | WriteMem a n bytes =>
      is_number a /\ is_number n /\ number n = Z.of_nat (length bytes) /\ bytes <> [] /\ number n < 2 ^ 63 /\
      Forall (fun '(x, y) => xdigit x = true /\ xdigit y = true) bytes
  | _ => True
  end.

Definition command (p : packet) : gdb_command :=
  match p with
  | ReadGprs => GET_GPRS | ReadSpr _ => GET_SPR | StopReason => STOP_REASON | Detach _ => DETACH
  | CurrentThread => GET_THREAD | SelectThread _ _ => SET_THREAD | Continue _ => V_CONTC | StepOver _ => V_CONTS
  | FirstThreads => QF_THREADINFO | NextThreads => QS_THREADINFO
  | ReadMem _ _ => GET_MEM | WriteMem _ _ _ => PUT_MEM
  | SetBreak _ => SET_BREAK | ClearBreak _ => CLEAR_BREAK
  | Attached _ | Supported _ | NoAckMode | ContinueQuery | Alive _ _ => NONE
  end.

(** The text that [cmd_default] answers with *)
Definition answer (p : packet) : option string :=
  match p with
  | Attached _ => Some "1"%string
  | Supported _ => Some supported
  | NoAckMode | Alive _ _ => Some "OK"%string
  | ContinueQuery => Some "vCont;c;C;s;S"%string
  | _ => None
  end.

(** The arguments, without the bytes of memory *)
Definition numbers (p : packet) : list Z :=
  match p with
  | ReadSpr n | Detach n | SetBreak n | ClearBreak n => [number n]
  | SelectThread _ tid => [number tid]
  | ReadMem a n | WriteMem a n _ => [number a; number n]
  | _ => []
  end.

Definition ack_after (p : packet) (ack : bool) : bool :=
  match p with Supported _ => true | NoAckMode => false | _ => ack end.

Definition checksum (l : list Z) : Z := foldl (fun c p => u8 (c + p)) 0 l.

(** A byte from its two digits *)
Definition byte_of (xy : Z * Z) : Z := u8 (digit_of xy.1 * 16 + digit_of xy.2).

(** What a client sends; the two digits are the sum of a packet. *)
Inductive item :=
| Packet (p : packet) (x y : Z)
| Interrupt
| Ack
| Nack.

Definition sent (i : item) : list Z :=
  match i with
  | Packet p x y => 36 :: body p ++ [35; x; y]
  | Interrupt => [3]
  | Ack => [43]
  | Nack => [45]
  end.

Definition item_ok (i : item) : Prop :=
  match i with Packet p x y => packet_ok p /\ xdigit x = true /\ xdigit y = true | _ => True end.

Section Serve.
Context {E : Type} {Al : Allocator}.
Context (send_ack send_nack : E -> E) (cbs : list (list word -> M E unit)).

Definition says (f : E -> E) : M E unit := e ← get_st; put_st (f e).
Definition calls (c : gdb_command) (l : list word) : M E unit :=
  match cbs !! command_no c with Some cb => cb l | None => crash OutOfBounds end.

(** The stack for the handler: the arguments, a block with the bytes of memory, and [last] *)
Definition words (p : packet) (mem : list word) (last : word) : list word :=
  let l := (Num <$> numbers p) ++ mem ++ [last] in l ++ replicate (10 - length l) (Num 0).

(** The block of memory for the bytes of a packet; it is there before the sum is looked at. *)
Definition block (p : packet) : M E (list word) :=
  match p with
  | WriteMem _ _ bytes => fun w =>
      (Ret [Bytes (Ptr (w_next w) 0)],
       World (<[w_next w := Some <$> (byte_of <$> bytes)]> (w_heap w)) (S (w_next w)) (w_st w))
  | _ => mret []
  end.

(** How a sequence of items is served: [ack] is the mode, [l] the stack as it was left. *)
Fixpoint serve (ack : bool) (l : list word) (items : list item) : M E unit :=
  match items with
  | [] => mret tt
  | Packet p x y :: items' =>
      (match p with NoAckMode => says send_ack | _ => mret tt end);;
      mem ← block p;
      let ack' := ack_after p ack in
      if checksum (body p) =? digit_of x * 16 + digit_of y then
        (if ack' then says send_ack else mret tt);;
        let l' := words p mem (match answer p with Some r => Text r | None => Num 0 end) in
        calls (command p) l';;
        serve ack' l' items'
      else
        (if ack' then says send_nack else mret tt);;
        serve ack' (words p mem (Num (digit_of x * 16 + digit_of y))) items'
  | Interrupt :: items' => calls INTERRUPT l;; serve ack l items'
  | _ :: items' => serve ack l items'
  end.
End Serve.

(** ** The automaton on texts *)

Definition crc_step (c p : Z) : Z := u8 (c + p).
Definition hex_step (v d : Z) : Z := u64 (u64 (v * 16) + digit_of d).

(** The actions that only change the variables of the parser *)
Definition pure_action (a p : Z) (s : parser) : option parser :=
  match a with
  | 0 => Some (set_crc 0 (set_stack (replicate 10 (Num 0)) (set_data 0 (set_rsp None (set_cmd NONE s)))))
  | 1 => Some (set_crc (crc_step (crc s) p) s)
  | 2 => if data s + 1 <? 10 then Some (set_data (data s + 1) s) else None
  | 3 => match (if data s <? 0 then None else stack s !! Z.to_nat (data s)) with
         | Some (Num v) => Some (set_stack (<[Z.to_nat (data s) := Num (hex_step v p)]> (stack s)) s)
         | _ => None
         end
  | 6 => Some (set_cmd GET_MEM s)
  | 7 => Some (set_cmd PUT_MEM s)
  | 9 => Some (set_cmd GET_GPRS s)
  | 10 => Some (set_cmd GET_SPR s)
  | 11 => Some (set_cmd STOP_REASON s)
  | 12 => Some (set_cmd DETACH s)
  | 13 => Some (set_rsp (Some "1"%string) s)
  | 14 => Some (set_ack_mode true (set_rsp (Some supported) s))
  | 16 => Some (set_rsp (Some "OK"%string) s)
  | 17 => Some (set_cmd GET_THREAD s)
  | 18 => Some (set_cmd SET_THREAD s)
  | 19 => Some (set_cmd QF_THREADINFO s)
  | 20 => Some (set_cmd QS_THREADINFO s)
  | 21 => Some (set_cmd SET_BREAK s)
  | 22 => Some (set_cmd CLEAR_BREAK s)
  | 23 => Some (set_rsp (Some "vCont;c;C;s;S"%string) s)
  | 24 => Some (set_cmd V_CONTC s)
  | 25 => Some (set_cmd V_CONTS s)
  | 27 | 28 | 29 => Some s
  | _ => None
  end.

Fixpoint pure_actions (l : list Z) (p : Z) (s : parser) : option parser :=
  match l with [] => Some s | a :: l' => s ← pure_action a p s; pure_actions l' p s end.

Fixpoint pure_run (s : parser) (buf : list Z) : option parser :=
  match buf with
  | [] => Some s
  | p :: buf' =>
      '(targ, l) ← transition (cs s) p;
      s ← pure_actions l p (set_cs targ s);
      if cs s =? 0 then None else pure_run s buf'
  end.

#[local] Arguments transition : simpl never.
#[local] Arguments wrap : simpl never.

Section Runs.
Context {E : Type} {Al : Allocator} (send_ack send_nack : E -> E) (cbs : option (list (list word -> M E unit))).
Abbreviation act := (action send_ack send_nack cbs).
Abbreviation acts := (actions send_ack send_nack cbs).
Abbreviation run := (exec send_ack send_nack cbs).


Lemma get_num_ok s i v h n (e : E) : (if i <? 0 then None else stack s !! Z.to_nat i) = Some (Num v) ->
  get_num i (World h n (s, e)) = (Ret v, World h n (s, e)).
Proof.
  intros H. unfold get_num, array_get, get_parser, mbind, M_bind. cbn -[Z.ltb]. destruct (_ <? 0); [done|]. by rewrite H.
Qed.
Lemma put_word_ok s u v h n (e : E) : (if data s <? 0 then None else stack s !! Z.to_nat (data s)) = Some u ->
  put_word v (World h n (s, e)) = (Ret tt, World h n (set_stack (<[Z.to_nat (data s) := v]> (stack s)) s, e)).
Proof.
  intros H. unfold put_word, array_get, get_parser, mbind, M_bind. cbn -[Z.ltb]. destruct (_ <? 0); [done|]. by rewrite H.
Qed.

Lemma hex_digit_ok s v p h n (e : E) : (if data s <? 0 then None else stack s !! Z.to_nat (data s)) = Some (Num v) ->
  hex_digit p (World h n (s, e)) =
  (Ret tt, World h n (set_stack (<[Z.to_nat (data s) := Num (u64 (u64 (v * 16) + digit_of p))]> (stack s)) s, e)).
Proof.
  intros H. unfold hex_digit, get_parser, mbind, M_bind. cbn -[get_num put_word Z.mul Z.add]. rewrite (get_num_ok _ _ _ _ _ _ H). by apply (put_word_ok _ (Num v)).
Qed.

Lemma action_pure a p s s' h n (e : E) : pure_action a p s = Some s' ->
  act a p (World h n (s, e)) = (Ret tt, World h n (s', e)).
Proof.
  intros H. unfold pure_action in H.
  repeat (case_match; try discriminate); simplify_eq; try reflexivity.
  - apply hex_digit_ok. by repeat case_match; simplify_eq.
  - cbn [action]. unfold push. rewrite (bind_at _ _ _ s (World h n (s, e))) by done.
    rewrite (bind_at _ _ _ tt (World h n (set_data (data s + 1) s, e))) by done.
    unfold c_assert. by match goal with H : (_ <? 10) = true |- _ => rewrite H end.
Qed.

Lemma actions_pure l p s s' h n (e : E) : pure_actions l p s = Some s' ->
  acts l p (World h n (s, e)) = (Ret tt, World h n (s', e)).
Proof.
  revert s. induction l as [|a l IH]; intros s H; [by simplify_eq/=|]. cbn in H.
  destruct (pure_action a p s) as [s1|] eqn:H1; [|done]. cbn in H.
  cbn [actions]. unfold mbind, M_bind. rewrite (action_pure _ _ _ _ _ _ _ H1). by apply IH.
Qed.

Lemma step_pure p s s' targ l h n (e : E) : transition (cs s) p = Some (targ, l) -> pure_actions l p (set_cs targ s) = Some s' ->
  step send_ack send_nack cbs p (World h n (s, e)) = (Ret tt, World h n (s', e)).
Proof.
  intros Ht H. unfold step. rewrite (bind_at _ _ _ s (World h n (s, e))) by done. rewrite Ht.
  rewrite (bind_at _ _ _ tt (World h n (set_cs targ s, e))) by done. by apply actions_pure.
Qed.

(** One character after another *)
Lemma run_cons p buf w w' : step send_ack send_nack cbs p w = (Ret tt, w') -> cs (w_st w').1 <> 0 ->
  run (p :: buf) w = run buf w'.
Proof.
  intros H H0. cbn [exec]. rewrite (bind_at _ _ _ _ _ H). rewrite (bind_at _ _ _ (w_st w').1 w') by done.
  by rewrite (proj2 (Z.eqb_neq _ _) H0).
Qed.

Lemma run_pure buf rest s s' h n (e : E) : pure_run s buf = Some s' ->
  run (buf ++ rest) (World h n (s, e)) = run rest (World h n (s', e)).
Proof.
  revert s. induction buf as [|p buf IH]; intros s H; [by simplify_eq/=|]. cbn in H.
  destruct (transition (cs s) p) as [[targ l]|] eqn:Ht; [|done]. cbn in H.
  destruct (pure_actions l p (set_cs targ s)) as [s1|] eqn:H1; [|done]. cbn in H.
  destruct (cs s1 =? 0) eqn:H0; [done|]. apply Z.eqb_neq in H0.
  cbn [app]. rewrite (run_cons p _ _ _ (step_pure _ _ _ _ _ _ _ _ Ht H1)) by done. by apply IH.
Qed.
End Runs.

(** *** Classes of characters *)

Definition xdigits : list Z := seqZ 48 10 ++ seqZ 97 6 ++ seqZ 65 6.
Definition text_chars : list Z := seqZ (-128) 163 ++ seqZ 36 220.

(** Each of the characters leads from [st0] to [st] by the actions [l]. *)
Definition leads (cl : list Z) (st0 st : Z) (l : list Z) : bool :=
  forallb (fun c => bool_decide (transition st0 c = Some (st, l))) cl.

Lemma leads_to cl st0 st l c : leads cl st0 st l = true -> c ∈ cl -> transition st0 c = Some (st, l).
Proof.
  unfold leads. rewrite forallb_forall. intros H Hc. apply (bool_decide_eq_true_1 _ (H c (proj1 (list_elem_of_In _ _) Hc))).
Qed.

Lemma xdigit_in c : xdigit c = true -> c ∈ xdigits.
Proof.
  unfold xdigit, xdigits. intros H. rewrite !elem_of_app, !elem_of_seqZ.
  rewrite !orb_true_iff, !andb_true_iff, !Z.leb_le in H. lia.
Qed.
Lemma text_in c : -128 <= c < 256 /\ c <> 35 -> c ∈ text_chars.
Proof. intros H. unfold text_chars. rewrite !elem_of_app, !elem_of_seqZ. lia. Qed.

Lemma pure_cons s p buf targ l s' : transition (cs s) p = Some (targ, l) -> pure_actions l p (set_cs targ s) = Some s' ->
  cs s' <> 0 -> pure_run s (p :: buf) = pure_run s' buf.
Proof. intros Ht H H0. cbn. rewrite Ht. cbn. rewrite H. cbn. by rewrite (proj2 (Z.eqb_neq _ _) H0). Qed.

(** A loop of the automaton over characters that only count for the sum *)
Lemma text_loop cl st l s buf rest : leads cl st st l = true -> Forall (fun c => c ∈ cl) buf -> cs s = st -> st <> 0 ->
  (forall k c, pure_actions l c (set_crc k s) = Some (set_crc (crc_step k c) s)) ->
  pure_run s (buf ++ rest) = pure_run (set_crc (foldl crc_step (crc s) buf) s) rest.
Proof.
  intros Hl Hb Hs H0 Ha. assert (set_crc (crc s) s = s) as E by (by destruct s). rewrite <- E at 1.
  generalize (crc s) as k. clear E. induction Hb as [|c buf Hc Hb IH]; intros k; [done|].
  cbn [app foldl]. rewrite (pure_cons _ _ _ st l (set_crc (crc_step k c) s)); [by apply IH|..].
  - cbn [cs set_crc]. rewrite Hs. by apply (leads_to cl).
  - rewrite <- Ha. f_equal. destruct s. by cbn in *; subst.
  - cbn. by rewrite Hs.
Qed.

(** A loop over digits that also count for the word [i] of the stack *)
Lemma digit_loop st l s buf rest v i : leads xdigits st st l = true -> Forall (fun c => xdigit c = true) buf -> cs s = st -> st <> 0 ->
  stack s !! i = Some (Num v) ->
  (forall k v c, pure_actions l c (set_crc k (set_stack (<[i := Num v]> (stack s)) s)) =
    Some (set_crc (crc_step k c) (set_stack (<[i := Num (hex_step v c)]> (stack s)) s))) ->
  pure_run s (buf ++ rest) =
  pure_run (set_crc (foldl crc_step (crc s) buf) (set_stack (<[i := Num (foldl hex_step v buf)]> (stack s)) s)) rest.
Proof.
  intros Hl Hb Hs H0 Hi Ha.
  assert (set_crc (crc s) (set_stack (<[i := Num v]> (stack s)) s) = s) as E by (rewrite (list_insert_id _ _ _ Hi); by destruct s).
  rewrite <- E at 1. generalize (crc s) as k. clear E Hi. revert v. induction Hb as [|c buf Hc Hb IH]; intros v k; [done|].
  cbn [app foldl]. rewrite (pure_cons _ _ _ st l (set_crc (crc_step k c) (set_stack (<[i := Num (hex_step v c)]> (stack s)) s))); [by apply IH|..].
  - cbn [cs set_crc set_stack]. rewrite Hs. apply (leads_to xdigits); [done|by apply xdigit_in].
  - rewrite <- Ha. f_equal. destruct s. by cbn in *; subst.
  - cbn. by rewrite Hs.
Qed.

Lemma hex_step_u64 v d : hex_step (u64 v) d = u64 (v * 16 + digit_of d).
Proof. unfold hex_step, wrap. by rewrite Zmult_mod_idemp_l, Zplus_mod_idemp_l. Qed.
Lemma hex_steps l v : foldl hex_step (u64 v) l = u64 (foldl (fun v d => v * 16 + digit_of d) v l).
Proof. revert v. induction l as [|d l IH]; intros v; [done|]. cbn [foldl]. by rewrite hex_step_u64, IH. Qed.
Lemma number_steps l : foldl hex_step 0 l = number l.
Proof. exact (hex_steps l 0). Qed.

(** ** Packets *)

(** The parser before the two digits of the sum *)
Definition parsed (p : packet) (mem : list word) (s : parser) : parser :=
  let l := (Num <$> numbers p) ++ mem in
  Parser 3 (command p) (l ++ replicate (10 - length l) (Num 0)) (Z.of_nat (length l)) (mem_data s) (mem_data_length s)
    (mem_data_i s) (answer p) (checksum (body p)) (ack_after p (ack_mode s)).

Ltac norm := repeat match goal with |- context [chars ?s] => let v := eval vm_compute in (chars s) in change (chars s) with v end;
  cbn [app]; repeat (rewrite <- app_assoc; cbn [app]).
(** A state of the parser as a record *)
Ltac explicit s := eval cbv -[crc_step hex_step transition supported foldl number Z.mul Z.of_nat length fmap concat] in s.
(** One character with its actions; [c] has the same transition. *)
Ltac next cl c tac := lazymatch goal with |- pure_run ?s (?p :: ?buf) = _ =>
  let st := explicit (cs s) in let r := eval vm_compute in (transition st c) in
  lazymatch r with Some (?t, ?l) =>
    let s' := explicit (pure_actions l p (set_cs t s)) in
    lazymatch s' with Some ?s'' => rewrite (pure_cons s p buf t l s''); [|tac st t l|reflexivity|discriminate] end end end.
Ltac lit := lazymatch goal with |- pure_run _ (?p :: _) = _ => next 0 p ltac:(fun _ _ _ => vm_compute; reflexivity) end.
Ltac lits := repeat (lazymatch goal with |- pure_run _ (Z0 :: _) = _ => lit | |- pure_run _ (Zpos _ :: _) = _ => lit end).
Ltac tidy := lazymatch goal with |- pure_run ?s ?b = ?r => let s' := explicit s in change (pure_run s' b = r) end.
(** A number: the first digit and the loop *)
Ltac dig := next xdigits 48 ltac:(fun _ _ _ => apply (leads_to xdigits); [vm_compute; reflexivity|by apply xdigit_in]);
  lazymatch goal with |- pure_run ?s (?ds ++ _) = _ =>
    let st := explicit (cs s) in let r := eval vm_compute in (transition st 48) in
    let i := explicit (Z.to_nat (data s)) in let v := explicit (stack s !! i) in
    lazymatch r with Some (_, ?l) => lazymatch v with Some (Num ?v) =>
      rewrite (digit_loop st l s ds _ v i); [|vm_compute; reflexivity|assumption|reflexivity|discriminate|reflexivity|reflexivity];
      tidy end end end.
(** A text in which characters like [c] only count for the sum *)
Ltac txt cl c inn := next cl c ltac:(fun _ _ _ => apply (leads_to cl); [vm_compute; reflexivity|by apply inn]);
  lazymatch goal with |- pure_run ?s (?ds ++ _) = _ =>
    let st := explicit (cs s) in let r := eval vm_compute in (transition st c) in
    lazymatch r with Some (_, ?l) =>
      rewrite (text_loop cl st l s ds _); [|vm_compute; reflexivity|eapply Forall_impl; [eassumption|exact inn]|reflexivity|discriminate|reflexivity];
      tidy end end.

Ltac fin := cbn [pure_run command numbers answer ack_after mem_data mem_data_length mem_data_i ack_mode fmap list_fmap app];
  rewrite <- ?number_steps; unfold checksum; cbn [body]; norm; fold crc_step;
  repeat (rewrite foldl_app || cbn [foldl]); reflexivity.

Lemma packet_parsed p s : packet_ok p -> cs s = 97 ->
  match p with
  | NoAckMode | WriteMem _ _ _ => True
  | _ => pure_run s (36 :: body p ++ [35]) = Some (parsed p [] s)
  end.
Proof.
  destruct s as [st c stk d md ml mi r cr am]. cbn [cs]. intros Hp ->.
  destruct p; try exact I; cbn [packet_ok] in Hp; unfold is_number, is_text in Hp; destruct_and?;
    repeat match goal with H : ?l <> [] |- _ => destruct l; [by destruct H|clear H] end;
    repeat match goal with H : Forall _ (_ :: _) |- _ => apply Forall_cons in H as [? H] end;
    cbn [body]; norm; lits; unfold parsed.
  - reflexivity.
  - dig. lits. fin.
  - reflexivity.
  - dig. lits. fin.
  - reflexivity.
  - txt xdigits 48 xdigit_in. lits. dig. lits. fin.
  - txt text_chars 65 text_in. lits. fin.
  - txt text_chars 65 text_in. lits. fin.
  - reflexivity.
  - reflexivity.
  - dig. lits. dig. lits. fin.
  - dig. lits. fin.
  - dig. lits. fin.
  - txt xdigits 48 xdigit_in. lits. fin.
  - txt text_chars 65 text_in. lits. fin.
  - reflexivity.
  - txt xdigits 48 xdigit_in. lits. txt xdigits 48 xdigit_in. lits. fin.
Qed.

#[local] Arguments array_get : simpl never.

Lemma run_no_ack {E} {Al : Allocator} (send_ack send_nack : E -> E) cbs s rest h n (e : E) : cs s = 97 ->
  exec send_ack send_nack cbs (36 :: body NoAckMode ++ 35 :: rest) (World h n (s, e)) =
  exec send_ack send_nack cbs rest (World h n (parsed NoAckMode [] s, send_ack e)).
Proof.
  destruct s as [st c stk d md ml mi r cr am]. cbn [cs]. intros ->.
  change (36 :: body NoAckMode ++ 35 :: rest) with ((36 :: chars "QStartNoAckMod") ++ 101 :: 35 :: rest).
  erewrite run_pure; [|vm_compute; reflexivity].
  erewrite run_cons; [|cbn; reflexivity|done]. erewrite run_cons; [|reflexivity|done]. reflexivity.
Qed.

Section WriteMem.
Context {E : Type} {Al : Allocator} (send_ack send_nack : E -> E) (cbs : option (list (list word -> M E unit))).
Abbreviation run := (exec send_ack send_nack cbs).

(** One digit of a byte of memory *)
Lemma mem_digit p s b pre v suf h n (e : E) : mem_data s = Ptr b 0 -> mem_data_i s / 2 = Z.of_nat (length pre) ->
  Z.of_nat (length pre) < mem_data_length s ->
  mem_hex_digit p (World (<[b := pre ++ Some v :: suf]> h) n (s, e)) =
  (Ret tt, World (<[b := pre ++ Some (u8 (u8 (v * 16) + digit_of p)) :: suf]> h) n
             (set_mem (Ptr b 0) (mem_data_length s) (u64 (mem_data_i s + 1)) s, e)).
Proof.
  destruct s as [st c stk d md ml mi r cr am]. cbn [mem_data mem_data_i mem_data_length]. intros -> Hi Hl.
  set (s := Parser st c stk d (Ptr b 0) ml mi r cr am). unfold mem_hex_digit. rewrite (bind_at _ _ _ s (World (<[b := pre ++ Some v :: suf]> h) n (s, e))) by done.
  cbv beta zeta. cbn [mem_data mem_data_i mem_data_length s]. rewrite Hi. unfold c_assert. rewrite (proj2 (Z.ltb_lt _ _) Hl). cbn [ptr_add].
  rewrite (bind_at _ _ _ tt (World (<[b := pre ++ Some v :: suf]> h) n (s, e))) by done.
  assert (length (pre ++ Some v :: suf) = (length pre + S (length suf))%nat) as El by (by rewrite length_app).
  rewrite (bind_at _ _ _ [Some v] (World (<[b := pre ++ Some v :: suf]> h) n (s, e))).
  2: { unfold load_bytes. cbn [w_heap]. rewrite lookup_insert_eq, El.
       rewrite !(proj2 (Z.leb_le _ _)) by lia. cbn [andb]. unfold slice.
       rewrite Z.add_0_l, Nat2Z.id. rewrite drop_app_length. done. }
  rewrite (bind_at _ _ _ [v] (World (<[b := pre ++ Some v :: suf]> h) n (s, e))) by done. cbv beta zeta. cbn [hd].
  rewrite (bind_at _ _ _ tt (World (<[b := pre ++ Some (u8 (u8 (v * 16) + digit_of p)) :: suf]> h) n (s, e))).
  2: { unfold store_bytes. cbn [w_heap w_next w_st]. rewrite lookup_insert_eq, El.
       rewrite !(proj2 (Z.leb_le _ _)) by (cbn; lia). cbn [andb]. unfold patch. rewrite Z.add_0_l, Nat2Z.id, insert_insert_eq.
       rewrite take_app_length. cbn [length]. rewrite drop_app_ge by lia.
       replace (length pre + 1 - length pre)%nat with 1%nat by lia. done. }
  unfold modify, mbind, M_bind, get_st, put_st. cbn [w_st w_heap w_next fst snd].
  done.
Qed.

(** The state while the bytes of memory are read, [i] digits after the start *)
Definition reading (a len : Z) (b : nat) (i c : Z) (am : bool) : parser :=
  Parser 17 PUT_MEM [Num a; Num len; Bytes (Ptr b 0); Num 0; Num 0; Num 0; Num 0; Num 0; Num 0; Num 0] 3 (Ptr b 0) len i None c am.

Lemma leads_digit st0 st l c : leads xdigits st0 st l = true -> xdigit c = true -> transition st0 c = Some (st, l).
Proof. intros H Hc. apply (leads_to xdigits); [done|by apply xdigit_in]. Qed.

Lemma step_digit p a len b k i c am pre v suf h n (e : E) : xdigit p = true -> i / 2 = k -> k = Z.of_nat (length pre) -> k < len -> 0 <= i < 2 ^ 64 - 1 ->
  step send_ack send_nack cbs p (World (<[b := pre ++ Some v :: suf]> h) n (reading a len b i c am, e)) =
  (Ret tt, World (<[b := pre ++ Some (u8 (u8 (v * 16) + digit_of p)) :: suf]> h) n (reading a len b (i + 1) (crc_step c p) am, e)).
Proof.
  intros Hx Hi Hk Hl Hr. unfold step. rewrite (bind_at _ _ _ (reading a len b i c am) (World (<[b := pre ++ Some v :: suf]> h) n (reading a len b i c am, e))) by done.
  cbn [cs reading]. rewrite (leads_digit 17 17 [4; 1]) by (done || (vm_compute; reflexivity)).
  rewrite (bind_at _ _ _ tt (World (<[b := pre ++ Some v :: suf]> h) n (reading a len b i c am, e))) by done.
  cbn [actions]. erewrite bind_at; [|cbn [action]; apply mem_digit; cbn; lia || done].
  cbn [mem_data_i mem_data_length reading]. rewrite (wrap_small 64) by (unfold in_range; lia). reflexivity.
Qed.

Lemma two_digits x y : u8 (u8 (u8 (u8 (0 * 16) + x) * 16) + y) = u8 (x * 16 + y).
Proof. unfold wrap. by rewrite !Zplus_mod_idemp_l, <- Zplus_mod_idemp_l, Zmult_mod_idemp_l, Zplus_mod_idemp_l. Qed.

Lemma run_bytes a len b bytes rest pre h n (e : E) c am : Forall (fun '(x, y) => xdigit x = true /\ xdigit y = true) bytes ->
  len = Z.of_nat (length pre + length bytes) -> 2 * len < 2 ^ 64 ->
  run (concat ((fun '(x, y) => [x; y]) <$> bytes) ++ rest)
    (World (<[b := pre ++ replicate (length bytes) (Some 0)]> h) n (reading a len b (2 * Z.of_nat (length pre)) c am, e)) =
  run rest (World (<[b := pre ++ (Some <$> (byte_of <$> bytes))]> h) n
    (reading a len b (2 * len) (foldl crc_step c (concat ((fun '(x, y) => [x; y]) <$> bytes))) am, e)).
Proof.
  intros Hb. revert pre c. induction Hb as [|[x y] bytes [Hx Hy] Hb IH]; intros pre c Hl Hr.
  - cbn in *. rewrite Nat.add_0_r in Hl. by rewrite Hl.
  - cbn [fmap list_fmap concat app length replicate foldl] in *.
    erewrite run_cons; [|apply (step_digit _ _ _ _ (Z.of_nat (length pre))); [done|..]; try lia|done].
    2: { symmetry. apply (Z.div_unique_pos _ _ _ 0); lia. }
    erewrite run_cons; [|apply (step_digit _ _ _ _ (Z.of_nat (length pre))); [done|..]; try lia|done].
    2: { symmetry. apply (Z.div_unique_pos _ _ _ 1); lia. }
    specialize (IH (pre ++ [Some (byte_of (x, y))]) (crc_step (crc_step c x) y)).
    rewrite <- !app_assoc in IH. cbn [app] in IH. rewrite length_app in IH. cbn [length] in IH.
    rewrite <- IH by lia. do 2 f_equal; [|by replace (2 * Z.of_nat (length pre) + 1 + 1) with (2 * Z.of_nat (length pre + 1)) by lia].
    do 3 f_equal. unfold byte_of. cbn [fst snd]. by rewrite two_digits.
Qed.
End WriteMem.

Lemma calloc_ok {E} {Al : Allocator} l h n s (e : E) : can_alloc n l = true -> 0 <= l ->
  calloc l (World h n (s, e)) = (Ret (Ptr n 0), World (<[n := replicate (Z.to_nat l) (Some 0)]> h) (S n) (s, e)).
Proof.
  intros Hal Hl. unfold calloc, malloc, mbind, M_bind. cbn [w_next]. rewrite Hal. cbn [is_null].
  unfold store_bytes. cbn [w_heap w_next w_st]. rewrite lookup_insert_eq, !length_replicate.
  rewrite !(proj2 (Z.leb_le _ _)) by (cbn; lia). cbn [andb].
  rewrite insert_insert_eq. rewrite patch_full; [done|by rewrite !length_replicate|done].
Qed.

Lemma start_data_ok {E} {Al : Allocator} a l st c md ml mi cr am h n (e : E) : (forall k m, can_alloc k m = true) -> 0 <= l ->
  start_data (World h n (Parser st c [Num a; Num l; Num 0; Num 0; Num 0; Num 0; Num 0; Num 0; Num 0; Num 0] 2 md ml mi None cr am, e)) =
  (Ret tt, World (<[n := replicate (Z.to_nat l) (Some 0)]> h) (S n)
    (Parser st c [Num a; Num l; Bytes (Ptr n 0); Num 0; Num 0; Num 0; Num 0; Num 0; Num 0; Num 0] 3 (Ptr n 0) l 0 None cr am, e)).
Proof.
  intros Hal Hl. unfold start_data.
  set (s := Parser st c _ 2 md ml mi None cr am).
  rewrite (bind_at _ _ _ s (World h n (s, e))) by done. rewrite (bind_at _ _ _ l (World h n (s, e))) by done.
  rewrite (bind_at _ _ _ _ _ (calloc_ok l h n s e (Hal n l) Hl)).
  reflexivity.
Qed.

Lemma step_colon {E} {Al : Allocator} (send_ack send_nack : E -> E) cbs a l md ml mi c am h n (e : E) :
  (forall k m, can_alloc k m = true) -> 0 <= l ->
  step send_ack send_nack cbs 58 (World h n (Parser 16 PUT_MEM [Num a; Num l; Num 0; Num 0; Num 0; Num 0; Num 0; Num 0; Num 0; Num 0]
    1 md ml mi None c am, e)) =
  (Ret tt, World (<[n := replicate (Z.to_nat l) (Some 0)]> h) (S n) (reading a l n 0 (crc_step c 58) am, e)).
Proof.
  intros Hal Hl. set (s := Parser 16 _ _ _ _ _ _ _ _ _). unfold step. rewrite (bind_at _ _ _ s (World h n (s, e))) by done.
  replace (transition (cs s) 58) with (Some (17, [2; 8; 1])) by (vm_compute; reflexivity).
  rewrite (bind_at _ _ _ tt (World h n (set_cs 17 s, e))) by done. cbn [actions].
  rewrite (bind_at _ _ _ tt (World h n (set_data 2 (set_cs 17 s), e))) by done.
  erewrite bind_at; [|cbn [action]; apply start_data_ok; done]. reflexivity.
Qed.

Lemma reading_end a len b i c am : pure_run (reading a len b i c am) [35] =
  Some (Parser 3 PUT_MEM [Num a; Num len; Bytes (Ptr b 0); Num 0; Num 0; Num 0; Num 0; Num 0; Num 0; Num 0] 3 (Ptr b 0) len i None c am).
Proof. reflexivity. Qed.

(** The bytes of a block are there at once in [serve]; here they are read one by one. *)
Lemma run_write {E} {Al : Allocator} (send_ack send_nack : E -> E) cbs a l bytes s rest h n (e : E) :
  (forall k m, can_alloc k m = true) -> packet_ok (WriteMem a l bytes) -> cs s = 97 ->
  exec send_ack send_nack cbs (36 :: body (WriteMem a l bytes) ++ 35 :: rest) (World h n (s, e)) =
  exec send_ack send_nack cbs rest
    (World (<[n := Some <$> (byte_of <$> bytes)]> h) (S n)
       (parsed (WriteMem a l bytes) [Bytes (Ptr n 0)] (set_mem (Ptr n 0) (number l) (2 * number l) s), e)).
Proof.
  intros Hal ([Ha0 Ha] & [Hl0 Hl] & Hn & Hb0 & Hr & Hb) Hs. destruct s as [st c stk d md ml mi r cr am]. cbn [cs] in Hs. subst st.
  set (pre := 36 :: chars "M" ++ a ++ chars "," ++ l).
  assert (pure_run (Parser 97 c stk d md ml mi r cr am) pre =
    Some (Parser 16 PUT_MEM [Num (number a); Num (number l); Num 0; Num 0; Num 0; Num 0; Num 0; Num 0; Num 0; Num 0]
      1 md ml mi None (checksum (chars "M" ++ a ++ chars "," ++ l)) am)) as Hpre.
  { destruct a as [|x a]; [by destruct Ha0|]. destruct l as [|y l]; [by destruct Hl0|]. apply Forall_cons in Ha as [? Ha]. apply Forall_cons in Hl as [? Hl].
    unfold pre. rewrite <- (app_nil_r (y :: l)) at 1. norm. lits. dig. lits. dig. fin. }
  replace (36 :: body (WriteMem a l bytes) ++ 35 :: rest)
    with (pre ++ 58 :: concat ((fun '(x, y) => [x; y]) <$> bytes) ++ 35 :: rest).
  2: { unfold pre. cbn [body]. by norm. }
  rewrite (run_pure _ _ _ _ _ _ _ _ _ _ Hpre).
  set (c1 := checksum (chars "M" ++ a ++ chars "," ++ l)).
  erewrite run_cons; [|apply step_colon; [done|lia]|done].
  rewrite Hn, Nat2Z.id in *. pose proof (run_bytes send_ack send_nack cbs (number a) (Z.of_nat (length bytes)) n bytes (35 :: rest) [] h (S n) e) as Hrun.
  cbn [app length Nat.add Z.of_nat Z.mul] in Hrun. rewrite Hrun by (done || lia).
  change (35 :: rest) with ([35] ++ rest). rewrite (run_pure _ _ _ _ _ _ _ _ _ _ (reading_end _ _ _ _ _ _)).
  do 4 f_equal. unfold parsed. cbn [numbers fmap list_fmap]. rewrite Hn. f_equal.
  unfold c1, checksum. fold crc_step. cbn [body]. norm.
  repeat (rewrite foldl_app || cbn [foldl]). done.
Qed.

(** ** Functions without a result *)

Definition void {S A} (op : M S A) : Prop := forall w rc w', op w <> (Fail rc, w').

Lemma void_ret {S A} (a : A) : void (mret a : M S A).
Proof. by intros w rc w'. Qed.
Lemma void_bind {S A B} (op : M S A) (k : A -> M S B) : void op -> (forall a, void (k a)) -> void (op ≫= k).
Proof.
  intros H1 H2 w rc w'. unfold mbind, M_bind. destruct (op w) as [[a|rc'|f] w1] eqn:E; [apply H2| |done].
  intros [= -> ->]. by apply (H1 w rc w').
Qed.
Lemma void_crash {S A} f : void (crash f : M S A).
Proof. by intros w rc w'. Qed.
Lemma void_get {S} : void (get_st : M S S).
Proof. by intros w rc w'. Qed.
Lemma void_put {S} (s : S) : void (put_st s).
Proof. by intros w rc w'. Qed.
Lemma void_assert {S} b : void (c_assert b : M S unit).
Proof. by destruct b; intros w rc w'. Qed.
Lemma void_array {S A} (l : list A) i : void (array_get l i : M S A).
Proof. unfold array_get. by case_match; intros w rc w'. Qed.
Lemma void_load {S} p n : void (load_bytes p n : M S (list mval)).
Proof. intros w rc w'. unfold load_bytes. by repeat case_match. Qed.
Lemma void_store {S} p bs : void (store_bytes p bs : M S unit).
Proof. intros w rc w'. unfold store_bytes. by repeat case_match. Qed.
Lemma void_defined {S} bs : void (defined bs : M S (list Z)).
Proof. unfold defined. by case_match; intros w rc w'. Qed.
Lemma void_malloc {S} {Al : Allocator} n : void (malloc n : M S ptr).
Proof. intros w rc w'. unfold malloc. by case_match. Qed.
Lemma void_if {S A} (b : bool) (p q : M S A) : void p -> void q -> void (if b then p else q).
Proof. by destruct b. Qed.
Create HintDb void discriminated.
#[export] Hint Resolve void_ret void_bind void_crash void_get void_put void_assert void_array void_load void_store void_defined
  void_malloc void_if : void.

Section Void.
Context {E : Type} {Al : Allocator} (send_ack send_nack : E -> E) (cbs : list (list word -> M E unit)).
Context (Hvoid : Forall (fun cb => forall l, void (cb l)) cbs).

Lemma void_call c : void (call (Some cbs) c).
Proof.
  apply void_bind; [apply void_bind; auto with void|]. intros s. destruct (cbs !! command_no c) as [cb|] eqn:Hc; [|auto with void].
  intros w rc w'. unfold on_env. destruct (w_st w) as [s' e]. destruct (cb _ _) as [r w1] eqn:H1. intros [= -> _].
  by apply (proj1 (Forall_lookup _ _) Hvoid _ _ Hc) in H1.
Qed.

Lemma void_modify f : void (modify f : M (parser * E) unit).
Proof. apply void_bind; auto with void. Qed.
Lemma void_parser : void (get_parser : M (parser * E) parser).
Proof. apply void_bind; auto with void. Qed.
Lemma void_sends f : void (sends f : M (parser * E) unit).
Proof. apply void_bind; auto with void. Qed.
Hint Resolve void_call void_modify void_parser void_sends : void.
Lemma void_num i : void (get_num i : M (parser * E) Z).
Proof. apply void_bind; [auto with void|]. intros s. apply void_bind; [auto with void|]. intros v. destruct v; auto with void. Qed.
Lemma void_word v : void (put_word v : M (parser * E) unit).
Proof. repeat (apply void_bind; [auto with void|intros]). auto with void. Qed.
Hint Resolve void_num void_word : void.

Lemma void_action a p : void (action send_ack send_nack (Some cbs) a p).
Proof.
  unfold action. repeat case_match; try (by auto with void);
    unfold reset, push, hex_digit, mem_hex_digit, start_data, calloc, end_packet;
    repeat (auto with void; first [apply void_bind; [|intros ?]|apply void_if]); auto with void.
Qed.

Lemma void_step p : void (step send_ack send_nack (Some cbs) p).
Proof.
  unfold step. apply void_bind; [auto with void|]. intros s. destruct (transition (cs s) p) as [[targ l]|]; [|auto with void].
  apply void_bind; [auto with void|]. intros _. induction l as [|a l IHl]; [apply void_ret|].
  cbn [actions]. apply void_bind; [apply void_action|by intros _].
Qed.

Lemma void_run buf : void (exec send_ack send_nack (Some cbs) buf).
Proof.
  induction buf as [|p buf IH]; [apply void_ret|]. cbn [exec].
  apply void_bind; [apply void_step|]. intros _. apply void_bind; auto with void.
Qed.
End Void.

(** ** Whole packets *)

Section Dispatch.
Context {E : Type} {Al : Allocator} (send_ack send_nack : E -> E) (cbs : list (list word -> M E unit)).
Abbreviation run := (exec send_ack send_nack (Some cbs)).
Abbreviation serves := (serve send_ack send_nack cbs).

(** What is seen from outside the parser *)
Definition outside {A} (r : outcome A * world (parser * E)) : outcome A * world E :=
  (r.1, World (w_heap r.2) (w_next r.2) (w_st r.2).2).

(** Between packets *)
Definition at_rest (r : outcome unit * world (parser * E)) : Prop := r.1 = Ret tt -> cs (w_st r.2).1 = 97.

Definition serves_rest (rest : list Z) (items : list item) : Prop := forall h n s (e : E), cs s = 97 ->
  outside (run rest (World h n (s, e))) = serves (ack_mode s) (stack s) items (World h n e) /\
  at_rest (run rest (World h n (s, e))).

Lemma run_call c buf items h n s (e : E) : serves_rest buf items -> cs s = 97 ->
  outside ((call (Some cbs) c;; run buf) (World h n (s, e))) =
  (calls cbs c (stack s);; serves (ack_mode s) (stack s) items) (World h n e) /\
  at_rest ((call (Some cbs) c;; run buf) (World h n (s, e))).
Proof.
  intros Hr Hs. unfold call, calls. unfold mbind at 1 3 4, M_bind at 1 3 4.
  rewrite !(bind_at _ _ _ s (World h n (s, e))) by done.
  destruct (cbs !! command_no c) as [cb|]; [|by split].
  unfold on_env. cbn [w_st w_heap w_next].
  destruct (cb (stack s) (World h n e)) as [[[]|rc|f] [h' n' e']] eqn:Hcb; cbn [w_heap w_next w_st].
  - apply Hr; done.
  - by split.
  - by split.
Qed.

Lemma run_into c p buf w h n s (e : E) : step send_ack send_nack (Some cbs) p w = call (Some cbs) c (World h n (s, e)) -> cs s = 97 ->
  run (p :: buf) w = (call (Some cbs) c;; run buf) (World h n (s, e)).
Proof.
  intros H Hs. cbn [exec]. unfold mbind at 1 3, M_bind at 1 3. rewrite H. clear H.
  assert (forall r w', call (Some cbs) c (World h n (s, e)) = (r, w') -> (w_st w').1 = s) as Hk.
  { unfold call. rewrite (bind_at _ _ _ s (World h n (s, e))) by done. intros r w'.
    destruct (cbs !! command_no c) as [cb|]; [|by intros [= <- <-]]. unfold on_env. cbn [w_st w_heap w_next].
    destruct (cb (stack s) (World h n e)) as [r' [h' n' e']]. by intros [= <- <-]. }
  destruct (call (Some cbs) c (World h n (s, e))) as [[[]|rc|f] w'] eqn:Hc; try done.
  rewrite (bind_at _ _ _ (w_st w').1 w') by done. rewrite (Hk _ _ eq_refl), Hs. done.
Qed.

(** The stack with a word after the arguments *)
Definition stack_with (l : list word) (last : word) : list word := (l ++ [last]) ++ replicate (10 - length (l ++ [last])) (Num 0).

Lemma stack_slot l u : (length l < 10)%nat -> stack_with l u !! length l = Some u.
Proof. intros H. unfold stack_with. rewrite <- app_assoc. cbn [app]. by rewrite list_lookup_middle. Qed.
Lemma stack_put l u v : (length l < 10)%nat -> <[length l := v]> (stack_with l u) = stack_with l v.
Proof.
  intros H. unfold stack_with. rewrite !length_app, <- !app_assoc. cbn [app].
  rewrite <- (Nat.add_0_r (length l)) at 1. by rewrite insert_app_r.
Qed.
Lemma stack_start l : (length l < 10)%nat -> l ++ replicate (10 - length l) (Num 0) = stack_with l (Num 0).
Proof.
  intros H. unfold stack_with. rewrite length_app. cbn [length]. replace (10 - length l)%nat with (S (10 - (length l + 1))) by lia.
  by rewrite <- app_assoc.
Qed.

Lemma digit_range x : 0 <= digit_of x < 16.
Proof. unfold digit_of. repeat case_match; lia. Qed.
Lemma two_steps x y : hex_step (hex_step 0 x) y = digit_of x * 16 + digit_of y.
Proof.
  pose proof (digit_range x). pose proof (digit_range y). unfold hex_step.
  change (u64 (0 * 16)) with 0. rewrite Z.add_0_l, (wrap_small 64 (digit_of x)), (wrap_small 64 (digit_of x * 16)), wrap_small by (unfold in_range; lia).
  done.
Qed.

(** The parser after the arguments, in the state [st] and with the word [w] in place of the sum *)
Definition after (st : Z) (p : packet) (mem : list word) (w : word) (s : parser) : parser :=
  Parser st (command p) (stack_with ((Num <$> numbers p) ++ mem) w) (Z.of_nat (length ((Num <$> numbers p) ++ mem)))
    (mem_data s) (mem_data_length s) (mem_data_i s) (answer p) (checksum (body p)) (ack_after p (ack_mode s)).

Lemma numbers_few p mem : (length mem <= 1)%nat -> (length ((Num <$> numbers p) ++ mem) < 10)%nat.
Proof. intros H. rewrite length_app, length_fmap. assert (length (numbers p) <= 2)%nat by (destruct p; cbn; lia). lia. Qed.

(** [*data] just after the arguments *)
Lemma slot_num l u (s : parser) : (length l < 10)%nat -> stack s = stack_with l u -> data s = Z.of_nat (length l) ->
  (if data s <? 0 then None else stack s !! Z.to_nat (data s)) = Some u.
Proof. intros H Hs Hd. rewrite Hs, Hd, Nat2Z.id, (proj2 (Z.ltb_ge _ _)) by lia. by apply stack_slot. Qed.

Lemma step_start p targ l s h n (e : E) : transition (cs s) p = Some (targ, l) ->
  step send_ack send_nack (Some cbs) p (World h n (s, e)) = actions send_ack send_nack (Some cbs) l p (World h n (set_cs targ s, e)).
Proof. intros H. unfold step. rewrite (bind_at _ _ _ s (World h n (s, e))) by done. rewrite H. by rewrite (bind_at _ _ _ tt (World h n (set_cs targ s, e))). Qed.

Section Sum.
Context (p : packet) (mem : list word) (Hm : (length mem <= 1)%nat) (s : parser).
Abbreviation aft st w := (after st p mem w s).

Lemma parsed_after : parsed p mem s = aft 3 (Num 0).
Proof. unfold parsed, after. by rewrite stack_start by (by apply numbers_few). Qed.
Lemma after_slot st w : (if data (aft st w) <? 0 then None else stack (aft st w) !! Z.to_nat (data (aft st w))) = Some w.
Proof. by apply (slot_num ((Num <$> numbers p) ++ mem)); [apply numbers_few|..]. Qed.
Lemma after_put st w w' : set_stack (<[Z.to_nat (data (aft st w)) := w']> (stack (aft st w))) (aft st w) = aft st w'.
Proof.
  unfold after, set_stack. cbn [cs cmd stack data mem_data mem_data_length mem_data_i rsp crc ack_mode].
  by rewrite Nat2Z.id, stack_put by (by apply numbers_few).
Qed.
Lemma after_hex st v q h n (e : E) :
  hex_digit q (World h n (aft st (Num v), e)) = (Ret tt, World h n (aft st (Num (hex_step v q)), e)).
Proof. rewrite (hex_digit_ok _ _ _ _ _ _ (after_slot st (Num v))). by rewrite after_put. Qed.

Definition last_word : word := match answer p with Some r => Text r | None => Num 0 end.

Lemma after_end v h n (e : E) : end_packet send_ack send_nack (Some cbs) (World h n (aft 97 (Num v), e)) =
  let ack := ack_after p (ack_mode s) in
  if checksum (body p) =? v
  then call (Some cbs) (command p) (World h n (aft 97 last_word, if ack then send_ack e else e))
  else (Ret tt, World h n (aft 97 (Num v), if ack then send_nack e else e)).
Proof.
  unfold end_packet. rewrite (bind_at _ _ _ (aft 97 (Num v)) (World h n (aft 97 (Num v), e))) by done.
  rewrite (bind_at _ _ _ v (World h n (aft 97 (Num v), e))) by (apply get_num_ok, after_slot). cbn [crc after ack_mode rsp cmd].
  cbv zeta. destruct (checksum (body p) =? v); cbn [negb]; [|by destruct (ack_after _ _)].
  set (e' := if ack_after p (ack_mode s) then send_ack e else e).
  rewrite (bind_at _ _ _ tt (World h n (aft 97 (Num v), e'))) by (unfold e'; by destruct (ack_after _ _)).
  rewrite (bind_at _ _ _ tt (World h n (aft 97 last_word, e'))); [done|].
  rewrite (put_word_ok _ _ _ _ _ _ (after_slot 97 (Num v))). by rewrite after_put.
Qed.

Lemma sum_read x y rest h n (e : E) : xdigit x = true -> xdigit y = true ->
  let v := digit_of x * 16 + digit_of y in
  let ack := ack_after p (ack_mode s) in
  run (x :: y :: rest) (World h n (parsed p mem s, e)) =
  if checksum (body p) =? v
  then (call (Some cbs) (command p);; run rest) (World h n (aft 97 last_word, if ack then send_ack e else e))
  else run rest (World h n (aft 97 (Num v), if ack then send_nack e else e)).
Proof.
  intros Hx Hy v ack. rewrite parsed_after.
  rewrite (run_cons _ _ _ x _ _ (World h n (aft 4 (Num (hex_step 0 x)), e))); [|..|done].
  2: { rewrite (step_start _ 4 [3]) by (by apply leads_digit). cbn [actions action].
       by rewrite (bind_at _ _ _ _ _ (after_hex 4 0 x h n e)). }
  assert (step send_ack send_nack (Some cbs) y (World h n (aft 4 (Num (hex_step 0 x)), e)) =
    (end_packet send_ack send_nack (Some cbs);; mret tt) (World h n (aft 97 (Num v), e))) as Hy'.
  { rewrite (step_start _ 97 [3; 5]) by (by apply leads_digit). cbn [actions action].
    rewrite (bind_at _ _ _ _ _ (after_hex 97 (hex_step 0 x) y h n e)). by rewrite two_steps. }
  unfold mbind, M_bind in Hy'. rewrite after_end in Hy'. fold ack in Hy'. destruct (checksum (body p) =? v).
  - apply run_into; [|done]. rewrite Hy'. by destruct (call _ _ _) as [[[]|rc|f] w'].
  - by rewrite (run_cons _ _ _ y _ _ _ Hy').
Qed.
End Sum.

Lemma words_after p mem last : words p mem last = stack_with ((Num <$> numbers p) ++ mem) last.
Proof. unfold words, stack_with. by rewrite <- !app_assoc. Qed.

(** What [serve] does from the sum on *)
Definition serve_sum (p : packet) (mem : list word) (x y : Z) (ack : bool) (items : list item) : M E unit :=
  let v := digit_of x * 16 + digit_of y in
  if checksum (body p) =? v
  then (if ack then says send_ack else mret tt);;
       calls cbs (command p) (words p mem (last_word p));; serves ack (words p mem (last_word p)) items
  else (if ack then says send_nack else mret tt);; serves ack (words p mem (Num v)) items.

Lemma sum_served p mem s x y rest items h n (e : E) : (length mem <= 1)%nat -> xdigit x = true -> xdigit y = true -> serves_rest rest items ->
  outside (run (x :: y :: rest) (World h n (parsed p mem s, e))) =
    serve_sum p mem x y (ack_after p (ack_mode s)) items (World h n e) /\
  at_rest (run (x :: y :: rest) (World h n (parsed p mem s, e))).
Proof.
  intros Hm Hx Hy Hr. rewrite sum_read by done. unfold serve_sum. cbv zeta. rewrite !words_after.
  destruct (checksum (body p) =? _).
  - destruct (run_call (command p) rest items h n (after 97 p mem (last_word p) s)
      (if ack_after p (ack_mode s) then send_ack e else e) Hr eq_refl) as [H1 H2].
    split; [|done]. rewrite H1. cbn [stack ack_mode after]. by destruct (ack_after _ _).
  - destruct (Hr h n (after 97 p mem (Num (digit_of x * 16 + digit_of y)) s)
      (if ack_after p (ack_mode s) then send_nack e else e) eq_refl) as [H1 H2].
    split; [|done]. rewrite H1. cbn [stack ack_mode after]. by destruct (ack_after _ _).
Qed.

Context (Hal : forall k m, can_alloc k m = true).

Lemma packet_served p x y rest items : item_ok (Packet p x y) -> serves_rest rest items ->
  serves_rest (sent (Packet p x y) ++ rest) (Packet p x y :: items).
Proof.
  intros (Hp & Hx & Hy) Hr h n s e Hs.
  assert (sent (Packet p x y) ++ rest = 36 :: body p ++ 35 :: x :: y :: rest) as -> by (cbn [sent app]; by rewrite <- app_assoc).
  pose proof (packet_parsed p s Hp Hs) as Hparsed.
  assert (forall q : match p with NoAckMode | WriteMem _ _ _ => False | _ => True end,
    run (36 :: body p ++ 35 :: x :: y :: rest) (World h n (s, e)) = run (x :: y :: rest) (World h n (parsed p [] s, e))) as Hgen.
  { intros q. replace (36 :: body p ++ 35 :: x :: y :: rest) with ((36 :: body p ++ [35]) ++ x :: y :: rest) by (cbn; by rewrite <- app_assoc).
    apply run_pure. by destruct p. }
  destruct p; try (rewrite Hgen by done; apply (sum_served _ [] s x y rest items h n e); done || (cbn; lia)).
  - clear Hgen. rewrite run_write by done.
    destruct (sum_served (WriteMem addr len bytes) [Bytes (Ptr n 0)] (set_mem (Ptr n 0) (number len) (2 * number len) s) x y rest items
      (<[n := Some <$> (byte_of <$> bytes)]> h) (S n) e ltac:(done) Hx Hy Hr) as [H1 H2].
    split; [|done]. rewrite H1. done.
  - clear Hgen. rewrite run_no_ack by done.
    destruct (sum_served NoAckMode [] s x y rest items h n (send_ack e) ltac:(cbn; lia) Hx Hy Hr) as [H1 H2].
    split; [|done]. rewrite H1. done.
Qed.

Lemma items_served items : Forall item_ok items -> serves_rest (concat (sent <$> items)) items.
Proof.
  induction 1 as [|i items Hi Hit IH]; [intros h n s e Hs; split; [reflexivity|intros _; exact Hs]|]. cbn [fmap list_fmap concat].
  destruct i as [p x y| | |]; [by apply packet_served|..]; intros h n s e Hs; cbn [sent app].
  - assert (step send_ack send_nack (Some cbs) 3 (World h n (s, e)) = call (Some cbs) INTERRUPT (World h n (s, e))) as E1.
    { rewrite (step_start _ 97 [26]) by (by rewrite Hs). cbn [actions action]. replace (set_cs 97 s) with s by (destruct s; cbn in *; by subst).
      unfold mbind, M_bind. by destruct (call _ _ _) as [[[]|rc|f] w']. }
    rewrite (run_into _ _ _ _ _ _ _ _ E1 Hs). by apply run_call.
  - rewrite (run_cons _ _ _ 43 _ _ (World h n (s, e))); [by apply IH|..|cbn; lia].
    rewrite (step_start _ 97 [28]) by (by rewrite Hs). replace (set_cs 97 s) with s by (destruct s; cbn in *; by subst). done.
  - rewrite (run_cons _ _ _ 45 _ _ (World h n (s, e))); [by apply IH|..|cbn; lia].
    rewrite (step_start _ 97 [29]) by (by rewrite Hs). replace (set_cs 97 s) with s by (destruct s; cbn in *; by subst). done.
Qed.

(** *** Buffers *)

Abbreviation feeds := (feed send_ack send_nack (Some cbs)).

Lemma run_app a b w : run (a ++ b) w =
  match run a w with
  | (Ret _, w') => if negb (Nat.eqb (length a) 0) && (cs (w_st w').1 =? 0) then (Ret tt, w') else run b w'
  | r => r
  end.
Proof.
  revert w. induction a as [|p a IH]; intros w; [done|]. cbn [app length Nat.eqb negb andb exec].
  unfold mbind at 1 3, M_bind at 1 3. destruct (step _ _ _ p w) as [[[]|rc|f] w1]; [|done|done].
  rewrite !(bind_at _ _ _ (w_st w1).1 w1) by done. destruct (cs (w_st w1).1 =? 0) eqn:H0.
  { unfold mret, M_ret. by rewrite H0. }
  rewrite IH. destruct (run a w1) as [[[]|rc|f] w2] eqn:Hr; [|done|done].
  destruct a as [|q a]; [|done]. cbn in Hr. injection Hr as <-. by rewrite H0.
Qed.

Lemma feed_ret bufs w w' : cs (w_st w).1 <> 0 -> run (concat bufs) w = (Ret tt, w') -> cs (w_st w').1 <> 0 ->
  feeds bufs w = (Ret tt, w').
Proof.
  revert w. induction bufs as [|b bufs IH]; intros w H0 Hr Hend; [done|]. cbn [concat feed] in *. rewrite run_app in Hr.
  destruct (run b w) as [[[]|rc|f] w1] eqn:Hb; [|done|done].
  rewrite (bind_at _ _ _ (if cs (w_st w1).1 =? 0 then inl (-1) else inr tt) w1).
  2: { unfold attempt, parse_buffer. rewrite (bind_at _ _ _ (w_st w).1 w) by done. rewrite (proj2 (Z.eqb_neq _ _) H0).
       rewrite (bind_at _ _ _ _ _ Hb). rewrite (bind_at _ _ _ (w_st w1).1 w1) by done. unfold gdb_error. by destruct (_ =? 0). }
  destruct (cs (w_st w1).1 =? 0) eqn:H1.
  - exfalso. destruct b as [|p b]; [cbn in Hb; injection Hb as <-; by apply Z.eqb_eq in H1|].
    cbn in Hr. injection Hr as <-. by apply Z.eqb_eq in H1.
  - rewrite andb_false_r in Hr. apply IH; [by apply Z.eqb_neq|done|done].
Qed.

Context (Hvoid : Forall (fun cb => forall l, void (cb l)) cbs).

(** How the text is cut into buffers makes no difference. *)
Lemma feed_run bufs w : cs (w_st w).1 <> 0 -> (forall w', run (concat bufs) w = (Ret tt, w') -> cs (w_st w').1 <> 0) ->
  feeds bufs w = run (concat bufs) w.
Proof.
  revert w. induction bufs as [|b bufs IH]; intros w H0 Hend; [done|]. cbn [concat feed] in *. rewrite run_app in *.
  unfold mbind, M_bind, attempt. unfold parse_buffer.
  rewrite (bind_at _ _ _ (w_st w).1 w) by done. rewrite (proj2 (Z.eqb_neq _ _) H0).
  unfold mbind at 1, M_bind at 1. pose proof (void_run send_ack send_nack cbs Hvoid b w) as Hv.
  destruct (run b w) as [[[]|rc|f] w1] eqn:Hb; [|by destruct (Hv rc w1)|done].
  rewrite (bind_at _ _ _ (w_st w1).1 w1) by done. unfold gdb_error.
  destruct (cs (w_st w1).1 =? 0) eqn:H1.
  - exfalso. apply Z.eqb_eq in H1. destruct b as [|p b]; [cbn in Hb; by injection Hb as <-|].
    by apply (Hend w1).
  - rewrite andb_false_r in *. unfold mret, M_ret. apply IH; [by apply Z.eqb_neq|done].
Qed.
End Dispatch.

(** C8. The packets of a client. Whatever the way the text of a client is cut into buffers, the parser
    acknowledges the packets, and calls, one after the other, the handler of the command of each packet
    whose sum is right, with the numbers and the bytes of memory that are written in it. A packet
    with a wrong sum is refused and not handled. The parser then waits for the next packet. *)
Theorem packets_dispatched {E} {Al : Allocator} (send_ack send_nack : E -> E) (cbs : list (list word -> M E unit)) items bufs h n s (e : E) :
  (forall k m, can_alloc k m = true) -> Forall (fun cb => forall l, void (cb l)) cbs -> Forall item_ok items ->
  concat bufs = concat (sent <$> items) -> cs s = 97 ->
  let r := feed send_ack send_nack (Some cbs) bufs (World h n (s, e)) in
  outside r = serve send_ack send_nack cbs (ack_mode s) (stack s) items (World h n e) /\ at_rest r.
Proof.
  intros Hal Hvoid Hok Hb Hs r. destruct (items_served send_ack send_nack cbs Hal items Hok h n s e Hs) as [H1 H2].
  assert (r = exec send_ack send_nack (Some cbs) (concat (sent <$> items)) (World h n (s, e))) as ->; [|done].
  unfold r. rewrite <- Hb. rewrite <- Hb in H2. apply feed_run; [done|cbn; lia|].
  intros w' Hw. unfold at_rest in H2. rewrite Hw in H2. cbn in H2. specialize (H2 eq_refl). lia.
Qed.

(** ** Any text *)

(** The states and the numbers of words on the stack that can be met inside a packet, past its first
    character: closed under the transitions, as [closed_ok] checks. *)
Definition harmless (a : Z) : bool := bool_decide (a ∈ [0; 1; 2; 3; 6; 7; 9; 10; 11; 12; 13; 14; 15; 16; 17; 18; 19; 20; 21; 22; 23; 24; 25; 27; 28; 29]).
Definition count_action (d a : Z) : Z := if a =? 0 then 0 else if a =? 2 then d + 1 else d.
Definition all_chars : list Z := seqZ (-128) 384.

Fixpoint reach (n : nat) (todo seen : list (Z * Z)) : list (Z * Z) :=
  match n with
  | O => seen
  | S n' =>
      let new := concat ((fun '(st, d) => omap (fun c => match transition st c with
        | Some (t, l) =>
            let d' := if bool_decide (l = [2; 8; 1]) then 3 else foldl count_action d l in
            if bool_decide (t ∈ [0; 97]) then None else Some (t, d')
        | None => None end) (3 :: seqZ 35 88)) <$> todo) in
      let new := remove_dups (filter (fun x => x ∉ seen) new) in
      match new with [] => seen | _ => reach n' new (seen ++ new) end
  end.
Definition met : list (Z * Z) := Eval vm_compute in reach 98 [(1, 0)] [].

(** The transition for [c] from the state [st] with [d] words on the stack stays within [met] and what
    follows about the actions. *)
Definition within (d : Z) (l : list Z) (t : Z) : bool :=
  forallb harmless l && (length l <=? 4)%nat && bool_decide ((t, foldl count_action d l) ∈ met) && negb (t =? 17) && negb (t =? 0).
Definition closed (st d c : Z) : bool :=
  match transition st c with
  | None => false
  | Some (t, l) =>
      if t =? 0 then bool_decide (l = [])
      else if bool_decide (l = [2; 8; 1]) then (t =? 17) && (d =? 1)
      else if bool_decide (l = [4; 1]) then (st =? 17) && (t =? 17)
      else if bool_decide (l = [3; 5]) then t =? 97
      else within d l t && negb (t =? 97)
  end.
(** ... and from the states before and between packets *)
Definition closed_start (c : Z) : bool :=
  match transition 1 c with Some (t, 0 :: l) => within 0 l t && negb (t =? 97) | _ => false end.
Definition closed_rest (c : Z) : bool :=
  match transition 97 c with
  | Some (t, l) => bool_decide ((t, l) ∈ [(0, []); (1, [27]); (97, [26]); (97, [28]); (97, [29])])
  | None => false
  end.

Lemma closed_ok : forallb (fun '(st, d) => forallb (closed st d) all_chars) met = true.
Proof. vm_compute. reflexivity. Qed.
Lemma closed_start_ok : forallb closed_start all_chars = true.
Proof. vm_compute. reflexivity. Qed.
Lemma closed_rest_ok : forallb closed_rest all_chars = true.
Proof. vm_compute. reflexivity. Qed.
Lemma met_range : forallb (fun '(st, d) => (0 <=? d) && (d <=? 3) && (implb (st =? 17) (d =? 3))) met = true.
Proof. vm_compute. reflexivity. Qed.
Lemma met_17 : (17, 3) ∈ met.
Proof. apply (bool_decide_eq_true_1 ((17, 3) ∈ met)). vm_compute. reflexivity. Qed.

Section Safe.
Context {E : Type} {Al : Allocator} (send_ack send_nack : E -> E) (cbs : list (list word -> M E unit)).
(** The handlers do not crash. *)
Context (Hcbs : forall c, exists cb : list word -> M E unit, cbs !! command_no c = Some cb /\ forall l w, exists w', cb l w = (Ret tt, w')).
Abbreviation run := (exec send_ack send_nack (Some cbs)).

(** More bytes of memory than were announced *)
Definition too_long (s : parser) : Prop := cs s = 17 /\ mem_data_length s <= mem_data_i s / 2.
(** No block for the bytes of memory: its allocation was refused *)
Definition refused (s : parser) : Prop := mem_data s = Null /\ exists k, can_alloc k (mem_data_length s) = false.

(** The operation ends with [Q], or stops at the assertion about the bytes of memory, or at the first byte
    for a block that was refused. *)
Definition safe {A} (op : M (parser * E) A) (w : world (parser * E)) (Q : A -> world (parser * E) -> Prop) : Prop :=
  match op w with
  | (Ret a, w') => Q a w'
  | (Crash AssertFailed, w') => too_long (w_st w').1
  | (Crash OutOfBounds, w') => cs (w_st w').1 = 17 /\ refused (w_st w').1
  | _ => False
  end.

Lemma safe_bind {A B} (op : M (parser * E) A) (k : A -> M (parser * E) B) w Q :
  safe op w (fun a w' => safe (k a) w' Q) -> safe (op ≫= k) w Q.
Proof. unfold safe, mbind, M_bind. destruct (op w) as [[a|rc|f] w']; [done|done|by destruct f]. Qed.
Lemma safe_mono {A} (op : M (parser * E) A) w (Q R : A -> world (parser * E) -> Prop) :
  safe op w Q -> (forall a w', Q a w' -> R a w') -> safe op w R.
Proof. unfold safe. destruct (op w) as [[a|rc|f] w']; [|done|done]. auto. Qed.

Definition lowest (d : Z) : Z := if d <=? 2 then 0 else d.
Lemma lowest_mono d d' : 0 <= d <= d' -> lowest d <= lowest d' <= d'.
Proof. unfold lowest. intros H. destruct (Z.leb_spec d 2), (Z.leb_spec d' 2); lia. Qed.

(** The stack with [d] words pushed: the words that can still be read are numbers. *)
Definition stacked (d : Z) (s : parser) : Prop :=
  length (stack s) = 10%nat /\ data s = d /\ 0 <= d < 10 /\
  forall k, lowest d <= k < 10 -> exists v, stack s !! Z.to_nat k = Some (Num v) /\ 0 <= v.

Definition same_mem (s s' : parser) : Prop :=
  cs s' = cs s /\ mem_data s' = mem_data s /\ mem_data_length s' = mem_data_length s /\ mem_data_i s' = mem_data_i s.

Lemma action_reset p h n s (e : E) :
  exists s', action send_ack send_nack (Some cbs) 0 p (World h n (s, e)) = (Ret tt, World h n (s', e)) /\ stacked 0 s' /\ same_mem s s'.
Proof.
  eexists. split; [reflexivity|]. split; [|by repeat split]. repeat split; cbn; try lia.
  intros k Hk. exists 0. split; [|done]. apply (lookup_replicate_2 10). lia.
Qed.

Lemma action_harmless a p d h n s (e : E) : harmless a = true -> stacked d s -> d < 9 ->
  exists s' e', action send_ack send_nack (Some cbs) a p (World h n (s, e)) = (Ret tt, World h n (s', e')) /\
    stacked (count_action d a) s' /\ same_mem s s'.
Proof.
  intros Ha (Hlen & Hd & Hr & Hnum) H9. apply bool_decide_eq_true in Ha.
  destruct (decide (a = 0)) as [->|H0]; [destruct (action_reset p h n s e) as (s' & ? & ?); by exists s', e|].
  destruct (decide (a = 2)) as [->|H2].
  { exists (set_data (d + 1) s), e. split; [|split; [|done]].
    - apply action_pure. cbn. rewrite Hd. by rewrite (proj2 (Z.ltb_lt _ _)) by lia.
    - change (count_action d 2) with (d + 1). unfold stacked. cbn [stack set_data data]. do 2 (split; [done|]). split; [lia|].
      intros k Hk. apply Hnum. pose proof (lowest_mono d (d + 1)). lia. }
  destruct (decide (a = 3)) as [->|H3].
  { destruct (Hnum d) as (v & Hv & _); [pose proof (lowest_mono d d); lia|].
    exists (set_stack (<[Z.to_nat d := Num (hex_step v p)]> (stack s)) s), e. split; [|split; [|done]].
    - apply action_pure. cbn. rewrite Hd, Hv. by rewrite (proj2 (Z.ltb_ge _ _)) by lia.
    - change (count_action d 3) with d. unfold stacked. cbn [stack set_stack data]. rewrite length_insert. do 3 (split; [done|]).
      intros k Hk. destruct (decide (Z.to_nat k = Z.to_nat d)) as [->|Hne]; [|rewrite list_lookup_insert_ne by done; by apply Hnum].
      rewrite list_lookup_insert_eq by lia. eexists. split; [done|]. apply wrap_range. lia. }
  replace (count_action d a) with d by (unfold count_action; by rewrite !(proj2 (Z.eqb_neq _ _))).
  destruct (decide (a = 15)) as [->|H15].
  { exists (set_ack_mode false (set_rsp (Some "OK"%string) s)), (send_ack e). done. }
  assert (exists s', pure_action a p s = Some s' /\ stack s' = stack s /\ data s' = data s /\ same_mem s s') as (s' & H & Hst & Hdt & Hm).
  { rewrite !elem_of_cons in Ha. destruct_or?; subst; try done; try (by apply elem_of_nil in Ha); by eexists. }
  exists s', e. split; [by apply action_pure|]. split; [|done]. unfold stacked. by rewrite Hst, Hdt.
Qed.

Lemma actions_harmless l p d h n s (e : E) : forallb harmless l = true -> stacked d s -> d + Z.of_nat (length l) < 10 ->
  exists s' e', actions send_ack send_nack (Some cbs) l p (World h n (s, e)) = (Ret tt, World h n (s', e')) /\
    stacked (foldl count_action d l) s' /\ same_mem s s'.
Proof.
  revert d s e. induction l as [|a l IH]; intros d s e Hl Hs Hd; [by exists s, e|]. cbn [forallb foldl length] in *.
  apply andb_prop in Hl as [Ha Hl].
  destruct (action_harmless a p d h n s e Ha Hs) as (s1 & e1 & H1 & Hs1 & Hm1); [lia|].
  destruct (IH (count_action d a) s1 e1 Hl Hs1) as (s2 & e2 & H2 & Hs2 & Hm2).
  { destruct Hs as (_ & _ & ? & _). unfold count_action. repeat case_match; lia. }
  exists s2, e2. split; [cbn [actions]; by rewrite (bind_at _ _ _ _ _ H1)|]. split; [done|].
  unfold same_mem in *. destruct_and?. split_and!; congruence.
Qed.

(** What holds of the parser between two characters *)
Definition mem_ok (h : gmap nat (list mval)) (s : parser) : Prop :=
  refused s \/ exists b bytes, mem_data s = Ptr b 0 /\
  h !! b = Some (Some <$> bytes) /\ mem_data_length s = Z.of_nat (length bytes) /\ 0 <= mem_data_i s.
Definition parser_ok (h : gmap nat (list mval)) (s : parser) : Prop := length (stack s) = 10%nat /\
  (cs s = 0 \/ cs s = 1 \/ cs s = 97 \/
   (exists d, (cs s, d) ∈ met /\ stacked d s /\ (cs s = 17 -> mem_ok h s))).

Lemma stacked_word d k v s : stacked d s -> 0 <= k < 10 -> 0 <= v -> stacked d (set_stack (<[Z.to_nat k := Num v]> (stack s)) s).
Proof.
  intros (Hl & Hd & Hr & Hn) Hk Hv. unfold stacked. cbn [stack data set_stack]. rewrite length_insert. do 3 (split; [done|]).
  intros j Hj. destruct (decide (Z.to_nat j = Z.to_nat k)) as [->|Hne]; [|rewrite list_lookup_insert_ne by done; by apply Hn].
  rewrite list_lookup_insert_eq by lia. eauto.
Qed.

Lemma stacked_slot d k s : stacked d s -> lowest d <= k < 10 -> exists v, (if k <? 0 then None else stack s !! Z.to_nat k) = Some (Num v) /\ 0 <= v.
Proof.
  intros (Hl & Hd & Hr & Hn) Hk. assert (0 <= k) by (unfold lowest in Hk; case_match; lia).
  rewrite (proj2 (Z.ltb_ge _ _)) by lia. by apply Hn.
Qed.
Lemma stacked_data d s : stacked d s -> exists v, (if data s <? 0 then None else stack s !! Z.to_nat (data s)) = Some (Num v) /\ 0 <= v.
Proof. intros Hs. pose proof Hs as (_ & -> & ? & _). apply (stacked_slot d); [done|]. pose proof (lowest_mono d d). lia. Qed.

(** A handler is called. *)
Lemma call_safe c h n s (e : E) : exists h' n' e', call (Some cbs) c (World h n (s, e)) = (Ret tt, World h' n' (s, e')).
Proof.
  unfold call. rewrite (bind_at _ _ _ s (World h n (s, e))) by done. cbv beta.
  destruct (Hcbs c) as (cb & -> & Hcb). destruct (Hcb (stack s) (World h n e)) as ([h' n' e'] & H1).
  exists h', n', e'. unfold on_env. cbn [w_st w_heap w_next]. by rewrite H1.
Qed.

(** The sum ends a packet. *)
Lemma end_safe d p h n s (e : E) : stacked d s -> cs s = 97 -> exists w',
  actions send_ack send_nack (Some cbs) [3; 5] p (World h n (s, e)) = (Ret tt, w') /\
  cs (w_st w').1 = 97 /\ length (stack (w_st w').1) = 10%nat.
Proof.
  intros Hs H97. cbn [actions action]. destruct (stacked_data d s Hs) as (v & Hv & _).
  rewrite (bind_at _ _ _ _ _ (hex_digit_ok _ _ _ _ _ _ Hv)). fold (hex_step v p).
  set (s1 := set_stack _ s). assert (stacked d s1) as Hs1.
  { unfold s1. pose proof Hs as (_ & -> & ? & _). apply stacked_word; [done|lia|]. apply wrap_range. lia. }
  destruct (stacked_data d s1 Hs1) as (u & Hu & _). destruct Hs1 as (Hl1 & _).
  unfold end_packet. unfold mbind at 1, M_bind at 1. rewrite (bind_at _ _ _ s1 (World h n (s1, e))) by done.
  rewrite (bind_at _ _ _ u (World h n (s1, e))) by (by apply get_num_ok). destruct (crc s1 =? u); cbn [negb].
  - set (e1 := if ack_mode s1 then send_ack e else e).
    rewrite (bind_at _ _ _ tt (World h n (s1, e1))) by (unfold e1; by destruct (ack_mode s1)).
    rewrite (bind_at _ _ _ _ _ (put_word_ok _ _ _ _ _ _ Hu)).
    destruct (call_safe (cmd s1) h n (set_stack (<[Z.to_nat (data s1) := match rsp s1 with Some r => Text r | None => Num 0 end]> (stack s1)) s1) e1)
      as (h' & n' & e' & ->).
    eexists. split; [reflexivity|]. split; [done|]. cbn [w_st fst stack set_stack]. by rewrite length_insert.
  - exists (World h n (s1, if ack_mode s1 then send_nack e else e)). by destruct (ack_mode s1).
Qed.

(** The bytes of memory *)
Lemma mem_safe p h n s (e : E) : cs s = 17 -> mem_ok h s -> stacked 3 s ->
  safe (mem_hex_digit p) (World h n (s, e)) (fun _ w' => stacked 3 (w_st w').1 /\ cs (w_st w').1 = 17 /\ mem_ok (w_heap w') (w_st w').1).
Proof.
  intros H17 Hm Hs.
  destruct (decide (mem_data_length s <= mem_data_i s / 2)) as [Hover|Hin].
  { unfold mem_hex_digit. apply safe_bind. unfold safe at 1. change (get_parser ?w) with (Ret s, w). cbv iota beta.
    apply safe_bind. unfold safe at 1, c_assert. by rewrite (proj2 (Z.ltb_ge _ _) Hover). }
  destruct Hm as [Hno|(b & bytes & Hp & Hb & Hl & Hi)].
  { unfold mem_hex_digit. apply safe_bind. unfold safe at 1. change (get_parser ?w) with (Ret s, w). cbv iota beta.
    apply safe_bind. unfold safe at 1, c_assert. rewrite (proj2 (Z.ltb_lt _ _)) by lia. cbv iota beta.
    apply safe_bind. unfold safe at 1. by rewrite (proj1 Hno). }
  set (k := Z.to_nat (mem_data_i s / 2)).
  assert (0 <= mem_data_i s / 2) by (apply Z.div_pos; lia).
  destruct (lookup_lt_is_Some_2 bytes k) as [v Hv]; [lia|].
  assert (h = <[b := (Some <$> take k bytes) ++ Some v :: (Some <$> drop (S k) bytes)]> h) as Eh.
  { rewrite <- fmap_cons, <- fmap_app, take_drop_middle by done. by rewrite insert_id. }
  assert (Z.of_nat (length (Some <$> take k bytes)) = mem_data_i s / 2) as Ek.
  { rewrite length_fmap, length_take. lia. }
  pose proof (mem_digit p s b _ v (Some <$> drop (S k) bytes) h n e Hp (eq_sym Ek) ltac:(lia)) as Hd. rewrite <- Eh in Hd.
  unfold safe. rewrite Hd.
  cbn [w_heap w_next w_st fst]. split; [exact Hs|]. split; [done|].
  right. exists b, (take k bytes ++ u8 (u8 (v * 16) + digit_of p) :: drop (S k) bytes). cbn [mem_data mem_data_length mem_data_i set_mem].
  split; [done|]. rewrite lookup_insert_eq. split; [by rewrite fmap_app, fmap_cons|]. split.
  - rewrite Hl, length_app, length_take. cbn [length]. rewrite length_drop. lia.
  - apply wrap_range. lia.
Qed.

(** What [calloc] answers: a block of zeros, or nothing *)
Lemma calloc_either l h n s (e : E) : 0 <= l -> exists q h', calloc l (World h n (s, e)) = (Ret q, World h' (S n) (s, e)) /\
  forall s', mem_data s' = q -> mem_data_length s' = l -> mem_data_i s' = 0 -> mem_ok h' s'.
Proof.
  intros Hl. destruct (can_alloc n l) eqn:Hal.
  - eexists _, _. split; [by apply calloc_ok|]. intros s' Hd Hk Hi. right. exists n, (replicate (Z.to_nat l) 0).
    rewrite Hd, Hk, Hi, lookup_insert_eq, fmap_replicate, length_replicate. repeat split; lia.
  - exists Null, h. unfold calloc, malloc, mbind, M_bind. cbn [w_next]. rewrite Hal. split; [done|].
    intros s' Hd Hk _. left. split; [done|]. exists n. by rewrite Hk.
Qed.

(** The start of the bytes of memory *)
Lemma colon_safe p h n s (e : E) : stacked 1 s -> cs s = 17 -> exists w',
  actions send_ack send_nack (Some cbs) [2; 8; 1] p (World h n (s, e)) = (Ret tt, w') /\
  cs (w_st w').1 = 17 /\ stacked 3 (w_st w').1 /\ mem_ok (w_heap w') (w_st w').1.
Proof.
  intros Hs H17. destruct (stacked_slot 1 1 s Hs) as (len & Hlen & H0); [by cbn|].
  destruct (stacked_slot 1 2 s Hs) as (u & Hu & _); [by cbn|]. destruct Hs as (Hl & Hd & _ & Hn).
  cbn [actions]. set (s1 := set_data 2 s).
  rewrite (bind_at _ _ _ tt (World h n (s1, e))).
  2: { apply action_pure. cbn. by rewrite Hd. }
  destruct (calloc_either len h n s1 e H0) as (q & h' & Hq & Hmem).
  set (s2 := set_stack (<[2%nat := Bytes q]> (stack s)) s1).
  rewrite (bind_at _ _ _ tt (World h' (S n) (set_mem q len 0 (set_data 3 s2), e))).
  2: { cbn [action]. unfold start_data. rewrite (bind_at _ _ _ s1 (World h n (s1, e))) by done.
       rewrite (bind_at _ _ _ len (World h n (s1, e))) by (by apply get_num_ok).
       rewrite (bind_at _ _ _ _ _ Hq), (bind_at _ _ _ _ _ (put_word_ok s1 (Num u) _ _ _ _ Hu)). done. }
  eexists. split; [reflexivity|]. cbn. split; [done|]. split.
  - unfold stacked. cbn [stack set_crc set_mem set_data set_stack s2 s1 data]. rewrite length_insert. do 2 (split; [done|]). split; [lia|].
    intros k Hk. cbn in Hk. rewrite list_lookup_insert_ne by lia. apply Hn. cbn. lia.
  - by apply Hmem.
Qed.

Lemma char_in c : -128 <= c < 256 -> c ∈ all_chars.
Proof. intros H. apply elem_of_seqZ. lia. Qed.
Lemma forallb_in {A} (f : A -> bool) l x : forallb f l = true -> x ∈ l -> f x = true.
Proof. rewrite forallb_forall. intros H Hx. apply H. by apply list_elem_of_In. Qed.

Lemma harmless_step d l t c h n s (e : E) : within d l t = true -> t <> 97 -> stacked d s -> d <= 5 -> cs s = t ->
  exists s' e', actions send_ack send_nack (Some cbs) l c (World h n (s, e)) = (Ret tt, World h n (s', e')) /\ parser_ok h s' /\ cs s' = t.
Proof.
  intros Hw H97 Hs Hd Ht. unfold within in Hw. rewrite !andb_true_iff in Hw. destruct Hw as [[[[Hh Hl] Hm] H17] _].
  apply Nat.leb_le in Hl. apply bool_decide_eq_true in Hm. apply negb_true_iff, Z.eqb_neq in H17.
  destruct (actions_harmless l c d h n s e Hh Hs) as (s' & e' & H & Hs' & Hcs & _); [lia|].
  exists s', e'. split; [done|]. split; [|congruence]. split; [apply Hs'|]. right. right. right.
  exists (foldl count_action d l). rewrite Hcs, Ht. split; [done|]. split; [done|]. congruence.
Qed.

Lemma step_safe c h n s (e : E) : -128 <= c < 256 -> parser_ok h s -> cs s <> 0 ->
  safe (step send_ack send_nack (Some cbs) c) (World h n (s, e)) (fun _ w' => parser_ok (w_heap w') (w_st w').1).
Proof.
  intros Hc (Hlen & Hcs) H0. apply char_in in Hc. unfold safe.
  assert (forall t l, transition (cs s) c = Some (t, l) -> step send_ack send_nack (Some cbs) c (World h n (s, e)) =
    actions send_ack send_nack (Some cbs) l c (World h n (set_cs t s, e))) as Hst by (intros; by apply step_start).
  destruct Hcs as [?|[H1|[H97|(d & Hmet & Hs & H17)]]]; [done|..].
  - pose proof (forallb_in _ _ _ closed_start_ok Hc) as Hcl. unfold closed_start in Hcl. rewrite H1 in Hst.
    destruct (transition 1 c) as [[t [|[| |] l]]|]; try done. apply andb_prop in Hcl as [Hw Hn].
    rewrite (Hst _ _ eq_refl). cbn [actions].
    destruct (action_reset c h n (set_cs t s) e) as (s1 & Hr & Hs1 & Hm1). rewrite (bind_at _ _ _ _ _ Hr).
    apply negb_true_iff, Z.eqb_neq in Hn. by destruct (harmless_step 0 l t c h n s1 e Hw Hn Hs1 ltac:(lia) (proj1 Hm1)) as (s2 & e2 & -> & Hok & _).
  - pose proof (forallb_in _ _ _ closed_rest_ok Hc) as Hcl. unfold closed_rest in Hcl. rewrite H97 in Hst.
    destruct (transition 97 c) as [[t l]|]; [|done]. apply bool_decide_eq_true in Hcl.
    rewrite (Hst _ _ eq_refl). rewrite !elem_of_cons in Hcl.
    destruct Hcl as [[= -> ->]|[[= -> ->]|[[= -> ->]|[[= -> ->]|[[= -> ->]|Hcl]]]]]; cbn [actions action]; try (by apply elem_of_nil in Hcl).
    + split; [done|]. by left.
    + split; [done|]. right. by left.
    + destruct (call_safe INTERRUPT h n (set_cs 97 s) e) as (h' & n' & e' & Hcall). rewrite (bind_at _ _ _ _ _ Hcall).
      split; [done|]. right. right. by left.
    + split; [done|]. right. right. by left.
    + split; [done|]. right. right. by left.
  - pose proof (forallb_in _ _ _ closed_ok Hmet) as Hcl. cbn beta iota in Hcl. pose proof (forallb_in _ _ _ Hcl Hc) as Hcl'. clear Hcl.
    pose proof (forallb_in _ _ _ met_range Hmet) as Hd. cbn beta iota in Hd. rewrite !andb_true_iff, !Z.leb_le in Hd. destruct Hd as [[Hd0 Hd3] Hd17].
    unfold closed in Hcl'. destruct (transition (cs s) c) as [[t l]|]; [|done]. rewrite (Hst _ _ eq_refl). clear Hst.
    destruct (t =? 0) eqn:Ht0; [|destruct (bool_decide (l = [2; 8; 1])) eqn:Hl1; [|destruct (bool_decide (l = [4; 1])) eqn:Hl2;
      [|destruct (bool_decide (l = [3; 5])) eqn:Hl3]]].
    + apply bool_decide_eq_true in Hcl' as ->. split; [done|]. left. by apply Z.eqb_eq.
    + apply bool_decide_eq_true in Hl1 as ->. apply andb_prop in Hcl' as [Ht Hd1]. apply Z.eqb_eq in Ht, Hd1. subst t d.
      destruct (colon_safe c h n (set_cs 17 s) e Hs eq_refl) as (w' & -> & Hcs & Hs' & Hm').
      split; [apply Hs'|]. right. right. right. exists 3. rewrite Hcs. split; [apply met_17|done].
    + apply bool_decide_eq_true in Hl2 as ->. apply andb_prop in Hcl' as [Hcs Ht]. rewrite Hcs in Hd17. cbn in Hd17.
      apply Z.eqb_eq in Ht, Hcs, Hd17. subst t d. specialize (H17 Hcs).
      pose proof (mem_safe c h n (set_cs 17 s) e eq_refl H17 Hs) as Hm. unfold safe in Hm. cbn [actions action].
      unfold mbind, M_bind. destruct (mem_hex_digit c _) as [[[]|rc|f] [h' n' [s' e']]]; [|done|by destruct f].
      cbn in Hm. destruct Hm as (Hs' & Hcs' & Hm'). cbn. split; [apply Hs'|]. right. right. right. exists 3.
      split; [exact (eq_rect_r (fun st => (st, 3) ∈ met) met_17 Hcs')|]. split; [exact Hs'|intros _; exact Hm'].
    + apply bool_decide_eq_true in Hl3 as ->. apply Z.eqb_eq in Hcl' as ->.
      destruct (end_safe d c h n (set_cs 97 s) e Hs eq_refl) as (w' & -> & Hcs & Hl). split; [done|]. right. right. by left.
    + apply andb_prop in Hcl' as [Hw Hn]. apply negb_true_iff, Z.eqb_neq in Hn.
      by destruct (harmless_step d l t c h n (set_cs t s) e Hw Hn Hs ltac:(lia) eq_refl) as (s' & e' & -> & Hok & _).
Qed.

Lemma run_safe buf h n s (e : E) : Forall (fun c => -128 <= c < 256) buf -> parser_ok h s -> cs s <> 0 ->
  safe (run buf) (World h n (s, e)) (fun _ w' => parser_ok (w_heap w') (w_st w').1).
Proof.
  intros Hb. revert h n s e. induction Hb as [|c buf Hc Hb IH]; intros h n s e Hok H0; [done|]. cbn [exec].
  apply safe_bind. eapply safe_mono; [by apply step_safe|]. intros _ [h' n' [s' e']] Hok'. cbn in Hok'.
  apply safe_bind. unfold safe at 1. change (get_parser _) with (Ret s', World h' n' (s', e')). cbv iota beta.
  destruct (cs s' =? 0) eqn:E0; [done|]. apply IH; [done|by apply Z.eqb_neq].
Qed.

Lemma feed_safe bufs h n s (e : E) : Forall (Forall (fun c => -128 <= c < 256)) bufs -> parser_ok h s ->
  safe (feed send_ack send_nack (Some cbs) bufs) (World h n (s, e)) (fun _ w' => parser_ok (w_heap w') (w_st w').1).
Proof.
  intros Hb. revert h n s e. induction Hb as [|buf bufs Hc Hb IH]; intros h n s e Hok; [done|]. cbn [feed].
  apply safe_bind.
  assert (safe ((if cs s =? 0 then mret tt else run buf)) (World h n (s, e)) (fun _ w' => parser_ok (w_heap w') (w_st w').1)) as Hs.
  { destruct (cs s =? 0) eqn:E0; [done|]. apply run_safe; [done|done|by apply Z.eqb_neq]. }
  unfold safe in Hs |- * at 1. unfold attempt, parse_buffer. rewrite (bind_at _ _ _ s (World h n (s, e))) by done.
  unfold mbind at 1, M_bind at 1. destruct ((if cs s =? 0 then mret tt else run buf) (World h n (s, e))) as [[[]|rc|f] [h' n' [s' e']]]; [|done|by destruct f].
  rewrite (bind_at _ _ _ s' (World h' n' (s', e'))) by done. destruct (cs s' =? gdb_error); by apply IH.
Qed.
End Safe.

(** C15. Any text of a client, whatever the allocator does. The parser never leaves its tables, its stack or
    the bytes of a packet, reads no word that is not a number, and gives back control. Only two packets
    stop the server, both in the middle of their bytes of memory: one that writes more bytes than it
    announces, which an assertion refuses, and one whose length, which the client chooses, [calloc] refused:
    the source does not look at the result, and the first byte is written through the null pointer. *)
Theorem parser_contained {E} {Al : Allocator} (send_ack send_nack : E -> E) (cbs : list (list word -> M E unit)) bufs h n s (e : E) :
  (forall c, exists cb : list word -> M E unit, cbs !! command_no c = Some cb /\ forall l w, exists w', cb l w = (Ret tt, w')) ->
  Forall (Forall (fun c => -128 <= c < 256)) bufs -> length (stack s) = 10%nat ->
  let r := feed send_ack send_nack (Some cbs) bufs (World h n (parser_init s, e)) in
  r.1 = Ret tt \/ (r.1 = Crash AssertFailed /\ too_long (w_st r.2).1) \/
  (r.1 = Crash OutOfBounds /\ cs (w_st r.2).1 = 17 /\ refused (w_st r.2).1).
Proof.
  intros Hcbs Hb Hl r. assert (parser_ok h (parser_init s)) as Hok by (split; [done|right; right; by left]).
  pose proof (feed_safe send_ack send_nack cbs Hcbs bufs h n (parser_init s) e Hb Hok) as H.
  unfold safe in H. fold r in H. destruct r as [[[]|rc|f] w']; [by left|done|right].
  destruct f; try done; [by right|by left].
Qed.

(** ** Examples *)

(** Handlers that write down what they are called with; 100 and 101 are the acknowledgements. *)
Definition logged : Type := list (nat * list word).
Definition log_call (k : nat) (l : list word) : M logged unit := s ← get_st; put_st (s ++ [(k, l)]).
Definition log_all : list (list word -> M logged unit) := log_call <$> seq 0 17.
Definition log_ack (s : logged) : logged := s ++ [(100%nat, [])].
Definition log_nack (s : logged) : logged := s ++ [(101%nat, [])].

Section Examples.
#[local] Instance any_alloc : Allocator := fun _ _ => true.

Definition fed (bufs : list string) : outcome unit * world (parser * logged) :=
  feed log_ack log_nack (Some log_all) (chars <$> bufs) (World ∅ 0 (parser_init parser0, [])).

Definition spoken : list item :=
  [Ack; Packet (ReadMem (chars "10") (chars "8")) 51 50; Packet (WriteMem (chars "1F0") (chars "2") [(97, 49); (66, 50)]) 57 50;
   Interrupt; Packet (SelectThread (chars "1") (chars "2")) 48 48].
Definition pieces : list string := ["+$m1"; "0,8#32$M1F0,2:a1B2#92" ++ String (ascii_of_nat 3) "$Hg"; "p1.2#00"]%string.

Lemma packets_dispatched_witness :
  outside (fed pieces) = serve log_ack log_nack log_all true (replicate 10 (Num 0)) spoken (World ∅ 0 []) /\ at_rest (fed pieces).
Proof.
  apply (packets_dispatched log_ack log_nack log_all spoken (chars <$> pieces) ∅ 0 (parser_init parser0) []).
  - done.
  - apply Forall_fmap. apply Forall_forall. by intros k _ l w rc w'.
  - repeat constructor; done.
  - reflexivity.
  - reflexivity.
Defined.
Lemma spoken_calls : w_st (outside (fed pieces)).2 =
  [(100, []); (10, words (ReadMem (chars "10") (chars "8")) [] (Num 0)); (100, []);
   (11, words (WriteMem (chars "1F0") (chars "2") []) [Bytes (Ptr 0 0)] (Num 0));
   (14, words (WriteMem (chars "1F0") (chars "2") []) [Bytes (Ptr 0 0)] (Num 0)); (101, [])]%nat.
Proof. reflexivity. Qed.

Lemma parser_contained_witness : let r := fed ["$zzz#"; "garbage"]%string in
  r.1 = Ret tt \/ (r.1 = Crash AssertFailed /\ too_long (w_st r.2).1) \/
  (r.1 = Crash OutOfBounds /\ cs (w_st r.2).1 = 17 /\ refused (w_st r.2).1).
Proof.
  apply (parser_contained log_ack log_nack log_all (chars <$> ["$zzz#"; "garbage"]%string) ∅ 0 parser0 []).
  - intros c. exists (log_call (command_no c)). split; [|by intros l [h n e]; eexists].
    unfold log_all. by destruct c.
  - repeat constructor; done.
  - done.
Defined.

(** A character between packets that is none of [$], [+], [-] and the interrupt stops the parser for good: packets that
    follow are not even refused. *)
Example stray_character_deadens : w_st (outside (fed [String (ascii_of_nat 10) ""; "$g#67"; "$?#3f"]%string)).2 = [].
Proof. reflexivity. Qed.

(** A packet that writes more bytes than it announces stops the server, whatever its sum. *)
Example long_write_aborts : (fed ["$M0,0:00#00"]%string).1 = Crash AssertFailed.
Proof. reflexivity. Qed.

(** A command that is not known is handled as the known one it starts with. *)
Example prefix_is_handled : (w_st (outside (fed ["$gone#a9"; "$qCRC:1,2#12"]%string)).2).*1 = [100; 1; 100; 4]%nat.
Proof. reflexivity. Qed.

(** The continue packet without a thread, which the answer to [vCont?] offers, is not known. *)
Example plain_continue_unknown : (w_st (outside (fed ["$vCont;c#a8"]%string)).2).*1 = [100; 0]%nat.
Proof. reflexivity. Qed.

(** A breakpoint packet of another kind is not known, but its address is left where the default handler
    looks for the pointer to its answer. *)
Example kind_leaves_address : w_st (outside (fed ["$Z0,1000,5#d8"]%string)).2 =
  [(100, []); (0, Num 4096 :: replicate 9 (Num 0))]%nat.
Proof. reflexivity. Qed.
End Examples.

(** A length that no allocator can serve: the first byte is written through the null pointer. *)
Example refused_block : let Al : Allocator := fun _ n => n <? 2 ^ 63 in
  (feed log_ack log_nack (Some log_all) [chars "$M0,ffffffffffffffff:00#00"] (World ∅ 0 (parser_init parser0, []))).1 = Crash OutOfBounds.
Proof. reflexivity. Qed.
