(* ===== verification/Gdb.v ===== *)
(** * The gdb server: commands

    Models src/pdbgproxy.c: the handlers of the commands of a gdb client, breakpoints, starting and
    stopping the threads, and the loop that serves a client. The threads are those that were chosen
    by path (src/path.c). The static variables of the file, what each thread keeps for the server, and
    what has been sent to whom are kept next to the state of the threads. The host is little-endian;
    the width of its [size_t] is a parameter. *)

From Stdlib Require Import Ascii String.
From S2P Require Import Prelude CMem Target Pib Adu Ram Thread Chip Sprs Parse PathSel Access GdbParser.

Definition MAX_RESP_LEN : Z := 8192.
Definition BUFFER_SIZE : Z := 8192.
Definition TEST_SKIBOOT_ADDR : Z := 0x40000000.
Definition MAX_DATA : Z := 0x1000.
Definition MAX_BPS : nat := 64.
Definition VCONT_POLL_DELAY : Z := 100000.
Definition NO_ADDR : Z := 2 ^ 64 - 1.     (* -1UL *)

Definition SPR_LR : Z := 8.
Definition SPR_CTR : Z := 9.
Definition SPR_VRSAVE : Z := 256.
Definition SPR_HID : Z := 1008.
Definition SPR_PIR : Z := 1023.
Definition SPR_FPSCR : Z := 2003.
Definition SPR_VSCR : Z := 2004.

Definition POWER8_HID_ENABLE_ATTN : Z := PPC_BIT 31.
Definition POWER9_HID_ENABLE_ATTN : Z := PPC_BIT 3.
Definition POWER9_HID_FLUSH_ICACHE : Z := PPC_BIT 2.
Definition POWER10_HID_ENABLE_ATTN : Z := PPC_BIT 3.
Definition POWER10_HID_FLUSH_ICACHE : Z := PPC_BIT 2.
Definition P9_SPATTN_AND : Z := 0x20010A98.
Definition P9_SPATTN : Z := 0x20010A99.
Definition P10_SPATTN_AND : Z := 0x20028498.
Definition P10_SPATTN : Z := 0x20028499.

(** [ERROR(e)] is [E] and [STR(e)], and [STR] gives the letter, not the number. *)
Definition OK : string := "OK".
Definition ERROR : string := "Ee".

Inductive client_state := IDLE | SIGNAL_WAIT.
#[export] Instance client_state_eq_dec : EqDecision client_state.
Proof. solve_decision. Defined.

Record gdb_thread := GdbThread {
  pir : Z;
  attn_set : bool;
  initial_stopped : bool;
  stop_attn : bool;
  stop_sstep : bool;
  stop_ctrlc : bool
}.

(** The static variables, [gdbserver_priv] of the threads, the targets chosen by path, and what was
    sent on each descriptor, the last first. *)
Record gdb (D : Type) := Gdb {
  all_stopped : bool;
  thread_target : option nat;
  adu_target : option nat;
  poll_interval : Z;
  fd : Z;
  gstate : client_state;
  threadinfo_iterator : Z;
  bps : list Z;
  saved_insn : list (list mval);
  nr_bps : Z;
  gdbserver_priv : nat -> option gdb_thread;
  path_targets : list nat;
  sends_made : list (Z * string);
  gdb_rest : D
}.
Arguments Gdb {D}.
Arguments all_stopped {D}. Arguments thread_target {D}. Arguments adu_target {D}. Arguments poll_interval {D}.
Arguments fd {D}. Arguments gstate {D}. Arguments threadinfo_iterator {D}. Arguments bps {D}. Arguments saved_insn {D}.
Arguments nr_bps {D}. Arguments gdbserver_priv {D}. Arguments path_targets {D}. Arguments sends_made {D}. Arguments gdb_rest {D}.

Section Setters.
Context {D : Type}.
Implicit Types g : gdb D.
Definition set_all_stopped b g : gdb D := Gdb b (thread_target g) (adu_target g) (poll_interval g) (fd g) (gstate g) (threadinfo_iterator g)
  (bps g) (saved_insn g) (nr_bps g) (gdbserver_priv g) (path_targets g) (sends_made g) (gdb_rest g).
Definition set_thread_target t g : gdb D := Gdb (all_stopped g) t (adu_target g) (poll_interval g) (fd g) (gstate g) (threadinfo_iterator g)
  (bps g) (saved_insn g) (nr_bps g) (gdbserver_priv g) (path_targets g) (sends_made g) (gdb_rest g).
Definition set_adu_target t g : gdb D := Gdb (all_stopped g) (thread_target g) t (poll_interval g) (fd g) (gstate g) (threadinfo_iterator g)
  (bps g) (saved_insn g) (nr_bps g) (gdbserver_priv g) (path_targets g) (sends_made g) (gdb_rest g).
Definition set_fd f g : gdb D := Gdb (all_stopped g) (thread_target g) (adu_target g) (poll_interval g) f (gstate g) (threadinfo_iterator g)
  (bps g) (saved_insn g) (nr_bps g) (gdbserver_priv g) (path_targets g) (sends_made g) (gdb_rest g).
Definition set_state s i g : gdb D := Gdb (all_stopped g) (thread_target g) (adu_target g) i (fd g) s (threadinfo_iterator g)
  (bps g) (saved_insn g) (nr_bps g) (gdbserver_priv g) (path_targets g) (sends_made g) (gdb_rest g).
Definition set_iterator i g : gdb D := Gdb (all_stopped g) (thread_target g) (adu_target g) (poll_interval g) (fd g) (gstate g) i
  (bps g) (saved_insn g) (nr_bps g) (gdbserver_priv g) (path_targets g) (sends_made g) (gdb_rest g).
Definition set_bps l n g : gdb D := Gdb (all_stopped g) (thread_target g) (adu_target g) (poll_interval g) (fd g) (gstate g) (threadinfo_iterator g)
  l (saved_insn g) n (gdbserver_priv g) (path_targets g) (sends_made g) (gdb_rest g).
Definition set_saved l g : gdb D := Gdb (all_stopped g) (thread_target g) (adu_target g) (poll_interval g) (fd g) (gstate g) (threadinfo_iterator g)
  (bps g) l (nr_bps g) (gdbserver_priv g) (path_targets g) (sends_made g) (gdb_rest g).
Definition set_priv t v g : gdb D := Gdb (all_stopped g) (thread_target g) (adu_target g) (poll_interval g) (fd g) (gstate g) (threadinfo_iterator g)
  (bps g) (saved_insn g) (nr_bps g) (fun u => if Nat.eqb u t then v else gdbserver_priv g u) (path_targets g) (sends_made g) (gdb_rest g).
Definition set_paths l g : gdb D := Gdb (all_stopped g) (thread_target g) (adu_target g) (poll_interval g) (fd g) (gstate g) (threadinfo_iterator g)
  (bps g) (saved_insn g) (nr_bps g) (gdbserver_priv g) l (sends_made g) (gdb_rest g).
Definition add_send x g : gdb D := Gdb (all_stopped g) (thread_target g) (adu_target g) (poll_interval g) (fd g) (gstate g) (threadinfo_iterator g)
  (bps g) (saved_insn g) (nr_bps g) (gdbserver_priv g) (path_targets g) (x :: sends_made g) (gdb_rest g).
End Setters.

(** ** Text *)

Definition digit_char (d : Z) : ascii := ascii_of_nat (Z.to_nat (if d <? 10 then 48 + d else 87 + d)).

(** The digits of [v] before [acc]; a number of 64 bits has at most 20. *)
Fixpoint digits_of (fuel : nat) (base v : Z) (acc : string) : string :=
  match fuel with
  | O => acc
  | S fuel' =>
      let acc := String (digit_char (v mod base)) acc in
      if v / base =? 0 then acc else digits_of fuel' base (v / base) acc
  end.
Fixpoint pad (n : nat) (s : string) : string := match n with O => s | S n' => String "0" (pad n' s) end.

(** [%0<w>x], and [%0<w>u] *)
Definition fmt_hex (w : nat) (v : Z) : string := let s := digits_of 20 16 v "" in pad (w - String.length s) s.
Definition fmt_dec (w : nat) (v : Z) : string := let s := digits_of 20 10 v "" in pad (w - String.length s) s.

Definition be64toh (v : Z) : Z := bswap64 v.
Definition be32toh (v : Z) : Z := be_val (le_bytes 4 v).

Fixpoint text_bytes (s : string) : list Z :=
  match s with EmptyString => [] | String c s' => Z.of_N (N_of_ascii c) :: text_bytes s' end.

Definition gdbcrc (data : string) : Z := foldl (fun crc c => u8 (crc + c)) 0 (text_bytes data).

(** [snprintf(data + s, sizeof(data) - s, ...)] of [text], where [s] characters are in [data] already;
    behind the end of the array the size would wrap. *)
Definition snprintf {S} (size : Z) (data : string * Z) (text : string) : M S (string * Z) :=
  let '(d, s) := data in
  if size <=? s then crash OutOfBounds else
  mret ((d ++ substring 0 (Z.to_nat (size - s - 1)) text)%string, s + Z.of_nat (String.length text)).

(** An array on the stack with the bytes [init]; its bytes after [k] are handed on. *)
Definition on_stack {S A} (init : list mval) (k : ptr -> M S A) : M S ((Z + A) * list mval) := fun w =>
  let b := w_next w in
  match attempt (k (Ptr b 0)) (World (<[b := init]> (w_heap w)) (Datatypes.S b) (w_st w)) with
  | (Ret r, w') =>
      match w_heap w' !! b with
      | Some l => (Ret (r, l), World (delete b (w_heap w')) (w_next w') (w_st w'))
      | None => (Crash BadFree, w')
      end
  | (Fail rc, w') => (Fail rc, w')
  | (Crash f, w') => (Crash f, w')
  end.

(** Bytes that a caller passes on; none are looked at when there are none. *)
Definition bytes_at {S} (p : ptr) (n : Z) : M S (list mval) := if n =? 0 then mret [] else load_bytes p n.

(** Arguments of a handler *)
Definition num_arg {S} (stack : list word) (i : Z) : M S Z :=
  v ← array_get stack i; match v with Num v => mret v | _ => crash Uninit end.
Definition ptr_arg {S} (stack : list word) (i : Z) : M S ptr :=
  v ← array_get stack i; match v with Bytes p => mret p | Num 0 => mret Null | _ => crash OutOfBounds end.

(** ** Addresses *)

Definition ALIGN_UP (size_t v a : Z) : Z := Z.land (u64 (u64 (v + a) - 1)) (wrap size_t (Z.lnot (a - 1))).
Definition ALIGN_DOWN (size_t v a : Z) : Z := Z.land v (wrap size_t (Z.lnot (a - 1))).

Definition get_real_addr (addr : Z) : Z :=
  if GETFIELD (PPC_BITMASK 0 3) addr =? 0xc then Z.land addr (u64 (Z.lnot (PPC_BITMASK 0 1)))
  else if addr <? TEST_SKIBOOT_ADDR then addr
  else NO_ADDR.

(** The first index at which an array holds [addr] *)
Fixpoint find_bp (addr : Z) (l : list Z) : option nat :=
  match l with [] => None | b :: l' => if b =? addr then Some O else S <$> find_bp addr l' end.

Section Gdb.
Context {D : Type} {Hw : Hardware (chips (gdb D))} {Al : Allocator} (T : dtree) (fuel : nat) (size_t : Z).
Abbreviation m := (M (tgt (chips (gdb D)))).

(** The members of the targets; [compatible_with] answers [pdbg_target_compatible], [probe] is the member of a thread. *)
Context (target_to_thread : nat -> thread (D := chips (gdb D))) (target_to_pib : nat -> pib (D := chips (gdb D)))
  (target_to_mem : nat -> mem (D := chips (gdb D))) (compatible_with : nat -> string -> bool) (probe : nat -> m unit).

Definition get_gdb : m (gdb D) := s ← get_st; mret (chip_dev (t_dev s)).
Definition modify_gdb (f : gdb D -> gdb D) : m unit :=
  s ← get_st;
  put_st (Tgt (t_status s) (Chips (thread_of (t_dev s)) (release_spwkup (t_dev s)) (f (chip_dev (t_dev s)))) (t_trace s)).

(** The thread of the client, and [thread->gdbserver_priv]: both are used without a test for NULL. *)
Definition current : m nat := g ← get_gdb; match thread_target g with Some t => mret t | None => crash OutOfBounds end.
Definition priv_of (t : nat) : m gdb_thread := g ← get_gdb; match gdbserver_priv g t with Some v => mret v | None => crash OutOfBounds end.
Definition put_priv (t : nat) (v : gdb_thread) : m unit := modify_gdb (set_priv t (Some v)).

(** [for_each_path_target_class("thread", target)]; the body says whether the loop goes on, and the
    loop whether it came to its end. *)
Definition on_paths {A} (op : M (tgt (list nat)) A) : m A := fun w =>
  let s := w_st w in
  let '(r, w') := op (World (w_heap w) (w_next w) (Tgt (t_status s) (path_targets (chip_dev (t_dev s))) (t_trace s))) in
  (r, World (w_heap w') (w_next w')
        (Tgt (t_status (w_st w'))
          (Chips (thread_of (t_dev s)) (release_spwkup (t_dev s)) (set_paths (t_dev (w_st w')) (chip_dev (t_dev s)))) (t_trace (w_st w')))).

Fixpoint path_loop (n : nat) (cur : option nat) (body : nat -> m bool) : m bool :=
  match n with
  | O => crash NoFuel
  | S n' =>
      match cur with
      | None => mret true
      | Some t =>
          go ← body t;
          if go : bool then next ← on_paths (path_target_next_class T "thread" (Some t)); path_loop n' next body
          else mret false
      end
  end.
Definition for_each_thread (body : nat -> m bool) : m bool :=
  g ← get_gdb;
  first ← on_paths (path_target_next_class T "thread" None);
  path_loop (S (length (path_targets g))) first body.

(** [if (pdbg_target_status(target) != PDBG_TARGET_ENABLED) continue;] *)
Definition if_on (body : nat -> m bool) (t : nat) : m bool :=
  status ← pdbg_target_status_of t;
  if bool_decide (status = PDBG_TARGET_ENABLED) then body t else mret true.

Definition thread_status (t : nat) : m thread_state :=
  c_assert (pdbg_target_is_class T t "thread");;
  v ← Chip.get_thread t; mret (status v).

(** ** Answers *)

Definition send_on (fd : Z) (text : string) : m unit := modify_gdb (add_send (fd, text)).

Definition send_response (fd : Z) (response : string) : m unit :=
  send_on fd ("$" ++ response ++ "#" ++ fmt_hex 2 (gdbcrc response)).
Definition respond (response : string) : m unit := g ← get_gdb; send_response (fd g) response.

Definition send_nack (s : tgt (chips (gdb D))) : tgt (chips (gdb D)) :=
  let g := chip_dev (t_dev s) in
  Tgt (t_status s) (Chips (thread_of (t_dev s)) (release_spwkup (t_dev s)) (add_send (fd g, "-"%string) g)) (t_trace s).
Definition send_ack (s : tgt (chips (gdb D))) : tgt (chips (gdb D)) :=
  let g := chip_dev (t_dev s) in
  Tgt (t_status s) (Chips (thread_of (t_dev s)) (release_spwkup (t_dev s)) (add_send (fd g, "+"%string) g)) (t_trace s).

(** ** Threads *)

Definition get_thread (stack : list word) : m unit :=
  t ← current; gt ← priv_of t;
  data ← snprintf 10 (""%string, 0) ("QC" ++ fmt_hex 4 (pir gt));
  respond data.1.

Definition set_thread (stack : list word) : m unit :=
  want ← num_arg stack 0;
  ended ← for_each_thread (if_on (fun t =>
    gt ← priv_of t;
    if pir gt =? want then modify_gdb (set_thread_target (Some t));; respond OK;; mret false else mret true));
  if ended : bool then respond ERROR else mret tt.

(** The loop of [qs_threadinfo]: the text so far with its length, [iter] and [found] *)
Definition listing : Type := (string * Z) * Z * bool.
Definition list_thread (acc : listing) (t : nat) : m (listing * bool) :=
  let '(data, iter, found) := acc in
  status ← pdbg_target_status_of t;
  if negb (bool_decide (status = PDBG_TARGET_ENABLED)) then mret (acc, true) else
  g ← get_gdb;
  if negb found && (iter <? threadinfo_iterator g) then mret ((data, iter + 1, found), true) else
  gt ← priv_of t;
  data ← (if iter =? threadinfo_iterator g then snprintf MAX_RESP_LEN data (fmt_hex 4 (pir gt))
          else snprintf MAX_RESP_LEN data ("," ++ fmt_hex 4 (pir gt)));
  modify_gdb (set_iterator (threadinfo_iterator g + 1));;
  mret ((data, iter, true), negb (MAX_RESP_LEN - data.2 <? 9)).

Fixpoint list_loop (n : nat) (cur : option nat) (acc : listing) : m listing :=
  match n with
  | O => crash NoFuel
  | S n' =>
      match cur with
      | None => mret acc
      | Some t =>
          '(acc, go) ← list_thread acc t;
          if go : bool then next ← on_paths (path_target_next_class T "thread" (Some t)); list_loop n' next acc
          else mret acc
      end
  end.

Definition qs_threadinfo (stack : list word) : m unit :=
  g ← get_gdb;
  first ← on_paths (path_target_next_class T "thread" None);
  '((data, s), _, _) ← list_loop (S (length (path_targets g))) first (("m"%string, 1), 0, false);
  if 1 <? s then respond data else respond "l".

Definition qf_threadinfo (stack : list word) : m unit :=
  modify_gdb (set_iterator 0);;
  qs_threadinfo stack.

(** A member of [regs], which is read even if it could not be filled *)
Definition reg_of (regs : Z + gmap (string * nat) Z) (name : string) (i : nat) : m Z :=
  match regs with
  | inr r => match r !! (name, i) with Some v => mret v | None => crash Uninit end
  | inl _ => crash Uninit
  end.

Fixpoint put_gprs (n i : nat) (regs : Z + gmap (string * nat) Z) (data : string * Z) : m (string * Z) :=
  match n with
  | O => mret data
  | S n' =>
      v ← reg_of regs "gprs" i;
      data ← snprintf MAX_RESP_LEN data (fmt_hex 0 (Z.of_nat i) ++ ":" ++ fmt_hex 16 (be64toh v) ++ ";");
      put_gprs n' (S i) regs data
  end.

(** A register of 64 bits, or the lower half of one, after a read whose return code is ignored *)
Definition put_reg (t : nat) (no : Z) (long : bool) (r : m Z) (value : mval) (data : string * Z) : m (mval * (string * Z)) :=
  value ← read_into value r;
  v ← value_of value;
  data ← snprintf MAX_RESP_LEN data
    (fmt_hex 0 no ++ ":" ++ (if long then fmt_hex 16 (be64toh v) else fmt_hex 8 (be32toh (u32 v))) ++ ";");
  mret (value, data).

Definition send_stop_for_thread (t : nat) : m unit :=
  gt ← priv_of t;
  let sig := if stop_attn gt || stop_sstep gt then 5 else if stop_ctrlc gt then 2 else 0 in
  data ← snprintf MAX_RESP_LEN (""%string, 0)
    ("T" ++ fmt_dec 2 sig ++ "thread:" ++ fmt_hex 4 (pir gt) ++ ";" ++ (if sig =? 5 then "swbreak:;" else ""));
  regs ← attempt (thread_getregs T target_to_thread t);
  data ← put_gprs 32 0 regs data;
  '(value, data) ← put_reg t 0x40 true (thread_getnia T target_to_thread t) None data;
  '(value, data) ← put_reg t 0x41 true (thread_getmsr T target_to_thread t) value data;
  '(_, data) ← put_reg t 0x42 false (thread_getcr T target_to_thread t) None data;
  '(value, data) ← put_reg t 0x43 true (thread_getspr T target_to_thread t SPR_LR) value data;
  '(value, data) ← put_reg t 0x44 true (thread_getspr T target_to_thread t SPR_CTR) value data;
  '(value, data) ← put_reg t 0x45 false (thread_getspr T target_to_thread t SPR_XER) value data;
  '(value, data) ← put_reg t 0x46 false (thread_getspr T target_to_thread t SPR_FPSCR) value data;
  '(value, data) ← put_reg t 0x67 false (thread_getspr T target_to_thread t SPR_VSCR) value data;
  '(value, data) ← put_reg t 0x68 false (thread_getspr T target_to_thread t SPR_VRSAVE) value data;
  respond data.1.

Definition stop_reason (stack : list word) : m unit := t ← current; send_stop_for_thread t.

(** ** Registers *)

(** The texts of 17 characters with their end, one after the other *)
Fixpoint gprs_text (n i : nat) (regs : Z + gmap (string * nat) Z) : m string :=
  match n with
  | O => mret ""%string
  | S n' => v ← reg_of regs "gprs" i; rest ← gprs_text n' (S i) regs; mret (fmt_hex 16 (be64toh v) ++ rest)%string
  end.

Definition get_gprs (stack : list word) : m unit :=
  t ← current;
  regs ← attempt (thread_getregs T target_to_thread t);
  data ← gprs_text 32 0 regs;
  respond data.

(** A read that fails leaves the value indeterminate. *)
Definition answer_reg (r : m Z) : m unit :=
  value ← read_into None r;
  v ← value_of value;
  respond (fmt_hex 16 (be64toh v)).

Definition get_spr (stack : list word) : m unit :=
  no ← num_arg stack 0;
  let spr n := t ← current; answer_reg (thread_getspr T target_to_thread t n) in
  match no with
  | 0x40 => t ← current; answer_reg (thread_getnia T target_to_thread t)
  | 0x41 => t ← current; answer_reg (thread_getmsr T target_to_thread t)
  | 0x42 => t ← current; answer_reg (thread_getcr T target_to_thread t)
  | 0x43 => spr SPR_LR
  | 0x44 => spr SPR_CTR
  | 0x45 => spr SPR_XER
  | 0x46 => spr SPR_FPSCR
  | 0x67 => spr SPR_VSCR
  | 0x68 => spr SPR_VRSAVE
  | _ => respond "xxxxxxxxxxxxxxxx"
  end.

(** ** The attention instruction

    [fail] is [return -1]. *)

Definition putspr_hid (t : nat) (hid : Z) : m unit :=
  r ← attempt (thread_putspr T target_to_thread t SPR_HID hid);
  match r with inl _ => fail (-1) | inr _ => mret tt end.

(** The bit is changed in [hid]; [None] when it is as it should be already. *)
Definition change_attn (t : nat) (bit hid : Z) (enable : bool) : m (option Z) :=
  if enable then
    if truthy (Z.land hid bit) then mret None else
    gt ← priv_of t;
    put_priv t (GdbThread (pir gt) true (initial_stopped gt) (stop_attn gt) (stop_sstep gt) (stop_ctrlc gt));;
    mret (Some (Z.lor hid bit))
  else if negb (truthy (Z.land hid bit)) then mret None
  else mret (Some (Z.land hid (u64 (Z.lnot bit)))).

(** On POWER9 and POWER10 the instruction cache is flushed, by a bit that is set and cleared. *)
Definition put_flushed (t : nat) (flush hid : Z) : m unit :=
  let hid := if truthy (Z.land hid flush) then Z.land hid (u64 (Z.lnot flush)) else hid in
  putspr_hid t hid;;
  putspr_hid t (Z.lor hid flush);;
  putspr_hid t hid.

Definition thread_set_attn (t : nat) (enable : bool) : m unit :=
  gt ← priv_of t;
  if negb enable && negb (attn_set gt) then mret tt else
  r ← attempt (thread_getspr T target_to_thread t SPR_HID);
  match r with
  | inl _ => fail (-1)
  | inr hid =>
      if compatible_with t "ibm,power8-thread" then
        new ← change_attn t POWER8_HID_ENABLE_ATTN hid enable;
        match new with None => mret tt | Some hid => putspr_hid t hid end
      else if compatible_with t "ibm,power9-thread" then
        new ← change_attn t POWER9_HID_ENABLE_ATTN hid enable;
        match new with None => mret tt | Some hid => put_flushed t POWER9_HID_FLUSH_ICACHE hid end
      else if compatible_with t "ibm,power10-thread" then
        new ← change_attn t POWER10_HID_ENABLE_ATTN hid enable;
        match new with None => mret tt | Some hid => put_flushed t POWER10_HID_FLUSH_ICACHE hid end
      else fail (-1)
  end.

(** The return code is that of the last thread looked at; its callers ignore it. *)
Definition set_attn (enable : bool) : m unit :=
  for_each_thread (if_on (fun t =>
    err ← code (thread_set_attn t enable);
    mret (err =? 0)));;
  mret tt.

(** ** Memory *)

Definition adu : m nat := g ← get_gdb; match adu_target g with Some t => mret t | None => crash OutOfBounds end.
Definition read_adu (addr : Z) (p : ptr) (n : Z) : m unit := t ← adu; mem_read T target_to_mem t addr p n 0 false.
Definition write_adu (addr : Z) (bs : list mval) (n : Z) : m unit := t ← adu; mem_write T target_to_mem t addr bs n 0 false.

(** [err = -1; goto out;] *)
Definition or_free (tmpbuf : ptr) (op : m unit) (k : m unit) : m unit :=
  r ← attempt op;
  match r with inl _ => free tmpbuf;; fail (-1) | inr _ => k end.

Definition write_memory (addr len : Z) (buf : ptr) (align : Z) : m unit :=
  let start_addr := ALIGN_DOWN size_t addr align in
  let end_addr := ALIGN_UP size_t (u64 (addr + len)) align in
  let size := u64 (end_addr - start_addr) in
  if negb (addr =? start_addr) || negb (u64 (addr + len) =? end_addr) then
    tmpbuf ← malloc size;
    or_free tmpbuf (read_adu start_addr tmpbuf size)
      (memcpy (ptr_add tmpbuf (addr - start_addr)) buf len;;
       src ← bytes_at tmpbuf size;
       or_free tmpbuf (write_adu start_addr src size) (free tmpbuf))
  else
    src ← bytes_at buf size;
    or_free Null (write_adu start_addr src size) (mret tt).

Definition read_memory (addr len : Z) (buf : ptr) (align : Z) : m unit :=
  let start_addr := ALIGN_DOWN size_t addr align in
  let end_addr := ALIGN_UP size_t (u64 (addr + len)) align in
  let size := u64 (end_addr - start_addr) in
  if negb (addr =? start_addr) || negb (u64 (addr + len) =? end_addr) then
    tmpbuf ← malloc size;
    or_free tmpbuf (read_adu start_addr tmpbuf size)
      (memcpy buf (ptr_add tmpbuf (addr - start_addr)) len;; free tmpbuf)
  else or_free Null (read_adu start_addr buf size) (mret tt).

(** Memory at an address that is not in the linear map, word by word; the address that is read is
    always the first. The result is [err]. *)
Fixpoint read_virtual (n : nat) (i addr len : Z) (data : ptr) : m Z :=
  match n with
  | O => crash NoFuel
  | S n' =>
      if i <? len then
        t ← current;
        r ← attempt (thread_getmem T target_to_thread t addr);
        match r with
        | inl _ => mret 2
        | inr v => store_bytes (ptr_add data i) (Some <$> le_bytes 8 v);; read_virtual n' (i + 8) addr len data
        end
      else mret 0
  end.

(** [sprintf(&result[i*2], "%02x", ...)] for each byte *)
Definition hex_bytes (bs : list Z) : string := foldr (fun b s => (fmt_hex 2 b ++ s)%string) ""%string bs.

Definition get_mem (stack : list word) : m unit :=
  addr ← num_arg stack 0;
  len ← num_arg stack 1;
  let len := if MAX_DATA <? len then MAX_DATA else len in
  '(r, data) ← on_stack (replicate (Z.to_nat MAX_DATA) None) (fun data =>
    if addr =? 0 then mret 2 else
    let linear_map := get_real_addr addr in
    if negb (linear_map =? NO_ADDR) then
      err ← code (read_memory linear_map len data 1); mret (if err =? 0 then 0 else 1)
    else read_virtual 513 0 addr len data);
  err ← check r;
  if err =? 0 then
    (* the text and its end have to fit into [result]; with no bytes it is never written *)
    bs ← defined (take (Z.to_nat len) data);
    if len =? 0 then crash Uninit else
    if 2 * MAX_DATA <? 2 * len + 1 then crash OutOfBounds else
    respond (hex_bytes bs)
  else respond ("E" ++ fmt_hex 2 err).

Definition put_mem (stack : list word) : m unit :=
  addr ← num_arg stack 0;
  len ← num_arg stack 1;
  data ← ptr_arg stack 2;
  let addr := get_real_addr addr in
  err ← (if addr =? NO_ADDR then mret 1
         else r ← code (write_memory addr len data 8); mret (if r =? 0 then 0 else 3));
  free data;;
  if truthy err then respond ERROR else respond OK.

(** ** Breakpoints *)

Definition set_bp (addr : Z) : m unit :=
  g ← get_gdb;
  if nr_bps g =? Z.of_nat MAX_BPS then fail (-1) else
  if addr =? NO_ADDR then fail (-1) else
  match find_bp NO_ADDR (bps g) with
  | Some i => modify_gdb (set_bps (<[i := addr]> (bps g)) (nr_bps g + 1))
  | None => fail (-1)
  end.

Definition clear_bp (addr : Z) : m unit :=
  g ← get_gdb;
  if nr_bps g =? 0 then fail (-1) else
  if addr =? NO_ADDR then fail (-1) else
  match find_bp addr (bps g) with
  | Some i => modify_gdb (set_bps (<[i := NO_ADDR]> (bps g)) (nr_bps g - 1))
  | None => fail (-1)
  end.

(** The instruction is read into [saved_insn[i]], in part perhaps when the read fails. *)
Definition get_insn (addr : Z) (i : nat) : m unit :=
  g ← get_gdb;
  let linear_map := get_real_addr addr in
  if linear_map =? NO_ADDR then fail (-1) else
  '(r, insn) ← on_stack (default [] (saved_insn g !! i)) (fun p => read_memory linear_map 4 p 1);
  modify_gdb (fun g => set_saved (<[i := insn]> (saved_insn g)) g);;
  match r with inl _ => fail (-1) | inr _ => mret tt end.

Definition put_insn (addr : Z) (insn : list mval) : m unit :=
  let linear_map := get_real_addr addr in
  if linear_map =? NO_ADDR then fail (-1) else
  '(r, _) ← on_stack insn (fun p => write_memory linear_map 4 p 8);
  match r with inl _ => fail (-1) | inr _ => mret tt end.

Definition init_breakpoints : m unit := modify_gdb (fun g => set_bps (replicate MAX_BPS NO_ADDR) (nr_bps g) g).

Definition match_breakpoint (addr : Z) : m bool :=
  g ← get_gdb;
  mret (if nr_bps g =? 0 then false else bool_decide (is_Some (find_bp addr (bps g)))).

(** The slots that are in use, from [i] on *)
Fixpoint each_bp (l : list Z) (i : nat) (body : nat -> Z -> m unit) : m unit :=
  match l with
  | [] => mret tt
  | b :: l' => (if b =? NO_ADDR then mret tt else body i b);; each_bp l' (S i) body
  end.

Definition attn_opcode : list Z := [0x00; 0x00; 0x02; 0x00].

Definition install_breakpoints : m unit :=
  g ← get_gdb;
  if nr_bps g =? 0 then mret tt else
  t ← current;
  msr ← attempt (thread_getmsr T target_to_thread t);
  match msr with
  | inl _ => fail (-1)
  | inr msr =>
      let attn := if truthy (Z.land msr 1) then reverse attn_opcode else attn_opcode in
      each_bp (bps g) 0 (fun i b =>
        r ← attempt (get_insn b i);
        match r with inl _ => mret tt | inr _ => unchecked (put_insn b (Some <$> attn)) end);;
      set_attn true
  end.

Definition uninstall_breakpoints : m unit :=
  g ← get_gdb;
  if nr_bps g =? 0 then mret tt else
  each_bp (bps g) 0 (fun i b => unchecked (put_insn b (default [] (saved_insn g !! i))));;
  set_attn false.

Definition set_break (stack : list word) : m unit :=
  addr ← num_arg stack 0;
  r ← code (set_bp addr);
  if r =? 0 then respond OK else respond ERROR.

Definition clear_break (stack : list word) : m unit :=
  addr ← num_arg stack 0;
  r ← code (clear_bp addr);
  if r =? 0 then respond OK else respond ERROR.

(** ** Running *)

Definition v_conts (stack : list word) : m unit :=
  t ← current;
  priv_of t;;
  unchecked (thread_step T target_to_thread t 1);;
  gt ← priv_of t;
  put_priv t (GdbThread (pir gt) (attn_set gt) (initial_stopped gt) false true false);;
  send_stop_for_thread t.

Definition __start_all : m unit :=
  all ← on_paths (path_target_all_selected T fuel "thread" None);
  (if all : bool then unchecked (thread_start_all T fuel target_to_thread target_to_pib)
   else for_each_thread (if_on (fun t => unchecked (thread_start T target_to_thread t);; mret true));; mret tt);;
  modify_gdb (set_all_stopped false).

Definition start_all : m unit :=
  unchecked install_breakpoints;;
  for_each_thread (if_on (fun t =>
    gt ← priv_of t;
    put_priv t (GdbThread (pir gt) (attn_set gt) (initial_stopped gt) false false false);;
    mret true));;
  __start_all.

Definition detach (stack : list word) : m unit :=
  num_arg stack 0;;
  start_all;;
  respond OK.

Definition v_contc (stack : list word) : m unit :=
  start_all;;
  modify_gdb (set_state SIGNAL_WAIT 1).

(** [spattn] of a core, where the bit of the thread is cleared once it was seen *)
Definition check_attn_at (t : nat) (reg and_reg : Z) : m bool :=
  core ← require_target_parent T fuel (Some "core"%string) t true;
  r ← attempt (pib_read T fuel core reg);
  match r with
  | inl _ => mret false
  | inr spattn =>
      v ← Chip.get_thread t;
      let bit := PPC_BIT (1 + 4 * id v) in
      if truthy (Z.land spattn bit) then
        r ← attempt (pib_write T fuel core and_reg (u64 (Z.lnot bit)));
        mret (match r with inl _ => false | inr _ => true end)
      else mret false
  end.

Definition thread_check_attn (t : nat) : m bool :=
  if compatible_with t "ibm,power8-thread" then mret true
  else if compatible_with t "ibm,power9-thread" then check_attn_at t P9_SPATTN P9_SPATTN_AND
  else if compatible_with t "ibm,power10-thread" then check_attn_at t P10_SPATTN P10_SPATTN_AND
  else mret false.

Definition __stop_all : m unit :=
  all ← on_paths (path_target_all_selected T fuel "thread" None);
  (if all : bool then unchecked (thread_stop_all T fuel target_to_thread target_to_pib)
   else for_each_thread (if_on (fun t => unchecked (thread_stop T target_to_thread t);; mret true));; mret tt);;
  modify_gdb (set_all_stopped true).

(** A thread that has been stopped: if it hit an attention instruction that is a breakpoint, it goes
    back to the address of the breakpoint. *)
Definition stopped_thread (t : nat) : m bool :=
  unchecked (probe t);;
  thread_status t;;
  attn ← thread_check_attn t;
  (if attn : bool then
     gt ← priv_of t;
     put_priv t (GdbThread (pir gt) (attn_set gt) (initial_stopped gt) true (stop_sstep gt) (stop_ctrlc gt));;
     nia ← read_into None (thread_getnia T target_to_thread t);
     nia ← value_of nia;
     bp ← match_breakpoint (u64 (nia - 4));
     if bp : bool then unchecked (thread_putnia T target_to_thread t (u64 (nia - 4))) else mret tt
   else mret tt);;
  mret true.

Definition stop_all : m unit :=
  __stop_all;;
  for_each_thread (if_on stopped_thread);;
  uninstall_breakpoints.

Definition interrupt (stack : list word) : m unit :=
  g ← get_gdb;
  (if negb (bool_decide (gstate g = IDLE)) then
     t ← current;
     priv_of t;;
     stop_all;;
     gt ← priv_of t;
     (if negb (stop_attn gt)
      then put_priv t (GdbThread (pir gt) (attn_set gt) (initial_stopped gt) (stop_attn gt) (stop_sstep gt) true) else mret tt);;
     modify_gdb (set_state IDLE VCONT_POLL_DELAY)
   else mret tt);;
  t ← current;
  send_stop_for_thread t.

(** Whether the loop found a quiesced thread and returned. *)
Definition poll_threads : m bool :=
  ended ← for_each_thread (if_on (fun t =>
    unchecked (probe t);;
    status ← thread_status t;
    mret (negb (quiesced status))));
  mret (negb ended).

Definition poll : m unit :=
  g ← get_gdb;
  if negb (bool_decide (gstate g = SIGNAL_WAIT)) then mret tt else
  hit ← poll_threads;
  if negb hit then mret tt else
  stop_all;;
  for_each_thread (if_on (fun t =>
    gt ← priv_of t;
    if stop_attn gt then modify_gdb (set_thread_target (Some t));; mret false else mret true));;
  modify_gdb (set_state IDLE VCONT_POLL_DELAY);;
  t ← current;
  send_stop_for_thread t.

(** A number on the stack is taken for a pointer to a text. *)
Definition cmd_default (stack : list word) : m unit :=
  v ← array_get stack 0;
  match v with
  | Num 0 => respond ""
  | Text s => respond s
  | _ => crash OutOfBounds
  end.

Definition create_client (new_fd : Z) : m unit :=
  modify_gdb (set_fd new_fd);;
  g ← get_gdb;
  if negb (all_stopped g) then stop_all else mret tt.

Definition destroy_client (dead_fd : Z) : m unit := modify_gdb (set_fd (-1)).

Definition callbacks : list (list word -> m unit) :=
  [cmd_default;
   get_gprs;
   get_spr;
   stop_reason;
   get_thread;
   set_thread;
   v_contc;
   v_conts;
   qf_threadinfo;
   qs_threadinfo;
   get_mem;
   put_mem;
   set_break;
   clear_break;
   interrupt;
   detach].

(** ** The server *)

Abbreviation ms := (M (parser * tgt (chips (gdb D)))).

(** What [read] returns: [None] for an error, and no bytes at the end of the connection *)
Definition read_from_client (input : option (list Z)) : ms unit :=
  match input with
  | None | Some [] => fail (-1)
  | Some buffer => attempt (parse_buffer send_ack send_nack (Some callbacks) buffer);; mret tt
  end.

(** What becomes ready in one round of [select]: a connection is accepted, or a descriptor can be read. *)
Inductive ready :=
| Incoming (new : option Z)
| Readable (i : Z) (input : option (list Z)).

Definition handle (r : ready) : ms unit :=
  match r with
  | Incoming None => fail (-1)
  | Incoming (Some new) =>
      g ← on_env get_gdb;
      if 0 <? fd g then mret tt else on_env (create_client new)
  | Readable i input =>
      r ← attempt (read_from_client input);
      match r with inl _ => on_env (destroy_client i) | inr _ => mret tt end
  end.

Fixpoint handle_all (rs : list ready) : ms unit :=
  match rs with [] => mret tt | r :: rs' => handle r;; handle_all rs' end.

(** The rounds until the server is interrupted, [None] when [select] fails *)
Fixpoint serve_rounds (rounds : list (option (list ready))) : ms unit :=
  match rounds with
  | [] => mret tt
  | None :: _ => fail (-1)
  | Some rs :: rounds' => handle_all rs;; on_env poll;; serve_rounds rounds'
  end.

(** The socket is opened and bound without an error. *)
Definition gdbserver_start (adu : nat) (rounds : list (option (list ready))) : ms unit :=
  s ← get_st; put_st (parser_init s.1, s.2);;
  on_env (modify_gdb (set_adu_target (Some adu)));;
  serve_rounds rounds.

(** [return -1], and [goto out] *)
Inductive leave := Return | Out.

(** The loops of [gdbserver] carry what they have found; they can be left. *)
Fixpoint found_loop {A} (n : nat) (cur : option nat) (acc : A) (body : A -> nat -> m (leave + A)) : m (leave + A) :=
  match n with
  | O => crash NoFuel
  | S n' =>
      match cur with
      | None => mret (inr acc)
      | Some t =>
          status ← pdbg_target_status_of t;
          r ← (if bool_decide (status = PDBG_TARGET_ENABLED) then body acc t else mret (inr acc));
          match r with
          | inl l => mret (inl l)
          | inr acc => next ← on_paths (path_target_next_class T "thread" (Some t)); found_loop n' next acc body
          end
      end
  end.
Definition each_thread {A} (acc : A) (body : A -> nat -> m (leave + A)) : m (leave + A) :=
  g ← get_gdb;
  first ← on_paths (path_target_next_class T "thread" None);
  found_loop (S (length (path_targets g))) first acc body.

Definition first_of (old : option nat) (t : nat) : option nat := match old with None => Some t | _ => old end.

(** The first thread, and the first that is stopped; the record of a thread is allocated. *)
Definition register_thread (acc : option nat * option nat) (t : nat) : m (leave + (option nat * option nat)) :=
  if negb (compatible_with t "ibm,power8-thread") && negb (compatible_with t "ibm,power9-thread")
     && negb (compatible_with t "ibm,power10-thread") then mret (inl Return) else
  status ← thread_status t;
  put_priv t (GdbThread 0 false (quiesced status) false false false);;
  mret (inr (first_of acc.1 t, if quiesced status then first_of acc.2 t else acc.2)).

Definition halt_thread (acc : unit) (t : nat) : m (leave + unit) :=
  gt ← priv_of t;
  if initial_stopped gt then mret (inr tt) else
  r ← attempt (thread_stop T target_to_thread t);
  mret (match r with inl _ => inl Return | inr _ => inr tt end).

Definition identify_thread (acc : option nat) (t : nat) : m (leave + option nat) :=
  r ← attempt (thread_getspr T target_to_thread t SPR_PIR);
  match r with
  | inl _ => mret (inl Out)
  | inr v =>
      gt ← priv_of t;
      put_priv t (GdbThread v (attn_set gt) (initial_stopped gt) (stop_attn gt) (stop_sstep gt) (stop_ctrlc gt));;
      if truthy (Z.land v (u64 (Z.lnot 0xffff))) then mret (inl Out) else
      attn ← thread_check_attn t;
      if attn : bool then
        gt ← priv_of t;
        put_priv t (GdbThread (pir gt) (attn_set gt) true true (stop_sstep gt) (stop_ctrlc gt));;
        mret (inr (first_of acc t))
      else mret (inr acc)
  end.

Definition resume_thread (acc : unit) (t : nat) : m (leave + unit) :=
  gt ← priv_of t;
  (if initial_stopped gt then mret tt else unchecked (thread_start T target_to_thread t));;
  mret (inr tt).

(** The first memory unit that can be probed *)
Fixpoint probe_adu (mems : list nat) : m (option nat) :=
  match mems with
  | [] => mret None
  | t :: mems' =>
      st ← pdbg_target_probe T fuel t;
      if bool_decide (st = PDBG_TARGET_ENABLED) then mret (Some t) else probe_adu mems'
  end.

(** From the label [out] on *)
Definition leave_server : m unit :=
  g ← get_gdb;
  (if negb (all_stopped g) then stop_all else mret tt);;
  each_thread tt resume_thread;;
  mret tt.

Definition gdbserver (mems : list nat) (rounds : list (option (list ready))) : ms unit :=
  on_env init_breakpoints;;
  r ← on_env (each_thread (None, None) register_thread);
  match r with
  | inl _ => fail (-1)
  | inr (None, _) => mret tt
  | inr (Some first_target, first_stopped_target) =>
      r ← on_env (each_thread tt halt_thread);
      match r with
      | inl _ => fail (-1)
      | inr _ =>
          r ← on_env (each_thread None identify_thread);
          match r with
          | inl _ => on_env leave_server
          | inr first_attn_target =>
              on_env (modify_gdb (set_thread_target (match first_attn_target, first_stopped_target with
                | Some _, _ => Some first_target
                | None, Some t => Some t
                | None, None => Some first_target
                end)));;
              on_env (each_thread tt resume_thread);;
              adu ← on_env (probe_adu mems);
              match adu with
              | None => on_env leave_server
              | Some adu => attempt (gdbserver_start adu rounds);; on_env leave_server
              end
          end
      end
  end.
End Gdb.
