(* ===== verification/GdbTheorems.v ===== *)
(** * The gdb server: what a client gets

    What a memory unit promises to the server, and what the commands for memory, breakpoints and
    threads do for a client, down to the packets. *)

From Stdlib Require Import Ascii String.
From S2P Require Import Prelude CMem Target Pib TargetFacts Adu AduTheorems Ram Thread Chip Sprs Parse PathSel PathTheorems Access GdbParser Gdb.

(** ** Alignment *)

Lemma align_down v : in_range 64 v -> ALIGN_DOWN 64 v 8 = v - v mod 8.
Proof. intros H. unfold ALIGN_DOWN. change (wrap 64 (Z.lnot (8 - 1))) with (2 ^ 64 - 2 ^ 3). by apply land_align. Qed.
Lemma align_up v : 0 <= v <= 2 ^ 64 - 8 -> ALIGN_UP 64 v 8 = v + (- v) mod 8.
Proof.
  intros H. unfold ALIGN_UP. change (wrap 64 (Z.lnot (8 - 1))) with (2 ^ 64 - 2 ^ 3).
  assert (u64 (u64 (v + 8) - 1) = v + 7) as ->.
  { unfold wrap. rewrite Zminus_mod_idemp_l. rewrite Z.mod_small; lia. }
  rewrite land_align; [|lia|unfold in_range; lia]. change (2 ^ 3) with 8. Z.to_euclidean_division_equations; lia.
Qed.
Lemma align_one v : in_range 64 v -> ALIGN_DOWN 64 v 1 = v /\ ALIGN_UP 64 v 1 = v.
Proof.
  intros H. unfold ALIGN_DOWN, ALIGN_UP. change (wrap 64 (Z.lnot (1 - 1))) with (2 ^ 64 - 2 ^ 0).
  assert (u64 (u64 (v + 1) - 1) = v) as ->.
  { unfold wrap. rewrite Zminus_mod_idemp_l, Z.add_simpl_r. by apply Z.mod_small. }
  rewrite land_align by (done || lia). change (2 ^ 0) with 1. rewrite Z.mod_1_r. lia.
Qed.

(** An array of the stack is gone afterwards. *)
Lemma on_stack_ret {S A} (init l : list mval) (k : ptr -> M S A) h n (s s' : S) n' a :
  h !! n = None -> k (Ptr n 0) (World (<[n := init]> h) (Datatypes.S n) s) = (Ret a, World (<[n := l]> h) n' s') ->
  on_stack init k (World h n s) = (Ret (inr a, l), World h n' s').
Proof.
  intros Hn Hk. unfold on_stack, attempt. cbn [w_heap w_next w_st]. rewrite Hk. cbn [w_heap w_next w_st].
  rewrite lookup_insert_eq. by rewrite delete_insert_id.
Qed.

(** ** The memory of a memory unit *)

Section Memory.
Context {D : Type} {Hw : Hardware (chips (gdb D))} {Al : Allocator} (T : dtree).
Abbreviation state := (tgt (chips (gdb D))).
Context (target_to_thread : nat -> thread (D := chips (gdb D))) (target_to_mem : nat -> mem (D := chips (gdb D))).

Definition set_rest (r : D) (g : gdb D) : gdb D := Gdb (all_stopped g) (thread_target g) (adu_target g) (poll_interval g) (fd g) (gstate g)
  (threadinfo_iterator g) (bps g) (saved_insn g) (nr_bps g) (gdbserver_priv g) (path_targets g) (sends_made g) r.
Definition server (s : state) : gdb D := chip_dev (t_dev s).
Definition below (s : state) : D := gdb_rest (server s).
Definition with_server (g : gdb D) (tr : list tevent) (s : state) : state :=
  Tgt (t_status s) (Chips (thread_of (t_dev s)) (release_spwkup (t_dev s)) g) tr.
(** The hardware may change, and be asked; what the server keeps stays. *)
Definition moved (s : state) (r : D) (tr : list tevent) : state := with_server (set_rest r (server s)) tr s.

(** Bytes written at an address *)
Definition overwrite (mem : Z -> Z) (a : Z) (bs : list Z) (x : Z) : Z :=
  if (a <=? x) && (x <? a + Z.of_nat (length bs)) then default 0 (bs !! Z.to_nat (x - a)) else mem x.

(** The memory unit [t]: reads of any range, writes of whole words of eight bytes. *)
Class MemoryUnit (memory : D -> Z -> Z) (t : nat) : Prop := {
  unit_reads a size b o l h n s : t_status s t = PDBG_TARGET_ENABLED -> 0 <= a -> 0 <= size -> a + size <= 2 ^ 64 - 8 ->
    h !! b = Some l -> 0 <= o -> o + size <= Z.of_nat (length l) ->
    exists r tr, mem_read T target_to_mem t a (Ptr b o) size 0 false (World h n s) =
      (Ret tt, World (<[b := patch (Z.to_nat o) (Some <$> mem_range (memory (below s)) a size) l]> h) n (moved s r tr)) /\
      forall x, memory r x = memory (below s) x;
  unit_writes a bs h n s : t_status s t = PDBG_TARGET_ENABLED -> 0 <= a -> a mod 8 = 0 -> Z.of_nat (length bs) mod 8 = 0 ->
    a + Z.of_nat (length bs) <= 2 ^ 64 - 8 -> Forall is_byte bs ->
    exists r tr, mem_write T target_to_mem t a (Some <$> bs) (Z.of_nat (length bs)) 0 false (World h n s) =
      (Ret tt, World h n (moved s r tr)) /\
      forall x, memory r x = overwrite (memory (below s)) a bs x;
  memory_bytes r x : is_byte (memory r x)
}.

Context (memory : D -> Z -> Z) (t : nat) {HM : MemoryUnit memory t}.

Definition unit_there (s : state) : Prop := adu_target (server s) = Some t /\ t_status s t = PDBG_TARGET_ENABLED.

Lemma moved_there s r tr : unit_there s -> unit_there (moved s r tr).
Proof. done. Qed.
Lemma moved_below s r tr : below (moved s r tr) = r.
Proof. done. Qed.

Lemma adu_is (s : state) h n : unit_there s -> adu (World h n s) = (Ret t, World h n s).
Proof. intros [H _]. unfold adu. rewrite (bind_at _ _ _ (server s) (World h n s)) by done. by rewrite H. Qed.

Lemma read_unit a size b o l h n s : unit_there s -> 0 <= a -> 0 <= size -> a + size <= 2 ^ 64 - 8 ->
  h !! b = Some l -> 0 <= o -> o + size <= Z.of_nat (length l) ->
  exists r tr, read_adu T target_to_mem a (Ptr b o) size (World h n s) =
    (Ret tt, World (<[b := patch (Z.to_nat o) (Some <$> mem_range (memory (below s)) a size) l]> h) n (moved s r tr)) /\
    forall x, memory r x = memory (below s) x.
Proof.
  intros Hs Ha Hz Hf Hb Ho Hl. destruct (unit_reads a size b o l h n s (proj2 Hs) Ha Hz Hf Hb Ho Hl) as (r & tr & H & Hm).
  exists r, tr. split; [|done]. unfold read_adu. by rewrite (bind_at _ _ _ _ _ (adu_is s h n Hs)).
Qed.

Lemma write_unit a bs h n s : unit_there s -> 0 <= a -> a mod 8 = 0 -> Z.of_nat (length bs) mod 8 = 0 ->
  a + Z.of_nat (length bs) <= 2 ^ 64 - 8 -> Forall is_byte bs ->
  exists r tr, write_adu T target_to_mem a (Some <$> bs) (Z.of_nat (length bs)) (World h n s) = (Ret tt, World h n (moved s r tr)) /\
    forall x, memory r x = overwrite (memory (below s)) a bs x.
Proof.
  intros Hs Ha H8 Hz Hf Hb. destruct (unit_writes a bs h n s (proj2 Hs) Ha H8 Hz Hf Hb) as (r & tr & H & Hm).
  exists r, tr. split; [|done]. unfold write_adu. by rewrite (bind_at _ _ _ _ _ (adu_is s h n Hs)).
Qed.

(** With single bytes as the unit, the range is read as it is. *)
Lemma read_memory_bytes a size b o l h n s : unit_there s -> 0 <= a -> 0 <= size -> a + size <= 2 ^ 64 - 8 ->
  h !! b = Some l -> 0 <= o -> o + size <= Z.of_nat (length l) ->
  exists r tr, read_memory T 64 target_to_mem a size (Ptr b o) 1 (World h n s) =
    (Ret tt, World (<[b := patch (Z.to_nat o) (Some <$> mem_range (memory (below s)) a size) l]> h) n (moved s r tr)) /\
    forall x, memory r x = memory (below s) x.
Proof.
  intros Hs Ha Hz Hf Hb Ho Hl. unfold read_memory.
  rewrite (wrap_small 64 (a + size)) by (unfold in_range; lia).
  destruct (align_one a) as [-> _]; [unfold in_range; lia|]. destruct (align_one (a + size)) as [_ ->]; [unfold in_range; lia|].
  rewrite !Z.eqb_refl. cbn [negb orb]. replace (a + size - a) with size by lia. rewrite wrap_small by (unfold in_range; lia).
  destruct (read_unit a size b o l h n s Hs Ha Hz Hf Hb Ho Hl) as (r & tr & H & Hm). exists r, tr. split; [|done].
  unfold or_free, attempt. unfold mbind, M_bind. by rewrite H.
Qed.

Lemma overwrite_range mem mem' a bs start size : (forall x, mem' x = mem x) -> start <= a -> a + Z.of_nat (length bs) <= start + size ->
  forall x, overwrite mem' start (patch (Z.to_nat (a - start)) bs (mem_range mem start size)) x = overwrite mem a bs x.
Proof.
  intros Hm Hs He x. assert (length (patch (Z.to_nat (a - start)) bs (mem_range mem start size)) = Z.to_nat size) as El.
  { rewrite length_patch; rewrite length_mem_range; lia. }
  unfold overwrite. rewrite El. destruct ((start <=? x) && (x <? start + Z.of_nat (Z.to_nat size))) eqn:Hin.
  - apply andb_prop in Hin as [H1 H2]. apply Z.leb_le in H1. apply Z.ltb_lt in H2.
    unfold patch. destruct ((a <=? x) && (x <? a + Z.of_nat (length bs))) eqn:Hin'.
    + apply andb_prop in Hin' as [H3 H4]. apply Z.leb_le in H3. apply Z.ltb_lt in H4.
      rewrite lookup_app_r; rewrite length_take_le by (rewrite length_mem_range; lia); [|lia].
      rewrite lookup_app_l by lia. f_equal. f_equal. lia.
    + assert (~ (a <= x < a + Z.of_nat (length bs))) as Hout by (rewrite andb_false_iff, Z.leb_gt, Z.ltb_ge in Hin'; lia).
      assert (default 0 (mem_range mem start size !! Z.to_nat (x - start)) = mem x) as Hx.
      { rewrite mem_range_lookup by lia. cbn. f_equal. lia. }
      destruct (decide (x < a)).
      * rewrite lookup_app_l by (rewrite length_take_le; rewrite ?length_mem_range; lia). by rewrite lookup_take_lt by lia.
      * rewrite lookup_app_r; rewrite length_take_le by (rewrite length_mem_range; lia); [|lia].
        rewrite lookup_app_r by lia. rewrite lookup_drop, <- Hx. f_equal. f_equal. lia.
  - rewrite Hm. destruct ((a <=? x) && (x <? a + Z.of_nat (length bs))) eqn:Hin'; [|done].
    apply andb_prop in Hin' as [H3 H4]. apply Z.leb_le in H3. apply Z.ltb_lt in H4.
    rewrite andb_false_iff, Z.leb_gt, Z.ltb_ge in Hin. lia.
Qed.

Lemma mem_range_bytes r a k : Forall is_byte (mem_range (memory r) a k).
Proof. unfold mem_range. apply Forall_fmap, Forall_forall. intros j _. apply memory_bytes. Qed.

Lemma load_all {S} b (l : list mval) h n (s : S) : h !! b = Some l ->
  load_bytes (Ptr b 0) (Z.of_nat (length l)) (World h n s) = (Ret l, World h n s).
Proof.
  intros Hb. unfold load_bytes. cbn [w_heap]. rewrite Hb, !(proj2 (Z.leb_le _ _)) by lia. cbn [andb].
  by rewrite Nat2Z.id, slice_all.
Qed.
Lemma bytes_all {S} b (l : list mval) h n (s : S) : h !! b = Some l ->
  bytes_at (Ptr b 0) (Z.of_nat (length l)) (World h n s) = (Ret l, World h n s).
Proof. intros Hb. unfold bytes_at. destruct l as [|o l]; [done|]. cbn [length]. rewrite (proj2 (Z.eqb_neq _ _)) by lia. exact (load_all b (o :: l) h n s Hb). Qed.

Lemma memcpy_ret {S} bd od bs (ld ls : list mval) h n (s : S) : h !! bd = Some ld -> h !! bs = Some ls -> 0 <= od ->
  od + Z.of_nat (length ls) <= Z.of_nat (length ld) ->
  memcpy (Ptr bd od) (Ptr bs 0) (Z.of_nat (length ls)) (World h n s) = (Ret tt, World (<[bd := patch (Z.to_nat od) ls ld]> h) n s).
Proof.
  intros Hd Hs Ho Hl. unfold memcpy. destruct (Z.of_nat (length ls) =? 0) eqn:E0.
  - apply Z.eqb_eq in E0. destruct ls; [|cbn in E0; lia]. unfold patch. cbn [length app]. rewrite Nat.add_0_r, take_drop. by rewrite insert_id.
  - rewrite (bind_at _ _ _ _ _ (load_all bs ls h n s Hs)). unfold store_bytes. cbn [w_heap w_next w_st].
    by rewrite Hd, !(proj2 (Z.leb_le _ _)) by lia.
Qed.

Lemma fmap_patch {A B} (f : A -> B) o bs l : patch o (f <$> bs) (f <$> l) = f <$> patch o bs l.
Proof. unfold patch. by rewrite !fmap_app, fmap_take, fmap_drop, length_fmap. Qed.

Context (Hal : forall k m, can_alloc k m = true).

Lemma write_memory_bytes a bytes b h n s : heap_ok h n -> unit_there s -> 0 <= a -> a + Z.of_nat (length bytes) <= 2 ^ 64 - 16 ->
  Forall is_byte bytes -> h !! b = Some (Some <$> bytes) ->
  exists r tr n', write_memory T 64 target_to_mem a (Z.of_nat (length bytes)) (Ptr b 0) 8 (World h n s) = (Ret tt, World h n' (moved s r tr)) /\
    (n <= n')%nat /\ forall x, memory r x = overwrite (memory (below s)) a bytes x.
Proof.
  intros Hh Hs Ha Hf Hby Hb. set (len := Z.of_nat (length bytes)) in *. unfold write_memory.
  rewrite (wrap_small 64 (a + len)) by (unfold in_range; lia). rewrite align_down by (unfold in_range; lia). rewrite align_up by lia.
  set (start := a - a mod 8). set (stop := a + len + (- (a + len)) mod 8).
  pose proof (Z.mod_le a 8 ltac:(lia) ltac:(lia)). pose proof (Z.mod_pos_bound a 8 ltac:(lia)). pose proof (Z.mod_pos_bound (- (a + len)) 8 ltac:(lia)).
  assert (start mod 8 = 0) as H8 by (unfold start; Z.to_euclidean_division_equations; lia).
  assert ((stop - start) mod 8 = 0) as Hz8 by (unfold start, stop; Z.to_euclidean_division_equations; lia).
  cbv zeta. rewrite (wrap_small 64 (stop - start)) by (unfold in_range, stop, start; lia).
  assert (Forall is_byte (patch (Z.to_nat (a - start)) bytes (mem_range (memory (below s)) start (stop - start)))) as Hpb.
  { unfold patch. apply Forall_app; split; [apply Forall_take, mem_range_bytes|]. apply Forall_app; split; [done|]. apply Forall_drop, mem_range_bytes. }
  destruct (negb (a =? start) || negb (a + len =? stop)) eqn:Hun.
  - set (size := stop - start) in *. assert (0 <= size) by (unfold size, stop, start; lia).
    assert (length (patch (Z.to_nat (a - start)) bytes (mem_range (memory (below s)) start size)) = Z.to_nat size) as El.
    { rewrite length_patch; rewrite length_mem_range; [done|]. unfold size, stop, start. lia. }
    rewrite (bind_at _ _ _ (Ptr n 0) (World (<[n := replicate (Z.to_nat size) None]> h) (S n) s)) by (unfold malloc; cbn [w_next]; by rewrite Hal).
    destruct (read_unit start size n 0 (replicate (Z.to_nat size) None) (<[n := replicate (Z.to_nat size) None]> h) (S n) s Hs)
      as (r1 & tr1 & Hrd & Hm1); [unfold start; lia|done|unfold size, stop, start; lia|by rewrite lookup_insert_eq|done|rewrite length_replicate; lia|].
    rewrite insert_insert_eq, patch_full in Hrd; [|rewrite length_fmap, length_mem_range, length_replicate; done|done].
    unfold or_free at 1. rewrite (bind_at _ _ _ (inr tt) (World (<[n := Some <$> mem_range (memory (below s)) start size]> h) (S n) (moved s r1 tr1)))
      by (unfold attempt; by rewrite Hrd).
    cbn [ptr_add]. assert (b <> n) as Hne by (intros ->; by rewrite (heap_ok_fresh h n Hh) in Hb).
    pose proof (memcpy_ret n (0 + (a - start)) b (Some <$> mem_range (memory (below s)) start size) (Some <$> bytes)
      (<[n := Some <$> mem_range (memory (below s)) start size]> h) (S n) (moved s r1 tr1)) as Hcpy.
    rewrite length_fmap in Hcpy. rewrite (bind_at _ _ _ _ _ (Hcpy ltac:(by rewrite lookup_insert_eq) ltac:(by rewrite lookup_insert_ne)
      ltac:(unfold start; lia) ltac:(rewrite length_fmap, length_mem_range; unfold size, stop, start; lia))). clear Hcpy.
    rewrite insert_insert_eq.
    rewrite Z.add_0_l, fmap_patch. set (p := patch _ _ _) in *.
    assert (size = Z.of_nat (length (Some <$> p))) as Ez by (rewrite length_fmap, El; lia).
    rewrite (bind_at _ _ _ (Some <$> p) (World (<[n := Some <$> p]> h) (S n) (moved s r1 tr1))) by (rewrite Ez at 1; exact (bytes_all n (Some <$> p) _ _ _ (lookup_insert_eq _ _ _))).
    destruct (write_unit start p (<[n := Some <$> p]> h) (S n) (moved s r1 tr1)) as (r2 & tr2 & Hwr & Hm2); [done|lia|done|by rewrite El, Z2Nat.id|
      rewrite El; unfold size, stop, start; lia|done|].
    rewrite El, Z2Nat.id in Hwr by lia.
    unfold or_free, attempt. unfold mbind, M_bind. rewrite Hwr. exists r2, tr2, (S n). split; [|split; [lia|]].
    + unfold free. cbn [w_heap w_next w_st]. rewrite lookup_insert_eq, bool_decide_eq_true_2 by eauto. cbn [andb Z.eqb].
      by rewrite delete_insert_id by (by apply heap_ok_fresh).
    + intros x. rewrite Hm2, moved_below. apply overwrite_range; [done|unfold start; lia|unfold size, stop, start; lia].
  - rewrite orb_false_iff, !negb_false_iff, !Z.eqb_eq in Hun. destruct Hun as [E1 E2].
    replace (stop - start) with (Z.of_nat (length (Some <$> bytes))) by (rewrite length_fmap; lia).
    rewrite (bind_at _ _ _ (Some <$> bytes) (World h n s)) by (exact (bytes_all b (Some <$> bytes) _ _ _ Hb)). rewrite length_fmap.
    destruct (write_unit start bytes h n s) as (r2 & tr2 & Hwr & Hm2); [done|lia|done|fold len; rewrite <- Hz8; f_equal; lia|lia|done|].
    unfold or_free, attempt. unfold mbind, M_bind. rewrite Hwr. exists r2, tr2, n. split; [done|]. split; [done|].
    intros x. by rewrite Hm2, <- E1.
Qed.

(** ** The commands for memory *)

Definition reply_text (r : string) : string := ("$" ++ r ++ "#" ++ fmt_hex 2 (gdbcrc r))%string.
(** The state after an answer, with the hardware as it is then *)
Definition answered (text : string) (r : D) (tr : list tevent) (s : state) : state :=
  with_server (add_send (fd (server s), text) (set_rest r (server s))) tr s.

Lemma respond_ret text h n s r tr : respond text (World h n (moved s r tr)) = (Ret tt, World h n (answered (reply_text text) r tr s)).
Proof. done. Qed.

Lemma real_addr_range addr : in_range 64 addr -> get_real_addr addr <> NO_ADDR -> 0 <= get_real_addr addr < 2 ^ 62.
Proof.
  intros [H0 H1] Hr. unfold get_real_addr in *. destruct (GETFIELD (PPC_BITMASK 0 3) addr =? 12).
  - change (u64 (Z.lnot (PPC_BITMASK 0 1))) with (Z.ones 62). rewrite Z.land_ones by lia. apply Z.mod_pos_bound. lia.
  - destruct (addr <? TEST_SKIBOOT_ADDR) eqn:E; [|done]. apply Z.ltb_lt in E. unfold TEST_SKIBOOT_ADDR in E. lia.
Qed.

Lemma patch_take {A} (bs l : list A) k : k = length bs -> (length bs <= length l)%nat -> take k (patch 0 bs l) = bs.
Proof. intros -> H. unfold patch. rewrite take_0. cbn [app]. by rewrite take_app_length. Qed.

Lemma get_mem_ret addr len rest h n s : heap_ok h n -> unit_there s -> in_range 64 addr -> addr <> 0 -> get_real_addr addr <> NO_ADDR ->
  0 < len < MAX_DATA ->
  exists r tr, get_mem T 64 target_to_thread target_to_mem (Num addr :: Num len :: rest) (World h n s) =
    (Ret tt, World h (S n) (answered (reply_text (hex_bytes (mem_range (memory (below s)) (get_real_addr addr) len))) r tr s)) /\
    forall x, memory r x = memory (below s) x.
Proof.
  intros Hh Hs Hr H0 Hreal Hlen. pose proof (real_addr_range addr Hr Hreal) as Hra. unfold MAX_DATA in Hlen.
  destruct (read_memory_bytes (get_real_addr addr) len n 0 (replicate 4096 None) (<[n := replicate 4096 None]> h) (S n) s Hs)
    as (r & tr & Hrd & Hm); [lia|lia|lia|by rewrite lookup_insert_eq|done|rewrite length_replicate; lia|].
  rewrite insert_insert_eq in Hrd. exists r, tr. split; [|done]. unfold get_mem.
  rewrite (bind_at _ _ _ addr (World h n s)) by done. rewrite (bind_at _ _ _ len (World h n s)) by done. cbv zeta.
  rewrite (proj2 (Z.ltb_ge MAX_DATA len)) by (unfold MAX_DATA; lia).
  set (l := patch (Z.to_nat 0) (Some <$> mem_range (memory (below s)) (get_real_addr addr) len) (replicate 4096 None)) in Hrd.
  rewrite (bind_at _ _ _ (inr 0, l) (World h (S n) (moved s r tr))).
  2: { apply on_stack_ret; [by apply heap_ok_fresh|]. rewrite (proj2 (Z.eqb_neq _ _) H0), (proj2 (Z.eqb_neq _ _) Hreal). cbn [negb].
       change (Z.to_nat MAX_DATA) with 4096%nat.
       rewrite (bind_at _ _ _ 0 (World (<[n := l]> h) (S n) (moved s r tr))); [done|].
       unfold code, attempt, mbind, M_bind. by rewrite Hrd. }
  rewrite (bind_at _ _ _ 0 (World h (S n) (moved s r tr))) by done. cbn [Z.eqb].
  rewrite (bind_at _ _ _ (mem_range (memory (below s)) (get_real_addr addr) len) (World h (S n) (moved s r tr))).
  2: { unfold l. rewrite patch_take; [|by rewrite length_fmap, length_mem_range|rewrite length_fmap, length_mem_range, length_replicate; lia].
       unfold defined. by rewrite mapM_id_Some. }
  rewrite (proj2 (Z.eqb_neq len 0)) by lia. rewrite (proj2 (Z.ltb_ge _ _)) by (unfold MAX_DATA; lia). apply respond_ret.
Qed.

Lemma put_mem_ret addr bytes b rest h n s : heap_ok h n -> unit_there s -> in_range 64 addr -> get_real_addr addr <> NO_ADDR ->
  Z.of_nat (length bytes) < 2 ^ 63 -> Forall is_byte bytes -> h !! b = Some (Some <$> bytes) ->
  exists r tr n', put_mem T 64 target_to_mem (Num addr :: Num (Z.of_nat (length bytes)) :: Bytes (Ptr b 0) :: rest) (World h n s) =
    (Ret tt, World (delete b h) n' (answered (reply_text OK) r tr s)) /\ (n <= n')%nat /\
    forall x, memory r x = overwrite (memory (below s)) (get_real_addr addr) bytes x.
Proof.
  intros Hh Hs Hr Hreal Hlen Hby Hb. pose proof (real_addr_range addr Hr Hreal) as Hra.
  destruct (write_memory_bytes (get_real_addr addr) bytes b h n s Hh Hs) as (r & tr & n' & Hwr & Hn & Hm); [lia|lia|done|done|].
  exists r, tr, n'. split; [|done]. unfold put_mem.
  rewrite (bind_at _ _ _ addr (World h n s)) by done. rewrite (bind_at _ _ _ (Z.of_nat (length bytes)) (World h n s)) by done.
  rewrite (bind_at _ _ _ (Ptr b 0) (World h n s)) by done. cbv zeta. rewrite (proj2 (Z.eqb_neq _ _) Hreal).
  rewrite (bind_at _ _ _ 0 (World h n' (moved s r tr))).
  2: { unfold code, attempt, mbind, M_bind. by rewrite Hwr. }
  rewrite (bind_at _ _ _ tt (World (delete b h) n' (moved s r tr))); [apply respond_ret|].
  unfold free. cbn [w_heap w_next w_st]. by rewrite Hb, bool_decide_eq_true_2 by eauto.
Qed.

(** ** The packets for memory *)

Section Packets.
Context (fuel : nat) (target_to_pib : nat -> pib (D := chips (gdb D))) (compatible_with : nat -> string -> bool) (probe : nat -> M state unit).
Abbreviation handlers := (callbacks T fuel 64 target_to_thread target_to_pib target_to_mem compatible_with probe).
Abbreviation hands := (feed send_ack send_nack (Some handlers)).

(** The packet is acknowledged if this is asked for. *)
Definition acked (ps : parser) (s : state) : state := if ack_mode ps then send_ack s else s.

Lemma acked_there ps s : unit_there s -> unit_there (acked ps s).
Proof. unfold acked. by destruct (ack_mode ps). Qed.
Lemma acked_below ps s : below (acked ps s) = below s.
Proof. unfold acked. by destruct (ack_mode ps). Qed.

(** A packet whose handler ends, in whatever buffers it comes *)
Lemma packet_handled p x y bufs ps s h n w' : item_ok (Packet p x y) -> checksum (body p) = digit_of x * 16 + digit_of y ->
  concat bufs = sent (Packet p x y) -> cs ps = 97 ->
  serve send_ack send_nack handlers (ack_mode ps) (stack ps) [Packet p x y] (World h n s) = (Ret tt, w') ->
  outside (hands bufs (World h n (ps, s))) = (Ret tt, w') /\ at_rest (hands bufs (World h n (ps, s))).
Proof.
  intros Hok Hsum Hb Hcs Hserve.
  destruct (items_served send_ack send_nack handlers Hal [Packet p x y] (Forall_cons_2 _ _ _ Hok (Forall_nil_2 _)) h n ps s Hcs) as [H1 H2].
  rewrite Hserve in H1. replace (concat (sent <$> [Packet p x y])) with (concat bufs) in H1, H2 by (rewrite Hb; cbn; by rewrite app_nil_r).
  destruct (exec send_ack send_nack (Some handlers) (concat bufs) (World h n (ps, s))) as [r w1] eqn:Hr.
  assert (r = Ret tt) as -> by (injection H1; congruence). specialize (H2 eq_refl). cbn in H2.
  rewrite (feed_ret send_ack send_nack handlers bufs (World h n (ps, s)) w1); [|cbn; lia|done|cbn; lia].
  split; [by rewrite H1|intros _; exact H2].
Qed.

(** C24. Memory over the wire, on a host whose [size_t] has 64 bits and for a memory unit that serves every
    access. A client that asks for 1 to 4095 bytes at an address, other than 0, of the linear map or
    of low memory gets exactly these, written in hexadecimal, and nothing changes. A client that sends
    one byte or more for such an address, as many as it announces and with any alignment, is told so
    when exactly these bytes of memory were written, and the buffer of the packet is freed. The
    packets may come in any pieces, their sums are right. *)
Theorem memory_packets ps s h n : heap_ok h n -> cs ps = 97 -> unit_there s ->
  (forall a len x y bufs, is_number a -> is_number len -> xdigit x = true -> xdigit y = true ->
     let p := ReadMem a len in
     checksum (body p) = digit_of x * 16 + digit_of y -> concat bufs = sent (Packet p x y) ->
     number a <> 0 -> get_real_addr (number a) <> NO_ADDR -> 0 < number len < MAX_DATA ->
     let r := hands bufs (World h n (ps, s)) in at_rest r /\
     exists d tr n', outside r =
       (Ret tt, World h n' (answered (reply_text (hex_bytes (mem_range (memory (below s)) (get_real_addr (number a)) (number len)))) d tr (acked ps s))) /\
       forall i, memory d i = memory (below s) i) /\
  (forall a len bytes x y bufs, let p := WriteMem a len bytes in packet_ok p -> xdigit x = true -> xdigit y = true ->
     checksum (body p) = digit_of x * 16 + digit_of y -> concat bufs = sent (Packet p x y) -> get_real_addr (number a) <> NO_ADDR ->
     let r := hands bufs (World h n (ps, s)) in at_rest r /\
     exists d tr n', outside r = (Ret tt, World h n' (answered (reply_text OK) d tr (acked ps s))) /\
       forall i, memory d i = overwrite (memory (below s)) (get_real_addr (number a)) (byte_of <$> bytes) i).
Proof.
  intros Hh Hcs Hs. assert (forall l, in_range 64 (number l)) as Hnum by (intros l; apply wrap_range; lia). split.
  - intros a len x y bufs Ha Hl Hx Hy p Hsum Hb H0 Hreal Hlen.
    destruct (get_mem_ret (number a) (number len) (replicate 8 (Num 0)) h n (acked ps s) Hh (acked_there ps s Hs) (Hnum a) H0 Hreal Hlen) as (d & tr & Hg & Hm).
    rewrite acked_below in Hg, Hm.
    destruct (packet_handled p x y bufs ps s h n
      (World h (S n) (answered (reply_text (hex_bytes (mem_range (memory (below s)) (get_real_addr (number a)) (number len)))) d tr (acked ps s)))) as [H1 H2];
      [by split_and!|done|done|done| |split; [done|by exists d, tr, (S n)]].
    cbn [serve block]. rewrite (bind_at _ _ _ tt (World h n s)) by done. rewrite (bind_at _ _ _ [] (World h n s)) by done. cbv zeta.
    rewrite Hsum, Z.eqb_refl. rewrite (bind_at _ _ _ tt (World h n (acked ps s))) by (unfold acked; by destruct (ack_mode ps)).
    unfold calls, mbind, M_bind. cbn [command command_no callbacks lookup list_lookup words numbers fmap list_fmap app length Nat.sub replicate answer p].
    cbn [replicate] in Hg. by rewrite Hg.
  - intros a len bytes x y bufs p Hp Hx Hy Hsum Hb Hreal. pose proof Hp as (_ & _ & Hn & _ & Hn63 & Hd).
    assert (Forall is_byte (byte_of <$> bytes)) as Hby by (apply Forall_fmap, Forall_forall; intros xy _; apply (wrap_range 8); lia).
    destruct (put_mem_ret (number a) (byte_of <$> bytes) n (replicate 7 (Num 0)) (<[n := Some <$> (byte_of <$> bytes)]> h) (S n) (acked ps s))
      as (d & tr & n' & Hg & _ & Hm); [apply heap_ok_insert; [by apply heap_ok_S|lia]|by apply acked_there|done|done|
        rewrite length_fmap; lia|done|by rewrite lookup_insert_eq|].
    rewrite acked_below in Hm. rewrite length_fmap, <- Hn, delete_insert_id in Hg by (by apply heap_ok_fresh).
    destruct (packet_handled p x y bufs ps s h n (World h n' (answered (reply_text OK) d tr (acked ps s)))) as [H1 H2];
      [by split_and!|done|done|done| |split; [done|by exists d, tr, n']].
    cbn [serve block]. rewrite (bind_at _ _ _ tt (World h n s)) by done.
    rewrite (bind_at _ _ _ [Bytes (Ptr n 0)] (World (<[n := Some <$> (byte_of <$> bytes)]> h) (S n) s)) by done. cbv zeta.
    rewrite Hsum, Z.eqb_refl.
    rewrite (bind_at _ _ _ tt (World (<[n := Some <$> (byte_of <$> bytes)]> h) (S n) (acked ps s))) by (unfold acked; by destruct (ack_mode ps)).
    unfold calls, mbind, M_bind. cbn [command command_no callbacks lookup list_lookup words numbers fmap list_fmap app length Nat.sub replicate answer p].
    cbn [replicate] in Hg. by rewrite Hg.
Qed.
End Packets.

(** ** The threads chosen by path *)

Definition is_thread (u : nat) : Prop := class (node T u) = Some "thread"%string.
#[export] Instance is_thread_dec u : Decision (is_thread u).
Proof. unfold is_thread. apply _. Defined.
(** [ps] is chosen; each target of it has a class. *)
Definition chosen (ps : list nat) : Prop := NoDup ps /\ Forall (fun u => class (node T u) <> None) ps.

Lemma first_thread l (w : world (tgt (list nat))) : Forall (fun u => class (node T u) <> None) l ->
  first_of_class T (Some "thread"%string) l w = (Ret (head (filter is_thread l)), w).
Proof.
  induction 1 as [|u l Hu Hl IH]; [done|]. cbn [first_of_class]. destruct (class (node T u)) as [c|] eqn:Hc; [|done].
  rewrite filter_cons. destruct (String.eqb_spec "thread" c) as [<-|Hne]; [by rewrite decide_True|].
  rewrite IH, decide_False; [done|]. unfold is_thread. congruence.
Qed.

Lemma next_thread (prev : option nat) a b h n s : path_targets (server s) = a ++ b -> chosen (a ++ b) -> last a = prev ->
  on_paths (path_target_next_class T "thread" prev) (World h n s) = (Ret (head (filter is_thread b)), World h n s).
Proof.
  intros Hp [Hn Hc] Ha. unfold on_paths. cbn [w_heap w_next w_st]. fold (server s). rewrite Hp.
  unfold path_target_next_class, path_target_find, path_target_find_next, get_paths, get_st, mbind, M_bind. cbn [w_st t_dev].
  assert (drop (match (u ← prev; position u (a ++ b)) with None => 0 | Some i => S i end)%nat (a ++ b) = b) as Hd.
  { subst prev. destruct a as [|x a _] using rev_ind; [done|]. rewrite last_snoc. cbn.
    rewrite (find_position x _ (length a) Hn) by (rewrite <- app_assoc; by apply list_lookup_middle). cbn.
    replace (S (length a)) with (length (a ++ [x])) by (rewrite length_app; cbn; lia). by rewrite drop_app_length. }
  unfold mret, M_ret. cbn [w_st t_dev]. unfold mbind in Hd. rewrite Hd, first_thread by (by apply Forall_app in Hc as [_ ?]).
  cbn [w_heap w_next w_st t_dev t_status t_trace]. do 2 f_equal. destruct s as [st [th sp g] tr]. cbn in *. destruct g. cbn in *. by rewrite Hp.
Qed.

(** The threads that the loops go through, after the targets [a] *)
Lemma rest_threads u b : forall l, filter is_thread b = u :: l -> exists c d, b = c ++ u :: d /\ filter is_thread d = l.
Proof.
  induction b as [|x b IH]; intros l; [done|]. rewrite filter_cons. case_decide.
  - intros [= -> <-]. by exists [], b.
  - intros H1. destruct (IH l H1) as (c & d & -> & Hd). by exists (x :: c), d.
Qed.

(** ** The list of threads *)

#[local] Arguments String.append : simpl nomatch.

Lemma append_nil' (a : string) : (a ++ "" = a)%string.
Proof. induction a as [|x a IH]; [done|]. cbn. by rewrite IH. Qed.
Lemma substring_all k (s : string) : (String.length s <= k)%nat -> substring 0 k s = s.
Proof. revert k. induction s as [|c s IH]; intros [|k] H; cbn in *; try (done || lia). by rewrite IH by lia. Qed.

Lemma pad_length k s : String.length (pad k s) = (k + String.length s)%nat.
Proof. induction k as [|k IH]; [done|]. cbn. by rewrite IH. Qed.
Lemma digits_short f base v k acc : 1 < base -> 0 <= v < base ^ Z.of_nat k -> (1 <= k)%nat ->
  (String.length (digits_of f base v acc) <= k + String.length acc)%nat.
Proof.
  intros Hb. revert v k acc. induction f as [|f IH]; intros v k acc Hv Hk; cbn [digits_of]; [lia|].
  destruct (Z.eqb_spec (v / base) 0) as [|Hne]; [cbn; lia|]. destruct k as [|[|k]]; [lia| |].
  - rewrite Z.pow_1_r in Hv. by rewrite Z.div_small in Hne.
  - rewrite (Nat2Z.inj_succ (S k)), Z.pow_succ_r in Hv by lia.
    specialize (IH (v / base) (S k) (String (digit_char (v mod base)) acc)). cbn [String.length] in IH.
    enough (0 <= v / base < base ^ Z.of_nat (S k)) by (cbn in *; lia). split; [apply Z.div_pos; lia|apply Z.div_lt_upper_bound; lia].
Qed.
Lemma hex4_length v : 0 <= v < 65536 -> String.length (fmt_hex 4 v) = 4%nat.
Proof.
  intros H. unfold fmt_hex. rewrite pad_length. pose proof (digits_short 20 16 v 4 "" ltac:(lia) ltac:(lia) ltac:(lia)) as Hd. change (String.length "") with 0%nat in Hd. lia.
Qed.

(** Numbers of threads as a client reads them *)
Definition commas (l : list Z) : string := foldr (fun p s => ("," ++ fmt_hex 4 p ++ s)%string) ""%string l.
Definition names (l : list Z) : string := match l with [] => ""%string | p :: l' => (fmt_hex 4 p ++ commas l')%string end.
Definition PER_REPLY : nat := 1637.

Definition with_iter (k : Z) (s : state) : state := with_server (set_iterator k (server s)) (t_trace s) s.
Definition is_on (s : state) (u : nat) : Prop := t_status s u = PDBG_TARGET_ENABLED.
#[export] Instance is_on_dec s u : Decision (is_on s u).
Proof. unfold is_on. apply _. Defined.
Definition pir_of (s : state) (u : nat) : Z := match gdbserver_priv (server s) u with Some gt => pir gt | None => 0 end.
(** The threads were registered, with numbers of 16 bits. *)
Definition registered (s : state) (l : list nat) : Prop :=
  Forall (fun u => is_thread u -> is_on s u -> exists gt, gdbserver_priv (server s) u = Some gt /\ 0 <= pir gt < 65536) l.

Lemma iter_iter k k' (s : state) : with_iter k (with_iter k' s) = with_iter k s.
Proof. done. Qed.

Lemma status_at (s : state) u h n : pdbg_target_status_of u (World h n s) = (Ret (t_status s u), World h n s).
Proof. done. Qed.

Lemma snprintf_ret {S} d s text (w : world S) : s + Z.of_nat (String.length text) < MAX_RESP_LEN -> 
  snprintf MAX_RESP_LEN (d, s) text w = (Ret ((d ++ text)%string, s + Z.of_nat (String.length text)), w).
Proof. intros H. unfold snprintf. rewrite (proj2 (Z.leb_gt _ _)) by lia. by rewrite substring_all by lia. Qed.

(** A thread that is listed: the first one has no comma. *)
Lemma list_one d s0 iter found k s u h n : registered s [u] -> is_thread u -> is_on s u -> (found = true \/ k <= iter) -> 0 <= s0 <= 8183 ->
  list_thread ((d, s0), iter, found) u (World h n (with_iter k s)) =
  (Ret (((d ++ (if (iter =? k)%Z then "" else ",") ++ fmt_hex 4 (pir_of s u))%string, s0 + (if iter =? k then 4 else 5), iter, true),
        s0 + (if iter =? k then 4 else 5) <=? 8183), World h n (with_iter (k + 1) s)).
Proof.
  intros Hr Ht Hon Hf Hs0. apply Forall_cons_1 in Hr as [Hr _]. destruct (Hr Ht Hon) as (gt & Hgt & Hp).
  unfold list_thread. rewrite (bind_at _ _ _ _ _ (status_at _ _ _ _)). cbn [with_iter with_server t_status].
  rewrite bool_decide_eq_true_2 by done. cbn [negb]. rewrite (bind_at _ _ _ (server (with_iter k s)) (World h n (with_iter k s))) by done.
  replace (negb found && (iter <? threadinfo_iterator (server (with_iter k s)))) with false.
  2: { cbn. destruct Hf as [->|Hf]; [done|]. rewrite (proj2 (Z.ltb_ge _ _)) by lia. symmetry. apply andb_false_r. }
  rewrite (bind_at _ _ _ gt (World h n (with_iter k s))).
  2: { unfold priv_of. rewrite (bind_at _ _ _ (server (with_iter k s)) (World h n (with_iter k s))) by done. cbn. by rewrite Hgt. }
  unfold pir_of. rewrite Hgt. cbn [threadinfo_iterator server with_iter with_server set_iterator chip_dev t_dev].
  pose proof (hex4_length _ Hp) as H4. unfold MAX_RESP_LEN in *.
  destruct (iter =? k).
  - rewrite (bind_at _ _ _ _ _ (snprintf_ret d s0 (fmt_hex 4 (pir gt)) _ ltac:(unfold MAX_RESP_LEN; lia))). rewrite H4.
    rewrite (bind_at _ _ _ tt (World h n (with_iter (k + 1) s))) by done. cbn [snd].
    change (Z.of_nat 4) with 4. do 3 f_equal. destruct (Z.ltb_spec (8192 - (s0 + 4)) 9), (Z.leb_spec (s0 + 4) 8183); done || lia.
  - assert (String.length ("," ++ fmt_hex 4 (pir gt)) = 5%nat) as H5 by exact (f_equal S H4).
    rewrite (bind_at _ _ _ _ _ (snprintf_ret d s0 ("," ++ fmt_hex 4 (pir gt))%string _ ltac:(unfold MAX_RESP_LEN; lia))). rewrite H5.
    rewrite (bind_at _ _ _ tt (World h n (with_iter (k + 1) s))) by done. cbn [snd].
    change (Z.of_nat 5) with 5. do 3 f_equal. destruct (Z.ltb_spec (8192 - (s0 + 5)) 9), (Z.leb_spec (s0 + 5) 8183); done || lia.
Qed.

Lemma list_off acc u s h n : ~ is_on s u -> list_thread acc u (World h n s) = (Ret (acc, true), World h n s).
Proof.
  intros Hoff. destruct acc as [[[d s0] iter] found]. unfold list_thread. rewrite (bind_at _ _ _ _ _ (status_at _ _ _ _)).
  by rewrite bool_decide_eq_false_2.
Qed.

(** The targets that are still to come are the threads of [l]. *)
Definition ahead (s : state) (prev : option nat) (l : list nat) : Prop :=
  exists a b, path_targets (server s) = a ++ b /\ chosen (a ++ b) /\ last a = prev /\ filter is_thread b = l.

Lemma ahead_next s prev l h n : ahead s prev l -> on_paths (path_target_next_class T "thread" prev) (World h n s) = (Ret (head l), World h n s).
Proof. intros (a & b & Hp & Hc & Ha & <-). by apply (next_thread prev a b). Qed.
Lemma ahead_step s prev u l : ahead s prev (u :: l) -> ahead s (Some u) l.
Proof.
  intros (a & b & Hp & Hc & Ha & Hl). destruct (rest_threads u b l Hl) as (c & d & -> & Hd).
  exists (a ++ c ++ [u]), d. rewrite <- !app_assoc in *. cbn [app] in *. split_and!; [done|done| |done].
  by rewrite app_assoc, last_snoc.
Qed.
Lemma ahead_thread s prev u l : ahead s prev (u :: l) -> is_thread u.
Proof.
  intros (a & b & _ & _ & _ & Hl). assert (u ∈ filter is_thread b) as Hu by (rewrite Hl; apply list_elem_of_here).
  by apply list_elem_of_filter in Hu as [? _].
Qed.

Lemma list_pass d iter k s u h n : is_on s u -> iter < k ->
  list_thread (d, iter, false) u (World h n (with_iter k s)) = (Ret ((d, iter + 1, false), true), World h n (with_iter k s)).
Proof.
  intros Hon Hlt. unfold list_thread. rewrite (bind_at _ _ _ _ _ (status_at _ _ _ _)). cbn [with_iter with_server t_status].
  rewrite bool_decide_eq_true_2 by done. cbn [negb]. rewrite (bind_at _ _ _ (server (with_iter k s)) (World h n (with_iter k s))) by done.
  cbn. by rewrite (proj2 (Z.ltb_lt _ _) Hlt).
Qed.

(** Once a thread is listed, the loop lists the others while there is room. *)
Lemma list_more l : forall prev m d j iter k s h n, ahead s prev l -> registered s l -> (length l < m)%nat -> (1 <= j < PER_REPLY)%nat -> iter < k ->
  let chunk := take (PER_REPLY - j) (filter (is_on s) l) in
  list_loop T m (head l) ((d, 5 * Z.of_nat j), iter, true) (World h n (with_iter k s)) =
  (Ret ((d ++ commas (pir_of s <$> chunk))%string, 5 * Z.of_nat (j + length chunk), iter, true), World h n (with_iter (k + Z.of_nat (length chunk)) s)).
Proof.
  unfold PER_REPLY. induction l as [|u l IH]; intros prev [|m] d j iter k s h n Ha Hr Hm Hj Hk; cbn [length] in Hm; try lia.
  { cbv zeta. rewrite filter_nil, take_nil. cbn. by rewrite append_nil', Nat.add_0_r, Z.add_0_r. }
  apply Forall_cons in Hr as [Hu Hr]. pose proof (ahead_thread _ _ _ _ Ha) as Ht. pose proof (ahead_step _ _ _ _ Ha) as Ha'.
  cbn [head list_loop]. rewrite filter_cons. case_decide as Hon.
  - rewrite (bind_at _ _ _ _ _ (list_one d (5 * Z.of_nat j) iter true k s u h n ltac:(by apply Forall_singleton) Ht Hon ltac:(by left) ltac:(lia))).
    rewrite (proj2 (Z.eqb_neq iter k)) by lia. destruct (Z.leb_spec (5 * Z.of_nat j + 5) 8183).
    + rewrite (bind_at _ _ _ (head l) (World h n (with_iter (k + 1) s))) by exact (ahead_next (with_iter (k + 1) s) _ _ h n Ha').
      replace (5 * Z.of_nat j + 5) with (5 * Z.of_nat (S j)) by lia. rewrite (IH (Some u)) by (done || lia). cbv zeta.
      replace (1637 - j)%nat with (S (1637 - S j)) by lia. rewrite firstn_cons. cbn [fmap list_fmap commas foldr length].
      rewrite !append_assoc. do 3 f_equal; [|lia]. do 3 f_equal. lia.
    + cbv zeta. replace (1637 - j)%nat with 1%nat by lia. rewrite firstn_cons, take_0. cbn [fmap list_fmap commas foldr length].
      rewrite append_nil'. unfold mret, M_ret. do 3 f_equal. do 2 f_equal. lia.
  - rewrite (bind_at _ _ _ _ _ (list_off ((d, 5 * Z.of_nat j), iter, true) u (with_iter k s) h n Hon)).
    rewrite (bind_at _ _ _ (head l) (World h n (with_iter k s))) by exact (ahead_next (with_iter k s) _ _ h n Ha').
    by apply (IH (Some u)); try lia.
Qed.

Definition text_len (chunk : list nat) : Z := match chunk with [] => 1 | _ => 5 * Z.of_nat (length chunk) end.

(** The loop passes over the threads that were listed before. *)
Lemma list_from l : forall prev m iter k s h n, ahead s prev l -> registered s l -> (length l < m)%nat -> 0 <= iter <= k ->
  let chunk := take PER_REPLY (drop (Z.to_nat (k - iter)) (filter (is_on s) l)) in
  exists iter' found', list_loop T m (head l) (("m"%string, 1), iter, false) (World h n (with_iter k s)) =
  (Ret (("m" ++ names (pir_of s <$> chunk))%string, text_len chunk, iter', found'), World h n (with_iter (k + Z.of_nat (length chunk)) s)).
Proof.
  induction l as [|u l IH]; intros prev [|m] iter k s h n Ha Hr Hm Hk; cbn [length] in Hm; try lia.
  { cbv zeta. rewrite filter_nil, drop_nil, take_nil. exists iter, false. cbn. by rewrite Z.add_0_r. }
  apply Forall_cons in Hr as [Hu Hr]. pose proof (ahead_thread _ _ _ _ Ha) as Ht. pose proof (ahead_step _ _ _ _ Ha) as Ha'.
  cbn [head list_loop]. rewrite filter_cons. case_decide as Hon.
  - destruct (decide (iter < k)) as [Hlt|Hge].
    + destruct (IH (Some u) m (iter + 1) k s h n Ha' Hr ltac:(lia) ltac:(lia)) as (i & f & E). exists i, f.
      rewrite (bind_at _ _ _ _ _ (list_pass _ _ _ _ _ _ _ Hon Hlt)).
      rewrite (bind_at _ _ _ (head l) (World h n (with_iter k s))) by exact (ahead_next (with_iter k s) _ _ h n Ha').
      replace (Z.to_nat (k - iter)) with (S (Z.to_nat (k - (iter + 1)))) by lia. exact E.
    + assert (iter = k) as -> by lia. rewrite Z.sub_diag. change (Z.to_nat 0) with 0%nat. rewrite drop_0. exists k, true.
      pose proof (list_one "m" 1 k false k s u h n ltac:(by apply Forall_singleton) Ht Hon ltac:(right; lia) ltac:(lia)) as H1.
      rewrite (bind_at _ _ _ _ _ H1). clear H1.
      rewrite Z.eqb_refl. change (1 + 4 <=? 8183) with true. change (1 + 4) with 5. cbv iota.
      rewrite (bind_at _ _ _ (head l) (World h n (with_iter (k + 1) s))) by exact (ahead_next (with_iter (k + 1) s) _ _ h n Ha').
      change 5 with (5 * Z.of_nat 1) at 1. rewrite (list_more l (Some u)) by (unfold PER_REPLY; done || lia). cbv zeta. unfold PER_REPLY.
      change (take 1637 (u :: filter (is_on s) l)) with (u :: take 1636 (filter (is_on s) l)). change (1637 - 1)%nat with 1636%nat.
      cbn [fmap list_fmap names text_len length]. do 3 f_equal. lia.
  - destruct (IH (Some u) m iter k s h n Ha' Hr ltac:(lia) Hk) as (i & f & E). exists i, f.
    rewrite (bind_at _ _ _ _ _ (list_off ("m"%string, 1, iter, false) u (with_iter k s) h n Hon)).
    rewrite (bind_at _ _ _ (head l) (World h n (with_iter k s))) by exact (ahead_next (with_iter k s) _ _ h n Ha').
    exact E.
Qed.

(** What was sent is added to. *)
Definition with_reply (r : string) (s : state) : state := with_server (add_send (fd (server s), reply_text r) (server s)) (t_trace s) s.
Definition reply_of (s : state) (chunk : list nat) : string := match chunk with [] => "l"%string | _ => ("m" ++ names (pir_of s <$> chunk))%string end.
(** The threads that are there, in the order in which they were chosen *)
Definition threads_on (s : state) : list nat := filter (is_on s) (filter is_thread (path_targets (server s))).

Lemma qs_ret stack k s h n : chosen (path_targets (server s)) -> registered s (path_targets (server s)) -> 0 <= k ->
  let chunk := take PER_REPLY (drop (Z.to_nat k) (threads_on s)) in
  qs_threadinfo T stack (World h n (with_iter k s)) =
  (Ret tt, World h n (with_reply (reply_of s chunk) (with_iter (k + Z.of_nat (length chunk)) s))).
Proof.
  intros Hc Hr Hk chunk. assert (ahead s None (filter is_thread (path_targets (server s)))) as Ha by (by exists [], (path_targets (server s))).
  assert (registered s (filter is_thread (path_targets (server s)))) as Hr' by (apply Forall_forall; intros u [_ Hu]%list_elem_of_filter; by apply (proj1 (Forall_forall _ _) Hr)).
  destruct (list_from _ None (S (length (path_targets (server s)))) 0 k s h n Ha Hr') as (i & f & E); [|lia|].
  { pose proof (length_filter is_thread (path_targets (server s))). lia. }
  unfold qs_threadinfo. rewrite (bind_at _ _ _ (server (with_iter k s)) (World h n (with_iter k s))) by done.
  rewrite (bind_at _ _ _ _ _ (ahead_next (with_iter k s) None _ h n Ha)). rewrite Z.sub_0_r in E. fold (threads_on s) chunk in E.
  rewrite (bind_at _ _ _ _ _ E). unfold reply_of. by destruct chunk as [|u chunk]; [|cbn [text_len length]; rewrite (proj2 (Z.ltb_lt _ _)) by lia].
Qed.

(** The client asks again [k] times. *)
Fixpoint ask_again (k : nat) : M state unit := match k with O => mret tt | S k' => qs_threadinfo T [];; ask_again k' end.

Definition with_replies (rs : list string) (s : state) : state := foldl (fun s r => with_reply r s) s rs.
Lemma with_replies_server rs s : with_replies rs s = with_server (foldl (fun g r => add_send (fd (server s), reply_text r) g) (server s) rs) (t_trace s) s.
Proof.
  unfold with_replies. revert s. induction rs as [|r rs IH]; intros s; cbn [foldl]; [by destruct s as [st [] tr]|]. by rewrite IH.
Qed.
Lemma reply_iter r k s : with_reply r (with_iter k s) = with_iter k (with_reply r s).
Proof. done. Qed.

(** The parts that the replies have, from the thread [k] on *)
Lemma parts_listed l : forall k s h n, chosen (path_targets (server s)) -> registered s (path_targets (server s)) ->
  drop k (threads_on s) = l ->
  exists parts, Forall (fun c => (0 < length c <= PER_REPLY)%nat) parts /\ concat parts = l /\
    (qs_threadinfo T [];; ask_again (length parts)) (World h n (with_iter (Z.of_nat k) s)) =
    (Ret tt, World h n (with_iter (Z.of_nat (k + length l)) (with_replies ((reply_of s <$> parts) ++ ["l"%string]) s))).
Proof.
  induction l as [l IH] using (induction_ltof1 _ length). unfold ltof in IH. intros k s h n Hc Hr Hl.
  pose proof (qs_ret [] (Z.of_nat k) s h n Hc Hr ltac:(lia)) as Hq. cbv zeta in Hq. rewrite Nat2Z.id, Hl in Hq.
  destruct (decide (l = [])) as [->|Hne].
  - exists []. split_and!; [done|done|]. rewrite (bind_at _ _ _ _ _ Hq). cbn. by rewrite Z.add_0_r, Nat.add_0_r.
  - set (c := take PER_REPLY l) in *. assert (0 < length c)%nat as Hpos.
    { unfold c. destruct l; [done|]. rewrite length_take. unfold PER_REPLY. cbn. lia. }
    assert (length l = length c + length (drop PER_REPLY l))%nat as Hlen by (rewrite <- length_app; unfold c; by rewrite take_drop).
    destruct (IH (drop PER_REPLY l) ltac:(lia) (k + length c)%nat (with_reply (reply_of s c) s) h n Hc Hr) as (parts & Hp & Hcat & E).
    { transitivity (drop (length c) (drop k (threads_on s))); [by rewrite drop_drop|]. rewrite Hl. unfold c. rewrite length_take.
      destruct (decide (PER_REPLY <= length l)%nat); [by rewrite Nat.min_l|]. rewrite Nat.min_r by lia. by rewrite !drop_ge by lia. }
    exists (c :: parts). split_and!; [constructor; [|done]; split; [done|]; unfold c; rewrite length_take; lia|cbn; rewrite Hcat; unfold c; apply take_drop|].
    rewrite (bind_at _ _ _ _ _ Hq). cbn [length ask_again]. rewrite reply_iter, <- Nat2Z.inj_add, E. rewrite Hlen, Nat.add_assoc. done.
Qed.

(** C29. The list of the threads. A client that asks for the first threads, and then for the next ones
    until it is told that there are no more, gets in the end the number of each thread that is
    there, once and in the order in which they were chosen. Each reply but the last names at least
    one thread, and no more than fit into the text. Asking changes nothing else. *)
Theorem threads_listed stack s h n : chosen (path_targets (server s)) -> registered s (path_targets (server s)) ->
  exists parts, concat parts = threads_on s /\ Forall (fun c => (0 < length c <= PER_REPLY)%nat) parts /\
    (qf_threadinfo T stack;; ask_again (length parts)) (World h n s) =
    (Ret tt, World h n (with_iter (Z.of_nat (length (threads_on s)))
       (with_replies (((fun c => "m" ++ names (pir_of s <$> c))%string <$> parts) ++ ["l"%string]) s))).
Proof.
  intros Hc Hr. destruct (parts_listed (threads_on s) 0 s h n Hc Hr) as (parts & Hp & Hcat & E); [by rewrite drop_0|].
  exists parts. split_and!; [done|done|]. transitivity ((qs_threadinfo T [];; ask_again (length parts)) (World h n (with_iter 0 s))); [done|].
  change (Z.of_nat 0) with 0 in E. rewrite E. do 4 f_equal. f_equal. apply list_fmap_ext. intros i c Hi.
  apply (Forall_lookup_1 _ _ _ _ Hp) in Hi. by destruct c; [cbn in Hi; lia|].
Qed.

(** ** What leaves the memory and the breakpoints alone *)

Definition quiet (s s' : state) : Prop :=
  (forall x, memory (below s') x = memory (below s) x) /\ t_status s' = t_status s /\
  adu_target (server s') = adu_target (server s) /\ bps (server s') = bps (server s) /\ nr_bps (server s') = nr_bps (server s) /\
  saved_insn (server s') = saved_insn (server s) /\ path_targets (server s') = path_targets (server s) /\
  (forall u, is_Some (gdbserver_priv (server s) u) -> is_Some (gdbserver_priv (server s') u)).

#[export] Instance quiet_preorder : PreOrder quiet.
Proof.
  split; [by intros s; split_and!|]. intros s1 s2 s3 (A1 & A2 & A3 & A4 & A5 & A6 & A7 & A8) (B1 & B2 & B3 & B4 & B5 & B6 & B7 & B8).
  split_and!; [intros x; by rewrite B1|congruence..|intros u Hu; by apply B8, A8].
Qed.

(** An operation that ends, with an error only if [f], and is quiet where [P] holds *)
Definition ends {A} (f : bool) (o : outcome A) : Prop := match o with Ret _ => True | Fail _ => f = true | Crash _ => False end.
Definition quietly (f : bool) (P : state -> Prop) {A} (op : M state A) : Prop := forall h n s, heap_ok h n -> P s ->
  exists o n' s', op (World h n s) = (o, World h n' s') /\ ends f o /\ (n <= n')%nat /\ quiet s s'.

(** What the threads promise about the registers that the server uses to prepare them for breakpoints *)
Class QuietThreads : Prop := {
  getmsr_quiet u : is_thread u -> quietly true (fun _ => True) (thread_getmsr T target_to_thread u);
  getspr_quiet u : is_thread u -> quietly true (fun _ => True) (thread_getspr T target_to_thread u SPR_HID);
  putspr_quiet u v : is_thread u -> quietly true (fun _ => True) (thread_putspr T target_to_thread u SPR_HID v)
}.

Lemma heap_ok_more h n n' : heap_ok h n -> (n <= n')%nat -> heap_ok h n'.
Proof. intros H Hn b Hb. apply H. lia. Qed.

Section Quiet.
Context (f : bool) (P : state -> Prop) (Hstable : forall s s', quiet s s' -> P s -> P s').

Lemma quietly_weaken {A} (op : M state A) : quietly f (fun _ => True) op -> quietly f P op.
Proof. intros H h n s Hh _. by apply H. Qed.
Lemma quietly_ret {A} (a : A) : quietly f P (mret a).
Proof. intros h n s Hh Hs. by exists (Ret a), n, s. Qed.
Lemma quietly_fail {A} rc : f = true -> quietly f P (fail rc : M state A).
Proof. intros Hf h n s Hh Hs. by exists (Fail rc), n, s. Qed.
Lemma quietly_bind {A B} (op : M state A) (k : A -> M state B) : quietly f P op -> (forall a, quietly f P (k a)) -> quietly f P (op ≫= k).
Proof.
  intros Ho Hk h n s Hh Hs. destruct (Ho h n s Hh Hs) as (o & n1 & s1 & E & Hc & Hn & Hq). unfold mbind, M_bind. rewrite E.
  destruct o as [a|rc|e]; [|by exists (Fail rc), n1, s1|done].
  destruct (Hk a h n1 s1 (heap_ok_more _ _ _ Hh Hn) (Hstable _ _ Hq Hs)) as (o & n2 & s2 & E2 & Hc2 & Hn2 & Hq2).
  exists o, n2, s2. split_and!; [done|done|lia|by etrans].
Qed.
Lemma quietly_attempt {A} (op : M state A) : quietly true P op -> quietly f P (attempt op).
Proof.
  intros Ho h n s Hh Hs. destruct (Ho h n s Hh Hs) as (o & n1 & s1 & E & Hc & Hn & Hq). unfold attempt. rewrite E.
  destruct o as [a|rc|e]; [by exists (Ret (inr a)), n1, s1|by exists (Ret (inl rc)), n1, s1|done].
Qed.
Lemma quietly_code (op : M state unit) : quietly true P op -> quietly f P (code op).
Proof. intros Ho. apply quietly_bind; [by apply quietly_attempt|]. intros r. apply quietly_ret. Qed.
Lemma quietly_priv u v : quietly f P (put_priv u v).
Proof.
  intros h n s Hh Hs. eexists (Ret tt), n, _. split; [done|]. split_and!; [done|lia|]. split_and!; try done.
  intros x Hx. cbn. destruct (Nat.eqb x u); [by eexists|done].
Qed.
End Quiet.

Section Attn.
Context {HQ : QuietThreads} (compatible_with : nat -> string -> bool).

(** The threads that are there have their record. *)
Definition known (s : state) (u : nat) : Prop := is_Some (gdbserver_priv (server s) u).
Definition ready (s : state) : Prop := chosen (path_targets (server s)) /\
  Forall (fun u => is_thread u -> is_on s u -> known s u) (path_targets (server s)).
Lemma known_stable u s s' : quiet s s' -> known s u -> known s' u.
Proof. intros (_ & _ & _ & _ & _ & _ & _ & H). apply H. Qed.
Lemma ready_stable s s' : quiet s s' -> ready s -> ready s'.
Proof.
  intros Hq [Hc Hk]. pose proof Hq as (_ & Hs & _ & _ & _ & _ & Hp & _). split; rewrite Hp; [done|].
  eapply Forall_impl; [exact Hk|]. intros u Hu Ht Hon. apply (known_stable u s s' Hq), Hu; [done|]. unfold is_on in *. by rewrite <- Hs.
Qed.

Lemma priv_known f u : quietly f (fun s => known s u) (priv_of u).
Proof. intros h n s Hh [v Hv]. exists (Ret v), n, s. split; [|done]. unfold priv_of. rewrite (bind_at _ _ _ (server s) (World h n s)) by done. by rewrite Hv. Qed.

Create HintDb quiet.
#[local] Hint Resolve known_stable priv_known quietly_ret quietly_fail quietly_priv quietly_attempt quietly_weaken getspr_quiet putspr_quiet : quiet.

Lemma attn_quiet u enable : is_thread u -> quietly true (fun s => known s u) (thread_set_attn T target_to_thread compatible_with u enable).
Proof.
  intros Hu. set (P := fun s => known s u). assert (forall s s', quiet s s' -> P s -> P s') as HP by apply known_stable.
  assert (forall v, quietly true P (putspr_hid T target_to_thread u v)) as Hput.
  { intros v. apply quietly_bind; [done|by eauto with quiet|]. intros []; by eauto with quiet. }
  assert (forall bit hid, quietly true P (change_attn u bit hid enable)) as Hchange.
  { intros bit hid. unfold change_attn. repeat case_match; try (by eauto with quiet).
    apply quietly_bind; [done|apply priv_known|]. intros gt. apply quietly_bind; by eauto with quiet. }
  assert (forall flush hid, quietly true P (put_flushed T target_to_thread u flush hid)) as Hflush.
  { intros flush hid. unfold put_flushed. do 2 (apply quietly_bind; [done|apply Hput|intros _]). apply Hput. }
  unfold thread_set_attn. apply quietly_bind; [done|apply priv_known|]. intros gt. case_match; [by eauto with quiet|].
  apply quietly_bind; [done|by eauto with quiet|]. intros [rc|hid]; [by eauto with quiet|].
  repeat case_match; try (by eauto with quiet); (apply quietly_bind; [done|apply Hchange|]); intros [v|]; by eauto with quiet.
Qed.

Lemma ahead_quiet s s' prev l : quiet s s' -> ahead s prev l -> ahead s' prev l.
Proof. intros (_ & _ & _ & _ & _ & _ & Hp & _) (a & b & H). exists a, b. by rewrite Hp. Qed.
Lemma ahead_known s prev u l : ahead s prev (u :: l) -> ready s -> is_on s u -> known s u.
Proof.
  intros Ha [_ Hr] Hon. pose proof (ahead_thread _ _ _ _ Ha) as Ht. destruct Ha as (a & b & Hp & _ & _ & Hl).
  apply (proj1 (Forall_forall _ _) Hr u); [|done|done]. rewrite Hp. apply elem_of_app. right.
  assert (u ∈ filter is_thread b) as Hu by (rewrite Hl; apply list_elem_of_here). by apply list_elem_of_filter in Hu as [_ ?].
Qed.

Lemma path_loop_quiet f body l : (forall u, is_thread u -> quietly f (fun s => known s u) (body u)) ->
  forall prev m, (length l < m)%nat -> quietly f (fun s => ahead s prev l /\ ready s) (path_loop T m (head l) (if_on body)).
Proof.
  intros Hb. induction l as [|u l IH]; intros prev [|m] Hm h n s Hh [Ha Hr]; cbn [length] in Hm; try lia.
  { by exists (Ret true), n, s. }
  pose proof (ahead_thread _ _ _ _ Ha) as Ht. pose proof (ahead_step _ _ _ _ Ha) as Ha'. cbn [head path_loop].
  assert (exists o n' s', if_on body u (World h n s) = (o, World h n' s') /\ ends f o /\ (n <= n')%nat /\ quiet s s')
    as (o & n1 & s1 & E & Hc & Hn & Hq).
  { unfold if_on. rewrite (bind_at _ _ _ _ _ (status_at _ _ _ _)). case_bool_decide; [|by exists (Ret true), n, s].
    apply (Hb u Ht); [done|]. by apply (ahead_known s prev u l). }
  unfold mbind at 1, M_bind at 1. rewrite E. destruct o as [[|]|rc|e];
    [|by exists (Ret false), n1, s1|by exists (Fail rc), n1, s1|done].
  pose proof (ahead_quiet _ _ _ _ Hq Ha') as Ha1. rewrite (bind_at _ _ _ _ _ (ahead_next s1 (Some u) l h n1 Ha1)).
  destruct (IH (Some u) m ltac:(lia) h n1 s1 (heap_ok_more _ _ _ Hh Hn)) as (o & n2 & s2 & E2 & Hc2 & Hn2 & Hq2); [split; [done|by apply (ready_stable s)]|].
  exists o, n2, s2. split_and!; [done|done|lia|by etrans].
Qed.

Lemma for_each_quiet f body : (forall u, is_thread u -> quietly f (fun s => known s u) (body u)) -> quietly f ready (for_each_thread T (if_on body)).
Proof.
  intros Hb h n s Hh Hr. assert (ahead s None (filter is_thread (path_targets (server s)))) as Ha by (exists [], (path_targets (server s)); split_and!; [done|apply Hr|done|done]).
  unfold for_each_thread. rewrite (bind_at _ _ _ (server s) (World h n s)) by done.
  rewrite (bind_at _ _ _ _ _ (ahead_next s None _ h n Ha)). apply (path_loop_quiet f body _ Hb None); [|done|done].
  pose proof (length_filter is_thread (path_targets (server s))). lia.
Qed.

(** Preparing the threads ends, whatever they answer. *)
Lemma set_attn_quiet enable h n s : heap_ok h n -> ready s ->
  exists n' s', set_attn T target_to_thread compatible_with enable (World h n s) = (Ret tt, World h n' s') /\ (n <= n')%nat /\ quiet s s'.
Proof.
  intros Hh Hr. set (body := fun u => err ← code (thread_set_attn T target_to_thread compatible_with u enable); mret (err =? 0)).
  destruct (for_each_quiet false body) with h n s as (o & n' & s' & E & Hc & Hn & Hq); [|done|done|].
  { intros u Hu. apply quietly_bind; [by eauto with quiet|by apply quietly_code, attn_quiet; eauto with quiet|]. intros a. apply quietly_ret. }
  exists n', s'. unfold set_attn. unfold mbind at 1, M_bind at 1. fold body. rewrite E.
  by destruct o as [b|rc|e].
Qed.

(** ** Breakpoints *)

Definition bp_ok (b : Z) : Prop := b = NO_ADDR \/ (in_range 64 b /\ get_real_addr b <> NO_ADDR).
(** Two breakpoints that are in use do not share bytes of memory. *)
Definition apart (l : list Z) : Prop := forall j k b c, l !! j = Some b -> l !! k = Some c -> j <> k -> b <> NO_ADDR -> c <> NO_ADDR ->
  get_real_addr b + 4 <= get_real_addr c \/ get_real_addr c + 4 <= get_real_addr b.
Definition within (b x : Z) : bool := (get_real_addr b <=? x) && (x <? get_real_addr b + 4).
Definition covered (l : list Z) (x : Z) : bool := existsb (fun b => negb (b =? NO_ADDR) && within b x) l.
Definition saved_ok (sv : list (list mval)) : Prop := length sv = MAX_BPS /\ Forall (fun l => length l = 4%nat) sv.
(** The original bytes of the breakpoints [l] are in [sv], from [i] on. *)
Definition originals (mem : Z -> Z) (l : list Z) (i : nat) (sv : list (list mval)) : Prop := forall k b, l !! k = Some b -> b <> NO_ADDR ->
  sv !! (i + k)%nat = Some (Some <$> mem_range mem (get_real_addr b) 4).

Lemma range_in mem a k x d : a <= x < a + k -> default d (mem_range mem a k !! Z.to_nat (x - a)) = mem x.
Proof. intros H. rewrite mem_range_lookup by lia. cbn. f_equal. lia. Qed.
Lemma overwrite_in mem a bs x : a <= x < a + Z.of_nat (length bs) -> overwrite mem a bs x = default 0 (bs !! Z.to_nat (x - a)).
Proof. intros H. unfold overwrite. by rewrite (proj2 (Z.leb_le _ _)), (proj2 (Z.ltb_lt _ _)) by lia. Qed.
Lemma overwrite_out mem a bs x : ~ (a <= x < a + Z.of_nat (length bs)) -> overwrite mem a bs x = mem x.
Proof. intros H. unfold overwrite. destruct (Z.leb_spec a x), (Z.ltb_spec x (a + Z.of_nat (length bs))); done || lia. Qed.
Lemma within_iff b x : within b x = true <-> get_real_addr b <= x < get_real_addr b + 4.
Proof. unfold within. rewrite andb_true_iff, Z.leb_le, Z.ltb_lt. done. Qed.

Definition saving (sv : list (list mval)) (s : state) : state := with_server (set_saved sv (server s)) (t_trace s) s.

Lemma put_insn_ret b insn h n s : heap_ok h n -> unit_there s -> in_range 64 b -> get_real_addr b <> NO_ADDR -> Forall is_byte insn -> length insn = 4%nat ->
  exists r tr n', put_insn T 64 target_to_mem b (Some <$> insn) (World h n s) = (Ret tt, World h n' (moved s r tr)) /\ (n <= n')%nat /\
    forall x, memory r x = overwrite (memory (below s)) (get_real_addr b) insn x.
Proof.
  intros Hh Hs Hb Hreal Hby Hlen. pose proof (real_addr_range b Hb Hreal) as Hra.
  destruct (write_memory_bytes (get_real_addr b) insn n (<[n := Some <$> insn]> h) (S n) s) as (r & tr & n' & E & Hn & Hm);
    [apply heap_ok_insert; [by apply heap_ok_S|lia]|done|lia|rewrite Hlen; lia|done|by rewrite lookup_insert_eq|].
  rewrite Hlen in E. change (Z.of_nat 4) with 4 in E.
  exists r, tr, n'. split; [|split; [lia|done]]. unfold put_insn. rewrite (proj2 (Z.eqb_neq _ _) Hreal).
  by rewrite (bind_at _ _ _ _ _ (on_stack_ret (Some <$> insn) (Some <$> insn) _ h n s _ n' tt (heap_ok_fresh h n Hh) E)).
Qed.

Lemma get_insn_ret b i l h n s : heap_ok h n -> unit_there s -> in_range 64 b -> get_real_addr b <> NO_ADDR ->
  saved_insn (server s) !! i = Some l -> length l = 4%nat ->
  exists r tr, get_insn T 64 target_to_mem b i (World h n s) =
    (Ret tt, World h (S n) (saving (<[i := Some <$> mem_range (memory (below s)) (get_real_addr b) 4]> (saved_insn (server s))) (moved s r tr))) /\
    forall x, memory r x = memory (below s) x.
Proof.
  intros Hh Hs Hb Hreal Hi Hlen. pose proof (real_addr_range b Hb Hreal) as Hra.
  destruct (read_memory_bytes (get_real_addr b) 4 n 0 l (<[n := l]> h) (S n) s Hs) as (r & tr & E & Hm);
    [lia|lia|lia|by rewrite lookup_insert_eq|done|rewrite Hlen; lia|].
  rewrite insert_insert_eq, patch_full in E; [|by rewrite length_fmap, length_mem_range, Hlen|done].
  exists r, tr. split; [|done]. unfold get_insn. rewrite (bind_at _ _ _ (server s) (World h n s)) by done. cbv zeta.
  rewrite (proj2 (Z.eqb_neq _ _) Hreal), Hi. cbn [default from_option].
  by rewrite (bind_at _ _ _ _ _ (on_stack_ret l _ _ h n s _ (S n) tt (heap_ok_fresh h n Hh) E)).
Qed.

Definition plant (attn : list Z) (b : Z) : M state unit := put_insn T 64 target_to_mem b (Some <$> attn).
Definition install_one (attn : list Z) (i : nat) (b : Z) : M state unit :=
  r ← attempt (get_insn T 64 target_to_mem b i);
  match r with inl _ => mret tt | inr _ => unchecked (plant attn b) end.

Lemma install_one_ret attn i b l h n s : heap_ok h n -> unit_there s -> in_range 64 b -> get_real_addr b <> NO_ADDR ->
  saved_insn (server s) !! i = Some l -> length l = 4%nat -> Forall is_byte attn -> length attn = 4%nat ->
  exists r tr n', install_one attn i b (World h n s) =
    (Ret tt, World h n' (saving (<[i := Some <$> mem_range (memory (below s)) (get_real_addr b) 4]> (saved_insn (server s))) (moved s r tr))) /\
    (n <= n')%nat /\ forall x, memory r x = overwrite (memory (below s)) (get_real_addr b) attn x.
Proof.
  intros Hh Hs Hb Hreal Hi Hl Hby Hlen. destruct (get_insn_ret b i l h n s Hh Hs Hb Hreal Hi Hl) as (r & tr & E & Hm).
  set (sv := <[i := _]> _) in *.
  destruct (put_insn_ret b attn h (S n) (saving sv (moved s r tr)) (heap_ok_S _ _ Hh) Hs Hb Hreal Hby Hlen) as (r2 & tr2 & n' & E2 & Hn & Hm2).
  exists r2, tr2, n'. split; [|split; [lia|]].
  - unfold install_one. rewrite (bind_at _ _ _ (inr tt) (World h (S n) (saving sv (moved s r tr)))) by (unfold attempt; by rewrite E).
    unfold unchecked, plant, attempt, mbind, M_bind. by rewrite E2.
  - intros x. rewrite Hm2. unfold overwrite. by rewrite Hm.
Qed.

(** Only breakpoints that come later are still to be put. *)
Lemma apart_tail b l : apart (b :: l) -> apart l.
Proof. intros H j k x y Hj Hk Hjk. apply (H (S j) (S k)); [done|done|lia]. Qed.
Lemma apart_head b c l k x : apart (b :: l) -> b <> NO_ADDR -> l !! k = Some c -> c <> NO_ADDR ->
  within b x = true -> get_real_addr c <= x < get_real_addr c + 4 -> False.
Proof. intros H Hb Hk Hc Hx Hr. rewrite within_iff in Hx. destruct (H O (S k) b c eq_refl Hk ltac:(lia) Hb Hc); lia. Qed.

Lemma later_free b l x : apart (b :: l) -> b <> NO_ADDR -> within b x = true -> covered l x = false.
Proof.
  intros Hap Hne Hx. apply not_true_iff_false. intros (c & Hc & Hx')%existsb_exists. apply andb_true_iff in Hx' as [Hc0 Hx'].
  apply negb_true_iff, Z.eqb_neq in Hc0. apply list_elem_of_In, list_elem_of_lookup in Hc as [k Hk].
  apply within_iff in Hx'. by apply (apart_head b c l k x).
Qed.
Lemma original_kept mem mem' attn b c l k : apart (b :: l) -> b <> NO_ADDR -> l !! k = Some c -> c <> NO_ADDR -> length attn = 4%nat ->
  (forall x, mem' x = overwrite mem (get_real_addr b) attn x) -> mem_range mem' (get_real_addr c) 4 = mem_range mem (get_real_addr c) 4.
Proof.
  intros Hap Hb Hk Hc Hlen Hm. apply list_eq_same_length with (n := 4%nat); [by rewrite length_mem_range..|].
  intros j x y Hj. rewrite !mem_range_lookup by lia. intros [= <-] [= <-]. rewrite Hm. apply overwrite_out. rewrite Hlen.
  intros Hx. apply (apart_head b c l k (get_real_addr c + Z.of_nat j)); [done|done|done|done|by apply within_iff|lia].
Qed.

Lemma install_loop attn l : Forall is_byte attn -> length attn = 4%nat -> Forall bp_ok l -> apart l -> forall i h n s,
  heap_ok h n -> unit_there s -> saved_ok (saved_insn (server s)) -> (i + length l <= MAX_BPS)%nat ->
  exists r tr sv n', each_bp l i (install_one attn) (World h n s) = (Ret tt, World h n' (saving sv (moved s r tr))) /\ (n <= n')%nat /\
    saved_ok sv /\ (forall j, (j < i)%nat -> sv !! j = saved_insn (server s) !! j) /\ originals (memory (below s)) l i sv /\
    (forall x, covered l x = false -> memory r x = memory (below s) x) /\
    (forall b, b ∈ l -> b <> NO_ADDR -> mem_range (memory r) (get_real_addr b) 4 = attn).
Proof.
  intros Hby Hlen. induction l as [|b l IH]; intros Hok Hap i h n s Hh Hs Hsv Hi.
  { exists (below s), (t_trace s), (saved_insn (server s)), n. split; [by destruct s as [st [th sp []] tr]|].
    split_and!; [done|done|done|by intros k b|done|by intros b ?%elem_of_nil]. }
  apply Forall_cons in Hok as [Hb Hok]. cbn [length] in Hi. pose proof (apart_tail _ _ Hap) as Hap'. cbn [each_bp].
  destruct (Z.eqb_spec b NO_ADDR) as [->|Hne].
  - destruct (IH Hok Hap' (S i) h n s Hh Hs Hsv ltac:(lia)) as (r & tr & sv & n' & E & Hn & H1 & H2 & H3 & H4 & H5).
    exists r, tr, sv, n'. rewrite (bind_at _ _ _ tt (World h n s)) by done. split_and!; [done|done|done| | | |].
    + intros j Hj. apply H2. lia.
    + intros [|k] c Hk Hc; [by injection Hk as <-|]. rewrite <- Nat.add_succ_comm. by apply H3.
    + intros x Hx. by apply H4.
    + intros c [->|Hc]%elem_of_cons Hn'; [done|by apply H5].
  - destruct Hb as [|[Hbr Hreal]]; [done|]. destruct Hsv as [Hl64 Hl4].
    destruct (lookup_lt_is_Some_2 (saved_insn (server s)) i) as [li Hli]; [rewrite Hl64; lia|].
    pose proof (Forall_lookup_1 _ _ _ _ Hl4 Hli) as Hlen4.
    destruct (install_one_ret attn i b li h n s Hh Hs Hbr Hreal Hli Hlen4 Hby Hlen) as (r1 & tr1 & n1 & E1 & Hn1 & Hm1).
    set (orig := Some <$> mem_range (memory (below s)) (get_real_addr b) 4) in *.
    destruct (IH Hok Hap' (S i) h n1 (saving (<[i := orig]> (saved_insn (server s))) (moved s r1 tr1))) as (r & tr & sv & n' & E & Hn & H1 & H2 & H3 & H4 & H5);
      [by eapply heap_ok_more|done| |lia|].
    { change (saved_ok (<[i := orig]> (saved_insn (server s)))). split; [by rewrite length_insert|]. apply Forall_insert; [done|]. unfold orig. by rewrite length_fmap, length_mem_range. }
    exists r, tr, sv, n'. rewrite (bind_at _ _ _ _ _ E1). split; [exact E|]. split; [lia|]. split; [done|]. cbn in H2.
    assert (forall x, covered l x = false -> memory r x = overwrite (memory (below s)) (get_real_addr b) attn x) as Hout
      by (intros x Hx; rewrite (H4 x Hx); apply Hm1).
    split_and!.
    + intros j Hj. rewrite H2 by lia. by rewrite list_lookup_insert_ne by lia.
    + intros [|k] c Hk Hc.
      * injection Hk as <-. rewrite Nat.add_0_r, H2 by lia. by rewrite list_lookup_insert_eq by (rewrite Hl64; lia).
      * rewrite <- Nat.add_succ_comm, (H3 k c Hk Hc). f_equal. f_equal. by apply (original_kept (memory (below s)) _ attn b c l k).
    + intros x Hx. cbn [covered existsb] in Hx. apply orb_false_iff in Hx as [Hx1 Hx2]. rewrite (Hout x Hx2). apply overwrite_out. rewrite Hlen.
      intros Hx. rewrite (proj2 (Z.eqb_neq _ _) Hne), (proj2 (within_iff b x) ltac:(lia)) in Hx1. done.
    + intros c [->|Hc]%elem_of_cons Hn'; [|by apply H5]. apply list_eq_same_length with (n := 4%nat); [done|by rewrite length_mem_range|].
      intros j x y Hj. rewrite mem_range_lookup by lia. intros [= <-] Hy.
      rewrite Hout by (apply (later_free b l _ Hap Hne), within_iff; lia). rewrite overwrite_in by (rewrite Hlen; lia).
      replace (Z.to_nat (get_real_addr b + Z.of_nat j - get_real_addr b)) with j by lia. by rewrite Hy.
Qed.

Lemma uninstall_loop mem sv l : (forall x, is_byte (mem x)) -> Forall bp_ok l -> forall i h n s, heap_ok h n -> unit_there s -> originals mem l i sv ->
  exists r tr n', each_bp l i (fun i b => unchecked (put_insn T 64 target_to_mem b (default [] (sv !! i)))) (World h n s) =
    (Ret tt, World h n' (moved s r tr)) /\ (n <= n')%nat /\ forall x, memory r x = if covered l x then mem x else memory (below s) x.
Proof.
  intros Hmem. induction l as [|b l IH]; intros Hok i h n s Hh Hs Ho.
  { exists (below s), (t_trace s), n. split; [by destruct s as [st [th sp []] tr]|done]. }
  apply Forall_cons in Hok as [Hb Hok]. cbn [each_bp covered existsb].
  assert (originals mem l (S i) sv) as Ho' by (intros k c Hk; rewrite Nat.add_succ_comm; by apply (Ho (S k) c)).
  destruct (Z.eqb_spec b NO_ADDR) as [->|Hne].
  - rewrite (bind_at _ _ _ tt (World h n s)) by done. by apply IH.
  - destruct Hb as [|[Hbr Hreal]]; [done|]. pose proof (Ho O b eq_refl Hne) as H0. rewrite Nat.add_0_r in H0. rewrite H0. cbn [default from_option].
    destruct (put_insn_ret b (mem_range mem (get_real_addr b) 4) h n s Hh Hs Hbr Hreal) as (r1 & tr1 & n1 & E1 & Hn1 & Hm1).
    { unfold mem_range. apply Forall_fmap, Forall_forall. intros j _. apply Hmem. }
    { apply length_mem_range. }
    destruct (IH Hok (S i) h n1 (moved s r1 tr1)) as (r & tr & n' & E & Hn & Hm); [by eapply heap_ok_more|done|done|].
    exists r, tr, n'. rewrite (bind_at _ _ _ tt (World h n1 (moved s r1 tr1))) .
    2: { unfold unchecked, attempt, mbind, M_bind, Datatypes.id. by rewrite E1. }
    split; [exact E|]. split; [lia|]. intros x. rewrite Hm. fold (covered l x). destruct (covered l x); [by rewrite orb_true_r|].
    rewrite orb_false_r, moved_below, Hm1. cbn [negb andb]. destruct (within b x) eqn:Hx.
    + apply within_iff in Hx. rewrite overwrite_in by (rewrite length_mem_range; lia). apply range_in. lia.
    + apply overwrite_out. rewrite length_mem_range. intros Hr. assert (within b x = true) as H1 by (apply within_iff; lia). congruence.
Qed.

(** What is known of the breakpoints when they are installed, and still when they are taken out *)
Definition same_breakpoints (s s' : state) : Prop :=
  bps (server s') = bps (server s) /\ nr_bps (server s') = nr_bps (server s) /\ saved_insn (server s') = saved_insn (server s).
(** The attention instruction as the thread reads it, little-endian or not *)
Definition attn_for (msr : Z) : list Z := if truthy (Z.land msr 1) then reverse attn_opcode else attn_opcode.

Lemma attn_bytes msr : Forall is_byte (attn_for msr) /\ length (attn_for msr) = 4%nat.
Proof. unfold attn_for. destruct (truthy _); (split; [repeat constructor; unfold is_byte; lia|done]). Qed.

Lemma quiet_unit s s' : quiet s s' -> unit_there s -> unit_there s'.
Proof. intros (_ & Hst & Ha & _) [H1 H2]. split; [congruence|by rewrite Hst]. Qed.

(** C10. Breakpoints come and go. The breakpoints lie at addresses of the linear map or of low memory,
    no two of them are equal or overlap, the machine state of the chosen thread can be read, and the memory
    unit is there and serves every access (class [MemoryUnit]). Then, when the breakpoints are installed,
    each of them has the attention instruction in memory, and the rest of the memory is as it was.
    Whatever runs then, as long as the table of the breakpoints and the saved instructions stay: when
    the breakpoints are taken out, their bytes are what they were before, and the rest of the memory
    keeps what was written to it. A breakpoint that is set twice is outside: the code then saves
    the attention instruction as its own original and leaves it behind ([twice_set_stays]). *)
Theorem breakpoints_transparent h n s u msr w1 : heap_ok h n -> unit_there s -> ready s -> saved_ok (saved_insn (server s)) ->
  length (bps (server s)) = MAX_BPS -> Forall bp_ok (bps (server s)) -> apart (bps (server s)) -> nr_bps (server s) <> 0 ->
  thread_target (server s) = Some u -> is_thread u -> thread_getmsr T target_to_thread u (World h n s) = (Ret msr, w1) ->
  exists n1 s1, install_breakpoints T 64 target_to_thread target_to_mem compatible_with (World h n s) = (Ret tt, World h n1 s1) /\
    (n <= n1)%nat /\ unit_there s1 /\ ready s1 /\
    (forall b, b ∈ bps (server s) -> b <> NO_ADDR -> mem_range (memory (below s1)) (get_real_addr b) 4 = attn_for msr) /\
    (forall x, covered (bps (server s)) x = false -> memory (below s1) x = memory (below s) x) /\
    forall h2 n2 s2, heap_ok h2 n2 -> unit_there s2 -> ready s2 -> same_breakpoints s1 s2 ->
    exists n3 s3, uninstall_breakpoints T 64 target_to_thread target_to_mem compatible_with (World h2 n2 s2) = (Ret tt, World h2 n3 s3) /\
      (n2 <= n3)%nat /\
      forall x, memory (below s3) x = if covered (bps (server s)) x then memory (below s) x else memory (below s2) x.
Proof.
  intros Hh Hs Hr Hsv Hl Hok Hap Hnr Ht Hu Hmsr. destruct (attn_bytes msr) as [Hby Hlen].
  destruct (getmsr_quiet u Hu h n s Hh I) as (o & n0 & s0 & E0 & _ & Hn0 & Hq0). rewrite Hmsr in E0. injection E0 as <- ->.
  pose proof Hq0 as (Hm0 & _ & _ & Hb0 & Hnr0 & Hsv0 & _).
  destruct (install_loop (attn_for msr) (bps (server s)) Hby Hlen Hok Hap 0 h n0 s0) as (r & tr & sv & n1 & E1 & Hn1 & H1 & _ & H3 & H4 & H5);
    [by eapply heap_ok_more|by apply (quiet_unit s)|by rewrite Hsv0|by rewrite Hl|].
  set (s1 := saving sv (moved s0 r tr)) in *.
  assert (ready s1) as Hr1 by exact (ready_stable s s0 Hq0 Hr).
  destruct (set_attn_quiet true h n1 s1) as (n2 & s2 & E2 & Hn2 & Hq2); [eapply heap_ok_more; [done|lia]|done|].
  pose proof Hq2 as (Hm2 & _ & _ & Hb2 & Hnr2 & Hsv2 & _). exists n2, s2. split_and!.
  - unfold install_breakpoints. rewrite (bind_at _ _ _ (server s) (World h n s)) by done. rewrite (proj2 (Z.eqb_neq _ _) Hnr).
    rewrite (bind_at _ _ _ u (World h n s)) by (unfold current; rewrite (bind_at _ _ _ (server s) (World h n s)) by done; by rewrite Ht).
    rewrite (bind_at _ _ _ (inr msr) (World h n0 s0)) by (unfold attempt; by rewrite Hmsr). cbv zeta. fold (attn_for msr).
    rewrite (bind_at _ _ _ tt (World h n1 s1)) by exact E1. exact E2.
  - lia.
  - apply (quiet_unit s1); [done|]. exact (quiet_unit s s0 Hq0 Hs).
  - by apply (ready_stable s1).
  - intros b Hb Hne. rewrite <- (H5 b Hb Hne). apply mem_range_view. intros x. apply Hm2.
  - intros x Hx. rewrite Hm2, <- Hm0. by apply H4.
  - intros h3 n3 s3 Hh3 Hs3 Hr3 (Hb3 & Hnr3 & Hsv3).
    assert (originals (memory (below s)) (bps (server s)) 0 sv) as Hor.
    { intros k b Hk Hb. rewrite (H3 k b Hk Hb). do 2 f_equal. by apply mem_range_view. }
    destruct (uninstall_loop (memory (below s)) sv (bps (server s)) ltac:(intros x; apply memory_bytes) Hok 0 h3 n3 s3 Hh3 Hs3 Hor)
      as (r4 & tr4 & n4 & E4 & Hn4 & Hm4).
    destruct (set_attn_quiet false h3 n4 (moved s3 r4 tr4)) as (n5 & s5 & E5 & Hn5 & Hq5); [by eapply heap_ok_more|done|].
    exists n5, s5. split; [|split; [lia|intros x; rewrite (proj1 Hq5); apply Hm4]].
    unfold uninstall_breakpoints. rewrite (bind_at _ _ _ (server s3) (World h3 n3 s3)) by done.
    rewrite Hnr3, Hnr2. change (nr_bps (server s1)) with (nr_bps (server s0)). rewrite Hnr0, (proj2 (Z.eqb_neq _ _) Hnr).
    rewrite Hb3, Hb2, Hsv3, Hsv2. change (bps (server s1)) with (bps (server s0)). rewrite Hb0.
    change (saved_insn (server s1)) with sv. by rewrite (bind_at _ _ _ tt (World h3 n4 (moved s3 r4 tr4))) by exact E4.
Qed.
End Attn.
End Memory.

(** ** The theorems at work

    Three threads, the second of them not there, and a memory unit with a memory that keeps what is written. *)

Section Lab.
#[local] Instance lab_hw : Hardware (chips (gdb (Z -> Z))) :=
  {| hw_probe _ d := (d, 0); hw_release _ d := d; hw_read _ _ d := (d, inl (-1)); hw_write _ _ _ d := (d, -1) |}.
#[local] Instance lab_alloc : Allocator := fun _ _ => true.
Abbreviation lab := (tgt (chips (gdb (Z -> Z)))).

Definition lab_tree : dtree :=
  Dtree (fun u => Node true (Some (if Nat.eqb u 4 then "mem" else "thread"))%string None false NoRelease 0 None [] None (Some 0%Z) 0 0 0 None false false)
    0 (fun _ => None) false.
Definition lab_ram (d : Z -> Z) (x : Z) : Z := d x mod 256.
Definition lab_mem (u : nat) : mem (D := chips (gdb (Z -> Z))) := Access.Mem
  (Some (fun a p size _ _ => s ← get_st; store_bytes p (Some <$> mem_range (lab_ram (below s)) a size)))
  (Some (fun a bs _ _ _ => s ← get_st; l ← defined bs; put_st (moved s (overwrite (lab_ram (below s)) a l) []))).
Definition lab_thread (u : nat) : thread (D := chips (gdb (Z -> Z))) :=
  Thread None None None None None None None None (Some (fun _ => mret 0)) (Some (fun _ _ => mret tt)) None None
    (Some (mret 0)) None None None None None None None.

Lemma lab_enabled h n (s : lab) : t_status s 4 = PDBG_TARGET_ENABLED -> require_enabled 4 (World h n s) = (Ret tt, World h n s).
Proof. intros Hon. unfold require_enabled. rewrite (bind_at _ _ _ _ _ (status_at _ _ _ _)). by rewrite Hon. Qed.

#[local] Instance lab_unit : MemoryUnit lab_tree lab_mem lab_ram 4.
Proof.
  split.
  - intros a size b o l h n s Hon Ha Hz Hf Hb Ho Hl. exists (below s), (t_trace s). split; [|done].
    unfold mem_read. rewrite (bind_at _ _ _ tt (World h n s)) by done. rewrite (bind_at _ _ _ tt (World h n s)) by by apply lab_enabled.
    rewrite (bind_at _ _ _ (fun a p size _ _ => s ← get_st; store_bytes p (Some <$> mem_range (lab_ram (below s)) a size)) (World h n s)) by done.
    rewrite (bind_at _ _ _ s (World h n s)) by done. unfold store_bytes. cbn [w_heap w_next w_st].
    rewrite Hb, length_fmap, length_mem_range, (proj2 (Z.leb_le _ _)), (proj2 (Z.leb_le _ _)) by lia. cbn.
    by destruct s as [st [th sp []] tr].
  - intros a bs h n s Hon Ha H8 Hz Hf Hby. exists (overwrite (lab_ram (below s)) a bs), []. split.
    + unfold mem_write. rewrite (bind_at _ _ _ tt (World h n s)) by done. rewrite (bind_at _ _ _ tt (World h n s)) by by apply lab_enabled.
      rewrite (bind_at _ _ _ (fun a bs _ _ _ => s ← get_st; l ← defined bs; put_st (moved s (overwrite (lab_ram (below s)) a l) [])) (World h n s)) by done.
      rewrite (bind_at _ _ _ s (World h n s)) by done. rewrite (bind_at _ _ _ bs (World h n s)); [done|]. unfold defined. by rewrite mapM_id_Some.
    + intros x. unfold lab_ram at 1. unfold overwrite. destruct (_ && _); [|by apply Z.mod_mod].
      destruct (bs !! Z.to_nat (x - a)) as [v|] eqn:Hv; [|done]. apply (Forall_lookup_1 _ _ _ _ Hby) in Hv. by apply Z.mod_small.
  - intros r x. apply Z.mod_pos_bound. lia.
Qed.

Lemma lab_quiet {A} u (op : M lab A) (o : outcome A) : (forall w, op w = (o, w)) -> ends true o -> is_thread lab_tree u ->
  quietly lab_ram true (fun _ => True) (thread_guard lab_tree u;; op).
Proof.
  intros Hop Ho Hu h n s Hh _. unfold is_thread in Hu. unfold thread_guard, check_enabled.
  assert ((c_assert (pdbg_target_is_class lab_tree u "thread") : M lab unit) (World h n s) = (Ret tt, World h n s)) as E
    by (unfold pdbg_target_is_class; by rewrite Hu, bool_decide_eq_true_2).
  destruct (decide (t_status s u = PDBG_TARGET_ENABLED)) as [Hon|Hoff].
  - exists o, n, s. split; [|done]. rewrite (bind_at _ _ _ tt (World h n s)); [apply Hop|]. rewrite (bind_at _ _ _ _ _ E), (bind_at _ _ _ _ _ (status_at _ _ _ _)).
    by rewrite bool_decide_eq_true_2.
  - exists (Fail (-1)), n, s. split; [|done]. unfold mbind at 1, M_bind at 1. rewrite (bind_at _ _ _ _ _ E), (bind_at _ _ _ _ _ (status_at _ _ _ _)).
    by rewrite bool_decide_eq_false_2.
Qed.
#[local] Instance lab_threads : QuietThreads lab_tree lab_thread lab_ram.
Proof. split; intros; [apply (lab_quiet u (mret 0) (Ret 0))|apply (lab_quiet u (mret 0) (Ret 0))|apply (lab_quiet u (mret tt) (Ret tt))]; done. Qed.

Definition lab_start (l : list Z) : lab := Tgt (fun u => if Nat.eqb u 2 then PDBG_TARGET_DISABLED else PDBG_TARGET_ENABLED)
  (Chips (fun _ => ThreadVars 0 (ThreadState true true false false PDBG_THREAD_STATE_RUN PDBG_SMT_UNKNOWN) false false) (fun _ => false)
    (Gdb true (Some 1%nat) (Some 4%nat) 100000 5 IDLE 0 (l ++ replicate (MAX_BPS - length l) NO_ADDR) (replicate MAX_BPS (replicate 4 None)) (Z.of_nat (length l))
      (fun u => Some (GdbThread (Z.of_nat u + 16) false false false false false)) [1; 2; 3]%nat [] (fun x => x))) [].

Lemma lab_heap n : heap_ok ∅ n.
Proof. done. Qed.
Lemma lab_chosen l : chosen lab_tree (path_targets (server (lab_start l))).
Proof. split; [|by repeat constructor]. repeat constructor; set_solver. Qed.
Lemma lab_ready l : ready lab_tree (lab_start l).
Proof. split; [apply lab_chosen|]. apply Forall_forall. by eexists. Qed.

Definition lab_handlers : list (list word -> M lab unit) :=
  callbacks lab_tree 8 64 lab_thread (fun _ => Pib None None None None) lab_mem (fun _ _ => true) (fun _ => mret tt).
Definition lab_fed (bufs : list string) : outcome unit * world (parser * lab) :=
  feed send_ack send_nack (Some lab_handlers) (chars <$> bufs) (World ∅ 0 (parser_init parser0, lab_start [])).

Lemma is_number_dec l : negb (bool_decide (l = [])) && forallb xdigit l = true -> is_number l.
Proof.
  intros [H1 H2]%andb_true_iff. apply negb_true_iff, bool_decide_eq_false in H1. split; [done|].
  apply Forall_forall. intros c Hc. apply list_elem_of_In in Hc. by apply (proj1 (forallb_forall _ _) H2).
Qed.

Lemma memory_packets_witness :
  (exists n s, outside (lab_fed ["$m1"; "0,3#2d"]%string) = (Ret tt, World ∅ n s) /\
     sends_made (server s) = [(5, "$101112#26"); (5, "+")]%string) /\
  (exists n s, outside (lab_fed ["$M12,3:aABbCc#"; "35"]%string) = (Ret tt, World ∅ n s) /\
     sends_made (server s) = [(5, "$OK#9a"); (5, "+")]%string /\ mem_range (lab_ram (below s)) 16 7 = [16; 17; 0xaa; 0xbb; 0xcc; 21; 22]).
Proof.
  destruct (memory_packets lab_tree lab_thread lab_mem lab_ram 4 ltac:(done) 8 (fun _ => Pib None None None None) (fun _ _ => true) (fun _ => mret tt)
    (parser_init parser0) (lab_start []) ∅ 0 (lab_heap 0) eq_refl ltac:(by split)) as [Hread Hwrite]. split.
  - destruct (Hread (chars "10") (chars "3") 50 100 (chars <$> ["$m1"; "0,3#2d"]%string)) as (_ & d & tr & n & E & _);
      [by apply is_number_dec|by apply is_number_dec|done..|].
    eexists _, _. split; [exact E|reflexivity].
  - destruct (Hwrite (chars "12") (chars "3") [(97, 65); (66, 98); (67, 99)] 51 53 (chars <$> ["$M12,3:aABbCc#"; "35"]%string)) as (_ & d & tr & n & E & Hm);
      [split_and!; try done; [by apply is_number_dec|by apply is_number_dec|by repeat (apply Forall_cons; split; [done|])]|done..|].
    eexists _, _. split; [exact E|]. split; [reflexivity|]. etransitivity; [exact (mem_range_view _ _ 16 7 Hm)|reflexivity].
Defined.

Lemma threads_listed_witness : exists parts, concat parts = [1; 3]%nat /\
  exists s, (qf_threadinfo lab_tree [];; ask_again lab_tree (length parts)) (World ∅ 0 (lab_start [])) = (Ret tt, World ∅ 0 s).
Proof.
  destruct (threads_listed lab_tree [] (lab_start []) ∅ 0 (lab_chosen [])) as (parts & Hp & _ & E).
  - apply Forall_forall. intros u Hu _ _. eexists. split; [reflexivity|]. cbn. repeat (apply elem_of_cons in Hu as [->|Hu]; [lia|]). by apply elem_of_nil in Hu.
  - exists parts. split; [exact Hp|]. eexists. exact E.
Defined.

Definition lab_breaks : list Z := [0x1001; 0xC000000000001006].

Lemma lab_bps k b : bps (server (lab_start lab_breaks)) !! k = Some b -> b <> NO_ADDR -> k = 0%nat /\ b = 0x1001 \/ k = 1%nat /\ b = 0xC000000000001006.
Proof.
  intros Hk Hb. destruct k as [|[|k]]; cbn in Hk; [injection Hk as <-; by left|injection Hk as <-; by right|].
  change (replicate 62 NO_ADDR !! k = Some b) in Hk. apply lookup_replicate in Hk as [-> _]. done.
Qed.
Lemma lab_breaks_ok : Forall bp_ok (bps (server (lab_start lab_breaks))).
Proof.
  apply Forall_lookup_2. intros k b Hk. destruct (decide (b = NO_ADDR)) as [|Hb]; [by left|right].
  by destruct (lab_bps k b Hk Hb) as [[_ ->]|[_ ->]].
Qed.
Lemma lab_apart : apart (bps (server (lab_start lab_breaks))).
Proof.
  intros j k b c Hj Hk Hjk Hb Hc. destruct (lab_bps j b Hj Hb) as [[-> ->]|[-> ->]], (lab_bps k c Hk Hc) as [[-> ->]|[-> ->]]; try done.
  - by left.
  - by right.
Qed.
Lemma lab_saved : saved_ok (saved_insn (server (lab_start lab_breaks))).
Proof. split; [done|]. apply Forall_replicate. done. Qed.

Lemma breakpoints_transparent_witness : exists n1 s1,
  install_breakpoints lab_tree 64 lab_thread lab_mem (fun _ _ => true) (World ∅ 0 (lab_start lab_breaks)) = (Ret tt, World ∅ n1 s1) /\
  mem_range (lab_ram (below s1)) 0x1006 4 = [0; 0; 2; 0] /\
  exists n3 s3, uninstall_breakpoints lab_tree 64 lab_thread lab_mem (fun _ _ => true) (World ∅ n1 s1) = (Ret tt, World ∅ n3 s3) /\
    mem_range (lab_ram (below s3)) 0x1001 4 = [1; 2; 3; 4].
Proof.
  destruct (breakpoints_transparent lab_tree lab_thread lab_mem lab_ram 4 ltac:(done) (fun _ _ => true) ∅ 0 (lab_start lab_breaks) 1 0
    (World ∅ 0 (lab_start lab_breaks)) (lab_heap 0) ltac:(by split) (lab_ready _) lab_saved eq_refl lab_breaks_ok lab_apart ltac:(done) eq_refl eq_refl eq_refl)
    as (n1 & s1 & E1 & _ & Hs1 & Hr1 & Hin & Hout & Hun).
  pose proof (Hun ∅ n1 s1 (lab_heap n1) Hs1 Hr1 (conj eq_refl (conj eq_refl eq_refl))) as (n3 & s3 & E3 & _ & Hm).
  exists n1, s1. split; [exact E1|]. split.
  { assert (get_real_addr 0xC000000000001006 = 0x1006) as Hreal by reflexivity. rewrite <- Hreal.
    apply (Hin 0xC000000000001006); [|discriminate]. apply list_elem_of_lookup_2 with (i := 1%nat). reflexivity. }
  exists n3, s3. split; [exact E3|]. etransitivity; [exact (mem_range_view _ _ 0x1001 4 Hm)|reflexivity].
Defined.

(** A breakpoint that is set twice saves the attention instruction as its own original, and leaves it behind. *)
Example twice_set_stays :
  let w := ((install_breakpoints lab_tree 64 lab_thread lab_mem (fun _ _ => true);;
             uninstall_breakpoints lab_tree 64 lab_thread lab_mem (fun _ _ => true)) (World ∅ 0 (lab_start [0x1000; 0x1000]))).2 in
  mem_range (lab_ram (below (w_st w))) 0x1000 4 = attn_for 0.
Proof. vm_compute. reflexivity. Qed.

(** Where a [size_t] has 32 bits, a write above 4 GiB goes to the address without its upper half. *)
Example narrow_size_t : ALIGN_DOWN 32 0x200001000 8 = 0x1000.
Proof. reflexivity. Qed.

(** All errors are told as the letter [e]. *)
Example error_letter h n s : let w := (put_mem lab_tree 64 lab_mem [Num 0x50000000; Num 0; Num 0] (World h n s)).2 in
  sends_made (server (w_st w)) = (fd (server s), "$Ee#aa"%string) :: sends_made (server s).
Proof. reflexivity. Qed.
End Lab.
