(* ===== verification/Htm.v ===== *)
(** * libpdbg: the hardware trace macro

    Models libpdbg/htm.c: decoding the status of a nest or core trace unit, giving it memory, starting
    and stopping it, and writing the trace to a file. The files of debugfs, the file that is written, and
    what the system calls on them answer are an environment; a path below the memtrace directory is the
    index of the processor and the name of the file. Building the name of a file is taken to succeed. Words in
    memory are little-endian. *)

From Stdlib Require Import String.
From S2P Require Import Prelude CMem SbeBack Target Pib Adu Ram Thread Chip.

(** ** Registers of a unit *)

Definition HTM_COLLECTION_MODE : Z := 0.
Definition HTM_MODE_ENABLE : Z := PPC_BIT 0.
Definition HTM_MODE_CORE_TRACE_EN : Z := PPC_BIT 1.
Definition NHTM_MODE_CRESP_PRECISE : Z := PPC_BIT 6.
Definition HTM_MODE_WRAP : Z := PPC_BIT 13.
Definition HTM_MODE_DIS_TIMESTAMP : Z := PPC_BIT 14.
Definition HTM_MEMORY_CONF : Z := 1.
Definition HTM_MEM_ALLOC : Z := PPC_BIT 0.
Definition HTM_MEM_SIZE_SMALL : Z := PPC_BIT 13.
Definition HTM_MEM_SIZE_SMALL_P10 : Z := PPC_BIT 5.
Definition HTM_MEM_BASE : Z := PPC_BITMASK 14 39.
Definition HTM_MEM_BASE_P10 : Z := PPC_BITMASK 8 39.
Definition HTM_MEM_SIZE : Z := PPC_BITMASK 40 48.
Definition HTM_STATUS : Z := 2.
Definition HTM_STATUS_CRESP_OV : Z := PPC_BIT 2.
Definition HTM_STATUS_REPAIR : Z := PPC_BIT 3.
Definition HTM_STATUS_BUF_WAIT : Z := PPC_BIT 4.
Definition HTM_STATUS_TRIG_DROPPED : Z := PPC_BIT 5.
Definition HTM_STATUS_ADDR_ERROR : Z := PPC_BIT 6.
Definition HTM_STATUS_REC_DROPPED : Z := PPC_BIT 7.
Definition HTM_STATUS_INIT : Z := PPC_BIT 8.
Definition HTM_STATUS_PREREQ : Z := PPC_BIT 9.
Definition HTM_STATUS_READY : Z := PPC_BIT 10.
Definition HTM_STATUS_TRACING : Z := PPC_BIT 11.
Definition HTM_STATUS_PAUSED : Z := PPC_BIT 12.
Definition HTM_STATUS_FLUSH : Z := PPC_BIT 13.
Definition HTM_STATUS_COMPLETE : Z := PPC_BIT 14.
Definition HTM_STATUS_ENABLE : Z := PPC_BIT 15.
Definition HTM_STATUS_STAMP : Z := PPC_BIT 16.
Definition HTM_STATUS_SCOM_ERROR : Z := PPC_BIT 17.
Definition HTM_STATUS_PARITY_ERROR : Z := PPC_BIT 18.
Definition HTM_STATUS_INVALID_CRESP : Z := PPC_BIT 19.
Definition HTM_STATUS_STATE_MASK : Z := Z.lor (PPC_BITMASK 8 16) HTM_STATUS_REPAIR.
Definition HTM_STATUS_ERROR_MASK : Z := Z.lor (Z.lor HTM_STATUS_CRESP_OV (PPC_BITMASK 4 7)) (PPC_BITMASK 17 19).
Definition HTM2_STATUS_CRESP_OV : Z := PPC_BIT 22.
Definition HTM2_STATUS_REPAIR : Z := PPC_BIT 23.
Definition HTM2_STATUS_BUF_WAIT : Z := PPC_BIT 24.
Definition HTM2_STATUS_TRIG_DROPPED : Z := PPC_BIT 25.
Definition HTM2_STATUS_ADDR_ERROR : Z := PPC_BIT 26.
Definition HTM2_STATUS_REC_DROPPED : Z := PPC_BIT 27.
Definition HTM2_STATUS_INIT : Z := PPC_BIT 28.
Definition HTM2_STATUS_PREREQ : Z := PPC_BIT 29.
Definition HTM2_STATUS_READY : Z := PPC_BIT 30.
Definition HTM2_STATUS_TRACING : Z := PPC_BIT 31.
Definition HTM2_STATUS_PAUSED : Z := PPC_BIT 32.
Definition HTM2_STATUS_FLUSH : Z := PPC_BIT 33.
Definition HTM2_STATUS_COMPLETE : Z := PPC_BIT 34.
Definition HTM2_STATUS_ENABLE : Z := PPC_BIT 35.
Definition HTM2_STATUS_STAMP : Z := PPC_BIT 36.
Definition HTM2_STATUS_SCOM_ERROR : Z := PPC_BIT 37.
Definition HTM2_STATUS_PARITY_ERROR : Z := PPC_BIT 38.
Definition HTM2_STATUS_INVALID_CRESP : Z := PPC_BIT 39.
(** with the bits of the first unit, as the code has it *)
Definition HTM2_STATUS_STATE_MASK : Z := Z.lor (PPC_BITMASK 28 36) HTM_STATUS_REPAIR.
Definition HTM2_STATUS_ERROR_MASK : Z := Z.lor (Z.lor HTM_STATUS_CRESP_OV (PPC_BITMASK 24 27)) (PPC_BITMASK 37 39).
Definition HTM_LAST_ADDRESS : Z := 3.
Definition HTM2_LAST_ADDRESS : Z := 4.
Definition HTM_TRIG_START : Z := PPC_BIT 0.
Definition HTM_TRIG_STOP : Z := PPC_BIT 1.
Definition HTM_TRIG_RESET : Z := PPC_BIT 4.
Definition HTM_TRIG_MARK_VALID : Z := PPC_BIT 5.
Definition HTM_CTRL_XSTOP_STOP : Z := PPC_BIT 13.
Definition NHTM_FILTER_MASK : Z := PPC_BITMASK 32 54.
Definition NHTM_FILTER_CRESP_MASK : Z := PPC_BITMASK 59 63.
Definition NHTM_TTYPE_TYPE_MASK : Z := PPC_BITMASK 17 23.
Definition NHTM_TTYPE_SIZE_MASK : Z := PPC_BITMASK 24 31.
Definition NHTM_FLEX_MUX_MASK : Z := PPC_BITMASK 0 35.
Definition NHTM_FLEX_DEFAULT : Z := 0xCB3456129.
Definition NHTM_FLEX_MUX_MASK_P10 : Z := PPC_BITMASK 0 39.
Definition NHTM_FLEX_DEFAULT_P10 : Z := 0xCB34561567.
Definition NHTM_ADDR_PAT : Z := 0xb.
Definition NHTM_ADDR_MASK : Z := 0xc.
Definition NHTM_ADDR_MASK_MASK : Z := PPC_BITMASK 0 55.
Definition NHTM_STOP_FILTER : Z := 0xd.
Definition NHTM_STOP_FILTER_TTAG_MASK : Z := PPC_BITMASK 15 29.
Definition NHTM_STOP_FILTER_TTYPE_MASK : Z := PPC_BITMASK 37 43.
Definition NHTM_STOP_FILTER_CRESP_MASK : Z := PPC_BITMASK 49 53.
Definition NHTM_STOP_FILT_ADDR_PAT : Z := 0xe.
Definition NHTM_STOP_FILT_ADDR_MASK : Z := 0xf.
Definition NHTM_STOP_FILT_ADDR_MASK_MASK : Z := PPC_BITMASK 0 55.

(** ** Registers of a core *)

Definition HID0_REGISTER : Z := 0x1329C.
Definition HID0_TRACE_BITS : Z :=
  Z.lor (Z.lor (Z.lor (Z.lor (PPC_BIT 0) (PPC_BIT 1)) (PPC_BIT 4)) (PPC_BIT 17)) (PPC_BIT 23).
Definition HIDQ_REGISTER : Z := 0x20028415.
Definition HIDQ_ONE_PPC : Z := PPC_BIT 0.
Definition HIDQ_EN_INST_TRACE : Z := PPC_BIT 1.
Definition HIDQ_HILE : Z := PPC_BIT 4.
Definition HIDQ_DIS_PROC_REC : Z := PPC_BIT 5.
Definition CORE_FIR_PC_LOGIC : Z := PPC_BIT 45.
Definition CORE_FIR_AND : Z := 0x20028441.
Definition CORE_FIR_MASK : Z := 0x20028443.
Definition NCU_MODE_REGISTER : Z := 0x10C0A.
Definition NCU_MODE_HTM_ENABLE : Z := PPC_BIT 0.
Definition RAS_MODE_REG : Z := 0x1.
Definition MR_THREAD_IN_DEBUG : Z := PPC_BIT 43.

(** ** The status *)

Inductive htm_state :=
| INIT | REPAIR | PREREQ | READY | TRACING | PAUSED | FLUSH | COMPLETE | ENABLE | STAMP | UNINITIALIZED.
#[export] Instance htm_state_eq_dec : EqDecision htm_state.
Proof. solve_decision. Defined.

Inductive htm_error :=
| NONE | CRESP_OV | BUF_WAIT | TRIGGER_DROPPED | ADDR_ERROR | RECORD_DROPPED | SCOM_ERROR | PARITY_ERROR | INVALID_CRESP.
#[export] Instance htm_error_eq_dec : EqDecision htm_error.
Proof. solve_decision. Defined.

(** [None] where a member is set for the two units of a POWER10 nest only *)
Record htm_status := HtmStatus {
  state : htm_state;
  state2 : option htm_state;
  error : htm_error;
  error2 : option htm_error;
  mem_size_select : bool;
  mem_size : Z;
  mem_base : Z;
  mem_last : Z;
  mem_last2 : option Z;
  raw : Z
}.

(** [switch (v) { case bit: ... }] *)
Fixpoint switch {A} (v : Z) (cases : list (Z * A)) (other : A) : A :=
  match cases with
  | [] => other
  | (bit, a) :: cases' => if v =? bit then a else switch v cases' other
  end.

Definition error_of (raw : Z) : htm_error :=
  switch (Z.land raw HTM_STATUS_ERROR_MASK)
    [(HTM_STATUS_CRESP_OV, CRESP_OV); (HTM_STATUS_BUF_WAIT, BUF_WAIT); (HTM_STATUS_TRIG_DROPPED, TRIGGER_DROPPED);
     (HTM_STATUS_ADDR_ERROR, ADDR_ERROR); (HTM_STATUS_REC_DROPPED, RECORD_DROPPED); (HTM_STATUS_SCOM_ERROR, SCOM_ERROR);
     (HTM_STATUS_PARITY_ERROR, PARITY_ERROR); (HTM_STATUS_INVALID_CRESP, INVALID_CRESP)] NONE.
Definition error2_of (raw : Z) : htm_error :=
  switch (Z.land raw HTM2_STATUS_ERROR_MASK)
    [(HTM2_STATUS_CRESP_OV, CRESP_OV); (HTM2_STATUS_BUF_WAIT, BUF_WAIT); (HTM2_STATUS_TRIG_DROPPED, TRIGGER_DROPPED);
     (HTM2_STATUS_ADDR_ERROR, ADDR_ERROR); (HTM2_STATUS_REC_DROPPED, RECORD_DROPPED); (HTM2_STATUS_SCOM_ERROR, SCOM_ERROR);
     (HTM2_STATUS_PARITY_ERROR, PARITY_ERROR); (HTM2_STATUS_INVALID_CRESP, INVALID_CRESP)] NONE.
Definition state_of (raw : Z) : htm_state :=
  switch (Z.land raw HTM_STATUS_STATE_MASK)
    [(HTM_STATUS_REPAIR, REPAIR); (HTM_STATUS_INIT, INIT); (HTM_STATUS_PREREQ, PREREQ); (HTM_STATUS_READY, READY);
     (HTM_STATUS_TRACING, TRACING); (HTM_STATUS_PAUSED, PAUSED); (HTM_STATUS_FLUSH, FLUSH); (HTM_STATUS_COMPLETE, COMPLETE);
     (HTM_STATUS_ENABLE, ENABLE); (HTM_STATUS_STAMP, STAMP)] UNINITIALIZED.
Definition state2_of (raw : Z) : htm_state :=
  switch (Z.land raw HTM2_STATUS_STATE_MASK)
    [(HTM2_STATUS_REPAIR, REPAIR); (HTM2_STATUS_INIT, INIT); (HTM2_STATUS_PREREQ, PREREQ); (HTM2_STATUS_READY, READY);
     (HTM2_STATUS_TRACING, TRACING); (HTM2_STATUS_PAUSED, PAUSED); (HTM2_STATUS_FLUSH, FLUSH); (HTM2_STATUS_COMPLETE, COMPLETE);
     (HTM2_STATUS_ENABLE, ENABLE); (HTM2_STATUS_STAMP, STAMP)] UNINITIALIZED.

(** The loop of [htm_trace_size]; a [mem_size] of 16 bits is 0 after at most 16 rounds. *)
Fixpoint size_loop (fuel : nat) (size mem_size : Z) : Z :=
  match fuel with
  | O => size
  | S fuel' => if truthy mem_size then size_loop fuel' (u64 (Z.shiftl size 1)) (Z.shiftr mem_size 1) else size
  end.
Definition htm_trace_size (status : htm_status) : Z :=
  u64 (Z.shiftl (size_loop 17 (if mem_size_select status then 16 else 512) (mem_size status)) 20).

Definition htm_complete (status : htm_status) : bool := bool_decide (state status = COMPLETE).

(** ** Files *)

(** [access], [fopen] with [fscanf] of a number, [fprintf], [open], [read], [write] and [lseek]. A file below the
    memtrace directory is named by the index of its processor. [takes] is how much the k-th call of [read] or [write]
    moves, of what it is asked for and what is left, or -1. *)
Class TraceFiles (D : Type) := {
  memtrace_there : D -> bool;
  scom_there : D -> bool;
  enabled_size : D -> option (option Z);
  announce : Z -> D -> D * Z;
  scan_hex : Z -> string -> D -> option (option Z);
  trace_file : Z -> D -> option (list Z);
  can_create : string -> D -> bool;
  read_takes : nat -> Z -> Z -> Z;
  write_takes : nat -> Z -> Z;
  can_seek : nat -> Z -> bool
}.

(** What is printed for a status *)
Record report := Report {
  rep_state : string;
  rep_addr : Z;
  rep_size : Z;
  rep_amount : Z;
  rep_unit : string;
  rep_curr : Z
}.

(** [dual_htm_offset], the file that is read and the position in it, the files that are written, the
    position there, the number of calls, and what was printed *)
Record htms (D : Type) := Htms {
  dual_htm_offset : Z;
  trace_data : list Z;
  trace_pos : Z;
  files : string -> list Z;
  dump_pos : Z;
  calls : nat;
  printed : list report;
  htm_rest : D
}.
Arguments Htms {D}. Arguments dual_htm_offset {D}. Arguments trace_data {D}. Arguments trace_pos {D}. Arguments files {D}.
Arguments dump_pos {D}. Arguments calls {D}. Arguments printed {D}. Arguments htm_rest {D}.

(** Bytes written to a file at a position that is not behind its end *)
Definition write_at (pos : Z) (bs file : list Z) : list Z := take (Z.to_nat pos) file ++ bs ++ drop (Z.to_nat pos + length bs) file.

(** The members of [struct htm] beside the target; [None] is NULL. *)
Record htm_ops (D : Type) := HtmOps {
  ops_start : option (nat -> M (tgt (chips (htms D))) unit);
  ops_stop : option (nat -> M (tgt (chips (htms D))) unit);
  ops_record : option (nat -> string -> M (tgt (chips (htms D))) unit);
  ops_status : option (nat -> M (tgt (chips (htms D))) unit);
  ops_dump : option (nat -> string -> M (tgt (chips (htms D))) unit);
  configure : option (nat -> M (tgt (chips (htms D))) unit);
  deconfigure : option (nat -> M (tgt (chips (htms D))) unit);
  post_configure : option (nat -> M (tgt (chips (htms D))) unit);
  pre_deconfigure : option (nat -> M (tgt (chips (htms D))) unit)
}.
Arguments HtmOps {D}. Arguments ops_start {D}. Arguments ops_stop {D}. Arguments ops_record {D}. Arguments ops_status {D}. Arguments ops_dump {D}.
Arguments configure {D}. Arguments deconfigure {D}. Arguments post_configure {D}. Arguments pre_deconfigure {D}.

Section Htm.
Context {D : Type} {Hw : Hardware (chips (htms D))} {Fs : TraceFiles D} {Al : Allocator} (T : dtree) (fuel : nat).
Abbreviation m := (M (tgt (chips (htms D)))).
(** The two loops that wait for a state have no end of their own: [tries] bounds them. [compatible_with] answers
    [pdbg_target_compatible], [proc] is [pdbg_get_proc()] and [page_size] is [getpagesize()]. *)
Context (tries : nat) (compatible_with : nat -> string -> bool) (proc : pdbg_proc) (page_size : Z).

Definition get_htm : m (htms D) := s ← get_st; mret (chip_dev (t_dev s)).
Definition put_htm (g : htms D) : m unit :=
  s ← get_st; put_st (Tgt (t_status s) (Chips (thread_of (t_dev s)) (release_spwkup (t_dev s)) g) (t_trace s)).
Definition set_rest (d : D) (g : htms D) : htms D :=
  Htms (dual_htm_offset g) (trace_data g) (trace_pos g) (files g) (dump_pos g) (calls g) (printed g) d.
Definition set_offset (o : Z) (g : htms D) : htms D :=
  Htms o (trace_data g) (trace_pos g) (files g) (dump_pos g) (calls g) (printed g) (htm_rest g).
Definition set_trace (l : list Z) (pos : Z) (g : htms D) : htms D :=
  Htms (dual_htm_offset g) l pos (files g) (dump_pos g) (calls g) (printed g) (htm_rest g).
Definition set_dump (f : string -> list Z) (pos : Z) (g : htms D) : htms D :=
  Htms (dual_htm_offset g) (trace_data g) (trace_pos g) f pos (calls g) (printed g) (htm_rest g).
Definition count_call (g : htms D) : htms D :=
  Htms (dual_htm_offset g) (trace_data g) (trace_pos g) (files g) (dump_pos g) (S (calls g)) (printed g) (htm_rest g).
Definition add_report (r : report) (g : htms D) : htms D :=
  Htms (dual_htm_offset g) (trace_data g) (trace_pos g) (files g) (dump_pos g) (calls g) (printed g ++ [r]) (htm_rest g).

(** [if (HTM_ERR(op)) return -1;] *)
Definition htm_err {A} (op : m A) : m A := r ← attempt op; match r with inl _ => fail (-1) | inr a => mret a end.

Definition read_reg (t : nat) (r : Z) : m Z := htm_err (pib_read T fuel t r).
Definition write_reg (t : nat) (r v : Z) : m unit := htm_err (pib_write T fuel t r v).

(** Registers behind the second status of a POWER10 nest *)
Definition shifted (r : Z) : m Z := g ← get_htm; mret (r + dual_htm_offset g).
Definition HTM_SCOM_TRIGGER : m Z := shifted 4.
Definition HTM_TRIGGER_CONTROL : m Z := shifted 5.
Definition NHTM_FILTER_CONTROL : m Z := shifted 6.
Definition NHTM_TTYPE_FILTER_CONTROL : m Z := shifted 7.
Definition NHTM_FLEX_MUX : m Z := shifted 9.

Definition p10_nest (t : nat) : bool := compatible_with t "ibm,power10-nhtm".
Definition p10_core (t : nat) : bool := compatible_with t "ibm,power10-chtm".

(** The fields of the memory configuration that POWER10 moved *)
Definition small_field (t : nat) : Z := if p10_nest t then HTM_MEM_SIZE_SMALL_P10 else if p10_core t then HTM_MEM_SIZE_SMALL_P10 else HTM_MEM_SIZE_SMALL.
Definition base_field (t : nat) : Z := if p10_nest t then HTM_MEM_BASE_P10 else if p10_core t then HTM_MEM_BASE_P10 else HTM_MEM_BASE.

(** ** Status *)

Definition get_status (t : nat) : m htm_status :=
  raw ← read_reg t HTM_STATUS;
  val ← read_reg t HTM_MEMORY_CONF;
  last ← read_reg t HTM_LAST_ADDRESS;
  last2 ← (if p10_nest t then last2 ← read_reg t HTM2_LAST_ADDRESS; mret (Some last2) else mret None);
  mret (HtmStatus (state_of raw) (if p10_nest t then Some (state2_of raw) else None)
                  (error_of raw) (if p10_nest t then Some (error2_of raw) else None)
                  (truthy (Z.land val (small_field t))) (u16 (GETFIELD HTM_MEM_SIZE val)) (Z.land val (base_field t)) last last2 raw).

Definition startable_state (s : htm_state) : bool := bool_decide (s = READY) || bool_decide (s = PAUSED).
Definition is_startable (t : nat) (status : htm_status) : bool :=
  if p10_nest t then startable_state (state status) && match state2 status with Some s => startable_state s | None => false end
  else startable_state (state status).

(** ** The memory of a unit *)

Definition configure_debugfs_memtrace : m unit :=
  g ← get_htm;
  match enabled_size (htm_rest g) with
  | None => fail (-1)
  | Some None => fail (-1)
  | Some (Some memtrace_size) =>
      if memtrace_size =? 0 then
        let '(d, rc) := announce (Z.shiftl 1 30) (htm_rest g) in
        put_htm (set_rest d g);;
        if rc <=? 0 then fail (-1) else mret tt
      else mret tt
  end.

(** The index of the processor, for the name of a file *)
Definition get_debugfs_file (t : nat) : m Z :=
  pib ← pdbg_target_parent T fuel (Some "pib"%string) t;
  match pib with None => crash AssertFailed | Some pib => pdbg_target_index T fuel (Some pib) end.

Definition get_debugfs_number (t : nat) (file : string) : m Z :=
  index ← get_debugfs_file t;
  g ← get_htm;
  match scan_hex index file (htm_rest g) with
  | None => fail (-1)
  | Some None => fail 1
  | Some (Some v) => mret v
  end.
Definition get_trace_size (t : nat) : m Z := get_debugfs_number t "size".
Definition get_trace_base (t : nat) : m Z := get_debugfs_number t "start".

(** What is written for a trace memory, given the configuration [val] *)
Definition memory_conf (t : nat) (val size base : Z) : Z :=
  let val := Z.lor val HTM_MEM_ALLOC in
  let small := if size <? 512 * 1024 * 1024 then 1 else 0 in
  let val := SETFIELD (small_field t) val small in
  let shift := if truthy small then 24 else 29 in
  let mem_size := u64 (Z.shiftr size shift - 1) in
  let val := SETFIELD HTM_MEM_SIZE val mem_size in
  let val := SETFIELD (base_field t) val 0 in
  Z.lor val base.

Definition configure_memory (t : nat) : m unit :=
  size ← htm_err (get_trace_size t);
  base ← htm_err (get_trace_base t);
  val ← read_reg t HTM_MEMORY_CONF;
  write_reg t HTM_MEMORY_CONF (Z.land val (u64 (Z.lnot HTM_MEM_ALLOC)));;
  val ← read_reg t HTM_MEMORY_CONF;
  if size <? 16777216 then fail (-1) else
  if 274877906944 <? size then fail (-1) else
  write_reg t HTM_MEMORY_CONF (memory_conf t val size base);;
  trig ← HTM_SCOM_TRIGGER;
  write_reg t trig HTM_TRIG_RESET.

(** ** Configuration *)

Section Ops.
Context (target_to_htm : nat -> htm_ops D).

(** [if (htm->op && htm->op(htm) < 0) return -1;] *)
Definition or_skip (op : option (nat -> m unit)) (t : nat) : m unit :=
  match op with
  | None => mret tt
  | Some op => r ← attempt (op t); match r with inl rc => if rc <? 0 then fail (-1) else mret tt | inr _ => mret tt end
  end.

Definition configure_chtm (t : nat) (wrap : bool) : m unit :=
  if negb (pdbg_target_is_class T t "chtm") then mret tt else
  htm_err configure_debugfs_memtrace;;
  let val := if wrap then HTM_MODE_WRAP else 0 in
  write_reg t HTM_COLLECTION_MODE (Z.lor (Z.lor (Z.lor HTM_MODE_ENABLE HTM_MODE_DIS_TIMESTAMP) HTM_MODE_CORE_TRACE_EN) val);;
  or_skip (configure (target_to_htm t)) t.

Definition core_of (t : nat) : m nat := require_target_parent T fuel (Some "core"%string) t true.

Definition do_configure_chtm_p10 (t : nat) : m unit :=
  if p10_core t then
    core ← core_of t;
    mask ← read_reg core CORE_FIR_MASK;
    write_reg core CORE_FIR_MASK (Z.lor mask CORE_FIR_PC_LOGIC)
  else mret tt.

Definition do_configure_chtm_p8 (t : nat) : m unit :=
  core ← core_of t;
  hid0 ← read_reg core HID0_REGISTER;
  write_reg core HID0_REGISTER (Z.lor hid0 HID0_TRACE_BITS);;
  ncu ← read_reg core NCU_MODE_REGISTER;
  write_reg core NCU_MODE_REGISTER (Z.lor ncu NCU_MODE_HTM_ENABLE).

Definition deconfigure_chtm (t : nat) : m unit :=
  if negb (pdbg_target_is_class T t "chtm") then mret tt else
  or_skip (deconfigure (target_to_htm t)) t;;
  write_reg t HTM_COLLECTION_MODE 0.

Definition do_deconfigure_chtm_p10 (t : nat) : m unit :=
  core ← core_of t;
  write_reg core CORE_FIR_AND (u64 (Z.lnot CORE_FIR_PC_LOGIC));;
  mask ← read_reg core CORE_FIR_MASK;
  write_reg core CORE_FIR_MASK (Z.land mask (u64 (Z.lnot CORE_FIR_PC_LOGIC))).

Definition do_deconfigure_chtm_p8 (t : nat) : m unit :=
  core ← core_of t;
  ncu ← read_reg core NCU_MODE_REGISTER;
  write_reg core NCU_MODE_REGISTER (Z.land ncu (u64 (Z.lnot NCU_MODE_HTM_ENABLE)));;
  hid0 ← read_reg core HID0_REGISTER;
  write_reg core HID0_REGISTER (Z.land hid0 (u64 (Z.lnot HID0_TRACE_BITS))).

Definition flex_default (t : nat) (mask value : Z) : m unit :=
  mux ← NHTM_FLEX_MUX;
  val ← read_reg t mux;
  if negb (GETFIELD mask val =? value) then fail (-1) else mret tt.

Definition configure_nhtm (t : nat) (wrap : bool) : m unit :=
  if negb (pdbg_target_is_class T t "nhtm") then mret tt else
  htm_err configure_debugfs_memtrace;;
  let val := if wrap then HTM_MODE_WRAP else 0 in
  write_reg t HTM_COLLECTION_MODE (Z.lor (Z.lor (Z.lor HTM_MODE_ENABLE NHTM_MODE_CRESP_PRECISE) val) 0xFFFF000000);;
  ctrl ← HTM_TRIGGER_CONTROL;
  write_reg t ctrl HTM_CTRL_XSTOP_STOP;;
  filter ← NHTM_FILTER_CONTROL;
  write_reg t filter (Z.lor NHTM_FILTER_MASK NHTM_FILTER_CRESP_MASK);;
  ttype ← NHTM_TTYPE_FILTER_CONTROL;
  write_reg t ttype (Z.lor NHTM_TTYPE_TYPE_MASK NHTM_TTYPE_SIZE_MASK);;
  (if compatible_with t "ibm,power9-nhtm" then flex_default t NHTM_FLEX_MUX_MASK NHTM_FLEX_DEFAULT else mret tt);;
  if p10_nest t then
    flex_default t NHTM_FLEX_MUX_MASK_P10 NHTM_FLEX_DEFAULT_P10;;
    write_reg t NHTM_ADDR_PAT 0;;
    write_reg t NHTM_ADDR_MASK NHTM_ADDR_MASK_MASK;;
    write_reg t NHTM_STOP_FILTER (Z.lor (Z.lor NHTM_STOP_FILTER_TTAG_MASK NHTM_STOP_FILTER_TTYPE_MASK) NHTM_STOP_FILTER_CRESP_MASK);;
    write_reg t NHTM_STOP_FILT_ADDR_PAT 0;;
    write_reg t NHTM_STOP_FILT_ADDR_MASK NHTM_STOP_FILT_ADDR_MASK_MASK
  else mret tt.

Definition deconfigure_nhtm (t : nat) : m unit := if negb (pdbg_target_is_class T t "nhtm") then mret tt else mret tt.

(** ** Starting and stopping *)

Definition do_htm_reset (t : nat) (wrap : bool) : m unit :=
  htm_err (get_status t);;
  htm_err (configure_nhtm t wrap);;
  htm_err (configure_chtm t wrap);;
  htm_err (configure_memory t).

(** The bit is set and taken back in the first thread of the core; what is read is not looked at. *)
Definition do_post_configure_chtm_p8 (t : nat) : m unit :=
  core ← pdbg_target_parent T fuel (Some "core"%string) t;
  match core with
  | None => mret tt
  | Some core =>
      for_each_target T fuel "thread" core (fun u =>
        index ← pdbg_target_index T fuel (Some u);
        if index =? 0 then
          reg ← read_into None (pib_read T fuel u RAS_MODE_REG);
          reg ← value_of reg;
          unchecked (pib_write T fuel u RAS_MODE_REG (Z.lor reg MR_THREAD_IN_DEBUG));;
          unchecked (pib_write T fuel u RAS_MODE_REG reg)
        else mret tt)
  end.

Definition do_post_configure_chtm_p10 (t : nat) : m unit :=
  core ← core_of t;
  read_reg core HIDQ_REGISTER;;
  let hid0 := Z.lor (Z.lor HIDQ_ONE_PPC HIDQ_DIS_PROC_REC) HIDQ_HILE in
  write_reg core HIDQ_REGISTER hid0;;
  write_reg core HIDQ_REGISTER (Z.lor hid0 HIDQ_EN_INST_TRACE).

Definition do_pre_deconfigure_chtm_p10 (t : nat) : m unit :=
  core ← core_of t;
  write_reg core HIDQ_REGISTER (Z.lor HIDQ_DIS_PROC_REC HIDQ_HILE).

(** [while (1) { get_status; if (...) break; }] *)
Fixpoint wait_for (n : nat) (t : nat) (done : htm_status -> bool) : m unit :=
  match n with
  | O => crash NoFuel
  | S n' => status ← htm_err (get_status t); if done status then mret tt else wait_for n' t done
  end.

(** [fail (-1)] is [return -1], and returning [tt] is [return 1] in these. *)
Definition __do_htm_start (t : nat) (wrap : bool) : m unit :=
  htm_err (do_htm_reset t wrap);;
  status ← htm_err (get_status t);
  if negb (is_startable t status) then fail (-1) else
  trig ← HTM_SCOM_TRIGGER;
  write_reg t trig HTM_TRIG_MARK_VALID;;
  write_reg t trig HTM_TRIG_START;;
  wait_for tries t (fun status => bool_decide (state status = TRACING));;
  match post_configure (target_to_htm t) with
  | None => mret tt
  | Some op => htm_err (op t)
  end.
Definition do_htm_start (t : nat) : m unit := __do_htm_start t true.

Definition do_htm_stop (t : nat) : m unit :=
  attempt (get_status t);;
  status ← htm_err (get_status t);
  if bool_decide (state status = UNINITIALIZED) then fail (-1) else
  or_skip (pre_deconfigure (target_to_htm t)) t;;
  (if bool_decide (state status = TRACING) then trig ← HTM_SCOM_TRIGGER; write_reg t trig HTM_TRIG_STOP else mret tt);;
  htm_err (deconfigure_chtm t);;
  htm_err (deconfigure_nhtm t).

Definition htm_wait_complete (t : nat) : m unit := wait_for tries t htm_complete.

(** ** Reporting *)

(** The name of the state; [REPAIR] has none of its own. *)
Definition state_name (s : htm_state) : string :=
  match s with
  | INIT => "INIT" | PREREQ => "PREREQ" | READY => "READY" | TRACING => "TRACING" | PAUSED => "PAUSED" | FLUSH => "FLUSH"
  | COMPLETE => "COMPLETE" | ENABLE => "ENABLE" | STAMP => "STAMP" | _ => "UNINITIALIZED"
  end.

Fixpoint dump_regs (n : nat) (t : nat) (i : Z) : m unit :=
  match n with
  | O => mret tt
  | S n' => attempt (pib_read T fuel t i);; dump_regs n' t (i + 1)
  end.

Definition do_htm_status (t : nat) : m unit :=
  dump_regs (if compatible_with t "ibm,power9-nhtm" then 10 else 9) t 0;;
  status ← htm_err (get_status t);
  let total := htm_trace_size status in
  g ← get_htm;
  put_htm (add_report (Report (state_name (state status)) (mem_base status) total
    (if 0x20000000 <=? total then Z.shiftr total 30 else Z.shiftr total 20) (if 0x20000000 <=? total then "GB" else "MB")
    (mem_last status)) g).

(** ** Writing the trace to a file *)

(** [read(input, buf, n)]: the bytes that are moved to [buf] *)
Definition read_trace (buf : ptr) (n : Z) : m (option Z) :=
  g ← get_htm;
  let left := drop (Z.to_nat (trace_pos g)) (trace_data g) in
  let r := read_takes (D := D) (calls g) n (Z.of_nat (length left)) in
  put_htm (set_trace (trace_data g) (trace_pos g + Z.max 0 r) (count_call g));;
  if r <? 0 then mret None else
  store_bytes buf (Some <$> take (Z.to_nat r) left);;
  mret (Some r).

(** [write(output, buf, n) != n] *)
Definition write_dump (filename : string) (buf : ptr) (n : Z) : m bool :=
  bs ← load_bytes buf n;
  bs ← defined bs;
  g ← get_htm;
  let r := write_takes (D := D) (calls g) n in
  let bs := take (Z.to_nat r) bs in
  put_htm (set_dump (fun f => if String.eqb f filename then write_at (dump_pos g) bs (files g f) else files g f) (dump_pos g + Z.max 0 r) (count_call g));;
  mret (negb (r =? n)).

Definition seek_trace (pos : Z) : m bool :=
  g ← get_htm;
  let ok := can_seek (D := D) (calls g) pos in
  put_htm (set_trace (trace_data g) (if ok then pos else trace_pos g) (count_call g));;
  mret ok.

(** The loop copies at least a byte a round. *)
Fixpoint copy_loop (n : nat) (filename : string) (buf : ptr) (size : Z) : m unit :=
  match n with
  | O => crash NoFuel
  | S n' =>
      if truthy size then
        r ← read_trace buf (if page_size <? size then page_size else size);
        match r with
        | None => free buf;; fail (-1)
        | Some r =>
            if r =? 0 then free buf;; fail (-1) else
            short ← write_dump filename buf r;
            if short : bool then free buf;; fail (-1) else copy_loop n' filename buf (u64 (size - r))
        end
      else mret tt
  end.

Definition copy_file (filename : string) (size : Z) : m unit :=
  buf ← malloc page_size;
  if is_null buf then fail (-1) else copy_loop (S (Z.to_nat size)) filename buf size.

(** [eyecatcher] after [r] of its bytes were read; [junk] is what it was before. *)
Definition eyecatcher_of (junk : Z) (bs : list Z) : Z := le_val (bs ++ drop (length bs) (le_bytes 8 junk)).

Definition read_eyecatcher (junk n : Z) : m (option Z) :=
  g ← get_htm;
  let left := drop (Z.to_nat (trace_pos g)) (trace_data g) in
  let r := read_takes (D := D) (calls g) n (Z.of_nat (length left)) in
  put_htm (set_trace (trace_data g) (trace_pos g + Z.max 0 r) (count_call g));;
  mret (if r <? 0 then None else Some (eyecatcher_of junk (take (Z.to_nat r) left))).

Definition do_htm_dump (junk : Z) (t : nat) (filename : string) : m unit :=
  status ← htm_err (get_status t);
  if negb (bool_decide (state status = COMPLETE)) then fail (-1) else
  if p10_nest t && negb (bool_decide (state2 status = Some COMPLETE)) then fail (-1) else
  index ← get_debugfs_file t;
  g ← get_htm;
  match trace_file index (htm_rest g) with
  | None => fail (-1)
  | Some bytes =>
      put_htm (set_trace bytes 0 g);;
      r ← (if p10_nest t || p10_core t then seek_trace 8;; read_eyecatcher junk 8 else read_eyecatcher junk 4);
      match r with
      | None => fail (-1)
      | Some eyecatcher =>
          let wrapped := negb (eyecatcher =? 0x00f0efac) in
          let last := u64 (mem_last status - mem_base status) in
          let last2 := match mem_last2 status with Some l => u64 (l - mem_base status) | None => 0 end in
          let fin := htm_trace_size status in
          g ← get_htm;
          if negb (can_create filename (htm_rest g)) then fail (-1) else
          put_htm (set_dump (files g) 0 g);;
          (if wrapped then
             ok ← seek_trace last;
             if negb ok then fail (-1) else copy_file filename (u64 (fin - last))
           else mret tt);;
          ok ← seek_trace 0;
          if negb ok then fail (-1) else copy_file filename (if last <? last2 then last2 else last)
      end
  end.

Definition do_htm_record (junk : Z) (t : nat) (filename : string) : m unit :=
  htm_err (__do_htm_start t false);;
  htm_err (htm_wait_complete t);;
  htm_err (do_htm_stop t);;
  htm_err (do_htm_dump junk t filename).

(** ** The public functions *)

Definition check_and_convert (t : nat) : m (option (htm_ops D)) :=
  if negb (pdbg_target_is_class T t "nhtm") && negb (pdbg_target_is_class T t "chtm") then mret None else
  status ← pdbg_target_status_of t;
  mret (if bool_decide (status = PDBG_TARGET_ENABLED) then Some (target_to_htm t) else None).

Definition call_op {A} (t : nat) (op : htm_ops D -> option A) (k : A -> m unit) : m unit :=
  htm ← check_and_convert t;
  match htm with
  | None => fail (-1)
  | Some htm => match op htm with None => fail (-1) | Some f => k f end
  end.
Definition htm_start (t : nat) : m unit := call_op t ops_start (fun f => f t).
Definition htm_stop (t : nat) : m unit := call_op t ops_stop (fun f => f t).
Definition htm_status_of (t : nat) : m unit := call_op t ops_status (fun f => f t).
(** [filename] may be NULL. *)
Definition with_filename (filename : option string) (op : string -> m unit) : m unit :=
  match filename with None => fail (-1) | Some f => op f end.
Definition htm_dump (t : nat) (filename : option string) : m unit := with_filename filename (fun file => call_op t ops_dump (fun f => f t file)).
Definition htm_record (t : nat) (filename : option string) : m unit := with_filename filename (fun file => call_op t ops_record (fun f => f t file)).
End Ops.

(** ** Probing, and the units *)

Definition is_debugfs_ok : m bool := g ← get_htm; mret (memtrace_there (htm_rest g) && scom_there (htm_rest g)).

(** The result of reading the multiplexer is not looked at. *)
Definition nhtm_probe (t : nat) : m unit :=
  ok ← is_debugfs_ok;
  if negb ok then fail (-1) else
  (if compatible_with t "ibm,power9-nhtm" then
     mux ← NHTM_FLEX_MUX;
     val ← read_into None (pib_read T fuel t mux);
     val ← value_of val;
     if negb (GETFIELD NHTM_FLEX_MUX_MASK val =? NHTM_FLEX_DEFAULT) then fail (-1) else mret tt
   else mret tt);;
  match proc with PDBG_PROC_P10 => g ← get_htm; put_htm (set_offset 1 g) | _ => mret tt end.
Definition chtm_probe (t : nat) : m unit := ok ← is_debugfs_ok; if ok : bool then mret tt else fail (-1).

Definition htm_unit (units : nat -> htm_ops D) (junk : Z) (conf deconf post pre : option (nat -> m unit)) : htm_ops D :=
  HtmOps (Some (do_htm_start units)) (Some (do_htm_stop units)) (Some (do_htm_record units junk)) (Some do_htm_status) (Some (do_htm_dump junk))
    conf deconf post pre.
Definition p8_nhtm (units : nat -> htm_ops D) (junk : Z) : htm_ops D := htm_unit units junk None None None None.
Definition p9_nhtm (units : nat -> htm_ops D) (junk : Z) : htm_ops D := htm_unit units junk None None None None.
Definition p10_nhtm (units : nat -> htm_ops D) (junk : Z) : htm_ops D := htm_unit units junk None None None None.
Definition p8_chtm (units : nat -> htm_ops D) (junk : Z) : htm_ops D :=
  htm_unit units junk (Some do_configure_chtm_p8) (Some do_deconfigure_chtm_p8) (Some do_post_configure_chtm_p8) None.
Definition p10_chtm (units : nat -> htm_ops D) (junk : Z) : htm_ops D :=
  htm_unit units junk (Some do_configure_chtm_p10) (Some do_deconfigure_chtm_p10) (Some do_post_configure_chtm_p10) (Some do_pre_deconfigure_chtm_p10).
End Htm.
