(* ===== verification/HtmTheorems.v ===== *)
(** * libpdbg: the hardware trace macro, what is shown

    The status and the memory configuration as bits; writing the trace to a file with any reads; what a
    trace unit promises, and a trace from its start to the file, for the units of a nest. *)

From Stdlib Require Import String.
From S2P Require Import Prelude CMem SbeBack Target Pib TargetFacts Adu AduTheorems Ram Thread Chip Htm.

(** ** Fields of a register *)

Lemma setfield_same m v x : Z.land (SETFIELD m v x) m = Z.land (u64 (Z.shiftl (u64 x) (MASK_TO_LSH m))) m.
Proof.
  unfold SETFIELD. apply Z.bits_inj'. intros i Hi. rewrite !Z.land_spec, Z.lor_spec, !Z.land_spec, Z.lnot_spec by done.
  destruct (Z.testbit v i), (Z.testbit m i), (Z.testbit (u64 _) i); done.
Qed.
Lemma setfield_other m m' v x : Z.land m m' = 0 -> Z.land (SETFIELD m v x) m' = Z.land v m'.
Proof.
  intros H. unfold SETFIELD. apply Z.bits_inj'. intros i Hi. rewrite !Z.land_spec, Z.lor_spec, !Z.land_spec, Z.lnot_spec by done.
  assert (Z.testbit m i && Z.testbit m' i = false) as Hb by (rewrite <- Z.land_spec, H; apply Z.bits_0).
  destruct (Z.testbit v i), (Z.testbit m i), (Z.testbit m' i), (Z.testbit (u64 _) i); done.
Qed.
Lemma land_lor_l a b m : Z.land (Z.lor a b) m = Z.lor (Z.land a m) (Z.land b m).
Proof.
  apply Z.bits_inj'. intros i Hi. rewrite !Z.land_spec, !Z.lor_spec, !Z.land_spec. destruct (Z.testbit a i), (Z.testbit b i), (Z.testbit m i); done.
Qed.
Lemma land_sub x m m' : Z.land x m = x -> Z.land m m' = 0 -> Z.land x m' = 0.
Proof. intros H1 H2. by rewrite <- H1, <- Z.land_assoc, H2, Z.land_0_r. Qed.

(** ** The memory of a unit *)

(** The unit of a size: 16 MiB below 512 MiB *)
Definition small (size : Z) : bool := size <? 2 ^ 29.
Definition unit_shift (size : Z) : Z := if small size then 24 else 29.

Section Conf.
Context (compatible_with : nat -> string -> bool) (t : nat).
Abbreviation small_field := (small_field compatible_with t).
Abbreviation base_field := (base_field compatible_with t).
Abbreviation memory_conf := (memory_conf compatible_with t).

(** The fields do not overlap. *)
Lemma fields_apart : Z.land small_field HTM_MEM_SIZE = 0 /\ Z.land small_field base_field = 0 /\ Z.land HTM_MEM_SIZE base_field = 0 /\
  Z.land small_field HTM_MEM_ALLOC = 0 /\ Z.land HTM_MEM_SIZE HTM_MEM_ALLOC = 0 /\ Z.land base_field HTM_MEM_ALLOC = 0.
Proof. unfold Htm.small_field, Htm.base_field. destruct (p10_nest compatible_with t), (p10_core compatible_with t); by vm_compute. Qed.

Context (val size base : Z) (Hsize : 2 ^ 24 <= size <= 2 ^ 38) (Hbase : Z.land base base_field = base).

Lemma conf_small : truthy (Z.land (memory_conf val size base) small_field) = small size.
Proof.
  destruct fields_apart as (H1 & H2 & H3 & _). unfold Htm.memory_conf. cbv zeta. rewrite land_lor_l.
  rewrite (land_sub base base_field) by (done || by rewrite Z.land_comm). rewrite Z.lor_0_r.
  rewrite setfield_other by (by rewrite Z.land_comm). rewrite setfield_other by (by rewrite Z.land_comm). rewrite setfield_same.
  change (512 * 1024 * 1024) with (2 ^ 29). fold (small size). unfold Htm.small_field.
  destruct (small size), (p10_nest compatible_with t), (p10_core compatible_with t); by vm_compute.
Qed.
Lemma conf_base : Z.land (memory_conf val size base) base_field = base.
Proof.
  unfold Htm.memory_conf. cbv zeta. rewrite land_lor_l, setfield_same. by rewrite Z.shiftl_0_l, Z.land_0_l, Hbase.
Qed.
Lemma conf_alloc : Z.land (memory_conf val size base) HTM_MEM_ALLOC = HTM_MEM_ALLOC.
Proof.
  destruct fields_apart as (_ & _ & _ & H4 & H5 & H6). unfold Htm.memory_conf. cbv zeta. rewrite land_lor_l.
  rewrite (land_sub base base_field) by done. rewrite Z.lor_0_r, !setfield_other, land_lor_l by done. rewrite Z.land_diag.
  apply Z.bits_inj'. intros i Hi. rewrite Z.lor_spec, Z.land_spec. by destruct (Z.testbit val i), (Z.testbit HTM_MEM_ALLOC i).
Qed.

Lemma units_range : 1 <= size / 2 ^ unit_shift size <= 512.
Proof.
  unfold unit_shift, small. destruct (Z.ltb_spec size (2 ^ 29)); cbv iota; (split; [apply Z.div_le_lower_bound|apply Z.div_le_upper_bound]; lia).
Qed.
Lemma conf_size : GETFIELD HTM_MEM_SIZE (memory_conf val size base) = size / 2 ^ unit_shift size - 1.
Proof.
  destruct fields_apart as (_ & _ & H3 & _). pose proof units_range as Hr. unfold GETFIELD, Htm.memory_conf. cbv zeta. rewrite land_lor_l.
  rewrite (land_sub base base_field) by (done || by rewrite Z.land_comm). rewrite Z.lor_0_r, setfield_other by (by rewrite Z.land_comm). rewrite setfield_same.
  change (512 * 1024 * 1024) with (2 ^ 29). fold (small size).
  replace (if truthy (if small size then 1 else 0) then 24 else 29) with (unit_shift size) by (unfold unit_shift; by destruct (small size)).
  rewrite (Z.shiftr_div_pow2 size) by (unfold unit_shift; by destruct (small size)).
  change (MASK_TO_LSH HTM_MEM_SIZE) with 15. set (k := size / 2 ^ unit_shift size - 1) in *.
  rewrite !(wrap_small 64 k) by (unfold in_range; lia). rewrite Z.shiftl_mul_pow2 by lia. rewrite wrap_small by (unfold in_range; lia).
  change HTM_MEM_SIZE with (Z.shiftl (Z.ones 9) 15). rewrite land_ones_shift by lia.
  rewrite Z.shiftr_div_pow2 by lia. rewrite !Z.div_mul by lia. apply Z.mod_small. lia.
Qed.
End Conf.

Lemma size_loop_ok f s k m : 0 < s -> 0 <= m < 2 ^ Z.of_nat k -> (k < f)%nat -> s * 2 ^ Z.of_nat k < 2 ^ 64 ->
  size_loop f s m = s * 2 ^ (if m =? 0 then 0 else Z.log2 m + 1).
Proof.
  revert s k m. induction f as [|f IH]; intros s k m Hs Hm Hk Hb; [lia|]. cbn [size_loop]. unfold truthy.
  destruct (Z.eqb_spec m 0) as [->|Hne]; [cbn; lia|]. cbn [negb].
  destruct k as [|k]; [cbn in Hm; lia|]. rewrite Nat2Z.inj_succ, Z.pow_succ_r in Hm, Hb by lia.
  pose proof (Z.pow_pos_nonneg 2 (Z.of_nat k) ltac:(lia) ltac:(lia)).
  rewrite Z.shiftl_mul_pow2, Z.shiftr_div_pow2 by lia. change (2 ^ 1) with 2.
  rewrite (wrap_small 64) by (unfold in_range; nia).
  rewrite (IH _ k); [|lia|Z.to_euclidean_division_equations; lia|lia|lia].
  destruct (Z.eqb_spec (m / 2) 0) as [E|E].
  - assert (m = 1) as -> by (Z.to_euclidean_division_equations; lia). cbn. lia.
  - assert (Z.log2 m = Z.log2 (m / 2) + 1) as ->.
    { replace (m / 2) with (Z.shiftr m 1) by (rewrite Z.shiftr_div_pow2; [done|lia]). rewrite Z.log2_shiftr by lia.
      pose proof (Z.log2_pos m ltac:(Z.to_euclidean_division_equations; lia)). lia. }
    pose proof (Z.log2_nonneg (m / 2)). rewrite (Z.pow_add_r 2 (Z.log2 (m / 2) + 1) 1) by lia. lia.
Qed.

(** The size that the code takes a trace memory of [size] bytes to have: the least power of two of units that is
    not below the number of whole units *)
Definition rounded (size : Z) : Z := 2 ^ Z.log2_up (size / 2 ^ unit_shift size) * 2 ^ unit_shift size.

Lemma bits_below n : 1 <= n -> (if n - 1 =? 0 then 0 else Z.log2 (n - 1) + 1) = Z.log2_up n.
Proof.
  intros Hn. destruct (Z.eqb_spec (n - 1) 0) as [E|E]; [by replace n with 1 by lia|].
  unfold Z.log2_up. destruct (Z.compare_spec 1 n); [lia| |lia]. by rewrite Z.sub_1_r.
Qed.

Lemma trace_size_ok size st : 2 ^ 24 <= size <= 2 ^ 38 -> mem_size_select st = small size -> mem_size st = size / 2 ^ unit_shift size - 1 ->
  htm_trace_size st = rounded size.
Proof.
  intros Hs H1 H2. pose proof (units_range size Hs) as Hr. unfold htm_trace_size, rounded. rewrite H1, H2.
  set (n := size / 2 ^ unit_shift size) in *.
  rewrite (size_loop_ok _ _ 9); [|by destruct (small size)|lia|lia|by destruct (small size)].
  rewrite bits_below by lia. assert (0 <= Z.log2_up n <= 9).
  { split; [apply Z.log2_up_nonneg|]. transitivity (Z.log2_up 512); [apply Z.log2_up_le_mono; lia|done]. }
  assert (1 <= 2 ^ Z.log2_up n <= 2 ^ 9) by (split; [apply Z.pow_le_mono_r with (b := 0); lia|apply Z.pow_le_mono_r; lia]).
  rewrite Z.shiftl_mul_pow2 by lia. unfold unit_shift. rewrite wrap_small; destruct (small size); unfold in_range; lia.
Qed.

Lemma rounded_power k : 24 <= k <= 38 -> rounded (2 ^ k) = 2 ^ k.
Proof.
  intros Hk. unfold rounded, unit_shift, small. destruct (Z.ltb_spec (2 ^ k) (2 ^ 29)) as [H|H].
  - rewrite <- Z.pow_sub_r by lia. rewrite Z.log2_up_pow2 by lia. rewrite <- Z.pow_add_r by lia. f_equal. lia.
  - apply Z.pow_le_mono_r_iff in H; [|lia|lia]. rewrite <- Z.pow_sub_r by lia. rewrite Z.log2_up_pow2 by lia.
    rewrite <- Z.pow_add_r by lia. f_equal. lia.
Qed.

(** ** Writing the trace to a file *)

Lemma write_at_app pos a b (file : list Z) : (pos <= length file)%nat ->
  write_at (Z.of_nat (pos + length a)) b (write_at (Z.of_nat pos) a file) = write_at (Z.of_nat pos) (a ++ b) file.
Proof.
  intros Hp. unfold write_at. rewrite !Nat2Z.id.
  assert (length (take pos file ++ a) = pos + length a)%nat as El by (rewrite length_app, length_take; lia).
  rewrite (app_assoc (take pos file) a (drop _ file)). rewrite <- El. rewrite take_app_length.
  rewrite drop_app_ge by lia. rewrite El, drop_drop, length_app, <- !app_assoc. do 4 f_equal. lia.
Qed.
Lemma length_write_at pos bs (file : list Z) : (pos <= length file)%nat -> (pos + length bs <= length (write_at (Z.of_nat pos) bs file))%nat.
Proof. intros Hp. unfold write_at. rewrite Nat2Z.id, !length_app, length_take. lia. Qed.


(** ** The state of the trace units *)

Section Traces.
Context {D : Type} {Hw : Hardware (chips (htms D))} {Fs : TraceFiles D} {Al : Allocator} (T : dtree) (fuel : nat).
Abbreviation state := (tgt (chips (htms D))).
Abbreviation m := (M state).
Implicit Types (g : htms D) (s : state).

Definition htm_of (s : state) : htms D := chip_dev (t_dev s).
Definition with_htm (g : htms D) (s : state) : state := Tgt (t_status s) (Chips (thread_of (t_dev s)) (release_spwkup (t_dev s)) g) (t_trace s).

Lemma with_htm_twice g g' s : with_htm g (with_htm g' s) = with_htm g s.
Proof. done. Qed.
Lemma get_htm_at h n s : get_htm (World h n s) = (Ret (htm_of s), World h n s).
Proof. done. Qed.
Lemma put_htm_at g h n s : put_htm g (World h n s) = (Ret tt, World h n (with_htm g s)).
Proof. done. Qed.
Lemma bind_ext {A B} (op : m A) (f k : A -> m B) w : (forall a w', f a w' = k a w') -> (op ≫= f) w = (op ≫= k) w.
Proof. intros H. unfold mbind, M_bind. by destruct (op w) as [[]]. Qed.
Lemma htm_err_ok {A} (op : m A) a w w' : op w = (Ret a, w') -> htm_err op w = (Ret a, w').
Proof. intros H. unfold htm_err. rewrite (bind_at _ _ _ (inr a) w'); [done|]. unfold attempt. by rewrite H. Qed.

(** Reads and writes of the host that do not fail: a read brings at least a byte and may be short, a write is whole. *)
Class HostFiles : Prop := {
  reads_some k n left : 0 < n -> 0 < left -> 1 <= read_takes (D := D) k n left <= Z.min n left;
  writes_all k n : write_takes (D := D) k n = n;
  seeks k pos : can_seek (D := D) k pos = true
}.

(** [size] bytes of the trace were copied from the one position to the other. *)
Record copied (filename : string) (size : Z) (g g' : htms D) : Prop := Copied {
  cp_trace : trace_data g' = trace_data g;
  cp_pos : trace_pos g' = trace_pos g + size;
  cp_dump_pos : dump_pos g' = dump_pos g + size;
  cp_file : files g' filename = write_at (dump_pos g) (slice (Z.to_nat (trace_pos g)) (Z.to_nat size) (trace_data g)) (files g filename);
  cp_files f : f <> filename -> files g' f = files g f;
  cp_kept : dual_htm_offset g' = dual_htm_offset g /\ printed g' = printed g /\ htm_rest g' = htm_rest g
}.

Lemma copied_none filename g : copied filename 0 g g.
Proof.
  split; try done; try lia. unfold slice, write_at. change (Z.to_nat 0) with 0%nat. by rewrite firstn_O, Nat.add_0_r, app_nil_l, take_drop.
Qed.

Lemma slice_more {A} o a b (l : list A) : slice o (a + b) l = slice o a l ++ slice (o + a) b l.
Proof. unfold slice. by rewrite <- take_take_drop, drop_drop. Qed.

Lemma copied_trans filename a b g g1 g2 : 0 <= a -> 0 <= b -> 0 <= trace_pos g -> trace_pos g + a <= Z.of_nat (length (trace_data g)) ->
  0 <= dump_pos g <= Z.of_nat (length (files g filename)) ->
  copied filename a g g1 -> copied filename b g1 g2 -> copied filename (a + b) g g2.
Proof.
  intros Ha Hb Hp Hl Hd H1 H2. split.
  - by rewrite (cp_trace _ _ _ _ H2), (cp_trace _ _ _ _ H1).
  - rewrite (cp_pos _ _ _ _ H2), (cp_pos _ _ _ _ H1). lia.
  - rewrite (cp_dump_pos _ _ _ _ H2), (cp_dump_pos _ _ _ _ H1). lia.
  - rewrite (cp_file _ _ _ _ H2), (cp_file _ _ _ _ H1), (cp_pos _ _ _ _ H1), (cp_dump_pos _ _ _ _ H1), (cp_trace _ _ _ _ H1).
    rewrite !Z2Nat.inj_add, slice_more by lia.
    set (x := slice (Z.to_nat (trace_pos g)) (Z.to_nat a) (trace_data g)).
    assert (length x = Z.to_nat a) as El by (apply length_slice; lia).
    replace (dump_pos g + a) with (Z.of_nat (Z.to_nat (dump_pos g) + length x)) by lia.
    replace (dump_pos g) with (Z.of_nat (Z.to_nat (dump_pos g))) at 2 3 by lia. apply write_at_app. lia.
  - intros f Hf. by rewrite (cp_files _ _ _ _ H2), (cp_files _ _ _ _ H1).
  - destruct (cp_kept _ _ _ _ H1) as (? & ? & ?), (cp_kept _ _ _ _ H2) as (? & ? & ?). split_and!; congruence.
Qed.

Lemma dumped_once filename bs g : 0 <= dump_pos g ->
  (if String.eqb filename filename then write_at (dump_pos g) bs (files g filename) else files g filename) = write_at (dump_pos g) bs (files g filename).
Proof. by rewrite String.eqb_refl. Qed.

Section Files.
Context {HF : HostFiles} (page_size : Z) (Hpage : 0 < page_size).

(** A read of a block brings some of the bytes that follow. *)
Lemma read_trace_ok b l n h k s : h !! b = Some l -> 0 < n <= Z.of_nat (length l) ->
  0 <= trace_pos (htm_of s) -> trace_pos (htm_of s) + n <= Z.of_nat (length (trace_data (htm_of s))) ->
  exists r l', 1 <= r <= n /\ length l' = length l /\
    take (Z.to_nat r) l' = Some <$> slice (Z.to_nat (trace_pos (htm_of s))) (Z.to_nat r) (trace_data (htm_of s)) /\
    read_trace (Ptr b 0) n (World h k s) = (Ret (Some r), World (<[b := l']> h) k
      (with_htm (set_trace (trace_data (htm_of s)) (trace_pos (htm_of s) + r) (count_call (htm_of s))) s)).
Proof.
  intros Hb Hn Hp Hl. set (g := htm_of s) in *. set (left := drop (Z.to_nat (trace_pos g)) (trace_data g)).
  assert (Z.of_nat (length left) = Z.of_nat (length (trace_data g)) - trace_pos g) as Eleft by (unfold left; rewrite length_drop; lia).
  pose proof (reads_some (calls g) n (Z.of_nat (length left)) ltac:(lia) ltac:(lia)) as Hr. set (r := read_takes _ _ _) in Hr.
  set (bs := Some <$> take (Z.to_nat r) left). assert (length bs = Z.to_nat r) as Ebs by (unfold bs; rewrite length_fmap, length_take; lia).
  exists r, (patch 0 bs l). split_and!; [lia|lia|by apply length_patch; lia| |].
  - unfold patch. rewrite firstn_O, app_nil_l. by rewrite take_app_length' by lia.
  - unfold read_trace. rewrite (bind_at _ _ _ _ _ (get_htm_at h k s)). fold g. cbv zeta. fold left. fold r. rewrite Z.max_r by lia.
    rewrite (bind_at _ _ _ _ _ (put_htm_at _ h k s)). rewrite (proj2 (Z.ltb_ge _ _)) by lia. fold bs.
    rewrite (bind_at _ _ _ tt (World (<[b := patch 0 bs l]> h) k (with_htm (set_trace (trace_data g) (trace_pos g + r) (count_call g)) s))); [done|].
    unfold store_bytes. cbn [w_heap w_next w_st]. rewrite Hb, !(proj2 (Z.leb_le _ _)) by lia. done.
Qed.

Lemma write_dump_ok filename b l r bs h k s : h !! b = Some l -> take (Z.to_nat r) l = Some <$> bs -> 0 <= r <= Z.of_nat (length l) ->
  write_dump filename (Ptr b 0) r (World h k s) = (Ret false, World h k
    (with_htm (set_dump (fun f => if String.eqb f filename then write_at (dump_pos (htm_of s)) bs (files (htm_of s) f) else files (htm_of s) f)
      (dump_pos (htm_of s) + r) (count_call (htm_of s))) s)).
Proof.
  intros Hb Hbs Hr. unfold write_dump. rewrite (bind_at _ _ _ (Some <$> bs) (World h k s)).
  2: { unfold load_bytes. cbn [w_heap]. rewrite Hb, !(proj2 (Z.leb_le _ _)) by lia. cbn. unfold slice. by rewrite drop_0, Hbs. }
  rewrite (bind_at _ _ _ bs (World h k s)) by (unfold defined; by rewrite mapM_id_Some). rewrite (bind_at _ _ _ _ _ (get_htm_at h k s)).
  cbv zeta. rewrite writes_all, Z.max_r by lia. rewrite (take_ge bs).
  2: { apply (f_equal length) in Hbs. rewrite length_fmap, length_take in Hbs. lia. }
  rewrite (bind_at _ _ _ _ _ (put_htm_at _ h k s)). by rewrite Z.eqb_refl.
Qed.

Lemma copy_loop_ok n filename b l size h k s : h !! b = Some l -> Z.of_nat (length l) = page_size ->
  0 <= size < 2 ^ 64 -> (Z.to_nat size < n)%nat ->
  0 <= trace_pos (htm_of s) -> trace_pos (htm_of s) + size <= Z.of_nat (length (trace_data (htm_of s))) ->
  0 <= dump_pos (htm_of s) <= Z.of_nat (length (files (htm_of s) filename)) ->
  exists l' g, copied filename size (htm_of s) g /\
    copy_loop page_size n filename (Ptr b 0) size (World h k s) = (Ret tt, World (<[b := l']> h) k (with_htm g s)).
Proof.
  revert l size h s. induction n as [|n IH]; intros l size h s Hb Hlen Hs Hn Hp Hl Hd; [lia|].
  cbn [copy_loop]. unfold truthy. destruct (Z.eqb_spec size 0) as [->|Hz]; cbn [negb].
  { exists l, (htm_of s). split; [apply copied_none|]. rewrite insert_id by done. by destruct s as [? [] ?]. }
  set (ask := if page_size <? size then page_size else size).
  assert (0 < ask <= size /\ ask <= page_size) as [Hask Hask'] by (unfold ask; destruct (Z.ltb_spec page_size size); lia).
  destruct (read_trace_ok b l ask h k s) as (r & l1 & Hr & Hl1 & Ht & E); [done|lia|done|lia|]. rewrite (bind_at _ _ _ _ _ E).
  rewrite (proj2 (Z.eqb_neq r 0)) by lia. set (s1 := with_htm _ s) in *. set (bs := slice _ _ _) in Ht.
  rewrite (bind_at _ _ _ _ _ (write_dump_ok filename b l1 r bs (<[b := l1]> h) k s1 (lookup_insert_eq _ _ _) Ht ltac:(lia))).
  set (s2 := with_htm _ s1).
  assert (copied filename r (htm_of s) (htm_of s2)) as Hc.
  { split; try done.
    - cbn. by rewrite String.eqb_refl.
    - intros f Hf. cbn. by rewrite (proj2 (String.eqb_neq _ _) Hf). }
  rewrite wrap_small by (unfold in_range; lia).
  destruct (IH l1 (size - r) (<[b := l1]> h) s2) as (l' & g & Hg & Eg).
  - apply lookup_insert_eq.
  - lia.
  - lia.
  - lia.
  - rewrite (cp_pos _ _ _ _ Hc). lia.
  - rewrite (cp_pos _ _ _ _ Hc), (cp_trace _ _ _ _ Hc). lia.
  - rewrite (cp_dump_pos _ _ _ _ Hc), (cp_file _ _ _ _ Hc).
    pose proof (length_write_at (Z.to_nat (dump_pos (htm_of s))) bs (files (htm_of s) filename) ltac:(lia)) as Hwr.
    rewrite Z2Nat.id in Hwr by lia. assert (length bs = Z.to_nat r) by (apply length_slice; lia). fold bs. lia.
  - exists l', g. split.
    + replace size with (r + (size - r)) by lia. by apply (copied_trans filename r (size - r) _ (htm_of s2)); lia || done.
    + rewrite Eg, insert_insert_eq. done.
Qed.
End Files.

Lemma copy_file_ok {HF : HostFiles} page_size filename size h k s : 0 < page_size -> can_alloc k page_size = true ->
  0 <= size < 2 ^ 64 -> 0 <= trace_pos (htm_of s) -> trace_pos (htm_of s) + size <= Z.of_nat (length (trace_data (htm_of s))) ->
  0 <= dump_pos (htm_of s) <= Z.of_nat (length (files (htm_of s) filename)) ->
  exists l g, copied filename size (htm_of s) g /\ copy_file page_size filename size (World h k s) = (Ret tt, World (<[k := l]> h) (S k) (with_htm g s)).
Proof.
  intros Hpage Ha Hs Hp Hl Hd. unfold copy_file.
  rewrite (bind_at _ _ _ (Ptr k 0) (World (<[k := replicate (Z.to_nat page_size) None]> h) (S k) s)).
  2: { unfold malloc. cbn [w_next w_heap w_st]. by rewrite Ha. }
  cbn [is_null]. destruct (copy_loop_ok page_size Hpage (S (Z.to_nat size)) filename k (replicate (Z.to_nat page_size) None) size
    (<[k := replicate (Z.to_nat page_size) None]> h) (S k) s) as (l & g & Hg & E); try done; try lia.
  - apply lookup_insert_eq.
  - rewrite length_replicate. lia.
  - exists l, g. split; [done|]. by rewrite E, insert_insert_eq.
Qed.

Lemma seek_ok {HF : HostFiles} pos h k s :
  seek_trace pos (World h k s) = (Ret true, World h k (with_htm (set_trace (trace_data (htm_of s)) pos (count_call (htm_of s))) s)).
Proof.
  unfold seek_trace. rewrite (bind_at _ _ _ _ _ (get_htm_at h k s)). cbv zeta. rewrite seeks.
  by rewrite (bind_at _ _ _ _ _ (put_htm_at _ h k s)).
Qed.

(** ** What a trace unit promises *)

Definition below (s : state) : D := htm_rest (htm_of s).
Definition moved (d : D) (tr : list tevent) (s : state) : state :=
  Tgt (t_status s) (Chips (thread_of (t_dev s)) (release_spwkup (t_dev s)) (set_rest d (htm_of s))) tr.

Section Unit.
Context (compatible_with : nat -> string -> bool) (P t : nat) (store : D -> Z -> Z) (looked : D -> nat) (live : nat -> Z -> Z) (written : D -> list (Z * Z)).
Abbreviation p10_nest := (p10_nest compatible_with t).

(** The registers of a unit *)
Definition is_reg (r : Z) : Prop := 0 <= r < 32.
(** The registers that the unit changes by itself *)
Definition changes (r : Z) : bool := (r =? HTM_STATUS) || (r =? HTM_LAST_ADDRESS) || p10_nest && (r =? HTM2_LAST_ADDRESS).

(** What the host says of the trace memory and of the file stays; what is in the memory may change. *)
Record same_host (d d' : D) : Prop := SameHost {
  host_enabled : enabled_size d' = enabled_size d;
  host_number i f : scan_hex i f d' = scan_hex i f d;
  host_create f : can_create f d' = can_create f d
}.
#[export] Instance same_host_preorder : PreOrder same_host.
Proof. split; [done|]. intros d1 d2 d3 [] []. split; intros; etransitivity; eauto. Qed.

(** Where the bus target is enabled, the unit keeps what is written to a register, and shows [live] in those it changes by itself,
    which may differ from one look at the status to the next. *)
Class TraceUnit : Prop := {
  unit_reads r h n s : t_status s P = PDBG_TARGET_ENABLED -> is_reg r -> exists d tr,
    pib_read T fuel t r (World h n s) = (Ret (if changes r then live (looked (below s)) r else store (below s) r), World h n (moved d tr s)) /\
    (forall x, store d x = store (below s) x) /\ looked d = (if r =? HTM_STATUS then S (looked (below s)) else looked (below s)) /\
    written d = written (below s) /\ same_host (below s) d;
  unit_writes r v h n s : t_status s P = PDBG_TARGET_ENABLED -> is_reg r -> exists d tr,
    pib_write T fuel t r v (World h n s) = (Ret tt, World h n (moved d tr s)) /\
    (forall x, store d x = if x =? r then v else store (below s) x) /\ looked d = looked (below s) /\
    written d = written (below s) ++ [(r, v)] /\ same_host (below s) d
}.

(** The registers after writes *)
Definition after (ws : list (Z * Z)) (f : Z -> Z) : Z -> Z := foldl (fun f w x => if x =? w.1 then w.2 else f x) f ws.

(** The unit was written [ws], and its status was looked at [k] times. *)
Record ran (ws : list (Z * Z)) (k : nat) (s s' : state) : Prop := Ran {
  ran_moved : exists d tr, s' = moved d tr s;
  ran_store x : store (below s') x = after ws (store (below s)) x;
  ran_looked : looked (below s') = (looked (below s) + k)%nat;
  ran_written : written (below s') = written (below s) ++ ws;
  ran_host : same_host (below s) (below s')
}.

Lemma after_ext ws f1 f2 : (forall x, f1 x = f2 x) -> forall x, after ws f1 x = after ws f2 x.
Proof. revert f1 f2. induction ws as [|w ws IH]; intros f1 f2 H x; [apply H|]. cbn. apply IH. intros y. by destruct (y =? w.1). Qed.
Lemma ran_by ws k d tr s : (forall x, store d x = after ws (store (below s)) x) -> looked d = (looked (below s) + k)%nat ->
  written d = written (below s) ++ ws -> same_host (below s) d -> ran ws k s (moved d tr s).
Proof. intros. split; try done. by exists d, tr. Qed.
Lemma ran_none s : ran [] 0 s s.
Proof.
  split; try done.
  - exists (below s), (t_trace s). by destruct s as [? [? ? []] ?].
  - by rewrite app_nil_r.
Qed.
Lemma ran_trans ws1 ws2 k1 k2 s s1 s2 : ran ws1 k1 s s1 -> ran ws2 k2 s1 s2 -> ran (ws1 ++ ws2) (k1 + k2) s s2.
Proof.
  intros [(d1 & tr1 & ->) A1 B1 C1 D1] [(d2 & tr2 & ->) A2 B2 C2 D2]. split.
  - by exists d2, tr2.
  - intros x. rewrite A2. unfold after at 2. rewrite foldl_app. by apply after_ext.
  - rewrite B2, B1. lia.
  - by rewrite C2, C1, app_assoc.
  - by etransitivity.
Qed.
Lemma ran_status ws k s s' : ran ws k s s' -> t_status s' = t_status s.
Proof. by intros [(d & tr & ->) _ _ _ _]. Qed.
Lemma ran_offset ws k s s' : ran ws k s s' -> dual_htm_offset (htm_of s') = dual_htm_offset (htm_of s).
Proof. by intros [(d & tr & ->) _ _ _ _]. Qed.

Context {HU : TraceUnit}.
Abbreviation on s := (t_status s P = PDBG_TARGET_ENABLED).
Abbreviation get_status := (get_status T fuel compatible_with t).

Lemma read_reg_ok r h n s : on s -> is_reg r -> changes r = false ->
  exists s', read_reg T fuel t r (World h n s) = (Ret (store (below s) r), World h n s') /\ ran [] 0 s s'.
Proof.
  intros Hs Hreg Hr. destruct (unit_reads r h n s Hs Hreg) as (d & tr & E & A & B & C & F). rewrite Hr in E.
  exists (moved d tr s). split; [by apply htm_err_ok|]. unfold changes in Hr. apply orb_false_elim in Hr as [[Hr _]%orb_false_elim _].
  apply ran_by; [done|rewrite B, Hr; lia|by rewrite app_nil_r|done].
Qed.
Lemma read_live_ok r h n s : on s -> is_reg r -> changes r = true -> exists s', read_reg T fuel t r (World h n s) = (Ret (live (looked (below s)) r), World h n s') /\
  ran [] (if r =? HTM_STATUS then 1 else 0) s s'.
Proof.
  intros Hs Hreg Hr. destruct (unit_reads r h n s Hs Hreg) as (d & tr & E & A & B & C & F). rewrite Hr in E.
  exists (moved d tr s). split; [by apply htm_err_ok|].
  apply ran_by; [done|rewrite B; destruct (r =? HTM_STATUS); lia|by rewrite app_nil_r|done].
Qed.
Lemma write_reg_ok r v h n s : on s -> is_reg r -> exists s', write_reg T fuel t r v (World h n s) = (Ret tt, World h n s') /\ ran [(r, v)] 0 s s'.
Proof.
  intros Hs Hreg. destruct (unit_writes r v h n s Hs Hreg) as (d & tr & E & A & B & C & F).
  exists (moved d tr s). split; [by apply htm_err_ok|]. apply ran_by; [done|rewrite B; lia|done|done].
Qed.

(** The next look at the status *)
Definition look (k : nat) (conf : Z) : htm_status :=
  let raw := live k HTM_STATUS in
  HtmStatus (state_of raw) (if p10_nest then Some (state2_of raw) else None) (error_of raw) (if p10_nest then Some (error2_of raw) else None)
    (truthy (Z.land conf (small_field compatible_with t))) (u16 (GETFIELD HTM_MEM_SIZE conf)) (Z.land conf (base_field compatible_with t))
    (live (S k) HTM_LAST_ADDRESS) (if p10_nest then Some (live (S k) HTM2_LAST_ADDRESS) else None) raw.

Lemma get_status_ok h n s : on s ->
  exists s', get_status (World h n s) = (Ret (look (looked (below s)) (store (below s) HTM_MEMORY_CONF)), World h n s') /\ ran [] 1 s s'.
Proof.
  intros Hs. unfold Htm.get_status.
  destruct (read_live_ok HTM_STATUS h n s Hs ltac:(done) eq_refl) as (s1 & E1 & R1). change (ran [] 1 s s1) in R1. rewrite (bind_at _ _ _ _ _ E1).
  assert (changes HTM_MEMORY_CONF = false) as Hc by (unfold changes; by rewrite andb_false_r).
  destruct (read_reg_ok HTM_MEMORY_CONF h n s1) as (s2 & E2 & R2); [by rewrite (ran_status _ _ _ _ R1)|done|done|]. rewrite (bind_at _ _ _ _ _ E2).
  pose proof (ran_trans _ _ _ _ _ _ _ R1 R2) as R. clear R2.
  destruct (read_live_ok HTM_LAST_ADDRESS h n s2) as (s3 & E3 & R3); [by rewrite (ran_status _ _ _ _ R)|done|done|]. rewrite (bind_at _ _ _ _ _ E3).
  pose proof (ran_trans _ _ _ _ _ _ _ R R3) as R'. clear R3. rewrite (ran_store _ _ _ _ R1), (ran_looked _ _ _ _ R). unfold look. cbn [app] in *.
  assert (forall k : nat, (k + (1 + 0) = S k)%nat) as Hk by lia. rewrite Hk. destruct p10_nest eqn:Hp; [|by exists s3].
  destruct (read_live_ok HTM2_LAST_ADDRESS h n s3) as (s4 & E4 & R4); [by rewrite (ran_status _ _ _ _ R')|done|unfold changes; by rewrite Hp|].
  rewrite (bind_at _ _ _ (Some (live (looked (below s3)) HTM2_LAST_ADDRESS)) (World h n s4)) by by rewrite (bind_at _ _ _ _ _ E4).
  exists s4. rewrite (ran_looked _ _ _ _ R'). split; [|by apply (ran_trans _ _ _ _ _ _ _ R' R4)].
  change (1 + 0 + 0)%nat with (1 + 0)%nat. by rewrite Hk.
Qed.

(** [op] returns [a] after writing [ws] and looking at the status [k] times. *)
Definition does {A} (op : m A) (a : A) (ws : list (Z * Z)) (k : nat) h n s : Prop :=
  exists s', op (World h n s) = (Ret a, World h n s') /\ ran ws k s s'.

Section Does.
Context (h : gmap nat (list mval)) (n : nat).

Lemma does_ret {A} (a : A) s : does (mret a) a [] 0 h n s.
Proof. exists s. split; [done|apply ran_none]. Qed.
Lemma does_bind {A B} (op : m A) (f : A -> m B) a b ws1 ws2 k1 k2 s : does op a ws1 k1 h n s ->
  (forall s1, ran ws1 k1 s s1 -> does (f a) b ws2 k2 h n s1) -> does (op ≫= f) b (ws1 ++ ws2) (k1 + k2) h n s.
Proof.
  intros (s1 & E & R) H. destruct (H s1 R) as (s2 & E2 & R2). exists s2. rewrite (bind_at _ _ _ _ _ E). split; [done|].
  by eapply ran_trans.
Qed.
Lemma does_pure {A B} (op : m A) (f : A -> m B) a b ws k s : op (World h n s) = (Ret a, World h n s) -> does (f a) b ws k h n s -> does (op ≫= f) b ws k h n s.
Proof. intros E (s' & E' & R). exists s'. by rewrite (bind_at _ _ _ _ _ E). Qed.
Lemma does_err {A} (op : m A) a ws k s : does op a ws k h n s -> does (htm_err op) a ws k h n s.
Proof. intros (s' & E & R). exists s'. split; [by apply htm_err_ok|done]. Qed.
Lemma does_write {B} r v (f : unit -> m B) b ws k s : on s -> is_reg r -> (forall s1, on s1 -> ran [(r, v)] 0 s s1 -> does (f tt) b ws k h n s1) ->
  does (write_reg T fuel t r v ≫= f) b ((r, v) :: ws) k h n s.
Proof.
  intros Hs Hreg H. apply (does_bind _ _ tt _ [(r, v)] ws 0 k); [by apply write_reg_ok|]. intros s1 R. apply H; [|done]. by rewrite (ran_status _ _ _ _ R).
Qed.
Lemma does_last r v s : on s -> is_reg r -> does (write_reg T fuel t r v) tt [(r, v)] 0 h n s.
Proof. by apply write_reg_ok. Qed.
Lemma does_read {B} r (f : Z -> m B) b ws k s : on s -> is_reg r -> changes r = false ->
  (forall s1, on s1 -> ran [] 0 s s1 -> does (f (store (below s) r)) b ws k h n s1) -> does (read_reg T fuel t r ≫= f) b ws k h n s.
Proof.
  intros Hs Hreg Hr H. apply (does_bind _ _ (store (below s) r) _ [] ws 0 k); [by apply read_reg_ok|]. intros s1 R. apply H; [|done].
  by rewrite (ran_status _ _ _ _ R).
Qed.
Lemma does_look {B} (f : htm_status -> m B) b ws k s : on s ->
  (forall s1, on s1 -> ran [] 1 s s1 -> does (f (look (looked (below s)) (store (below s) HTM_MEMORY_CONF))) b ws k h n s1) ->
  does (htm_err get_status ≫= f) b ws (S k) h n s.
Proof.
  intros Hs H. apply (does_bind _ _ (look (looked (below s)) (store (below s) HTM_MEMORY_CONF)) _ [] ws 1 k); [by apply does_err, get_status_ok|].
  intros s1 R. apply H; [|done]. by rewrite (ran_status _ _ _ _ R).
Qed.
Lemma does_shifted {B} r (f : Z -> m B) b ws k s : does (f (r + dual_htm_offset (htm_of s))) b ws k h n s -> does (shifted r ≫= f) b ws k h n s.
Proof. by apply does_pure. Qed.
Lemma does_eq {A} (op : m A) a ws ws' k s : ws = ws' -> does op a ws k h n s -> does op a ws' k h n s.
Proof. by intros ->. Qed.

(** ** Giving the unit its memory *)

Context (l lp : list nat) (pib : nat) (Hline : ancestry T true t (t :: l)) (Hpib : nearest T "pib" l = Some pib) (Hup : ancestry T true pib lp)
  (Hfuel : (length l < fuel)%nat) (Hfuel' : (length lp < fuel)%nat).
(** The processor of the unit, which names its files *)
Definition proc_index : Z := first_index T lp.

Lemma file_index h' n' s : get_debugfs_file T fuel t (World h' n' s) = (Ret proc_index, World h' n' s).
Proof.
  unfold get_debugfs_file, pdbg_target_parent. rewrite (bind_at _ _ _ _ _ (target_parent_ok T fuel "pib" t l true _ Hline Hfuel)), Hpib.
  by apply index_ok.
Qed.
Lemma number_ok file v s : scan_hex proc_index file (below s) = Some (Some v) ->
  htm_err (get_debugfs_number T fuel t file) (World h n s) = (Ret v, World h n s).
Proof.
  intros Hv. apply htm_err_ok. unfold get_debugfs_number. rewrite (bind_at _ _ _ _ _ (file_index h n s)), (bind_at _ _ _ _ _ (get_htm_at h n s)).
  unfold below in Hv. by rewrite Hv.
Qed.

(** The trace memory that the host gives the unit *)
Record memory_there (size base : Z) (d : D) : Prop := MemoryThere {
  there_size : scan_hex proc_index "size" d = Some (Some size);
  there_base : scan_hex proc_index "start" d = Some (Some base);
  there_bounds : 2 ^ 24 <= size <= 2 ^ 38
}.
Definition unallocated (val : Z) : Z := Z.land val (u64 (Z.lnot HTM_MEM_ALLOC)).
Definition memory_writes (offset val size base : Z) : list (Z * Z) :=
  [(HTM_MEMORY_CONF, unallocated val); (HTM_MEMORY_CONF, memory_conf compatible_with t (unallocated val) size base); (4 + offset, HTM_TRIG_RESET)].

Lemma conf_kept : changes HTM_MEMORY_CONF = false.
Proof. unfold changes. by rewrite andb_false_r. Qed.

Lemma configure_memory_ok size base s : on s -> memory_there size base (below s) -> 0 <= dual_htm_offset (htm_of s) <= 1 ->
  does (configure_memory T fuel compatible_with t) tt (memory_writes (dual_htm_offset (htm_of s)) (store (below s) HTM_MEMORY_CONF) size base) 0 h n s.
Proof.
  intros Hs [H1 H2 H3] Ho. unfold configure_memory, get_trace_size, get_trace_base.
  apply (does_pure _ _ size); [by apply number_ok|]. apply (does_pure _ _ base); [by apply number_ok|].
  apply does_read; [done|done|apply conf_kept|]. intros s1 Hs1 R1. apply does_write; [done|done|]. intros s2 Hs2 R2.
  apply does_read; [done|done|apply conf_kept|]. intros s3 Hs3 R3. rewrite (ran_store _ _ _ _ R2). cbn [after foldl fst snd].
  rewrite Z.eqb_refl, !(proj2 (Z.ltb_ge _ _)) by lia. apply does_write; [done|done|]. intros s4 Hs4 R4.
  unfold HTM_SCOM_TRIGGER. apply does_shifted. rewrite (ran_offset _ _ _ _ R4), (ran_offset _ _ _ _ R3), (ran_offset _ _ _ _ R2), (ran_offset _ _ _ _ R1).
  apply does_last; [done|]. unfold is_reg. lia.
Qed.

(** ** Setting up a unit of the nest *)

Ltac settle := repeat match goal with
  | R : ran _ _ _ ?s |- context [store (below ?s)] => rewrite (ran_store _ _ _ _ R); cbn [after foldl fst snd]
  | R : ran _ _ _ ?s |- context [dual_htm_offset (htm_of ?s)] => rewrite (ran_offset _ _ _ _ R)
  end.

Ltac next_write := apply does_write; [done|first [done|unfold is_reg; lia]|].

Abbreviation is_p9 := (compatible_with t "ibm,power9-nhtm"%string).
(** The multiplexer is as the code wants it. *)
Definition mux_right (offset : Z) (f : Z -> Z) : Prop :=
  (is_p9 = true -> GETFIELD NHTM_FLEX_MUX_MASK (f (9 + offset)) = NHTM_FLEX_DEFAULT) /\
  (p10_nest = true -> GETFIELD NHTM_FLEX_MUX_MASK_P10 (f (9 + offset)) = NHTM_FLEX_DEFAULT_P10).
Definition mode (wrap : bool) : Z := Z.lor (Z.lor (Z.lor HTM_MODE_ENABLE NHTM_MODE_CRESP_PRECISE) (if wrap then HTM_MODE_WRAP else 0)) 0xFFFF000000.
Definition nest_writes (offset : Z) (wrap : bool) : list (Z * Z) :=
  [(HTM_COLLECTION_MODE, mode wrap); (5 + offset, HTM_CTRL_XSTOP_STOP); (6 + offset, Z.lor NHTM_FILTER_MASK NHTM_FILTER_CRESP_MASK);
   (7 + offset, Z.lor NHTM_TTYPE_TYPE_MASK NHTM_TTYPE_SIZE_MASK)] ++
  if p10_nest then
    [(NHTM_ADDR_PAT, 0); (NHTM_ADDR_MASK, NHTM_ADDR_MASK_MASK);
     (NHTM_STOP_FILTER, Z.lor (Z.lor NHTM_STOP_FILTER_TTAG_MASK NHTM_STOP_FILTER_TTYPE_MASK) NHTM_STOP_FILTER_CRESP_MASK);
     (NHTM_STOP_FILT_ADDR_PAT, 0); (NHTM_STOP_FILT_ADDR_MASK, NHTM_STOP_FILT_ADDR_MASK_MASK)]
  else [].

Context (units : nat -> htm_ops D) (Hnest : pdbg_target_is_class T t "nhtm" = true) (Hcore : pdbg_target_is_class T t "chtm" = false).

Lemma flex_ok mask v s : on s -> is_reg (9 + dual_htm_offset (htm_of s)) -> changes (9 + dual_htm_offset (htm_of s)) = false -> GETFIELD mask (store (below s) (9 + dual_htm_offset (htm_of s))) = v ->
  does (flex_default T fuel t mask v) tt [] 0 h n s.
Proof.
  intros Hs Hreg Hc Hv. unfold flex_default, NHTM_FLEX_MUX. apply does_shifted. apply does_read; [done..|]. intros s1 _ _. rewrite Hv, Z.eqb_refl. apply does_ret.
Qed.

Lemma configure_nhtm_ok wrap size s : on s -> enabled_size (below s) = Some (Some size) -> size <> 0 ->
  0 <= dual_htm_offset (htm_of s) <= 1 -> mux_right (dual_htm_offset (htm_of s)) (store (below s)) ->
  does (configure_nhtm T fuel compatible_with t wrap) tt (nest_writes (dual_htm_offset (htm_of s)) wrap) 0 h n s.
Proof.
  intros Hs He Hz Ho [Hm9 Hm10]. unfold configure_nhtm. rewrite Hnest. cbn [negb].
  apply (does_pure _ _ tt).
  { apply htm_err_ok. unfold configure_debugfs_memtrace. rewrite (bind_at _ _ _ _ _ (get_htm_at h n s)). unfold below in He.
    by rewrite He, (proj2 (Z.eqb_neq _ _) Hz). }
  cbv zeta. next_write. intros s1 Hs1 R1. unfold HTM_TRIGGER_CONTROL, NHTM_FILTER_CONTROL, NHTM_TTYPE_FILTER_CONTROL.
  apply does_shifted. settle. next_write. intros s2 Hs2 R2.
  apply does_shifted. settle. next_write. intros s3 Hs3 R3.
  apply does_shifted. settle. next_write. intros s4 Hs4 R4. unfold nest_writes. cbn [app].
  assert (is_reg (9 + dual_htm_offset (htm_of s))) as Hreg by (unfold is_reg; lia).
  assert (changes (9 + dual_htm_offset (htm_of s)) = false) as Hc.
  { unfold changes, HTM_STATUS, HTM_LAST_ADDRESS, HTM2_LAST_ADDRESS. rewrite !(proj2 (Z.eqb_neq (9 + _) _)) by lia. by rewrite andb_false_r. }
  assert (store (below s4) (9 + dual_htm_offset (htm_of s)) = store (below s) (9 + dual_htm_offset (htm_of s))) as Hk.
  { settle. unfold HTM_COLLECTION_MODE. by rewrite !(proj2 (Z.eqb_neq (9 + _) _)) by lia. }
  assert (dual_htm_offset (htm_of s4) = dual_htm_offset (htm_of s)) as Hoff by (by settle).
  eapply (does_bind _ _ tt tt [] _ 0 0).
  { destruct is_p9 eqn:H9; [|apply does_ret]. apply flex_ok; rewrite ?Hoff, ?Hk; auto. }
  intros s5 R5. rewrite <- (ran_status _ _ _ _ R5) in Hs4. destruct p10_nest eqn:H10; [|apply does_ret].
  eapply (does_bind _ _ tt tt [] _ 0 0).
  { apply flex_ok; rewrite ?(ran_offset _ _ _ _ R5), ?Hoff, ?(ran_store _ _ _ _ R5); cbn [after foldl]; rewrite ?Hk; auto. }
  intros s6 R6. rewrite <- (ran_status _ _ _ _ R6) in Hs4.
  do 4 (next_write; intros ? ? ?). by apply does_last.
Qed.

Lemma ran_memory size base ws k s s' : ran ws k s s' -> memory_there size base (below s) -> memory_there size base (below s').
Proof. intros R [H1 H2 H3]. pose proof (ran_host _ _ _ _ R) as F. split; [by rewrite (host_number _ _ F)|by rewrite (host_number _ _ F)|done]. Qed.

(** Where [size] bytes at [base] are the trace memory, and were announced, and the multiplexer is right *)
Record ready (size base : Z) (s : state) : Prop := Ready {
  ready_on : on s;
  ready_memory : memory_there size base (below s);
  ready_announced : exists a, enabled_size (below s) = Some (Some a) /\ a <> 0;
  ready_offset : 0 <= dual_htm_offset (htm_of s) <= 1;
  ready_mux : mux_right (dual_htm_offset (htm_of s)) (store (below s))
}.

Definition setup_writes (wrap : bool) (size base : Z) (s : state) : list (Z * Z) :=
  nest_writes (dual_htm_offset (htm_of s)) wrap ++ memory_writes (dual_htm_offset (htm_of s)) (store (below s) HTM_MEMORY_CONF) size base.
(** The configuration that this leaves *)
Definition setup_conf (size base : Z) (s : state) : Z := memory_conf compatible_with t (unallocated (store (below s) HTM_MEMORY_CONF)) size base.

Lemma nest_keeps_conf offset wrap f : 0 <= offset -> after (nest_writes offset wrap) f HTM_MEMORY_CONF = f HTM_MEMORY_CONF.
Proof.
  intros Ho. unfold nest_writes, after, HTM_MEMORY_CONF. rewrite foldl_app. cbn [foldl fst snd].
  assert (forall a, a <> 1 -> (1 =? a) = false) as Hne by (intros a Ha; apply Z.eqb_neq; lia).
  destruct p10_nest; cbn [foldl fst snd].
  all: unfold NHTM_ADDR_PAT, NHTM_ADDR_MASK, NHTM_STOP_FILTER, NHTM_STOP_FILT_ADDR_PAT, NHTM_STOP_FILT_ADDR_MASK, HTM_COLLECTION_MODE;
    by rewrite !Hne by lia.
Qed.
Lemma setup_conf_kept wrap size base s : 0 <= dual_htm_offset (htm_of s) ->
  after (setup_writes wrap size base s) (store (below s)) HTM_MEMORY_CONF = setup_conf size base s.
Proof.
  intros Ho. unfold setup_writes, after. rewrite foldl_app. unfold memory_writes. cbn [foldl fst snd].
  unfold HTM_MEMORY_CONF at 1. rewrite (proj2 (Z.eqb_neq 1 _)) by lia. by rewrite Z.eqb_refl.
Qed.

Lemma reset_ok wrap size base s : ready size base s ->
  does (do_htm_reset T fuel compatible_with units t wrap) tt (setup_writes wrap size base s) 1 h n s.
Proof.
  intros [Hs Hm (a & Ha & Ha0) [Ho Ho'] Hmux]. unfold do_htm_reset. apply does_look; [done|]. intros s1 Hs1 R1.
  assert (dual_htm_offset (htm_of s1) = dual_htm_offset (htm_of s)) as Ho1 by (by settle).
  eapply (does_bind _ _ tt tt _ _ 0 0).
  { apply does_err. rewrite <- Ho1. eapply configure_nhtm_ok; [done| |done|by rewrite Ho1|].
    - rewrite <- Ha. apply (host_enabled _ _ (ran_host _ _ _ _ R1)).
    - rewrite Ho1. unfold mux_right in *. by rewrite !(ran_store _ _ _ _ R1). }
  intros s2 R2. apply (does_pure _ _ tt).
  { apply htm_err_ok. unfold configure_chtm. by rewrite Hcore. }
  apply does_err. pose proof (ran_trans _ _ _ _ _ _ _ R1 R2) as R. cbn [app Nat.add] in R.
  rewrite <- (ran_offset _ _ _ _ R). rewrite <- (nest_keeps_conf (dual_htm_offset (htm_of s)) wrap (store (below s)) Ho).
  rewrite <- (ran_store _ _ _ _ R). apply configure_memory_ok; [|by eapply ran_memory|].
  - by rewrite (ran_status _ _ _ _ R).
  - by rewrite (ran_offset _ _ _ _ R).
Qed.

(** ** Waiting *)

(** [j] looks from the [k]-th on until [done] holds for the first time *)
Definition first_look (k j : nat) (conf : Z) (done : htm_status -> bool) : Prop :=
  done (look (k + j) conf) = true /\ forall i, (i < j)%nat -> done (look (k + i) conf) = false.

Lemma wait_ok tries j done s : on s -> (j < tries)%nat -> first_look (looked (below s)) j (store (below s) HTM_MEMORY_CONF) done ->
  does (wait_for T fuel compatible_with tries t done) tt [] (S j) h n s.
Proof.
  revert j s. induction tries as [|tries IH]; intros j s Hs Hj [Hd Hb]; [lia|]. cbn [wait_for]. apply does_look; [done|]. intros s1 Hs1 R1.
  destruct j as [|j].
  - rewrite Nat.add_0_r in Hd. rewrite Hd. apply does_ret.
  - specialize (Hb 0%nat ltac:(lia)) as H0. rewrite Nat.add_0_r in H0. rewrite H0. apply IH; [done|lia|].
    rewrite (ran_looked _ _ _ _ R1), (ran_store _ _ _ _ R1). cbn [after foldl]. split.
    + by replace (looked (below s) + 1 + j)%nat with (looked (below s) + S j)%nat by lia.
    + intros i Hi. replace (looked (below s) + 1 + i)%nat with (looked (below s) + S i)%nat by lia. apply Hb. lia.
Qed.

(** ** Starting *)

Context (tries : nat) (junk : Z) (page_size : Z) (Hunits : units t = htm_unit T fuel tries compatible_with page_size units junk None None None None).
Abbreviation trig s := (4 + dual_htm_offset (htm_of s)).
Abbreviation is_startable := (is_startable compatible_with t).

Definition tracing (st : htm_status) : bool := bool_decide (Htm.state st = TRACING).

Lemma start_ok wrap size base s j : ready size base s -> is_startable (look (S (looked (below s))) (setup_conf size base s)) = true ->
  first_look (2 + looked (below s)) j (setup_conf size base s) tracing -> (j < tries)%nat ->
  does (__do_htm_start T fuel tries compatible_with units t wrap) tt
    (setup_writes wrap size base s ++ [(trig s, HTM_TRIG_MARK_VALID); (trig s, HTM_TRIG_START)]) (3 + j) h n s.
Proof.
  intros Hr Hst Hj Hjt. pose proof (ready_on _ _ _ Hr) as Hs. destruct (ready_offset _ _ _ Hr) as [Ho Ho']. unfold __do_htm_start.
  eapply (does_bind _ _ tt tt _ _ 1 (2 + j)); [by apply does_err, (reset_ok wrap size base)|]. intros s1 R1.
  assert (on s1) as Hs1 by (by rewrite (ran_status _ _ _ _ R1)).
  assert (store (below s1) HTM_MEMORY_CONF = setup_conf size base s) as Hc by (by rewrite (ran_store _ _ _ _ R1), setup_conf_kept).
  apply does_look; [done|]. intros s2 Hs2 R2. rewrite Hc, (ran_looked _ _ _ _ R1), Nat.add_1_r, Hst. cbn [negb].
  unfold HTM_SCOM_TRIGGER. apply does_shifted. rewrite (ran_offset _ _ _ _ R2), (ran_offset _ _ _ _ R1).
  next_write. intros s3 Hs3 R3. next_write. intros s4 Hs4 R4.
  assert (store (below s4) HTM_MEMORY_CONF = setup_conf size base s) as Hc4.
  { rewrite (ran_store _ _ _ _ R4). cbn [after foldl fst snd]. unfold HTM_MEMORY_CONF at 1. rewrite (proj2 (Z.eqb_neq 1 _)) by lia.
    rewrite (ran_store _ _ _ _ R3). cbn [after foldl fst snd]. unfold HTM_MEMORY_CONF at 1. rewrite (proj2 (Z.eqb_neq 1 _)) by lia.
    by rewrite (ran_store _ _ _ _ R2). }
  replace (S j) with (S j + 0)%nat by lia. change [] with (@nil (Z * Z) ++ []). eapply (does_bind _ _ tt tt [] [] (S j) 0).
  - apply wait_ok; [done|done|]. rewrite Hc4, (ran_looked _ _ _ _ R4), (ran_looked _ _ _ _ R3), (ran_looked _ _ _ _ R2), (ran_looked _ _ _ _ R1).
    by replace (looked (below s) + 1 + 1 + 0 + 0)%nat with (2 + looked (below s))%nat by lia.
  - intros s5 R5. rewrite Hunits. cbn [post_configure htm_unit]. apply does_ret.
Qed.

Lemma not_started wrap size base s : ready size base s -> is_startable (look (S (looked (below s))) (setup_conf size base s)) = false ->
  exists s', __do_htm_start T fuel tries compatible_with units t wrap (World h n s) = (Fail (-1), World h n s') /\ ran (setup_writes wrap size base s) 2 s s'.
Proof.
  intros Hr Hst. pose proof (ready_on _ _ _ Hr) as Hs. destruct (ready_offset _ _ _ Hr) as [Ho Ho']. unfold __do_htm_start.
  destruct (reset_ok wrap size base s Hr) as (s1 & E1 & R1). rewrite (bind_at _ _ _ tt (World h n s1)) by by apply htm_err_ok.
  assert (on s1) as Hs1 by (by rewrite (ran_status _ _ _ _ R1)).
  destruct (get_status_ok h n s1 Hs1) as (s2 & E2 & R2). rewrite (bind_at _ _ _ _ _ (htm_err_ok _ _ _ _ E2)).
  rewrite (ran_store _ _ _ _ R1), setup_conf_kept, (ran_looked _ _ _ _ R1), Nat.add_1_r, Hst by done. exists s2. split; [done|].
  pose proof (ran_trans _ _ _ _ _ _ _ R1 R2) as R. by rewrite app_nil_r in R.
Qed.

(** A public function reaches the unit. *)
Lemma call_ok {A} (op : htm_ops D -> option A) f (k : A -> m unit) s : t_status s t = PDBG_TARGET_ENABLED -> op (units t) = Some f ->
  call_op T units t op k (World h n s) = k f (World h n s).
Proof.
  intros Ht Hop. unfold call_op, check_and_convert. rewrite Hnest. cbn [negb andb].
  rewrite (bind_at _ _ _ (Some (units t)) (World h n s)); [by rewrite Hop|].
  rewrite (bind_at _ _ _ PDBG_TARGET_ENABLED (World h n s)); [done|]. unfold pdbg_target_status_of, get_st, mbind, M_bind. cbn. by rewrite Ht.
Qed.

Lemma after_other ws f1 r : Forall (fun w => w.1 <> r) ws -> after ws f1 r = f1 r.
Proof.
  unfold after. intros H. revert f1. induction H as [|w ws Hne H IH]; intros f1; [done|]. cbn [foldl]. rewrite IH.
  by rewrite (proj2 (Z.eqb_neq _ _)).
Qed.
Lemma setup_conf_stays ws k s s' wrap size base : 0 <= dual_htm_offset (htm_of s) -> ran (setup_writes wrap size base s ++ ws) k s s' ->
  Forall (fun w => w.1 <> HTM_MEMORY_CONF) ws -> store (below s') HTM_MEMORY_CONF = setup_conf size base s.
Proof.
  intros Ho R Hws. rewrite (ran_store _ _ _ _ R). unfold after. rewrite foldl_app. fold (after (setup_writes wrap size base s) (store (below s))).
  rewrite <- (setup_conf_kept wrap size base s Ho). by apply after_other.
Qed.

(** ** Stopping *)

(** A unit that has finished is not told anything. *)
Lemma stop_ok s : on s -> (forall i, (i < 2)%nat -> htm_complete (look (i + looked (below s)) (store (below s) HTM_MEMORY_CONF)) = true) ->
  does (do_htm_stop T fuel compatible_with units t) tt [] 2 h n s.
Proof.
  intros Hs Hc. unfold do_htm_stop. change [] with (@nil (Z * Z) ++ []).
  eapply (does_bind _ _ (inr (look (looked (below s)) (store (below s) HTM_MEMORY_CONF))) tt [] [] 1 1).
  { destruct (get_status_ok h n s Hs) as (s1 & E & R). exists s1. split; [|done]. unfold attempt. by rewrite E. }
  intros s1 R1. assert (on s1) as Hs1 by (by rewrite (ran_status _ _ _ _ R1)). apply does_look; [done|]. intros s2 Hs2 R2.
  rewrite (ran_looked _ _ _ _ R1), (ran_store _ _ _ _ R1). cbn [after foldl].
  specialize (Hc 1%nat ltac:(lia)) as H1. unfold htm_complete in H1. apply bool_decide_eq_true in H1.
  replace (looked (below s) + 1)%nat with (1 + looked (below s))%nat by lia. rewrite H1.
  rewrite bool_decide_eq_false_2 by done. apply (does_pure _ _ tt); [by rewrite Hunits|].
  rewrite bool_decide_eq_false_2 by done. apply (does_pure _ _ tt); [done|].
  apply (does_pure _ _ tt); [apply htm_err_ok; unfold deconfigure_chtm; by rewrite Hcore|].
  apply does_err. unfold deconfigure_nhtm. rewrite Hnest. apply does_ret.
Qed.

(** From the start until the trace is complete and the unit was left *)
Lemma traced_ok size base s j c : ready size base s -> is_startable (look (S (looked (below s))) (setup_conf size base s)) = true ->
  first_look (2 + looked (below s)) j (setup_conf size base s) tracing -> (j < tries)%nat ->
  first_look (3 + j + looked (below s)) c (setup_conf size base s) htm_complete -> (c < tries)%nat ->
  (forall i, htm_complete (look (i + (4 + c + j + looked (below s))) (setup_conf size base s)) = true) ->
  does (htm_err (__do_htm_start T fuel tries compatible_with units t false);; htm_err (htm_wait_complete T fuel tries compatible_with t);;
        htm_err (do_htm_stop T fuel compatible_with units t)) tt
    (setup_writes false size base s ++ [(trig s, HTM_TRIG_MARK_VALID); (trig s, HTM_TRIG_START)]) (6 + c + j) h n s.
Proof.
  intros Hr Hst Hj Hjt Hc Hct Hstay. pose proof (ready_on _ _ _ Hr) as Hs. destruct (ready_offset _ _ _ Hr) as [Ho Ho'].
  rewrite <- (app_nil_r (_ ++ _)). replace (6 + c + j)%nat with (3 + j + (S c + 2))%nat by lia.
  eapply does_bind; [by apply does_err, start_ok|]. intros s1 R1. assert (on s1) as Hs1 by (by rewrite (ran_status _ _ _ _ R1)).
  assert (store (below s1) HTM_MEMORY_CONF = setup_conf size base s) as Hconf.
  { eapply setup_conf_stays; [done|exact R1|]. repeat constructor; cbn; unfold HTM_MEMORY_CONF; lia. }
  change [] with (@nil (Z * Z) ++ []). eapply does_bind.
  { apply does_err, wait_ok; [done|done|]. rewrite Hconf, (ran_looked _ _ _ _ R1).
    by replace (looked (below s) + (3 + j))%nat with (3 + j + looked (below s))%nat by lia. }
  intros s2 R2. apply does_err, stop_ok; [by rewrite (ran_status _ _ _ _ R2)|]. intros i Hi.
  rewrite (ran_store _ _ _ _ R2), (ran_looked _ _ _ _ R2), (ran_looked _ _ _ _ R1). cbn [after foldl]. rewrite Hconf.
  by replace (looked (below s) + (3 + j) + S c)%nat with (4 + c + j + looked (below s))%nat by lia.
Qed.

(** A unit that completes before it is seen tracing is waited for without end: every number of looks is too few. *)
Lemma waits_on n' done s : on s -> (forall i, done (look i (store (below s) HTM_MEMORY_CONF)) = false) ->
  exists w', wait_for T fuel compatible_with n' t done (World h n s) = (Crash NoFuel, w').
Proof.
  revert s. induction n' as [|n' IH]; intros s Hs Hd; [by eexists|]. cbn [wait_for].
  destruct (get_status_ok h n s Hs) as (s1 & E1 & R1). rewrite (bind_at _ _ _ _ _ (htm_err_ok _ _ _ _ E1)), Hd.
  apply IH; [by rewrite (ran_status _ _ _ _ R1)|]. by rewrite (ran_store _ _ _ _ R1).
Qed.
End Does.

(** ** The trace as a file *)

Section Dump.
Context {HF : HostFiles} (page_size : Z) (Hpage : 0 < page_size) (Halloc : forall k, can_alloc k page_size = true).
Context (l lp : list nat) (pib : nat) (Hline : ancestry T true t (t :: l)) (Hpib : nearest T "pib" l = Some pib) (Hup : ancestry T true pib lp)
  (Hfuel : (length l < fuel)%nat) (Hfuel' : (length lp < fuel)%nat).
(** What the file of the trace holds at the k-th look *)
Context (bytes : nat -> list Z) (Hbytes : forall d, trace_file (proc_index lp) d = Some (bytes (looked d))) (junk : Z) (filename : string).

Definition end_of (st : htm_status) : Z := u64 (mem_last st - mem_base st).
Definition end2_of (st : htm_status) : Z := match mem_last2 st with Some l => u64 (l - mem_base st) | None => 0 end.
(** What goes to the file: after a wrap, the older part of the memory first *)
Definition trace_content (wrapped : bool) (st : htm_status) (data : list Z) : list Z :=
  (if wrapped then slice (Z.to_nat (end_of st)) (Z.to_nat (htm_trace_size st - end_of st)) data else []) ++
  take (Z.to_nat (Z.max (end_of st) (end2_of st))) data.
Definition second_half : bool := p10_nest || p10_core compatible_with t.
Definition eye_pos : Z := if second_half then 8 else 0.
Definition eye_len : Z := if second_half then 8 else 4.
(** How much of the word the [i]-th call reads *)
Definition eye_read (i : nat) (data : list Z) : Z := read_takes (D := D) i eye_len (Z.of_nat (length data) - eye_pos).
(** The memory has wrapped if its start does not hold the word of a fresh trace. *)
Definition wrapped (i : nat) (data : list Z) : bool :=
  negb (eyecatcher_of junk (slice (Z.to_nat eye_pos) (Z.to_nat (eye_read i data)) data) =? 0x00f0efac).

Record trace_fits (st : htm_status) (data : list Z) : Prop := TraceFits {
  fits_end : 0 <= end_of st <= htm_trace_size st;
  fits_end2 : 0 <= end2_of st <= htm_trace_size st;
  fits_size : 16 <= htm_trace_size st <= Z.of_nat (length data);
  fits_width : Z.of_nat (length data) < 2 ^ 64
}.

Lemma eyecatcher_ok n h k s : 0 < n -> 0 <= trace_pos (htm_of s) -> trace_pos (htm_of s) + n <= Z.of_nat (length (trace_data (htm_of s))) ->
  exists i, let r := read_takes (D := D) i n (Z.of_nat (length (trace_data (htm_of s))) - trace_pos (htm_of s)) in read_eyecatcher junk n (World h k s) =
    (Ret (Some (eyecatcher_of junk (slice (Z.to_nat (trace_pos (htm_of s))) (Z.to_nat r) (trace_data (htm_of s))))),
     World h k (with_htm (set_trace (trace_data (htm_of s)) (trace_pos (htm_of s) + r) (count_call (htm_of s))) s)).
Proof.
  intros Hn Hp Hl. unfold read_eyecatcher. set (left := drop (Z.to_nat (trace_pos (htm_of s))) (trace_data (htm_of s))).
  assert (0 < Z.of_nat (length left)) as Hleft by (unfold left; rewrite length_drop; lia).
  pose proof (reads_some (calls (htm_of s)) n (Z.of_nat (length left)) ltac:(lia) Hleft) as Hr.
  exists (calls (htm_of s)). cbv zeta. replace (Z.of_nat (length (trace_data (htm_of s))) - trace_pos (htm_of s)) with (Z.of_nat (length left)) by (unfold left; rewrite length_drop; lia).
  rewrite (bind_at _ _ _ _ _ (get_htm_at h k s)). cbv zeta. fold left. rewrite (bind_at _ _ _ _ _ (put_htm_at _ h k s)).
  rewrite Z.max_r, (proj2 (Z.ltb_ge _ _)) by lia. done.
Qed.

Lemma eye_ok h k s data : 16 <= Z.of_nat (length data) -> exists i c pos, let r := eye_read i data in
  (if second_half then seek_trace 8;; read_eyecatcher junk 8 else read_eyecatcher junk 4) (World h k (with_htm (set_trace data 0 (htm_of s)) s)) =
  (Ret (Some (eyecatcher_of junk (slice (Z.to_nat eye_pos) (Z.to_nat r) data))), World h k (with_htm c s)) /\
  c = set_trace data pos c /\ dump_pos c = dump_pos (htm_of s) /\ files c = files (htm_of s) /\ htm_rest c = below s.
Proof.
  intros Hl. unfold eye_read, eye_pos, eye_len. destruct second_half.
  - destruct (eyecatcher_ok 8 h k (with_htm (set_trace data 8 (count_call (set_trace data 0 (htm_of s)))) s)) as (i & E); cbn; try lia.
    exists i. eexists _, _. cbv zeta. rewrite (bind_at _ _ _ _ _ (seek_ok 8 h k _)). split; [exact E|]. by split_and!.
  - destruct (eyecatcher_ok 4 h k (with_htm (set_trace data 0 (htm_of s)) s)) as (i & E); cbn; try lia.
    exists i. eexists _, _. cbv zeta. split; [exact E|]. by split_and!.
Qed.

(** From a position that is read to, the file goes on. *)
Lemma copy_from pos size h k s : 0 <= size < 2 ^ 64 -> 0 <= pos -> pos + size <= Z.of_nat (length (trace_data (htm_of s))) ->
  0 <= dump_pos (htm_of s) <= Z.of_nat (length (files (htm_of s) filename)) ->
  exists h' s', (ok ← seek_trace pos; if negb ok then fail (-1) else copy_file page_size filename size) (World h k s) = (Ret tt, World h' (S k) s') /\
    t_status s' = t_status s /\ below s' = below s /\ trace_data (htm_of s') = trace_data (htm_of s) /\ dump_pos (htm_of s') = dump_pos (htm_of s) + size /\
    files (htm_of s') filename = write_at (dump_pos (htm_of s)) (slice (Z.to_nat pos) (Z.to_nat size) (trace_data (htm_of s))) (files (htm_of s) filename) /\
    forall f, f <> filename -> files (htm_of s') f = files (htm_of s) f.
Proof.
  intros Hs Hp Hl Hd. rewrite (bind_at _ _ _ _ _ (seek_ok pos h k s)). cbn [negb].
  destruct (copy_file_ok page_size filename size h k (with_htm (set_trace (trace_data (htm_of s)) pos (count_call (htm_of s))) s)) as (l' & g & Hg & E); try done.
  eexists _, _. split; [exact E|]. destruct Hg as [G1 G2 G3 G4 G5 (G6 & G7 & G8)]. by split_and!.
Qed.

(** The older part, if there is one *)
Lemma copy_older w st data h k s : trace_data (htm_of s) = data -> dump_pos (htm_of s) = 0 -> trace_fits st data ->
  let a := if w : bool then slice (Z.to_nat (end_of st)) (Z.to_nat (htm_trace_size st - end_of st)) data else [] in
  exists h' k' s', (if w then ok ← seek_trace (end_of st); if negb ok then fail (-1) else copy_file page_size filename (u64 (htm_trace_size st - end_of st))
      else mret tt) (World h k s) = (Ret tt, World h' k' s') /\
    t_status s' = t_status s /\ below s' = below s /\ trace_data (htm_of s') = data /\ dump_pos (htm_of s') = Z.of_nat (length a) /\
    files (htm_of s') filename = write_at 0 a (files (htm_of s) filename) /\ forall f, f <> filename -> files (htm_of s') f = files (htm_of s) f.
Proof.
  intros Hdata Hd [He He2 Hz Hw'] a. destruct w.
  - rewrite (wrap_small 64) by (unfold in_range; lia).
    destruct (copy_from (end_of st) (htm_trace_size st - end_of st) h k s) as (h' & s' & E & A1 & A2 & A3 & A4 & A5 & A6);
      [lia|lia|rewrite Hdata; lia|lia|].
    exists h', (S k), s'. split; [exact E|]. rewrite A3, A4, A5, Hd, Hdata. split_and!; try done.
    unfold a. rewrite length_slice by lia. lia.
  - exists h, k, s. split_and!; try done.
Qed.

Lemma dump_ok h n s : on s -> let st := look (looked (below s)) (store (below s) HTM_MEMORY_CONF) in
  let data := bytes (S (looked (below s))) in
  Htm.state st = COMPLETE -> (p10_nest = true -> state2 st = Some COMPLETE) -> can_create filename (below s) = true -> trace_fits st data ->
  exists r h' n' s',
    do_htm_dump T fuel compatible_with page_size junk t filename (World h n s) = (Ret tt, World h' n' s') /\
    files (htm_of s') filename = write_at 0 (trace_content (wrapped r data) st data) (files (htm_of s) filename) /\
    (forall f, f <> filename -> files (htm_of s') f = files (htm_of s) f) /\ ran [] 1 s (moved (below s') (t_trace s') s).
Proof.
  intros Hs st data Hst Hst2 Hcr [He He2 Hz Hlen]. destruct (get_status_ok h n s Hs) as (s1 & E1 & R1). fold st in E1.
  destruct (eye_ok h n s1 data ltac:(lia)) as (r & c & pos & Eeye & Hc & Hcd & Hcf & Hcr'). exists r.
  assert (can_create filename (below s1) = true) as Hcr1 by (by rewrite (host_create _ _ (ran_host _ _ _ _ R1))).
  set (s2 := with_htm (set_dump (files c) 0 c) s1).
  assert (do_htm_dump T fuel compatible_with page_size junk t filename (World h n s) =
    ((if wrapped r data then ok ← seek_trace (end_of st); if negb ok then fail (-1) else copy_file page_size filename (u64 (htm_trace_size st - end_of st))
      else mret tt);; ok ← seek_trace 0; if negb ok then fail (-1) else copy_file page_size filename (if end_of st <? end2_of st then end2_of st else end_of st))
      (World h n s2)) as ->.
  { unfold do_htm_dump. rewrite (bind_at _ _ _ _ _ (htm_err_ok _ _ _ _ E1)), Hst. cbn [negb bool_decide decide decide_rel].
    rewrite bool_decide_eq_true_2 by done. cbn [negb].
    assert (p10_nest && negb (bool_decide (state2 st = Some COMPLETE)) = false) as ->.
    { destruct p10_nest eqn:Hp; [|done]. by rewrite bool_decide_eq_true_2 by auto. }
    rewrite (bind_at _ _ _ _ _ (file_index l lp pib Hline Hpib Hup Hfuel Hfuel' h n s1)), (bind_at _ _ _ _ _ (get_htm_at h n s1)).
    rewrite Hbytes. assert (looked (htm_rest (htm_of s1)) = S (looked (below s))) as Hk by (change (htm_rest (htm_of s1)) with (below s1); rewrite (ran_looked _ _ _ _ R1); lia).
    rewrite Hk. fold data. rewrite (bind_at _ _ _ _ _ (put_htm_at _ h n s1)). fold second_half. rewrite (bind_at _ _ _ _ _ Eeye). cbv zeta.
    rewrite (bind_at _ _ _ c (World h n (with_htm c s1))) by done. rewrite Hcr', Hcr1. cbn [negb].
    by rewrite (bind_at _ _ _ tt (World h n s2)). }
  destruct (copy_older (wrapped r data) st data h n s2) as (h3 & n3 & s3 & E3 & A1 & A2 & A3 & A4 & A5 & A6).
  { unfold s2. cbn. by rewrite Hc. }
  { done. }
  { by split. }
  rewrite (bind_at _ _ _ _ _ E3). clear E3. set (a := if wrapped r data then _ else _) in *.
  assert ((if end_of st <? end2_of st then end2_of st else end_of st) = Z.max (end_of st) (end2_of st)) as -> by (destruct (Z.ltb_spec (end_of st) (end2_of st)); lia).
  assert (files (htm_of s2) = files (htm_of s)) as Hf.
  { change (files (htm_of s2)) with (files c). rewrite Hcf. by destruct (ran_moved _ _ _ _ R1) as (d & tr & ->). }
  assert (length a <= length (files (htm_of s3) filename))%nat as Hla.
  { rewrite A5. pose proof (length_write_at 0 a (files (htm_of s2) filename) ltac:(lia)) as Hwl. exact Hwl. }
  destruct (copy_from 0 (Z.max (end_of st) (end2_of st)) h3 n3 s3) as (h4 & s4 & E4 & B1 & B2 & B3 & B4 & B5 & B6); [lia|lia|rewrite A3; lia|lia|].
  exists h4, (S n3), s4. split; [exact E4|]. split; [|split].
  - rewrite B5, A3, A4, A5, Hf. unfold trace_content. fold a.
    pose proof (write_at_app 0 a (slice 0 (Z.to_nat (Z.max (end_of st) (end2_of st))) data) (files (htm_of s) filename) ltac:(lia)) as Hwa.
    exact Hwa.
  - intros f Hne. by rewrite B6, A6, Hf.
  - rewrite B2, A2. unfold below at 1, htm_of. cbn. rewrite Hcr'.
    destruct (ran_moved _ _ _ _ R1) as (d & tr & Es1). destruct R1 as [_ C1 C2 C3 C4]. by apply ran_by.
Qed.
End Dump.

(** ** What a user of a unit gets *)

Section User.
Context (l lp : list nat) (pib : nat) (Hline : ancestry T true t (t :: l)) (Hpib : nearest T "pib" l = Some pib) (Hup : ancestry T true pib lp)
  (Hfuel : (length l < fuel)%nat) (Hfuel' : (length lp < fuel)%nat).
Abbreviation trig s := (4 + dual_htm_offset (htm_of s)).

Lemma look_memory k val size base : 2 ^ 24 <= size <= 2 ^ 38 -> Z.land base (base_field compatible_with t) = base ->
  mem_base (look k (memory_conf compatible_with t val size base)) = base /\ htm_trace_size (look k (memory_conf compatible_with t val size base)) = rounded size.
Proof.
  intros Hsize Hb. split; [by apply conf_base|]. apply trace_size_ok; [done|by apply conf_small|]. unfold look. cbn [mem_size].
  rewrite conf_size by done. apply wrap_small. pose proof (units_range size Hsize). unfold in_range. lia.
Qed.

(** What [configure_memory] writes to a nest or core unit of any of the chips is what [get_status] then reads
    out of it: the base is the base that the host gave, and the size is the size that the host gave cut to whole units
    of 16 MiB or 512 MiB, their number rounded up to a power of two, so that a power of two is not changed; the memory is
    allocated in the end, and was not while its size and base were not yet written. *)
Theorem memory_given h n s size base : t_status s P = PDBG_TARGET_ENABLED -> memory_there lp size base (below s) ->
  Z.land base (base_field compatible_with t) = base -> 0 <= dual_htm_offset (htm_of s) <= 1 ->
  exists s1 s2 st x y, configure_memory T fuel compatible_with t (World h n s) = (Ret tt, World h n s1) /\
    Htm.get_status T fuel compatible_with t (World h n s1) = (Ret st, World h n s2) /\
    mem_base st = base /\ htm_trace_size st = rounded size /\ (forall k, size = 2 ^ k -> htm_trace_size st = size) /\
    written (below s2) = written (below s) ++ [(HTM_MEMORY_CONF, x); (HTM_MEMORY_CONF, y); (trig s, HTM_TRIG_RESET)] /\
    Z.land x HTM_MEM_ALLOC = 0 /\ Z.land y HTM_MEM_ALLOC = HTM_MEM_ALLOC.
Proof.
  intros Hs Hm Hb Ho. pose proof (there_bounds _ _ _ _ Hm) as Hsize.
  destruct (configure_memory_ok h n l lp pib Hline Hpib Hup Hfuel Hfuel' size base s Hs Hm Ho) as (s1 & E1 & R1).
  destruct (get_status_ok h n s1) as (s2 & E2 & R2); [by rewrite (ran_status _ _ _ _ R1)|].
  pose proof (ran_trans _ _ _ _ _ _ _ R1 R2) as R. rewrite app_nil_r in R.
  assert (store (below s1) HTM_MEMORY_CONF = memory_conf compatible_with t (unallocated (store (below s) HTM_MEMORY_CONF)) size base) as Hconf.
  { rewrite (ran_store _ _ _ _ R1). unfold memory_writes. cbn [after foldl fst snd]. unfold HTM_MEMORY_CONF at 1. rewrite (proj2 (Z.eqb_neq 1 _)) by lia.
    by rewrite Z.eqb_refl. }
  rewrite Hconf in E2. destruct (look_memory (looked (below s1)) (unallocated (store (below s) HTM_MEMORY_CONF)) size base Hsize Hb) as [Hbase Hr].
  eexists s1, s2, _, _, _. split; [exact E1|]. split; [exact E2|]. split; [exact Hbase|]. split; [exact Hr|]. split.
  { intros k ->. rewrite Hr. apply rounded_power. assert (0 <= k) by (destruct (Z.le_gt_cases 0 k); [done|exfalso; revert Hsize; rewrite (Z.pow_neg_r 2 k) by done; lia]).
    split; apply (Z.pow_le_mono_r_iff 2); lia. }
  split; [exact (ran_written _ _ _ _ R)|]. split; [|by apply conf_alloc].
  unfold unallocated. rewrite <- Z.land_assoc. change (Z.land (u64 (Z.lnot HTM_MEM_ALLOC)) HTM_MEM_ALLOC) with 0. apply Z.land_0_r.
Qed.

Context (units : nat -> htm_ops D) (Hnest : pdbg_target_is_class T t "nhtm" = true) (Hcore : pdbg_target_is_class T t "chtm" = false).
Context (tries : nat) (junk : Z) (page_size : Z) (Hunits : units t = htm_unit T fuel tries compatible_with page_size units junk None None None None).

(** Starting a nest unit writes its setup, its memory and a reset, in that order, and nothing else before it has looked: in
    a state that it cannot be started from, of the one unit or of either of two, the call fails and the unit has not been
    told to start; otherwise it is marked valid and started, with nothing in between, and the call returns as soon as it is seen tracing. *)
Theorem trace_started h n s size base : t_status s t = PDBG_TARGET_ENABLED -> ready lp size base s ->
  let k := looked (below s) in
  let conf := setup_conf size base s in
  let setup := setup_writes true size base s in
  (is_startable compatible_with t (look (S k) conf) = false -> exists s', htm_start T units t (World h n s) = (Fail (-1), World h n s') /\
     written (below s') = written (below s) ++ setup) /\
  (forall j, is_startable compatible_with t (look (S k) conf) = true -> first_look (2 + k) j conf tracing -> (j < tries)%nat ->
     exists s', htm_start T units t (World h n s) = (Ret tt, World h n s') /\ looked (below s') = (k + (3 + j))%nat /\
       written (below s') = written (below s) ++ setup ++ [(trig s, HTM_TRIG_MARK_VALID); (trig s, HTM_TRIG_START)]).
Proof.
  intros Ht Hr k conf setup. unfold htm_start.
  rewrite (call_ok h n units Hnest _ (do_htm_start T fuel tries compatible_with units)) by (done || by rewrite Hunits). split.
  - intros Hst. edestruct (not_started h n l lp pib) with (wrap := true) as (s' & E & R); try done.
    exists s'. split; [exact E|]. exact (ran_written _ _ _ _ R).
  - intros j Hst Hj Hjt. edestruct (start_ok h n l lp pib) with (wrap := true) as (s' & E & R); try done.
    exists s'. split; [exact E|]. split; [exact (ran_looked _ _ _ _ R)|exact (ran_written _ _ _ _ R)].
Qed.

Context {HF : HostFiles} (Hpage : 0 < page_size) (Halloc : forall k, can_alloc k page_size = true).
Context (bytes : nat -> list Z) (Hbytes : forall d, trace_file (proc_index lp) d = Some (bytes (looked d))).

(** C12: recording with a nest unit that can be started, from the setup to the file. The conditions: the unit and its bus are
    enabled, the unit keeps what is written to it, the multiplexer has its default, the host has announced a trace memory of 16 MiB
    to 256 GiB at a base that fits the field for it, its files are there, no read, write or seek of them fails (a read may be short),
    the buffer of a copy is allocated, the unit is seen tracing after [j] looks and complete after [c] more, in whatever states
    between, and stays complete, and what it reports as the end of the trace lies in the memory. Then the unit is set up
    not to wrap, given the memory, started, waited for, and left without being stopped; these are all the registers that are written.
    The file then begins with the bytes of the trace in their order, however short the reads were, and what an older file
    of that name has behind them stays; no other file is changed. If the memory is taken to have wrapped, the older part of it goes
    first; this is decided by the word at its start, or what one read brings of it, before POWER10 at most half of it, and otherwise
    by what was in the variable before ([junk]). The memory the unit has is that of the host, its size cut to whole units and
    their number rounded up to a power of two. *)
Theorem trace_recorded filename h n s size base j c : t_status s t = PDBG_TARGET_ENABLED -> ready lp size base s ->
  Z.land base (base_field compatible_with t) = base -> can_create filename (below s) = true ->
  let k := looked (below s) in
  let conf := setup_conf size base s in
  let st := look (6 + c + j + k) conf in
  let data := bytes (7 + c + j + k)%nat in
  is_startable compatible_with t (look (S k) conf) = true ->
  first_look (2 + k) j conf tracing -> (j < tries)%nat -> first_look (3 + j + k) c conf htm_complete -> (c < tries)%nat ->
  (forall i, let st := look (i + (4 + c + j + k)) conf in Htm.state st = COMPLETE /\ (p10_nest = true -> state2 st = Some COMPLETE)) ->
  trace_fits st data ->
  exists i h' n' s',
    htm_record T units t (Some filename) (World h n s) = (Ret tt, World h' n' s') /\
    files (htm_of s') filename = write_at 0 (trace_content (wrapped junk i data) st data) (files (htm_of s) filename) /\
    (forall f, f <> filename -> files (htm_of s') f = files (htm_of s) f) /\
    mem_base st = base /\ htm_trace_size st = rounded size /\
    written (below s') = written (below s) ++ setup_writes false size base s ++ [(trig s, HTM_TRIG_MARK_VALID); (trig s, HTM_TRIG_START)].
Proof.
  intros Ht Hr Hb Hcr k conf st data Hst Hj Hjt Hc Hct Hstay Hfit. unfold htm_record, with_filename.
  rewrite (call_ok h n units Hnest _ (do_htm_record T fuel tries compatible_with page_size units junk)) by (done || by rewrite Hunits).
  edestruct (traced_ok h n l lp pib) with (j := j) (c := c) as (s1 & E1 & R1); try done.
  { intros i. unfold htm_complete. apply bool_decide_eq_true, Hstay. }
  assert (store (below s1) HTM_MEMORY_CONF = conf) as Hconf.
  { destruct (ready_offset _ _ _ _ Hr). eapply setup_conf_stays; try exact R1; try done. repeat constructor; cbn; unfold HTM_MEMORY_CONF; lia. }
  assert (looked (below s1) = 6 + c + j + k)%nat as Hk by (rewrite (ran_looked _ _ _ _ R1); unfold k; lia).
  destruct (Hstay 2%nat) as [Hs1 Hs2].
  edestruct (dump_ok page_size) with (h := h) (n := n) (s := s1) (filename := filename) (junk := junk) as (r & h' & n' & s' & E & Hfile & Hother & R2); try done.
  { by rewrite (ran_status _ _ _ _ R1), (ready_on _ _ _ _ Hr). }
  { by rewrite Hk, Hconf. }
  { by rewrite Hk, Hconf. }
  { by rewrite (host_create _ _ (ran_host _ _ _ _ R1)). }
  { by rewrite Hk, Hconf. }
  rewrite Hk, Hconf in Hfile. assert (files (htm_of s1) = files (htm_of s)) as Hf by (by destruct (ran_moved _ _ _ _ R1) as (d & tr & ->)).
  rewrite Hf in Hfile, Hother. exists r, h', n', s'. split.
  { rewrite <- (htm_err_ok _ _ _ _ E), <- (bind_at _ (fun _ => htm_err _) _ _ _ E1). rewrite bind_assoc. apply bind_ext. intros. by rewrite bind_assoc. }
  split; [done|]. split; [done|]. destruct (look_memory (6 + c + j + k) (unallocated (store (below s) HTM_MEMORY_CONF)) size base) as [Hb1 Hb2]; [apply (ready_memory _ _ _ _ Hr)|done|].
  split; [done|]. split; [done|]. pose proof (ran_written _ _ _ _ R2) as Hw2. change (below (moved (below s') (t_trace s') s1)) with (below s') in Hw2.
  rewrite Hw2, app_nil_r. by rewrite (ran_written _ _ _ _ R1).
Qed.
End User.
End Unit.
End Traces.


(** ** A POWER10 nest unit *)

Section Lab.
(** The registers, the looks at the status, and the writes *)
Record nest := Nest { n_store : Z -> Z; n_looked : nat; n_written : list (Z * Z) }.
Definition lab_compatible (u : nat) (c : string) : bool := String.eqb c "ibm,power10-nhtm".
Definition lab_base : Z := 2 ^ 30.
(** The unit gets ready, is seen tracing at the fourth look and complete from the sixth on. *)
Definition lab_live (k : nat) (r : Z) : Z :=
  if r =? HTM_STATUS then nth k [Z.lor HTM_STATUS_INIT HTM2_STATUS_INIT; Z.lor HTM_STATUS_READY HTM2_STATUS_PAUSED; Z.lor HTM_STATUS_READY HTM2_STATUS_READY;
    Z.lor HTM_STATUS_TRACING HTM2_STATUS_TRACING; Z.lor HTM_STATUS_FLUSH HTM2_STATUS_TRACING] (Z.lor HTM_STATUS_COMPLETE HTM2_STATUS_COMPLETE)
  else lab_base + (if r =? HTM_LAST_ADDRESS then 20 else 24).
Definition lab_head : list Z := le_bytes 8 1 ++ le_bytes 8 0xf0efac ++ le_bytes 8 7.
Lemma lab_filled : { l : list Z | Z.of_nat (length l) = 2 ^ 24 }.
Proof. exists (replicate (Z.to_nat (2 ^ 24)) 0). rewrite length_replicate. apply Z2Nat.id. lia. Qed.
Definition lab_rest : list Z := proj1_sig lab_filled.
Definition lab_bytes (k : nat) : list Z := if (k <? 5)%nat then [] else lab_head ++ lab_rest.
Definition lab_numbers (i : Z) (f : string) (d : nest) : option (option Z) :=
  if negb (i =? 1) then None else if String.eqb f "size" then Some (Some (2 ^ 24)) else if String.eqb f "start" then Some (Some lab_base) else None.

#[local] Instance lab_hw : Hardware (chips (htms nest)) :=
  {| hw_probe _ c := (c, 0); hw_release _ c := c;
     hw_read _ a c := let g := chip_dev c in let d := htm_rest g in let r := a - 0x1000 in
       (Chips (thread_of c) (release_spwkup c) (set_rest (Nest (n_store d) (if r =? HTM_STATUS then S (n_looked d) else n_looked d) (n_written d)) g),
        inr (if changes lab_compatible 2 r then lab_live (n_looked d) r else n_store d r));
     hw_write _ a v c := let g := chip_dev c in let d := htm_rest g in let r := a - 0x1000 in
       (Chips (thread_of c) (release_spwkup c) (set_rest (Nest (fun x => if x =? r then v else n_store d x) (n_looked d) (n_written d ++ [(r, v)])) g), 0) |}.
#[local] Instance lab_files : TraceFiles nest :=
  {| memtrace_there _ := true; scom_there _ := true; enabled_size _ := Some (Some (2 ^ 24)); announce _ d := (d, 1); scan_hex := lab_numbers;
     trace_file _ d := Some (lab_bytes (n_looked d)); can_create _ _ := true; read_takes _ n left := Z.min n left; write_takes _ n := n; can_seek _ _ := true |}.
#[local] Instance lab_alloc : Allocator := fun _ _ => true.
#[local] Instance lab_host : HostFiles.
Proof. split; [|done..]. intros k n left Hn Hl. cbn. lia. Qed.

Definition lab_tree : dtree :=
  Dtree (fun u => match u with
    | 2%nat => Node true (Some "nhtm"%string) None false NoRelease 0 (Some 1%nat) [] None (Some 0x1000%Z) 0 0 0 None false false
    | 1%nat => Node true (Some "pib"%string) None false NoRelease 1 (Some 0%nat) [2%nat] None (Some 0%Z) 0 0 0 None true true
    | _ => Node true None None false NoRelease 0 None [1%nat] None None 0 0 0 None false false end) 0 (fun _ => None) false.

Lemma lab_addr r (w : world (tgt (chips (htms nest)))) : is_reg r -> get_class_target_addr lab_tree 5 2 "pib" r w = (Ret (1%nat, r + 0x1000), w).
Proof. intros Hr. unfold is_reg in Hr. transitivity (Ret (1%nat, u64 (r + 0x1000)), w); [reflexivity|]. rewrite wrap_small; [done|unfold in_range; lia]. Qed.
Lemma lab_direct r : is_reg r -> truthy (Z.land (r + 0x1000) (PPC_BIT 0)) = false.
Proof.
  intros Hr. unfold is_reg in Hr. change (PPC_BIT 0) with (2 ^ 63). rewrite truthy_land_bit by lia.
  rewrite Z.testbit_odd, Z.shiftr_div_pow2, Z.div_small by lia. done.
Qed.

#[local] Instance lab_unit : TraceUnit lab_tree 5 lab_compatible 1 2 n_store n_looked lab_live n_written.
Proof.
  split.
  - intros r h n s Hs Hr. unfold pib_read. rewrite (bind_at _ _ _ _ _ (lab_addr r (World h n s) Hr)). unfold require_enabled.
    rewrite (bind_at _ _ _ tt (World h n s)) by (unfold pdbg_target_status_of, get_st, mbind, M_bind; cbn; by rewrite Hs).
    rewrite (bind_at _ _ _ tt (World h n s)) by done. unfold pib_any_read. rewrite lab_direct by done.
    eexists _, _. split; [|split; [|split; [|split]]].
    + unfold bus_read, hw_call, get_st, put_st, mbind, M_bind. cbn. replace (r + 4096 - 4096) with r by lia. reflexivity.
    + done.
    + done.
    + done.
    + done.
  - intros r v h n s Hs Hr. unfold pib_write. rewrite (bind_at _ _ _ _ _ (lab_addr r (World h n s) Hr)). unfold require_enabled.
    rewrite (bind_at _ _ _ tt (World h n s)) by (unfold pdbg_target_status_of, get_st, mbind, M_bind; cbn; by rewrite Hs).
    rewrite (bind_at _ _ _ tt (World h n s)) by done. unfold pib_any_write. rewrite lab_direct by done.
    eexists _, _. split; [|split; [|split; [|split]]].
    + unfold bus_write, hw_call, get_st, put_st, mbind, M_bind. cbn. replace (r + 4096 - 4096) with r by lia. reflexivity.
    + done.
    + done.
    + done.
    + done.
Qed.

(** What the operations of a unit use of the others is in its own members. *)
Definition lab_ops : htm_ops nest := HtmOps None None None None None None None None None.
Definition lab_units : nat -> htm_ops nest := fun _ => htm_unit lab_tree 5 9 lab_compatible 4096 (fun _ => lab_ops) 0 None None None None.
Lemma lab_knot : lab_units 2 = htm_unit lab_tree 5 9 lab_compatible 4096 lab_units 0 None None None None.
Proof. reflexivity. Qed.

Definition lab_old : list Z := replicate 30 255.
Definition lab_start : tgt (chips (htms nest)) :=
  Tgt (fun _ => PDBG_TARGET_ENABLED) (Chips (fun _ => ThreadVars 0 (ThreadState false false false false PDBG_THREAD_STATE_RUN PDBG_SMT_UNKNOWN) false false) (fun _ => false)
    (Htms 1 [] 0 (fun f => if String.eqb f "trace" then lab_old else []) 0 0 []
      (Nest (fun r => if r =? 10 then Z.shiftl NHTM_FLEX_DEFAULT_P10 24 else if r =? HTM_MEMORY_CONF then PPC_BIT 0 else 0) 0 []))) [].

Lemma lab_line : ancestry lab_tree true 2 [2; 1; 0]%nat.
Proof. by repeat (eapply anc_up; [reflexivity|]); apply anc_top. Qed.
Lemma lab_up : ancestry lab_tree true 1 [1; 0]%nat.
Proof. by repeat (eapply anc_up; [reflexivity|]); apply anc_top. Qed.
Lemma lab_memory : memory_there lab_tree [1; 0]%nat (2 ^ 24) lab_base (below lab_start).
Proof. by split. Qed.
Lemma lab_unit_ready : ready lab_tree lab_compatible 1 2 n_store [1; 0]%nat (2 ^ 24) lab_base lab_start.
Proof. split; [done|apply lab_memory|by exists (2 ^ 24)|done|by split]. Qed.

Lemma memory_given_witness : exists s1 s2 st, configure_memory lab_tree 5 lab_compatible 2 (World ∅ 0 lab_start) = (Ret tt, World ∅ 0 s1) /\
  Htm.get_status lab_tree 5 lab_compatible 2 (World ∅ 0 s1) = (Ret st, World ∅ 0 s2) /\ mem_base st = 2 ^ 30 /\ htm_trace_size st = 2 ^ 24.
Proof.
  destruct (memory_given lab_tree 5 lab_compatible 1 2 n_store n_looked lab_live n_written [1; 0]%nat [1; 0]%nat 1 lab_line eq_refl lab_up ltac:(cbn; lia) ltac:(cbn; lia)
    ∅ 0 lab_start (2 ^ 24) lab_base eq_refl lab_memory ltac:(reflexivity) ltac:(done)) as (s1 & s2 & st & x & y & E1 & E2 & Hb & _ & Hz & _).
  exists s1, s2, st. split; [exact E1|]. split; [exact E2|]. split; [exact Hb|]. by apply (Hz 24).
Defined.

Lemma trace_started_witness : exists s', htm_start lab_tree lab_units 2 (World ∅ 0 lab_start) = (Ret tt, World ∅ 0 s') /\
  drop 9 (n_written (below s')) = [(1, PPC_BIT 0 - PPC_BIT 0); (1, 2 ^ 63 + 2 ^ 58 + 2 ^ 30); (5, PPC_BIT 4); (5, PPC_BIT 5); (5, PPC_BIT 0)].
Proof.
  destruct (trace_started lab_tree 5 lab_compatible 1 2 n_store n_looked lab_live n_written [1; 0]%nat [1; 0]%nat 1 lab_line eq_refl lab_up ltac:(cbn; lia) ltac:(cbn; lia)
    lab_units eq_refl eq_refl 9 0 4096 lab_knot ∅ 0 lab_start (2 ^ 24) lab_base eq_refl lab_unit_ready) as [_ H].
  destruct (H 1%nat) as (s' & E & _ & Hwr); [by vm_compute| |lia|].
  - split; [by vm_compute|]. intros [|i] Hi; [by vm_compute|lia].
  - exists s'. split; [exact E|]. rewrite Hwr. by vm_compute.
Defined.

Lemma lab_length : Z.of_nat (length (lab_head ++ lab_rest)) = 24 + 2 ^ 24.
Proof. rewrite length_app, Nat2Z.inj_add. unfold lab_rest. by rewrite (proj2_sig lab_filled). Qed.
Lemma lab_fresh i : wrapped lab_compatible 2 0 i (lab_head ++ lab_rest) = false.
Proof.
  unfold wrapped, eye_read. rewrite lab_length. change (Z.to_nat (read_takes i (eye_len lab_compatible 2) (24 + 2 ^ 24 - eye_pos lab_compatible 2))) with 8%nat.
  change (Z.to_nat (eye_pos lab_compatible 2)) with 8%nat. rewrite slice_app_l by (cbn; lia). by vm_compute.
Qed.
Lemma trace_recorded_witness : exists h n s', htm_record lab_tree lab_units 2 (Some "trace"%string) (World ∅ 0 lab_start) = (Ret tt, World h n s') /\
  files (htm_of s') "trace" = lab_head ++ replicate 6 255.
Proof.
  destruct (trace_recorded lab_tree 5 lab_compatible 1 2 n_store n_looked lab_live n_written [1; 0]%nat [1; 0]%nat 1 lab_line eq_refl lab_up ltac:(cbn; lia) ltac:(cbn; lia)
    lab_units eq_refl eq_refl 9 0 4096 lab_knot ltac:(lia) (fun _ => eq_refl) lab_bytes (fun _ => eq_refl) "trace" ∅ 0 lab_start (2 ^ 24) lab_base 1 1 eq_refl lab_unit_ready)
    as (i & h' & n' & s' & E & Hf & _).
  - reflexivity.
  - reflexivity.
  - by vm_compute.
  - split; [by vm_compute|]. intros [|i] Hi; [by vm_compute|lia].
  - lia.
  - split; [by vm_compute|]. intros [|i] Hi; [by vm_compute|lia].
  - lia.
  - intros i. rewrite Nat.add_comm. by split.
  - split; [split; by vm_compute|split; by vm_compute| |]; change (lab_bytes (7 + 1 + 1 + n_looked (below lab_start))) with (lab_head ++ lab_rest);
      rewrite lab_length; [|lia]. split; by vm_compute.
  - exists h', n', s'. split; [exact E|]. rewrite Hf. change (lab_bytes (7 + 1 + 1 + n_looked (below lab_start))) with (lab_head ++ lab_rest).
    rewrite lab_fresh. unfold trace_content. match goal with |- context [Z.max ?a ?b] => replace (Z.max a b) with 24 by (vm_compute; reflexivity) end.
    change (Z.to_nat 24) with (length lab_head). by rewrite app_nil_l, take_app_length.
Defined.

(** The masks of the second unit have two bits of the first: what it says is not seen. *)
Example second_unit_unseen : error2_of HTM2_STATUS_CRESP_OV = NONE /\ error2_of (Z.lor HTM_STATUS_CRESP_OV HTM2_STATUS_ADDR_ERROR) = NONE /\
  state2_of HTM2_STATUS_REPAIR = UNINITIALIZED /\ state2_of (Z.lor HTM_STATUS_REPAIR HTM2_STATUS_READY) = UNINITIALIZED.
Proof. by vm_compute. Qed.

(** Four bytes are read of a word of eight. *)
Example half_an_eyecatcher : wrapped (fun _ _ => false) 2 (Z.shiftl 1 32) 0 (le_bytes 8 0xf0efac) = true /\ wrapped (fun _ _ => false) 2 0 0 (le_bytes 8 0xf0efac) = false.
Proof. by vm_compute. Qed.

(** The buffer of a copy stays allocated. *)
Example copy_leaks : map_to_list (w_heap (copy_file 4 "trace" 0 (World ∅ 0 lab_start)).2) = [(0%nat, replicate 4 None)].
Proof. reflexivity. Qed.

(** 512 MiB are printed as 0 GB; a size that is not a power of two units is taken for another one. *)
Example half_a_gigabyte : let s := Tgt (t_status lab_start) (Chips (thread_of (t_dev lab_start)) (release_spwkup (t_dev lab_start))
    (Htms 0 [] 0 (fun _ => []) 0 0 [] (Nest (fun _ => 0) 5 []))) [] in
  printed (htm_of (w_st (do_htm_status lab_tree 5 (fun _ _ => false) 2 (World ∅ 0 s)).2)) = [Report "COMPLETE" 0 (2 ^ 29) 0 "GB" (lab_base + 20)].
Proof. vm_compute. reflexivity. Qed.
Example three_quarters : rounded (3 * 2 ^ 28) = 2 ^ 29 /\ rounded (3 * 2 ^ 29) = 2 ^ 31.
Proof. by vm_compute. Qed.
End Lab.
